(* ===== verification/_CoqProject ===== *)
-Q . S2P
Prelude.v
ProcDefs.v
StateLists.v
PtableRep.v
Spinlock.v
CString.v
User.v
Kernel.v
Proc.v
ProcFacts.v
ProcLife.v
KernelFacts.v
SchedFacts.v
System.v
SystemFacts.v
Boot.v
Fair.v
ProcTheorems.v
Fork.v
ProcExamples.v
Types.v
Memory.v
Kalloc.v
Pipe.v
Block.v
BlockFacts.v
BioFacts.v
Bytes.v
Mp.v
Log.v
LogFacts.v
LogCrash.v
LogTx.v
Fs.v
FsLayout.v
FsFacts.v
FsData.v
FsWrite.v
FsFile.v
FsCache.v
FsPath.v
Mkfs.v
File.v
FileWrite.v
FileDemo.v
Vm.v
VmFacts.v
VmSpace.v
VmCopy.v
VmFork.v
VmUser.v
Syscall.v
Sysfile.v
Exec.v
Bootmain.v
Printf.v
Umalloc.v
UmallocFacts.v
UmallocTheorems.v
Console.v
ConsoleFacts.v
Kbd.v
ForkMemory.v
ForkDemo.v
ProcInfo.v
Cmos.v
Uprog.v
Sh.v
ShLex.v
ShParse.v
ShFacts.v
ShRun.v
Grep.v
Progs.v
Sysproc.v
Descr.v
Trap.v
Apic.v
Proc0.v
