(* ===== verification/Prelude.v ===== *)
(** * A verification of XV6PDX

    XV6PDX is xv6 for 32-bit x86 with the process management of a course: state lists, priorities with
    promotion and demotion, ownership of processes, and listings of the process table.  This library
    models the kernel, the boot loader, mkfs and the user programs as Rocq definitions that follow the
    C code function by function, and proves what each part promises to the others and to the user.
    File names below are those of src/src.

    ** How code is modelled

    Integers are [Z] with the wrap-around of their C type written out ([u32], [s32], [u16], [u8]);
    memory is a map from addresses to bytes where layout matters and records where it does not.  Code
    that changes state is in the monad [M S A] of this file: a state in, and a value and a state or an
    error out.  [EPanic] is a call of [panic], [EFault] a load or store the machine does not allow,
    [ESpin] a wait that nobody can end in this execution, [EFuel] a loop that has used up its bound.
    [wp m Q s] is total correctness: [m] ends from [s], without an error, and [Q] holds then.
    Components see each other through classes: [Services] (what proc.c calls), [BlockIO] and [TxIO]
    (what fs.c and file.c call), [Devices] (what trap.c calls); the clients are proved against the laws
    of the class, and the code behind it is shown to satisfy them.

    ** The parts

    Processes (proc.c, proc.h, spinlock.c).  ProcDefs holds the data; StateLists and PtableRep the linked
    state lists and their refinement to sequences of slots; Spinlock the locks and the nesting of
    interrupts; Kernel the state and services; Proc the routines in the configuration of project 4,
    Proc0 those of the default configuration 0.  ProcFacts, ProcLife, KernelFacts and SchedFacts relate each
    routine to its effect on the abstract table.  System is a transition system whose steps are the critical sections
    of the routines on any number of processors; SystemFacts and Boot prove that from boot no
    interleaving panics, that every process is on exactly the list of its state, and that no
    process runs twice; Fair that none starves.  ProcTheorems and Fork state the policies, ProcExamples
    runs them on concrete tables, Types checks the C types and pointers of the table, ProcInfo models the
    listings and [getprocs].

    Memory (kalloc.c, vm.c, mmu.h, memlayout.h).  Memory has words and pages, Kalloc the page allocator, Vm the page
    tables as pages of the byte memory.  VmFacts, VmSpace, VmCopy, VmFork and VmUser show what a
    process sees of them; ForkMemory puts allocator, page tables and files behind [Services], so that [fork]
    and [wait] are proved with the real memory; ForkDemo is such a machine.

    Disk and files (sleeplock.c, ide.c, bio.c, log.c, fs.c, file.c, pipe.c, mkfs.c).  Block, BlockFacts and BioFacts: driver
    and buffer cache refine one version of each block.  Log, LogFacts, LogCrash and LogTx: transactions are
    atomic whatever write the power fails after.  Fs, FsLayout, FsFacts, FsData, FsWrite, FsFile,
    FsCache and FsPath: inodes, contents, cache and names.  File, FileWrite and FileDemo: descriptors, and a write as a
    transaction.  Pipe: a bounded queue.  Mkfs: the initial image, which FileDemo boots.  Bytes: structures in byte arrays.

    System calls and traps (syscall.c, sysfile.c, sysproc.c, exec.c, trap.c).  Syscall checks arguments, Sysfile and
    Sysproc are the calls, Exec loads programs, Descr packs segment and gate descriptors, Trap dispatches.

    Devices and start-up.  Bootmain is the boot loader (bootmain.c), Mp finds the processors (mp.c), Apic
    programs the interrupt controllers and starts the other processors (lapic.c, ioapic.c, picirq.c,
    [startothers]), Console and ConsoleFacts are screen, line input and [panic] (console.c), Kbd the keyboard and the
    serial port (kbd.c, uart.c), Cmos the clock (lapic.c), Printf formatted output.

    User programs.  CString and User are the string routines (string.c, ulib.c), Umalloc, UmallocFacts and
    UmallocTheorems the allocator (umalloc.c), Uprog programs as trees of system calls, Sh, ShLex, ShParse, ShFacts
    and ShRun the shell (sh.c), Grep grep.c, Progs the small programs.

    ** What the theorems show

    The theorems marked C1, C2, ... are the main properties.  Safety of the kernel: Boot, Fair, Types, Trap.
    Atomicity and durability: LogTx, FileWrite.  Isolation: VmFork, VmUser, Kalloc, ForkMemory, Syscall, Descr.
    Refinement of abstract objects: pipes as queues, the console as a line terminal, the keyboard as keys,
    grep as the language of a pattern, the shell's parser as a grammar and its execution as processes with
    descriptors.  Start-up: Bootmain, Mp, Apic.  Behaviour that is not what the code means to do is proved too:
    LogTx.reservation_overcommits, ProcTheorems.wakeup_first_sleeper, Mp.unknown_entry_hangs.

    ** Bounds

    A loop whose end is not structural takes a number of rounds.  Where the code has a bound (a list of NPROC
    processes, a buffer of INPUT_BUF bytes, the path length, the size of a file) the definition uses it and the
    theorems show that it is enough; where the number of rounds depends on the outside (polls of the disk,
    reads of the clock, input of a program, wake-ups of [wait]) it is an argument and the theorems say which
    values are enough.  [EFuel] is never a result of a theorem about success.

    ** Not modelled

    The assembly files (bootasm.S, entry.S, entryother.S, swtch.S, trapasm.S, initcode.S, usys.S): [swtch] is a
    parameter or the end of a step, and the images that the kernel copies are parameters.  [main], [mpmain] and
    [mpenter], which call the initialisations in turn.  The configurations of projects 1 to 3, selections of
    the same code.  The test programs (usertests.c and the p2, p3, p4 and scheduling tests), which exercise the calls
    modelled here.  ps.c up to its rows.  Two processors inside one file-system call at a time: the block layer is one
    kernel thread.  The scripts of the build. *)

From stdpp Require Import base tactics numbers option list gmap sets strings.
From Stdlib Require Import ZArith Lia.

#[global] Open Scope Z_scope.

(** * Machine integers

    The kernel is compiled for a 32-bit x86: [uint] is 32 bits wide and [int]
    is its two's-complement reading.  Values are kept in [Z] and every place
    where the C code can wrap says so with one of these functions. *)
Definition u32 (z : Z) : Z := z mod 2 ^ 32.
Definition s32 (z : Z) : Z := (z + 2 ^ 31) mod 2 ^ 32 - 2 ^ 31.
Definition u16 (z : Z) : Z := z mod 2 ^ 16.
Definition s16 (z : Z) : Z := (z + 2 ^ 15) mod 2 ^ 16 - 2 ^ 15.
Definition u8 (z : Z) : Z := z mod 2 ^ 8.

Lemma u32_range z : 0 <= u32 z < 2 ^ 32.
Proof. unfold u32. apply Z.mod_pos_bound. lia. Qed.
Lemma u32_small z : 0 <= z < 2 ^ 32 -> u32 z = z.
Proof. intros. unfold u32. by apply Z.mod_small. Qed.
Lemma s32_range z : - 2 ^ 31 <= s32 z < 2 ^ 31.
Proof. unfold s32. pose proof (Z.mod_pos_bound (z + 2 ^ 31) (2 ^ 32)). lia. Qed.
Lemma s32_small z : - 2 ^ 31 <= z < 2 ^ 31 -> s32 z = z.
Proof. intros. unfold s32. rewrite Z.mod_small; lia. Qed.
Lemma u8_range z : 0 <= u8 z < 256.
Proof. unfold u8. apply Z.mod_pos_bound. lia. Qed.
Lemma u8_small z : 0 <= z < 256 -> u8 z = z.
Proof. intros. unfold u8. by apply Z.mod_small. Qed.
Lemma s32_u32 z : s32 (u32 z) = s32 z.
Proof. unfold s32, u32. f_equal. by rewrite Zplus_mod_idemp_l. Qed.
Lemma u32_s32 z : u32 (s32 z) = u32 z.
Proof.
  unfold s32, u32.
  rewrite Zminus_mod_idemp_l. f_equal. lia.
Qed.
Lemma u32_u32 z : u32 (u32 z) = u32 z.
Proof. unfold u32. by rewrite Zmod_mod. Qed.
Lemma u32_add_l a b : u32 (u32 a + b) = u32 (a + b).
Proof. unfold u32. by rewrite Zplus_mod_idemp_l. Qed.
Lemma u32_sub_l a b : u32 (u32 a - b) = u32 (a - b).
Proof. unfold u32. by rewrite Zminus_mod_idemp_l. Qed.
Lemma u32_sub_r a b : u32 (a - u32 b) = u32 (a - b).
Proof. unfold u32. by rewrite Zminus_mod_idemp_r. Qed.

(** * Outcomes and the kernel monad

    A kernel routine either returns, or stops in one of four ways: it calls
    [panic], it dereferences a null or wild pointer, it spins on a lock that
    nobody in this execution will release, or the recursion bound of the model
    is used up.  Theorems about the code show that none of these happens. *)
Inductive err :=
  | EPanic (msg : string)
  | EFault
  | ESpin
  | EFuel.

Inductive outcome (A : Type) :=
  | Ok (a : A)
  | Err (e : err).
Arguments Ok {A} a.
Arguments Err {A} e.

#[global] Instance outcome_ret : MRet outcome := fun A a => Ok a.
#[global] Instance outcome_bind : MBind outcome := fun A B f m =>
  match m with Ok a => f a | Err e => Err e end.

(** State-passing computations over a state [S] that return an [A]. *)
Definition M (S A : Type) : Type := S -> outcome (A * S).

#[global] Instance M_ret S : MRet (M S) := fun A a s => Ok (a, s).
#[global] Instance M_bind S : MBind (M S) := fun A B f m s =>
  match m s with
  | Ok (a, s') => f a s'
  | Err e => Err e
  end.

#[global] Instance M_fmap S : FMap (M S) := fun A B f m => m ≫= fun a => mret (f a).

Section ops.
Context {S A : Type}.
Definition fail (e : err) : M S A := fun _ => Err e.
Definition gets (f : S -> A) : M S A := fun s => Ok (f s, s).
Definition modify (f : S -> S) : M S unit := fun s => Ok (tt, f s).
(** Read through a pointer: [None] is a fault. *)
Definition deref (f : S -> option A) : M S A := fun s =>
  match f s with Some a => Ok (a, s) | None => Err EFault end.
(** Write through a pointer. *)
Definition store (f : S -> option S) : M S unit := fun s =>
  match f s with Some s' => Ok (tt, s') | None => Err EFault end.
(** [if(b) panic(msg)]. *)
Definition panic_if (b : bool) (msg : string) : M S unit := fun s =>
  if b then Err (EPanic msg) else Ok (tt, s).
End ops.

(** [for(...) f(x)] over a fixed sequence of values. *)
Fixpoint for_each {S A} (f : A -> M S unit) (xs : list A) : M S unit :=
  match xs with
  | [] => mret tt
  | x :: xs => f x;; for_each f xs
  end.

(** Run a computation on a component of a larger state. *)
Definition zoom {S T A} (get : S -> T) (set : T -> S -> S) (m : M T A) : M S A :=
  fun s => match m (get s) with
           | Ok (a, t) => Ok (a, set t s)
           | Err e => Err e
           end.

(** * Total-correctness specifications

    [wp m Q s]: started in [s], [m] returns (it does not panic, fault, spin or
    run out of fuel) with a value and a state that satisfy [Q]. *)
Definition wp {S A} (m : M S A) (Q : A -> S -> Prop) (s : S) : Prop :=
  match m s with Ok (a, s') => Q a s' | Err _ => False end.

Section wp_rules.
Context {S : Type}.
Implicit Types s : S.

Lemma wp_ret {A} (a : A) (Q : A -> S -> Prop) s : Q a s -> wp (mret a) Q s.
Proof. done. Qed.
Lemma wp_bind {A B} (m : M S A) (f : A -> M S B) (Q : B -> S -> Prop) s :
  wp m (fun a s' => wp (f a) Q s') s -> wp (m ≫= f) Q s.
Proof. unfold wp, mbind, M_bind. destruct (m s) as [[a s']|e]; done. Qed.
Lemma wp_unbind {A B} (m : M S A) (f : A -> M S B) (Q : B -> S -> Prop) s :
  wp (m ≫= f) Q s -> wp m (fun a s' => wp (f a) Q s') s.
Proof. unfold wp, mbind, M_bind. destruct (m s) as [[a s']|e]; done. Qed.
Lemma wp_mono {A} (m : M S A) (P Q : A -> S -> Prop) s :
  wp m P s -> (forall a s', P a s' -> Q a s') -> wp m Q s.
Proof. unfold wp. destruct (m s) as [[a s']|e]; eauto. Qed.
Lemma wp_conj {A} (m : M S A) (P Q : A -> S -> Prop) s :
  wp m P s -> wp m Q s -> wp m (fun a s' => P a s' /\ Q a s') s.
Proof. unfold wp. destruct (m s) as [[a s']|e]; eauto. Qed.
Lemma wp_gets {A} (f : S -> A) (Q : A -> S -> Prop) s : Q (f s) s -> wp (gets f) Q s.
Proof. done. Qed.
Lemma wp_modify (f : S -> S) (Q : unit -> S -> Prop) s : Q tt (f s) -> wp (modify f) Q s.
Proof. done. Qed.
Lemma wp_deref {A} (f : S -> option A) a (Q : A -> S -> Prop) s :
  f s = Some a -> Q a s -> wp (deref f) Q s.
Proof. unfold wp, deref. by intros ->. Qed.
Lemma wp_store (f : S -> option S) s' (Q : unit -> S -> Prop) s :
  f s = Some s' -> Q tt s' -> wp (store f) Q s.
Proof. unfold wp, store. by intros ->. Qed.
Lemma wp_panic_if b msg (Q : unit -> S -> Prop) s :
  b = false -> Q tt s -> wp (panic_if b msg) Q s.
Proof. unfold wp, panic_if. by intros ->. Qed.
Lemma wp_zoom {T A} (get : S -> T) set (m : M T A) (Q : A -> S -> Prop) s :
  wp m (fun a t => Q a (set t s)) (get s) -> wp (zoom get set m) Q s.
Proof. unfold wp, zoom. destruct (m (get s)) as [[a t]|e]; done. Qed.
Lemma wp_ok {A} (m : M S A) (Q : A -> S -> Prop) s :
  wp m Q s <-> exists a s', m s = Ok (a, s') /\ Q a s'.
Proof.
  unfold wp. destruct (m s) as [[a s']|e]; split; [eauto| |done|];
    by intros (? & ? & [= <- <-] & ?) || by intros (? & ? & ? & ?).
Qed.
Lemma wp_run {A} (m : M S A) a s' (Q : A -> S -> Prop) s :
  m s = Ok (a, s') -> Q a s' -> wp m Q s.
Proof. unfold wp. by intros ->. Qed.
Lemma wp_same {A} (m m' : M S A) (Q : A -> S -> Prop) s : m s = m' s -> wp m' Q s -> wp m Q s.
Proof. unfold wp. by intros ->. Qed.
End wp_rules.

(** One symbolic-execution step on a [wp] goal. *)
Ltac wp_step :=
  lazymatch goal with
  | |- wp (mbind _ _) _ _ => apply wp_bind
  | |- wp (mret _) _ _ => apply wp_ret
  | |- wp (gets _) _ _ => apply wp_gets
  | |- wp (modify _) _ _ => apply wp_modify
  | |- wp (zoom _ _ _) _ _ => apply wp_zoom
  | |- wp (deref _) _ _ => eapply wp_deref; [solve [eauto] |]
  | |- wp (store _) _ _ => eapply wp_store; [solve [eauto] |]
  | |- wp (panic_if _ _) _ _ => apply wp_panic_if; [solve [eauto] |]
  end.
Ltac wp_steps := repeat (wp_step; cbn beta).

Lemma wp_for_each {S A} (I : list A -> S -> Prop) (f : A -> M S unit) xs s :
  (forall x ys s, I (x :: ys) s -> wp (f x) (fun _ s' => I ys s') s) ->
  I xs s -> wp (for_each f xs) (fun _ s' => I [] s') s.
Proof.
  intros Hf. revert s. induction xs as [|x xs IH]; intros s HI; cbn.
  - by apply wp_ret.
  - apply wp_bind. eapply wp_mono; [by apply Hf|]. intros [] s'. apply IH.
Qed.

(** Unfold the monad to compute with a concrete prefix of a routine. *)
Ltac run_monad :=
  cbv [mbind M_bind mret M_ret gets modify panic_if fail zoom deref store]; cbn.
