(* ===== verification/ProcDefs.v ===== *)
(** Data model of the process subsystem: proc.h, the process table of proc.c,
    the saved register frames of x86.h and the constants they use. *)

From stdpp Require Import base tactics numbers option list gmap sets strings.
From Stdlib Require Import ZArith Lia.
From S2P Require Import Prelude.

(** * Constants (param.h, pdx.h, mmu.h) *)
Definition NPROC : nat := 64.
Definition NOFILE : nat := 16.
Definition NCPU : nat := 8.
Definition KSTACKSIZE : Z := 4096.
Definition PGSIZE : Z := 4096.
Definition MAXPRIO : nat := 6.
Definition DEFAULTPRIO : Z := 0.
Definition BUDGET : Z := 1000000.
Definition TICKS_TO_PROMOTE : Z := 3000.
Definition UID : Z := 0.
Definition GID : Z := 0.
#[global] Arguments NPROC : simpl never.
#[global] Arguments MAXPRIO : simpl never.

(** * Process states *)
Inductive procstate := UNUSED | EMBRYO | SLEEPING | RUNNABLE | RUNNING | ZOMBIE.

#[global] Instance procstate_eq_dec : EqDecision procstate.
Proof. solve_decision. Defined.

(** The enumerators in order; [NELEM(states)] of them. *)
Definition all_states : list procstate :=
  [UNUSED; EMBRYO; SLEEPING; RUNNABLE; RUNNING; ZOMBIE].
Definition statecount : nat := length all_states.
Definition state_index (st : procstate) : nat :=
  match st with
  | UNUSED => 0 | EMBRYO => 1 | SLEEPING => 2 | RUNNABLE => 3 | RUNNING => 4 | ZOMBIE => 5
  end.
(** [states[]], the printable names. *)
Definition states (st : procstate) : string :=
  match st with
  | UNUSED => "unused" | EMBRYO => "embryo" | SLEEPING => "sleep "
  | RUNNABLE => "runble" | RUNNING => "run   " | ZOMBIE => "zombie"
  end.

(** Sleep channels are addresses: a null pointer, the address of a slot of the
    process table, the address of [ticks], or another kernel address. *)
Inductive chan := CNull | CProc (p : nat) | CTicks | CAddr (a : Z).

#[global] Instance chan_eq_dec : EqDecision chan.
Proof. solve_decision. Defined.

(** [struct context] *)
Record context := MkContext {
  ctx_edi : Z; ctx_esi : Z; ctx_ebx : Z; ctx_ebp : Z; ctx_eip : Z }.

(** [struct trapframe]; the padding halfwords are left out. *)
Record trapframe := MkTrapframe {
  tf_edi : Z; tf_esi : Z; tf_ebp : Z; tf_oesp : Z; tf_ebx : Z; tf_edx : Z;
  tf_ecx : Z; tf_eax : Z; tf_gs : Z; tf_fs : Z; tf_es : Z; tf_ds : Z; tf_trapno : Z;
  tf_err : Z; tf_eip : Z; tf_cs : Z; tf_eflags : Z; tf_esp : Z; tf_ss : Z }.

Definition set_tf_eax (v : Z) (r : trapframe) : trapframe :=
  {| tf_edi := tf_edi r; tf_esi := tf_esi r; tf_ebp := tf_ebp r; tf_oesp := tf_oesp r;
     tf_ebx := tf_ebx r; tf_edx := tf_edx r; tf_ecx := tf_ecx r; tf_eax := v;
     tf_gs := tf_gs r; tf_fs := tf_fs r; tf_es := tf_es r; tf_ds := tf_ds r;
     tf_trapno := tf_trapno r; tf_err := tf_err r; tf_eip := tf_eip r; tf_cs := tf_cs r;
     tf_eflags := tf_eflags r; tf_esp := tf_esp r; tf_ss := tf_ss r |}.
Definition set_tf_eip (v : Z) (r : trapframe) : trapframe :=
  {| tf_edi := tf_edi r; tf_esi := tf_esi r; tf_ebp := tf_ebp r; tf_oesp := tf_oesp r;
     tf_ebx := tf_ebx r; tf_edx := tf_edx r; tf_ecx := tf_ecx r; tf_eax := tf_eax r;
     tf_gs := tf_gs r; tf_fs := tf_fs r; tf_es := tf_es r; tf_ds := tf_ds r;
     tf_trapno := tf_trapno r; tf_err := tf_err r; tf_eip := v; tf_cs := tf_cs r;
     tf_eflags := tf_eflags r; tf_esp := tf_esp r; tf_ss := tf_ss r |}.
Definition set_tf_esp (v : Z) (r : trapframe) : trapframe :=
  {| tf_edi := tf_edi r; tf_esi := tf_esi r; tf_ebp := tf_ebp r; tf_oesp := tf_oesp r;
     tf_ebx := tf_ebx r; tf_edx := tf_edx r; tf_ecx := tf_ecx r; tf_eax := tf_eax r;
     tf_gs := tf_gs r; tf_fs := tf_fs r; tf_es := tf_es r; tf_ds := tf_ds r;
     tf_trapno := tf_trapno r; tf_err := tf_err r; tf_eip := tf_eip r; tf_cs := tf_cs r;
     tf_eflags := tf_eflags r; tf_esp := v; tf_ss := tf_ss r |}.

(** [memset(tf, 0, sizeof( *tf))] *)
Definition zero_tf : trapframe := MkTrapframe 0 0 0 0 0 0 0 0 0 0 0 0 0 0 0 0 0 0 0.

(** [struct proc], with every CS333 project enabled.  Pointers to processes
    are indices into [ptable.proc]; [None] is a null pointer. *)
Record proc := MkProc {
  p_sz : Z; (* Size of process memory (bytes) *)
  p_pgdir : option Z; (* Page table *)
  p_kstack : option Z; (* Bottom of kernel stack for this process *)
  p_state : procstate; (* Process state *)
  p_pid : Z; (* Process ID *)
  p_parent : option nat; (* Parent process. NULL indicates no parent *)
  p_tf : trapframe; (* Trap frame for current syscall *)
  p_context : context; (* swtch() here to run process *)
  p_chan : chan; (* If non-zero, sleeping on chan *)
  p_killed : Z; (* If non-zero, have been killed *)
  p_ofile : list (option nat); (* Open files *)
  p_cwd : option nat; (* Current directory *)
  p_name : list Z; (* Process name (debugging) *)
  p_start_ticks : Z;
  p_uid : Z;
  p_gid : Z;
  p_cpu_ticks_total : Z;
  p_cpu_ticks_in : Z;
  p_next : option nat;
  p_priority : Z;
  p_budget : Z
}.

Definition set_p_sz (v : Z) (r : proc) : proc :=
  {| p_sz := v; p_pgdir := p_pgdir r; p_kstack := p_kstack r; p_state := p_state r;
     p_pid := p_pid r; p_parent := p_parent r; p_tf := p_tf r; p_context := p_context r;
     p_chan := p_chan r; p_killed := p_killed r; p_ofile := p_ofile r; p_cwd := p_cwd r;
     p_name := p_name r; p_start_ticks := p_start_ticks r; p_uid := p_uid r;
     p_gid := p_gid r; p_cpu_ticks_total := p_cpu_ticks_total r;
     p_cpu_ticks_in := p_cpu_ticks_in r; p_next := p_next r; p_priority := p_priority r;
     p_budget := p_budget r |}.
Definition set_p_pgdir (v : option Z) (r : proc) : proc :=
  {| p_sz := p_sz r; p_pgdir := v; p_kstack := p_kstack r; p_state := p_state r;
     p_pid := p_pid r; p_parent := p_parent r; p_tf := p_tf r; p_context := p_context r;
     p_chan := p_chan r; p_killed := p_killed r; p_ofile := p_ofile r; p_cwd := p_cwd r;
     p_name := p_name r; p_start_ticks := p_start_ticks r; p_uid := p_uid r;
     p_gid := p_gid r; p_cpu_ticks_total := p_cpu_ticks_total r;
     p_cpu_ticks_in := p_cpu_ticks_in r; p_next := p_next r; p_priority := p_priority r;
     p_budget := p_budget r |}.
Definition set_p_kstack (v : option Z) (r : proc) : proc :=
  {| p_sz := p_sz r; p_pgdir := p_pgdir r; p_kstack := v; p_state := p_state r;
     p_pid := p_pid r; p_parent := p_parent r; p_tf := p_tf r; p_context := p_context r;
     p_chan := p_chan r; p_killed := p_killed r; p_ofile := p_ofile r; p_cwd := p_cwd r;
     p_name := p_name r; p_start_ticks := p_start_ticks r; p_uid := p_uid r;
     p_gid := p_gid r; p_cpu_ticks_total := p_cpu_ticks_total r;
     p_cpu_ticks_in := p_cpu_ticks_in r; p_next := p_next r; p_priority := p_priority r;
     p_budget := p_budget r |}.
Definition set_p_state (v : procstate) (r : proc) : proc :=
  {| p_sz := p_sz r; p_pgdir := p_pgdir r; p_kstack := p_kstack r; p_state := v;
     p_pid := p_pid r; p_parent := p_parent r; p_tf := p_tf r; p_context := p_context r;
     p_chan := p_chan r; p_killed := p_killed r; p_ofile := p_ofile r; p_cwd := p_cwd r;
     p_name := p_name r; p_start_ticks := p_start_ticks r; p_uid := p_uid r;
     p_gid := p_gid r; p_cpu_ticks_total := p_cpu_ticks_total r;
     p_cpu_ticks_in := p_cpu_ticks_in r; p_next := p_next r; p_priority := p_priority r;
     p_budget := p_budget r |}.
Definition set_p_pid (v : Z) (r : proc) : proc :=
  {| p_sz := p_sz r; p_pgdir := p_pgdir r; p_kstack := p_kstack r; p_state := p_state r;
     p_pid := v; p_parent := p_parent r; p_tf := p_tf r; p_context := p_context r;
     p_chan := p_chan r; p_killed := p_killed r; p_ofile := p_ofile r; p_cwd := p_cwd r;
     p_name := p_name r; p_start_ticks := p_start_ticks r; p_uid := p_uid r;
     p_gid := p_gid r; p_cpu_ticks_total := p_cpu_ticks_total r;
     p_cpu_ticks_in := p_cpu_ticks_in r; p_next := p_next r; p_priority := p_priority r;
     p_budget := p_budget r |}.
Definition set_p_parent (v : option nat) (r : proc) : proc :=
  {| p_sz := p_sz r; p_pgdir := p_pgdir r; p_kstack := p_kstack r; p_state := p_state r;
     p_pid := p_pid r; p_parent := v; p_tf := p_tf r; p_context := p_context r;
     p_chan := p_chan r; p_killed := p_killed r; p_ofile := p_ofile r; p_cwd := p_cwd r;
     p_name := p_name r; p_start_ticks := p_start_ticks r; p_uid := p_uid r;
     p_gid := p_gid r; p_cpu_ticks_total := p_cpu_ticks_total r;
     p_cpu_ticks_in := p_cpu_ticks_in r; p_next := p_next r; p_priority := p_priority r;
     p_budget := p_budget r |}.
Definition set_p_tf (v : trapframe) (r : proc) : proc :=
  {| p_sz := p_sz r; p_pgdir := p_pgdir r; p_kstack := p_kstack r; p_state := p_state r;
     p_pid := p_pid r; p_parent := p_parent r; p_tf := v; p_context := p_context r;
     p_chan := p_chan r; p_killed := p_killed r; p_ofile := p_ofile r; p_cwd := p_cwd r;
     p_name := p_name r; p_start_ticks := p_start_ticks r; p_uid := p_uid r;
     p_gid := p_gid r; p_cpu_ticks_total := p_cpu_ticks_total r;
     p_cpu_ticks_in := p_cpu_ticks_in r; p_next := p_next r; p_priority := p_priority r;
     p_budget := p_budget r |}.
Definition set_p_context (v : context) (r : proc) : proc :=
  {| p_sz := p_sz r; p_pgdir := p_pgdir r; p_kstack := p_kstack r; p_state := p_state r;
     p_pid := p_pid r; p_parent := p_parent r; p_tf := p_tf r; p_context := v;
     p_chan := p_chan r; p_killed := p_killed r; p_ofile := p_ofile r; p_cwd := p_cwd r;
     p_name := p_name r; p_start_ticks := p_start_ticks r; p_uid := p_uid r;
     p_gid := p_gid r; p_cpu_ticks_total := p_cpu_ticks_total r;
     p_cpu_ticks_in := p_cpu_ticks_in r; p_next := p_next r; p_priority := p_priority r;
     p_budget := p_budget r |}.
Definition set_p_chan (v : chan) (r : proc) : proc :=
  {| p_sz := p_sz r; p_pgdir := p_pgdir r; p_kstack := p_kstack r; p_state := p_state r;
     p_pid := p_pid r; p_parent := p_parent r; p_tf := p_tf r; p_context := p_context r;
     p_chan := v; p_killed := p_killed r; p_ofile := p_ofile r; p_cwd := p_cwd r;
     p_name := p_name r; p_start_ticks := p_start_ticks r; p_uid := p_uid r;
     p_gid := p_gid r; p_cpu_ticks_total := p_cpu_ticks_total r;
     p_cpu_ticks_in := p_cpu_ticks_in r; p_next := p_next r; p_priority := p_priority r;
     p_budget := p_budget r |}.
Definition set_p_killed (v : Z) (r : proc) : proc :=
  {| p_sz := p_sz r; p_pgdir := p_pgdir r; p_kstack := p_kstack r; p_state := p_state r;
     p_pid := p_pid r; p_parent := p_parent r; p_tf := p_tf r; p_context := p_context r;
     p_chan := p_chan r; p_killed := v; p_ofile := p_ofile r; p_cwd := p_cwd r;
     p_name := p_name r; p_start_ticks := p_start_ticks r; p_uid := p_uid r;
     p_gid := p_gid r; p_cpu_ticks_total := p_cpu_ticks_total r;
     p_cpu_ticks_in := p_cpu_ticks_in r; p_next := p_next r; p_priority := p_priority r;
     p_budget := p_budget r |}.
Definition set_p_ofile (v : list (option nat)) (r : proc) : proc :=
  {| p_sz := p_sz r; p_pgdir := p_pgdir r; p_kstack := p_kstack r; p_state := p_state r;
     p_pid := p_pid r; p_parent := p_parent r; p_tf := p_tf r; p_context := p_context r;
     p_chan := p_chan r; p_killed := p_killed r; p_ofile := v; p_cwd := p_cwd r;
     p_name := p_name r; p_start_ticks := p_start_ticks r; p_uid := p_uid r;
     p_gid := p_gid r; p_cpu_ticks_total := p_cpu_ticks_total r;
     p_cpu_ticks_in := p_cpu_ticks_in r; p_next := p_next r; p_priority := p_priority r;
     p_budget := p_budget r |}.
Definition set_p_cwd (v : option nat) (r : proc) : proc :=
  {| p_sz := p_sz r; p_pgdir := p_pgdir r; p_kstack := p_kstack r; p_state := p_state r;
     p_pid := p_pid r; p_parent := p_parent r; p_tf := p_tf r; p_context := p_context r;
     p_chan := p_chan r; p_killed := p_killed r; p_ofile := p_ofile r; p_cwd := v;
     p_name := p_name r; p_start_ticks := p_start_ticks r; p_uid := p_uid r;
     p_gid := p_gid r; p_cpu_ticks_total := p_cpu_ticks_total r;
     p_cpu_ticks_in := p_cpu_ticks_in r; p_next := p_next r; p_priority := p_priority r;
     p_budget := p_budget r |}.
Definition set_p_name (v : list Z) (r : proc) : proc :=
  {| p_sz := p_sz r; p_pgdir := p_pgdir r; p_kstack := p_kstack r; p_state := p_state r;
     p_pid := p_pid r; p_parent := p_parent r; p_tf := p_tf r; p_context := p_context r;
     p_chan := p_chan r; p_killed := p_killed r; p_ofile := p_ofile r; p_cwd := p_cwd r;
     p_name := v; p_start_ticks := p_start_ticks r; p_uid := p_uid r; p_gid := p_gid r;
     p_cpu_ticks_total := p_cpu_ticks_total r; p_cpu_ticks_in := p_cpu_ticks_in r;
     p_next := p_next r; p_priority := p_priority r; p_budget := p_budget r |}.
Definition set_p_start_ticks (v : Z) (r : proc) : proc :=
  {| p_sz := p_sz r; p_pgdir := p_pgdir r; p_kstack := p_kstack r; p_state := p_state r;
     p_pid := p_pid r; p_parent := p_parent r; p_tf := p_tf r; p_context := p_context r;
     p_chan := p_chan r; p_killed := p_killed r; p_ofile := p_ofile r; p_cwd := p_cwd r;
     p_name := p_name r; p_start_ticks := v; p_uid := p_uid r; p_gid := p_gid r;
     p_cpu_ticks_total := p_cpu_ticks_total r; p_cpu_ticks_in := p_cpu_ticks_in r;
     p_next := p_next r; p_priority := p_priority r; p_budget := p_budget r |}.
Definition set_p_uid (v : Z) (r : proc) : proc :=
  {| p_sz := p_sz r; p_pgdir := p_pgdir r; p_kstack := p_kstack r; p_state := p_state r;
     p_pid := p_pid r; p_parent := p_parent r; p_tf := p_tf r; p_context := p_context r;
     p_chan := p_chan r; p_killed := p_killed r; p_ofile := p_ofile r; p_cwd := p_cwd r;
     p_name := p_name r; p_start_ticks := p_start_ticks r; p_uid := v; p_gid := p_gid r;
     p_cpu_ticks_total := p_cpu_ticks_total r; p_cpu_ticks_in := p_cpu_ticks_in r;
     p_next := p_next r; p_priority := p_priority r; p_budget := p_budget r |}.
Definition set_p_gid (v : Z) (r : proc) : proc :=
  {| p_sz := p_sz r; p_pgdir := p_pgdir r; p_kstack := p_kstack r; p_state := p_state r;
     p_pid := p_pid r; p_parent := p_parent r; p_tf := p_tf r; p_context := p_context r;
     p_chan := p_chan r; p_killed := p_killed r; p_ofile := p_ofile r; p_cwd := p_cwd r;
     p_name := p_name r; p_start_ticks := p_start_ticks r; p_uid := p_uid r; p_gid := v;
     p_cpu_ticks_total := p_cpu_ticks_total r; p_cpu_ticks_in := p_cpu_ticks_in r;
     p_next := p_next r; p_priority := p_priority r; p_budget := p_budget r |}.
Definition set_p_cpu_ticks_total (v : Z) (r : proc) : proc :=
  {| p_sz := p_sz r; p_pgdir := p_pgdir r; p_kstack := p_kstack r; p_state := p_state r;
     p_pid := p_pid r; p_parent := p_parent r; p_tf := p_tf r; p_context := p_context r;
     p_chan := p_chan r; p_killed := p_killed r; p_ofile := p_ofile r; p_cwd := p_cwd r;
     p_name := p_name r; p_start_ticks := p_start_ticks r; p_uid := p_uid r;
     p_gid := p_gid r; p_cpu_ticks_total := v; p_cpu_ticks_in := p_cpu_ticks_in r;
     p_next := p_next r; p_priority := p_priority r; p_budget := p_budget r |}.
Definition set_p_cpu_ticks_in (v : Z) (r : proc) : proc :=
  {| p_sz := p_sz r; p_pgdir := p_pgdir r; p_kstack := p_kstack r; p_state := p_state r;
     p_pid := p_pid r; p_parent := p_parent r; p_tf := p_tf r; p_context := p_context r;
     p_chan := p_chan r; p_killed := p_killed r; p_ofile := p_ofile r; p_cwd := p_cwd r;
     p_name := p_name r; p_start_ticks := p_start_ticks r; p_uid := p_uid r;
     p_gid := p_gid r; p_cpu_ticks_total := p_cpu_ticks_total r; p_cpu_ticks_in := v;
     p_next := p_next r; p_priority := p_priority r; p_budget := p_budget r |}.
Definition set_p_next (v : option nat) (r : proc) : proc :=
  {| p_sz := p_sz r; p_pgdir := p_pgdir r; p_kstack := p_kstack r; p_state := p_state r;
     p_pid := p_pid r; p_parent := p_parent r; p_tf := p_tf r; p_context := p_context r;
     p_chan := p_chan r; p_killed := p_killed r; p_ofile := p_ofile r; p_cwd := p_cwd r;
     p_name := p_name r; p_start_ticks := p_start_ticks r; p_uid := p_uid r;
     p_gid := p_gid r; p_cpu_ticks_total := p_cpu_ticks_total r;
     p_cpu_ticks_in := p_cpu_ticks_in r; p_next := v; p_priority := p_priority r;
     p_budget := p_budget r |}.
Definition set_p_priority (v : Z) (r : proc) : proc :=
  {| p_sz := p_sz r; p_pgdir := p_pgdir r; p_kstack := p_kstack r; p_state := p_state r;
     p_pid := p_pid r; p_parent := p_parent r; p_tf := p_tf r; p_context := p_context r;
     p_chan := p_chan r; p_killed := p_killed r; p_ofile := p_ofile r; p_cwd := p_cwd r;
     p_name := p_name r; p_start_ticks := p_start_ticks r; p_uid := p_uid r;
     p_gid := p_gid r; p_cpu_ticks_total := p_cpu_ticks_total r;
     p_cpu_ticks_in := p_cpu_ticks_in r; p_next := p_next r; p_priority := v;
     p_budget := p_budget r |}.
Definition set_p_budget (v : Z) (r : proc) : proc :=
  {| p_sz := p_sz r; p_pgdir := p_pgdir r; p_kstack := p_kstack r; p_state := p_state r;
     p_pid := p_pid r; p_parent := p_parent r; p_tf := p_tf r; p_context := p_context r;
     p_chan := p_chan r; p_killed := p_killed r; p_ofile := p_ofile r; p_cwd := p_cwd r;
     p_name := p_name r; p_start_ticks := p_start_ticks r; p_uid := p_uid r;
     p_gid := p_gid r; p_cpu_ticks_total := p_cpu_ticks_total r;
     p_cpu_ticks_in := p_cpu_ticks_in r; p_next := p_next r; p_priority := p_priority r;
     p_budget := v |}.

(** A zero-initialised slot of the table (static storage). *)
Definition zero_proc : proc :=
  MkProc 0 None None UNUSED 0 None zero_tf (MkContext 0 0 0 0 0) CNull 0
    (replicate NOFILE None) None (replicate 16 0) 0 0 0 0 0 None 0 0.

(** * The process table *)

(** [struct ptrs] *)
Record ptrs := MkPtrs { q_head : option nat; q_tail : option nat }.

(** The part of [ptable] that the list code works on. *)
Record ptable := MkPtable {
  procs : list proc;   (* struct proc proc[NPROC] *)
  plist : list ptrs;   (* struct ptrs list[statecount] *)
  ready : list ptrs    (* struct ptrs ready[MAXPRIO+1] *)
}.

Definition set_procs (v : list proc) (t : ptable) : ptable :=
  {| procs := v; plist := plist t; ready := ready t |}.
Definition set_plist (v : list ptrs) (t : ptable) : ptable :=
  {| procs := procs t; plist := v; ready := ready t |}.
Definition set_ready (v : list ptrs) (t : ptable) : ptable :=
  {| procs := procs t; plist := plist t; ready := v |}.

(** A list of the table: [&ptable.list[st]] or [&ptable.ready[i]]. *)
Inductive lid := LState (st : procstate) | LReady (i : nat).

#[global] Instance lid_eq_dec : EqDecision lid.
Proof. solve_decision. Defined.

Definition get_ptrs (l : lid) (t : ptable) : option ptrs :=
  match l with
  | LState st => plist t !! state_index st
  | LReady i => ready t !! i
  end.
Definition put_ptrs (l : lid) (v : ptrs) (t : ptable) : ptable :=
  match l with
  | LState st => set_plist (<[state_index st := v]> (plist t)) t
  | LReady i => set_ready (<[i := v]> (ready t)) t
  end.

(** [p->field] and [p->field = v] *)
Definition rd {A} (f : proc -> A) (p : nat) : M ptable A :=
  deref (fun t => f <$> procs t !! p).
Definition wr (f : proc -> proc) (p : nat) : M ptable unit :=
  store (fun t => r ← procs t !! p; Some (set_procs (<[p := f r]> (procs t)) t)).
(** [list->field] and an assignment to the pair of pointers *)
Definition rd_ptrs {A} (f : ptrs -> A) (l : lid) : M ptable A :=
  deref (fun t => f <$> get_ptrs l t).
Definition wr_ptrs (f : ptrs -> ptrs) (l : lid) : M ptable unit :=
  store (fun t => v ← get_ptrs l t; Some (put_ptrs l (f v) t)).
Definition set_q_head (v : option nat) (q : ptrs) : ptrs := MkPtrs v (q_tail q).
Definition set_q_tail (v : option nat) (q : ptrs) : ptrs := MkPtrs (q_head q) v.
