(* ===== verification/StateLists.v ===== *)
(** The state lists of proc.c: [stateListAdd], [stateListRemove],
    [initProcessLists], [initFreeList] and [assertState], on the process table
    with its [next] pointers, and the abstraction of the table to one sequence of
    process slots per list. *)

From stdpp Require Import base tactics numbers option list gmap sets strings.
From Stdlib Require Import ZArith Lia.
From S2P Require Import Prelude ProcDefs.

(** * The code *)

Definition nonnull {S} (p : option nat) : M S nat :=
  match p with Some q => mret q | None => fail EFault end.

(** [stateListAdd]: append [p] at the tail. *)
Definition stateListAdd (l : lid) (p : nat) : M ptable unit :=
  hd ← rd_ptrs q_head l;
  match hd with
  | None =>
      wr_ptrs (set_q_head (Some p)) l;;
      wr_ptrs (set_q_tail (Some p)) l;;
      wr (set_p_next None) p
  | Some _ =>
      tl ← rd_ptrs q_tail l ≫= nonnull;
      wr (set_p_next (Some p)) tl;;
      tl' ← rd p_next tl;
      wr_ptrs (set_q_tail tl') l;;
      tl2 ← rd_ptrs q_tail l ≫= nonnull;
      wr (set_p_next None) tl2
  end.

(** The search loop of [stateListRemove]: returns [(previous, current)]. *)
Fixpoint stateListFind (fuel : nat) (p previous current : option nat)
  : M ptable (option nat * option nat) :=
  match current with
  | None => mret (previous, None)
  | Some c =>
      if bool_decide (current = p) then mret (previous, current) else
      match fuel with
      | O => fail EFuel
      | S fuel => nx ← rd p_next c; stateListFind fuel p current nx
      end
  end.

(** [stateListRemove]: unlink [p]; 0 on success, -1 if [p] is not on the list. *)
Definition stateListRemove (l : lid) (p : option nat) : M ptable Z :=
  hd ← rd_ptrs q_head l;
  tl ← rd_ptrs q_tail l;
  if bool_decide (hd = None) || bool_decide (tl = None) || bool_decide (p = None)
  then mret (-1) else
  if bool_decide (hd = p) then
    h ← nonnull hd;
    nx ← rd p_next h;
    wr_ptrs (set_q_head nx) l;;
    (if bool_decide (tl = p) then wr_ptrs (set_q_tail None) l else mret tt);;
    mret 0
  else
    pc ← stateListFind NPROC p None hd;
    match pc with
    | (_, None) => mret (-1)
    | (previous, Some c) =>
        tl ← rd_ptrs q_tail l;
        (if bool_decide (Some c = tl) then
           wr_ptrs (set_q_tail previous) l;;
           tl2 ← rd_ptrs q_tail l ≫= nonnull;
           wr (set_p_next None) tl2
         else
           pv ← nonnull previous;
           nx ← rd p_next c;
           wr (set_p_next nx) pv);;
        q ← nonnull p;
        wr (set_p_next None) q;;
        mret 0
    end.

(** [initProcessLists]: empty every list. *)
Definition clear_list (l : lid) : M ptable unit :=
  wr_ptrs (set_q_head None) l;; wr_ptrs (set_q_tail None) l.
Definition initProcessLists : M ptable unit :=
  for_each (fun st => clear_list (LState st)) all_states;;
  for_each (fun i => clear_list (LReady i)) (seq 0 (S MAXPRIO)).

(** [initFreeList]: the loop from slot [p] on, [n] slots left. *)
Fixpoint initFreeList_from (n p : nat) : M ptable unit :=
  match n with
  | O => mret tt
  | S n =>
      wr (set_p_state UNUSED) p;;
      stateListAdd (LState UNUSED) p;;
      initFreeList_from n (S p)
  end.
Definition initFreeList : M ptable unit := initFreeList_from NPROC 0.

(** [assertState]: panics unless [p] is in the given state. *)
Definition assertState (p : nat) (st : procstate) : M ptable unit :=
  s ← rd p_state p;
  panic_if (negb (bool_decide (s = st))) "Error: Process state incorrect in assertState()".

(** The idiom of every caller: remove, panic on -1, check the state. *)
Definition removeOrPanic (l : lid) (p : nat) (msg : string) : M ptable unit :=
  r ← stateListRemove l (Some p);
  panic_if (r =? -1) msg.

(** How one round of a loop ends: [return] from the enclosing function, or go on
    with new values of the local variables. *)
Inductive ctl (A B : Type) := Return (a : A) | Continue (b : B).
Arguments Return {A B} a.
Arguments Continue {A B} b.

(** [while(p){ body; p = p->next; }] over a list.  [p->next] is read after the
    body, as in the source. *)
Fixpoint while_list {A B} (fuel : nat) (body : B -> nat -> M ptable (ctl A B)) (b : B)
    (p : option nat) : M ptable (ctl A B) :=
  match p with
  | None => mret (Continue b)
  | Some q =>
      match fuel with
      | O => fail EFuel
      | S fuel =>
          r ← body b q;
          match r with
          | Return a => mret (Return a)
          | Continue b => nx ← rd p_next q; while_list fuel body b nx
          end
      end
  end.

(** [for each l in ls: p = l.head; while(p) ...] *)
Fixpoint for_lists {A B} (ls : list lid) (body : B -> nat -> M ptable (ctl A B)) (b : B)
  : M ptable (ctl A B) :=
  match ls with
  | [] => mret (Continue b)
  | l :: ls =>
      hd ← rd_ptrs q_head l;
      r ← while_list NPROC body b hd;
      match r with Return a => mret (Return a) | Continue b => for_lists ls body b end
  end.
