(* ===== verification/PtableRep.v ===== *)
(** Abstraction of the process table: the linked lists threaded through
    [p->next] represent sequences of slots, and the list operations of
    StateLists.v implement the sequence operations. *)

From stdpp Require Import base tactics numbers option list gmap sets strings.
From Stdlib Require Import ZArith Lia.
From S2P Require Import Prelude ProcDefs StateLists.

(** * Linked segments *)

Definition hd_or (e : option nat) (xs : list nat) : option nat :=
  match xs with [] => e | x :: _ => Some x end.

(** [seg nx xs e]: following [nx] from the first element visits [xs] and then
    reaches [e]. *)
Fixpoint seg (nx : nat -> option nat) (xs : list nat) (e : option nat) : Prop :=
  match xs with
  | [] => True
  | x :: ys => nx x = hd_or e ys /\ seg nx ys e
  end.

Lemma seg_app nx xs ys e :
  seg nx (xs ++ ys) e <-> seg nx xs (hd_or e ys) /\ seg nx ys e.
Proof.
  induction xs as [|x xs IH]; cbn; [tauto|].
  rewrite IH. destruct xs; cbn; tauto.
Qed.

Lemma seg_ext nx nx' xs e :
  (forall x, x ∈ xs -> nx' x = nx x) -> seg nx xs e -> seg nx' xs e.
Proof.
  induction xs as [|x xs IH]; cbn; [done|]. intros Hx [H1 H2].
  split; [rewrite Hx; [done|set_solver]|].
  apply IH; [|done]. intros y Hy. apply Hx. set_solver.
Qed.

Lemma hd_or_app e xs ys : hd_or e (xs ++ ys) = hd_or (hd_or e ys) xs.
Proof. by destruct xs. Qed.
Lemma hd_or_head xs : hd_or None xs = list.head xs.
Proof. by destruct xs. Qed.

(** * The table seen through its pointers *)

(** [p->next] *)
Definition nxt (t : ptable) (p : nat) : option nat :=
  procs t !! p ≫= p_next.

(** The slots with their list pointer erased. *)
Definition pcbs (t : ptable) : list proc := set_p_next None <$> procs t.

(** The list [l] of the table is the sequence [xs]. *)
Definition is_list (t : ptable) (l : lid) (xs : list nat) : Prop :=
  get_ptrs l t = Some (MkPtrs (list.head xs) (last xs)) /\
  seg (nxt t) xs None /\
  Forall (fun p => (p < length (procs t))%nat) xs.

Definition valid_lid (l : lid) : Prop :=
  match l with LState _ => True | LReady i => (i <= MAXPRIO)%nat end.

(** What a list operation on [l] leaves alone: the other lists' heads and tails,
    the [next] pointers outside [xs], and every other field of every slot. *)
Record frame (t t' : ptable) (l : lid) (xs : list nat) : Prop := {
  frame_ptrs : forall l', l' <> l -> get_ptrs l' t' = get_ptrs l' t;
  frame_nxt : forall q, q ∉ xs -> nxt t' q = nxt t q;
  frame_pcbs : pcbs t' = pcbs t
}.

Lemma pcbs_length t : length (pcbs t) = length (procs t).
Proof. unfold pcbs. by rewrite length_fmap. Qed.

Lemma get_put_ptrs l v w t : get_ptrs l t = Some v -> get_ptrs l (put_ptrs l w t) = Some w.
Proof.
  destruct l; cbn; intros H%lookup_lt_Some; by rewrite list_lookup_insert_eq.
Qed.
Lemma state_index_inj a b : state_index a = state_index b -> a = b.
Proof. by destruct a, b. Qed.
Lemma get_put_ptrs_ne l l' w t : l' <> l -> get_ptrs l' (put_ptrs l w t) = get_ptrs l' t.
Proof.
  destruct l as [s|i], l' as [s'|i']; cbn; intros Hne; try done;
    rewrite list_lookup_insert_ne; try done; intros Heq; apply Hne.
  - f_equal. by apply state_index_inj.
  - by subst.
Qed.
Lemma procs_put_ptrs l w t : procs (put_ptrs l w t) = procs t.
Proof. by destruct l. Qed.

Definition upd (p : nat) (f : proc -> proc) (t : ptable) : ptable :=
  set_procs (alter f p (procs t)) t.

Lemma upd_procs p f t : procs (upd p f t) = alter f p (procs t).
Proof. done. Qed.
Lemma get_ptrs_upd l p f t : get_ptrs l (upd p f t) = get_ptrs l t.
Proof. by destruct l. Qed.
Lemma length_procs_upd p f t : length (procs (upd p f t)) = length (procs t).
Proof. cbn. by rewrite length_alter. Qed.
Lemma nxt_upd_ne p f t q : q <> p -> nxt (upd p f t) q = nxt t q.
Proof. intros. unfold nxt. cbn. by rewrite list_lookup_alter_ne. Qed.
Lemma nxt_upd_set p v t : (p < length (procs t))%nat -> nxt (upd p (set_p_next v) t) p = v.
Proof.
  intros [r Hr]%lookup_lt_is_Some. unfold nxt. cbn.
  by rewrite list_lookup_alter_eq, Hr.
Qed.
Lemma pcbs_upd p f t :
  (forall r, set_p_next None (f r) = f (set_p_next None r)) ->
  pcbs (upd p f t) = alter f p (pcbs t).
Proof.
  intros Hf. apply list_eq. intros i. unfold pcbs. cbn.
  destruct (decide (i = p)) as [->|].
  - rewrite list_lookup_alter_eq, !list_lookup_fmap, list_lookup_alter_eq.
    destruct (procs t !! p); cbn; by rewrite ?Hf.
  - rewrite list_lookup_alter_ne, !list_lookup_fmap, list_lookup_alter_ne by done. done.
Qed.
Lemma pcbs_upd_next p v t : pcbs (upd p (set_p_next v) t) = pcbs t.
Proof.
  apply list_eq. intros i. unfold pcbs. cbn. rewrite !list_lookup_fmap.
  destruct (decide (i = p)) as [->|].
  - rewrite list_lookup_alter_eq. by destruct (procs t !! p).
  - by rewrite list_lookup_alter_ne.
Qed.
Lemma pcbs_put_ptrs l w t : pcbs (put_ptrs l w t) = pcbs t.
Proof. unfold pcbs. by rewrite procs_put_ptrs. Qed.
Lemma nxt_put_ptrs l w t q : nxt (put_ptrs l w t) q = nxt t q.
Proof. unfold nxt. by rewrite procs_put_ptrs. Qed.

(** * Symbolic execution of table accesses *)

Lemma insert_alter (f : proc -> proc) (p : nat) r (l : list proc) : l !! p = Some r -> <[p := f r]> l = alter f p l.
Proof.
  intros Hr. apply list_eq. intros i. destruct (decide (i = p)) as [->|].
  - rewrite list_lookup_insert_eq by (by apply lookup_lt_Some in Hr).
    by rewrite list_lookup_alter_eq, Hr.
  - by rewrite list_lookup_insert_ne, list_lookup_alter_ne by done.
Qed.

Lemma wp_rd {A} (f : proc -> A) p r (Q : A -> ptable -> Prop) t :
  procs t !! p = Some r -> Q (f r) t -> wp (rd f p) Q t.
Proof. intros Hr HQ. eapply wp_deref; [|done]. by rewrite Hr. Qed.
Lemma wp_rd_next p (Q : option nat -> ptable -> Prop) t :
  (p < length (procs t))%nat -> Q (nxt t p) t -> wp (rd p_next p) Q t.
Proof.
  intros [r Hr]%lookup_lt_is_Some HQ. eapply wp_rd; [done|].
  unfold nxt in HQ. by rewrite Hr in HQ.
Qed.
Lemma wp_wr f p (Q : unit -> ptable -> Prop) t :
  (p < length (procs t))%nat -> Q tt (upd p f t) -> wp (wr f p) Q t.
Proof.
  intros [r Hr]%lookup_lt_is_Some HQ. eapply wp_store; [|done].
  rewrite Hr. cbn. by rewrite (insert_alter f p r).
Qed.
Lemma wp_rd_ptrs {A} (f : ptrs -> A) l v (Q : A -> ptable -> Prop) t :
  get_ptrs l t = Some v -> Q (f v) t -> wp (rd_ptrs f l) Q t.
Proof. intros Hv HQ. eapply wp_deref; [|done]. by rewrite Hv. Qed.
Lemma wp_wr_ptrs f l v (Q : unit -> ptable -> Prop) t :
  get_ptrs l t = Some v -> Q tt (put_ptrs l (f v) t) -> wp (wr_ptrs f l) Q t.
Proof. intros Hv HQ. eapply wp_store; [|done]. by rewrite Hv. Qed.
Lemma wp_nonnull {S} q (Q : nat -> S -> Prop) s : Q q s -> wp (nonnull (Some q)) Q s.
Proof. done. Qed.

Create Rewrite HintDb ptable.
#[export] Hint Rewrite get_ptrs_upd length_procs_upd pcbs_upd_next pcbs_put_ptrs
  procs_put_ptrs nxt_put_ptrs : ptable.

(** ** [stateListAdd] appends *)

Lemma is_list_head t l xs : is_list t l xs ->
  get_ptrs l t = Some (MkPtrs (list.head xs) (last xs)).
Proof. by intros [? _]. Qed.

Lemma head_snoc_Some (ys : list nat) tl : exists h, list.head (ys ++ [tl]) = Some h.
Proof. destruct ys; cbn; eauto. Qed.

Lemma stateListAdd_spec t l xs p :
  is_list t l xs -> NoDup xs -> p ∉ xs -> (p < length (procs t))%nat ->
  wp (stateListAdd l p)
     (fun _ t' => is_list t' l (xs ++ [p]) /\ frame t t' l (xs ++ [p])) t.
Proof.
  intros (Hptr & Hseg & Hlt) Hnd Hp Hpl. unfold stateListAdd.
  apply wp_bind. eapply wp_rd_ptrs; [done|]. cbn.
  destruct xs as [|tl ys _] using rev_ind; cbn in *.
  - apply wp_bind. eapply wp_wr_ptrs; [done|].
    apply wp_bind. eapply wp_wr_ptrs; [by eapply get_put_ptrs|]. cbn.
    apply wp_wr; [by autorewrite with ptable|].
    split; [split; [|split]|split].
    + rewrite get_ptrs_upd. eapply get_put_ptrs. by eapply get_put_ptrs.
    + cbn. split; [|done]. apply nxt_upd_set. by autorewrite with ptable.
    + constructor; [|done]. by autorewrite with ptable.
    + intros. by rewrite get_ptrs_upd, !get_put_ptrs_ne.
    + intros. rewrite nxt_upd_ne by set_solver. by autorewrite with ptable.
    + by autorewrite with ptable.
  - destruct (head_snoc_Some ys tl) as [h Hh]. rewrite Hh, last_snoc in *.
    rewrite Forall_app, Forall_singleton in Hlt. destruct Hlt as [Hys Htl].
    apply NoDup_app in Hnd as (_ & Hnt & _).
    assert (p <> tl) by set_solver.
    do 2 apply wp_bind. eapply wp_rd_ptrs; [done|]. apply wp_nonnull.
    apply wp_bind. apply wp_wr; [done|].
    apply wp_bind. apply wp_rd_next; [by autorewrite with ptable|].
    rewrite nxt_upd_set by done.
    apply wp_bind. eapply wp_wr_ptrs; [by rewrite get_ptrs_upd|].
    do 2 apply wp_bind. eapply wp_rd_ptrs; [by eapply get_put_ptrs; rewrite get_ptrs_upd|].
    apply wp_nonnull. apply wp_wr; [by autorewrite with ptable|].
    apply seg_app in Hseg as [Hs1 Hs2]. cbn in Hs1, Hs2.
    split; [split; [|split]|split].
    + rewrite get_ptrs_upd. erewrite get_put_ptrs by (by rewrite get_ptrs_upd).
      rewrite last_snoc. by destruct ys; cbn in *; simplify_eq.
    + rewrite <-app_assoc. cbn. apply seg_app. cbn.
      split; [|split; [|split; [|done]]].
      * eapply seg_ext; [|exact Hs1]. intros x Hx.
        assert (x <> p) by set_solver. assert (x <> tl) by set_solver.
        rewrite nxt_upd_ne, nxt_put_ptrs, nxt_upd_ne by done. done.
      * rewrite nxt_upd_ne, nxt_put_ptrs by done. by apply nxt_upd_set.
      * apply nxt_upd_set. by autorewrite with ptable.
    + rewrite !Forall_app, !Forall_singleton. autorewrite with ptable. done.
    + intros. rewrite get_ptrs_upd, !get_put_ptrs_ne by done. by autorewrite with ptable.
    + intros q Hq. rewrite nxt_upd_ne, nxt_put_ptrs, nxt_upd_ne by set_solver. done.
    + by autorewrite with ptable.
Qed.

(** ** [stateListRemove] unlinks *)

Lemma stateListFind_spec t p a b e fuel prev :
  seg (nxt t) (a ++ b) e -> Forall (fun q => (q < length (procs t))%nat) a ->
  p ∉ a -> hd_or e b = Some p \/ (b = [] /\ e = None) -> (length a <= fuel)%nat ->
  wp (stateListFind fuel (Some p) prev (hd_or e (a ++ b)))
    (fun r t' => t' = t /\
       r = (match last a with Some q => Some q | None => prev end, hd_or e b)) t.
Proof.
  revert fuel prev. induction a as [|x a IH]; intros fuel prev Hseg Hlt Hp Hb Hf.
  - cbn. destruct Hb as [Hb|[-> ->]]; cbn.
    + rewrite Hb. destruct fuel; cbn; rewrite bool_decide_eq_true_2 by done; done.
    + destruct fuel; done.
  - cbn in *. destruct fuel as [|fuel]; [lia|]. cbn.
    rewrite bool_decide_eq_false_2 by set_solver.
    apply Forall_cons in Hlt as [Hx Hlt]. destruct Hseg as [Hn Hseg].
    apply wp_bind, wp_rd_next; [done|]. rewrite Hn.
    eapply wp_mono; [apply IH; [done|done|set_solver|done|lia]|].
    intros r t' [-> ->]. split; [done|]. rewrite last_cons. by destruct (last a).
Qed.

Lemma last_Some_nonnil (xs : list nat) x : last (x :: xs) <> None.
Proof. by rewrite last_None. Qed.

(** Removing the head: the tail pointer is cleared when the list becomes empty. *)
Lemma stateListRemove_head t l p b :
  is_list t l (p :: b) -> NoDup (p :: b) ->
  wp (stateListRemove l (Some p))
     (fun r t' => r = 0 /\ is_list t' l b /\ frame t t' l (p :: b)) t.
Proof.
  intros (Hptr & [Hn Hseg] & Hlt) Hnd. unfold stateListRemove.
  apply Forall_cons in Hlt as [Hp Hlt]. apply NoDup_cons in Hnd as [Hpb _].
  apply wp_bind. eapply wp_rd_ptrs; [done|]. apply wp_bind. eapply wp_rd_ptrs; [done|].
  cbn [q_head q_tail list.head]. rewrite (bool_decide_eq_false_2 (last _ = None))
    by apply last_Some_nonnil. cbn. rewrite bool_decide_eq_true_2 by done.
  apply wp_bind, wp_nonnull, wp_bind, wp_rd_next; [done|]. rewrite Hn.
  apply wp_bind. eapply wp_wr_ptrs; [done|]. apply wp_bind.
  assert (Hfin : forall w t', t' = put_ptrs l w t -> w = MkPtrs (list.head b) (last b) ->
    is_list t' l b /\ frame t t' l (p :: b)).
  { intros w t' -> ->. split; [split; [|split]|split]; autorewrite with ptable.
    - by eapply get_put_ptrs.
    - eapply seg_ext; [|done]. intros. by autorewrite with ptable.
    - done.
    - intros. by apply get_put_ptrs_ne.
    - intros. by autorewrite with ptable.
    - done. }
  case_bool_decide as Hl.
  - assert (b = []) as -> by (destruct b as [|y b]; [done|];
      rewrite last_cons_cons in Hl; apply last_Some_elem_of in Hl; set_solver).
    eapply wp_wr_ptrs; [by eapply get_put_ptrs|]. apply wp_ret. split; [done|].
    eapply Hfin; [|done]. destruct l; cbn; unfold set_plist, set_ready; cbn; f_equal;
      apply list_insert_insert_eq.
  - apply wp_ret, wp_ret. split; [done|]. eapply Hfin; [done|].
    destruct b; [done|]. by rewrite hd_or_head.
Qed.

(** Bypassing [p]: its predecessor [pv] takes over its [next] pointer. *)
Lemma bypass_frame t t' l a pv p b h :
  is_list t l ((a ++ [pv]) ++ p :: b) -> NoDup ((a ++ [pv]) ++ p :: b) ->
  list.head (a ++ [pv]) = Some h ->
  procs t' = procs (upd pv (set_p_next (hd_or None b)) t) ->
  get_ptrs l t' = Some (MkPtrs (Some h) (last ((a ++ [pv]) ++ b))) ->
  (forall l', l' <> l -> get_ptrs l' t' = get_ptrs l' t) ->
  is_list (upd p (set_p_next None) t') l ((a ++ [pv]) ++ b) /\
  frame t (upd p (set_p_next None) t') l ((a ++ [pv]) ++ p :: b).
Proof.
  intros (_ & Hseg & Hlt) Hnd Hh Hpr Hw Hoth.
  rewrite Forall_app, Forall_cons in Hlt. destruct Hlt as (Hlta & Hltp & Hltb).
  apply NoDup_app in Hnd as (Ha & Hab & Hb). apply NoDup_cons in Hb as [Hpb _].
  apply NoDup_app in Ha as (_ & Ha & _).
  apply seg_app in Hseg as [Hs1 [_ Hs3]]. apply seg_app in Hs1 as [Hs0 _].
  assert (Hnx : forall q, q <> p -> q <> pv -> nxt (upd p (set_p_next None) t') q = nxt t q).
  { intros. rewrite nxt_upd_ne by done. unfold nxt. rewrite Hpr. by apply (nxt_upd_ne pv). }
  assert (Hlp : length (procs t') = length (procs t)) by (rewrite Hpr; apply length_procs_upd).
  assert (pv <> p) by set_solver.
  split; [split; [|split]|split].
  - rewrite get_ptrs_upd, Hw. do 2 f_equal. destruct a; cbn in *; congruence.
  - rewrite <-app_assoc. apply seg_app. cbn. split; [|split].
    + eapply seg_ext; [|exact Hs0]. intros x Hx. apply Hnx; set_solver.
    + rewrite nxt_upd_ne by done. unfold nxt. rewrite Hpr. apply nxt_upd_set.
      rewrite Forall_app, Forall_singleton in Hlta; tauto.
    + eapply seg_ext; [|exact Hs3]. intros x Hx. apply Hnx; set_solver.
  - autorewrite with ptable. rewrite Hlp. by apply Forall_app.
  - intros. rewrite get_ptrs_upd. by apply Hoth.
  - intros q Hq. apply Hnx; set_solver.
  - rewrite pcbs_upd_next. unfold pcbs at 1. rewrite Hpr. apply pcbs_upd_next.
Qed.

(** Removing a later element: the predecessor is relinked, or becomes the tail. *)
Lemma stateListRemove_later t l a pv p b :
  let xs := (a ++ [pv]) ++ p :: b in
  is_list t l xs -> NoDup xs -> (length xs <= NPROC)%nat ->
  wp (stateListRemove l (Some p))
     (fun r t' => r = 0 /\ is_list t' l ((a ++ [pv]) ++ b) /\ frame t t' l xs) t.
Proof.
  intros xs HL Hnd Hlen. destruct (head_snoc_Some a pv) as [h Hh].
  pose proof (fun t' => bypass_frame t t' l a pv p b h HL Hnd Hh) as Hfin.
  destruct HL as (Hptr & Hseg & Hlt). unfold stateListRemove.
  assert (Hhx : list.head xs = Some h) by (subst xs; destruct a; cbn in *; done).
  assert (Hpa : p ∉ a ++ [pv] /\ p ∉ b).
  { apply NoDup_app in Hnd as (_ & Hab & Hb). apply NoDup_cons in Hb. set_solver. }
  destruct Hpa as (Hpa & Hpb). assert (Hhp : h <> p) by (destruct a; cbn in *; set_solver).
  subst xs. rewrite Forall_app, Forall_cons in Hlt. destruct Hlt as (Hlta & Hltp & Hltb).
  assert (Hltpv : (pv < length (procs t))%nat)
    by (rewrite Forall_app, Forall_singleton in Hlta; tauto).
  apply wp_bind. eapply wp_rd_ptrs; [done|]. apply wp_bind. eapply wp_rd_ptrs; [done|].
  cbn [q_head q_tail]. rewrite Hhx, last_app_cons in *.
  rewrite (bool_decide_eq_false_2 (last _ = None)) by apply last_Some_nonnil. cbn.
  rewrite bool_decide_eq_false_2 by congruence.
  apply wp_bind. eapply wp_mono.
  { rewrite <-Hhx, <-hd_or_head. apply stateListFind_spec; [done..|by left|].
    rewrite length_app in Hlen. cbn in Hlen. lia. }
  intros r t' [-> ->]. rewrite last_snoc. cbn [hd_or].
  apply wp_bind. eapply wp_rd_ptrs; [done|]. cbn [q_tail].
  apply wp_bind. apply seg_app in Hseg as [_ [Hs2 _]].
  case_bool_decide as Hl.
  - assert (b = []) as -> by (destruct b as [|y b]; [done|];
      rewrite last_cons_cons in Hl; symmetry in Hl; apply last_Some_elem_of in Hl; set_solver).
    apply wp_bind. eapply wp_wr_ptrs; [done|]. do 2 apply wp_bind.
    eapply wp_rd_ptrs; [by eapply get_put_ptrs|]. apply wp_nonnull.
    apply wp_wr; [by autorewrite with ptable|].
    apply wp_bind, wp_nonnull, wp_bind, wp_wr; [by autorewrite with ptable|].
    apply wp_ret. split; [done|]. apply Hfin.
    + cbn. by rewrite procs_put_ptrs.
    + rewrite get_ptrs_upd, app_nil_r, last_snoc. by eapply get_put_ptrs.
    + intros. rewrite get_ptrs_upd. by apply get_put_ptrs_ne.
  - apply wp_bind, wp_nonnull, wp_bind, wp_rd_next; [done|]. rewrite Hs2.
    apply wp_wr; [done|]. apply wp_bind, wp_nonnull, wp_bind, wp_wr; [by autorewrite with ptable|].
    apply wp_ret. split; [done|]. apply Hfin; [done| |].
    + rewrite get_ptrs_upd, Hptr. do 2 f_equal.
      destruct b as [|y b]; [done|]. by rewrite last_cons_cons, last_app_cons.
    + intros. apply get_ptrs_upd.
Qed.

Lemma stateListRemove_spec t l a p b :
  is_list t l (a ++ p :: b) -> NoDup (a ++ p :: b) -> (length (a ++ p :: b) <= NPROC)%nat ->
  wp (stateListRemove l (Some p))
     (fun r t' => r = 0 /\ is_list t' l (a ++ b) /\ frame t t' l (a ++ p :: b)) t.
Proof.
  destruct a as [|pv a _] using rev_ind; intros.
  - by apply stateListRemove_head.
  - by apply stateListRemove_later.
Qed.

(** A process that is not on the list: -1, and nothing is written. *)
Lemma stateListRemove_absent t l xs p :
  is_list t l xs -> p ∉ xs -> (length xs <= NPROC)%nat ->
  wp (stateListRemove l (Some p)) (fun r t' => r = -1 /\ t' = t) t.
Proof.
  intros (Hptr & Hseg & Hlt) Hp Hlen. unfold stateListRemove.
  apply wp_bind. eapply wp_rd_ptrs; [done|]. apply wp_bind. eapply wp_rd_ptrs; [done|].
  cbn [q_head q_tail]. destruct xs as [|x xs]; [done|].
  rewrite (bool_decide_eq_false_2 (last _ = None)) by apply last_Some_nonnil. cbn.
  rewrite bool_decide_eq_false_2 by set_solver.
  apply wp_bind. eapply wp_mono.
  { apply (stateListFind_spec t p (x :: xs) [] None); [by rewrite app_nil_r|done|done|by right|done]. }
  by intros r t' [-> ->].
Qed.

(** * The whole table *)

(** One sequence of slots per list. *)
Definition lists := lid -> list nat.
Definition lset (L : lists) (l : lid) (xs : list nat) : lists :=
  fun l' => if decide (l' = l) then xs else L l'.
Definition lrem (p : nat) (xs : list nat) : list nat := filter (fun q => q <> p) xs.

Lemma lset_eq L l xs : lset L l xs l = xs.
Proof. unfold lset. by rewrite decide_True. Qed.
Lemma lset_ne L l xs l' : l' <> l -> lset L l xs l' = L l'.
Proof. intros. unfold lset. by rewrite decide_False. Qed.

Lemma lrem_absent p xs : p ∉ xs -> lrem p xs = xs.
Proof.
  unfold lrem. induction xs as [|x xs IH]; [done|]. intros Hp.
  rewrite filter_cons_True by set_solver. f_equal. apply IH. set_solver.
Qed.
Lemma lrem_split p a b : NoDup (a ++ p :: b) -> lrem p (a ++ p :: b) = a ++ b.
Proof.
  intros Hnd. apply NoDup_app in Hnd as (_ & Hab & Hb). apply NoDup_cons in Hb as [Hb _].
  unfold lrem. rewrite filter_app, filter_cons_False by tauto.
  pose proof (lrem_absent p a) as Ha. pose proof (lrem_absent p b) as Hb'.
  unfold lrem in Ha, Hb'. rewrite Ha, Hb'; [done..|set_solver].
Qed.
Lemma elem_of_lrem p q xs : q ∈ lrem p xs <-> q ∈ xs /\ q <> p.
Proof. unfold lrem. rewrite list_elem_of_filter. tauto. Qed.

(** Distinct slots below [n] are at most [n]. *)
Lemma NoDup_bound (xs : list nat) n :
  NoDup xs -> Forall (fun p => (p < n)%nat) xs -> (length xs <= n)%nat.
Proof.
  intros Hnd Hlt. rewrite <-(length_seq n 0). apply submseteq_length.
  apply NoDup_submseteq; [done|]. intros x Hx. rewrite Forall_forall in Hlt.
  apply elem_of_seq. specialize (Hlt x Hx). lia.
Qed.

Section rep.
(** The list a slot belongs on, from its fields. *)
Context (home : proc -> lid).

(** [rep t P L off]: the table [t] holds the slots [P] and the lists [L]; a slot
    is on the list its fields name, and on no other, unless it is in transit
    ([off]), when it is on none. *)
Record rep (t : ptable) (P : list proc) (L : lists) (off : gset nat) : Prop := {
  rep_pcbs : pcbs t = P;
  rep_len : length P = NPROC;
  rep_list : forall l, valid_lid l -> is_list t l (L l);
  rep_nodup : forall l, NoDup (L l);
  rep_home : forall l p, p ∈ L l <-> p ∉ off /\ exists r, P !! p = Some r /\ home r = l;
  rep_valid : forall l p, p ∈ L l -> valid_lid l
}.

Lemma rep_procs_len t P L off : rep t P L off -> length (procs t) = NPROC.
Proof. intros H. by rewrite <-pcbs_length, (rep_pcbs _ _ _ _ H), (rep_len _ _ _ _ H). Qed.
Lemma rep_elem_lt t P L off l p : rep t P L off -> p ∈ L l -> (p < NPROC)%nat.
Proof.
  intros H [_ (r & Hr & _)]%(rep_home _ _ _ _ H). apply lookup_lt_Some in Hr.
  by rewrite (rep_len _ _ _ _ H) in Hr.
Qed.
Lemma rep_len_le t P L off l : rep t P L off -> (length (L l) <= NPROC)%nat.
Proof.
  intros H. apply NoDup_bound; [by eapply rep_nodup|]. apply Forall_forall.
  intros p Hp. by eapply rep_elem_lt.
Qed.
Lemma rep_ext t P L L' off : (forall l, L' l = L l) -> rep t P L off -> rep t P L' off.
Proof. intros HL []. split; try done; intros; rewrite ?HL in *; eauto. Qed.
Lemma rep_off_eq t P L off off' : off ≡ off' -> rep t P L off -> rep t P L off'.
Proof. intros <-%leibniz_equiv. done. Qed.
Lemma rep_lookup t P L off p r : rep t P L off -> P !! p = Some r ->
  exists r0, procs t !! p = Some r0 /\ r = set_p_next None r0.
Proof.
  intros H Hr. rewrite <-(rep_pcbs _ _ _ _ H) in Hr. unfold pcbs in Hr.
  rewrite list_lookup_fmap in Hr. destruct (procs t !! p); cbn in Hr; [|done].
  simplify_eq. eauto.
Qed.

(** Reading a field other than [next]. *)
Lemma wp_rep_rd {A} (f : proc -> A) t P L off p r (Q : A -> ptable -> Prop) :
  rep t P L off -> P !! p = Some r -> (forall r, f (set_p_next None r) = f r) ->
  Q (f r) t -> wp (rd f p) Q t.
Proof.
  intros H Hr Hf HQ. destruct (rep_lookup _ _ _ _ _ _ H Hr) as (r0 & Hr0 & ->).
  eapply wp_rd; [done|]. by rewrite Hf in HQ.
Qed.

(** A frame step re-establishes [is_list] for the other lists. *)
Lemma frame_is_list t t' l l' xs ys :
  frame t t' l xs -> l' <> l -> (forall q, q ∈ ys -> q ∉ xs) ->
  is_list t l' ys -> is_list t' l' ys.
Proof.
  intros [Hp Hn Hpc] Hne Hdis (H1 & H2 & H3). split; [|split].
  - by rewrite Hp.
  - eapply seg_ext; [|done]. intros x Hx. apply Hn. by apply Hdis.
  - by rewrite <-(pcbs_length t'), Hpc, pcbs_length.
Qed.

Lemma rep_remove t P L off l p :
  rep t P L off -> p ∈ L l ->
  wp (stateListRemove l (Some p))
     (fun r t' => r = 0 /\ rep t' P (lset L l (lrem p (L l))) (off ∪ {[p]})) t.
Proof.
  intros H Hp. pose proof (rep_nodup _ _ _ _ H l) as Hnd.
  pose proof (rep_len_le _ _ _ _ l H) as Hlen.
  pose proof (rep_list _ _ _ _ H l (rep_valid _ _ _ _ H _ _ Hp)) as Hil.
  apply list_elem_of_split in Hp as (a & b & Hl). rewrite Hl in *.
  eapply wp_mono; [by apply stateListRemove_spec|].
  intros r t' (-> & Hil' & Hfr). split; [done|].
  rewrite lrem_split by done. split.
  - by rewrite (frame_pcbs _ _ _ _ Hfr), (rep_pcbs _ _ _ _ H).
  - by eapply rep_len.
  - intros l' Hv. destruct (decide (l' = l)) as [->|Hne]; [by rewrite lset_eq|].
    rewrite lset_ne by done. eapply frame_is_list; [done..| |by eapply rep_list].
    intros q [_ (r1 & Hr1 & Hh1)]%(rep_home _ _ _ _ H). rewrite <-Hl.
    intros [_ (r2 & Hr2 & Hh2)]%(rep_home _ _ _ _ H). by simplify_eq.
  - intros l'. destruct (decide (l' = l)) as [->|Hne].
    + rewrite lset_eq. rewrite <-(lrem_split p) by done. by apply NoDup_filter.
    + rewrite lset_ne by done. by eapply rep_nodup.
  - intros l' q. destruct (decide (l' = l)) as [->|Hne].
    + rewrite lset_eq, <-(lrem_split p), elem_of_lrem, <-Hl, (rep_home _ _ _ _ H) by done.
      set_solver.
    + rewrite lset_ne, (rep_home _ _ _ _ H) by done.
      assert (Hpl : p ∈ L l) by (rewrite Hl; set_solver).
      apply (rep_home _ _ _ _ H) in Hpl as [_ (r2 & Hr2 & Hh2)].
      split; intros [Hq (r1 & Hr1 & Hh1)]; (split; [|by eauto]); [|set_solver].
      rewrite elem_of_union, elem_of_singleton. intros [?| ->]; [done|]. by simplify_eq.
  - intros l' q. destruct (decide (l' = l)) as [->|Hne].
    + intros _. eapply (rep_valid _ _ _ _ H _ p). rewrite Hl. set_solver.
    + rewrite lset_ne by done. by eapply rep_valid.
Qed.

Lemma rep_add t P L off l p r :
  rep t P L off -> p ∈ off -> P !! p = Some r -> home r = l -> valid_lid l ->
  wp (stateListAdd l p)
     (fun _ t' => rep t' P (lset L l (L l ++ [p])) (off ∖ {[p]})) t.
Proof.
  intros H Hp Hr Hh Hv.
  assert (Hpl : p ∉ L l) by (intros [? _]%(rep_home _ _ _ _ H); done).
  assert (Hplt : (p < length (procs t))%nat).
  { rewrite (rep_procs_len _ _ _ _ H), <-(rep_len _ _ _ _ H). by eapply lookup_lt_Some. }
  eapply wp_mono; [apply stateListAdd_spec; eauto using rep_list, rep_nodup|].
  intros _ t' (Hil' & Hfr). split.
  - by rewrite (frame_pcbs _ _ _ _ Hfr), (rep_pcbs _ _ _ _ H).
  - by eapply rep_len.
  - intros l' Hv'. destruct (decide (l' = l)) as [->|Hne]; [by rewrite lset_eq|].
    rewrite lset_ne by done. eapply frame_is_list; [done..| |by eapply rep_list].
    intros q [Hq (r1 & Hr1 & Hh1)]%(rep_home _ _ _ _ H) Hin.
    apply elem_of_app in Hin as [[_ (r2 & Hr2 & Hh2)]%(rep_home _ _ _ _ H)|Hin];
      [by simplify_eq|]. set_solver.
  - intros l'. destruct (decide (l' = l)) as [->|Hne].
    + rewrite lset_eq. apply NoDup_app. split; [by eapply rep_nodup|].
      split; [set_solver|]. apply NoDup_singleton.
    + rewrite lset_ne by done. by eapply rep_nodup.
  - intros l' q. destruct (decide (l' = l)) as [->|Hne].
    + rewrite lset_eq, elem_of_app, list_elem_of_singleton, (rep_home _ _ _ _ H).
      rewrite elem_of_difference, elem_of_singleton. split.
      * intros [[Hq Hex]| ->]; (split; [tauto|eauto]).
      * intros [Hq Hex]. destruct (decide (q = p)); [by right|left]. split; [tauto|done].
    + rewrite lset_ne, (rep_home _ _ _ _ H) by done.
      rewrite elem_of_difference, elem_of_singleton.
      split; intros [Hq (r1 & Hr1 & Hh1)]; (split; [|by eauto]); [tauto|].
      intros Hq'. apply Hq. split; [done|]. intros ->. by simplify_eq.
  - intros l' q. destruct (decide (l' = l)) as [->|Hne]; [done|].
    rewrite lset_ne by done. by eapply rep_valid.
Qed.

(** Assigning fields of a slot in transit. *)
Lemma wp_rep_wr_off f t P L off p (Q : unit -> ptable -> Prop) :
  rep t P L off -> p ∈ off -> (p < NPROC)%nat ->
  (forall r, set_p_next None (f r) = f (set_p_next None r)) ->
  (forall t', rep t' (alter f p P) L off -> Q tt t') -> wp (wr f p) Q t.
Proof.
  intros H Hp Hlt Hf HQ. apply wp_wr; [by rewrite (rep_procs_len _ _ _ _ H)|].
  apply HQ. split.
  - by rewrite pcbs_upd, (rep_pcbs _ _ _ _ H).
  - rewrite length_alter. by eapply rep_len.
  - intros l Hl. destruct (rep_list _ _ _ _ H l Hl) as (H1 & H2 & H3).
    split; [by rewrite get_ptrs_upd|split; [|by rewrite length_procs_upd]].
    eapply seg_ext; [|done]. intros x [Hx _]%(rep_home _ _ _ _ H).
    apply nxt_upd_ne. by intros ->.
  - by eapply rep_nodup.
  - intros l q. rewrite (rep_home _ _ _ _ H). destruct (decide (q = p)) as [->|Hne]; [tauto|].
    by rewrite list_lookup_alter_ne by done.
  - by eapply rep_valid.
Qed.

(** Assigning fields that do not decide the list of the slot. *)
Lemma wp_rep_wr_on f t P L off p (Q : unit -> ptable -> Prop) :
  rep t P L off -> (p < NPROC)%nat ->
  (forall r, set_p_next None (f r) = f (set_p_next None r)) ->
  (forall r, p_next (f r) = p_next r) ->
  (forall r, P !! p = Some r -> home (f r) = home r) ->
  (forall t', rep t' (alter f p P) L off -> nxt t' p = nxt t p -> Q tt t') -> wp (wr f p) Q t.
Proof.
  intros H Hlt Hf Hn Hh HQ. apply wp_wr; [by rewrite (rep_procs_len _ _ _ _ H)|].
  assert (Hnx : forall q, nxt (upd p f t) q = nxt t q).
  { intros q. destruct (decide (q = p)) as [->|]; [|by apply nxt_upd_ne].
    unfold nxt. cbn. rewrite list_lookup_alter_eq. destruct (procs t !! p); cbn; by rewrite ?Hn. }
  apply HQ; [|apply Hnx]. split.
  - by rewrite pcbs_upd, (rep_pcbs _ _ _ _ H).
  - rewrite length_alter. by eapply rep_len.
  - intros l Hl. destruct (rep_list _ _ _ _ H l Hl) as (H1 & H2 & H3).
    split; [by rewrite get_ptrs_upd|split; [|by rewrite length_procs_upd]].
    eapply seg_ext; [|done]. intros x _. apply Hnx.
  - by eapply rep_nodup.
  - intros l q. rewrite (rep_home _ _ _ _ H). destruct (decide (q = p)) as [->|Hne].
    + rewrite list_lookup_alter_eq. destruct (P !! p) as [r|] eqn:Hr; cbn; [|naive_solver].
      specialize (Hh r eq_refl). split; intros [? (r' & [= <-] & ?)]; split; eauto;
        eexists; split; eauto; congruence.
    + by rewrite list_lookup_alter_ne by done.
  - by eapply rep_valid.
Qed.

Lemma rep_removeOrPanic t P L off l p msg :
  rep t P L off -> p ∈ L l ->
  wp (removeOrPanic l p msg)
     (fun _ t' => rep t' P (lset L l (lrem p (L l))) (off ∪ {[p]})) t.
Proof.
  intros H Hp. apply wp_bind. eapply wp_mono; [by apply rep_remove|].
  intros r t' [-> Hr]. by apply wp_panic_if.
Qed.

Lemma rep_assertState t P L off p r st (Q : unit -> ptable -> Prop) :
  rep t P L off -> P !! p = Some r -> p_state r = st -> Q tt t ->
  wp (assertState p st) Q t.
Proof.
  intros H Hr Hst HQ. apply wp_bind. eapply wp_rep_rd; [done|done|done|].
  apply wp_panic_if; [|done]. by rewrite bool_decide_eq_true_2.
Qed.

Lemma rep_elem t P L off l p : rep t P L off -> p ∈ L l ->
  exists r, P !! p = Some r /\ home r = l.
Proof. intros H [_ Hr]%(rep_home _ _ _ _ H). done. Qed.
End rep.

(** * Loops over lists *)

Section loops.
Context {A B : Type}.
Implicit Types body : B -> nat -> M ptable (ctl A B).

(** [I todo b t]: the slots [todo] are still ahead of the loop. *)
Lemma wp_while_list body (I : list nat -> B -> ptable -> Prop)
    (Q : ctl A B -> ptable -> Prop) fuel todo b t :
  (forall q todo b t, I (q :: todo) b t ->
    wp (body b q) (fun r t' => match r with
      | Return a => Q (Return a) t'
      | Continue b' => exists todo', I todo' b' t' /\ (length todo' <= length todo)%nat /\
          (q < length (procs t'))%nat /\ nxt t' q = hd_or None todo' end) t) ->
  (forall b t, I [] b t -> Q (Continue b) t) ->
  I todo b t -> (length todo <= fuel)%nat ->
  wp (while_list fuel body b (hd_or None todo)) Q t.
Proof.
  intros Hbody Hend. revert todo b t. induction fuel as [|fuel IH]; intros todo b t HI Hlen.
  - destruct todo; [|cbn in Hlen; lia]. by apply Hend.
  - destruct todo as [|q todo]; [by apply Hend|]. cbn in Hlen |- *.
    apply wp_bind. eapply wp_mono; [by apply Hbody|].
    intros [a|b'] t'; [done|]. intros (todo' & HI' & Hl & Hq & Hn).
    apply wp_bind, wp_rd_next; [done|]. rewrite Hn. apply IH; [done|lia].
Qed.

(** A search: rounds on slots that fail the test change nothing. *)
Definition matches (P : list proc) (test : proc -> bool) (p : nat) : bool :=
  from_option test false (P !! p).

Context (home : proc -> lid).

Lemma wp_for_lists_search body test (Q : ctl A B -> ptable -> Prop) ls t P L off b :
  rep home t P L off -> Forall valid_lid ls ->
  (forall p r, P !! p = Some r -> test r = false ->
     wp (body b p) (fun o t' => o = Continue b /\ t' = t) t) ->
  match List.find (matches P test) (concat (L <$> ls)) with
  | None => Q (Continue b) t
  | Some p => wp (body b p) (fun o t' => Q o t' /\ exists a, o = Return a) t
  end ->
  wp (for_lists ls body b) Q t.
Proof.
  intros H Hls Hno HQ. induction Hls as [|l ls Hl Hls IH]; [done|].
  cbn in HQ |- *. pose proof (rep_list _ _ _ _ _ H l Hl) as (Hp & Hs & Hlt).
  apply wp_bind. eapply wp_rd_ptrs; [done|]. cbn. rewrite <-hd_or_head. apply wp_bind.
  pose proof (rep_len_le _ _ _ _ _ l H) as Hlen.
  assert (Hex : forall p, p ∈ L l -> exists r, P !! p = Some r).
  { intros p [_ (r & ? & _)]%(rep_home _ _ _ _ _ H). eauto. }
  eapply (wp_while_list body (fun todo b' t' => t' = t /\ b' = b /\
    (exists done, L l = done ++ todo) /\
    match List.find (matches P test) (todo ++ concat (L <$> ls)) with
    | None => Q (Continue b) t
    | Some p => wp (body b p) (fun o t' => Q o t' /\ exists a, o = Return a) t end));
    [| |split; [done|split; [done|split; [by exists []|done]]]|done].
  - intros q todo b' t' (-> & -> & (dn & Hdn) & Hm). cbn in Hm.
    assert (Hq : q ∈ L l) by (rewrite Hdn, elem_of_app, elem_of_cons; tauto).
    destruct (Hex q Hq) as [r Hr].
    unfold matches in Hm at 1. rewrite Hr in Hm. cbn in Hm.
    destruct (test r) eqn:Ht.
    + eapply wp_mono; [exact Hm|]. intros o t' [HQ' [a ->]]. by apply wp_ret.
    + eapply wp_mono; [by eapply Hno|]. intros o t' [-> ->].
      exists todo. split; [|split; [done|split]].
      * split; [done|split; [done|split; [|done]]].
        exists (dn ++ [q]). by rewrite <-app_assoc.
      * rewrite Forall_forall in Hlt. by apply Hlt.
      * rewrite Hdn in Hs. apply seg_app in Hs as [_ [Hs _]]. done.
  - intros b' t' (-> & -> & _ & Hm). cbn in Hm. by apply IH.
Qed.

(** The effect of a loop whose rounds only read: a fold over the slots. *)
Fixpoint fold_ctl (step : B -> nat -> ctl A B) (b : B) (ps : list nat) : ctl A B :=
  match ps with
  | [] => Continue b
  | p :: ps =>
      match step b p with Return a => Return a | Continue b => fold_ctl step b ps end
  end.

Lemma fold_ctl_app step b xs ys :
  fold_ctl step b (xs ++ ys) =
    match fold_ctl step b xs with Return a => Return a | Continue b => fold_ctl step b ys end.
Proof. revert b. induction xs as [|x xs IH]; intros b; cbn; [done|]. by destruct (step b x). Qed.

Lemma wp_for_lists_read body step ls t P L off b :
  rep home t P L off -> Forall valid_lid ls ->
  (forall b p r, P !! p = Some r -> wp (body b p) (fun o t' => o = step b p /\ t' = t) t) ->
  wp (for_lists ls body b) (fun o t' => o = fold_ctl step b (concat (L <$> ls)) /\ t' = t) t.
Proof.
  intros H Hls Hb. revert b. induction Hls as [|l ls Hl Hls IH]; intros b; [done|].
  cbn. pose proof (rep_list _ _ _ _ _ H l Hl) as (Hp & Hs & Hlt).
  apply wp_bind. eapply wp_rd_ptrs; [done|]. cbn. rewrite <-hd_or_head. apply wp_bind.
  pose proof (rep_len_le _ _ _ _ _ l H) as Hlen. rewrite fold_ctl_app.
  eapply (wp_while_list body (fun todo b' t' => t' = t /\ (exists dn, L l = dn ++ todo) /\
    fold_ctl step b' todo = fold_ctl step b (L l)));
    [| |split; [done|split; [by exists []|done]]|done].
  - intros q todo b' t' (-> & (dn & Hdn) & Hf).
    assert (Hq : q ∈ L l) by (rewrite Hdn, elem_of_app, elem_of_cons; tauto).
    apply (rep_home _ _ _ _ _ H) in Hq as Hr. destruct Hr as [_ (r & Hr & _)].
    eapply wp_mono; [by eapply Hb|]. intros o t' [-> ->]. cbn in Hf.
    destruct (step b' q) as [a|b2]; [rewrite <-Hf; by apply wp_ret|].
    exists todo. split; [|split; [done|split]].
    + split; [done|split; [|done]]. exists (dn ++ [q]). by rewrite <-app_assoc.
    + rewrite Forall_forall in Hlt. by apply Hlt.
    + rewrite Hdn in Hs. apply seg_app in Hs as [_ [Hs _]]. done.
  - intros b' t' (-> & _ & Hf). cbn in Hf. rewrite <-Hf. apply IH.
Qed.
End loops.
