(* ===== verification/Spinlock.v ===== *)
(** Spin locks and interrupt nesting: spinlock.c, and [mycpu], [cpuid] and
    [myproc] of proc.c. *)

From stdpp Require Import base tactics numbers option list gmap sets strings.
From Stdlib Require Import ZArith Lia.
From S2P Require Import Prelude ProcDefs.

(** * Data *)

(** The fields of [struct cpu] that the C code reads, and the interrupt flag of
    the processor. *)
Record cpu := MkCpu {
  c_apicid : Z;
  c_ncli : Z;             (* Depth of pushcli nesting. *)
  c_intena : bool;        (* Were interrupts enabled before pushcli? *)
  c_if : bool;            (* FL_IF of this processor's eflags *)
  c_proc : option nat;    (* The process running on this cpu or null *)
  c_esp0 : Z;             (* ts.esp0: kernel stack for traps *)
  c_cr3 : Z               (* the page directory in use *)
}.
Definition set_c_ncli (v : Z) (r : cpu) : cpu :=
  {| c_apicid := c_apicid r; c_ncli := v; c_intena := c_intena r; c_if := c_if r;
     c_proc := c_proc r; c_esp0 := c_esp0 r; c_cr3 := c_cr3 r |}.
Definition set_c_intena (v : bool) (r : cpu) : cpu :=
  {| c_apicid := c_apicid r; c_ncli := c_ncli r; c_intena := v; c_if := c_if r;
     c_proc := c_proc r; c_esp0 := c_esp0 r; c_cr3 := c_cr3 r |}.
Definition set_c_if (v : bool) (r : cpu) : cpu :=
  {| c_apicid := c_apicid r; c_ncli := c_ncli r; c_intena := c_intena r; c_if := v;
     c_proc := c_proc r; c_esp0 := c_esp0 r; c_cr3 := c_cr3 r |}.
Definition set_c_proc (v : option nat) (r : cpu) : cpu :=
  {| c_apicid := c_apicid r; c_ncli := c_ncli r; c_intena := c_intena r; c_if := c_if r;
     c_proc := v; c_esp0 := c_esp0 r; c_cr3 := c_cr3 r |}.
Definition set_c_esp0 (v : Z) (r : cpu) : cpu :=
  {| c_apicid := c_apicid r; c_ncli := c_ncli r; c_intena := c_intena r; c_if := c_if r;
     c_proc := c_proc r; c_esp0 := v; c_cr3 := c_cr3 r |}.
Definition set_c_cr3 (v : Z) (r : cpu) : cpu :=
  {| c_apicid := c_apicid r; c_ncli := c_ncli r; c_intena := c_intena r; c_if := c_if r;
     c_proc := c_proc r; c_esp0 := c_esp0 r; c_cr3 := v |}.

(** [struct spinlock], without the call stack recorded for debugging. *)
Record spinlock := MkSpinlock {
  lk_locked : Z;          (* Is the lock held? *)
  lk_name : string;
  lk_cpu : option nat     (* The cpu holding the lock. *)
}.
Definition set_lk_locked (v : Z) (l : spinlock) := MkSpinlock v (lk_name l) (lk_cpu l).
Definition set_lk_cpu (v : option nat) (l : spinlock) := MkSpinlock (lk_locked l) (lk_name l) v.

(** * Code *)

Definition initlock (name : string) : spinlock := MkSpinlock 0 name None.

(** [mycpu]: the index in [cpus] of the processor whose local APIC answers
    [apicid]; refuses to run with interrupts enabled. *)
Fixpoint find_apic (cpus : list cpu) (apicid : Z) (i : nat) : option nat :=
  match cpus with
  | [] => None
  | k :: cpus => if c_apicid k =? apicid then Some i else find_apic cpus apicid (S i)
  end.
Definition mycpu (cpus : list cpu) (intr_on : bool) (apicid : Z) : outcome nat :=
  if intr_on then Err (EPanic "mycpu called with interrupts enabled") else
  match find_apic cpus apicid 0 with
  | Some i => Ok i
  | None => Err (EPanic "unknown apicid")
  end.

(** The check at the head of [mycpu()], for code that already runs on the
    processor whose record is at hand. *)
Definition mycpu_check : M cpu unit :=
  i ← gets c_if; panic_if i "mycpu called with interrupts enabled".

Definition pushcli : M cpu unit :=
  eflags ← gets c_if;
  modify (set_c_if false);;
  mycpu_check;;
  n ← gets c_ncli;
  (if n =? 0 then modify (set_c_intena eflags) else mret tt);;
  modify (fun k => set_c_ncli (c_ncli k + 1) k).

Definition popcli : M cpu unit :=
  i ← gets c_if;
  panic_if i "popcli - interruptible";;
  modify (fun k => set_c_ncli (c_ncli k - 1) k);;
  n ← gets c_ncli;
  panic_if (n <? 0) "popcli";;
  e ← gets c_intena;
  if (n =? 0) && e then modify (set_c_if true) else mret tt.

(** [holding]: does processor [me] hold the lock? *)
Definition holding (me : nat) : M (cpu * spinlock) bool :=
  zoom fst (fun k s => (k, s.2)) pushcli;;
  r ← gets (fun s => negb (lk_locked s.2 =? 0) && bool_decide (lk_cpu s.2 = Some me));
  zoom fst (fun k s => (k, s.2)) popcli;;
  mret r.

(** [xchg(&lk->locked, 1)] in a loop: when the lock is held by another processor
    this execution can only spin. *)
Definition spin_xchg : M (cpu * spinlock) unit :=
  old ← gets (fun s => lk_locked s.2);
  if old =? 0 then modify (fun s => (s.1, set_lk_locked 1 s.2)) else fail ESpin.

Definition acquire (me : nat) : M (cpu * spinlock) unit :=
  zoom fst (fun k s => (k, s.2)) pushcli;;
  h ← holding me;
  panic_if h "acquire";;
  spin_xchg;;
  modify (fun s => (s.1, set_lk_cpu (Some me) s.2)).

Definition release (me : nat) : M (cpu * spinlock) unit :=
  h ← holding me;
  panic_if (negb h) "release";;
  modify (fun s => (s.1, set_lk_cpu None s.2));;
  modify (fun s => (s.1, set_lk_locked 0 s.2));;
  zoom fst (fun k s => (k, s.2)) popcli.

(** [myproc()] on the processor whose record is at hand. *)
Definition myproc : M cpu (option nat) :=
  pushcli;; mycpu_check;; p ← gets c_proc; popcli;; mret p.

(** [getcallerpcs]: follow the saved frame pointers in kernel memory [mem] from
    the frame whose argument area starts at [v]. *)
Definition KERNBASE : Z := 0x80000000.
Fixpoint pcs_from (mem : Z -> Z) (n : nat) (ebp : Z) : list Z :=
  match n with
  | O => []
  | S n =>
      if (ebp =? 0) || (ebp <? KERNBASE) || (ebp =? 0xffffffff)
      then replicate (S n) 0
      else mem (u32 (ebp + 4)) :: pcs_from mem n (mem ebp)
  end.
Definition getcallerpcs (mem : Z -> Z) (v : Z) : list Z := pcs_from mem 10 (u32 (v - 8)).

(** * Interrupt nesting *)

(** Interrupts are off while the nesting depth is positive. *)
Definition cpu_ok (k : cpu) : Prop := 0 <= c_ncli k /\ (0 < c_ncli k -> c_if k = false).

(** What [pushcli] remembers of the interrupt flag. *)
Definition saved_if (k : cpu) : bool := if c_ncli k =? 0 then c_if k else c_intena k.

Lemma pushcli_spec k : pushcli k =
  Ok (tt, MkCpu (c_apicid k) (c_ncli k + 1) (saved_if k) false (c_proc k) (c_esp0 k) (c_cr3 k)).
Proof.
  unfold saved_if, pushcli, mycpu_check. destruct k as [a n e i p x y]. run_monad.
  by destruct (n =? 0).
Qed.

Lemma popcli_spec k : c_if k = false -> 1 <= c_ncli k ->
  popcli k = Ok (tt, MkCpu (c_apicid k) (c_ncli k - 1) (c_intena k)
                     ((c_ncli k =? 1) && c_intena k) (c_proc k) (c_esp0 k) (c_cr3 k)).
Proof.
  destruct k as [a n e i p x y]. cbn. intros -> Hn. unfold popcli. run_monad.
  destruct (Z.ltb_spec (n - 1) 0); [lia|].
  destruct (Z.eqb_spec (n - 1) 0), (Z.eqb_spec n 1); try lia; destruct e; done.
Qed.

(** [pushcli] followed by [popcli] restores the flag and the depth. *)
Definition settle (k : cpu) : cpu :=
  MkCpu (c_apicid k) (c_ncli k) (saved_if k) (c_if k) (c_proc k) (c_esp0 k) (c_cr3 k).

Lemma pushcli_popcli k : cpu_ok k -> (pushcli;; popcli) k = Ok (tt, settle k).
Proof.
  intros [Hn Hi]. unfold mbind, M_bind. rewrite pushcli_spec, popcli_spec by (cbn; lia).
  unfold settle. cbn. do 3 f_equal; [lia|]. unfold saved_if.
  destruct (Z.eqb_spec (c_ncli k) 0) as [Hz|Hz]; destruct (Z.eqb_spec (c_ncli k + 1) 1); try lia.
  - by destruct (c_if k).
  - cbn. symmetry. apply Hi. lia.
Qed.

Lemma settle_ok k : cpu_ok k -> cpu_ok (settle k).
Proof. done. Qed.
Lemma settle_nested k : 0 < c_ncli k -> settle k = k.
Proof.
  intros. unfold settle, saved_if. destruct (Z.eqb_spec (c_ncli k) 0); [lia|]. by destruct k.
Qed.

(** * Locks *)

Definition is_held (me : nat) (l : spinlock) : bool :=
  negb (lk_locked l =? 0) && bool_decide (lk_cpu l = Some me).

Lemma holding_spec me k l : cpu_ok k -> holding me (k, l) = Ok (is_held me l, (settle k, l)).
Proof.
  intros Hk. pose proof (pushcli_popcli k Hk) as H.
  unfold holding, mbind, M_bind, zoom, gets in *. cbn.
  rewrite pushcli_spec in *. cbn. by rewrite H.
Qed.

Lemma myproc_spec k : cpu_ok k -> myproc k = Ok (c_proc k, settle k).
Proof.
  intros Hk. pose proof (pushcli_popcli k Hk) as H. unfold myproc, mycpu_check.
  revert H. unfold mbind, M_bind. rewrite pushcli_spec. intros H.
  cbn. by rewrite H.
Qed.

Definition entered (k : cpu) : cpu :=
  MkCpu (c_apicid k) (c_ncli k + 1) (saved_if k) false (c_proc k) (c_esp0 k) (c_cr3 k).

Lemma entered_ok k : cpu_ok k -> cpu_ok (entered k).
Proof. intros [??]. split; [cbn; lia|done]. Qed.
Lemma cpu_ok_if k : cpu_ok k -> 1 <= c_ncli k -> c_if k = false.
Proof. intros [_ H] ?. apply H. lia. Qed.

Lemma acquire_prefix me k l : cpu_ok k ->
  acquire me (k, l) =
    if is_held me l then Err (EPanic "acquire") else
    if lk_locked l =? 0 then Ok (tt, (entered k, MkSpinlock 1 (lk_name l) (Some me)))
    else Err ESpin.
Proof.
  intros Hk. unfold acquire, mbind, M_bind, zoom. cbn. rewrite pushcli_spec. cbn.
  fold (entered k). rewrite holding_spec by (by apply entered_ok).
  rewrite settle_nested by (destruct Hk; cbn; lia).
  unfold panic_if, spin_xchg, mbind, M_bind, gets, modify. cbn.
  destruct (is_held me l); [done|]. change (snd (entered k, l)) with l.
  by destruct (lk_locked l =? 0).
Qed.

(** [acquire] of a free lock takes it and nests the interrupt disable. *)
Lemma acquire_free me k l : cpu_ok k -> lk_locked l = 0 ->
  acquire me (k, l) = Ok (tt, (entered k, MkSpinlock 1 (lk_name l) (Some me))).
Proof. intros Hk Hl. rewrite acquire_prefix by done. unfold is_held. by rewrite Hl. Qed.

Definition left_cpu (k : cpu) : cpu :=
  MkCpu (c_apicid k) (c_ncli k - 1) (c_intena k) ((c_ncli k =? 1) && c_intena k) (c_proc k) (c_esp0 k) (c_cr3 k).

Lemma release_prefix me k l : cpu_ok k -> 1 <= c_ncli k ->
  release me (k, l) =
    if is_held me l then Ok (tt, (left_cpu k, MkSpinlock 0 (lk_name l) None))
    else Err (EPanic "release").
Proof.
  intros Hk Hn. unfold release, mbind, M_bind. rewrite holding_spec, settle_nested by (done || lia).
  unfold panic_if, modify, zoom. cbn. destruct (is_held me l); [|done]. cbn.
  by rewrite popcli_spec by auto using cpu_ok_if.
Qed.

(** the lock protocol.  From a processor whose interrupt nesting is consistent,
    a free lock is acquired and released again: the lock is free, the depth and
    the interrupt flag are what they were. *)
Lemma acquire_release me k l : cpu_ok k -> lk_locked l = 0 ->
  (acquire me;; release me) (k, l) = Ok (tt, (settle k, MkSpinlock 0 (lk_name l) None)).
Proof.
  intros Hk Hl. unfold mbind, M_bind. rewrite acquire_free by done.
  rewrite release_prefix by (apply entered_ok || destruct Hk; cbn; done || lia). cbn.
  rewrite bool_decide_eq_true_2 by done.
  pose proof (pushcli_popcli k Hk) as H. unfold mbind, M_bind in H.
  rewrite pushcli_spec, popcli_spec in H by (destruct Hk; cbn; done || lia).
  cbn in H. unfold left_cpu, entered. cbn. congruence.
Qed.

(** * Mutual exclusion, at the granularity of single memory accesses *)

(** Where a processor is in its use of the lock. *)
Inductive lkpc :=
  | Idle       (* outside acquire/release *)
  | Spinning   (* past the holding() check, before a successful xchg *)
  | GotIt      (* xchg returned 0, lk->cpu not yet written *)
  | Critical   (* acquire returned *)
  | Leaving.   (* release has cleared lk->cpu, locked not yet 0 *)

Record lkstate := MkLkstate { ls_lock : spinlock; ls_pc : nat -> lkpc }.
Definition set_pc (i : nat) (v : lkpc) (f : nat -> lkpc) : nat -> lkpc :=
  fun j => if decide (j = i) then v else f j.

(** One memory access by some processor.  [lk_try] and [lk_rel1] carry the
    [holding] tests of [acquire] and [release]; failing them is a panic. *)
Inductive lkstep : lkstate -> lkstate -> Prop :=
  | lk_try i l f : f i = Idle -> is_held i l = false ->
      lkstep (MkLkstate l f) (MkLkstate l (set_pc i Spinning f))
  | lk_xchg_fail i l f : f i = Spinning -> lk_locked l <> 0 ->
      lkstep (MkLkstate l f) (MkLkstate (set_lk_locked 1 l) f)
  | lk_xchg_ok i l f : f i = Spinning -> lk_locked l = 0 ->
      lkstep (MkLkstate l f) (MkLkstate (set_lk_locked 1 l) (set_pc i GotIt f))
  | lk_setcpu i l f : f i = GotIt ->
      lkstep (MkLkstate l f) (MkLkstate (set_lk_cpu (Some i) l) (set_pc i Critical f))
  | lk_rel1 i l f : f i = Critical -> is_held i l = true ->
      lkstep (MkLkstate l f) (MkLkstate (set_lk_cpu None l) (set_pc i Leaving f))
  | lk_rel2 i l f : f i = Leaving ->
      lkstep (MkLkstate l f) (MkLkstate (set_lk_locked 0 l) (set_pc i Idle f)).

Definition lkinit (name : string) : lkstate := MkLkstate (initlock name) (fun _ => Idle).

(** The processor owns the lock word. *)
Definition owns (c : lkpc) : bool :=
  match c with GotIt | Critical | Leaving => true | Idle | Spinning => false end.

Record lkinv (s : lkstate) : Prop := {
  li_one : forall i j, owns (ls_pc s i) = true -> owns (ls_pc s j) = true -> i = j;
  li_locked : lk_locked (ls_lock s) = 0 \/ lk_locked (ls_lock s) = 1;
  li_free : lk_locked (ls_lock s) = 0 <-> forall i, owns (ls_pc s i) = false;
  li_cpu : forall i, lk_cpu (ls_lock s) = Some i <-> ls_pc s i = Critical
}.

Lemma lkinv_init name : lkinv (lkinit name).
Proof. split; cbn; [done|by left|done|done]. Qed.

Lemma set_pc_eq i v f : set_pc i v f i = v.
Proof. unfold set_pc. by rewrite decide_True. Qed.
Lemma set_pc_ne i v f j : j <> i -> set_pc i v f j = f j.
Proof. intros. unfold set_pc. by rewrite decide_False. Qed.

(** Moving processor [i] between two places that both own, or both do not own,
    the lock word keeps the ownership part of the invariant. *)
Lemma owns_same f i v : owns (f i) = owns v ->
  forall j, owns (set_pc i v f j) = owns (f j).
Proof. intros H j. unfold set_pc. case_decide; subst; auto. Qed.

Lemma lkinv_step s s' : lkinv s -> lkstep s s' -> lkinv s'.
Proof.
  intros [H1 H2 H3 H4] Hs.
  destruct Hs as [i l f Hi Hh|i l f Hi Hl|i l f Hi Hl|i l f Hi|i l f Hi Hh|i l f Hi]; cbn in *.
  - pose proof (owns_same f i Spinning ltac:(by rewrite Hi)) as Ho. split; cbn; auto.
    + intros a b. rewrite !Ho. auto.
    + rewrite H3. by setoid_rewrite Ho.
    + intros a. rewrite H4. unfold set_pc. case_decide; [subst; by rewrite Hi|done].
  - split; cbn; auto. destruct H2 as [?|H2]; [done|]. split; [done|]. intros ?%H3. done.
  - assert (Hno := proj1 H3 Hl). split; cbn; [|by right| |].
    + assert (Ho : forall a, owns (set_pc i GotIt f a) = true -> a = i).
      { intros a. unfold set_pc. case_decide; [done|]. by rewrite Hno. }
      intros a b ->%Ho ->%Ho. done.
    + split; [done|]. intros Hall. specialize (Hall i). by rewrite set_pc_eq in Hall.
    + intros a. rewrite H4. unfold set_pc. case_decide; [subst; by rewrite Hi|done].
  - pose proof (owns_same f i Critical ltac:(by rewrite Hi)) as Ho. split; cbn; auto.
    + intros a b. rewrite !Ho. auto.
    + rewrite H3. by setoid_rewrite Ho.
    + intros a. unfold set_pc. case_decide; [naive_solver|]. split; [congruence|].
      intros Ha. destruct H. apply H1; [by rewrite Ha|by rewrite Hi].
  - pose proof (owns_same f i Leaving ltac:(by rewrite Hi)) as Ho. split; cbn; auto.
    + intros a b. rewrite !Ho. auto.
    + rewrite H3. by setoid_rewrite Ho.
    + intros a. unfold set_pc. case_decide; [done|]. split; [done|].
      intros Ha. destruct H. apply H1; [by rewrite Ha|by rewrite Hi].
  - assert (Ho : forall a, owns (set_pc i Idle f a) = false).
    { intros a. unfold set_pc. case_decide; [done|]. destruct (owns (f a)) eqn:Ha; [|done].
      destruct H. apply H1; [done|by rewrite Hi]. }
    split; cbn; [|by left|done|].
    + intros a b. by rewrite Ho.
    + intros a. rewrite H4. unfold set_pc. case_decide; [subst; by rewrite Hi|done].
Qed.

Lemma lkinv_reachable name s : rtc lkstep (lkinit name) s -> lkinv s.
Proof.
  remember (lkinit name) as s0 eqn:E. intros H. assert (Hi : lkinv s0) by (subst; apply lkinv_init).
  clear E. induction H; [done|]. eauto using lkinv_step.
Qed.

Theorem spinlock_mutex name s :
  rtc lkstep (lkinit name) s ->
  (forall i j, ls_pc s i = Critical -> ls_pc s j = Critical -> i = j) /\
  (forall i, is_held i (ls_lock s) = true <-> ls_pc s i = Critical).
Proof.
  intros [H1 H2 H3 H4]%lkinv_reachable. split.
  - intros i j Hi Hj. apply H1; [by rewrite Hi|by rewrite Hj].
  - intros i. unfold is_held. rewrite andb_true_iff, bool_decide_eq_true, H4.
    split; [tauto|]. intros Hi. split; [|done]. destruct (Z.eqb_spec (lk_locked (ls_lock s)) 0);
      [|done]. rewrite H3 in e. specialize (e i). by rewrite Hi in e.
Qed.
