(* ===== verification/CString.v ===== *)
(** Memory and string routines: string.c (kernel) and the string part of ulib.c
    (user library).

    Block routines work on a byte memory addressed by [Z]; string routines work
    on the bytes from a pointer on, as a list, and running off its end is a
    failure ([None]). *)

From stdpp Require Import base tactics numbers option list sets.
From Stdlib Require Import ZArith Lia.
From S2P Require Import Prelude.

Definition mem := Z -> Z.
Definition mput (m : mem) (a v : Z) : mem := fun b => if b =? a then v else m b.

(** * string.c *)

(** x86 [rep stosb] and [rep stosl] *)
Fixpoint stosb (m : mem) (a d : Z) (cnt : nat) : mem :=
  match cnt with O => m | S c => stosb (mput m a (u8 d)) (a + 1) d c end.
Definition put32 (m : mem) (a d : Z) : mem :=
  mput (mput (mput (mput m a (u8 d)) (a + 1) (u8 (Z.shiftr d 8)))
    (a + 2) (u8 (Z.shiftr d 16))) (a + 3) (u8 (Z.shiftr d 24)).
Fixpoint stosl (m : mem) (a d : Z) (cnt : nat) : mem :=
  match cnt with O => m | S c => stosl (put32 m a d) (a + 4) d c end.

(** [memset] (kernel): word stores when destination and length allow it. *)
Definition memset (m : mem) (dst c n : Z) : mem :=
  if (Z.rem (s32 dst) 4 =? 0) && (n mod 4 =? 0) then
    let c := Z.land c 0xFF in
    stosl m dst (u32 (Z.lor (Z.lor (Z.lor (Z.shiftl c 24) (Z.shiftl c 16)) (Z.shiftl c 8)) c))
      (Z.to_nat (n / 4))
  else stosb m dst c (Z.to_nat n).

Fixpoint memcmp_n (m : mem) (s1 s2 : Z) (n : nat) : Z :=
  match n with
  | O => 0
  | S n => if negb (m s1 =? m s2) then m s1 - m s2 else memcmp_n m (s1 + 1) (s2 + 1) n
  end.
Definition memcmp (m : mem) (v1 v2 n : Z) : Z := memcmp_n m v1 v2 (Z.to_nat n).

(** The two copy loops of [memmove]. *)
Fixpoint copy_up (m : mem) (d s : Z) (n : nat) : mem :=
  match n with O => m | S n => copy_up (mput m d (m s)) (d + 1) (s + 1) n end.
Fixpoint copy_down (m : mem) (d s : Z) (n : nat) : mem :=
  match n with O => m | S n => copy_down (mput m (d - 1) (m (s - 1))) (d - 1) (s - 1) n end.
Definition memmove (m : mem) (dst src n : Z) : mem :=
  if (src <? dst) && (dst <? src + n) then copy_down m (dst + n) (src + n) (Z.to_nat n)
  else copy_up m dst src (Z.to_nat n).
Definition memcpy (m : mem) (dst src n : Z) : mem := memmove m dst src n.

Fixpoint strncmp (p q : list Z) (n : nat) {struct n} : option Z :=
  match n with
  | O => Some 0
  | S n =>
      match p with
      | [] => None
      | a :: p =>
          match q with
          | [] => None
          | b :: q => if negb (a =? 0) && (a =? b) then strncmp p q n else Some (u8 a - u8 b)
          end
      end
  end.

(** The padding loop of [strncpy]: [n] zero bytes. *)
Fixpoint zero_fill (s : list Z) (n : nat) {struct n} : option (list Z) :=
  match n, s with
  | O, _ => Some s
  | S _, [] => None
  | S n, _ :: s => cons 0 <$> zero_fill s n
  end.
Fixpoint strncpy (s t : list Z) (n : nat) {struct n} : option (list Z) :=
  match n with
  | O => Some s
  | S n =>
      match s, t with
      | _ :: s, b :: t => cons b <$> (if b =? 0 then zero_fill s n else strncpy s t n)
      | _, _ => None
      end
  end.

(** [safestrcpy]: the loop with [n] characters that may still be copied; after a
    copied NUL the destination pointer has moved on, and one more 0 is stored. *)
Fixpoint safestrcpy_loop (s t : list Z) (n : nat) {struct n} : option (list Z) :=
  match n with
  | O => match s with [] => None | _ :: s => Some (0 :: s) end
  | S n =>
      match s, t with
      | _ :: s, b :: t =>
          cons b <$> (if b =? 0 then match s with [] => None | _ :: s => Some (0 :: s) end
                      else safestrcpy_loop s t n)
      | _, _ => None
      end
  end.
Definition safestrcpy (s t : list Z) (n : Z) : option (list Z) :=
  if n <=? 0 then Some s else safestrcpy_loop s t (Z.to_nat (n - 1)).

Fixpoint strlen (s : list Z) : option Z :=
  match s with
  | [] => None
  | b :: s => if b =? 0 then Some 0 else Z.succ <$> strlen s
  end.

(** * ulib.c *)

Fixpoint strcpy (s t : list Z) : option (list Z) :=
  match s, t with
  | _ :: s, b :: t => cons b <$> (if b =? 0 then Some s else strcpy s t)
  | _, _ => None
  end.

Fixpoint strcmp (p q : list Z) : option Z :=
  match p, q with
  | a :: p, b :: q => if negb (a =? 0) && (a =? b) then strcmp p q else Some (u8 a - u8 b)
  | _, _ => None
  end.

(** [strchr]: the suffix that starts at the first [c], or a null pointer. *)
Fixpoint strchr (s : list Z) (c : Z) : option (option (list Z)) :=
  match s with
  | [] => None
  | b :: s' => if b =? 0 then Some None else if b =? c then Some (Some s) else strchr s' c
  end.

(** [memset] and [memmove] of the user library: bytewise, upwards. *)
Definition umemset (m : mem) (dst c n : Z) : mem := stosb m dst c (Z.to_nat n).
Definition umemmove (m : mem) (vdst vsrc n : Z) : mem := copy_up m vdst vsrc (Z.to_nat n).

(** [atoi] and [atoo] (PDX version): blanks, a sign, digits in base [base]. *)
Fixpoint skip_spaces (s : list Z) : list Z :=
  match s with b :: s' => if b =? 32 then skip_spaces s' else s | [] => [] end.
Fixpoint ato_digits (base : Z) (s : list Z) (n : Z) : Z :=
  match s with
  | b :: s => if (48 <=? b) && (b <? 48 + base)
              then ato_digits base s (s32 (n * base + b - 48)) else n
  | [] => n
  end.
Definition ato (base : Z) (s : list Z) : Z :=
  let s := skip_spaces s in
  let sign := match s with b :: _ => if b =? 45 then -1 else 1 | [] => 1 end in
  let s := match s with b :: s' => if (b =? 43) || (b =? 45) then s' else s | [] => s end in
  s32 (sign * ato_digits base s 0).
Definition atoi (s : list Z) : Z := ato 10 s.
Definition atoo (s : list Z) : Z := ato 8 s.

(** * Correctness of the block routines *)

Lemma stosb_spec cnt m a d b :
  stosb m a d cnt b = if (a <=? b) && (b <? a + Z.of_nat cnt) then u8 d else m b.
Proof.
  revert m a. induction cnt as [|cnt IH]; intros m a; cbn [stosb].
  - destruct (Z.leb_spec a b), (Z.ltb_spec b (a + Z.of_nat 0)); (lia || done).
  - rewrite IH. unfold mput.
    destruct (Z.leb_spec (a + 1) b), (Z.ltb_spec b (a + 1 + Z.of_nat cnt)),
      (Z.leb_spec a b), (Z.ltb_spec b (a + Z.of_nat (S cnt))), (Z.eqb_spec b a); cbn; (lia || done).
Qed.

(** The 32-bit pattern that [memset] builds from a byte, and its four bytes. *)
Definition splat (c : Z) : Z :=
  u32 (Z.lor (Z.lor (Z.lor (Z.shiftl c 24) (Z.shiftl c 16)) (Z.shiftl c 8)) c).
Definition splat_ok (c : Z) : bool :=
  (u8 (splat c) =? c) && (u8 (Z.shiftr (splat c) 8) =? c) &&
  (u8 (Z.shiftr (splat c) 16) =? c) && (u8 (Z.shiftr (splat c) 24) =? c).

Lemma splat_bytes c : 0 <= c < 256 ->
  u8 (splat c) = c /\ u8 (Z.shiftr (splat c) 8) = c /\
  u8 (Z.shiftr (splat c) 16) = c /\ u8 (Z.shiftr (splat c) 24) = c.
Proof.
  intros Hc. assert (Hall : forallb splat_ok (seqZ 0 256) = true) by (vm_compute; done).
  rewrite forallb_forall in Hall. specialize (Hall c). unfold splat_ok in Hall.
  rewrite <-list_elem_of_In, elem_of_seqZ in Hall. specialize (Hall ltac:(lia)).
  rewrite !andb_true_iff, !Z.eqb_eq in Hall. tauto.
Qed.

Lemma stosl_splat cnt m a c b : 0 <= c < 256 ->
  stosl m a (splat c) cnt b = if (a <=? b) && (b <? a + 4 * Z.of_nat cnt) then c else m b.
Proof.
  intros Hc. destruct (splat_bytes c Hc) as (H0 & H1 & H2 & H3).
  revert m a. induction cnt as [|cnt IH]; intros m a; cbn [stosl].
  - destruct (Z.leb_spec a b), (Z.ltb_spec b (a + 4 * Z.of_nat 0)); (lia || done).
  - rewrite IH. unfold put32, mput. rewrite H0, H1, H2, H3.
    destruct (Z.leb_spec (a + 4) b), (Z.ltb_spec b (a + 4 + 4 * Z.of_nat cnt)),
      (Z.leb_spec a b), (Z.ltb_spec b (a + 4 * Z.of_nat (S cnt))); cbn; try (lia || done);
    destruct (Z.eqb_spec b (a + 3)), (Z.eqb_spec b (a + 2)), (Z.eqb_spec b (a + 1)), (Z.eqb_spec b a);
      (lia || done).
Qed.

Lemma memset_bytes m dst c n b : 0 <= n ->
  memset m dst c n b = if (dst <=? b) && (b <? dst + n) then u8 c else m b.
Proof.
  intros Hn. unfold memset.
  destruct ((Z.rem (s32 dst) 4 =? 0) && (n mod 4 =? 0)) eqn:E.
  - apply andb_true_iff in E as [_ E]. apply Z.eqb_eq in E.
    fold (splat (Z.land c 0xFF)).
    assert (Hc : Z.land c 0xFF = u8 c) by apply (Z.land_ones c 8 ltac:(lia)).
    rewrite Hc, stosl_splat by apply u8_range.
    rewrite Z2Nat.id by (apply Z.div_pos; lia).
    replace (4 * (n / 4)) with n by (pose proof (Z.div_mod n 4); lia). done.
  - rewrite stosb_spec, Z2Nat.id by lia. done.
Qed.

Lemma copy_up_spec n m d s b : (d <= s \/ s + Z.of_nat n <= d) ->
  copy_up m d s n b = if (d <=? b) && (b <? d + Z.of_nat n) then m (s + (b - d)) else m b.
Proof.
  revert m d s. induction n as [|n IH]; intros m d s Hd; cbn [copy_up].
  - destruct (Z.leb_spec d b), (Z.ltb_spec b (d + Z.of_nat 0)); (lia || done).
  - rewrite IH by lia. unfold mput.
    destruct (Z.leb_spec (d + 1) b), (Z.ltb_spec b (d + 1 + Z.of_nat n)),
      (Z.leb_spec d b), (Z.ltb_spec b (d + Z.of_nat (S n))); cbn; try lia;
    repeat match goal with |- context [?x =? ?y] => destruct (Z.eqb_spec x y) end;
      (lia || f_equal; lia || done).
Qed.

Lemma copy_down_spec n m d s b : s <= d ->
  copy_down m d s n b =
    if (d - Z.of_nat n <=? b) && (b <? d) then m (s - (d - b)) else m b.
Proof.
  revert m d s. induction n as [|n IH]; intros m d s Hd; cbn [copy_down].
  - destruct (Z.leb_spec (d - Z.of_nat 0) b), (Z.ltb_spec b d); (lia || done).
  - rewrite IH by lia. unfold mput.
    destruct (Z.leb_spec (d - 1 - Z.of_nat n) b), (Z.ltb_spec b (d - 1)),
      (Z.leb_spec (d - Z.of_nat (S n)) b), (Z.ltb_spec b d); cbn; try lia;
    repeat match goal with |- context [?x =? ?y] => destruct (Z.eqb_spec x y) end;
      (lia || f_equal; lia || done).
Qed.

Lemma memmove_bytes m dst src n b : 0 <= n ->
  memmove m dst src n b = if (dst <=? b) && (b <? dst + n) then m (src + (b - dst)) else m b.
Proof.
  intros Hn. unfold memmove.
  destruct (Z.ltb_spec src dst), (Z.ltb_spec dst (src + n)); cbn.
  - rewrite copy_down_spec by lia. rewrite Z2Nat.id by lia.
    replace (dst + n - n) with dst by lia.
    replace (src + n - (dst + n - b)) with (src + (b - dst)) by lia. done.
  - rewrite copy_up_spec by lia. by rewrite Z2Nat.id by lia.
  - rewrite copy_up_spec by lia. by rewrite Z2Nat.id by lia.
  - rewrite copy_up_spec by lia. by rewrite Z2Nat.id by lia.
Qed.

Lemma memcmp_n_zero n m s1 s2 :
  memcmp_n m s1 s2 n = 0 <-> forall i, 0 <= i < Z.of_nat n -> m (s1 + i) = m (s2 + i).
Proof.
  revert s1 s2. induction n as [|n IH]; intros s1 s2; cbn [memcmp_n].
  - split; [lia|done].
  - destruct (Z.eqb_spec (m s1) (m s2)) as [He|Hne]; cbn.
    + rewrite IH. split; intros H i Hi.
      * destruct (decide (i = 0)) as [->|]; [by rewrite !Z.add_0_r|].
        specialize (H (i - 1) ltac:(lia)).
        replace (s1 + i) with (s1 + 1 + (i - 1)) by lia.
        by replace (s2 + i) with (s2 + 1 + (i - 1)) by lia.
      * specialize (H (i + 1) ltac:(lia)).
        replace (s1 + 1 + i) with (s1 + (i + 1)) by lia.
        by replace (s2 + 1 + i) with (s2 + (i + 1)) by lia.
    + split; [lia|]. intros H. specialize (H 0 ltac:(lia)). rewrite !Z.add_0_r in H. done.
Qed.

(** * Correctness of the string routines *)

(** The characters of a NUL-terminated string. *)
Fixpoint cstr (s : list Z) : list Z :=
  match s with [] => [] | b :: s => if b =? 0 then [] else b :: cstr s end.

Definition bytes (s : list Z) : Prop := Forall (fun b => 0 <= b < 256) s.

Lemma strlen_cstr s : 0 ∈ s -> strlen s = Some (Z.of_nat (length (cstr s))).
Proof.
  induction s as [|b s IH]; [by intros ?%not_elem_of_nil|]. intros Hin. cbn.
  destruct (Z.eqb_spec b 0); [done|]. rewrite IH by set_solver. cbn. f_equal. lia.
Qed.

Lemma strncmp_cstr n p q : 0 ∈ p -> 0 ∈ q -> bytes p -> bytes q ->
  exists r, strncmp p q n = Some r /\ (r = 0 <-> take n (cstr p) = take n (cstr q)).
Proof.
  revert p q. induction n as [|n IH]; intros p q Hp Hq Bp Bq; cbn [strncmp].
  { exists 0. split; [done|]. by rewrite !take_0. }
  destruct p as [|a p]; [by apply not_elem_of_nil in Hp|].
  destruct q as [|b q]; [by apply not_elem_of_nil in Hq|].
  apply Forall_cons in Bp as [Ba Bp], Bq as [Bb Bq]. rewrite !u8_small by done. cbn [cstr].
  destruct (Z.eqb_spec a 0) as [->|Ha]; cbn [negb andb].
  - eexists; split; [done|]. rewrite take_nil.
    destruct (Z.eqb_spec b 0) as [->|]; [done|]. cbn. split; [lia|done].
  - destruct (Z.eqb_spec a b) as [->|Hab].
    + destruct (Z.eqb_spec b 0); [done|].
      destruct (IH p q) as (r & -> & Hr); [set_solver..|done|done|].
      exists r; split; [done|]. cbn. rewrite Hr. split; congruence.
    + eexists; split; [done|]. split; [lia|]. destruct (Z.eqb_spec b 0); cbn; congruence.
Qed.

Lemma zero_fill_spec n s : (n <= length s)%nat ->
  zero_fill s n = Some (replicate n 0 ++ drop n s).
Proof.
  revert s. induction n as [|n IH]; intros s Hl; [by rewrite drop_0; destruct s|].
  destruct s as [|x s]; cbn in *; [lia|]. by rewrite IH by lia.
Qed.

(** Exactly [n] bytes are written: the string, cut at [n], padded with zeros. *)
Lemma strncpy_spec n s t : 0 ∈ t -> (n <= length s)%nat ->
  strncpy s t n = Some (take n (cstr t) ++ replicate (n - length (cstr t)) 0 ++ drop n s).
Proof.
  revert s t. induction n as [|n IH]; intros s t Ht Hl; cbn [strncpy].
  - by rewrite take_0, drop_0.
  - destruct s as [|x s]; cbn in Hl; [lia|].
    destruct t as [|b t]; [by apply not_elem_of_nil in Ht|]. cbn [cstr].
    destruct (Z.eqb_spec b 0) as [->|Hb].
    + rewrite zero_fill_spec by lia. done.
    + rewrite IH by (set_solver || lia). done.
Qed.

Lemma safestrcpy_loop_spec n s t : 0 ∈ t -> (n < length s)%nat ->
  exists s', safestrcpy_loop s t n = Some s' /\ length s' = length s /\
    take (S (length (take n (cstr t)))) s' = take n (cstr t) ++ [0] /\
    drop (S n) s' = drop (S n) s.
Proof.
  revert s t. induction n as [|n IH]; intros s t Ht Hl; cbn [safestrcpy_loop].
  - destruct s as [|x s]; cbn in Hl; [lia|]. eexists; split; [done|].
    by rewrite !take_0.
  - destruct s as [|x s]; cbn in Hl; [lia|].
    destruct t as [|b t]; [by apply not_elem_of_nil in Ht|]. cbn [cstr].
    destruct (Z.eqb_spec b 0) as [->|Hb].
    + destruct s as [|y s]; cbn in Hl; [lia|]. eexists; split; [done|].
      by rewrite take_nil.
    + destruct (IH s t) as (s' & -> & Hlen & Htk & Hdr); [set_solver|lia|].
      eexists; split; [done|]. cbn in *. rewrite Htk. auto.
Qed.

Lemma cstr_app s x : 0 ∉ s -> cstr (s ++ 0 :: x) = s.
Proof.
  induction s as [|b s IH]; [done|]. intros Hs. cbn.
  destruct (Z.eqb_spec b 0); [set_solver|]. f_equal. apply IH. set_solver.
Qed.
Lemma cstr_nonzero s : 0 ∉ cstr s.
Proof.
  induction s as [|b s IH]; cbn; [apply not_elem_of_nil|].
  destruct (Z.eqb_spec b 0); [apply not_elem_of_nil|]. set_solver.
Qed.

(** The copy is NUL-terminated within the [n] bytes, holds the source string cut
    at [n - 1] characters, and nothing behind the [n] bytes is written. *)
Lemma safestrcpy_cstr s t n : 0 ∈ t -> 0 < n <= Z.of_nat (length s) ->
  exists s', safestrcpy s t n = Some s' /\ length s' = length s /\
    0 ∈ take (Z.to_nat n) s' /\
    cstr s' = take (Z.to_nat (n - 1)) (cstr t) /\
    drop (Z.to_nat n) s' = drop (Z.to_nat n) s.
Proof.
  intros Ht Hn. unfold safestrcpy. destruct (Z.leb_spec n 0); [lia|].
  destruct (safestrcpy_loop_spec (Z.to_nat (n - 1)) s t Ht) as (s' & -> & Hl & Htk & Hd); [lia|].
  exists s'. split; [done|]. split; [done|].
  set (u := take (Z.to_nat (n - 1)) (cstr t)) in *.
  assert (Hu : 0 ∉ u).
  { intros Hin. apply (cstr_nonzero t). rewrite <-(take_drop (Z.to_nat (n - 1)) (cstr t)).
    apply elem_of_app. by left. }
  assert (Hul : (length u <= Z.to_nat (n - 1))%nat) by (subst u; rewrite length_take; lia).
  assert (Hs' : s' = u ++ 0 :: drop (S (length u)) s').
  { rewrite <-(take_drop (S (length u)) s') at 1. rewrite Htk. by rewrite <-app_assoc. }
  replace (Z.to_nat n) with (S (Z.to_nat (n - 1))) by lia. split; [|split; [|done]].
  - rewrite Hs', take_app. apply elem_of_app. right.
    replace (S (Z.to_nat (n - 1)) - length u)%nat with (S (Z.to_nat (n - 1) - length u)) by lia.
    cbn. set_solver.
  - rewrite Hs'. by apply cstr_app.
Qed.
