(* ===== verification/User.v ===== *)
(** What user programs share with the kernel: the modes of fcntl.h; and C character and
    string literals as the bytes of the models. *)

From stdpp Require Import base tactics numbers option list strings.
From Stdlib Require Import ZArith Lia Ascii.
From Stdlib Require String.
From S2P Require Import Prelude.

Definition O_RDONLY : Z := 0x000.
Definition O_WRONLY : Z := 0x001.
Definition O_RDWR : Z := 0x002.
Definition O_CREATE : Z := 0x200.

(** A character literal. *)
Definition ch (a : ascii) : Z := Z.of_N (N_of_ascii a).
(** The characters of a string literal, without the NUL. *)
Definition chars (s : string) : list Z := ch <$> String.list_ascii_of_string s.
