(* ===== verification/Kernel.v ===== *)
(** The kernel state that proc.c works on, and the services it calls.

    [kstate X] holds the process table, the spin locks, the per-processor records
    and the globals of proc.c; [X] is the state of the subsystems behind the
    interface [Services] (page allocator, page tables, files, inodes, log). *)

From stdpp Require Import base tactics numbers option list gmap sets strings.
From Stdlib Require Import ZArith Lia.
From S2P Require Import Prelude ProcDefs StateLists PtableRep Spinlock.

(** * Services used by proc.c *)

Class Services (X : Type) := {
  sv_kalloc : M X (option Z);
  sv_kfree : Z -> M X unit;
  sv_setupkvm : M X (option Z);
  sv_inituvm : Z -> M X unit;
  sv_allocuvm : Z -> Z -> Z -> M X Z;
  sv_deallocuvm : Z -> Z -> Z -> M X Z;
  sv_copyuvm : Z -> Z -> M X (option Z);
  sv_freevm : Z -> M X unit;
  sv_filedup : nat -> M X unit;
  sv_fileclose : nat -> M X unit;
  sv_namei_root : M X (option nat);
  sv_idup : nat -> M X unit;
  sv_iput : nat -> M X unit;
  sv_begin_op : M X unit;
  sv_end_op : M X unit;
  sv_iinit_initlog : M X unit
}.

(** * The state *)

Section kstate.
Context {X : Type}.

Record kstate := MkKstate {
  pt : ptable; (* struct proc proc[], list[], ready[] *)
  PromoteAtTime : Z; (* ptable.PromoteAtTime *)
  locks : list spinlock; (* every spin lock; number 0 is ptable.lock *)
  cpus : list cpu; (* struct cpu cpus[] *)
  nextpid : Z;
  initproc : option nat;
  ticks : Z; (* trap.c *)
  kpgdir : Z; (* vm.c *)
  fsready : bool; (* the static flag of forkret, negated *)
  ext : X (* the state of the other subsystems *)
}.

Definition set_pt (v : ptable) (r : kstate) : kstate :=
  {| pt := v; PromoteAtTime := PromoteAtTime r; locks := locks r; cpus := cpus r;
     nextpid := nextpid r; initproc := initproc r; ticks := ticks r; kpgdir := kpgdir r;
     fsready := fsready r; ext := ext r |}.
Definition set_PromoteAtTime (v : Z) (r : kstate) : kstate :=
  {| pt := pt r; PromoteAtTime := v; locks := locks r; cpus := cpus r;
     nextpid := nextpid r; initproc := initproc r; ticks := ticks r; kpgdir := kpgdir r;
     fsready := fsready r; ext := ext r |}.
Definition set_locks (v : list spinlock) (r : kstate) : kstate :=
  {| pt := pt r; PromoteAtTime := PromoteAtTime r; locks := v; cpus := cpus r;
     nextpid := nextpid r; initproc := initproc r; ticks := ticks r; kpgdir := kpgdir r;
     fsready := fsready r; ext := ext r |}.
Definition set_cpus (v : list cpu) (r : kstate) : kstate :=
  {| pt := pt r; PromoteAtTime := PromoteAtTime r; locks := locks r; cpus := v;
     nextpid := nextpid r; initproc := initproc r; ticks := ticks r; kpgdir := kpgdir r;
     fsready := fsready r; ext := ext r |}.
Definition set_nextpid (v : Z) (r : kstate) : kstate :=
  {| pt := pt r; PromoteAtTime := PromoteAtTime r; locks := locks r; cpus := cpus r;
     nextpid := v; initproc := initproc r; ticks := ticks r; kpgdir := kpgdir r;
     fsready := fsready r; ext := ext r |}.
Definition set_initproc (v : option nat) (r : kstate) : kstate :=
  {| pt := pt r; PromoteAtTime := PromoteAtTime r; locks := locks r; cpus := cpus r;
     nextpid := nextpid r; initproc := v; ticks := ticks r; kpgdir := kpgdir r;
     fsready := fsready r; ext := ext r |}.
Definition set_ticks (v : Z) (r : kstate) : kstate :=
  {| pt := pt r; PromoteAtTime := PromoteAtTime r; locks := locks r; cpus := cpus r;
     nextpid := nextpid r; initproc := initproc r; ticks := v; kpgdir := kpgdir r;
     fsready := fsready r; ext := ext r |}.
Definition set_fsready (v : bool) (r : kstate) : kstate :=
  {| pt := pt r; PromoteAtTime := PromoteAtTime r; locks := locks r; cpus := cpus r;
     nextpid := nextpid r; initproc := initproc r; ticks := ticks r; kpgdir := kpgdir r;
     fsready := v; ext := ext r |}.
Definition set_ext (v : X) (r : kstate) : kstate :=
  {| pt := pt r; PromoteAtTime := PromoteAtTime r; locks := locks r; cpus := cpus r;
     nextpid := nextpid r; initproc := initproc r; ticks := ticks r; kpgdir := kpgdir r;
     fsready := fsready r; ext := v |}.

Definition K : Type -> Type := M kstate.

Definition lift_pt {A} (m : M ptable A) : K A := zoom pt set_pt m.
Definition lift_ext {A} (m : M X A) : K A := zoom ext set_ext m.

(** Run on the record of processor [c]. *)
Definition on_cpu {A} (c : nat) (m : M cpu A) : K A := fun s =>
  match cpus s !! c with
  | None => Err EFault
  | Some k =>
      match m k with
      | Ok (a, k') => Ok (a, set_cpus (<[c := k']> (cpus s)) s)
      | Err e => Err e
      end
  end.

(** Run on the record of processor [c] and lock number [i]. *)
Definition on_lock {A} (c i : nat) (m : M (cpu * spinlock) A) : K A := fun s =>
  match cpus s !! c, locks s !! i with
  | Some k, Some l =>
      match m (k, l) with
      | Ok (a, (k', l')) =>
          Ok (a, set_locks (<[i := l']> (locks s)) (set_cpus (<[c := k']> (cpus s)) s))
      | Err e => Err e
      end
  | _, _ => Err EFault
  end.

Definition PTLOCK : nat := 0.
Definition acquire_lk (c i : nat) : K unit := on_lock c i (acquire c).
Definition release_lk (c i : nat) : K unit := on_lock c i (release c).
Definition holding_lk (c i : nat) : K bool := on_lock c i (holding c).
Definition kmyproc (c : nat) : K (option nat) := on_cpu c myproc.

(** [switchuvm(p)] and [switchkvm()] of vm.c: the trap stack and the page
    directory of the processor. *)
Definition V2P (a : Z) : Z := u32 (a - KERNBASE).
Definition switchuvm (c : nat) (p : nat) : K unit :=
  ks ← lift_pt (rd p_kstack p);
  panic_if (bool_decide (ks = None)) "switchuvm: no kstack";;
  pd ← lift_pt (rd p_pgdir p);
  panic_if (bool_decide (pd = None)) "switchuvm: no pgdir";;
  on_cpu c pushcli;;
  on_cpu c (modify (set_c_esp0 (u32 (from_option id 0 ks + KSTACKSIZE))));;
  on_cpu c (modify (set_c_cr3 (V2P (from_option id 0 pd))));;
  on_cpu c popcli.
Definition switchkvm (c : nat) : K unit :=
  d ← gets kpgdir; on_cpu c (modify (set_c_cr3 (V2P d))).

(** * Symbolic execution *)

Lemma wp_lift_pt {A} (m : M ptable A) (Q : A -> kstate -> Prop) s :
  wp m (fun a t => Q a (set_pt t s)) (pt s) -> wp (lift_pt m) Q s.
Proof. apply wp_zoom. Qed.
Lemma wp_lift_ext {A} (m : M X A) (Q : A -> kstate -> Prop) s :
  wp m (fun a x => Q a (set_ext x s)) (ext s) -> wp (lift_ext m) Q s.
Proof. apply wp_zoom. Qed.
Lemma wp_on_cpu {A} c k (m : M cpu A) (Q : A -> kstate -> Prop) s :
  cpus s !! c = Some k ->
  wp m (fun a k' => Q a (set_cpus (<[c := k']> (cpus s)) s)) k -> wp (on_cpu c m) Q s.
Proof. intros Hk. unfold wp, on_cpu. rewrite Hk. by destruct (m k) as [[a k']|e]. Qed.
Lemma wp_on_lock {A} c i k l (m : M (cpu * spinlock) A) (Q : A -> kstate -> Prop) s :
  cpus s !! c = Some k -> locks s !! i = Some l ->
  wp m (fun a kl => Q a (set_locks (<[i := kl.2]> (locks s))
                          (set_cpus (<[c := kl.1]> (cpus s)) s))) (k, l) ->
  wp (on_lock c i m) Q s.
Proof.
  intros Hk Hl. unfold wp, on_lock. rewrite Hk, Hl. by destruct (m (k, l)) as [[a [k' l']]|e].
Qed.

End kstate.
Arguments kstate : clear implicits.
Arguments K : clear implicits.
