(* ===== verification/Proc.v ===== *)
(** proc.c as configured for project 4 (CS333_P1 .. CS333_P4 defined): the process
    life cycle, the multi-level ready lists and the system-call back ends. *)

From stdpp Require Import base tactics numbers option list gmap sets strings.
From Stdlib Require Import ZArith Lia.
From S2P Require Import Prelude ProcDefs StateLists PtableRep Spinlock Kernel CString.

(** [&ptable.ready[i]]; an index outside the array names no list. *)
Definition ready_lid (i : Z) : lid :=
  if i <? 0 then LReady (S MAXPRIO) else LReady (Z.to_nat i).

(** The lists visited by [for(int i = 1; i < statecount; ++i) if(i != RUNNABLE)]
    and by [for(int i = MAXPRIO; i > -1; --i)]. *)
Definition state_lids : list lid :=
  LState <$> filter (fun st => st <> RUNNABLE) (drop 1 all_states).
Definition ready_lids : list lid := LReady <$> reverse (seq 0 (S MAXPRIO)).

(** [static char *initcode_name = "initcode"], as bytes with the NUL. *)
Definition initcode_name : list Z := [105; 110; 105; 116; 99; 111; 100; 101; 0].

(** * Pieces that run on the process table alone *)

(** The transition SLEEPING -> RUNNABLE of [wakeup1] and [kill]. *)
Definition make_runnable (msg : string) (p : nat) : M ptable unit :=
  removeOrPanic (LState SLEEPING) p msg;;
  assertState p SLEEPING;;
  wr (set_p_state RUNNABLE) p;;
  prio ← rd p_priority p;
  stateListAdd (ready_lid prio) p.

(** [wakeup1] *)
Definition wakeup1 (ch : chan) : M ptable unit :=
  hd ← rd_ptrs q_head (LState SLEEPING);
  while_list NPROC (fun (_ : unit) p =>
    st ← rd p_state p;
    pch ← rd p_chan p;
    (if bool_decide (st = SLEEPING) && bool_decide (pch = ch)
     then make_runnable "Proccess Not Found In SLEEPING List!" p else mret tt);;
    mret (Continue (A := unit) tt)) tt hd;;
  mret tt.

(** The two searches of [kill]. *)
Definition kill_body (pid : Z) : M ptable Z :=
  r ← for_lists state_lids (fun (_ : unit) p =>
    q ← rd p_pid p;
    if q =? u32 pid then
      wr (set_p_killed 1) p;;
      st ← rd p_state p;
      (if bool_decide (st = SLEEPING)
       then make_runnable "Process Not Found in Sleeping List!" p else mret tt);;
      mret (Return 0)
    else mret (Continue tt)) tt;
  match r with
  | Return v => mret v
  | Continue _ =>
      r ← for_lists ready_lids (fun (_ : unit) p =>
        q ← rd p_pid p;
        if q =? u32 pid then wr (set_p_killed 1) p;; mret (Return 0)
        else mret (Continue tt)) tt;
      match r with Return v => mret v | Continue _ => mret (-1) end
  end.

(** The budget accounting of [yield], [sleep] and [exit]: [int] minus [uint] is
    computed in [uint] and stored back into the [int] field. *)
Definition charge (now : Z) (r : proc) : proc :=
  let b := s32 (u32 (p_budget r) - u32 (now - p_cpu_ticks_in r)) in
  if b <=? 0 then
    set_p_budget BUDGET
      (if 0 <? p_priority r then set_p_priority (p_priority r - 1) r else r)
  else set_p_budget b r.
Definition charge_budget (now : Z) (p : nat) : M ptable unit :=
  if bool_decide (MAXPRIO <> 0%nat) then wr (charge now) p else mret tt.

(** [p->priority += 1; p->budget = BUDGET] *)
Definition promote (r : proc) : proc :=
  set_p_budget BUDGET (set_p_priority (s32 (p_priority r + 1)) r).

(** Promotion on the SLEEPING and RUNNING lists. *)
Definition promote_in_place (l : lid) : M ptable unit :=
  hd ← rd_ptrs q_head l;
  while_list NPROC (fun (_ : unit) p =>
    prio ← rd p_priority p;
    (if prio <? Z.of_nat MAXPRIO then wr promote p else mret tt);;
    mret (Continue (A := unit) tt)) tt hd;;
  mret tt.

(** Promotion on one ready list; the next process is saved before [p] moves. *)
Fixpoint promote_ready_from (fuel : nat) (p : option nat) : M ptable unit :=
  match p with
  | None => mret tt
  | Some q =>
      match fuel with
      | O => fail EFuel
      | S fuel =>
          save ← rd p_next q;
          prio ← rd p_priority q;
          (if prio <? Z.of_nat MAXPRIO then
             removeOrPanic (ready_lid prio) q "Process Not Found in Ready Lists!";;
             assertState q RUNNABLE;;
             wr promote q;;
             prio' ← rd p_priority q;
             stateListAdd (ready_lid prio') q
           else mret tt);;
          promote_ready_from fuel save
      end
  end.
Definition promote_ready (i : nat) : M ptable unit :=
  hd ← rd_ptrs q_head (LReady i); promote_ready_from NPROC hd.

Definition promote_all : M ptable unit :=
  promote_in_place (LState SLEEPING);;
  promote_in_place (LState RUNNING);;
  for_each promote_ready (reverse (seq 0 (S MAXPRIO))).

(** The scheduler's choice: the head of the first non-empty ready list, and the
    index of that list. *)
Fixpoint pick_from (idx : list nat) : M ptable (option (nat * nat)) :=
  match idx with
  | [] => mret None
  | i :: idx =>
      hd ← rd_ptrs q_head (LReady i);
      match hd with Some p => mret (Some (i, p)) | None => pick_from idx end
  end.
Definition pick : M ptable (option (nat * nat)) := pick_from (reverse (seq 0 (S MAXPRIO))).

(** The transition of the chosen process to RUNNING. *)
Definition dispatch (now : Z) (i p : nat) : M ptable unit :=
  prio ← rd p_priority p;
  r ← stateListRemove (ready_lid prio) (Some p);
  panic_if ((r =? -1) && negb (prio =? Z.of_nat i)) "Process Not Found in Correct Ready List!";;
  panic_if (r =? -1) "Process Not Found In Ready Lists!";;
  assertState p RUNNABLE;;
  wr (set_p_state RUNNING) p;;
  stateListAdd (LState RUNNING) p;;
  wr (set_p_cpu_ticks_in now) p.

(** [setpriority] and [getpriority] *)
Definition setpriority_body (pid priority : Z) : M ptable Z :=
  r ← for_lists ready_lids (fun (_ : unit) p =>
    q ← rd p_pid p;
    if q =? u32 pid then
      prio ← rd p_priority p;
      if prio =? priority then mret (Return 0) else
      removeOrPanic (ready_lid prio) p "Not on Ready Lists!";;
      wr (set_p_priority priority) p;;
      wr (set_p_budget BUDGET) p;;
      prio' ← rd p_priority p;
      stateListAdd (ready_lid prio') p;;
      mret (Return 0)
    else mret (Continue tt)) tt;
  match r with
  | Return v => mret v
  | Continue _ =>
      r ← for_lists [LState SLEEPING; LState RUNNING] (fun (_ : unit) p =>
        q ← rd p_pid p;
        if q =? u32 pid then
          prio ← rd p_priority p;
          if prio =? priority then mret (Return 0) else
          wr (set_p_priority priority) p;;
          wr (set_p_budget BUDGET) p;;
          mret (Return 0)
        else mret (Continue tt)) tt;
      match r with Return v => mret v | Continue _ => mret (-1) end
  end.

Definition getpriority_body (pid : Z) : M ptable Z :=
  r ← for_lists (ready_lids ++ [LState SLEEPING; LState RUNNING]) (fun (_ : unit) p =>
    q ← rd p_pid p;
    if q =? u32 pid then prio ← rd p_priority p; mret (Return prio)
    else mret (Continue tt)) tt;
  match r with Return v => mret v | Continue _ => mret (-1) end.

(** [exit]: children of [cur] are handed to [init]. *)
Definition reparent (cur : nat) (init : option nat) : M ptable unit :=
  for_lists state_lids (fun (_ : unit) p =>
    par ← rd p_parent p;
    (if bool_decide (par = Some cur) then
       wr (set_p_parent init) p;;
       st ← rd p_state p;
       (if bool_decide (st = ZOMBIE)
        then wakeup1 (from_option CProc CNull init) else mret tt)
     else mret tt);;
    mret (Continue (A := unit) tt)) tt;;
  for_lists ready_lids (fun (_ : unit) p =>
    par ← rd p_parent p;
    (if bool_decide (par = Some cur) then wr (set_p_parent init) p else mret tt);;
    mret (Continue (A := unit) tt)) tt;;
  mret tt.

(** [exit] under the lock, up to [sched()]. *)
Definition exit_body (now : Z) (cur : nat) (init : option nat) : M ptable unit :=
  par ← rd p_parent cur;
  wakeup1 (from_option CProc CNull par);;
  reparent cur init;;
  removeOrPanic (LState RUNNING) cur "Process Not Found In Running List!";;
  assertState cur RUNNING;;
  charge_budget now cur;;
  wr (set_p_state ZOMBIE) cur;;
  stateListAdd (LState ZOMBIE) cur;;
  wr (set_p_sz 0) cur.

(** One scan of [wait]: a zombie child ends it, otherwise [havekids]. *)
Definition wait_scan (cur : nat) : M ptable (ctl nat bool) :=
  r ← for_lists state_lids (fun (havekids : bool) p =>
    par ← rd p_parent p;
    if bool_decide (par = Some cur) then
      st ← rd p_state p;
      if bool_decide (st = ZOMBIE) then mret (Return p) else mret (Continue true)
    else mret (Continue havekids)) false;
  match r with
  | Return p => mret (Return p)
  | Continue havekids =>
      for_lists ready_lids (fun (havekids : bool) p =>
        par ← rd p_parent p;
        if bool_decide (par = Some cur) then mret (Continue true)
        else mret (Continue havekids)) havekids
  end.

(** The slot of a reaped zombie is cleared and put on the free list. *)
Definition reap_fields (r : proc) : proc :=
  set_p_killed 0 (set_p_name (<[0%nat := 0]> (p_name r))
    (set_p_parent None (set_p_pid 0 r))).
Definition reap (p : nat) : M ptable unit :=
  wr reap_fields p;;
  removeOrPanic (LState ZOMBIE) p "Process Not Found In ZOMBIE List!";;
  assertState p ZOMBIE;;
  wr (set_p_state UNUSED) p;;
  stateListAdd (LState UNUSED) p.

(** [yield] and [sleep] under the lock, up to [sched()]. *)
Definition yield_body (now : Z) (cur : nat) : M ptable unit :=
  removeOrPanic (LState RUNNING) cur "Process Not Found In RUNNING List!";;
  assertState cur RUNNING;;
  wr (set_p_state RUNNABLE) cur;;
  charge_budget now cur;;
  prio ← rd p_priority cur;
  stateListAdd (ready_lid prio) cur.

Definition sleep_body (now : Z) (ch : chan) (cur : nat) : M ptable unit :=
  wr (set_p_chan ch) cur;;
  removeOrPanic (LState RUNNING) cur "Process Not Found In RUNNING List!";;
  assertState cur RUNNING;;
  charge_budget now cur;;
  wr (set_p_state SLEEPING) cur;;
  stateListAdd (LState SLEEPING) cur.

(** * The routines of proc.c *)

Section routines.
Context {X : Type} `{!Services X}.
(** The link address of [forkret]. *)
Context (forkret_addr : Z).
(** [swtch] as seen by a process that leaves the processor: everything that
    happens until the scheduler resumes it.  As seen by the scheduler: the time
    slice of the process. *)
Context (swtch_out : nat -> K X unit) (swtch_in : nat -> nat -> K X unit).

Local Abbreviation K := (K X).

Definition pinit : K unit :=
  modify (fun s => set_locks (<[PTLOCK := initlock "ptable"]> (locks s)) s).

(** [struct proc *curproc = myproc()] and a use of it *)
Definition curproc (c : nat) : K nat := kmyproc c ≫= nonnull.

(** The fields that [allocproc] sets on a fresh slot with a kernel stack. *)
Definition alloc_fields (now : Z) (r : proc) : proc :=
  set_p_budget BUDGET (set_p_priority DEFAULTPRIO
  (set_p_cpu_ticks_in 0 (set_p_cpu_ticks_total 0
  (set_p_gid 0 (set_p_uid 0
  (set_p_start_ticks now
  (set_p_context (MkContext 0 0 0 0 forkret_addr) r))))))).

Definition alloc_move (p : nat) : M ptable unit :=
  removeOrPanic (LState UNUSED) p "Process Not Found In UNUSED List!";;
  assertState p UNUSED;;
  wr (set_p_state EMBRYO) p;;
  stateListAdd (LState EMBRYO) p.
Definition unalloc_move (p : nat) : M ptable unit :=
  removeOrPanic (LState EMBRYO) p "Process Not Found In EMBRYO List!";;
  assertState p EMBRYO;;
  wr (set_p_state UNUSED) p;;
  stateListAdd (LState UNUSED) p.

(** Under the lock: take the first free slot, if any, and give it a pid. *)
Definition alloc_take : K (option nat) :=
  hd ← lift_pt (rd_ptrs q_head (LState UNUSED));
  match hd with
  | None => mret None
  | Some p =>
      lift_pt (alloc_move p);;
      n ← gets nextpid;
      modify (set_nextpid (u32 (n + 1)));;
      lift_pt (wr (set_p_pid n) p);;
      mret (Some p)
  end.
(** The second half of [allocproc]. *)
Definition alloc_finish (c p : nat) (ks : option Z) : K (option nat) :=
  lift_pt (wr (set_p_kstack ks) p);;
  match ks with
  | None =>
      acquire_lk c PTLOCK;;
      lift_pt (unalloc_move p);;
      release_lk c PTLOCK;;
      mret None
  | Some _ =>
      now ← gets ticks;
      lift_pt (wr (alloc_fields now) p);;
      mret (Some p)
  end.
Definition allocproc (c : nat) : K (option nat) :=
  acquire_lk c PTLOCK;;
  op ← alloc_take;
  release_lk c PTLOCK;;
  match op with
  | None => mret None
  | Some p => ks ← lift_ext sv_kalloc; alloc_finish c p ks
  end.

(** The trap frame of the first process: user segments, interrupts enabled,
    stack at the end of its page, entry at 0. *)
Definition init_tf : trapframe :=
  let ucode := Z.lor (Z.shiftl 3 3) 3 in
  let udata := Z.lor (Z.shiftl 4 3) 3 in
  {| tf_edi := 0; tf_esi := 0; tf_ebp := 0; tf_oesp := 0; tf_ebx := 0; tf_edx := 0;
     tf_ecx := 0; tf_eax := 0; tf_gs := 0; tf_fs := 0; tf_es := udata; tf_ds := udata;
     tf_trapno := 0; tf_err := 0; tf_eip := 0; tf_cs := ucode; tf_eflags := 0x200;
     tf_esp := PGSIZE; tf_ss := udata |}.

(** The image, the registers, the identity and the directory of the first process. *)
Definition userinit_fill (p : nat) : K unit :=
  pd ← lift_ext sv_setupkvm;
  lift_pt (wr (set_p_pgdir pd) p);;
  panic_if (bool_decide (pd = None)) "userinit: out of memory?";;
  lift_ext (sv_inituvm (from_option id 0 pd));;
  lift_pt (wr (set_p_sz PGSIZE) p);;
  lift_pt (wr (set_p_tf init_tf) p);;
  lift_pt (wr (set_p_gid GID) p);;
  lift_pt (wr (set_p_uid UID) p);;
  nm ← lift_pt (rd p_name p);
  nm' ← deref (fun _ => safestrcpy nm initcode_name 16);
  lift_pt (wr (set_p_name nm') p);;
  cwd ← lift_ext sv_namei_root;
  lift_pt (wr (set_p_cwd cwd) p).

Definition userinit (c : nat) : K unit :=
  acquire_lk c PTLOCK;;
  lift_pt initProcessLists;;
  lift_pt initFreeList;;
  now ← gets ticks;
  modify (set_PromoteAtTime (u32 (now + TICKS_TO_PROMOTE)));;
  release_lk c PTLOCK;;
  op ← allocproc c;
  modify (set_initproc op);;
  p ← nonnull op;
  userinit_fill p;;
  acquire_lk c PTLOCK;;
  lift_pt (removeOrPanic (LState EMBRYO) p "Process Not Found In EMBRYO List!";;
           assertState p EMBRYO;;
           wr (set_p_state RUNNABLE) p;;
           prio ← rd p_priority p;
           stateListAdd (ready_lid prio) p);;
  release_lk c PTLOCK.

(** [growproc]; the page directory of a running process is not null. *)
Definition growproc (c : nat) (n : Z) : K Z :=
  cur ← curproc c;
  sz ← lift_pt (rd p_sz cur);
  opd ← lift_pt (rd p_pgdir cur);
  pd ← deref (fun _ => opd);
  sz' ← (if 0 <? n then lift_ext (sv_allocuvm pd sz (u32 (sz + n)))
         else if n <? 0 then lift_ext (sv_deallocuvm pd sz (u32 (sz + n)))
         else mret sz);
  if negb (n =? 0) && (sz' =? 0) then mret (-1) else
  lift_pt (wr (set_p_sz sz') cur);;
  switchuvm c cur;;
  mret 0.

(** [for(i = 0; i < NOFILE; i++) if(curproc->ofile[i]) filedup(...)] *)
Definition dup_files (fs : list (option nat)) : K unit :=
  for_each (fun f => match f with
                     | Some f => lift_ext (sv_filedup f)
                     | None => mret tt
                     end) fs.

(** [np->ofile[i] = filedup(curproc->ofile[i])] for the open descriptors. *)
Definition copy_ofile (old new : list (option nat)) : list (option nat) :=
  zip_with (fun o n => match o with Some f => Some f | None => n end) old new.

(** The new process leaves the EMBRYO list early and joins a ready list at the
    end; in between it is on no list. *)
Definition fork_detach (np : nat) : M ptable unit :=
  removeOrPanic (LState EMBRYO) np "Process Not Found In EMBRYO List!";;
  assertState np EMBRYO.
Definition fork_publish (np : nat) : M ptable unit :=
  wr (set_p_state RUNNABLE) np;;
  prio ← rd p_priority np;
  stateListAdd (ready_lid prio) np.

(** [copyuvm] failed: the stack and the slot are given back. *)
Definition fork_abort (c np : nat) : K Z :=
  oks ← lift_pt (rd p_kstack np);
  ks ← deref (fun _ => oks);
  lift_ext (sv_kfree ks);;
  lift_pt (wr (set_p_kstack None) np);;
  lift_pt (wr (set_p_state UNUSED) np);;
  acquire_lk c PTLOCK;;
  lift_pt (stateListAdd (LState UNUSED) np);;
  release_lk c PTLOCK;;
  mret (-1).
(** The fields of the child; returns its pid. *)
Definition fork_copy (cur np : nat) (sz : Z) : K Z :=
  lift_pt (wr (set_p_sz sz) np);;
  lift_pt (wr (set_p_parent (Some cur)) np);;
  tf ← lift_pt (rd p_tf cur);
  lift_pt (wr (set_p_tf (set_tf_eax 0 tf)) np);;
  fs ← lift_pt (rd p_ofile cur);
  dup_files fs;;
  lift_pt (wr (fun r => set_p_ofile (copy_ofile fs (p_ofile r)) r) np);;
  ocwd ← lift_pt (rd p_cwd cur);
  cwd ← nonnull ocwd;
  lift_ext (sv_idup cwd);;
  lift_pt (wr (set_p_cwd (Some cwd)) np);;
  nm ← lift_pt (rd p_name cur);
  nm0 ← lift_pt (rd p_name np);
  nm' ← deref (fun _ => safestrcpy nm0 nm 16);
  lift_pt (wr (set_p_name nm') np);;
  pid ← lift_pt (rd p_pid np);
  uid ← lift_pt (rd p_uid cur);
  lift_pt (wr (set_p_uid uid) np);;
  gid ← lift_pt (rd p_gid cur);
  lift_pt (wr (set_p_gid gid) np);;
  mret pid.

Definition fork (c : nat) : K Z :=
  cur ← curproc c;
  onp ← allocproc c;
  match onp with
  | None => mret (-1)
  | Some np =>
      acquire_lk c PTLOCK;;
      lift_pt (fork_detach np);;
      release_lk c PTLOCK;;
      opd ← lift_pt (rd p_pgdir cur);
      pd ← deref (fun _ => opd);
      sz ← lift_pt (rd p_sz cur);
      npd ← lift_ext (sv_copyuvm pd sz);
      lift_pt (wr (set_p_pgdir npd) np);;
      match npd with
      | None => fork_abort c np
      | Some _ =>
          pid ← fork_copy cur np sz;
          acquire_lk c PTLOCK;;
          lift_pt (fork_publish np);;
          release_lk c PTLOCK;;
          mret (s32 pid)
      end
  end.

(** [sched]: the checks and the accounting before the switch ... *)
Definition sched_enter (c : nat) : K bool :=
  p ← curproc c;
  h ← holding_lk c PTLOCK;
  panic_if (negb h) "sched ptable.lock";;
  n ← on_cpu c (mycpu_check;; gets c_ncli);
  panic_if (negb (n =? 1)) "sched locks";;
  st ← lift_pt (rd p_state p);
  panic_if (bool_decide (st = RUNNING)) "sched running";;
  i ← on_cpu c (gets c_if);
  panic_if i "sched interruptible";;
  now ← gets ticks;
  lift_pt (wr (fun r => set_p_cpu_ticks_total
    (u32 (p_cpu_ticks_total r + u32 (now - p_cpu_ticks_in r))) r) p);;
  on_cpu c (mycpu_check;; gets c_intena).
(** ... and the whole routine: save intena, switch, restore it. *)
Definition sched (c : nat) : K unit :=
  intena ← sched_enter c;
  swtch_out c;;
  on_cpu c (mycpu_check;; modify (set_c_intena intena)).

(** [exit]: close the files and leave the current directory. *)
Definition close_files (cur : nat) (fs : list (option nat)) : K unit :=
  for_each (fun fd =>
    match fs !! fd with
    | Some (Some f) =>
        lift_ext (sv_fileclose f);;
        lift_pt (wr (fun r => set_p_ofile (<[fd := None]> (p_ofile r)) r) cur)
    | _ => mret tt
    end) (seq 0 NOFILE).
Definition exit_files (cur : nat) : K unit :=
  fs ← lift_pt (rd p_ofile cur);
  close_files cur fs;;
  lift_ext sv_begin_op;;
  ocwd ← lift_pt (rd p_cwd cur);
  cwd ← nonnull ocwd;
  lift_ext (sv_iput cwd);;
  lift_ext sv_end_op;;
  lift_pt (wr (set_p_cwd None) cur).
Definition exit_enter (c : nat) : K unit :=
  cur ← curproc c;
  init ← gets initproc;
  panic_if (bool_decide (Some cur = init)) "init exiting";;
  exit_files cur;;
  acquire_lk c PTLOCK;;
  now ← gets ticks;
  lift_pt (exit_body now cur init).
Definition exit (c : nat) : K unit :=
  exit_enter c;; sched c;; fail (EPanic "zombie exit").

(** [sleep]; [lk] is [None] for the null lock of [sys_sleep]. *)
Definition sleep_enter (c : nat) (ch : chan) (lk : option nat) : K nat :=
  op ← kmyproc c;
  panic_if (bool_decide (op = None)) "sleep";;
  cur ← nonnull op;
  (if bool_decide (lk <> Some PTLOCK) then
     acquire_lk c PTLOCK;;
     match lk with Some l => release_lk c l | None => mret tt end
   else mret tt);;
  now ← gets ticks;
  lift_pt (sleep_body now ch cur);;
  mret cur.
Definition sleep_leave (c : nat) (lk : option nat) (cur : nat) : K unit :=
  lift_pt (wr (set_p_chan CNull) cur);;
  if bool_decide (lk <> Some PTLOCK) then
    release_lk c PTLOCK;;
    match lk with Some l => acquire_lk c l | None => mret tt end
  else mret tt.
Definition sleep (c : nat) (ch : chan) (lk : option nat) : K unit :=
  cur ← sleep_enter c ch lk;
  sched c;;
  sleep_leave c lk cur.

(** [wait], with [n] rounds of its endless loop. *)
Fixpoint wait_loop (n : nat) (c cur : nat) : K Z :=
  match n with
  | O => fail EFuel
  | S n =>
      r ← lift_pt (wait_scan cur);
      match r with
      | Return p =>
          pid ← lift_pt (rd p_pid p);
          oks ← lift_pt (rd p_kstack p);
          ks ← deref (fun _ => oks);
          lift_ext (sv_kfree ks);;
          lift_pt (wr (set_p_kstack None) p);;
          opd ← lift_pt (rd p_pgdir p);
          pd ← deref (fun _ => opd);
          lift_ext (sv_freevm pd);;
          lift_pt (reap p);;
          release_lk c PTLOCK;;
          mret (s32 pid)
      | Continue havekids =>
          k ← lift_pt (rd p_killed cur);
          if negb havekids || negb (k =? 0) then
            release_lk c PTLOCK;; mret (-1)
          else
            sleep c (CProc cur) (Some PTLOCK);;
            wait_loop n c cur
      end
  end.
Definition wait (n : nat) (c : nat) : K Z :=
  cur ← curproc c; acquire_lk c PTLOCK;; wait_loop n c cur.

(** One round of [scheduler], up to the switch: promotion when it is due, then
    the choice of a process.  Returns the process, or [None] when idle. *)
Definition scheduler_promote (c : nat) : K unit :=
  on_cpu c (modify (set_c_if true));;
  acquire_lk c PTLOCK;;
  now ← gets ticks;
  at_ ← gets PromoteAtTime;
  (if (at_ <=? now) && bool_decide (MAXPRIO <> 0%nat) then
     lift_pt promote_all;;
     modify (set_PromoteAtTime (u32 (now + TICKS_TO_PROMOTE)))
   else mret tt);;
  release_lk c PTLOCK.
Definition scheduler_dispatch (c : nat) : K (option nat) :=
  acquire_lk c PTLOCK;;
  r ← lift_pt pick;
  match r with
  | None => mret None
  | Some (i, p) =>
      on_cpu c (modify (set_c_proc (Some p)));;
      switchuvm c p;;
      now ← gets ticks;
      lift_pt (dispatch now i p);;
      mret (Some p)
  end.
(** After the switch back, and when there was nothing to run. *)
Definition scheduler_resume (c : nat) : K unit :=
  switchkvm c;;
  on_cpu c (modify (set_c_proc None));;
  release_lk c PTLOCK.
Definition scheduler_idle (c : nat) : K unit :=
  release_lk c PTLOCK;;
  on_cpu c (modify (set_c_if true)).
Definition scheduler_round (c : nat) : K unit :=
  scheduler_promote c;;
  r ← scheduler_dispatch c;
  match r with
  | None => scheduler_idle c
  | Some p => swtch_in c p;; scheduler_resume c
  end.

Definition yield_enter (c : nat) : K unit :=
  cur ← curproc c;
  acquire_lk c PTLOCK;;
  now ← gets ticks;
  lift_pt (yield_body now cur).
Definition yield (c : nat) : K unit :=
  yield_enter c;; sched c;; release_lk c PTLOCK.

(** [forkret]: the first code a new process runs. *)
Definition forkret (c : nat) : K unit :=
  release_lk c PTLOCK;;
  f ← gets fsready;
  if (f : bool) then mret tt else
  modify (set_fsready true);; lift_ext sv_iinit_initlog.

Definition wakeup (c : nat) (ch : chan) : K unit :=
  acquire_lk c PTLOCK;; lift_pt (wakeup1 ch);; release_lk c PTLOCK.

(** [acquire; body; release; return] *)
Definition with_ptable {A} (c : nat) (m : M ptable A) : K A :=
  acquire_lk c PTLOCK;; r ← lift_pt m; release_lk c PTLOCK;; mret r.

Definition kill (c : nat) (pid : Z) : K Z := with_ptable c (kill_body pid).
Definition setpriority (c : nat) (pid priority : Z) : K Z :=
  with_ptable c (setpriority_body pid priority).
Definition getpriority (c : nat) (pid : Z) : K Z := with_ptable c (getpriority_body pid).

(** The identity calls: the field is read or written under the lock. *)
Definition locked_cur {A} (c : nat) (m : nat -> M ptable A) : K A :=
  acquire_lk c PTLOCK;;
  cur ← curproc c;
  r ← lift_pt (m cur);
  release_lk c PTLOCK;;
  mret r.
Definition getuid (c : nat) : K Z := locked_cur c (fun p => s32 <$> rd p_uid p).
Definition getgid (c : nat) : K Z := locked_cur c (fun p => s32 <$> rd p_gid p).
Definition ppid_of (p : nat) : M ptable Z :=
  par ← rd p_parent p;
  match par with None => rd p_pid p | Some q => rd p_pid q end.
Definition getppid (c : nat) : K Z := locked_cur c (fun p => s32 <$> ppid_of p).
Definition setuid (c : nat) (uid : Z) : K Z :=
  locked_cur c (wr (set_p_uid (u32 uid)));; mret 0.
Definition setgid (c : nat) (gid : Z) : K Z :=
  locked_cur c (wr (set_p_gid (u32 gid)));; mret 0.
End routines.
