(* ===== verification/ProcFacts.v ===== *)
(** The process table of project 4: its invariant, and the effect of every list
    transition of proc.c on the abstract lists. *)

From stdpp Require Import base tactics numbers option list gmap sets strings.
From Stdlib Require Import ZArith Lia.
From S2P Require Import Prelude ProcDefs StateLists PtableRep Proc.

(** * The table invariant *)

(** A RUNNABLE process is on the ready list of its priority, any other process on
    the list of its state. *)
Definition home (r : proc) : lid :=
  if decide (p_state r = RUNNABLE) then ready_lid (p_priority r) else LState (p_state r).

Definition prio_ok (r : proc) : Prop := 0 <= p_priority r <= Z.of_nat MAXPRIO.

(** [table t P L off]: [t] represents the slots [P] and the lists [L]; the slots in
    [off] are in transit; priorities index the ready lists. *)
Definition table (t : ptable) (P : list proc) (L : lists) (off : gset nat) : Prop :=
  rep home t P L off /\ Forall prio_ok P.

Definition lmove (L : lists) (p : nat) (l l' : lid) : lists :=
  lset (lset L l (lrem p (L l))) l' (lset L l (lrem p (L l)) l' ++ [p]).

Lemma prio_lid r : prio_ok r -> ready_lid (p_priority r) = LReady (Z.to_nat (p_priority r))
  /\ valid_lid (ready_lid (p_priority r)).
Proof.
  intros [H1 H2]. unfold ready_lid. destruct (Z.ltb_spec (p_priority r) 0); [lia|].
  split; [done|]. cbn. lia.
Qed.
Lemma home_valid r : prio_ok r -> valid_lid (home r).
Proof. intros Hr. unfold home. case_decide; [by apply prio_lid|done]. Qed.
Lemma home_other r st : p_state r = st -> st <> RUNNABLE -> home r = LState st.
Proof. intros <- H. unfold home. by rewrite decide_False. Qed.
Lemma home_runnable r : p_state r = RUNNABLE -> home r = ready_lid (p_priority r).
Proof. intros H. unfold home. by rewrite decide_True. Qed.

Lemma ready_lid_not_state i st : ready_lid i <> LState st.
Proof. unfold ready_lid. by destruct (i <? 0). Qed.

Lemma home_state r st : home r = LState st -> p_state r = st /\ st <> RUNNABLE.
Proof.
  unfold home. case_decide as E; intros H; [by apply ready_lid_not_state in H|].
  simplify_eq. done.
Qed.
Lemma home_ready r i : home r = LReady i -> p_state r = RUNNABLE /\ ready_lid (p_priority r) = LReady i.
Proof. unfold home. case_decide as E; done. Qed.

Section table_rules.
Context {P : list proc} {L : lists} {off : gset nat}.

Lemma table_elem t l p : table t P L off -> p ∈ L l ->
  exists r, P !! p = Some r /\ home r = l /\ prio_ok r /\ p ∉ off /\ (p < NPROC)%nat.
Proof.
  intros [H HP] Hp. pose proof (rep_elem_lt _ _ _ _ _ _ _ H Hp) as Hlt.
  apply (rep_home _ _ _ _ _ H) in Hp as [Hoff (r & Hr & Hh)].
  exists r. split_and!; try done. rewrite Forall_lookup in HP. eauto.
Qed.

(** Reading a field of a slot. *)
Lemma table_rd {A} (f : proc -> A) t p r (Q : A -> ptable -> Prop) :
  table t P L off -> P !! p = Some r -> (forall r, f (set_p_next None r) = f r) ->
  Q (f r) t -> wp (rd f p) Q t.
Proof. intros [H _]. by eapply wp_rep_rd. Qed.

(** Unlinking: remove, panic check, state check. *)
Lemma table_take t l p r msg st k (Q : unit -> ptable -> Prop) :
  table t P L off -> p ∈ L l -> P !! p = Some r -> p_state r = st ->
  (forall t', rep home t' P (lset L l (lrem p (L l))) (off ∪ {[p]}) -> wp k Q t') ->
  wp (removeOrPanic l p msg;; assertState p st;; k) Q t.
Proof.
  intros [H HP] Hp Hr Hst Hk. apply wp_bind. eapply wp_mono; [by apply rep_removeOrPanic|].
  intros [] t' Ht'. apply wp_bind. eapply rep_assertState; [done..|]. by apply Hk.
Qed.
End table_rules.

Lemma rep_last_nxt h t P L off l xs p :
  rep h t P L off -> valid_lid l -> L l = xs ++ [p] -> nxt t p = None.
Proof.
  intros H Hv Hl. destruct (rep_list _ _ _ _ _ H l Hv) as (_ & Hs & _).
  rewrite Hl in Hs. apply seg_app in Hs as [_ [Hs _]]. done.
Qed.

(** Linking a slot that was unlinked from [l]. *)
Lemma table_put t P L off l l' p r (Q : unit -> ptable -> Prop) :
  rep home t P (lset L l (lrem p (L l))) (off ∪ {[p]}) -> Forall prio_ok P ->
  P !! p = Some r -> home r = l' -> p ∉ off ->
  (forall t', table t' P (lmove L p l l') off -> nxt t' p = None -> Q tt t') ->
  wp (stateListAdd l' p) Q t.
Proof.
  intros H HP Hr Hh Hoff HQ.
  assert (Hv : valid_lid l') by (subst l'; apply home_valid; rewrite Forall_lookup in HP; eauto).
  eapply wp_mono; [eapply rep_add; [done|set_solver|done..]|].
  intros [] t' Ht'. apply HQ.
  - split; [|done]. eapply rep_off_eq; [|exact Ht']. set_solver.
  - eapply rep_last_nxt; [done..|]. by rewrite lset_eq.
Qed.

Lemma lmove_to L p l l' : l <> l' -> lmove L p l l' l' = L l' ++ [p].
Proof. intros. unfold lmove. by rewrite lset_eq, lset_ne. Qed.
Lemma lmove_from L p l l' : l <> l' -> lmove L p l l' l = lrem p (L l).
Proof. intros. unfold lmove. by rewrite lset_ne, lset_eq. Qed.
Lemma lmove_other L p l l' m : m <> l -> m <> l' -> lmove L p l l' m = L m.
Proof. intros. unfold lmove. by rewrite !lset_ne. Qed.

(** Writing a slot in transit keeps the priorities in range. *)
Lemma prio_ok_alter f p P :
  Forall prio_ok P -> (forall r, P !! p = Some r -> prio_ok (f r)) -> Forall prio_ok (alter f p P).
Proof.
  intros HP Hf. apply Forall_lookup. intros i r. rewrite Forall_lookup in HP.
  destruct (decide (i = p)) as [->|].
  - rewrite list_lookup_alter_eq. intros (r0 & Hr0 & ->)%fmap_Some. eauto.
  - rewrite list_lookup_alter_ne by done. eauto.
Qed.

(** * SLEEPING to RUNNABLE *)

Lemma make_runnable_spec t P L off p r msg :
  table t P L off -> p ∈ L (LState SLEEPING) -> P !! p = Some r ->
  wp (make_runnable msg p)
     (fun _ t' => table t' (alter (set_p_state RUNNABLE) p P)
                    (lmove L p (LState SLEEPING) (ready_lid (p_priority r))) off
                  /\ nxt t' p = None) t.
Proof.
  intros H Hp Hr. destruct (table_elem _ _ _ H Hp) as (r' & Hr' & Hh & Hpr & Hoff & Hlt).
  simplify_eq. destruct (home_state _ _ Hh) as [Hst _]. pose proof (proj2 H) as HP.
  eapply table_take; [done..|]. intros t1 H1.
  apply wp_bind. eapply wp_rep_wr_off; [done|set_solver|done|done|]. intros t2 H2.
  assert (Hr2 : alter (set_p_state RUNNABLE) p P !! p = Some (set_p_state RUNNABLE r))
    by (by rewrite list_lookup_alter_eq, Hr).
  apply wp_bind. eapply wp_rep_rd; [done|done|done|].
  eapply table_put; [done| |done|by apply home_runnable|done|by auto].
  apply prio_ok_alter; [done|]. by intros ? [= <-]%(eq_trans (eq_sym Hr)).
Qed.

(** ** [wakeup1] wakes the first sleeper on the channel, and no other *)

Definition sleeping_on (ch : chan) (r : proc) : bool :=
  bool_decide (p_state r = SLEEPING) && bool_decide (p_chan r = ch).
Definition first_sleeper (P : list proc) (L : lists) (ch : chan) : option nat :=
  List.find (matches P (sleeping_on ch)) (L (LState SLEEPING)).

(** The table after [wakeup1]. *)
Definition woken (P : list proc) (L : lists) (o : option nat) : list proc * lists :=
  match o with
  | None => (P, L)
  | Some p =>
      (alter (set_p_state RUNNABLE) p P,
       lmove L p (LState SLEEPING) (ready_lid (from_option p_priority 0 (P !! p))))
  end.

Lemma wakeup1_spec t P L off ch :
  table t P L off ->
  let o := first_sleeper P L ch in
  wp (wakeup1 ch) (fun _ t' => table t' (woken P L o).1 (woken P L o).2 off) t.
Proof.
  intros H o. pose proof H as [Hrep HP].
  pose proof (rep_list _ _ _ _ _ Hrep (LState SLEEPING) I) as (Hptr & Hseg & Hlt).
  unfold wakeup1. apply wp_bind. eapply wp_rd_ptrs; [done|]. cbn [q_head].
  rewrite <-hd_or_head. apply wp_bind.
  eapply (wp_while_list _ (fun todo _ t' =>
     (t' = t /\ exists dn, L (LState SLEEPING) = dn ++ todo /\
        o = List.find (matches P (sleeping_on ch)) todo) \/
     (todo = [] /\ table t' (woken P L o).1 (woken P L o).2 off))).
  - intros q todo [] t' [(-> & dn & Hdn & Ho)|[[=] _]].
    assert (Hq : q ∈ L (LState SLEEPING)) by (rewrite Hdn, elem_of_app, elem_of_cons; tauto).
    destruct (table_elem _ _ _ H Hq) as (r & Hr & Hh & Hpr & Hoff & Hql).
    apply wp_bind. eapply table_rd; [done..|]. apply wp_bind. eapply table_rd; [done..|].
    cbn in Ho. unfold matches in Ho at 1. rewrite Hr in Ho. cbn in Ho.
    unfold sleeping_on in Ho at 1. apply wp_bind.
    destruct (_ && _); cbn in Ho.
    + eapply wp_mono; [by apply make_runnable_spec|]. intros [] t' [Ht' Hn].
      apply wp_ret. exists []. split; [right; split; [done|]|split; [cbn; lia|split; [|done]]].
      * rewrite Ho. cbn. by rewrite Hr.
      * by rewrite (rep_procs_len _ _ _ _ _ (proj1 Ht')).
    + apply wp_ret, wp_ret. exists todo. split; [left; split; [done|]|split; [done|split]].
      * exists (dn ++ [q]). by rewrite <-app_assoc.
      * rewrite Forall_forall in Hlt. by apply Hlt.
      * rewrite Hdn in Hseg. apply seg_app in Hseg as [_ [Hs _]]. done.
  - intros [] t' [(-> & dn & Hdn & Ho)|[_ Ht']]; apply wp_ret; [|done].
    rewrite Ho. done.
  - left. split; [done|]. by exists [].
  - by eapply rep_len_le.
Qed.

(** * Searches *)

Lemma state_lids_eq :
  state_lids = [LState EMBRYO; LState SLEEPING; LState RUNNING; LState ZOMBIE].
Proof. reflexivity. Qed.
Lemma state_lids_valid : Forall valid_lid state_lids.
Proof. rewrite state_lids_eq. by repeat constructor. Qed.
Lemma ready_lids_valid : Forall valid_lid ready_lids.
Proof. unfold ready_lids, MAXPRIO. cbn. repeat constructor; cbn; lia. Qed.

Definition has_pid (pid : Z) (r : proc) : bool := p_pid r =? u32 pid.

Lemma elem_of_concat {A} (x : A) ls : x ∈ concat ls <-> exists xs, x ∈ xs /\ xs ∈ ls.
Proof.
  rewrite list_elem_of_In, in_concat. split; intros (xs & H1 & H2); exists xs;
    rewrite ?list_elem_of_In in *; tauto.
Qed.

(** The slots on the lists that [kill] searches first, and on the ready lists, in
    the order of the search. *)
Definition on_states (L : lists) : list nat := concat (L <$> state_lids).
Definition on_ready (L : lists) : list nat := concat (L <$> ready_lids).

Lemma find_elem (f : nat -> bool) xs p : List.find f xs = Some p -> p ∈ xs /\ f p = true.
Proof. intros [H1 H2]%List.find_some. split; [by apply list_elem_of_In|done]. Qed.

Lemma elem_on_states L p : p ∈ on_states L ->
  exists st, p ∈ L (LState st) /\ st <> RUNNABLE /\ st <> UNUSED.
Proof.
  unfold on_states. rewrite state_lids_eq. cbn. rewrite !elem_of_app.
  intros [?|[?|[?|[?|?%not_elem_of_nil]]]]; eauto; done.
Qed.
Lemma elem_on_ready L p : p ∈ on_ready L -> exists i, (i <= MAXPRIO)%nat /\ p ∈ L (LReady i).
Proof.
  unfold on_ready, ready_lids. rewrite list_elem_of_In, in_concat.
  intros (xs & Hxs & Hp). apply list_elem_of_In, list_elem_of_fmap in Hxs as (l & -> & Hl).
  apply list_elem_of_fmap in Hl as (i & -> & Hi).
  rewrite elem_of_reverse, elem_of_seq in Hi. exists i.
  split; [lia|by apply list_elem_of_In].
Qed.

Lemma matches_Some P test p : matches P test p = true -> exists r, P !! p = Some r /\ test r = true.
Proof. unfold matches. destruct (P !! p); cbn; [eauto|done]. Qed.

(** ** [kill] *)

(** The table after [kill] found the process [p]. *)
Definition killed_at (P : list proc) (L : lists) (p : nat) : list proc * lists :=
  let P' := alter (set_p_killed 1) p P in
  if bool_decide (p_state <$> P !! p = Some SLEEPING) then woken P' L (Some p) else (P', L).

Definition kill_target (P : list proc) (L : lists) (pid : Z) : option nat :=
  List.find (matches P (has_pid pid)) (on_states L ++ on_ready L).

Lemma find_app {A} (f : A -> bool) xs ys :
  List.find f (xs ++ ys) = match List.find f xs with Some x => Some x | None => List.find f ys end.
Proof. induction xs as [|x xs IH]; cbn; [done|]. by destruct (f x). Qed.

Lemma table_lt t P L off p r : table t P L off -> P !! p = Some r -> (p < NPROC)%nat.
Proof. intros [H _] Hr%lookup_lt_Some. by rewrite (rep_len _ _ _ _ _ H) in Hr. Qed.

(** Setting [killed] keeps the table. *)
Lemma table_wr_on f t P L off p (Q : unit -> ptable -> Prop) :
  table t P L off -> (p < NPROC)%nat ->
  (forall r, set_p_next None (f r) = f (set_p_next None r)) ->
  (forall r, p_next (f r) = p_next r) ->
  (forall r, P !! p = Some r -> home (f r) = home r /\ (prio_ok r -> prio_ok (f r))) ->
  (forall t', table t' (alter f p P) L off -> nxt t' p = nxt t p -> Q tt t') -> wp (wr f p) Q t.
Proof.
  intros [H HP] Hlt Hf Hn Hh HQ. eapply wp_rep_wr_on; [done..|by apply Hh|].
  intros t' Ht' Hn'. apply HQ; [|done]. split; [done|]. apply prio_ok_alter; [done|].
  intros r Hr. apply Hh; [done|]. rewrite Forall_lookup in HP. eauto.
Qed.

Lemma lookup_alter_Some (f : proc -> proc) p (P : list proc) r :
  P !! p = Some r -> alter f p P !! p = Some (f r).
Proof. intros Hr. by rewrite list_lookup_alter_eq, Hr. Qed.

Lemma kill_body_spec t P L off pid :
  table t P L off ->
  wp (kill_body pid) (fun v t' =>
    match kill_target P L pid with
    | None => v = -1 /\ table t' P L off
    | Some p => v = 0 /\ table t' (killed_at P L p).1 (killed_at P L p).2 off
    end) t.
Proof.
  intros H. unfold kill_body, kill_target. rewrite find_app.
  apply wp_bind. eapply wp_for_lists_search with (test := has_pid pid);
    [exact (proj1 H)|apply state_lids_valid| |].
  { intros p r Hr Ht. apply wp_bind. eapply table_rd; [done..|].
    unfold has_pid in Ht. by rewrite Ht. }
  fold (on_states L). destruct (List.find _ (on_states L)) as [p|] eqn:Ef.
  - apply find_elem in Ef as [Hp Hm]. destruct (matches_Some _ _ _ Hm) as (r & Hr & Ht).
    apply elem_on_states in Hp as (st & Hp & Hne & _).
    destruct (table_elem _ _ _ H Hp) as (r' & Hr' & Hh & Hpr & Hoff & Hlt). simplify_eq.
    destruct (home_state _ _ Hh) as [Hst _].
    apply wp_bind. eapply table_rd; [done..|]. unfold has_pid in Ht. rewrite Ht.
    apply wp_bind. eapply table_wr_on; [done..| |].
    { intros r2 Hr2. split; [done|]. done. }
    intros t1 H1 _. pose proof (lookup_alter_Some (set_p_killed 1) _ _ _ Hr) as Hr1.
    apply wp_bind. eapply table_rd; [done..|]. cbn. rewrite Hst. apply wp_bind.
    unfold killed_at. rewrite Hr. cbn. rewrite Hst.
    destruct (bool_decide (st = SLEEPING)) eqn:Es.
    + apply bool_decide_eq_true in Es as ->. rewrite bool_decide_eq_true_2 by done.
      eapply wp_mono; [by eapply make_runnable_spec|]. intros [] t2 [H2 _].
      apply wp_ret. split; [|by eauto]. apply wp_ret. split; [done|]. cbn. by rewrite Hr1.
    + apply bool_decide_eq_false in Es. rewrite bool_decide_eq_false_2 by congruence.
      apply wp_ret, wp_ret. split; [|by eauto]. by apply wp_ret.
  - apply wp_bind. eapply wp_for_lists_search with (test := has_pid pid);
      [exact (proj1 H)|apply ready_lids_valid| |].
    { intros p r Hr Ht. apply wp_bind. eapply table_rd; [done..|].
      unfold has_pid in Ht. by rewrite Ht. }
    fold (on_ready L). destruct (List.find _ (on_ready L)) as [p|] eqn:Ef2.
    + apply find_elem in Ef2 as [Hp Hm]. destruct (matches_Some _ _ _ Hm) as (r & Hr & Ht).
      apply elem_on_ready in Hp as (i & Hi & Hp).
      destruct (table_elem _ _ _ H Hp) as (r' & Hr' & Hh & Hpr & Hoff & Hlt). simplify_eq.
      destruct (home_ready _ _ Hh) as [Hst _].
      apply wp_bind. eapply table_rd; [done..|]. unfold has_pid in Ht. rewrite Ht.
      apply wp_bind. eapply table_wr_on; [done..|by intros|].
      intros t1 H1 _. apply wp_ret. split; [|by eauto]. apply wp_ret. split; [done|].
      unfold killed_at. rewrite Hr. cbn. rewrite bool_decide_eq_false_2 by congruence. done.
    + by apply wp_ret.
Qed.

(** * Leaving the processor: [yield], [sleep] *)

Lemma charge_next now r : set_p_next None (charge now r) = charge now (set_p_next None r).
Proof. unfold charge. cbn. destruct (_ <=? 0); [|done]. by destruct (0 <? p_priority r). Qed.
Lemma charge_state now r : p_state (charge now r) = p_state r.
Proof. unfold charge. destruct (_ <=? 0); [|done]. by destruct (0 <? p_priority r). Qed.
Lemma charge_prio now r : prio_ok r -> prio_ok (charge now r).
Proof.
  unfold prio_ok, charge. intros H. destruct (_ <=? 0); [|done].
  destruct (Z.ltb_spec 0 (p_priority r)); cbn; lia.
Qed.

(** A slot in transit: assign, charge the budget. *)
Lemma wp_charge now t P L off p (Q : unit -> ptable -> Prop) :
  rep home t P L off -> p ∈ off -> (p < NPROC)%nat ->
  (forall t', rep home t' (alter (charge now) p P) L off -> Q tt t') ->
  wp (charge_budget now p) Q t.
Proof.
  intros H Hp Hlt HQ. unfold charge_budget. rewrite bool_decide_eq_true_2 by done.
  eapply wp_rep_wr_off; eauto using charge_next.
Qed.

Definition yielded (now : Z) (P : list proc) (L : lists) (p : nat) : list proc * lists :=
  let P' := alter (charge now) p (alter (set_p_state RUNNABLE) p P) in
  (P', lmove L p (LState RUNNING) (ready_lid (from_option p_priority 0 (P' !! p)))).

Lemma yield_body_spec now t P L off p :
  table t P L off -> p ∈ L (LState RUNNING) ->
  wp (yield_body now p)
     (fun _ t' => table t' (yielded now P L p).1 (yielded now P L p).2 off) t.
Proof.
  intros H Hp. destruct (table_elem _ _ _ H Hp) as (r & Hr & Hh & Hpr & Hoff & Hlt).
  destruct (home_state _ _ Hh) as [Hst _].
  eapply table_take; [done..|]. intros t1 H1.
  apply wp_bind. eapply wp_rep_wr_off; [done|set_solver|done|done|]. intros t2 H2.
  apply wp_bind. eapply wp_charge; [done|set_solver|done|]. intros t3 H3.
  pose proof (lookup_alter_Some (charge now) _ _ _
    (lookup_alter_Some (set_p_state RUNNABLE) _ _ _ Hr)) as Hr3.
  apply wp_bind. eapply wp_rep_rd; [done|done|done|]. unfold yielded. rewrite Hr3. cbn.
  eapply table_put; [done| |done|apply home_runnable; by rewrite charge_state|done|by auto].
  apply prio_ok_alter; [apply prio_ok_alter; [exact (proj2 H)|]|].
  - by intros ? [= <-]%(eq_trans (eq_sym Hr)).
  - rewrite list_lookup_alter_eq, Hr. intros ? [= <-]. by apply charge_prio.
Qed.

Definition slept (now : Z) (ch : chan) (P : list proc) (L : lists) (p : nat) : list proc * lists :=
  (alter (set_p_state SLEEPING) p (alter (charge now) p (alter (set_p_chan ch) p P)),
   lmove L p (LState RUNNING) (LState SLEEPING)).

Lemma sleep_body_spec now ch t P L off p :
  table t P L off -> p ∈ L (LState RUNNING) ->
  wp (sleep_body now ch p)
     (fun _ t' => table t' (slept now ch P L p).1 (slept now ch P L p).2 off) t.
Proof.
  intros H Hp. destruct (table_elem _ _ _ H Hp) as (r & Hr & Hh & Hpr & Hoff & Hlt).
  destruct (home_state _ _ Hh) as [Hst _].
  apply wp_bind. eapply table_wr_on; [done..|by intros|]. intros t1 H1 _.
  pose proof (lookup_alter_Some (set_p_chan ch) _ _ _ Hr) as Hr1.
  eapply table_take; [done..|]. intros t2 H2.
  apply wp_bind. eapply wp_charge; [done|set_solver|done|]. intros t3 H3.
  apply wp_bind. eapply wp_rep_wr_off; [done|set_solver|done|done|]. intros t4 H4.
  pose proof (lookup_alter_Some (set_p_state SLEEPING) _ _ _
    (lookup_alter_Some (charge now) _ _ _ Hr1)) as Hr4.
  eapply table_put; [done| |done|by apply home_other|done|by auto].
  apply prio_ok_alter; [apply prio_ok_alter; [exact (proj2 H1)|]|].
  - rewrite Hr1. intros ? [= <-]. by apply charge_prio.
  - rewrite list_lookup_alter_eq, Hr1. intros ? [= <-]. by apply charge_prio.
Qed.

(** * The scheduler *)

(** The highest non-empty ready list and its first process. *)
Fixpoint best_ready (L : lists) (idx : list nat) : option (nat * nat) :=
  match idx with
  | [] => None
  | i :: idx => match L (LReady i) with p :: _ => Some (i, p) | [] => best_ready L idx end
  end.

Lemma pick_from_spec t P L off idx :
  table t P L off -> Forall (fun i => (i <= MAXPRIO)%nat) idx ->
  wp (pick_from idx) (fun r t' => r = best_ready L idx /\ t' = t) t.
Proof.
  intros H. induction 1 as [|i idx Hi Hidx IH]; [done|].
  destruct (rep_list _ _ _ _ _ (proj1 H) (LReady i) Hi) as (Hptr & _ & _). cbn [pick_from].
  apply wp_bind. eapply wp_rd_ptrs; [done|]. cbn.
  destruct (L (LReady i)); [exact IH|done].
Qed.

Lemma best_ready_Some L idx i p :
  best_ready L idx = Some (i, p) <->
  exists a b xs, idx = a ++ i :: b /\ (forall j, j ∈ a -> L (LReady j) = []) /\
                 L (LReady i) = p :: xs.
Proof.
  induction idx as [|j idx IH]; cbn.
  - split; [done|]. intros (a & b & xs & Ha & _). by destruct a.
  - destruct (L (LReady j)) as [|q ys] eqn:Ej.
    + rewrite IH. split; intros (a & b & xs & Ha & Hno & Hx).
      * exists (j :: a), b, xs. subst idx. split_and!; [done| |done].
        intros k [->|Hk]%elem_of_cons; auto.
      * destruct a as [|j' a]; cbn in Ha; simplify_eq; [congruence|].
        exists a, b, xs. split_and!; [done| |done]. intros k Hk. apply Hno. set_solver.
    + split.
      * intros [= -> ->]. exists [], idx, ys. split_and!; [done| |done].
        by intros k Hk%not_elem_of_nil.
      * intros (a & b & xs & Ha & Hno & Hx). destruct a as [|j' a]; cbn in Ha; simplify_eq.
        -- by rewrite Ej in Hx; simplify_eq.
        -- rewrite (Hno j') in Ej by set_solver. done.
Qed.

Definition dispatched (now : Z) (P : list proc) (L : lists) (i p : nat) : list proc * lists :=
  (alter (set_p_cpu_ticks_in now) p (alter (set_p_state RUNNING) p P),
   lmove L p (LReady i) (LState RUNNING)).

Lemma dispatch_spec now t P L off i p :
  table t P L off -> p ∈ L (LReady i) ->
  wp (dispatch now i p)
     (fun _ t' => table t' (dispatched now P L i p).1 (dispatched now P L i p).2 off) t.
Proof.
  intros H Hp. destruct (table_elem _ _ _ H Hp) as (r & Hr & Hh & Hpr & Hoff & Hlt).
  destruct (home_ready _ _ Hh) as [Hst Hl]. unfold dispatch.
  apply wp_bind. eapply table_rd; [done..|]. rewrite Hl.
  apply wp_bind. eapply wp_mono; [by apply rep_remove, Hp; apply H|].
  intros v t1 [-> H1]. apply wp_bind, wp_panic_if; [done|]. apply wp_bind, wp_panic_if; [done|].
  apply wp_bind. eapply rep_assertState; [done..|].
  apply wp_bind. eapply wp_rep_wr_off; [done|set_solver|done|done|]. intros t2 H2.
  pose proof (lookup_alter_Some (set_p_state RUNNING) _ _ _ Hr) as Hr2.
  apply wp_bind. eapply table_put; [done| |done|by apply home_other|done|].
  { apply prio_ok_alter; [exact (proj2 H)|]. by intros ? [= <-]%(eq_trans (eq_sym Hr)). }
  intros t3 H3 _. eapply table_wr_on; [done..|by intros|]. by intros t4 H4 _.
Qed.

(** ** Promotion *)

(** One level up, or nothing at the top. *)
Definition promote1 (r : proc) : proc :=
  if p_priority r <? Z.of_nat MAXPRIO then promote r else r.
Definition promote_slots (ps : list nat) (P : list proc) : list proc :=
  foldl (fun P p => alter promote1 p P) P ps.

Lemma promote1_prio r : prio_ok r -> prio_ok (promote1 r).
Proof.
  unfold prio_ok, promote1. intros H. destruct (Z.ltb_spec (p_priority r) (Z.of_nat MAXPRIO)); [|done].
  cbn. rewrite s32_small; [lia|]. unfold MAXPRIO in *. lia.
Qed.
Lemma promote1_state r : p_state (promote1 r) = p_state r.
Proof. unfold promote1. by destruct (_ <? _). Qed.
Lemma promote_slots_snoc xs p P : promote_slots (xs ++ [p]) P = alter promote1 p (promote_slots xs P).
Proof. unfold promote_slots. by rewrite foldl_snoc. Qed.
Lemma promote_slots_ne xs p P : p ∉ xs -> promote_slots xs P !! p = P !! p.
Proof.
  induction xs as [|x xs IH] using rev_ind; intros Hp; [done|].
  rewrite promote_slots_snoc, list_lookup_alter_ne by set_solver. apply IH. set_solver.
Qed.

Lemma alter_id_on (f : proc -> proc) p (P : list proc) r :
  P !! p = Some r -> f r = r -> alter f p P = P.
Proof.
  intros Hr Hf. apply list_eq. intros i. destruct (decide (i = p)) as [->|].
  - by rewrite list_lookup_alter_eq, Hr; cbn; rewrite Hf.
  - by rewrite list_lookup_alter_ne.
Qed.

(** A loop over list [l] whose rounds keep the table and list [l] itself. *)
Lemma wp_visit (I : list nat -> list proc -> lists -> Prop) l (body : unit -> nat -> M ptable (ctl unit unit))
    {A} (k : ctl unit unit -> M ptable A) t P L off (Q : A -> ptable -> Prop) :
  valid_lid l -> table t P L off -> I [] P L ->
  (forall dn q todo t P' L', table t P' L' off -> L l = dn ++ q :: todo -> L' l = L l ->
     I dn P' L' ->
     wp (body tt q) (fun o t' => o = Continue tt /\ exists P2 L2,
       table t' P2 L2 off /\ L2 l = L l /\ I (dn ++ [q]) P2 L2) t) ->
  (forall t' P' L', table t' P' L' off -> L' l = L l -> I (L l) P' L' ->
     wp (k (Continue tt)) Q t') ->
  wp (hd ← rd_ptrs q_head l; r ← while_list NPROC body tt hd; k r) Q t.
Proof.
  intros Hl H HI Hb HQ. destruct (rep_list _ _ _ _ _ (proj1 H) l Hl) as (Hptr & _ & _).
  apply wp_bind. eapply wp_rd_ptrs; [done|]. cbn [q_head]. rewrite <-hd_or_head. apply wp_bind.
  eapply (wp_while_list _ (fun todo _ t' => exists dn P' L', L l = dn ++ todo /\
     table t' P' L' off /\ L' l = L l /\ I dn P' L')).
  - intros q todo [] t' (dn & P' & L' & Hdn & Ht' & HL' & HI').
    eapply wp_mono; [by eapply Hb|]. intros o t2 (-> & P2 & L2 & H2 & HL2 & HI2).
    exists todo. destruct (rep_list _ _ _ _ _ (proj1 H2) l Hl) as (_ & Hs & Hlt).
    rewrite HL2, Hdn in Hs, Hlt. apply seg_app in Hs as [_ [Hs _]].
    apply Forall_app in Hlt as [_ [Hlt _]%Forall_cons]. split_and!; [|done..].
    exists (dn ++ [q]), P2, L2. by rewrite <-app_assoc.
  - intros [] t' (dn & P' & L' & Hdn & Ht' & HL' & HI'). rewrite app_nil_r in Hdn. subst dn. eauto.
  - exists [], P, L. done.
  - by eapply rep_len_le, H.
Qed.

Lemma alter_agree (f g : proc -> proc) p (P : list proc) r :
  P !! p = Some r -> f r = g r -> alter f p P = alter g p P.
Proof.
  intros Hr Hfg. apply list_eq. intros i. destruct (decide (i = p)) as [->|].
  - rewrite !list_lookup_alter_eq, Hr. cbn. by rewrite Hfg.
  - by rewrite !list_lookup_alter_ne.
Qed.

Lemma promote_in_place_spec t P L off st :
  table t P L off -> st <> RUNNABLE ->
  wp (promote_in_place (LState st))
     (fun _ t' => table t' (promote_slots (L (LState st)) P) L off) t.
Proof.
  intros H Hne. unfold promote_in_place.
  eapply (wp_visit (fun dn P' L' => P' = promote_slots dn P /\ L' = L)); [done|done|done| |].
  - intros dn q todo t' P' L' Ht' Hdn _ [-> ->].
    assert (Hq : q ∈ L (LState st)) by (rewrite Hdn, elem_of_app, elem_of_cons; tauto).
    destruct (table_elem _ _ _ Ht' Hq) as (r & Hr & Hh & Hpr & Hoff & Hql).
    destruct (home_state _ _ Hh) as [Hst _]. rewrite promote_slots_snoc.
    apply wp_bind. eapply table_rd; [done..|]. apply wp_bind.
    destruct (p_priority r <? Z.of_nat MAXPRIO) eqn:Ep.
    + eapply table_wr_on; [done..| |].
      { intros r' Hr'. simplify_eq. split.
        - rewrite !(home_other _ (p_state r)) by done. done.
        - intros Hk. apply promote1_prio in Hk. unfold promote1 in Hk. by rewrite Ep in Hk. }
      intros t2 H2 _. apply wp_ret. split; [done|]. eexists _, _. split; [exact H2|].
      split_and!; [done| |done]. eapply alter_agree; [done|]. unfold promote1. by rewrite Ep.
    + apply wp_ret, wp_ret. split; [done|]. eexists _, _. split; [exact Ht'|].
      split_and!; [done| |done]. symmetry. eapply alter_id_on; [done|].
      unfold promote1. by rewrite Ep.
  - intros t' P' L' Ht' _ [-> ->]. by apply wp_ret.
Qed.

Lemma promote_slots_in xs p P : NoDup xs -> p ∈ xs -> promote_slots xs P !! p = promote1 <$> P !! p.
Proof.
  induction xs as [|x xs IH] using rev_ind; intros Hnd Hp; [by apply not_elem_of_nil in Hp|].
  apply NoDup_app in Hnd as (Hnd & Hx & _). rewrite promote_slots_snoc.
  destruct (decide (p = x)) as [->|Hne].
  - rewrite list_lookup_alter_eq, promote_slots_ne; [done|]. set_solver.
  - rewrite list_lookup_alter_ne by done. apply IH; [done|set_solver].
Qed.
Lemma promote_slots_length xs P : length (promote_slots xs P) = length P.
Proof.
  induction xs as [|x xs IH] using rev_ind; [done|].
  by rewrite promote_slots_snoc, length_alter.
Qed.
Lemma promote_slots_app xs ys P : promote_slots (xs ++ ys) P = promote_slots ys (promote_slots xs P).
Proof. apply foldl_app. Qed.

(** The lists while ready list [i] is being promoted: [dn] have moved up. *)
Definition raise (L : lists) (i : nat) (dn todo : list nat) : lists :=
  lset (lset L (LReady i) todo) (LReady (S i)) (L (LReady (S i)) ++ dn).

Lemma raise_step L i dn q todo : NoDup (q :: todo) -> forall l,
  raise L i (dn ++ [q]) todo l =
  lmove (raise L i dn (q :: todo)) q (LReady i) (LReady (S i)) l.
Proof.
  intros [Hq _]%NoDup_cons l. unfold raise.
  assert (Hne : LReady i <> LReady (S i)) by (intros [= E]; lia).
  destruct (decide (l = LReady (S i))) as [->|H1].
  - rewrite lmove_to, !lset_eq by done. by rewrite app_assoc.
  - destruct (decide (l = LReady i)) as [->|H2].
    + rewrite lmove_from by done. rewrite !(lset_ne _ (LReady (S i))), !lset_eq by done.
      unfold lrem. rewrite filter_cons_False by tauto. symmetry. by apply lrem_absent.
    + rewrite lmove_other by done. by rewrite !lset_ne by done.
Qed.

Lemma ready_prio r i : prio_ok r -> home r = LReady i -> p_priority r = Z.of_nat i.
Proof.
  intros Hp [_ Hh]%home_ready. destruct (prio_lid r Hp) as [Hl _]. rewrite Hl in Hh.
  destruct Hp. simplify_eq. lia.
Qed.

(** Moving one process up a level. *)
Lemma promote_move t P L off i q :
  table t P L off -> q ∈ L (LReady i) -> (i < MAXPRIO)%nat ->
  wp (removeOrPanic (ready_lid (Z.of_nat i)) q "Process Not Found in Ready Lists!";;
      assertState q RUNNABLE;;
      wr promote q;;
      prio' ← rd p_priority q;
      stateListAdd (ready_lid prio') q)
     (fun _ t' => table t' (alter promote1 q P) (lmove L q (LReady i) (LReady (S i))) off) t.
Proof.
  intros H Hq Hi. destruct (table_elem _ _ _ H Hq) as (r & Hr & Hh & Hpr & Hoff & Hlt).
  pose proof (ready_prio _ _ Hpr Hh) as Hp. destruct (home_ready _ _ Hh) as [Hst _].
  assert (Hl : forall k, ready_lid (Z.of_nat k) = LReady k).
  { intros k. unfold ready_lid. destruct (Z.ltb_spec (Z.of_nat k) 0); [lia|]. by rewrite Nat2Z.id. }
  rewrite Hl. eapply table_take; [done..|]. intros t1 H1.
  apply wp_bind. eapply wp_rep_wr_off; [done|set_solver|done|done|]. intros t2 H2.
  pose proof (lookup_alter_Some promote _ _ _ Hr) as Hr2.
  assert (Hpp : p_priority (promote r) = Z.of_nat (S i)).
  { cbn. rewrite Hp, s32_small; [lia|]. unfold MAXPRIO in *. lia. }
  assert (Hal : alter promote1 q P = alter promote q P).
  { apply list_eq. intros k. destruct (decide (k = q)) as [->|].
    - rewrite !list_lookup_alter_eq, Hr. cbn. unfold promote1. rewrite Hp.
      by destruct (Z.ltb_spec (Z.of_nat i) (Z.of_nat MAXPRIO)); [|lia].
    - by rewrite !list_lookup_alter_ne. }
  apply wp_bind. eapply wp_rep_rd; [done|done|done|]. rewrite Hpp, Hl, Hal.
  eapply table_put; [done| |done| |done|by auto].
  - apply prio_ok_alter; [exact (proj2 H)|]. intros ? [= <-]%(eq_trans (eq_sym Hr)).
    unfold prio_ok. rewrite Hpp. lia.
  - rewrite home_runnable by done. by rewrite Hpp.
Qed.

Lemma table_ext t P L L' off : (forall l, L' l = L l) -> table t P L off -> table t P L' off.
Proof. intros HL [H HP]. split; [|done]. by eapply rep_ext. Qed.

Lemma promote_ready_from_spec L P off i dn todo fuel t :
  (i < MAXPRIO)%nat -> (length todo <= fuel)%nat -> NoDup todo ->
  table t (promote_slots dn P) (raise L i dn todo) off ->
  wp (promote_ready_from fuel (hd_or None todo))
     (fun _ t' => table t' (promote_slots (dn ++ todo) P) (raise L i (dn ++ todo) []) off) t.
Proof.
  intros Hi. revert dn fuel t. induction todo as [|q todo IH]; intros dn fuel t Hlen Hnd H.
  { rewrite app_nil_r. destruct fuel; by apply wp_ret. }
  destruct fuel as [|fuel]; [cbn in Hlen; lia|]. cbn [hd_or promote_ready_from].
  assert (Hne : LReady i <> LReady (S i)) by (intros [= E]; lia).
  assert (Hti : raise L i dn (q :: todo) (LReady i) = q :: todo)
    by (unfold raise; by rewrite lset_ne, lset_eq by done).
  assert (Hq : q ∈ raise L i dn (q :: todo) (LReady i)) by (rewrite Hti; set_solver).
  destruct (table_elem _ _ _ H Hq) as (r & Hr & Hh & Hpr & Hoff & Hlt).
  destruct (rep_list _ _ _ _ _ (proj1 H) (LReady i) ltac:(cbn; lia)) as (_ & Hs & _).
  rewrite Hti in Hs. destruct Hs as [Hs _].
  apply wp_bind, wp_rd_next; [by rewrite (rep_procs_len _ _ _ _ _ (proj1 H))|]. rewrite Hs.
  apply wp_bind. eapply table_rd; [done..|]. rewrite (ready_prio _ _ Hpr Hh).
  destruct (Z.ltb_spec (Z.of_nat i) (Z.of_nat MAXPRIO)); [|lia].
  apply wp_bind. eapply wp_mono; [by apply promote_move|]. intros [] t' Ht'.
  rewrite cons_middle, app_assoc. apply IH; [cbn in Hlen; lia|by apply NoDup_cons in Hnd as [_ ?]|].
  rewrite promote_slots_snoc. eapply table_ext; [|exact Ht']. by apply raise_step.
Qed.

(** Below the top level, the whole list moves up behind the next one. *)
Lemma promote_ready_spec t P L off i :
  table t P L off -> (i < MAXPRIO)%nat ->
  wp (promote_ready i)
     (fun _ t' => table t' (promote_slots (L (LReady i)) P) (raise L i (L (LReady i)) []) off) t.
Proof.
  intros H Hi. unfold promote_ready.
  destruct (rep_list _ _ _ _ _ (proj1 H) (LReady i) ltac:(cbn; lia)) as (Hptr & _ & _).
  apply wp_bind. eapply wp_rd_ptrs; [done|]. cbn [q_head]. rewrite <-hd_or_head.
  apply (promote_ready_from_spec L P off i []); [done|by eapply rep_len_le; apply H|
    by eapply rep_nodup; apply H|].
  eapply table_ext; [|exact H]. intros l. unfold raise, lset.
  repeat case_decide; subst; by rewrite ?app_nil_r.
Qed.

(** At the top level nothing changes. *)
Lemma promote_top_spec t P L off :
  table t P L off -> wp (promote_ready MAXPRIO) (fun _ t' => t' = t) t.
Proof.
  intros H. unfold promote_ready.
  destruct (rep_list _ _ _ _ _ (proj1 H) (LReady MAXPRIO) ltac:(cbn; lia)) as (Hptr & Hs & _).
  apply wp_bind. eapply wp_rd_ptrs; [done|]. cbn [q_head]. rewrite <-hd_or_head.
  pose proof (rep_len_le _ _ _ _ _ (LReady MAXPRIO) (proj1 H)) as Hlen.
  assert (Hall : forall p, p ∈ L (LReady MAXPRIO) -> exists r, P !! p = Some r /\
    p_priority r = Z.of_nat MAXPRIO /\ (p < NPROC)%nat).
  { intros p Hp. destruct (table_elem _ _ _ H Hp) as (r & Hr & Hh & Hpr & _ & Hlt).
    exists r. eauto using ready_prio. }
  revert Hs Hlen Hall. generalize (L (LReady MAXPRIO)). intros xs.
  enough (forall fuel, seg (nxt t) xs None -> (length xs <= fuel)%nat ->
    (forall p, p ∈ xs -> exists r, P !! p = Some r /\ p_priority r = Z.of_nat MAXPRIO /\
       (p < NPROC)%nat) -> wp (promote_ready_from fuel (hd_or None xs)) (fun _ t' => t' = t) t); eauto.
  intros fuel. revert xs. induction fuel as [|fuel IH]; intros [|q xs] Hs Hlen Hall;
    [done|cbn in Hlen; lia|done|].
  destruct Hs as [Hn Hs]. cbn [hd_or promote_ready_from].
  destruct (Hall q) as (r & Hr & Hp & Hlt); [set_solver|].
  apply wp_bind, wp_rd_next; [by rewrite (rep_procs_len _ _ _ _ _ (proj1 H))|]. rewrite Hn.
  apply wp_bind. eapply table_rd; [done..|]. rewrite Hp, Z.ltb_irrefl.
  apply wp_bind, wp_ret. apply IH; [done|cbn in Hlen; lia|]. intros p Hin. apply Hall. set_solver.
Qed.

(** Promotion as a whole: each ready list moves up one level, the two highest
    merging, and every sleeping, running or runnable process gains a level and
    a fresh budget. *)
Definition promoted_lists (L : lists) : lists := fun l =>
  match l with
  | LState _ => L l
  | LReady O => []
  | LReady (S i) =>
      if decide (S i = MAXPRIO) then L (LReady (S i)) ++ L (LReady i)
      else if decide (S i < MAXPRIO)%nat then L (LReady i) else L l
  end.
Definition promotable (r : proc) : bool :=
  bool_decide (p_state r ∈ [SLEEPING; RUNNING; RUNNABLE]).
Definition promoted_slots (off : gset nat) : list proc -> list proc :=
  imap (fun p r => if bool_decide (p ∉ off) && promotable r then promote1 r else r).

Definition promotion_lids : list lid :=
  [LState SLEEPING; LState RUNNING] ++ (LReady <$> reverse (seq 0 (S MAXPRIO))).
Definition promotion_order (L : lists) : list nat := concat (L <$> promotion_lids).

(** Lists of distinct lids hold distinct slots. *)
Lemma rep_concat_nodup t P L off ls :
  rep home t P L off -> NoDup ls -> NoDup (concat (L <$> ls)).
Proof.
  intros H. induction 1 as [|l ls Hl Hnd IH]; [constructor|]. cbn. apply NoDup_app.
  split_and!; [by eapply rep_nodup| |done].
  intros p Hp (xs & Hxs & Hin)%elem_of_concat. apply list_elem_of_fmap in Hin as (l' & -> & Hl').
  apply (rep_home _ _ _ _ _ H) in Hp as [_ (r & Hr & <-)].
  apply (rep_home _ _ _ _ _ H) in Hxs as [_ (r' & Hr' & Heq)]. simplify_eq. done.
Qed.
Lemma rep_concat_elem t P L off ls p r :
  rep home t P L off -> P !! p = Some r ->
  p ∈ concat (L <$> ls) <-> p ∉ off /\ home r ∈ ls.
Proof.
  intros H Hr. rewrite elem_of_concat. split.
  - intros (xs & Hxs & (l & -> & Hl)%list_elem_of_fmap).
    apply (rep_home _ _ _ _ _ H) in Hxs as [Hoff (r' & Hr' & <-)]. by simplify_eq.
  - intros [Hoff Hl]. exists (L (home r)). split; [|by apply list_elem_of_fmap; eauto].
    apply (rep_home _ _ _ _ _ H). eauto.
Qed.

Lemma promotion_lids_home r : prio_ok r -> home r ∈ promotion_lids <-> promotable r = true.
Proof.
  intros Hp. unfold promotable. rewrite bool_decide_eq_true. unfold home.
  destruct (decide (p_state r = RUNNABLE)) as [Hst|Hst].
  - rewrite Hst. split; [intros _; set_solver|intros _].
    destruct (prio_lid r Hp) as [-> Hle]. unfold promotion_lids. apply elem_of_app. right.
    apply list_elem_of_fmap. eexists. split; [done|]. apply elem_of_reverse, elem_of_seq.
    cbn in Hle. lia.
  - unfold promotion_lids. rewrite elem_of_app, list_elem_of_fmap. split.
    + intros [Hin|(i & [=] & _)]. destruct (p_state r); set_solver.
    + intros Hin. left. destruct (p_state r); set_solver.
Qed.

Lemma promote_slots_order t P L off :
  table t P L off -> promote_slots (promotion_order L) P = promoted_slots off P.
Proof.
  intros [H HP]. apply list_eq. intros p. unfold promoted_slots. rewrite list_lookup_imap.
  assert (Hnd : NoDup (promotion_order L)).
  { eapply rep_concat_nodup; [done|]. by apply (bool_decide_unpack _). }
  destruct (P !! p) as [r|] eqn:Hr; cycle 1.
  { apply lookup_ge_None_2. rewrite promote_slots_length. by apply lookup_ge_None_1. }
  rewrite Forall_lookup in HP. pose proof (promotion_lids_home r (HP _ _ Hr)) as Hh.
  pose proof (rep_concat_elem _ _ _ _ promotion_lids _ _ H Hr) as He.
  destruct (decide (p ∈ promotion_order L)) as [Hin|Hin].
  - rewrite promote_slots_in, Hr by done. apply He in Hin as [Hoff Hl%Hh].
    cbn. by rewrite bool_decide_eq_true_2, Hl by done.
  - rewrite promote_slots_ne, Hr by done. cbn.
    destruct (bool_decide_reflect (p ∉ off)) as [Hoff|], (promotable r); try done.
    destruct Hin. apply He. tauto.
Qed.

(** The processes of the top level keep their level, and their budget. *)
Lemma promote1_top r : p_priority r = Z.of_nat MAXPRIO -> promote1 r = r.
Proof. intros H. unfold promote1. by rewrite H, Z.ltb_irrefl. Qed.

Lemma promote_slots_top t P L off :
  table t P L off -> promote_slots (L (LReady MAXPRIO)) P = P.
Proof.
  intros H. assert (Hall : forall p r, p ∈ L (LReady MAXPRIO) -> P !! p = Some r -> promote1 r = r).
  { intros p r Hp Hr. destruct (table_elem _ _ _ H Hp) as (r' & Hr' & Hh & Hpr & _).
    simplify_eq. apply promote1_top. by apply ready_prio. }
  apply list_eq. intros p. destruct (decide (p ∈ L (LReady MAXPRIO))) as [Hin|Hin].
  - rewrite promote_slots_in by (try done; eapply rep_nodup; apply H).
    destruct (P !! p) eqn:Hr; [|done]. cbn. f_equal. eauto.
  - by apply promote_slots_ne.
Qed.

Lemma levels_down : reverse (seq 0 (S MAXPRIO)) = [6; 5; 4; 3; 2; 1; 0]%nat.
Proof. reflexivity. Qed.

(** One level of the descending loop, with the members of the list named. *)
Lemma promote_level t P L off i xs :
  table t P L off -> L (LReady i) = xs -> (i < MAXPRIO)%nat ->
  wp (promote_ready i) (fun _ t' => table t' (promote_slots xs P) (raise L i xs []) off) t.
Proof. intros H <- Hi. by apply promote_ready_spec. Qed.

(** promotion ([promote_all]) raises every ready list by one level, the
    two highest merging in order, and gives every sleeping, running and
    runnable process below the top level the next level and a full budget. *)
Theorem promote_all_spec t P L off :
  table t P L off ->
  wp promote_all (fun _ t' => table t' (promoted_slots off P) (promoted_lists L) off) t.
Proof.
  intros H. unfold promote_all. rewrite <-(promote_slots_order _ _ _ _ H).
  apply wp_bind. eapply wp_mono; [by apply promote_in_place_spec|]. intros [] t1 H1.
  apply wp_bind. eapply wp_mono; [by apply promote_in_place_spec|]. intros [] t2 H2.
  replace (promotion_order L) with (L (LState SLEEPING) ++ L (LState RUNNING) ++
    L (LReady 6) ++ L (LReady 5) ++ L (LReady 4) ++ L (LReady 3) ++ L (LReady 2) ++
    L (LReady 1) ++ L (LReady 0)) 
    by (unfold promotion_order, promotion_lids; rewrite levels_down; cbn; by rewrite app_nil_r).
  rewrite levels_down, !promote_slots_app. change (LReady 6) with (LReady MAXPRIO).
  rewrite (promote_slots_top _ _ _ _ H2).
  apply wp_bind. eapply wp_mono; [by apply (promote_top_spec _ _ _ _ H2)|]. intros [] ? ->.
  do 6 (apply wp_bind; eapply wp_mono;
    [eapply promote_level; [eassumption|reflexivity|unfold MAXPRIO; lia]|];
    clear H2; intros [] t3 H2; clear dependent t2; rename t3 into t2).
  apply wp_ret. eapply table_ext; [|exact H2].
  intros [|i]; [reflexivity|].
  do 8 (destruct i as [|i]; [cbn; by rewrite ?app_nil_r|]).
  unfold promoted_lists. by rewrite !decide_False by (unfold MAXPRIO; lia).
Qed.

(** * [setpriority] and [getpriority] *)

Definition inplace_lids : list lid := [LState SLEEPING; LState RUNNING].
Definition prio_target (P : list proc) (L : lists) (pid : Z) : option nat :=
  List.find (matches P (has_pid pid)) (on_ready L ++ concat (L <$> inplace_lids)).

(** A new priority comes with a full budget, and a runnable process moves to the
    tail of its new list; setting the same priority again changes nothing. *)
Definition with_prio (priority : Z) (r : proc) : proc :=
  set_p_budget BUDGET (set_p_priority priority r).
Definition reprioritised (priority : Z) (P : list proc) (L : lists) (p : nat) : list proc * lists :=
  match P !! p with
  | None => (P, L)
  | Some r =>
      if p_priority r =? priority then (P, L) else
      (alter (with_prio priority) p P,
       if bool_decide (p_state r = RUNNABLE)
       then lmove L p (ready_lid (p_priority r)) (ready_lid priority) else L)
  end.

Lemma inplace_lids_valid : Forall valid_lid inplace_lids.
Proof. by repeat constructor. Qed.
Lemma alter_twice (f g : proc -> proc) p (P : list proc) :
  alter g p (alter f p P) = alter (fun r => g (f r)) p P.
Proof.
  apply list_eq. intros k. destruct (decide (k = p)) as [->|].
  - rewrite !list_lookup_alter_eq. by destruct (P !! p).
  - by rewrite !list_lookup_alter_ne.
Qed.

(** The pid test of the search loops, on a slot that fails it. *)
Lemma pid_differs {A} t P L off pid p r (k : M ptable (ctl A unit)) :
  table t P L off -> P !! p = Some r -> has_pid pid r = false ->
  wp (q ← rd p_pid p; if q =? u32 pid then k else mret (Continue tt))
     (fun o t' => o = Continue tt /\ t' = t) t.
Proof.
  intros H Hr Ht. apply wp_bind. eapply table_rd; [done..|].
  unfold has_pid in Ht. by rewrite Ht.
Qed.
(** ... and on the slot that the search found. *)
Lemma pid_found {A} t P L off pid p r (k : M ptable (ctl A unit)) Q :
  table t P L off -> P !! p = Some r -> has_pid pid r = true -> wp k Q t ->
  wp (q ← rd p_pid p; if q =? u32 pid then k else mret (Continue tt)) Q t.
Proof.
  intros H Hr Ht Hk. apply wp_bind. eapply table_rd; [done..|].
  unfold has_pid in Ht. by rewrite Ht.
Qed.

Lemma setpriority_runnable t P L off i p r priority :
  table t P L off -> p ∈ L (LReady i) -> P !! p = Some r ->
  0 <= priority <= Z.of_nat MAXPRIO ->
  wp (prio ← rd p_priority p;
      if prio =? priority then mret (Return (B := unit) 0) else
      removeOrPanic (ready_lid prio) p "Not on Ready Lists!";;
      wr (set_p_priority priority) p;;
      wr (set_p_budget BUDGET) p;;
      prio' ← rd p_priority p;
      stateListAdd (ready_lid prio') p;;
      mret (Return 0))
     (fun o t' => o = Return 0 /\
        table t' (reprioritised priority P L p).1 (reprioritised priority P L p).2 off) t.
Proof.
  intros H Hp Hr Hprio. destruct (table_elem _ _ _ H Hp) as (r' & Hr' & Hh & Hpr & Hoff & Hlt).
  simplify_eq. destruct (home_ready _ _ Hh) as [Hst Hl]. unfold reprioritised. rewrite Hr, Hst.
  apply wp_bind. eapply table_rd; [done..|].
  destruct (p_priority r =? priority); [by apply wp_ret|].
  rewrite Hl. apply wp_bind. eapply wp_mono; [apply rep_removeOrPanic; [exact (proj1 H)|done]|].
  intros [] t1 H1. apply wp_bind. eapply wp_rep_wr_off; [done|set_solver|done|done|]. intros t2 H2.
  apply wp_bind. eapply wp_rep_wr_off; [done|set_solver|done|done|]. intros t3 H3.
  rewrite alter_twice in H3. pose proof (lookup_alter_Some (with_prio priority) _ _ _ Hr) as Hr3.
  apply wp_bind. eapply wp_rep_rd; [done|done|done|]. apply wp_bind. cbn [with_prio p_priority].
  eapply table_put; [done| |done|by apply home_runnable|done|].
  - apply prio_ok_alter; [exact (proj2 H)|done].
  - intros t4 H4 _. by apply wp_ret.
Qed.

Lemma setpriority_in_place t P L off st p r priority :
  table t P L off -> p ∈ L (LState st) -> P !! p = Some r ->
  0 <= priority <= Z.of_nat MAXPRIO ->
  wp (prio ← rd p_priority p;
      if prio =? priority then mret (Return (B := unit) 0) else
      wr (set_p_priority priority) p;;
      wr (set_p_budget BUDGET) p;;
      mret (Return 0))
     (fun o t' => o = Return 0 /\
        table t' (reprioritised priority P L p).1 (reprioritised priority P L p).2 off) t.
Proof.
  intros H Hp Hr Hprio. destruct (table_elem _ _ _ H Hp) as (r' & Hr' & Hh & Hpr & Hoff & Hlt).
  simplify_eq. destruct (home_state _ _ Hh) as [Hst Hne]. unfold reprioritised. rewrite Hr, Hst.
  rewrite bool_decide_eq_false_2 by done.
  apply wp_bind. eapply table_rd; [done..|].
  destruct (p_priority r =? priority); [by apply wp_ret|].
  assert (Hhome : forall r2, p_state r2 = st -> home r2 = LState st)
    by (intros r2 <-; by apply home_other).
  apply wp_bind. eapply table_wr_on; [done..| |].
  { intros r2 Hr2. simplify_eq. by rewrite !Hhome. }
  intros t1 H1 _. pose proof (lookup_alter_Some (set_p_priority priority) _ _ _ Hr) as Hr1.
  apply wp_bind. eapply table_wr_on; [done..| |].
  { intros r2 Hr2. simplify_eq. by rewrite !Hhome. }
  intros t2 H2 _. rewrite alter_twice in H2. by apply wp_ret.
Qed.

(** [setpriority] on a valid priority finds the process with the given
    pid among the ready, sleeping and running processes and gives it the priority
    and a full budget, a runnable process moving to the tail of its new ready list;
    it returns -1 and changes nothing when no such process exists. *)
Theorem setpriority_body_spec t P L off pid priority :
  table t P L off -> 0 <= priority <= Z.of_nat MAXPRIO ->
  wp (setpriority_body pid priority) (fun v t' =>
    match prio_target P L pid with
    | None => v = -1 /\ table t' P L off
    | Some p => v = 0 /\ table t' (reprioritised priority P L p).1 (reprioritised priority P L p).2 off
    end) t.
Proof.
  intros H Hprio. unfold setpriority_body, prio_target. rewrite find_app.
  apply wp_bind. eapply wp_for_lists_search with (test := has_pid pid);
    [exact (proj1 H)|apply ready_lids_valid|intros; by eapply pid_differs|].
  fold (on_ready L). destruct (List.find _ (on_ready L)) as [p|] eqn:Ef.
  - apply find_elem in Ef as [Hp Hm]. destruct (matches_Some _ _ _ Hm) as (r & Hr & Ht).
    apply elem_on_ready in Hp as (i & Hi & Hp).
    eapply pid_found; [done..|]. eapply wp_mono; [by eapply setpriority_runnable|].
    intros o t' [-> Ht']. split; [by apply wp_ret|eauto].
  - apply wp_bind. eapply wp_for_lists_search with (test := has_pid pid);
      [exact (proj1 H)|apply inplace_lids_valid|intros; by eapply pid_differs|].
    fold inplace_lids. destruct (List.find _ (concat _)) as [p|] eqn:Ef2; [|by apply wp_ret].
    apply find_elem in Ef2 as [Hp Hm]. destruct (matches_Some _ _ _ Hm) as (r & Hr & Ht).
    assert (exists st, p ∈ L (LState st)) as [st Hst].
    { cbn in Hp. rewrite !elem_of_app in Hp. destruct Hp as [?|[?|?%not_elem_of_nil]]; eauto; done. }
    eapply pid_found; [done..|]. eapply wp_mono; [by eapply setpriority_in_place|].
    intros o t' [-> Ht']. split; [by apply wp_ret|eauto].
Qed.

Lemma getpriority_body_spec t P L off pid :
  table t P L off ->
  wp (getpriority_body pid) (fun v t' => t' = t /\
    v = match prio_target P L pid with
        | None => -1
        | Some p => from_option p_priority (-1) (P !! p)
        end) t.
Proof.
  intros H. unfold getpriority_body, prio_target, on_ready. rewrite <-concat_app, <-fmap_app.
  apply wp_bind. eapply wp_for_lists_search with (test := has_pid pid);
    [exact (proj1 H)| |intros; by eapply pid_differs|].
  { apply Forall_app. split; [apply ready_lids_valid|apply inplace_lids_valid]. }
  fold inplace_lids. destruct (List.find _ _) as [p|] eqn:Ef; [|by apply wp_ret].
  apply find_elem in Ef as [Hp Hm]. destruct (matches_Some _ _ _ Hm) as (r & Hr & Ht).
  eapply pid_found; [done..|]. apply wp_bind. eapply table_rd; [done..|]. apply wp_ret.
  split; [|eauto]. apply wp_ret. by rewrite Hr.
Qed.
