(* ===== verification/ProcLife.v ===== *)
(** The life of a process in the table: allocation, [exit], [wait], reaping and the
    initial table.  Each routine of Proc.v is related to its effect on the
    abstract table ([table] of ProcFacts.v). *)

From stdpp Require Import base tactics numbers option list gmap sets strings.
From Stdlib Require Import ZArith Lia.
From S2P Require Import Prelude ProcDefs StateLists PtableRep Spinlock Kernel Proc ProcFacts.

(** * State transitions that are a remove and an add *)

Lemma move_state_spec t P L off a b p msg :
  table t P L off -> p ∈ L (LState a) -> b <> RUNNABLE ->
  wp (removeOrPanic (LState a) p msg;; assertState p a;;
      wr (set_p_state b) p;; stateListAdd (LState b) p)
     (fun _ t' => table t' (alter (set_p_state b) p P) (lmove L p (LState a) (LState b)) off) t.
Proof.
  intros H Hp Hb. destruct (table_elem _ _ _ H Hp) as (r & Hr & Hh & Hpr & Hoff & Hlt).
  destruct (home_state _ _ Hh) as [Hst _]. eapply table_take; [done..|]. intros t1 H1.
  apply wp_bind. eapply wp_rep_wr_off; [done|set_solver|done|done|]. intros t2 H2.
  eapply table_put; [done| |by apply lookup_alter_Some|by apply home_other|done|by auto].
  apply prio_ok_alter; [exact (proj2 H)|]. by intros ? [= <-]%(eq_trans (eq_sym Hr)).
Qed.

Lemma alloc_move_spec t P L off p :
  table t P L off -> p ∈ L (LState UNUSED) ->
  wp (alloc_move p) (fun _ t' =>
    table t' (alter (set_p_state EMBRYO) p P) (lmove L p (LState UNUSED) (LState EMBRYO)) off) t.
Proof. intros. by apply move_state_spec. Qed.

Lemma unalloc_move_spec t P L off p :
  table t P L off -> p ∈ L (LState EMBRYO) ->
  wp (unalloc_move p) (fun _ t' =>
    table t' (alter (set_p_state UNUSED) p P) (lmove L p (LState EMBRYO) (LState UNUSED)) off) t.
Proof. intros. by apply move_state_spec. Qed.

Definition reaped (P : list proc) (L : lists) (p : nat) : list proc * lists :=
  (alter (fun r => set_p_state UNUSED (reap_fields r)) p P,
   lmove L p (LState ZOMBIE) (LState UNUSED)).

Lemma reap_spec t P L off p :
  table t P L off -> p ∈ L (LState ZOMBIE) ->
  wp (reap p) (fun _ t' => table t' (reaped P L p).1 (reaped P L p).2 off) t.
Proof.
  intros H Hp. destruct (table_elem _ _ _ H Hp) as (r & Hr & Hh & Hpr & Hoff & Hlt).
  apply wp_bind. eapply table_wr_on; [done..|done|]. intros t1 H1 _.
  unfold reaped. cbn [fst snd]. rewrite <-alter_twice.
  eapply wp_mono; [by apply move_state_spec|]. by intros [] t2 H2.
Qed.

(** * [reparent] *)

(** The channel of a process that may be null. *)
Definition pchan (o : option nat) : chan := from_option CProc CNull o.

Definition adopt (cur : nat) (init : option nat) (r : proc) : proc :=
  if bool_decide (p_parent r = Some cur) then set_p_parent init r else r.
Definition adopt_slots (cur : nat) (init : option nat) (ps : list nat) (P : list proc) : list proc :=
  foldl (fun P p => alter (adopt cur init) p P) P ps.
(** Every process in use, the ones in transit apart. *)
Definition adopt_all (cur : nat) (init : option nat) (off : gset nat) : list proc -> list proc :=
  imap (fun p r => if bool_decide (p ∉ off) && negb (bool_decide (p_state r = UNUSED))
                   then adopt cur init r else r).

Definition wake_step (ch : chan) (PL : list proc * lists) : list proc * lists :=
  woken PL.1 PL.2 (first_sleeper PL.1 PL.2 ch).
Definition child_of (cur : nat) (r : proc) : bool := bool_decide (p_parent r = Some cur).
Definition kids (P : list proc) (cur : nat) (ps : list nat) : list nat :=
  filter (fun p => matches P (child_of cur) p = true) ps.

(** The table after [reparent]: [init] is the parent of the orphans, and one
    sleeper on [init] is woken for each zombie among them. *)
Definition reparented (cur : nat) (init : option nat) (off : gset nat)
    (P : list proc) (L : lists) : list proc * lists :=
  Nat.iter (length (kids P cur (L (LState ZOMBIE)))) (wake_step (pchan init))
    (adopt_all cur init off P, L).

Lemma home_state_lids r : home r ∈ state_lids <-> p_state r <> RUNNABLE /\ p_state r <> UNUSED.
Proof.
  rewrite state_lids_eq. unfold home. destruct (decide (p_state r = RUNNABLE)) as [E|E].
  - rewrite E. unfold ready_lid. destruct (_ <? _); set_solver.
  - destruct (p_state r); set_solver.
Qed.
Lemma home_ready_lids r : prio_ok r -> home r ∈ ready_lids <-> p_state r = RUNNABLE.
Proof.
  intros Hp. unfold home, ready_lids. rewrite list_elem_of_fmap.
  destruct (decide (p_state r = RUNNABLE)) as [E|E].
  - split; [done|intros _]. destruct (prio_lid r Hp) as [-> Hle]. eexists. split; [done|].
    apply elem_of_reverse, elem_of_seq. cbn in Hle. lia.
  - split; [|done]. by intros (i & [=] & _).
Qed.

Section reparent.
Context (cur : nat) (init : option nat) (Hinit : init <> Some cur).

Lemma adopt_next r : set_p_next None (adopt cur init r) = adopt cur init (set_p_next None r).
Proof. unfold adopt. cbn. by destruct (bool_decide _). Qed.
Lemma adopt_next' r : p_next (adopt cur init r) = p_next r.
Proof. unfold adopt. by destruct (bool_decide _). Qed.
Lemma adopt_state r : p_state (adopt cur init r) = p_state r.
Proof. unfold adopt. by destruct (bool_decide _). Qed.
Lemma adopt_prio r : p_priority (adopt cur init r) = p_priority r.
Proof. unfold adopt. by destruct (bool_decide _). Qed.
Lemma adopt_chan r : p_chan (adopt cur init r) = p_chan r.
Proof. unfold adopt. by destruct (bool_decide _). Qed.
Lemma adopt_home r : home (adopt cur init r) = home r.
Proof. unfold home. by rewrite adopt_state, adopt_prio. Qed.
Lemma adopt_twice r : adopt cur init (adopt cur init r) = adopt cur init r.
Proof.
  unfold adopt at 1. destruct (bool_decide_reflect (p_parent (adopt cur init r) = Some cur)) as [E|]; [|done].
  unfold adopt in *. destruct (bool_decide_reflect (p_parent r = Some cur)); done.
Qed.
Lemma adopt_not_child r : p_parent (adopt cur init r) <> Some cur.
Proof. unfold adopt. destruct (bool_decide_reflect (p_parent r = Some cur)); done. Qed.
Lemma adopt_state_comm r st : adopt cur init (set_p_state st r) = set_p_state st (adopt cur init r).
Proof. unfold adopt. cbn. by destruct (bool_decide _). Qed.

Lemma adopt_slots_snoc ps p P :
  adopt_slots cur init (ps ++ [p]) P = alter (adopt cur init) p (adopt_slots cur init ps P).
Proof. unfold adopt_slots. by rewrite foldl_app. Qed.
Lemma adopt_slots_lookup ps P p :
  adopt_slots cur init ps P !! p =
    (fun r => if bool_decide (p ∈ ps) then adopt cur init r else r) <$> P !! p.
Proof.
  induction ps as [|q ps IH] using rev_ind.
  { rewrite bool_decide_eq_false_2 by apply not_elem_of_nil. change (adopt_slots cur init [] P) with P. by destruct (P !! p). }
  rewrite adopt_slots_snoc. destruct (decide (p = q)) as [->|Hne].
  - rewrite list_lookup_alter_eq, IH, (bool_decide_eq_true_2 (q ∈ ps ++ [q])) by set_solver.
    destruct (P !! q); [|done]. cbn. case_bool_decide; [by rewrite adopt_twice|done].
  - rewrite list_lookup_alter_ne, IH by done. destruct (P !! p); [|done]. cbn. f_equal.
    assert (p ∈ ps <-> p ∈ ps ++ [q]) as E by (rewrite elem_of_app, list_elem_of_singleton; tauto).
    by rewrite (bool_decide_ext _ _ E).
Qed.

(** Waking does not look at parents. *)
Lemma first_sleeper_adopt ps P L ch :
  first_sleeper (adopt_slots cur init ps P) L ch = first_sleeper P L ch.
Proof.
  unfold first_sleeper. induction (L (LState SLEEPING)) as [|x xs IH]; [done|]. cbn. rewrite IH.
  unfold matches, sleeping_on. rewrite adopt_slots_lookup. destruct (P !! x) as [r|]; [|done]. cbn.
  destruct (bool_decide (x ∈ ps)); [by rewrite adopt_state, adopt_chan|done].
Qed.
Lemma wake_adopt ps ch P L :
  wake_step ch (adopt_slots cur init ps P, L) =
    (adopt_slots cur init ps (wake_step ch (P, L)).1, (wake_step ch (P, L)).2).
Proof.
  unfold wake_step. cbn [fst snd]. rewrite first_sleeper_adopt.
  destruct (first_sleeper P L ch) as [w|]; [|done]. cbn [woken fst snd]. f_equal.
  - apply list_eq. intros k. rewrite adopt_slots_lookup. destruct (decide (k = w)) as [->|].
    + rewrite !list_lookup_alter_eq, adopt_slots_lookup. destruct (P !! w); [|done]. cbn.
      case_bool_decide; [by rewrite adopt_state_comm|done].
    + by rewrite !list_lookup_alter_ne, adopt_slots_lookup by done.
  - rewrite adopt_slots_lookup. destruct (P !! w); [|done]. cbn.
    case_bool_decide; [by rewrite adopt_prio|done].
Qed.
Lemma wakes_adopt ps ch n P L :
  Nat.iter n (wake_step ch) (adopt_slots cur init ps P, L) =
    (adopt_slots cur init ps (Nat.iter n (wake_step ch) (P, L)).1,
     (Nat.iter n (wake_step ch) (P, L)).2).
Proof.
  induction n as [|n IH]; [done|]. rewrite !Nat.iter_succ, IH, wake_adopt.
  by destruct (Nat.iter n (wake_step ch) (P, L)).
Qed.

(** One round of the first loop. *)
Definition adopt_round (PL : list proc * lists) (q : nat) (r : proc) : list proc * lists :=
  if child_of cur r && bool_decide (p_state r = ZOMBIE)
  then wake_step (pchan init) (alter (adopt cur init) q PL.1, PL.2)
  else (alter (adopt cur init) q PL.1, PL.2).

Lemma table_adopt t P L off q (Q : unit -> ptable -> Prop) :
  table t P L off -> (q < NPROC)%nat ->
  (forall t', table t' (alter (adopt cur init) q P) L off -> Q tt t') ->
  wp (wr (adopt cur init) q) Q t.
Proof.
  intros H Hlt HQ. eapply table_wr_on; [done|done|apply adopt_next|apply adopt_next'| |by auto].
  intros r Hr. rewrite adopt_home. unfold prio_ok. by rewrite adopt_prio.
Qed.

Lemma reparent_round t P L off q r :
  table t P L off -> P !! q = Some r ->
  wp (par ← rd p_parent q;
      (if bool_decide (par = Some cur) then
         wr (set_p_parent init) q;;
         st ← rd p_state q;
         (if bool_decide (st = ZOMBIE)
          then wakeup1 (from_option CProc CNull init) else mret tt)
       else mret tt);;
      mret (Continue (A := unit) tt))
     (fun o t' => o = Continue tt /\
        table t' (adopt_round (P, L) q r).1 (adopt_round (P, L) q r).2 off) t.
Proof.
  intros H Hr. assert (Hlt : (q < NPROC)%nat).
  { apply lookup_lt_Some in Hr. by rewrite (rep_len _ _ _ _ _ (proj1 H)) in Hr. }
  unfold adopt_round, child_of. apply wp_bind. eapply table_rd; [done..|]. apply wp_bind.
  destruct (bool_decide (p_parent r = Some cur)) eqn:Ec; cbn [andb fst snd].
  - assert (Ha : adopt cur init r = set_p_parent init r) by (unfold adopt; by rewrite Ec).
    apply wp_bind. eapply table_wr_on; [done..|].
    intros t1 H1 _. rewrite (alter_agree _ (adopt cur init) _ _ _ Hr) in H1 by done.
    pose proof (lookup_alter_Some (adopt cur init) _ _ _ Hr) as Hr1.
    apply wp_bind. eapply table_rd; [done..|]. rewrite adopt_state.
    destruct (bool_decide (p_state r = ZOMBIE)); [|by apply wp_ret, wp_ret].
    eapply wp_mono; [by apply wakeup1_spec|]. intros [] t2 H2. by apply wp_ret.
  - apply wp_ret, wp_ret. split; [done|]. rewrite (alter_id_on _ _ _ _ Hr); [done|].
    unfold adopt. by rewrite Ec.
Qed.

(** A loop that only adopts. *)
Lemma for_lists_adopt ls ls2 body t P L off (Q : ctl unit unit -> ptable -> Prop) :
  Forall valid_lid ls -> table t P L off ->
  (forall l q t P r, l ∈ ls -> q ∈ L l -> table t P L off -> P !! q = Some r -> home r = l ->
     wp (body tt q) (fun o t' => o = Continue tt /\ table t' (alter (adopt cur init) q P) L off) t) ->
  (forall t', table t' (adopt_slots cur init (concat (L <$> ls)) P) L off ->
     wp (for_lists ls2 body tt) Q t') ->
  wp (for_lists (ls ++ ls2) body tt) Q t.
Proof.
  intros Hls. revert t P. induction Hls as [|l ls Hl Hls IH]; intros t P H Hb HQ.
  { by apply HQ. }
  cbn [app for_lists].
  eapply (wp_visit (fun dn P' L' => P' = adopt_slots cur init dn P /\ L' = L)); [done..| |].
  - intros dn q todo t' P' L' Ht' Hdn _ [-> ->].
    assert (Hq : q ∈ L l) by (rewrite Hdn, elem_of_app, elem_of_cons; tauto).
    destruct (table_elem _ _ _ Ht' Hq) as (r & Hr & Hh & _).
    eapply wp_mono; [eapply Hb; [by left|done..]|]. intros o t2 [-> H2]. split; [done|].
    eexists _, _. rewrite adopt_slots_snoc. split_and!; [exact H2|done..].
  - intros t' P' L' Ht' _ [-> ->]. eapply IH; [exact Ht'| |].
    + intros l' q t2 P2 r Hl'. apply Hb. by right.
    + intros t2 H2. apply HQ. cbn. unfold adopt_slots in *. by rewrite foldl_app.
Qed.

(** What waking changes. *)
Lemma wake_lookup ch P L p r' :
  (wake_step ch (P, L)).1 !! p = Some r' -> exists r, P !! p = Some r /\
    (r' = r \/ sleeping_on ch r = true /\ r' = set_p_state RUNNABLE r).
Proof.
  unfold wake_step. cbn [fst snd].
  destruct (first_sleeper P L ch) as [w|] eqn:Ew; cbn [woken fst]; [|eauto].
  destruct (decide (p = w)) as [->|]; [|rewrite list_lookup_alter_ne by done; eauto].
  rewrite list_lookup_alter_eq. apply find_elem in Ew as [_ Hm].
  destruct (matches_Some _ _ _ Hm) as (r & -> & Ht). intros [= <-]. eauto.
Qed.
Lemma wakes_lookup ch n P L p r' :
  (Nat.iter n (wake_step ch) (P, L)).1 !! p = Some r' -> exists r, P !! p = Some r /\
    (r' = r \/ sleeping_on ch r = true /\ r' = set_p_state RUNNABLE r).
Proof.
  revert r'. induction n as [|n IH]; intros r'; [eauto|]. rewrite Nat.iter_succ.
  destruct (Nat.iter n (wake_step ch) (P, L)) as [P1 L1]. cbn in IH.
  intros (r1 & Hr1 & Hd)%wake_lookup. destruct (IH _ Hr1) as (r & Hr & [->|[Hs ->]]); [eauto|].
  exists r. split; [done|]. right. split; [done|]. by destruct Hd as [->|[_ ->]].
Qed.
Lemma wakes_lists ch n P L st :
  st <> SLEEPING -> (Nat.iter n (wake_step ch) (P, L)).2 (LState st) = L (LState st).
Proof.
  intros Hst. induction n as [|n IH]; [done|]. rewrite Nat.iter_succ, <-IH.
  destruct (Nat.iter n (wake_step ch) (P, L)) as [P1 L1]. unfold wake_step. cbn [fst snd].
  destruct (first_sleeper P1 L1 ch) as [w|]; cbn [woken fst snd]; [|done]. apply lmove_other; [congruence|].
  unfold ready_lid. by destruct (_ <? _).
Qed.
Lemma kids_snoc P ps q r : P !! q = Some r ->
  length (kids P cur (ps ++ [q])) = (length (kids P cur ps) + (if child_of cur r then 1 else 0))%nat.
Proof.
  intros Hr. unfold kids. rewrite filter_app, length_app. f_equal.
  unfold filter; cbn. unfold matches. rewrite Hr. cbn. by destruct (child_of cur r).
Qed.

Lemma zombie_step n dn P L P' L' q r :
  (P', L') = Nat.iter n (wake_step (pchan init)) (adopt_slots cur init dn P, L) ->
  p_state r = ZOMBIE ->
  adopt_round (P', L') q r =
    Nat.iter (n + (if child_of cur r then 1 else 0)) (wake_step (pchan init))
      (adopt_slots cur init (dn ++ [q]) P, L).
Proof.
  intros HI Hst. unfold adopt_round. rewrite Hst, bool_decide_eq_true_2, andb_true_r by done.
  rewrite adopt_slots_snoc. cbn [fst snd].
  change (alter (adopt cur init) q ?P) with (adopt_slots cur init [q] P).
  destruct (child_of cur r).
  - by rewrite Nat.add_1_r, Nat.iter_succ, wakes_adopt, <-HI.
  - by rewrite Nat.add_0_r, wakes_adopt, <-HI.
Qed.

(** The loop over the zombies. *)
Lemma reparent_zombies body (k : ctl unit unit -> M ptable (ctl unit unit)) t P0 P L off (Q : ctl unit unit -> ptable -> Prop) :
  (forall t P L q r, table t P L off -> P !! q = Some r ->
     wp (body tt q) (fun o t' => o = Continue tt /\
       table t' (adopt_round (P, L) q r).1 (adopt_round (P, L) q r).2 off) t) ->
  table t P L off -> (forall q, q ∈ L (LState ZOMBIE) -> P !! q = P0 !! q) ->
  (forall t', let n := length (kids P0 cur (L (LState ZOMBIE))) in
     let PL := Nat.iter n (wake_step (pchan init))
                 (adopt_slots cur init (L (LState ZOMBIE)) P, L) in
     table t' PL.1 PL.2 off -> wp (k (Continue tt)) Q t') ->
  wp (hd ← rd_ptrs q_head (LState ZOMBIE); r ← while_list NPROC body tt hd; k r) Q t.
Proof.
  intros Hb H H0 HQ.
  eapply (wp_visit (fun dn P' L' => (P', L') = Nat.iter (length (kids P0 cur dn))
    (wake_step (pchan init)) (adopt_slots cur init dn P, L))); [done|done|done| |].
  - intros dn q todo t' P' L' Ht' Hdn HL' HI.
    assert (Hq : q ∈ L (LState ZOMBIE)) by (rewrite Hdn, elem_of_app, elem_of_cons; tauto).
    assert (Hqd : q ∉ dn).
    { pose proof (rep_nodup _ _ _ _ _ (proj1 H) (LState ZOMBIE)) as Hnd. rewrite Hdn in Hnd.
      apply NoDup_app in Hnd as (_ & Hnd & _). intros Hin. eapply Hnd; [done|by left]. }
    destruct (table_elem _ _ _ H Hq) as (r & Hr & Hh & _). destruct (home_state _ _ Hh) as [Hst _].
    assert (Hr' : P' !! q = Some r).
    { rewrite <-HL' in Hq. destruct (table_elem _ _ _ Ht' Hq) as (r' & Hr' & _).
      rewrite Hr'. assert (E : P' = (P', L').1) by done. rewrite E, HI in Hr'.
      apply wakes_lookup in Hr' as (r1 & Hr1 & Hd). rewrite adopt_slots_lookup, Hr in Hr1.
      cbn in Hr1. rewrite bool_decide_eq_false_2 in Hr1 by done. simplify_eq.
      destruct Hd as [->|[Hs _]]; [done|]. unfold sleeping_on in Hs. by rewrite Hst in Hs. }
    eapply wp_mono; [by eapply Hb|]. intros o t2 [-> H2]. split; [done|].
    eexists _, _. split; [exact H2|]. rewrite <-surjective_pairing.
    rewrite (zombie_step _ _ _ _ _ _ _ _ HI Hst). rewrite H0 in Hr by done.
    rewrite (kids_snoc _ _ _ _ Hr). by rewrite wakes_lists.
  - intros t' P' L' Ht' _ HI. apply HQ. by rewrite <-HI.
Qed.

(** The lists that the two loops visit hold exactly the processes in use. *)
Lemma adopt_order t tZ P PZ L LZ off n :
  table t P L off -> table tZ PZ LZ off ->
  (PZ, LZ) = Nat.iter n (wake_step (pchan init)) (adopt_slots cur init (on_states L) P, L) ->
  adopt_slots cur init (on_states L ++ on_ready LZ) P = adopt_all cur init off P.
Proof.
  intros H HZ HI. apply list_eq. intros p. unfold adopt_all.
  rewrite adopt_slots_lookup, list_lookup_imap. destruct (P !! p) as [r|] eqn:Hr; [|done].
  cbn [fmap option_fmap option_map]. f_equal.
  assert (exists rZ, PZ !! p = Some rZ) as [rZ HrZ].
  { apply lookup_lt_is_Some. rewrite (rep_len _ _ _ _ _ (proj1 HZ)).
    rewrite <-(rep_len _ _ _ _ _ (proj1 H)). by apply lookup_lt_Some in Hr. }
  assert (Hst : p_state rZ = p_state r \/ p_state r = SLEEPING /\ p_state rZ = RUNNABLE).
  { assert (E : PZ = (PZ, LZ).1) by done. rewrite E, HI in HrZ.
    apply wakes_lookup in HrZ as (r1 & Hr1 & Hd). rewrite adopt_slots_lookup, Hr in Hr1.
    cbn in Hr1. assert (p_state r1 = p_state r) as E1.
    { simplify_eq. case_match; [apply adopt_state|done]. }
    destruct Hd as [->|[Hs ->]]; [by left|right]. unfold sleeping_on in Hs.
    apply andb_true_iff in Hs as [Hs%bool_decide_eq_true _]. by rewrite <-E1. }
  assert (HprZ : prio_ok rZ) by (pose proof (proj2 HZ) as HP; rewrite Forall_lookup in HP; eauto).
  enough (p ∈ on_states L ++ on_ready LZ <-> p ∉ off /\ p_state r <> UNUSED) as E.
  { rewrite (bool_decide_ext _ _ E).
    destruct (bool_decide_reflect (p ∉ off /\ p_state r <> UNUSED)),
      (bool_decide_reflect (p ∉ off)), (bool_decide_reflect (p_state r = UNUSED)); cbn; tauto. }
  rewrite elem_of_app, (rep_concat_elem _ _ _ _ state_lids _ _ (proj1 H) Hr),
    (rep_concat_elem _ _ _ _ ready_lids _ _ (proj1 HZ) HrZ), home_ready_lids, home_state_lids by done.
  destruct Hst as [->|[-> ->]]; [|intuition congruence].
  destruct (decide (p_state r = RUNNABLE)); intuition congruence.
Qed.

Lemma adopt_slots_app xs ys P :
  adopt_slots cur init (xs ++ ys) P = adopt_slots cur init ys (adopt_slots cur init xs P).
Proof. apply foldl_app. Qed.
Lemma adopt_slots_states P L :
  adopt_slots cur init (L (LState ZOMBIE)) (adopt_slots cur init
    (concat (L <$> [LState EMBRYO; LState SLEEPING; LState RUNNING])) P) =
  adopt_slots cur init (on_states L) P.
Proof.
  rewrite <-adopt_slots_app. f_equal. unfold on_states. rewrite state_lids_eq. cbn.
  by rewrite !app_nil_r, <-!app_assoc.
Qed.
(** One round of the second loop. *)
Lemma ready_round t P L off q r :
  table t P L off -> P !! q = Some r ->
  wp (par ← rd p_parent q;
      (if bool_decide (par = Some cur) then wr (set_p_parent init) q else mret tt);;
      mret (Continue (A := unit) tt))
     (fun o t' => o = Continue tt /\ table t' (alter (adopt cur init) q P) L off) t.
Proof.
  intros H Hr. assert (Hlt : (q < NPROC)%nat).
  { apply lookup_lt_Some in Hr. by rewrite (rep_len _ _ _ _ _ (proj1 H)) in Hr. }
  apply wp_bind. eapply table_rd; [done..|]. apply wp_bind.
  destruct (bool_decide (p_parent r = Some cur)) eqn:Ec.
  - eapply table_wr_on; [done..|]. intros t1 H1 _. apply wp_ret. split; [done|].
    rewrite (alter_agree _ (adopt cur init) _ _ _ Hr) in H1; [done|].
    unfold adopt. by rewrite Ec.
  - apply wp_ret, wp_ret. split; [done|]. rewrite (alter_id_on _ _ _ _ Hr); [done|].
    unfold adopt. by rewrite Ec.
Qed.

(** [reparent] as an operation on the abstract table. *)
Lemma reparent_spec t P L off :
  table t P L off ->
  wp (reparent cur init) (fun _ t' =>
    table t' (reparented cur init off P L).1 (reparented cur init off P L).2 off) t.
Proof.
  intros H. unfold reparent. apply wp_bind.
  change state_lids with ([LState EMBRYO; LState SLEEPING; LState RUNNING] ++ [LState ZOMBIE]).
  apply for_lists_adopt with P L off; [by repeat constructor|done| |].
  { intros l q t1 P1 r Hl Hq H1 Hr Hh. eapply wp_mono; [by apply reparent_round|].
    intros o t2 [-> H2]. split; [done|]. unfold adopt_round in H2.
    rewrite (bool_decide_eq_false_2 (_ = ZOMBIE)), andb_false_r in H2; [done|].
    intros E. rewrite (home_other _ _ E) in Hh by done. subst l. set_solver. }
  intros t1 H1. cbn [for_lists]. eapply (reparent_zombies _ _ _ P); [|exact H1| |].
  { intros. by apply reparent_round. }
  { intros q Hq. rewrite adopt_slots_lookup. destruct (P !! q) as [r|] eqn:Hr; [|done].
    cbn [fmap option_fmap option_map]. rewrite bool_decide_eq_false_2; [done|].
    rewrite (rep_concat_elem _ _ _ _ _ _ _ (proj1 H) Hr). intros [_ Hh].
    destruct (table_elem _ _ _ H Hq) as (r' & Hr' & Hh' & _). simplify_eq.
    rewrite Hh' in Hh. set_solver. }
  cbn zeta. rewrite adopt_slots_states. intros t2 H2. apply wp_ret, wp_bind.
  destruct (Nat.iter _ _ (adopt_slots _ _ _ _, L)) as [PZ LZ] eqn:HI. cbn [fst snd] in H2.
  rewrite <-(app_nil_r ready_lids).
  eapply for_lists_adopt; [apply ready_lids_valid|exact H2|intros; by eapply ready_round|].
  intros t3 H3. apply wp_ret, wp_ret. unfold reparented.
  rewrite <-(adopt_order _ _ _ _ _ _ _ _ H H2 (eq_sym HI)), adopt_slots_app, wakes_adopt, HI.
  exact H3.
Qed.

End reparent.

(** * [exit] *)

(** The parent is woken, the children are handed over, and the process becomes a
    zombie of size 0 with its last time slice charged. *)
Definition exited (now : Z) (cur : nat) (init : option nat) (off : gset nat)
    (P : list proc) (L : lists) : list proc * lists :=
  let ch := pchan (from_option p_parent None (P !! cur)) in
  let PL1 := wake_step ch (P, L) in
  let PL2 := reparented cur init off PL1.1 PL1.2 in
  (alter (fun r => set_p_sz 0 (set_p_state ZOMBIE (charge now r))) cur PL2.1,
   lmove PL2.2 cur (LState RUNNING) (LState ZOMBIE)).

Lemma reparented_lists cur init off P L st :
  st <> SLEEPING -> (reparented cur init off P L).2 (LState st) = L (LState st).
Proof. apply wakes_lists. Qed.
Lemma wake_lists ch P L st : st <> SLEEPING -> (wake_step ch (P, L)).2 (LState st) = L (LState st).
Proof. apply (wakes_lists ch 1). Qed.

Lemma exit_body_spec now t P L off cur init :
  table t P L off -> cur ∈ L (LState RUNNING) -> init <> Some cur ->
  wp (exit_body now cur init) (fun _ t' =>
    table t' (exited now cur init off P L).1 (exited now cur init off P L).2 off) t.
Proof.
  intros H Hc Hinit. destruct (table_elem _ _ _ H Hc) as (r & Hr & _).
  unfold exit_body, exited. rewrite Hr. cbn [from_option].
  apply wp_bind. eapply table_rd; [done..|].
  apply wp_bind. eapply wp_mono; [by apply wakeup1_spec|]. cbn beta. intros [] t1 H1.
  change (woken P L _) with (wake_step (pchan (p_parent r)) (P, L)) in H1.
  pose proof (wake_lists (pchan (p_parent r)) P L RUNNING ltac:(done)) as HL1.
  destruct (wake_step (pchan (p_parent r)) (P, L)) as [P1 L1]. cbn [fst snd] in H1, HL1 |- *.
  apply wp_bind. eapply wp_mono; [by apply reparent_spec|]. intros [] t2 H2.
  pose proof (reparented_lists cur init off P1 L1 RUNNING ltac:(done)) as HL2.
  destruct (reparented cur init off P1 L1) as [P2 L2]. cbn [fst snd] in H2, HL2 |- *.
  assert (Hc2 : cur ∈ L2 (LState RUNNING)) by (by rewrite HL2, HL1).
  destruct (table_elem _ _ _ H2 Hc2) as (r2 & Hr2 & Hh & Hpr & Hoff & Hlt).
  destruct (home_state _ _ Hh) as [Hst _].
  eapply table_take; [done..|]. intros t3 H3.
  apply wp_bind. eapply wp_charge; [done|set_solver|done|]. intros t4 H4.
  apply wp_bind. eapply wp_rep_wr_off; [done|set_solver|done|done|]. intros t5 H5.
  apply wp_bind. rewrite alter_twice in H5.
  pose proof (lookup_alter_Some (fun r => set_p_state ZOMBIE (charge now r)) _ _ _ Hr2) as Hr5.
  eapply table_put; [done| |done|by apply home_other|done|].
  { apply prio_ok_alter; [exact (proj2 H2)|]. intros ? [= <-]%(eq_trans (eq_sym Hr2)).
    by apply charge_prio. }
  intros t6 H6 _. eapply table_wr_on; [done..|]. intros t7 H7 _. by rewrite alter_twice in H7.
Qed.

(** * [wait] *)

(** The outcome of a scan: the first zombie child in list order, or whether there
    are children at all. *)
Definition zombie_child (cur : nat) (r : proc) : bool :=
  child_of cur r && bool_decide (p_state r = ZOMBIE).
Definition scan_result (P : list proc) (L : lists) (cur : nat) : ctl nat bool :=
  match List.find (matches P (zombie_child cur)) (on_states L) with
  | Some p => Return p
  | None => Continue (existsb (matches P (child_of cur)) (on_states L ++ on_ready L))
  end.

Definition scan_step (P : list proc) (cur : nat) (havekids : bool) (p : nat) : ctl nat bool :=
  if matches P (child_of cur) p then
    if matches P (zombie_child cur) p then Return p else Continue true
  else Continue havekids.
Definition scan_step_ready (P : list proc) (cur : nat) (havekids : bool) (p : nat) : ctl nat bool :=
  if matches P (child_of cur) p then Continue true else Continue havekids.

Lemma scan_fold P cur b ps :
  fold_ctl (scan_step P cur) b ps =
    match List.find (matches P (zombie_child cur)) ps with
    | Some p => Return p
    | None => Continue (b || existsb (matches P (child_of cur)) ps)
    end.
Proof.
  revert b. induction ps as [|p ps IH]; intros b; cbn; [by rewrite orb_false_r|].
  unfold scan_step at 1.
  assert (matches P (zombie_child cur) p = true -> matches P (child_of cur) p = true) as Hzc.
  { unfold matches, zombie_child. destruct (P !! p); cbn; [|done]. by intros [? _]%andb_true_iff. }
  destruct (matches P (child_of cur) p) eqn:Ec, (matches P (zombie_child cur) p) eqn:Ez; try done.
  - rewrite IH. by rewrite orb_true_r.
  - by specialize (Hzc eq_refl).
Qed.
Lemma scan_fold_ready P cur b ps :
  fold_ctl (scan_step_ready P cur) b ps = Continue (b || existsb (matches P (child_of cur)) ps).
Proof.
  revert b. induction ps as [|p ps IH]; intros b; cbn; [by rewrite orb_false_r|].
  unfold scan_step_ready at 1. destruct (matches P (child_of cur) p); rewrite IH; [|done].
  by rewrite orb_true_r.
Qed.

Lemma wait_scan_spec t P L off cur :
  table t P L off -> wp (wait_scan cur) (fun o t' => o = scan_result P L cur /\ t' = t) t.
Proof.
  intros H. unfold wait_scan, scan_result. apply wp_bind.
  eapply wp_mono; [eapply (wp_for_lists_read _ _ (scan_step P cur));
    [exact (proj1 H)|apply state_lids_valid|]|].
  { intros b p r Hr. apply wp_bind. eapply table_rd; [done..|].
    unfold scan_step, matches, zombie_child, child_of. rewrite Hr. cbn.
    destruct (bool_decide (p_parent r = Some cur)); [|by apply wp_ret].
    apply wp_bind. eapply table_rd; [done..|]. by destruct (bool_decide (p_state r = ZOMBIE)). }
  fold (on_states L). intros o t' [-> ->]. rewrite scan_fold. cbn [orb].
  destruct (List.find _ (on_states L)) as [p|]; [by apply wp_ret|].
  eapply wp_mono; [eapply (wp_for_lists_read _ _ (scan_step_ready P cur));
    [exact (proj1 H)|apply ready_lids_valid|]|].
  { intros b p r Hr. apply wp_bind. eapply table_rd; [done..|].
    unfold scan_step_ready, matches, child_of. rewrite Hr. cbn.
    by destruct (bool_decide (p_parent r = Some cur)). }
  fold (on_ready L). intros o t' [-> ->]. rewrite scan_fold_ready, existsb_app. done.
Qed.

(** * The initial table *)

Definition unused_from (p : nat) : list proc -> list proc :=
  imap (fun i r => if (p <=? i)%nat then set_p_state UNUSED r else r).
Definition only_unused : lists := fun l =>
  match l with LState UNUSED => seq 0 NPROC | _ => [] end.

(** The heads and tails are arrays of the right sizes. *)
Definition sized (t : ptable) : Prop :=
  length (procs t) = NPROC /\ forall l, valid_lid l -> is_Some (get_ptrs l t).

Lemma clear_list_spec l t : sized t -> valid_lid l ->
  wp (clear_list l) (fun _ t' => sized t' /\ procs t' = procs t /\
    get_ptrs l t' = Some (MkPtrs None None) /\
    forall l', l' <> l -> get_ptrs l' t' = get_ptrs l' t) t.
Proof.
  intros [Hlen Hs] Hl. destruct (Hs l Hl) as [v Hv]. unfold clear_list.
  apply wp_bind. eapply wp_wr_ptrs; [done|].
  pose proof (get_put_ptrs l v (set_q_head None v) t Hv) as H1.
  eapply wp_wr_ptrs; [done|]. set (t2 := put_ptrs _ _ (put_ptrs _ _ t)).
  assert (Ho : forall l', l' <> l -> get_ptrs l' t2 = get_ptrs l' t)
    by (intros; unfold t2; by rewrite !get_put_ptrs_ne).
  assert (He : get_ptrs l t2 = Some (MkPtrs None None)) by (by eapply get_put_ptrs).
  assert (Hp : procs t2 = procs t) by (unfold t2; by rewrite !procs_put_ptrs).
  split_and!; [split|done..].
  - by rewrite Hp.
  - intros l' Hl'. destruct (decide (l' = l)) as [->|]; [eauto|]. rewrite Ho by done. eauto.
Qed.

Lemma clear_lists_spec {A} (f : A -> lid) xs t :
  sized t -> Forall valid_lid (f <$> xs) ->
  wp (for_each (fun x => clear_list (f x)) xs) (fun _ t' => sized t' /\ procs t' = procs t /\
    (forall l, l ∈ f <$> xs -> get_ptrs l t' = Some (MkPtrs None None)) /\
    (forall l, l ∉ f <$> xs -> get_ptrs l t' = get_ptrs l t)) t.
Proof.
  revert t. induction xs as [|x xs IH]; intros t Hs Hv; cbn in Hv |- *.
  { apply wp_ret. split_and!; try done. by intros l Hl%not_elem_of_nil. }
  apply Forall_cons in Hv as [Hx Hv]. apply wp_bind.
  eapply wp_mono; [by apply clear_list_spec|]. intros [] t1 (Hs1 & Hp1 & He & Ho).
  eapply wp_mono; [by apply IH|]. intros [] t2 (Hs2 & Hp2 & He2 & Ho2).
  split_and!; [done|congruence| |].
  - intros l Hl. destruct (decide (l ∈ f <$> xs)) as [Hin|Hin]; [by apply He2|].
    rewrite Ho2 by done. apply elem_of_cons in Hl as [->|]; done.
  - intros l [Hl1 Hl2]%not_elem_of_cons. rewrite Ho2 by done. by apply Ho.
Qed.

Lemma initProcessLists_spec t :
  sized t ->
  wp initProcessLists (fun _ t' =>
    rep home t' (pcbs t) (fun _ => []) (set_seq 0 NPROC)) t.
Proof.
  intros Hs. unfold initProcessLists. apply wp_bind.
  eapply wp_mono; [apply (clear_lists_spec LState); [done|]|].
  { apply Forall_forall. intros l (st & -> & _)%list_elem_of_fmap. done. }
  intros [] t1 (Hs1 & Hp1 & He1 & Ho1).
  eapply wp_mono; [apply (clear_lists_spec LReady); [done|]|].
  { apply Forall_forall. intros l (i & -> & Hi)%list_elem_of_fmap.
    apply elem_of_seq in Hi. cbn. lia. }
  intros [] t2 (Hs2 & Hp2 & He2 & Ho2). split.
  - unfold pcbs. congruence.
  - rewrite pcbs_length. apply Hs.
  - intros l Hl. split; [|by split; [|constructor]].
    destruct l as [st|i].
    + rewrite Ho2; [|intros (i & [=] & _)%list_elem_of_fmap]. apply He1.
      apply list_elem_of_fmap. exists st. split; [done|]. by destruct st; apply (bool_decide_unpack _).
    + apply He2. apply list_elem_of_fmap. exists i. split; [done|]. apply elem_of_seq. cbn in Hl. lia.
  - constructor.
  - intros l p. split; [by intros ?%not_elem_of_nil|]. intros [Hp (r & Hr & _)].
    destruct Hp. apply elem_of_set_seq. apply lookup_lt_Some in Hr.
    rewrite pcbs_length in Hr. rewrite (proj1 Hs) in Hr. lia.
  - by intros l p ?%not_elem_of_nil.
Qed.

Lemma unused_from_S p P : (p < length P)%nat ->
  unused_from (S p) (alter (set_p_state UNUSED) p P) = unused_from p P.
Proof.
  intros Hlt. apply list_eq. intros i. unfold unused_from. rewrite !list_lookup_imap.
  destruct (decide (i = p)) as [->|].
  - rewrite list_lookup_alter_eq. destruct (P !! p); [|done]. cbn [fmap option_fmap option_map].
    destruct (Nat.leb_spec (S p) p), (Nat.leb_spec p p); try lia. done.
  - rewrite list_lookup_alter_ne by done. destruct (P !! i); [|done]. cbn [fmap option_fmap option_map].
    destruct (Nat.leb_spec (S p) i), (Nat.leb_spec p i); try lia; done.
Qed.

Lemma initFreeList_from_spec n : forall p t P L,
  (p + n)%nat = NPROC -> rep home t P L (set_seq p n) ->
  wp (initFreeList_from n p) (fun _ t' =>
    rep home t' (unused_from p P) (lset L (LState UNUSED) (L (LState UNUSED) ++ seq p n)) ∅) t.
Proof.
  induction n as [|n IH]; intros p t P L Hn H.
  { apply wp_ret. rewrite app_nil_r. replace (unused_from p P) with P.
    - eapply rep_ext; [|exact H]. intros l. unfold lset. case_decide; by subst.
    - apply list_eq. intros i. unfold unused_from. rewrite list_lookup_imap.
      destruct (P !! i) eqn:Hi; [|done]. apply lookup_lt_Some in Hi.
      rewrite (rep_len _ _ _ _ _ H) in Hi. cbn. destruct (Nat.leb_spec p i); [lia|done]. }
  assert (Hp : p ∈ (set_seq p (S n) : gset nat)) by (apply elem_of_set_seq; lia).
  cbn [initFreeList_from]. apply wp_bind. eapply wp_rep_wr_off; [done|done|lia|done|]. intros t1 H1.
  assert (exists r, P !! p = Some r) as [r Hr].
  { apply lookup_lt_is_Some. rewrite (rep_len _ _ _ _ _ H). lia. }
  apply wp_bind. eapply wp_mono.
  { eapply rep_add; [exact H1|done|by apply lookup_alter_Some|by apply home_other|done]. }
  intros [] t2 H2. eapply rep_off_eq in H2; [eapply wp_mono; [apply IH; [lia|exact H2]|]|].
  - cbn beta. intros [] t3 H3. rewrite unused_from_S in H3 by (by eapply lookup_lt_Some).
    eapply rep_ext; [|exact H3]. intros l. unfold lset. case_decide; subst; [|done].
    rewrite decide_True by done. by rewrite <-app_assoc.
  - intros x. rewrite elem_of_difference, !elem_of_set_seq, elem_of_singleton. lia.
Qed.

(** [initProcessLists] followed by [initFreeList] gives the table with every slot on
    the UNUSED list, in order. *)
Lemma init_table_spec t :
  sized t -> Forall prio_ok (procs t) ->
  wp (initProcessLists;; initFreeList) (fun _ t' =>
    table t' (unused_from 0 (pcbs t)) only_unused ∅) t.
Proof.
  intros Hs HP. apply wp_bind. eapply wp_mono; [by apply initProcessLists_spec|]. intros [] t1 H1.
  eapply wp_mono; [by apply (initFreeList_from_spec NPROC 0)|]. intros [] t2 H2. split.
  - eapply rep_ext; [|exact H2]. intros l. unfold lset, only_unused.
    destruct l as [[]|i]; done.
  - apply Forall_lookup. intros i r. unfold unused_from, pcbs.
    rewrite list_lookup_imap, list_lookup_fmap. destruct (procs t !! i) as [r0|] eqn:E; [|done].
    cbn. intros [= <-]. rewrite Forall_lookup in HP. by apply (HP _ _ E).
Qed.
