(* ===== verification/KernelFacts.v ===== *)
(** proc.c at the level of the whole kernel state: lock discipline, the panics of
    [sched] and [switchuvm], and the effect of each routine on the abstract table. *)

From stdpp Require Import base tactics numbers option list gmap sets strings.
From Stdlib Require Import ZArith Lia.
From S2P Require Import Prelude ProcDefs StateLists PtableRep Spinlock Kernel Proc ProcFacts ProcLife.

Lemma not_in_one (i j : nat) : i <> j -> i ∉ [j].
Proof. by intros H ->%list_elem_of_singleton. Qed.

Lemma sub_hd (i : nat) l : [i] ⊆ i :: l.
Proof. set_solver. Qed.
Lemma sub_tl (i j : nat) : [i] ⊆ [j; i].
Proof. set_solver. Qed.

(** * Processors and the table lock *)

Section view.
Context {X : Type}.
Implicit Types s : kstate X.

(** Processor [c] runs [op] at interrupt-nesting depth [n]. *)
Definition cpu_at s (c : nat) (n : Z) (op : option nat) : Prop :=
  exists k, cpus s !! c = Some k /\ cpu_ok k /\ c_ncli k = n /\ c_proc k = op.
Definition lock_free s (i : nat) : Prop := exists l, locks s !! i = Some l /\ lk_locked l = 0.
Definition lock_held s (i c : nat) : Prop :=
  exists l, locks s !! i = Some l /\ is_held c l = true.

(** What locking on processor [c] leaves alone; [ls] are the locks it works on. *)
Record same_kernel (c : nat) (ls : list nat) s s' : Prop := {
  sk_pt : pt s' = pt s;
  sk_promote : PromoteAtTime s' = PromoteAtTime s;
  sk_nextpid : nextpid s' = nextpid s;
  sk_init : initproc s' = initproc s;
  sk_ticks : ticks s' = ticks s;
  sk_kpgdir : kpgdir s' = kpgdir s;
  sk_fsready : fsready s' = fsready s;
  sk_ext : ext s' = ext s;
  sk_cpus : forall d, d <> c -> cpus s' !! d = cpus s !! d;
  sk_ncpu : length (cpus s') = length (cpus s);
  sk_locks : forall i, i ∉ ls -> locks s' !! i = locks s !! i
}.

Lemma same_kernel_refl c ls s : same_kernel c ls s s.
Proof. by split. Qed.
Lemma same_kernel_trans c ls s1 s2 s3 :
  same_kernel c ls s1 s2 -> same_kernel c ls s2 s3 -> same_kernel c ls s1 s3.
Proof.
  intros [] []. split; try congruence.
  - intros d Hd. rewrite sk_cpus1 by done. auto.
  - intros i Hi. rewrite sk_locks1 by done. auto.
Qed.
Lemma same_kernel_weaken c ls ls' s s' :
  ls ⊆ ls' -> same_kernel c ls s s' -> same_kernel c ls' s s'.
Proof. intros Hls []. split; try done. intros i Hi. apply sk_locks0. set_solver. Qed.
Lemma same_kernel_set_pt c ls s s' t :
  same_kernel c ls s s' -> same_kernel c ls (set_pt t s) (set_pt t s').
Proof. intros []. by split. Qed.
Lemma set_pt_set_pt s t t' : set_pt t (set_pt t' s) = set_pt t s.
Proof. done. Qed.

Lemma cpu_at_lookup s c n op : cpu_at s c n op -> (c < length (cpus s))%nat.
Proof. intros (k & Hk & _). by apply lookup_lt_Some in Hk. Qed.

Lemma wp_acquire_lk s c i n op (Q : unit -> kstate X -> Prop) :
  cpu_at s c n op -> lock_free s i ->
  (forall s', same_kernel c [i] s s' -> cpu_at s' c (n + 1) op -> lock_held s' i c -> Q tt s') ->
  wp (acquire_lk c i) Q s.
Proof.
  intros (k & Hk & Hok & Hn & Hp) (l & Hl & Hfree) HQ.
  pose proof (lookup_lt_Some _ _ _ Hk). pose proof (lookup_lt_Some _ _ _ Hl).
  eapply wp_on_lock; [done..|]. eapply wp_run; [by apply acquire_free|]. apply HQ.
  - split; try done; cbn.
    + intros d Hd. by rewrite list_lookup_insert_ne.
    + by rewrite length_insert.
    + intros j Hj. rewrite list_lookup_insert_ne; [done|]. set_solver.
  - exists (entered k). cbn. rewrite list_lookup_insert_eq by done.
    split_and!; [done|by apply entered_ok|lia|done].
  - eexists. cbn. rewrite list_lookup_insert_eq by done. split; [done|].
    unfold is_held. cbn. by rewrite bool_decide_eq_true_2.
Qed.

Lemma left_ok k : cpu_ok k -> 1 <= c_ncli k -> cpu_ok (left_cpu k).
Proof.
  intros [H1 H2] Hn. split; cbn; [lia|]. intros. destruct (Z.eqb_spec (c_ncli k) 1); [lia|done].
Qed.

Lemma wp_release_lk s c i n op (Q : unit -> kstate X -> Prop) :
  cpu_at s c n op -> 1 <= n -> lock_held s i c ->
  (forall s', same_kernel c [i] s s' -> cpu_at s' c (n - 1) op -> lock_free s' i -> Q tt s') ->
  wp (release_lk c i) Q s.
Proof.
  intros (k & Hk & Hok & <- & Hp) Hn (l & Hl & Hheld) HQ.
  pose proof (lookup_lt_Some _ _ _ Hk). pose proof (lookup_lt_Some _ _ _ Hl).
  eapply wp_on_lock; [done..|]. eapply wp_run.
  { rewrite release_prefix by done. by rewrite Hheld. }
  apply HQ.
  - split; try done; cbn.
    + intros d Hd. by rewrite list_lookup_insert_ne.
    + by rewrite length_insert.
    + intros j Hj. rewrite list_lookup_insert_ne; [done|]. set_solver.
  - exists (left_cpu k). cbn. rewrite list_lookup_insert_eq by done.
    split_and!; [done|by apply left_ok|done|done].
  - eexists. cbn. by rewrite list_lookup_insert_eq by done.
Qed.

Lemma wp_kmyproc s c n op (Q : option nat -> kstate X -> Prop) :
  cpu_at s c n op ->
  (forall s', same_kernel c [] s s' -> locks s' = locks s -> cpu_at s' c n op -> Q op s') ->
  wp (kmyproc c) Q s.
Proof.
  intros (k & Hk & Hok & Hn & Hp) HQ. pose proof (lookup_lt_Some _ _ _ Hk).
  eapply wp_on_cpu; [done|]. eapply wp_run; [by apply myproc_spec|]. rewrite Hp. apply HQ.
  - split; try done; cbn.
    + intros d Hd. by rewrite list_lookup_insert_ne.
    + by rewrite length_insert.
  - done.
  - exists (settle k). cbn. by rewrite list_lookup_insert_eq by done.
Qed.
Lemma wp_curproc s c n p (Q : nat -> kstate X -> Prop) :
  cpu_at s c n (Some p) ->
  (forall s', same_kernel c [] s s' -> locks s' = locks s -> cpu_at s' c n (Some p) -> Q p s') ->
  wp (curproc c) Q s.
Proof. intros H HQ. apply wp_bind. eapply wp_kmyproc; [done|]. intros. apply wp_nonnull. eauto. Qed.

Lemma lock_held_same s s' i c : locks s' !! i = locks s !! i -> lock_held s i c -> lock_held s' i c.
Proof. unfold lock_held. by intros ->. Qed.
Lemma lock_free_same s s' i : locks s' !! i = locks s !! i -> lock_free s i -> lock_free s' i.
Proof. unfold lock_free. by intros ->. Qed.

(** ** Critical sections *)

(** [acquire; body; release]: a body that succeeds on the table succeeds under
    the lock, which is free again afterwards, whatever the nesting depth. *)
Lemma with_ptable_spec {A} s c n op (m : M ptable A) (R : A -> ptable -> Prop) :
  cpu_at s c n op -> lock_free s PTLOCK -> wp m R (pt s) ->
  wp (with_ptable c m) (fun a s' => exists t', R a t' /\
    same_kernel c [PTLOCK] (set_pt t' s) s' /\ cpu_at s' c n op /\ lock_free s' PTLOCK) s.
Proof.
  intros Hc Hl Hm. pose proof Hc as (k0 & _ & [Hn0 _] & Hk0 & _). apply wp_bind.
  eapply wp_acquire_lk; [done..|]. intros s1 Hs1 Hc1 Hl1. apply wp_bind, wp_lift_pt.
  rewrite (sk_pt _ _ _ _ Hs1). eapply wp_mono; [exact Hm|]. intros a t' HR. apply wp_bind.
  eapply (wp_release_lk _ c _ (n + 1)); [done|lia|done|]. intros s2 Hs2 Hc2 Hl2. apply wp_ret.
  exists t'. split; [done|]. split; [|by replace (n + 1 - 1) with n in Hc2 by lia].
  eapply same_kernel_trans; [|done]. by apply same_kernel_set_pt.
Qed.

(** ** Switching away *)

Lemma wp_cpu_read {A} s c k (m : M cpu A) a (Q : A -> kstate X -> Prop) :
  cpus s !! c = Some k -> m k = Ok (a, k) -> Q a s -> wp (on_cpu c m) Q s.
Proof.
  intros Hk Hm HQ. eapply wp_on_cpu; [done|]. eapply wp_run; [done|].
  rewrite list_insert_id by done. by destruct s.
Qed.

Lemma wp_holding_pt s c n op (Q : bool -> kstate X -> Prop) :
  cpu_at s c n op -> lock_held s PTLOCK c ->
  (forall s', same_kernel c [PTLOCK] s s' -> lock_held s' PTLOCK c -> cpu_at s' c n op ->
     Q true s') ->
  wp (holding_lk c PTLOCK) Q s.
Proof.
  intros (k & Hk & Hok & Hn & Hp) (l & Hl & Hheld) HQ. pose proof (lookup_lt_Some _ _ _ Hk).
  pose proof (lookup_lt_Some _ _ _ Hl).
  eapply wp_on_lock; [done..|]. eapply wp_run; [by apply holding_spec|]. rewrite Hheld. apply HQ.
  - split; try done; cbn.
    + intros d Hd. by rewrite list_lookup_insert_ne.
    + by rewrite length_insert.
    + intros j Hj. rewrite list_lookup_insert_ne; [done|]. set_solver.
  - exists l. cbn. by rewrite list_lookup_insert_eq.
  - exists (settle k). cbn. by rewrite list_lookup_insert_eq by done.
Qed.

(** The time slice is added to the total. *)
Definition tally (now : Z) (r : proc) : proc :=
  set_p_cpu_ticks_total (u32 (p_cpu_ticks_total r + u32 (now - p_cpu_ticks_in r))) r.

(** None of the four panics of [sched] is reachable when the caller holds the table
    lock, and no other, and has already left the state RUNNING. *)
Lemma sched_enter_spec s c p r P L off :
  cpu_at s c 1 (Some p) -> lock_held s PTLOCK c -> table (pt s) P L off ->
  P !! p = Some r -> p_state r <> RUNNING ->
  wp (sched_enter c) (fun _ s' => exists t',
    table t' (alter (tally (ticks s)) p P) L off /\
    same_kernel c [PTLOCK] (set_pt t' s) s' /\ cpu_at s' c 1 (Some p) /\ lock_held s' PTLOCK c) s.
Proof.
  intros Hc Hl H Hr Hst. apply wp_bind. eapply wp_curproc; [done|]. intros s1 Hs1 Hk1 Hc1.
  apply (lock_held_same _ s1) in Hl; [|by rewrite Hk1]. apply wp_bind.
  eapply wp_holding_pt; [done..|]. intros s2 Hs2 Hl2 Hc2. apply wp_bind, wp_panic_if; [done|].
  apply (same_kernel_weaken _ _ [PTLOCK]) in Hs1; [|set_solver].
  pose proof (same_kernel_trans _ _ _ _ _ Hs1 Hs2) as Hs. destruct Hc2 as (k & Hk & Hok & Hn & Hp).
  assert (Hif : c_if k = false) by (apply cpu_ok_if; [done|lia]).
  apply wp_bind. eapply wp_cpu_read; [done| |].
  { unfold mycpu_check, mbind, M_bind, gets, panic_if. cbn. by rewrite Hif. }
  rewrite Hn. apply wp_bind, wp_panic_if; [done|]. apply wp_bind, wp_lift_pt.
  assert (H2 : table (pt s2) P L off) by (by rewrite (sk_pt _ _ _ _ Hs)).
  eapply table_rd; [done..|]. rewrite bool_decide_eq_false_2 by done.
  apply wp_bind, wp_panic_if; [done|]. apply wp_bind.
  eapply (wp_cpu_read _ _ k); [done|done|]. rewrite Hif. apply wp_bind, wp_panic_if; [done|].
  apply wp_bind, wp_gets, wp_bind, wp_lift_pt. 
  eapply table_wr_on; [exact H2|by eapply table_lt|done|done|done|]. intros t' Ht' _.
  eapply (wp_cpu_read _ _ k); [done| |].
  { unfold mycpu_check, mbind, M_bind, gets, panic_if. cbn. by rewrite Hif. }
  exists t'. cbn in Ht'. rewrite (sk_ticks _ _ _ _ Hs) in Ht'. split; [exact Ht'|].
  split; [|split; [by exists k|done]]. by apply (same_kernel_set_pt _ _ _ _ t') in Hs.
Qed.

(** A process that has left the processor: the table is [P], [L] up to the
    accounting of [sched]; the lock is held for the scheduler to release. *)
Definition gone (c p : nat) (ls : list nat) (P : list proc) (L : lists) (off : gset nat) s s' : Prop :=
  exists t', table t' (alter (tally (ticks s)) p P) L off /\
    same_kernel c ls (set_pt t' s) s' /\ cpu_at s' c 1 (Some p) /\ lock_held s' PTLOCK c.

Lemma body_sched s c p r (m : M ptable unit) P L off :
  cpu_at s c 1 (Some p) -> lock_held s PTLOCK c ->
  wp m (fun _ t' => table t' P L off) (pt s) -> P !! p = Some r -> p_state r <> RUNNING ->
  wp (lift_pt m;; sched_enter c) (fun _ s' => gone c p [PTLOCK] P L off s s') s.
Proof.
  intros Hc Hl Hm Hr Hst. apply wp_bind, wp_lift_pt. eapply wp_mono; [exact Hm|].
  intros [] t1 H1. eapply wp_mono; [by eapply sched_enter_spec|].
  intros ? s2 (t2 & H2 & Hs2 & Hc2 & Hl2). by exists t2.
Qed.

Lemma gone_same c p ls ls' P L off s s1 s' :
  same_kernel c ls s s1 -> gone c p ls' P L off s1 s' -> ls ⊆ ls' -> gone c p ls' P L off s s'.
Proof.
  intros Hs (t & H1 & H2 & H3 & H4) Hls. exists t. rewrite (sk_ticks _ _ _ _ Hs) in H1.
  split_and!; [done| |done..]. eapply same_kernel_trans; [|done].
  apply same_kernel_set_pt. by eapply same_kernel_weaken.
Qed.

(** The prologue of [yield]. *)
Lemma cur_acquire {A} s c n p (k : nat -> K X A) (Q : A -> kstate X -> Prop) :
  cpu_at s c n (Some p) -> lock_free s PTLOCK ->
  (forall s', same_kernel c [PTLOCK] s s' -> cpu_at s' c (n + 1) (Some p) ->
     lock_held s' PTLOCK c -> wp (k p) Q s') ->
  wp (cur ← curproc c; acquire_lk c PTLOCK;; k cur) Q s.
Proof.
  intros Hc Hl HQ. apply wp_bind. eapply wp_curproc; [done|]. intros s1 Hs1 Hk1 Hc1.
  apply wp_bind. eapply wp_acquire_lk; [done|eapply lock_free_same; [|done]; by rewrite Hk1|].
  intros s2 Hs2 Hc2 Hl2. apply HQ; [|done..]. eapply same_kernel_trans; [|done].
  eapply same_kernel_weaken; [|done]. set_solver.
Qed.

Lemma yielded_lookup now P L p r :
  P !! p = Some r -> exists r', (yielded now P L p).1 !! p = Some r' /\ p_state r' = RUNNABLE.
Proof.
  intros Hr. eexists. split; [cbn [yielded fst]; rewrite !list_lookup_alter_eq, Hr; reflexivity|].
  by rewrite charge_state.
Qed.

Lemma yield_spec s c p P L off :
  cpu_at s c 0 (Some p) -> lock_free s PTLOCK -> table (pt s) P L off -> p ∈ L (LState RUNNING) ->
  wp (yield_enter c;; sched_enter c) (fun _ s' =>
    gone c p [PTLOCK] (yielded (ticks s) P L p).1 (yielded (ticks s) P L p).2 off s s') s.
Proof.
  intros Hc Hl H Hp. destruct (table_elem _ _ _ H Hp) as (r & Hr & _).
  destruct (yielded_lookup (ticks s) _ L _ _ Hr) as (r' & Hr' & Hst').
  apply wp_bind. eapply cur_acquire; [done..|]. intros s1 Hs1 Hc1 Hl1. apply wp_bind, wp_gets.
  rewrite (sk_ticks _ _ _ _ Hs1). apply wp_unbind.
  eapply wp_mono; [eapply body_sched; [done|done| |exact Hr'|congruence]|].
  { rewrite (sk_pt _ _ _ _ Hs1). by apply yield_body_spec. }
  intros ? s2 Hg. by eapply gone_same.
Qed.

(** ** [sleep] *)

Lemma slept_lookup now ch P L p r :
  P !! p = Some r -> exists r', (slept now ch P L p).1 !! p = Some r' /\ p_state r' = SLEEPING.
Proof.
  intros Hr. eexists. split; [cbn [slept fst]; rewrite ?list_lookup_alter_eq, Hr; reflexivity|].
  done.
Qed.

(** The lock that the caller of [sleep] passes: none, the table lock itself, or
    another lock, the only one the processor holds. *)
Definition sleep_pre s (c p : nat) (lk : option nat) : Prop :=
  match lk with
  | None => cpu_at s c 0 (Some p) /\ lock_free s PTLOCK
  | Some i =>
      cpu_at s c 1 (Some p) /\ lock_held s i c /\ (i <> PTLOCK -> lock_free s PTLOCK)
  end.

Lemma sleep_locks s c p lk :
  sleep_pre s c p lk ->
  wp (if bool_decide (lk <> Some PTLOCK) then
        acquire_lk c PTLOCK;; match lk with Some l => release_lk c l | None => mret tt end
      else mret tt)
     (fun _ s' => same_kernel c (PTLOCK :: option_list lk) s s' /\ cpu_at s' c 1 (Some p) /\
        lock_held s' PTLOCK c /\ forall i, lk = Some i -> i <> PTLOCK -> lock_free s' i) s.
Proof.
  destruct lk as [i|]; cbn [sleep_pre option_list].
  - intros (Hc & Hh & Hf). case_bool_decide as Hne; cycle 1.
    { injection Hne as ->. apply wp_ret. split_and!; [apply same_kernel_refl|done..|].
      congruence. }
    assert (Hi : i <> PTLOCK) by congruence.
    apply wp_bind. eapply wp_acquire_lk; [done|auto|]. intros s1 Hs1 Hc1 Hl1.
    eapply (wp_release_lk _ c _ 2); [done|lia| |].
    { eapply lock_held_same; [|done]. apply (sk_locks _ _ _ _ Hs1). by apply not_in_one. }
    intros s2 Hs2 Hc2 Hl2. split_and!; [|done| |by intros ? [= <-]].
    + eapply same_kernel_trans; [by eapply same_kernel_weaken, Hs1; apply sub_hd|].
      by eapply same_kernel_weaken, Hs2; apply sub_tl.
    + eapply lock_held_same; [|done]. apply (sk_locks _ _ _ _ Hs2). by apply not_in_one.
  - intros [Hc Hf]. rewrite bool_decide_eq_true_2 by done. apply wp_bind.
    eapply wp_acquire_lk; [done..|]. intros s1 Hs1 Hc1 Hl1. by apply wp_ret.
Qed.

Lemma gone_weaken c p ls ls' P L off s s' :
  ls ⊆ ls' -> gone c p ls P L off s s' -> gone c p ls' P L off s s'.
Proof. intros Hls (t & H1 & H2 & H3). exists t. eauto using same_kernel_weaken. Qed.
Lemma sleep_pre_same s s' c p lk n :
  same_kernel c [] s s' -> locks s' = locks s -> cpu_at s c n (Some p) -> cpu_at s' c n (Some p) ->
  sleep_pre s c p lk -> sleep_pre s' c p lk.
Proof.
  intros Hs Hk (k & Hk1 & _ & Hn & _) Hc'. unfold sleep_pre, lock_free, lock_held. rewrite Hk.
  assert (forall m, cpu_at s c m (Some p) -> m = n) as Hu.
  { intros m (k2 & Hk2 & _ & Hm & _). congruence. }
  destruct lk; intros [Hc ?]; rewrite <-(Hu _ Hc) in Hc'; done.
Qed.

Lemma sleep_spec s c p ch lk P L off :
  sleep_pre s c p lk -> table (pt s) P L off -> p ∈ L (LState RUNNING) ->
  wp (sleep_enter c ch lk;; sched_enter c) (fun _ s' =>
    gone c p (PTLOCK :: option_list lk) (slept (ticks s) ch P L p).1 (slept (ticks s) ch P L p).2 off s s' /\
    (forall i, lk = Some i -> i <> PTLOCK -> lock_free s' i)) s.
Proof.
  intros Hpre H Hp. destruct (table_elem _ _ _ H Hp) as (r & Hr & _).
  destruct (slept_lookup (ticks s) ch _ L _ _ Hr) as (r' & Hr' & Hst').
  assert (exists n, cpu_at s c n (Some p)) as [n Hc] by (destruct lk; destruct Hpre; eauto).
  apply wp_bind, wp_bind. eapply wp_kmyproc; [done|]. intros s1 Hs1 Hk1 Hc1.
  eapply sleep_pre_same in Hpre; [|done..].
  apply wp_bind, wp_panic_if; [done|]. apply wp_bind, wp_nonnull, wp_bind.
  eapply wp_mono; [by apply sleep_locks|]. intros [] s2 (Hs2 & Hc2 & Hl2 & Hf).
  apply (same_kernel_weaken _ _ (PTLOCK :: option_list lk)) in Hs1; [|set_solver].
  pose proof (same_kernel_trans _ _ _ _ _ Hs1 Hs2) as Hs.
  apply wp_bind, wp_gets. rewrite (sk_ticks _ _ _ _ Hs). apply wp_bind.
  apply (wp_unbind (lift_pt _) (fun _ => sched_enter c)).
  eapply wp_mono; [eapply body_sched; [done|done| |exact Hr'|congruence]|].
  { rewrite (sk_pt _ _ _ _ Hs). by apply sleep_body_spec. }
  intros ? s3 Hg. split.
  - eapply gone_same; [done| |reflexivity]. eapply gone_weaken; [|exact Hg]. apply sub_hd.
  - intros i Hi Hne. destruct Hg as (t & _ & Hsk & _). eapply lock_free_same; [|by eapply Hf].
    apply (sk_locks _ _ _ _ Hsk). by apply not_in_one.
Qed.

End view.
