(* ===== verification/SchedFacts.v ===== *)
(** The scheduler at the level of the kernel state: promotion when it is due, the
    choice of the process, the switch, and the return to the scheduler. *)

From stdpp Require Import base tactics numbers option list gmap sets strings.
From Stdlib Require Import ZArith Lia.
From S2P Require Import Prelude ProcDefs StateLists PtableRep Spinlock Kernel Proc ProcFacts ProcLife KernelFacts.

(** A process that can be switched to or reaped has a kernel stack and a page
    directory. *)
Definition backed (r : proc) : Prop :=
  p_state r ∈ [SLEEPING; RUNNABLE; RUNNING; ZOMBIE] -> p_kstack r <> None /\ p_pgdir r <> None.

Section sched.
Context {X : Type}.
Implicit Types s : kstate X.

(** A write to the record of processor [c]. *)
Lemma wp_cpu_write s c n op f op' n' (Q : unit -> kstate X -> Prop) :
  cpu_at s c n op ->
  (forall k, cpu_ok k -> c_ncli k = n -> c_proc k = op ->
     cpu_ok (f k) /\ c_ncli (f k) = n' /\ c_proc (f k) = op') ->
  (forall s', same_kernel c [] s s' -> locks s' = locks s -> cpu_at s' c n' op' -> Q tt s') ->
  wp (on_cpu c (modify f)) Q s.
Proof.
  intros (k & Hk & Hok & Hn & Hp) Hf HQ. pose proof (lookup_lt_Some _ _ _ Hk).
  eapply wp_on_cpu; [done|]. apply wp_modify, HQ; [|done|].
  - split; try done; cbn; [|by rewrite length_insert]. intros d Hd. by rewrite list_lookup_insert_ne.
  - exists (f k). cbn. rewrite list_lookup_insert_eq by done. split; [done|]. by apply Hf.
Qed.

(** The same for an operation that runs to a known record. *)
Lemma wp_cpu_run s c n op (m : M cpu unit) f op' n' (Q : unit -> kstate X -> Prop) :
  cpu_at s c n op ->
  (forall k, cpu_ok k -> c_ncli k = n -> c_proc k = op ->
     m k = Ok (tt, f k) /\ cpu_ok (f k) /\ c_ncli (f k) = n' /\ c_proc (f k) = op') ->
  (forall s', same_kernel c [] s s' -> locks s' = locks s -> cpu_at s' c n' op' -> Q tt s') ->
  wp (on_cpu c m) Q s.
Proof.
  intros Hc Hm HQ. pose proof Hc as (k & Hk & Hok & Hn & Hp). destruct (Hm k Hok Hn Hp) as [Hr Hf].
  eapply wp_on_cpu; [done|]. eapply wp_run; [done|].
  enough (wp (on_cpu c (modify f)) Q s) as Hw.
  { unfold wp, on_cpu in Hw. by rewrite Hk in Hw. }
  eapply wp_cpu_write; [done| |done]. intros k' H1 H2 H3. by apply Hm.
Qed.

(** A write that leaves nesting, interrupt flag and process alone. *)
Lemma wp_cpu_same s c n op f (Q : unit -> kstate X -> Prop) :
  cpu_at s c n op ->
  (forall k, c_ncli (f k) = c_ncli k /\ c_if (f k) = c_if k /\ c_proc (f k) = c_proc k) ->
  (forall s', same_kernel c [] s s' -> locks s' = locks s -> cpu_at s' c n op -> Q tt s') ->
  wp (on_cpu c (modify f)) Q s.
Proof.
  intros Hc Hf HQ. eapply wp_cpu_write; [done| |done]. intros k [H1 H2] Hn Hp.
  destruct (Hf k) as (E1 & E2 & E3). unfold cpu_ok. rewrite E1, E2, E3. done.
Qed.

Lemma switchuvm_slot s c n op p r (Q : unit -> kstate X -> Prop) :
  cpu_at s c n op -> procs (pt s) !! p = Some r ->
  p_kstack r <> None -> p_pgdir r <> None ->
  (forall s', same_kernel c [] s s' -> locks s' = locks s -> cpu_at s' c n op -> Q tt s') ->
  wp (switchuvm c p) Q s.
Proof.
  intros Hc Hr Hks Hpd HQ. pose proof Hc as (k0 & _ & [Hn _] & Hn2 & _).
  unfold switchuvm. apply wp_bind, wp_lift_pt. eapply wp_rd; [done|].
  replace (set_pt (pt s) s) with s by (by destruct s).
  rewrite bool_decide_eq_false_2 by done. apply wp_bind, wp_panic_if; [done|].
  apply wp_bind, wp_lift_pt. eapply wp_rd; [done|].
  replace (set_pt (pt s) s) with s by (by destruct s).
  rewrite bool_decide_eq_false_2 by done. apply wp_bind, wp_panic_if; [done|].
  apply wp_bind. eapply (wp_cpu_run _ _ _ _ _ entered op (n + 1)); [done| |].
  { intros k Hk <- <-. rewrite pushcli_spec. split_and!; [done|by apply entered_ok|done..]. }
  intros s1 Hs1 Hk1 Hc1. apply wp_bind. eapply wp_cpu_same; [done|done|].
  intros s2 Hs2 Hk2 Hc2. apply wp_bind. eapply wp_cpu_same; [done|done|].
  intros s3 Hs3 Hk3 Hc3. eapply (wp_cpu_run _ _ _ _ _ left_cpu op n); [done| |].
  { intros k Hk Hkn <-. rewrite popcli_spec by (try apply cpu_ok_if; try done; lia).
    split_and!; [done|apply left_ok; [done|lia]|cbn; lia|done]. }
  intros s4 Hs4 Hk4 Hc4. apply HQ; [|congruence|done].
  do 3 (eapply same_kernel_trans; [done|]). done.
Qed.

Lemma switchuvm_spec s c n op p r P L off (Q : unit -> kstate X -> Prop) :
  cpu_at s c n op -> table (pt s) P L off -> P !! p = Some r ->
  p_kstack r <> None -> p_pgdir r <> None ->
  (forall s', same_kernel c [] s s' -> locks s' = locks s -> cpu_at s' c n op -> Q tt s') ->
  wp (switchuvm c p) Q s.
Proof.
  intros Hc H Hr Hks Hpd HQ. destruct (rep_lookup _ _ _ _ _ _ _ (proj1 H) Hr) as (r0 & Hr0 & ->). by eapply switchuvm_slot.
Qed.

(** Back in the scheduler: the processor is free, and so is the lock. *)
Lemma scheduler_resume_spec s c op :
  cpu_at s c 1 op -> lock_held s PTLOCK c ->
  wp (scheduler_resume c) (fun _ s' =>
    same_kernel c [PTLOCK] s s' /\ cpu_at s' c 0 None /\ lock_free s' PTLOCK) s.
Proof.
  intros Hc Hl. unfold scheduler_resume, switchkvm. apply wp_bind, wp_bind, wp_gets.
  eapply wp_cpu_same; [done|done|]. intros s1 Hs1 Hk1 Hc1.
  apply wp_bind. eapply (wp_cpu_write _ _ _ _ _ None 1); [done|by intros k ? ? ?|].
  intros s2 Hs2 Hk2 Hc2. eapply (wp_release_lk _ c _ 1); [done|lia| |].
  { eapply lock_held_same; [|done]. by rewrite Hk2, Hk1. }
  intros s3 Hs3 Hc3 Hl3. split_and!; [|done..].
  eapply same_kernel_trans; [|done]. eapply same_kernel_weaken, same_kernel_trans; [|done..].
  apply list_subseteq_nil.
Qed.

Lemma scheduler_idle_spec s c :
  cpu_at s c 1 None -> lock_held s PTLOCK c ->
  wp (scheduler_idle c) (fun _ s' =>
    same_kernel c [PTLOCK] s s' /\ cpu_at s' c 0 None /\ lock_free s' PTLOCK) s.
Proof.
  intros Hc Hl. apply wp_bind. eapply (wp_release_lk _ c _ 1); [done|lia|done|].
  intros s1 Hs1 Hc1 Hl1. eapply wp_cpu_write; [done| |].
  { intros k [H1 H2] Hk1 Hk2. split_and!; [|done..]. split; [done|]. cbn. lia. }
  intros s2 Hs2 Hk2 Hc2. split_and!; [|done|].
  - eapply same_kernel_trans; [done|]. eapply same_kernel_weaken; [|done]. apply list_subseteq_nil.
  - eapply lock_free_same; [|done]. by rewrite Hk2.
Qed.

(** ** The choice *)

Definition descending : list nat := reverse (seq 0 (S MAXPRIO)).
Lemma descending_ok : Forall (fun i => (i <= MAXPRIO)%nat) descending.
Proof. apply Forall_forall. intros i. unfold descending. rewrite elem_of_reverse, elem_of_seq. lia. Qed.

(** The outcome of [scheduler_dispatch]. *)
Definition dispatch_post (c : nat) (P : list proc) (L : lists) (off : gset nat)
    s (o : option nat) s' : Prop :=
  match best_ready L descending with
  | None => o = None /\ same_kernel c [PTLOCK] s s' /\ cpu_at s' c 1 None
  | Some (i, p) => o = Some p /\ cpu_at s' c 1 (Some p) /\ exists t',
      table t' (dispatched (ticks s) P L i p).1 (dispatched (ticks s) P L i p).2 off /\
      same_kernel c [PTLOCK] (set_pt t' s) s'
  end /\ lock_held s' PTLOCK c.

Lemma scheduler_dispatch_spec s c P L off :
  cpu_at s c 0 None -> lock_free s PTLOCK -> table (pt s) P L off -> Forall backed P ->
  wp (scheduler_dispatch c) (dispatch_post c P L off s) s.
Proof.
  intros Hc Hl H Hb. unfold scheduler_dispatch, dispatch_post. apply wp_bind.
  eapply wp_acquire_lk; [done..|]. intros s1 Hs1 Hc1 Hl1.
  assert (H1 : table (pt s1) P L off) by (by rewrite (sk_pt _ _ _ _ Hs1)).
  apply wp_bind, wp_lift_pt. eapply wp_mono; [eapply pick_from_spec; [exact H1|apply descending_ok]|].
  intros o t' [-> ->]. replace (set_pt (pt s1) s1) with s1 by (by destruct s1). fold descending.
  destruct (best_ready L descending) as [[i p]|] eqn:Eb; [|by apply wp_ret].
  apply best_ready_Some in Eb as (a & b & xs & Hd & _ & Hi).
  assert (Hp : p ∈ L (LReady i)) by (rewrite Hi; by left).
  destruct (table_elem _ _ _ H Hp) as (r & Hr & Hh & _). destruct (home_ready _ _ Hh) as [Hst _].
  rewrite Forall_lookup in Hb. destruct (Hb _ _ Hr) as [Hks Hpd].
  { rewrite Hst. apply (bool_decide_unpack _). done. }
  apply wp_bind. eapply (wp_cpu_write _ _ _ _ _ (Some p) 1); [done|by intros k ? ? ?|].
  intros s2 Hs2 Hk2 Hc2. assert (H2 : table (pt s2) P L off) by (by rewrite (sk_pt _ _ _ _ Hs2)).
  apply wp_bind. eapply switchuvm_spec; [done..|]. intros s3 Hs3 Hk3 Hc3.
  apply wp_bind, wp_gets, wp_bind, wp_lift_pt.
  assert (Hs : same_kernel c [PTLOCK] s s3).
  { eapply same_kernel_trans; [done|]. eapply same_kernel_weaken, same_kernel_trans; [|done..].
    apply list_subseteq_nil. }
  rewrite (sk_ticks _ _ _ _ Hs), (sk_pt _ _ _ _ Hs).
  eapply wp_mono; [by eapply dispatch_spec|]. intros [] t' Ht'. apply wp_ret.
  split; [split_and!; [done|exact Hc3|]|].
  - exists t'. split; [done|]. by apply same_kernel_set_pt.
  - eapply (lock_held_same s1); [|done]. cbn. by rewrite Hk3, Hk2.
Qed.

(** Promotion. *)
Definition promote_post (c : nat) (P : list proc) (L : lists) (off : gset nat) s s' : Prop :=
  cpu_at s' c 0 None /\ lock_free s' PTLOCK /\
  if PromoteAtTime s <=? ticks s then
    exists t', table t' (promoted_slots off P) (promoted_lists L) off /\
      same_kernel c [PTLOCK] (set_PromoteAtTime (u32 (ticks s + TICKS_TO_PROMOTE)) (set_pt t' s)) s'
  else same_kernel c [PTLOCK] s s'.

Lemma scheduler_promote_spec s c P L off :
  cpu_at s c 0 None -> lock_free s PTLOCK -> table (pt s) P L off ->
  wp (scheduler_promote c) (fun _ s' => promote_post c P L off s s') s.
Proof.
  intros Hc Hl H. unfold scheduler_promote, promote_post. apply wp_bind.
  eapply (wp_cpu_write _ _ _ _ _ None 0); [done| |].
  { intros k [H1 H2] Hk1 Hk2. split_and!; [|done..]. split; [done|]. cbn. lia. }
  intros s0 Hs0 Hk0 Hc0. apply wp_bind. eapply wp_acquire_lk; [done| |].
  { eapply lock_free_same; [|done]. by rewrite Hk0. }
  intros s1 Hs1 Hc1 Hl1. apply wp_bind, wp_gets, wp_bind, wp_gets.
  apply (same_kernel_weaken _ _ [PTLOCK]) in Hs0; [|apply list_subseteq_nil].
  pose proof (same_kernel_trans _ _ _ _ _ Hs0 Hs1) as Hs.
  rewrite (sk_ticks _ _ _ _ Hs), (sk_promote _ _ _ _ Hs). apply wp_bind.
  rewrite (bool_decide_eq_true_2 (MAXPRIO <> 0%nat)), andb_true_r by done.
  destruct (PromoteAtTime s <=? ticks s).
  - apply wp_bind, wp_lift_pt. rewrite (sk_pt _ _ _ _ Hs).
    eapply wp_mono; [by apply promote_all_spec|]. intros [] t' Ht'. apply wp_modify.
    eapply (wp_release_lk _ c _ 1); [done|lia|done|]. intros s2 Hs2 Hc2 Hl2.
    split_and!; [done..|]. exists t'. split; [done|]. eapply same_kernel_trans; [|exact Hs2].
    destruct Hs. by split.
  - apply wp_ret. eapply (wp_release_lk _ c _ 1); [done|lia|done|]. intros s2 Hs2 Hc2 Hl2.
    split_and!; [done..|]. by eapply same_kernel_trans.
Qed.

End sched.
