(* ===== verification/System.v ===== *)
(** The process system as a transition system.

    Processors interleave at the granularity of lock operations and critical
    sections of proc.c.  A step is the execution of the code of Proc.v on one
    processor; [reachable] closes the steps under every interleaving.  The
    invariant [sysinv] then gives the safety of the whole: no step panics or
    faults, no process is on two lists or two processors. *)

From stdpp Require Import base tactics numbers option list gmap fin_maps sets strings.
From Stdlib Require Import ZArith Lia.
From S2P Require Import Prelude ProcDefs StateLists PtableRep Spinlock Kernel Proc ProcFacts ProcLife KernelFacts SchedFacts.

(** * Configurations *)

(** Who holds the table lock: nobody, the process [p] on processor [c], or the
    scheduler of [c] right after [p] called [sched]. *)
Inductive holder := Free | ByProc (c p : nat) | ByScheduler (c p : nat).

(** A slot under construction: allocated and still on the EMBRYO list, taken off it
    by [fork], or given up after [copyuvm] failed. *)
Inductive stage := Fresh | Transit | Doomed.
#[export] Instance stage_eq_dec : EqDecision stage.
Proof. solve_decision. Defined.

Section system.
Context {X : Type}.

Record sys := MkSys {
  ks : kstate X;
  mode : holder;
  pend : gmap nat stage
}.

(** Slots on no list. *)
Definition off_lists (m : gmap nat stage) : gset nat :=
  dom (filter (fun kv => kv.2 <> Fresh) m).

(** * Steps *)

(** The bodies that a process runs while it holds the lock and keeps running. *)
Inductive body :=
  | BKill (pid : Z)
  | BSetpriority (pid priority : Z)
  | BGetpriority (pid : Z)
  | BWakeup (ch : chan).
Definition run_body (b : body) : M ptable unit :=
  match b with
  | BKill pid => kill_body pid;; mret tt
  | BSetpriority pid priority => setpriority_body pid priority;; mret tt
  | BGetpriority pid => getpriority_body pid;; mret tt
  | BWakeup ch => wakeup1 ch
  end.

(** The ways to leave the processor. *)
Inductive leave := LvYield | LvSleep (ch : chan) | LvExit.
Definition run_leave (lv : leave) (now : Z) (p : nat) (init : option nat) : M ptable unit :=
  match lv with
  | LvYield => yield_body now p
  | LvSleep ch => sleep_body now ch p
  | LvExit => exit_body now p init
  end.

(** [wait]: reap a zombie child if there is one. *)
Definition wait_reap (cur : nat) : M ptable unit :=
  r ← wait_scan cur;
  match r with
  | Return z => wr (set_p_kstack None) z;; reap z
  | Continue _ => mret tt
  end.

Inductive op :=
  | OAcquire (c : nat) | ORelease (c : nat)
  | OPush (c : nat) | OPop (c : nat)                  (* other locks *)
  | OBody (c : nat) (b : body)
  | OInterrupt (c : nat) (ch : chan)                  (* wakeup() from a handler *)
  | OAlloc (c : nat) | OUnalloc (c np : nat)          (* allocproc *)
  | ODetach (c np : nat) | OPublish (c np : nat)      (* fork *)
  | OMark (np : nat) | ORecycle (c np : nat)          (* fork, copyuvm failed *)
  | OFill (np : nat) (f : proc -> proc)               (* unlocked writes to a new slot *)
  | OSelf (c : nat) (f : proc -> proc)                (* a process writes its own slot *)
  | OReap (c : nat)                                   (* wait *)
  | OLeave (c : nat) (lv : leave)                     (* yield, sleep, exit up to swtch *)
  | OResume (c : nat)                                 (* scheduler after swtch *)
  | OPromote (c : nat) | ODispatch (c : nat)          (* scheduler before swtch *)
  | OTick | OExt (x : X).

Definition put_ks (m : K X unit) (σ : sys) (md : holder) (pd : gmap nat stage) : outcome sys :=
  match m (ks σ) with Ok (_, s) => Ok (MkSys s md pd) | Err e => Err e end.
Definition runner (σ : sys) (c : nat) : option nat := cpus (ks σ) !! c ≫= c_proc.

(** [yield], [sleep] and [exit] with the lock held, up to the switch. *)
Definition leave_code (c : nat) (lv : leave) : K X unit :=
  p ← curproc c;
  now ← gets ticks;
  init ← gets initproc;
  lift_pt (run_leave lv now p init);;
  sched_enter c;;
  mret tt.

Definition exec (o : op) (σ : sys) : outcome sys :=
  let md := mode σ in let pd := pend σ in
  match o with
  | OAcquire c =>
      put_ks (acquire_lk c PTLOCK) σ (from_option (ByProc c) md (runner σ c)) pd
  | ORelease c => put_ks (release_lk c PTLOCK) σ Free pd
  | OPush c => put_ks (on_cpu c pushcli) σ md pd
  | OPop c => put_ks (on_cpu c popcli) σ md pd
  | OBody c b => put_ks (lift_pt (run_body b)) σ md pd
  | OInterrupt c ch => put_ks (with_ptable c (wakeup1 ch)) σ md pd
  | OAlloc c =>
      match alloc_take (ks σ) with
      | Ok (Some p, s) => Ok (MkSys s md (<[p := Fresh]> pd))
      | Ok (None, s) => Ok (MkSys s md pd)
      | Err e => Err e
      end
  | OUnalloc c np => put_ks (lift_pt (unalloc_move np)) σ md (delete np pd)
  | ODetach c np => put_ks (lift_pt (fork_detach np)) σ md (<[np := Transit]> pd)
  | OPublish c np => put_ks (lift_pt (fork_publish np)) σ md (delete np pd)
  | OMark np => put_ks (lift_pt (wr (set_p_state UNUSED) np)) σ md (<[np := Doomed]> pd)
  | ORecycle c np => put_ks (lift_pt (stateListAdd (LState UNUSED) np)) σ md (delete np pd)
  | OFill np f => put_ks (lift_pt (wr f np)) σ md pd
  | OSelf c f =>
      put_ks (match runner σ c with Some p => lift_pt (wr f p) | None => mret tt end) σ md pd
  | OReap c =>
      put_ks (match runner σ c with Some p => lift_pt (wait_reap p) | None => mret tt end) σ md pd
  | OLeave c lv =>
      put_ks (leave_code c lv) σ (from_option (ByScheduler c) md (runner σ c)) pd
  | OResume c => put_ks (scheduler_resume c) σ Free pd
  | OPromote c => put_ks (scheduler_promote c) σ md pd
  | ODispatch c =>
      match scheduler_dispatch c (ks σ) with
      | Ok (Some p, s) => Ok (MkSys s (ByProc c p) pd)
      | Ok (None, s) =>
          match scheduler_idle c s with Ok (_, s') => Ok (MkSys s' Free pd) | Err e => Err e end
      | Err e => Err e
      end
  | OTick => put_ks (modify (fun s => set_ticks (u32 (ticks s + 1)) s)) σ md pd
  | OExt x => put_ks (modify (set_ext x)) σ md pd
  end.

(** Writes that stay away from the list links, the state and the priority bound. *)
Definition private (f : proc -> proc) : Prop :=
  (forall r, set_p_next None (f r) = f (set_p_next None r)) /\
  (forall r, p_next (f r) = p_next r) /\
  (forall r, p_state (f r) = p_state r) /\
  (forall r, prio_ok r -> prio_ok (f r)).
(** A process keeps its kernel stack and a page directory, and its priority. *)
Definition self_write (f : proc -> proc) : Prop :=
  private f /\ (forall r, p_priority (f r) = p_priority r) /\
  (forall r, p_kstack (f r) = p_kstack r) /\
  (forall r, p_pgdir r <> None -> p_pgdir (f r) <> None).

Definition depth (σ : sys) (c : nat) : option Z := c_ncli <$> cpus (ks σ) !! c.

(** When a step may be taken: the program points of the routines. *)
Definition guard (σ : sys) (o : op) : Prop :=
  match o with
  | OAcquire c => mode σ = Free /\ is_Some (runner σ c)
  | ORelease c => exists p, mode σ = ByProc c p
  | OPush c => is_Some (cpus (ks σ) !! c) /\ (forall p, mode σ <> ByScheduler c p)
  | OPop c => (forall p, mode σ <> ByScheduler c p) /\ exists n, depth σ c = Some n /\
      match mode σ with ByProc d _ => if decide (d = c) then 2 <= n else 1 <= n | _ => 1 <= n end
  | OBody c b => (exists p, mode σ = ByProc c p) /\
      match b with BSetpriority _ priority => 0 <= priority <= Z.of_nat MAXPRIO | _ => True end
  | OInterrupt c ch => mode σ = Free /\ is_Some (cpus (ks σ) !! c)
  | OAlloc c => exists p, mode σ = ByProc c p
  | OUnalloc c np => (exists p, mode σ = ByProc c p) /\ pend σ !! np = Some Fresh
  | ODetach c np => (exists p, mode σ = ByProc c p) /\ pend σ !! np = Some Fresh
  | OPublish c np => (exists p, mode σ = ByProc c p) /\ pend σ !! np = Some Transit /\
      exists r, procs (pt (ks σ)) !! np = Some r /\ p_kstack r <> None /\ p_pgdir r <> None
  | OMark np => pend σ !! np = Some Transit
  | ORecycle c np => (exists p, mode σ = ByProc c p) /\ pend σ !! np = Some Doomed
  | OFill np f => private f /\ (pend σ !! np = Some Fresh \/ pend σ !! np = Some Transit)
  | OSelf c f => self_write f /\ forall p, mode σ <> ByScheduler c p
  | OReap c => exists p, mode σ = ByProc c p
  | OLeave c lv => (exists p, mode σ = ByProc c p /\ (lv = LvExit -> initproc (ks σ) <> Some p)) /\
      depth σ c = Some 1
  | OResume c => exists p, mode σ = ByScheduler c p
  | OPromote c | ODispatch c => mode σ = Free /\ runner σ c = None /\ depth σ c = Some 0
  | OTick | OExt _ => True
  end.

(** Everything the interleaved processors can do from [σ0]. *)
Inductive reachable (σ0 : sys) : sys -> Prop :=
  | reach_init : reachable σ0 σ0
  | reach_step σ o σ' : reachable σ0 σ -> guard σ o -> exec o σ = Ok σ' -> reachable σ0 σ'.

(** * The invariant *)

(** What the holder of the lock entails. *)
Definition mode_ok (s : kstate X) (md : holder) : Prop :=
  match md with
  | Free => lock_free s PTLOCK
  | ByProc c p => lock_held s PTLOCK c /\ exists n, 1 <= n /\ cpu_at s c n (Some p)
  | ByScheduler c p => lock_held s PTLOCK c /\ cpu_at s c 1 (Some p)
  end.

(** The table is [P] and [L]; every slot off the lists is under construction; the
    running processes are the ones on the processors, each on one. *)
Record inv_at (σ : sys) (P : list proc) (L : lists) : Prop := {
  ia_table : table (pt (ks σ)) P L (off_lists (pend σ));
  ia_backed : Forall backed P;
  ia_fresh : forall q, pend σ !! q = Some Fresh -> q ∈ L (LState EMBRYO);
  ia_stage : forall q st, pend σ !! q = Some st -> st <> Fresh ->
    exists r, P !! q = Some r /\ p_state r = if decide (st = Transit) then EMBRYO else UNUSED;
  ia_cpus : forall d k, cpus (ks σ) !! d = Some k -> cpu_ok k;
  ia_run : forall p, p ∈ L (LState RUNNING) <->
    exists d, runner σ d = Some p /\ mode σ <> ByScheduler d p;
  ia_one : forall d d' p, runner σ d = Some p -> runner σ d' = Some p -> d = d';
  ia_mode : mode_ok (ks σ) (mode σ)
}.
Definition sysinv (σ : sys) : Prop := exists P L, inv_at σ P L.

(** ** Slots under construction *)

Lemma elem_off m q : q ∈ off_lists m <-> exists st, m !! q = Some st /\ st <> Fresh.
Proof.
  unfold off_lists. rewrite elem_of_dom. unfold is_Some. split.
  - intros [st [H1 H2]%map_lookup_filter_Some]. eauto.
  - intros (st & H1 & H2). exists st. by apply map_lookup_filter_Some.
Qed.
Lemma off_insert_fresh m q : q ∉ off_lists m -> off_lists (<[q := Fresh]> m) ≡ off_lists m.
Proof.
  intros Hq x. rewrite !elem_off. destruct (decide (x = q)) as [->|Hne].
  - rewrite lookup_insert_eq. split; [by intros (st & [= <-] & ?)|].
    intros H. destruct Hq. by apply elem_off.
  - by rewrite lookup_insert_ne.
Qed.
Lemma off_insert m q st : st <> Fresh -> off_lists (<[q := st]> m) ≡ off_lists m ∪ {[q]}.
Proof.
  intros Hst x. rewrite elem_of_union, elem_of_singleton, !elem_off.
  destruct (decide (x = q)) as [->|Hne].
  - rewrite lookup_insert_eq. split; [by right|]. intros _. eauto.
  - rewrite lookup_insert_ne by done. tauto.
Qed.
Lemma off_delete m q : off_lists (delete q m) ≡ off_lists m ∖ {[q]}.
Proof.
  intros x. rewrite elem_of_difference, elem_of_singleton, !elem_off.
  destruct (decide (x = q)) as [->|Hne].
  - rewrite lookup_delete_eq. split; [by intros (st & [=] & _)|tauto].
  - rewrite lookup_delete_ne by done. tauto.
Qed.
Lemma off_delete_fresh m q : m !! q = Some Fresh -> off_lists (delete q m) ≡ off_lists m.
Proof.
  intros Hq x. rewrite off_delete, elem_of_difference, elem_of_singleton. split; [tauto|].
  intros Hx. split; [done|]. intros ->. apply elem_off in Hx as (st & Hst & ?). congruence.
Qed.

(** ** Steps that change the table only *)

Lemma put_pt (m : M ptable unit) R σ md pd :
  wp m (fun _ t' => R t') (pt (ks σ)) ->
  exists t', put_ks (lift_pt m) σ md pd = Ok (MkSys (set_pt t' (ks σ)) md pd) /\ R t'.
Proof.
  unfold put_ks, lift_pt, zoom, wp. destruct (m (pt (ks σ))) as [[[] t']|e]; [|done]. eauto.
Qed.

Lemma inv_pt σ P L P' L' t' pd' :
  inv_at σ P L -> table t' P' L' (off_lists pd') -> Forall backed P' ->
  (forall q, pd' !! q = Some Fresh -> q ∈ L' (LState EMBRYO)) ->
  (forall q st, pd' !! q = Some st -> st <> Fresh ->
     exists r, P' !! q = Some r /\ p_state r = if decide (st = Transit) then EMBRYO else UNUSED) ->
  L' (LState RUNNING) = L (LState RUNNING) ->
  inv_at (MkSys (set_pt t' (ks σ)) (mode σ) pd') P' L'.
Proof.
  intros [] Ht Hb Hf Hs HL. split; try done.
  intros p. cbn. rewrite HL. apply ia_run0.
Qed.

(** Changes that keep everyone's stack and page directory, and wake at most. *)
Record quiet (P : list proc) (L : lists) (P' : list proc) (L' : lists) : Prop := {
  q_slot : forall p r', P' !! p = Some r' -> exists r, P !! p = Some r /\
    p_kstack r' = p_kstack r /\ p_pgdir r' = p_pgdir r /\
    (p_state r' = p_state r \/ p_state r = SLEEPING /\ p_state r' = RUNNABLE);
  q_lists : forall st, st <> SLEEPING -> L' (LState st) = L (LState st)
}.

Lemma quiet_backed P L P' L' : quiet P L P' L' -> Forall backed P -> Forall backed P'.
Proof.
  intros [Hq _]. rewrite !Forall_lookup. intros Hb p r' Hr'.
  destruct (Hq _ _ Hr') as (r & Hr & E1 & E2 & E3). specialize (Hb _ _ Hr).
  unfold backed in *. rewrite E1, E2. destruct E3 as [->|[E ->]]; [done|]. rewrite E in Hb.
  intros _. apply Hb. set_solver.
Qed.

Lemma quiet_stage (pd : gmap nat stage) P L P' L' :
  quiet P L P' L' -> length P' = length P ->
  (forall q st, pd !! q = Some st -> st <> Fresh ->
     exists r, P !! q = Some r /\ p_state r = if decide (st = Transit) then EMBRYO else UNUSED) ->
  forall q st, pd !! q = Some st -> st <> Fresh ->
     exists r, P' !! q = Some r /\ p_state r = if decide (st = Transit) then EMBRYO else UNUSED.
Proof.
  intros Hq Hlen HS q st Hst Hne. destruct (HS _ _ Hst Hne) as (r & Hr & Hs).
  assert (exists r', P' !! q = Some r') as [r' Hr'].
  { apply lookup_lt_is_Some. rewrite Hlen. by eapply lookup_lt_Some. }
  exists r'. split; [done|]. destruct (q_slot _ _ _ _ Hq _ _ Hr') as (r0 & Hr0 & _ & _ & Hd).
  simplify_eq. rewrite <-Hs. destruct Hd as [|[E _]]; [done|]. rewrite Hs in E.
  by destruct (decide (st = Transit)).
Qed.

Lemma inv_quiet σ P L P' L' t' :
  inv_at σ P L -> table t' P' L' (off_lists (pend σ)) -> quiet P L P' L' ->
  inv_at (MkSys (set_pt t' (ks σ)) (mode σ) (pend σ)) P' L'.
Proof.
  intros HI Ht Hq. eapply inv_pt; [done|done| | | |].
  - eapply quiet_backed; [done|]. by destruct HI.
  - intros q Hf. rewrite (q_lists _ _ _ _ Hq) by done. by eapply ia_fresh.
  - eapply quiet_stage; [done| |apply HI]. rewrite (rep_len _ _ _ _ _ (proj1 Ht)).
    symmetry. apply (rep_len _ _ _ _ _ (proj1 (ia_table _ _ _ HI))).
  - by apply (q_lists _ _ _ _ Hq).
Qed.

Lemma quiet_refl P L : quiet P L P L.
Proof. split; [|done]. intros p r Hr. exists r. auto. Qed.
Lemma quiet_trans P L P1 L1 P2 L2 : quiet P L P1 L1 -> quiet P1 L1 P2 L2 -> quiet P L P2 L2.
Proof.
  intros [H1 E1] [H2 E2]. split.
  - intros p r2 Hr2. destruct (H2 _ _ Hr2) as (r1 & Hr1 & A1 & A2 & A3).
    destruct (H1 _ _ Hr1) as (r & Hr & B1 & B2 & B3). exists r. split_and!; [done|congruence..|].
    destruct A3 as [->|[? ->]], B3 as [B3|[? B3]]; rewrite ?B3 in *; auto; congruence.
  - intros st Hst. by rewrite E2, E1.
Qed.
Definition still (f : proc -> proc) : Prop :=
  forall r, p_kstack (f r) = p_kstack r /\ p_pgdir (f r) = p_pgdir r /\ p_state (f r) = p_state r.
Lemma quiet_alter f p P L L' :
  still f -> (forall st, L' (LState st) = L (LState st)) -> quiet P L (alter f p P) L'.
Proof.
  intros Hf HL. split; [|auto]. intros q r'. destruct (decide (q = p)) as [->|].
  - rewrite list_lookup_alter_eq. destruct (P !! p) as [r|] eqn:E; [|done]. intros [= <-].
    destruct (Hf r) as (E1 & E2 & E3). eauto 6.
  - rewrite list_lookup_alter_ne by done. eauto 8.
Qed.
Lemma lmove_ready (L : lists) p i j st : lmove L p (ready_lid i) (ready_lid j) (LState st) = L (LState st).
Proof. apply lmove_other; unfold ready_lid; by case_match. Qed.

Lemma quiet_woken P L p r : P !! p = Some r -> p_state r = SLEEPING ->
  quiet P L (woken P L (Some p)).1 (woken P L (Some p)).2.
Proof.
  intros Hr Hst. split; cbn [woken fst snd].
  - intros q r'. destruct (decide (q = p)) as [->|].
    + rewrite list_lookup_alter_eq, Hr. intros [= <-]. eauto 8.
    + rewrite list_lookup_alter_ne by done. eauto 8.
  - intros st Hne. apply lmove_other; [congruence|]. unfold ready_lid. by case_match.
Qed.
Lemma quiet_wake ch P L : quiet P L (wake_step ch (P, L)).1 (wake_step ch (P, L)).2.
Proof.
  unfold wake_step. cbn [fst snd]. destruct (first_sleeper P L ch) as [p|] eqn:E; [|apply quiet_refl].
  apply find_elem in E as [_ Hm]. destruct (matches_Some _ _ _ Hm) as (r & Hr & Ht).
  apply andb_true_iff in Ht as [Hst%bool_decide_eq_true _]. by eapply quiet_woken.
Qed.

Lemma quiet_killed P L p : quiet P L (killed_at P L p).1 (killed_at P L p).2.
Proof.
  unfold killed_at. assert (Hq : quiet P L (alter (set_p_killed 1) p P) L) by (by apply quiet_alter).
  destruct (bool_decide_reflect (p_state <$> P !! p = Some SLEEPING)) as [E|]; [|done].
  destruct (P !! p) as [r|] eqn:Hr; [|done]. cbn in E. injection E as E.
  eapply quiet_trans; [done|]. eapply quiet_woken; [by apply lookup_alter_Some|done].
Qed.
Lemma quiet_reprioritised prio P L p :
  quiet P L (reprioritised prio P L p).1 (reprioritised prio P L p).2.
Proof.
  unfold reprioritised. destruct (P !! p) as [r|]; [|apply quiet_refl].
  destruct (_ =? _); [apply quiet_refl|]. apply quiet_alter; [done|].
  intros st. case_bool_decide; [|done]. apply lmove_ready.
Qed.
Lemma quiet_promoted off P L : quiet P L (promoted_slots off P) (promoted_lists L).
Proof.
  split; [|done]. intros p r'. unfold promoted_slots. rewrite list_lookup_imap.
  destruct (P !! p) as [r|]; [|done]. cbn. intros [= <-]. exists r. split; [done|].
  destruct (_ && _); [|auto]. unfold promote1. destruct (_ <? _); cbn; auto.
Qed.

(** The locked bodies keep the invariant. *)
Lemma run_body_quiet b t P L off :
  table t P L off ->
  match b with BSetpriority _ priority => 0 <= priority <= Z.of_nat MAXPRIO | _ => True end ->
  wp (run_body b) (fun _ t' => exists P' L', table t' P' L' off /\ quiet P L P' L') t.
Proof.
  intros H Hb. destruct b as [pid|pid prio|pid|ch]; cbn [run_body].
  - apply wp_bind. eapply wp_mono; [by apply kill_body_spec|]. intros v t' Ht'. apply wp_ret.
    destruct (kill_target P L pid); destruct Ht' as [_ Ht']; eauto using quiet_killed, quiet_refl.
  - apply wp_bind. eapply wp_mono; [by apply setpriority_body_spec|]. intros v t' Ht'. apply wp_ret.
    destruct (prio_target P L pid); destruct Ht' as [_ Ht']; eauto using quiet_reprioritised, quiet_refl.
  - apply wp_bind. eapply wp_mono; [by eapply getpriority_body_spec|]. intros v t' [-> _].
    apply wp_ret. eauto using quiet_refl.
  - eapply wp_mono; [by apply wakeup1_spec|]. intros [] t' Ht'. eexists _, _. split; [exact Ht'|].
    apply quiet_wake.
Qed.

End system.
