(* ===== verification/SystemFacts.v ===== *)
(** Safety of the process system: every step that the code can take from a reachable
    configuration succeeds and keeps the invariant of System.v. *)

From stdpp Require Import base tactics numbers option list gmap fin_maps sets strings.
From Stdlib Require Import ZArith Lia.
From S2P Require Import Prelude ProcDefs StateLists PtableRep Spinlock Kernel Proc ProcFacts ProcLife KernelFacts SchedFacts System.

Section safety.
Context {X : Type}.
Implicit Types σ : sys (X := X).

Lemma put_wp (m : K X unit) R σ md pd :
  wp m (fun _ s' => R s') (ks σ) ->
  exists s', put_ks m σ md pd = Ok (MkSys s' md pd) /\ R s'.
Proof. unfold put_ks, wp. destruct (m (ks σ)) as [[[] s']|e]; [|done]. eauto. Qed.

Lemma runner_cpu σ c op n : cpu_at (ks σ) c n op -> runner σ c = op.
Proof. intros (k & Hk & _ & _ & Hp). unfold runner. by rewrite Hk. Qed.
Lemma cpu_runner σ P L c k : inv_at σ P L -> cpus (ks σ) !! c = Some k ->
  cpu_at (ks σ) c (c_ncli k) (runner σ c) /\ 0 <= c_ncli k.
Proof.
  intros HI Hk. pose proof (ia_cpus _ _ _ HI _ _ Hk) as Hok. unfold runner. rewrite Hk.
  split; [by exists k|apply Hok].
Qed.
Lemma runner_Some σ c p : runner σ c = Some p -> exists k, cpus (ks σ) !! c = Some k.
Proof. unfold runner. destruct (cpus (ks σ) !! c); [eauto|done]. Qed.

(** Locking on processor [c] does not move processes. *)
Lemma runner_same σ c ls s' md pd n op :
  same_kernel c ls (ks σ) s' -> cpu_at s' c n op -> runner σ c = op ->
  forall d, runner (MkSys s' md pd) d = runner σ d.
Proof.
  intros Hs Hc Hr d. destruct (decide (d = c)) as [->|Hne].
  - rewrite Hr. by eapply (runner_cpu (MkSys s' md pd)).
  - unfold runner. cbn. by rewrite (sk_cpus _ _ _ _ Hs).
Qed.
Lemma cpus_same σ P L c ls s' n op d k :
  inv_at σ P L -> same_kernel c ls (ks σ) s' -> cpu_at s' c n op ->
  cpus s' !! d = Some k -> cpu_ok k.
Proof.
  intros HI Hs (k0 & Hk0 & Hok & _) Hk. destruct (decide (d = c)) as [->|Hne]; [congruence|].
  rewrite (sk_cpus _ _ _ _ Hs) in Hk by done. by eapply ia_cpus.
Qed.

(** A step of processor [c] that leaves the table and the processes in place. *)
Lemma inv_cpu σ P L c ls s' n op md' :
  inv_at σ P L -> same_kernel c ls (ks σ) s' -> cpu_at s' c n op -> runner σ c = op ->
  mode_ok s' md' -> (forall d p, mode σ = ByScheduler d p <-> md' = ByScheduler d p) ->
  inv_at (MkSys s' md' (pend σ)) P L.
Proof.
  intros HI Hs Hc Hr Hm Hmd. pose proof (runner_same σ c ls s' md' (pend σ) _ _ Hs Hc Hr) as Hrun.
  destruct HI. split; try done; cbn.
  - by rewrite (sk_pt _ _ _ _ Hs).
  - intros d k. by eapply (cpus_same σ P L).
  - intros p. rewrite ia_run. split; intros (d & H1 & H2); exists d; specialize (Hmd d p);
      rewrite Hrun in *; tauto.
  - intros d d' p. rewrite !Hrun. apply ia_one.
Qed.

(** Another processor's hold on the lock survives. *)
Lemma mode_other (s s' : kstate X) c md n op :
  same_kernel c [] s s' -> locks s' = locks s -> cpu_at s' c n op ->
  mode_ok s md ->
  (forall d p, md = ByProc d p -> d = c -> op = Some p /\ 1 <= n) ->
  (forall d p, md = ByScheduler d p -> d <> c) ->
  mode_ok s' md.
Proof.
  intros Hs Hl Hc Hm Hp Hsc.
  assert (Ho : forall d m q, d <> c -> cpu_at s d m q -> cpu_at s' d m q).
  { intros d m q Hd (k & Hk & Hr). exists k. by rewrite (sk_cpus _ _ _ _ Hs). }
  destruct md as [|d p|d p]; cbn in *; unfold lock_free, lock_held in *; rewrite Hl.
  - done.
  - destruct Hm as [Hh (m & Hm & Hc')]. split; [done|]. destruct (decide (d = c)) as [->|Hne].
    + destruct (Hp _ _ eq_refl eq_refl) as [-> Hn]. eauto.
    + exists m. eauto.
  - destruct Hm as [Hh Hc']. split; [done|]. specialize (Hsc _ _ eq_refl). eauto.
Qed.

(** The scalars of the kernel are not part of the invariant. *)
Lemma inv_scalars (s s' : kstate X) md pd P L :
  pt s' = pt s -> cpus s' = cpus s -> locks s' = locks s ->
  inv_at (MkSys s md pd) P L -> inv_at (MkSys s' md pd) P L.
Proof.
  intros Hp Hc Hl []. split; cbn in *; rewrite ?Hp, ?Hc; try done.
  - unfold runner in *. cbn in *. by rewrite Hc.
  - unfold runner in *. cbn in *. by rewrite Hc.
  - unfold mode_ok, lock_free, lock_held, cpu_at in *. by rewrite Hc, Hl.
Qed.

(** ** Lock and interrupt operations *)

Lemma step_acquire σ P L c :
  inv_at σ P L -> guard σ (OAcquire c) ->
  exists σ', exec (OAcquire c) σ = Ok σ' /\ sysinv σ'.
Proof.
  intros HI [Hf [p Hp]]. destruct (runner_Some _ _ _ Hp) as [k Hk].
  destruct (cpu_runner _ _ _ _ _ HI Hk) as [Hc Hn]. rewrite Hp in Hc.
  pose proof (ia_mode _ _ _ HI) as Hm. rewrite Hf in Hm. cbn [exec]. rewrite Hp. cbn [from_option].
  edestruct (put_wp (acquire_lk c PTLOCK) (fun s' => same_kernel c [PTLOCK] (ks σ) s' /\
    cpu_at s' c (c_ncli k + 1) (Some p) /\ lock_held s' PTLOCK c)) as (s' & -> & Hs & Hc' & Hl).
  { eapply wp_acquire_lk; eauto. }
  eexists. split; [done|]. exists P, L. eapply inv_cpu; [done..| |].
  - split; [done|]. exists (c_ncli k + 1). split; [lia|done].
  - rewrite Hf. intros d q; split; congruence.
Qed.

Lemma step_release σ P L c :
  inv_at σ P L -> guard σ (ORelease c) ->
  exists σ', exec (ORelease c) σ = Ok σ' /\ sysinv σ'.
Proof.
  intros HI [p Hp]. pose proof (ia_mode _ _ _ HI) as Hm. rewrite Hp in Hm.
  destruct Hm as [Hh (n & Hn & Hc)]. cbn [exec].
  edestruct (put_wp (release_lk c PTLOCK) (fun s' => same_kernel c [PTLOCK] (ks σ) s' /\
    cpu_at s' c (n - 1) (Some p) /\ lock_free s' PTLOCK)) as (s' & -> & Hs & Hc' & Hl).
  { eapply wp_release_lk; eauto. }
  eexists. split; [done|]. exists P, L. eapply inv_cpu; [done..|by eapply runner_cpu|done|].
  rewrite Hp. intros d q; split; congruence.
Qed.

Lemma step_push σ P L c :
  inv_at σ P L -> guard σ (OPush c) -> exists σ', exec (OPush c) σ = Ok σ' /\ sysinv σ'.
Proof.
  intros HI [[k Hk] Hns]. destruct (cpu_runner _ _ _ _ _ HI Hk) as [Hc Hn]. cbn [exec].
  edestruct (put_wp (on_cpu c pushcli) (fun s' => same_kernel c [] (ks σ) s' /\
    locks s' = locks (ks σ) /\ cpu_at s' c (c_ncli k + 1) (runner σ c))) as (s' & -> & Hs & Hl & Hc').
  { eapply (wp_cpu_run _ _ _ _ _ entered); [done| |by auto].
    intros k' Hk' <- <-. rewrite pushcli_spec. split_and!; [done|by apply entered_ok|done..]. }
  eexists. split; [done|]. exists P, L. eapply inv_cpu; [done..| |done].
  eapply mode_other; [done..|apply HI| |].
  - intros d p Hmd ->. pose proof (ia_mode _ _ _ HI) as Hm. rewrite Hmd in Hm.
    destruct Hm as [_ (n & Hn1 & Hc2)]. split; [by eapply runner_cpu|lia].
  - intros d p Hmd ->. by eapply Hns.
Qed.

Lemma step_pop σ P L c :
  inv_at σ P L -> guard σ (OPop c) -> exists σ', exec (OPop c) σ = Ok σ' /\ sysinv σ'.
Proof.
  intros HI [Hns (n & Hd & Hn)]. unfold depth in Hd.
  destruct (cpus (ks σ) !! c) as [k|] eqn:Hk; [|done]. cbn in Hd. injection Hd as Hd.
  destruct (cpu_runner _ _ _ _ _ HI Hk) as [Hc _]. rewrite Hd in Hc. cbn [exec].
  assert (Hn1 : 1 <= n) by (destruct (mode σ); [done|case_decide; lia|done]).
  edestruct (put_wp (on_cpu c popcli) (fun s' => same_kernel c [] (ks σ) s' /\
    locks s' = locks (ks σ) /\ cpu_at s' c (n - 1) (runner σ c))) as (s' & -> & Hs & Hl & Hc').
  { eapply (wp_cpu_run _ _ _ _ _ left_cpu); [done| |by auto].
    intros k' Hk' Hkn <-. rewrite popcli_spec by (try apply cpu_ok_if; try done; lia).
    split_and!; [done|apply left_ok; [done|lia]|cbn; lia|done]. }
  eexists. split; [done|]. exists P, L. eapply inv_cpu; [done..| |done].
  eapply mode_other; [done..|apply HI| |].
  - intros d p Hmd ->. pose proof (ia_mode _ _ _ HI) as Hm. rewrite Hmd in Hm, Hn.
    destruct Hm as [_ (m & Hm1 & Hc2)]. rewrite decide_True in Hn by done.
    split; [by eapply runner_cpu|lia].
  - intros d p Hmd ->. by eapply Hns.
Qed.

(** ** Critical sections *)

Lemma step_body σ P L c b :
  inv_at σ P L -> guard σ (OBody c b) -> exists σ', exec (OBody c b) σ = Ok σ' /\ sysinv σ'.
Proof.
  intros HI [_ Hb]. cbn [exec].
  destruct (put_pt (run_body b) (fun t' => exists P' L', table t' P' L' (off_lists (pend σ)) /\
    quiet P L P' L') σ (mode σ) (pend σ)) as (t' & -> & P' & L' & Ht' & Hq).
  { apply run_body_quiet; [apply HI|done]. }
  eexists. split; [done|]. exists P', L'. by eapply inv_quiet.
Qed.

Lemma step_interrupt σ P L c ch :
  inv_at σ P L -> guard σ (OInterrupt c ch) ->
  exists σ', exec (OInterrupt c ch) σ = Ok σ' /\ sysinv σ'.
Proof.
  intros HI [Hf [k Hk]]. destruct (cpu_runner _ _ _ _ _ HI Hk) as [Hc _]. cbn [exec].
  pose proof (ia_mode _ _ _ HI) as Hm. rewrite Hf in Hm.
  edestruct (put_wp (with_ptable c (wakeup1 ch)) (fun s' => exists t',
    (exists P' L', table t' P' L' (off_lists (pend σ)) /\ quiet P L P' L') /\
    same_kernel c [PTLOCK] (set_pt t' (ks σ)) s' /\ cpu_at s' c (c_ncli k) (runner σ c) /\
    lock_free s' PTLOCK)) as (s' & -> & (t' & (P' & L' & Ht' & Hq) & Hs & Hc' & Hl)).
  { eapply wp_mono; [eapply with_ptable_spec; [done|done|]|].
    - by apply (run_body_quiet (BWakeup ch)); [apply HI|].
    - intros [] s' H. exact H. }
  eexists. split; [done|]. exists P', L'. pose proof (inv_quiet _ _ _ _ _ _ HI Ht' Hq) as HI'.
  eapply (inv_cpu _ _ _ _ _ _ _ _ _ HI' Hs Hc'); [done|by rewrite Hf|done].
Qed.

(** The slots under construction other than [p] are not touched by a change to [p]. *)
Lemma stage_alter (pd pd' : gmap nat stage) f p (P : list proc) :
  (forall q st, pd !! q = Some st -> st <> Fresh ->
     exists r, P !! q = Some r /\ p_state r = if decide (st = Transit) then EMBRYO else UNUSED) ->
  (forall q st, q <> p -> pd' !! q = Some st -> pd !! q = Some st) ->
  (forall st, pd' !! p = Some st -> st <> Fresh -> exists r, P !! p = Some r /\
     p_state (f r) = if decide (st = Transit) then EMBRYO else UNUSED) ->
  forall q st, pd' !! q = Some st -> st <> Fresh ->
    exists r, alter f p P !! q = Some r /\ p_state r = if decide (st = Transit) then EMBRYO else UNUSED.
Proof.
  intros H Hpd Hp q st Hq Hne. destruct (decide (q = p)) as [->|Hqp].
  - destruct (Hp _ Hq Hne) as (r & Hr & Hs). exists (f r). by rewrite list_lookup_alter_eq, Hr.
  - rewrite list_lookup_alter_ne by done. eauto.
Qed.
Lemma backed_alter f p (P : list proc) :
  Forall backed P -> (forall r, P !! p = Some r -> backed r -> backed (f r)) ->
  Forall backed (alter f p P).
Proof.
  rewrite !Forall_lookup. intros Hb Hf q r'. destruct (decide (q = p)) as [->|].
  - rewrite list_lookup_alter_eq. destruct (P !! p) as [r|] eqn:E; [|done]. intros [= <-]. eauto.
  - rewrite list_lookup_alter_ne by done. eauto.
Qed.
Lemma backed_dead r : p_state r = UNUSED \/ p_state r = EMBRYO -> backed r.
Proof. unfold backed. intros [-> | ->] Hin; exfalso; set_solver. Qed.

Lemma table_off_eq t P L off off' : off ≡ off' -> table t P L off -> table t P L off'.
Proof. intros E [H HP]. split; [by eapply rep_off_eq|done]. Qed.

Lemma list_fresh_off σ P L l p : inv_at σ P L -> p ∈ L l -> p ∉ off_lists (pend σ).
Proof. intros HI Hp. by destruct (table_elem _ _ _ (ia_table _ _ _ HI) Hp) as (r & _ & _ & _ & ? & _). Qed.

Lemma elem_lmove_ne (L : lists) p q a b l : q <> p -> q ∈ L l -> q ∈ lmove L p a b l.
Proof.
  intros Hne Hq. unfold lmove. destruct (decide (l = b)) as [->|H1].
  - rewrite lset_eq. apply elem_of_app. left. destruct (decide (b = a)) as [->|].
    + rewrite lset_eq. by apply elem_of_lrem.
    + by rewrite lset_ne.
  - rewrite lset_ne by done. destruct (decide (l = a)) as [->|].
    + rewrite lset_eq. by apply elem_of_lrem.
    + by rewrite lset_ne.
Qed.

Lemma step_alloc σ P L c :
  inv_at σ P L -> guard σ (OAlloc c) -> exists σ', exec (OAlloc c) σ = Ok σ' /\ sysinv σ'.
Proof.
  intros HI _. pose proof (ia_table _ _ _ HI) as H.
  destruct (rep_list _ _ _ _ _ (proj1 H) (LState UNUSED) I) as (Hptr & _ & _).
  enough (wp alloc_take (fun o s' =>
    match o with
    | None => s' = ks σ
    | Some p => p ∈ L (LState UNUSED) /\ exists t' n, s' = set_nextpid n (set_pt t' (ks σ)) /\
        table t' (alter (fun r => set_p_pid (nextpid (ks σ)) (set_p_state EMBRYO r)) p P)
          (lmove L p (LState UNUSED) (LState EMBRYO)) (off_lists (pend σ))
    end) (ks σ)) as Hw.
  { cbn [exec]. unfold wp in Hw. destruct (alloc_take (ks σ)) as [[[p|] s']|e]; [| |done].
    - destruct Hw as (Hp & t' & n & -> & Ht'). eexists. split; [done|]. eexists _, _.
      pose proof (list_fresh_off _ _ _ _ _ HI Hp) as Hoff.
      apply (inv_scalars (set_pt t' (ks σ))); [done..|]. eapply inv_pt; [done|eapply table_off_eq, Ht'|..].
      + symmetry. by apply off_insert_fresh.
      + apply backed_alter; [apply HI|]. intros. by apply backed_dead; right.
      + intros q. destruct (decide (q = p)) as [->|]; intros Hq.
        * rewrite lmove_to by done. set_solver.
        * rewrite lookup_insert_ne in Hq by done. apply elem_lmove_ne; [done|]. by eapply ia_fresh.
      + eapply stage_alter; [apply HI| |].
        * intros q st Hne. by rewrite lookup_insert_ne.
        * intros st. rewrite lookup_insert_eq. by intros [= <-].
      + by apply lmove_other.
    - subst s'. eexists. split; [done|]. exists P, L. by destruct σ. }
  unfold alloc_take. apply wp_bind, wp_lift_pt. eapply wp_rd_ptrs; [done|].
  replace (set_pt _ (ks σ)) with (ks σ) by (by destruct (ks σ)). cbn [q_head].
  destruct (L (LState UNUSED)) as [|p xs] eqn:EL; [done|]. cbn [list.head].
  assert (Hp : p ∈ L (LState UNUSED)) by (rewrite EL; by left).
  destruct (table_elem _ _ _ H Hp) as (r & Hr & Hh & Hpr & Hoff & Hlt).
  apply wp_bind, wp_lift_pt. eapply wp_mono; [by apply alloc_move_spec|]. intros [] t1 H1.
  apply wp_bind, wp_gets, wp_bind, wp_modify, wp_bind, wp_lift_pt.
  eapply table_wr_on; [exact H1|done|done|done| |].
  - intros r2 Hr2. rewrite list_lookup_alter_eq, Hr in Hr2. injection Hr2 as <-. done.
  - intros t2 H2 _. apply wp_ret. split; [by left|]. rewrite alter_twice in H2. exists t2. eauto.
Qed.

(** ** Slots under construction *)

Lemma step_unalloc σ P L c np :
  inv_at σ P L -> guard σ (OUnalloc c np) ->
  exists σ', exec (OUnalloc c np) σ = Ok σ' /\ sysinv σ'.
Proof.
  intros HI [_ Hst]. pose proof (ia_fresh _ _ _ HI _ Hst) as Hp. cbn [exec].
  destruct (put_pt _ _ σ (mode σ) (delete np (pend σ))
    (unalloc_move_spec _ _ _ _ _ (ia_table _ _ _ HI) Hp)) as (t' & -> & Ht').
  eexists. split; [done|]. eexists _, _. eapply inv_pt; [done|eapply table_off_eq, Ht'|..].
  - symmetry. by apply off_delete_fresh.
  - apply backed_alter; [apply HI|]. intros. by apply backed_dead; left.
  - intros q [Hne Hq]%lookup_delete_Some. apply elem_lmove_ne; [done|]. by eapply ia_fresh.
  - eapply stage_alter; [apply HI| |].
    + intros q st Hne. by rewrite lookup_delete_ne.
    + intros st. by rewrite lookup_delete_eq.
  - by apply lmove_other.
Qed.

Lemma detach_spec t P L off np r :
  table t P L off -> np ∈ L (LState EMBRYO) -> P !! np = Some r ->
  wp (fork_detach np) (fun _ t' =>
    table t' P (lset L (LState EMBRYO) (lrem np (L (LState EMBRYO)))) (off ∪ {[np]})) t.
Proof.
  intros H Hp Hr. destruct (table_elem _ _ _ H Hp) as (r' & Hr' & Hh & _). simplify_eq.
  destruct (home_state _ _ Hh) as [Hst _]. apply wp_bind.
  eapply wp_mono; [by eapply rep_removeOrPanic, Hp; apply H|]. intros [] t1 H1.
  eapply rep_assertState; [done..|]. split; [done|apply H].
Qed.

Lemma step_detach σ P L c np :
  inv_at σ P L -> guard σ (ODetach c np) ->
  exists σ', exec (ODetach c np) σ = Ok σ' /\ sysinv σ'.
Proof.
  intros HI [_ Hst]. pose proof (ia_fresh _ _ _ HI _ Hst) as Hp. cbn [exec].
  destruct (table_elem _ _ _ (ia_table _ _ _ HI) Hp) as (r & Hr & Hh & _).
  destruct (home_state _ _ Hh) as [Hs _].
  destruct (put_pt _ _ σ (mode σ) (<[np := Transit]> (pend σ))
    (detach_spec _ _ _ _ _ _ (ia_table _ _ _ HI) Hp Hr)) as (t' & -> & Ht').
  eexists. split; [done|]. eexists _, _. eapply inv_pt; [done|eapply table_off_eq, Ht'|..].
  - symmetry. by apply off_insert.
  - apply HI.
  - intros q. destruct (decide (q = np)) as [->|Hne]; [by rewrite lookup_insert_eq|].
    rewrite lookup_insert_ne, lset_eq by done. intros Hq. apply elem_of_lrem.
    split; [|done]. by eapply ia_fresh.
  - intros q st. destruct (decide (q = np)) as [->|Hne].
    + rewrite lookup_insert_eq. intros [= <-] _. exists r. by rewrite decide_True.
    + rewrite lookup_insert_ne by done. apply HI.
  - by rewrite lset_ne.
Qed.

(** A slot off the lists. *)
Lemma stage_off σ P L np st : inv_at σ P L -> pend σ !! np = Some st -> st <> Fresh ->
  np ∈ off_lists (pend σ) /\ exists r, P !! np = Some r /\ (np < NPROC)%nat /\
    p_state r = (if decide (st = Transit) then EMBRYO else UNUSED) /\ prio_ok r.
Proof.
  intros HI Hst Hne. split; [apply elem_off; eauto|].
  destruct (ia_stage _ _ _ HI _ _ Hst Hne) as (r & Hr & Hs). exists r. split_and!; try done.
  - by eapply table_lt; [apply HI|].
  - pose proof (proj2 (ia_table _ _ _ HI)) as HP. rewrite Forall_lookup in HP. eauto.
Qed.

Lemma off_put t P L off p r l :
  rep home t P L off -> Forall prio_ok P -> p ∈ off -> P !! p = Some r -> home r = l ->
  wp (stateListAdd l p) (fun _ t' => table t' P (lset L l (L l ++ [p])) (off ∖ {[p]})) t.
Proof.
  intros H HP Hp Hr Hh. eapply wp_mono; [eapply rep_add; try done|].
  - rewrite <-Hh. apply home_valid. rewrite Forall_lookup in HP. eauto.
  - by intros [] t' Ht'.
Qed.

Lemma publish_spec t P L off np r :
  table t P L off -> np ∈ off -> P !! np = Some r -> (np < NPROC)%nat ->
  let l := ready_lid (p_priority r) in
  wp (fork_publish np) (fun _ t' =>
    table t' (alter (set_p_state RUNNABLE) np P) (lset L l (L l ++ [np])) (off ∖ {[np]})) t.
Proof.
  intros [H HP] Hp Hr Hlt l. apply wp_bind. eapply wp_rep_wr_off; [done|done|done|done|].
  intros t1 H1. pose proof (lookup_alter_Some (set_p_state RUNNABLE) _ _ _ Hr) as Hr1.
  apply wp_bind. eapply wp_rep_rd; [done..|]. eapply off_put; [done| |done|done|by apply home_runnable].
  apply prio_ok_alter; [done|]. intros ? Hr2. simplify_eq. rewrite Forall_lookup in HP.
  exact (HP _ _ Hr).
Qed.

Lemma lset_ready (L : lists) i xs st : lset L (ready_lid i) xs (LState st) = L (LState st).
Proof. apply lset_ne. unfold ready_lid. by case_match. Qed.

Lemma step_publish σ P L c np :
  inv_at σ P L -> guard σ (OPublish c np) ->
  exists σ', exec (OPublish c np) σ = Ok σ' /\ sysinv σ'.
Proof.
  intros HI (_ & Hst & r0 & Hr0 & Hks & Hpd). cbn [exec].
  destruct (stage_off _ _ _ _ _ HI Hst) as (Hoff & r & Hr & Hlt & Hs & Hpr); [done|].
  destruct (put_pt _ _ σ (mode σ) (delete np (pend σ))
    (publish_spec _ _ _ _ _ _ (ia_table _ _ _ HI) Hoff Hr Hlt)) as (t' & -> & Ht').
  eexists. split; [done|]. eexists _, _. eapply inv_pt; [done|eapply table_off_eq, Ht'|..].
  - symmetry. apply off_delete.
  - apply backed_alter; [apply HI|]. intros r1 Hr1 _ _. simplify_eq.
    destruct (rep_lookup _ _ _ _ _ _ _ (proj1 (ia_table _ _ _ HI)) Hr) as (r2 & Hr2 & ->).
    by simplify_eq.
  - intros q [Hne Hq]%lookup_delete_Some. rewrite lset_ready. by eapply ia_fresh.
  - eapply stage_alter; [apply HI| |].
    + intros q st Hne. by rewrite lookup_delete_ne.
    + intros st. by rewrite lookup_delete_eq.
  - apply lset_ready.
Qed.

Lemma table_wr_off f t P L off p (Q : unit -> ptable -> Prop) :
  table t P L off -> p ∈ off -> (p < NPROC)%nat ->
  (forall r, set_p_next None (f r) = f (set_p_next None r)) ->
  (forall r, prio_ok r -> prio_ok (f r)) ->
  (forall t', table t' (alter f p P) L off -> Q tt t') -> wp (wr f p) Q t.
Proof.
  intros [H HP] Hp Hlt Hf Hpr HQ. eapply wp_rep_wr_off; [done..|]. intros t' Ht'. apply HQ.
  split; [done|]. apply prio_ok_alter; [done|]. intros r Hr. apply Hpr.
  rewrite Forall_lookup in HP. eauto.
Qed.

Lemma step_mark σ P L np :
  inv_at σ P L -> guard σ (OMark np) -> exists σ', exec (OMark np) σ = Ok σ' /\ sysinv σ'.
Proof.
  intros HI Hst. cbn [exec guard] in *.
  destruct (stage_off _ _ _ _ _ HI Hst) as (Hoff & r & Hr & Hlt & Hs & Hpr); [done|].
  destruct (put_pt (wr (set_p_state UNUSED) np)
    (fun t' => table t' (alter (set_p_state UNUSED) np P) L (off_lists (pend σ))) σ (mode σ)
    (<[np := Doomed]> (pend σ))) as (t' & -> & Ht').
  { eapply table_wr_off; [apply HI|done..]. }
  eexists. split; [done|]. eexists _, _. eapply inv_pt; [done|eapply table_off_eq, Ht'|..]; try done.
  - rewrite off_insert by done. set_solver.
  - apply backed_alter; [apply HI|]. intros. by apply backed_dead; left.
  - intros q. destruct (decide (q = np)) as [->|Hne]; [by rewrite lookup_insert_eq|].
    rewrite lookup_insert_ne by done. by apply HI.
  - eapply stage_alter; [apply HI| |].
    + intros q st Hne. by rewrite lookup_insert_ne.
    + intros st. rewrite lookup_insert_eq. intros [= <-] _. exists r. by rewrite decide_False.
Qed.

Lemma step_recycle σ P L c np :
  inv_at σ P L -> guard σ (ORecycle c np) ->
  exists σ', exec (ORecycle c np) σ = Ok σ' /\ sysinv σ'.
Proof.
  intros HI [_ Hst]. cbn [exec].
  destruct (stage_off _ _ _ _ _ HI Hst) as (Hoff & r & Hr & Hlt & Hs & Hpr); [done|].
  destruct (ia_table _ _ _ HI) as [H HP].
  destruct (put_pt _ _ σ (mode σ) (delete np (pend σ))
    (off_put _ _ _ _ _ _ (LState UNUSED) H HP Hoff Hr ltac:(by apply home_other))) as (t' & -> & Ht').
  eexists. split; [done|]. eexists _, _. eapply inv_pt; [done|eapply table_off_eq, Ht'|..].
  - symmetry. apply off_delete.
  - apply HI.
  - intros q [Hne Hq]%lookup_delete_Some. rewrite lset_ne by done. by eapply ia_fresh.
  - intros q st [Hne Hq]%lookup_delete_Some. by apply HI.
  - by rewrite lset_ne.
Qed.

Lemma home_state_eq r r' : p_state r' = p_state r -> p_priority r' = p_priority r -> home r' = home r.
Proof. unfold home. by intros -> ->. Qed.

Lemma step_fill σ P L np f :
  inv_at σ P L -> guard σ (OFill np f) -> exists σ', exec (OFill np f) σ = Ok σ' /\ sysinv σ'.
Proof.
  intros HI [(Hf1 & Hf2 & Hf3 & Hf4) Hst]. cbn [exec].
  assert (exists r, P !! np = Some r /\ p_state r = EMBRYO /\ (np < NPROC)%nat) as (r & Hr & Hs & Hlt).
  { destruct Hst as [Hst|Hst].
    - pose proof (ia_fresh _ _ _ HI _ Hst) as Hp.
      destruct (table_elem _ _ _ (ia_table _ _ _ HI) Hp) as (r & Hr & Hh & _ & _ & Hlt).
      destruct (home_state _ _ Hh) as [Hs _]. eauto.
    - destruct (stage_off _ _ _ _ _ HI Hst) as (_ & r & Hr & Hlt & Hs & _); [done|]. eauto. }
  destruct (put_pt (wr f np) (fun t' => table t' (alter f np P) L (off_lists (pend σ)))
    σ (mode σ) (pend σ)) as (t' & -> & Ht').
  { destruct Hst as [Hst|Hst].
    - eapply table_wr_on; [apply HI|done|done|done| |by auto]. intros r' Hr'. simplify_eq.
      split; [|by auto]. rewrite !(home_other _ EMBRYO) by (rewrite ?Hf3; done). done.
    - eapply table_wr_off; [apply HI| |done..]. apply elem_off. exists Transit. done. }
  eexists. split; [done|]. eexists _, _. eapply inv_pt; [done|exact Ht'|..]; try done.
  - apply backed_alter; [apply HI|]. intros r' Hr' _. simplify_eq. apply backed_dead. right. by rewrite Hf3.
  - apply HI.
  - eapply stage_alter; [apply HI|done|]. intros st Hst' Hne.
    destruct (ia_stage _ _ _ HI _ _ Hst' Hne) as (r' & Hr' & Hs'). exists r'. by rewrite Hf3.
Qed.

Lemma runner_running σ P L c p :
  inv_at σ P L -> runner σ c = Some p -> mode σ <> ByScheduler c p -> p ∈ L (LState RUNNING).
Proof. intros HI Hr Hm. apply (ia_run _ _ _ HI). eauto. Qed.

Lemma still_quiet_stage σ P L P' L' t' :
  inv_at σ P L -> table t' P' L' (off_lists (pend σ)) -> quiet P L P' L' ->
  sysinv (MkSys (set_pt t' (ks σ)) (mode σ) (pend σ)).
Proof. intros. exists P', L'. by eapply inv_quiet. Qed.

Lemma step_self σ P L c f :
  inv_at σ P L -> guard σ (OSelf c f) -> exists σ', exec (OSelf c f) σ = Ok σ' /\ sysinv σ'.
Proof.
  intros HI [((Hf1 & Hf2 & Hf3 & Hf4) & Hpr & Hks & Hpd) Hns]. cbn [exec].
  destruct (runner σ c) as [p|] eqn:Hrun; cycle 1.
  { eexists. split; [reflexivity|]. exists P, L. by destruct σ. }
  pose proof (runner_running _ _ _ _ _ HI Hrun (Hns p)) as Hp.
  destruct (table_elem _ _ _ (ia_table _ _ _ HI) Hp) as (r & Hr & Hh & _ & Hoff & Hlt).
  destruct (put_pt (wr f p) (fun t' => table t' (alter f p P) L (off_lists (pend σ)))
    σ (mode σ) (pend σ)) as (t' & -> & Ht').
  { eapply table_wr_on; [apply HI|done|done|done| |by auto]. intros r' Hr'.
    split; [by apply home_state_eq|by auto]. }
  eexists. split; [done|]. eexists _, _. eapply inv_pt; [done|exact Ht'|..]; try done.
  - apply backed_alter; [apply HI|]. intros r' Hr' Hb. unfold backed in *. rewrite Hf3, Hks.
    intros Hin. destruct (Hb Hin). auto.
  - apply HI.
  - eapply stage_alter; [apply HI|done|]. intros st Hst Hne. destruct Hoff. apply elem_off. eauto.
Qed.

(** ** [wait] *)

Lemma scan_zombie P L cur z : scan_result P L cur = Return z ->
  exists st r, z ∈ L (LState st) /\ P !! z = Some r /\ p_state r = ZOMBIE.
Proof.
  unfold scan_result. destruct (List.find _ _) as [p|] eqn:E; [|done]. intros [= ->].
  apply find_elem in E as [Hin Hm]. destruct (matches_Some _ _ _ Hm) as (r & Hr & Ht).
  apply elem_on_states in Hin as (st & Hin & _). apply andb_true_iff in Ht as [_ Hz%bool_decide_eq_true].
  eauto.
Qed.

Lemma wait_reap_spec t P L off cur :
  table t P L off ->
  wp (wait_reap cur) (fun _ t' =>
    match scan_result P L cur with
    | Return z => z ∈ L (LState ZOMBIE) /\ table t' (reaped (alter (set_p_kstack None) z P) L z).1
                    (reaped (alter (set_p_kstack None) z P) L z).2 off
    | Continue _ => t' = t
    end) t.
Proof.
  intros H. apply wp_bind. eapply wp_mono; [exact (wait_scan_spec _ _ _ _ cur H)|]. intros o t' [-> ->].
  destruct (scan_result P L cur) as [z|b] eqn:E; [|by apply wp_ret].
  destruct (scan_zombie _ _ _ _ E) as (st & r & Hz & Hr & Hst).
  destruct (table_elem _ _ _ H Hz) as (r' & Hr' & Hh & _ & _ & Hlt). simplify_eq.
  destruct (home_state _ _ Hh) as [Hs _]. rewrite Hst in Hs. subst st.
  apply wp_bind. eapply table_wr_on; [done..|]. intros t1 H1 _.
  eapply wp_mono; [by apply reap_spec|]. by intros [] t2 H2.
Qed.

Lemma step_reap σ P L c :
  inv_at σ P L -> guard σ (OReap c) -> exists σ', exec (OReap c) σ = Ok σ' /\ sysinv σ'.
Proof.
  intros HI _. cbn [exec]. destruct (runner σ c) as [p|]; cycle 1.
  { eexists. split; [reflexivity|]. exists P, L. by destruct σ. }
  destruct (put_pt _ _ σ (mode σ) (pend σ) (wait_reap_spec _ _ _ _ p (ia_table _ _ _ HI)))
    as (t' & -> & Ht').
  eexists. split; [done|]. destruct (scan_result P L p) as [z|b]; cycle 1.
  { subst t'. exists P, L. destruct σ as [[]]. done. }
  destruct Ht' as [Hz Ht']. unfold reaped in Ht'. cbn [fst snd] in Ht'. rewrite alter_twice in Ht'.
  eexists _, _. eapply inv_pt; [done|exact Ht'|..].
  - apply backed_alter; [apply HI|]. intros. by apply backed_dead; left.
  - intros q Hq. rewrite lmove_other by done. by eapply ia_fresh.
  - eapply stage_alter; [apply HI|done|]. intros st Hst Hne.
    destruct (list_fresh_off _ _ _ _ _ HI Hz). apply elem_off. eauto.
  - by rewrite lmove_other.
Qed.

(** ** Leaving the processor *)

Lemma quiet_adopt_all cur init off P L : quiet P L (adopt_all cur init off P) L.
Proof.
  split; [|done]. intros p r'. unfold adopt_all. rewrite list_lookup_imap.
  destruct (P !! p) as [r|]; [|done]. cbn. intros [= <-]. exists r. split; [done|].
  destruct (_ && _); [|auto]. unfold adopt. destruct (bool_decide _); cbn; auto.
Qed.
Lemma quiet_wakes ch n P L :
  quiet P L (Nat.iter n (wake_step ch) (P, L)).1 (Nat.iter n (wake_step ch) (P, L)).2.
Proof.
  induction n as [|n IH]; [apply quiet_refl|]. rewrite Nat.iter_succ.
  destruct (Nat.iter n (wake_step ch) (P, L)) as [P1 L1]. eapply quiet_trans; [exact IH|].
  apply quiet_wake.
Qed.
Lemma quiet_reparented cur init off P L :
  quiet P L (reparented cur init off P L).1 (reparented cur init off P L).2.
Proof. eapply quiet_trans; [apply quiet_adopt_all|apply quiet_wakes]. Qed.

(** The shape of every departure: wakeups and adoptions, then the process itself
    moves from RUNNING to another list. *)
Definition departs (f : proc -> proc) (l : lid) : Prop :=
  (forall r, p_kstack (f r) = p_kstack r /\ p_pgdir (f r) = p_pgdir r /\
     p_state (f r) ∈ [RUNNABLE; SLEEPING; ZOMBIE]) /\
  l <> LState EMBRYO /\ l <> LState RUNNING.

Lemma charge_backing now r : p_kstack (charge now r) = p_kstack r /\ p_pgdir (charge now r) = p_pgdir r.
Proof. unfold charge. destruct (_ <=? 0); [|done]. by destruct (0 <? p_priority r). Qed.

Lemma leave_body lv now init t P L off p :
  table t P L off -> p ∈ L (LState RUNNING) -> (lv = LvExit -> init <> Some p) ->
  wp (run_leave lv now p init) (fun _ t' => exists P1 L1 f l,
    quiet P L P1 L1 /\ departs f l /\
    table t' (alter f p P1) (lmove L1 p (LState RUNNING) l) off) t.
Proof.
  intros H Hp Hex. destruct lv as [|ch|]; cbn [run_leave].
  - eapply wp_mono; [by apply yield_body_spec|]. intros [] t' Ht'. unfold yielded in Ht'.
    cbn [fst snd] in Ht'. rewrite !alter_twice in Ht'. eexists P, L, _, _.
    split; [apply quiet_refl|]. split; [|exact Ht']. split.
    + intros r. destruct (charge_backing now (set_p_state RUNNABLE r)) as [E1 E2].
      rewrite E1, E2, charge_state. split_and!; [done..|]. by left.
    + unfold ready_lid. case_match; done.
  - eapply wp_mono; [by apply sleep_body_spec|]. intros [] t' Ht'. unfold slept in Ht'.
    cbn [fst snd] in Ht'. rewrite !alter_twice in Ht'. eexists P, L, _, _.
    split; [apply quiet_refl|]. split; [|exact Ht']. split; [|done].
    intros r. destruct (charge_backing now (set_p_chan ch r)) as [E1 E2].
    split_and!; [exact E1|exact E2|]. cbn. set_solver.
  - eapply wp_mono; [by apply exit_body_spec; auto|]. intros [] t' Ht'. unfold exited in Ht'.
    cbn zeta in Ht'. cbn [fst snd] in Ht'. eexists _, _, _, _. split; [|split; [|exact Ht']].
    + eapply quiet_trans; [apply quiet_wake|apply quiet_reparented].
    + split; [|done]. intros r. destruct (charge_backing now r) as [E1 E2].
      split_and!; [exact E1|exact E2|]. cbn. set_solver.
Qed.

Lemma inv_leave σ P L P1 L1 f l c p t' s' :
  inv_at σ P L -> mode σ = ByProc c p -> quiet P L P1 L1 -> departs f l ->
  table t' (alter f p P1) (lmove L1 p (LState RUNNING) l) (off_lists (pend σ)) ->
  same_kernel c [PTLOCK] (set_pt t' (ks σ)) s' -> cpu_at s' c 1 (Some p) -> lock_held s' PTLOCK c ->
  runner σ c = Some p ->
  sysinv (MkSys s' (ByScheduler c p) (pend σ)).
Proof.
  intros HI Hmd Hq [Hf [Hl1 Hl2]] Ht Hs Hc Hlk Hrun.
  pose proof (q_lists _ _ _ _ Hq RUNNING ltac:(done)) as HLR.
  pose proof (q_lists _ _ _ _ Hq EMBRYO ltac:(done)) as HLE.
  assert (Hp : p ∈ L (LState RUNNING)) by (eapply runner_running; [done..|congruence]).
  set (σ1 := MkSys (set_pt t' (ks σ)) (mode σ) (pend σ)).
  pose proof (runner_same σ1 c _ s' (ByScheduler c p) (pend σ) _ _ Hs Hc Hrun) as Hrs.
  destruct (table_elem _ _ _ (ia_table _ _ _ HI) Hp) as (r0 & Hr0 & Hh & _).
  destruct (home_state _ _ Hh) as [Hst0 _].
  assert (Hlen : length P1 = length P).
  { rewrite (rep_len _ _ _ _ _ (proj1 (ia_table _ _ _ HI))), <-(rep_len _ _ _ _ _ (proj1 Ht)).
    by rewrite length_alter. }
  eexists _, _. split; cbn.
  - rewrite (sk_pt _ _ _ _ Hs). exact Ht.
  - apply backed_alter; [eapply quiet_backed; [done|apply HI]|]. intros r Hr Hb _.
    destruct (Hf r) as (-> & -> & _). apply Hb.
    destruct (q_slot _ _ _ _ Hq _ _ Hr) as (r1 & Hr1 & _ & _ & [->|[E _]]); simplify_eq; [|congruence].
    rewrite Hst0. apply (bool_decide_unpack _). done.
  - intros q Hq'. rewrite lmove_other, HLE by done. by eapply ia_fresh.
  - eapply stage_alter; [by eapply quiet_stage; [..|apply HI]|done|].
    intros st Hst Hne. destruct (list_fresh_off _ _ _ _ _ HI Hp). apply elem_off. eauto.
  - intros d k Hk. destruct (decide (d = c)) as [->|Hne].
    + destruct Hc as (k' & Hk' & Hok & _). congruence.
    + rewrite (sk_cpus _ _ _ _ Hs) in Hk by done. by eapply ia_cpus.
  - intros q. rewrite lmove_from, HLR, elem_of_lrem, (ia_run _ _ _ HI) by done.
    split.
    + intros [(d & Hd & _) Hne]. exists d. rewrite Hrs. split; [done|congruence].
    + intros (d & Hd & Hne). rewrite Hrs in Hd. split; [exists d; split; [done|congruence]|].
      intros ->. apply Hne. f_equal. by eapply (ia_one _ _ _ HI).
  - intros d d' q. rewrite !Hrs. apply HI.
  - done.
Qed.

Lemma step_leave σ P L c lv :
  inv_at σ P L -> guard σ (OLeave c lv) -> exists σ', exec (OLeave c lv) σ = Ok σ' /\ sysinv σ'.
Proof.
  intros HI [(p & Hmd & Hex) Hd]. pose proof (ia_mode _ _ _ HI) as Hm. rewrite Hmd in Hm.
  destruct Hm as [Hlk (n & _ & Hc)]. assert (n = 1) as ->.
  { destruct Hc as (k & Hk & _ & Hn & _). unfold depth in Hd. rewrite Hk in Hd. cbn in Hd. congruence. }
  pose proof (runner_cpu _ _ _ _ Hc) as Hrun. cbn [exec]. rewrite Hrun. cbn [from_option].
  edestruct (put_wp (leave_code c lv) (fun s' => exists t' P1 L1 f l, quiet P L P1 L1 /\ departs f l /\
    table t' (alter f p P1) (lmove L1 p (LState RUNNING) l) (off_lists (pend σ)) /\
    same_kernel c [PTLOCK] (set_pt t' (ks σ)) s' /\ cpu_at s' c 1 (Some p) /\ lock_held s' PTLOCK c))
    as (s' & -> & (t' & P1 & L1 & f & l & Hq & Hdep & Ht & Hs & Hc' & Hl')); cycle 1.
  { eexists. split; [done|]. by eapply inv_leave. }
  apply wp_bind. eapply wp_curproc; [done|]. intros s1 Hs1 Hk1 Hc1.
  apply wp_bind, wp_gets, wp_bind, wp_gets, wp_bind, wp_lift_pt.
  rewrite (sk_pt _ _ _ _ Hs1). eapply wp_mono; [apply leave_body; [apply HI| |]|].
  { eapply runner_running; [done..|congruence]. }
  { intros E. rewrite (sk_init _ _ _ _ Hs1). auto. }
  intros [] t1 (P1 & L1 & f & l & Hq & Hdep & H1). apply wp_bind.
  assert (exists r1, P1 !! p = Some r1) as [r1 Hr1].
  { apply lookup_lt_is_Some. pose proof (rep_len _ _ _ _ _ (proj1 H1)) as E.
    rewrite length_alter in E. rewrite E.
    pose proof (runner_running _ _ _ _ _ HI Hrun ltac:(congruence)) as Hp.
    by destruct (table_elem _ _ _ (ia_table _ _ _ HI) Hp) as (? & _ & _ & _ & _ & ?). }
  eapply wp_mono; [eapply (sched_enter_spec (set_pt t1 s1) c p (f r1)); [exact Hc1| |exact H1| |]|].
  { eapply lock_held_same; [|exact Hlk]. cbn. by rewrite Hk1. }
  { by rewrite list_lookup_alter_eq, Hr1. }
  { destruct (proj1 Hdep r1) as (_ & _ & Hin). intros E. rewrite E in Hin. set_solver. }
  intros i s2 (t2 & H2 & Hs2 & Hc2 & Hl2). apply wp_ret. rewrite alter_twice in H2.
  exists t2, P1, L1, (fun r => tally (ticks s1) (f r)), l. split_and!; try done.
  eapply same_kernel_trans; [|exact Hs2]. rewrite set_pt_set_pt. apply same_kernel_set_pt.
  eapply same_kernel_weaken; [|done]. apply list_subseteq_nil.
Qed.

(** ** The scheduler *)

Lemma step_resume σ P L c :
  inv_at σ P L -> guard σ (OResume c) -> exists σ', exec (OResume c) σ = Ok σ' /\ sysinv σ'.
Proof.
  intros HI [p Hmd]. pose proof (ia_mode _ _ _ HI) as Hm. rewrite Hmd in Hm.
  destruct Hm as [Hlk Hc]. cbn [exec].
  destruct (put_wp _ _ σ Free (pend σ) (scheduler_resume_spec _ _ _ Hc Hlk))
    as (s' & -> & Hs & Hc' & Hl).
  assert (Hro : forall d q, runner (MkSys s' Free (pend σ)) d = Some q <-> d <> c /\ runner σ d = Some q).
  { intros d q. destruct (decide (d = c)) as [->|Hne].
    - erewrite (runner_cpu (MkSys s' Free (pend σ))) by exact Hc'. split; [done|tauto].
    - unfold runner. cbn. rewrite (sk_cpus _ _ _ _ Hs) by done. tauto. }
  eexists. split; [done|]. exists P, L. split; cbn; try by apply HI.
  - rewrite (sk_pt _ _ _ _ Hs). apply HI.
  - intros d k. by eapply cpus_same.
  - intros q. rewrite (ia_run _ _ _ HI), Hmd. split; intros (d & H1 & H2); exists d; rewrite Hro in *.
    + split; [|done]. split; [|done]. intros ->. rewrite (runner_cpu _ _ _ _ Hc) in H1. congruence.
    + split; [tauto|]. intros [= <- <-]. tauto.
  - intros d d' q. rewrite !Hro. intros [_ H1] [_ H2]. by eapply (ia_one _ _ _ HI).
  - done.
Qed.

Lemma idle_cpu σ P L c : inv_at σ P L -> runner σ c = None -> depth σ c = Some 0 ->
  cpu_at (ks σ) c 0 None.
Proof.
  intros HI Hr Hd. unfold depth in Hd. destruct (cpus (ks σ) !! c) as [k|] eqn:Hk; [|done].
  cbn in Hd. injection Hd as Hd. destruct (cpu_runner _ _ _ _ _ HI Hk) as [Hc _].
  by rewrite Hr, Hd in Hc.
Qed.

Lemma step_promote σ P L c :
  inv_at σ P L -> guard σ (OPromote c) -> exists σ', exec (OPromote c) σ = Ok σ' /\ sysinv σ'.
Proof.
  intros HI (Hf & Hr & Hd). pose proof (idle_cpu _ _ _ _ HI Hr Hd) as Hc. cbn [exec].
  pose proof (ia_mode _ _ _ HI) as Hm. rewrite Hf in Hm.
  destruct (put_wp _ _ σ (mode σ) (pend σ) (scheduler_promote_spec _ _ _ _ _ Hc Hm (ia_table _ _ _ HI)))
    as (s' & -> & Hc' & Hl & Hp).
  eexists. split; [done|]. destruct (PromoteAtTime (ks σ) <=? ticks (ks σ)).
  - destruct Hp as (t' & Ht' & Hs). eexists _, _.
    pose proof (inv_quiet _ _ _ _ _ _ HI Ht' (quiet_promoted _ _ _)) as HI'.
    eapply inv_scalars in HI'; [eapply (inv_cpu _ _ _ c [PTLOCK] s' _ _ _ HI');
      [exact Hs|exact Hc'|done|by rewrite Hf|done]|done..].
  - exists P, L. eapply inv_cpu; [done..|by rewrite Hf|done].
Qed.

Lemma inv_dispatch σ P L c i p t' s' :
  inv_at σ P L -> mode σ = Free -> runner σ c = None -> p ∈ L (LReady i) ->
  table t' (dispatched (ticks (ks σ)) P L i p).1 (dispatched (ticks (ks σ)) P L i p).2
    (off_lists (pend σ)) ->
  same_kernel c [PTLOCK] (set_pt t' (ks σ)) s' -> cpu_at s' c 1 (Some p) -> lock_held s' PTLOCK c ->
  sysinv (MkSys s' (ByProc c p) (pend σ)).
Proof.
  intros HI Hf Hidle Hp Ht Hs Hc Hlk. unfold dispatched in Ht. cbn [fst snd] in Ht.
  rewrite alter_twice in Ht.
  destruct (table_elem _ _ _ (ia_table _ _ _ HI) Hp) as (r & Hr & Hh & _ & Hoff & _).
  destruct (home_ready _ _ Hh) as [Hst _].
  assert (Hpn : forall d, runner σ d <> Some p).
  { intros d Hd. assert (Hin : p ∈ L (LState RUNNING)) by (eapply runner_running; [done..|congruence]).
    destruct (table_elem _ _ _ (ia_table _ _ _ HI) Hin) as (r' & Hr' & Hh' & _). congruence. }
  assert (Hrc : runner (MkSys s' (ByProc c p) (pend σ)) c = Some p) by (by eapply runner_cpu).
  assert (Hro : forall d, d <> c -> runner (MkSys s' (ByProc c p) (pend σ)) d = runner σ d).
  { intros d Hd. unfold runner. cbn. by rewrite (sk_cpus _ _ _ _ Hs). }
  eexists _, _. split; cbn.
  - rewrite (sk_pt _ _ _ _ Hs). exact Ht.
  - apply backed_alter; [apply HI|]. intros r' Hr' Hb _. simplify_eq. apply Hb. rewrite Hst.
    apply (bool_decide_unpack _). done.
  - intros q Hq. rewrite lmove_other by done. by eapply ia_fresh.
  - eapply stage_alter; [apply HI|done|]. intros st Hst' Hne. destruct Hoff. apply elem_off. eauto.
  - intros d k Hk. destruct (decide (d = c)) as [->|Hne].
    + destruct Hc as (k' & Hk' & Hok & _). congruence.
    + rewrite (sk_cpus _ _ _ _ Hs) in Hk by done. by eapply ia_cpus.
  - intros q. rewrite lmove_to, elem_of_app, list_elem_of_singleton, (ia_run _ _ _ HI) by done. split.
    + intros [(d & Hd & _)| ->]; [|by exists c]. exists d. split; [|done].
      rewrite Hro; [done|]. intros ->. congruence.
    + intros (d & Hd & _). destruct (decide (d = c)) as [->|Hne]; [right; congruence|left].
      rewrite Hro in Hd by done. exists d. split; [done|congruence].
  - intros d d' q Hd Hd'. destruct (decide (d = c)) as [->|], (decide (d' = c)) as [->|]; try done.
    + rewrite Hro in Hd' by done. rewrite Hrc in Hd. simplify_eq. by destruct (Hpn d').
    + rewrite Hro in Hd by done. rewrite Hrc in Hd'. simplify_eq. by destruct (Hpn d).
    + rewrite Hro in Hd, Hd' by done. by eapply (ia_one _ _ _ HI).
  - split; [done|]. exists 1. split; [lia|done].
Qed.

Lemma step_dispatch σ P L c :
  inv_at σ P L -> guard σ (ODispatch c) -> exists σ', exec (ODispatch c) σ = Ok σ' /\ sysinv σ'.
Proof.
  intros HI (Hf & Hr & Hd). pose proof (idle_cpu _ _ _ _ HI Hr Hd) as Hc. cbn [exec].
  pose proof (ia_mode _ _ _ HI) as Hm. rewrite Hf in Hm.
  pose proof (scheduler_dispatch_spec _ _ _ _ _ Hc Hm (ia_table _ _ _ HI) (ia_backed _ _ _ HI)) as Hw.
  unfold wp in Hw. destruct (scheduler_dispatch c (ks σ)) as [[o s']|e]; [|done].
  destruct Hw as [Hpost Hlk]. destruct (best_ready L descending) as [[i p]|] eqn:Eb.
  - destruct Hpost as (-> & Hc' & t' & Ht' & Hs). eexists. split; [done|].
    apply best_ready_Some in Eb as (a & b & xs & _ & _ & Hi).
    eapply (inv_dispatch σ P L c i p t'); try done. rewrite Hi. by left.
  - destruct Hpost as (-> & Hs & Hc').
    pose proof (scheduler_idle_spec _ _ Hc' Hlk) as Hw. unfold wp in Hw.
    destruct (scheduler_idle c s') as [[[] s2]|e]; [|done]. destruct Hw as (Hs2 & Hc2 & Hl2).
    eexists. split; [done|]. exists P, L. eapply inv_cpu; [done| |exact Hc2|done|done|].
    + by eapply same_kernel_trans.
    + rewrite Hf. done.
Qed.

Lemma step_scalar σ P L (f : kstate X -> kstate X) :
  inv_at σ P L -> (forall s, pt (f s) = pt s /\ cpus (f s) = cpus s /\ locks (f s) = locks s) ->
  exists σ', put_ks (modify f) σ (mode σ) (pend σ) = Ok σ' /\ sysinv σ'.
Proof.
  intros HI Hf. eexists. split; [reflexivity|]. exists P, L.
  destruct (Hf (ks σ)) as (E1 & E2 & E3). eapply inv_scalars; [done..|]. by destruct σ.
Qed.

(** Every step that the program points allow is safe. *)
Lemma step_safe σ o :
  sysinv σ -> guard σ o -> exists σ', exec o σ = Ok σ' /\ sysinv σ'.
Proof.
  intros (P & L & HI) Hg. destruct o.
  - by eapply step_acquire.
  - by eapply step_release.
  - by eapply step_push.
  - by eapply step_pop.
  - by eapply step_body.
  - by eapply step_interrupt.
  - by eapply step_alloc.
  - by eapply step_unalloc.
  - by eapply step_detach.
  - by eapply step_publish.
  - by eapply step_mark.
  - by eapply step_recycle.
  - by eapply step_fill.
  - by eapply step_self.
  - by eapply step_reap.
  - by eapply step_leave.
  - by eapply step_resume.
  - by eapply step_promote.
  - by eapply step_dispatch.
  - by eapply step_scalar.
  - by eapply step_scalar.
Qed.

Lemma reachable_inv σ0 σ : sysinv σ0 -> reachable σ0 σ -> sysinv σ.
Proof.
  intros H0. induction 1 as [|σ o σ' _ IH Hg He]; [done|].
  destruct (step_safe _ _ IH Hg) as (σ2 & He2 & HI). congruence.
Qed.

End safety.
