(* ===== verification/Boot.v ===== *)
(** Process creation: [allocproc], the first process ([userinit]), and the safety of
    the system from boot on. *)

From stdpp Require Import base tactics numbers option list gmap fin_maps sets strings.
From Stdlib Require Import ZArith Lia.
From S2P Require Import Prelude ProcDefs StateLists PtableRep Spinlock CString Kernel Proc ProcFacts ProcLife KernelFacts SchedFacts System SystemFacts.

Section boot.
Context {X : Type} `{!Services X}.
Context (forkret_addr : Z).
Implicit Types s : kstate X.

(** * [allocproc] *)

Definition taken (pid : Z) (r : proc) : proc := set_p_pid pid (set_p_state EMBRYO r).
(** The fields of a freshly allocated slot, and of one given back because there was
    no memory for its stack. *)
Definition allocated (pid ks now : Z) (r : proc) : proc :=
  alloc_fields forkret_addr now (set_p_kstack (Some ks) (taken pid r)).
Definition given_back (pid : Z) (r : proc) : proc :=
  set_p_state UNUSED (set_p_kstack None (taken pid r)).

Lemma alloc_take_spec s P L off (Q : option nat -> kstate X -> Prop) :
  table (pt s) P L off ->
  (L (LState UNUSED) = [] -> Q None s) ->
  (forall p t', list.head (L (LState UNUSED)) = Some p ->
     table t' (alter (taken (nextpid s)) p P) (lmove L p (LState UNUSED) (LState EMBRYO)) off ->
     Q (Some p) (set_nextpid (u32 (nextpid s + 1)) (set_pt t' s))) ->
  wp alloc_take Q s.
Proof.
  intros H HN HS. destruct (rep_list _ _ _ _ _ (proj1 H) (LState UNUSED) I) as (Hptr & _ & _).
  apply wp_bind, wp_lift_pt. eapply wp_rd_ptrs; [done|]. cbn [q_head].
  replace (set_pt (pt s) s) with s by (by destruct s).
  destruct (L (LState UNUSED)) as [|p xs] eqn:EL; [by apply wp_ret, HN|]. cbn [list.head].
  assert (Hp : p ∈ L (LState UNUSED)) by (rewrite EL; by left).
  destruct (table_elem _ _ _ H Hp) as (r & Hr & Hh & Hpr & Hoff & Hlt).
  apply wp_bind, wp_lift_pt. eapply wp_mono; [by apply alloc_move_spec|]. intros [] t1 H1.
  apply wp_bind, wp_gets, wp_bind, wp_modify, wp_bind, wp_lift_pt.
  eapply table_wr_on; [exact H1|done|done|done| |].
  - intros r2 Hr2. rewrite list_lookup_alter_eq, Hr in Hr2. injection Hr2 as <-. done.
  - intros t2 H2 _. rewrite alter_twice in H2. apply wp_ret. by apply (HS p t2).
Qed.

(** A write to a slot on the list of its state, at the level of the kernel. *)
Lemma wp_kwr f s P L off p r (Q : unit -> kstate X -> Prop) :
  table (pt s) P L off -> P !! p = Some r ->
  (forall r, set_p_next None (f r) = f (set_p_next None r)) ->
  (forall r, p_next (f r) = p_next r) ->
  p_state (f r) = p_state r -> p_state r <> RUNNABLE -> (prio_ok r -> prio_ok (f r)) ->
  (forall t', table t' (alter f p P) L off -> Q tt (set_pt t' s)) -> wp (lift_pt (wr f p)) Q s.
Proof.
  intros H Hr Hf Hn Hst Hne Hpr HQ. apply wp_lift_pt.
  eapply table_wr_on; [exact H|by eapply table_lt|done|done| |by auto].
  intros r' Hr'. simplify_eq. split; [|done]. by rewrite !(home_other _ (p_state r)).
Qed.

Lemma lmove_lmove (L : lists) p a b c : a <> b -> b <> c -> p ∉ L b ->
  forall l, lmove (lmove L p a b) p b c l = lmove L p a c l.
Proof.
  intros Hab Hbc Hp l.
  destruct (decide (l = b)) as [->|Hlb].
  { rewrite lmove_from, lmove_to, lmove_other by done. unfold lrem. rewrite filter_app.
    fold (lrem p (L b)). rewrite lrem_absent, filter_cons_False by tauto. by rewrite app_nil_r. }
  destruct (decide (l = c)) as [->|Hlc].
  - rewrite lmove_to by done. unfold lmove. rewrite !lset_eq. f_equal. by rewrite lset_ne.
  - rewrite lmove_other by done. unfold lmove. by rewrite !(lset_ne _ b), !(lset_ne _ c) by done.
Qed.

Lemma alloc_finish_spec s c n op P L off p r ks (Q : option nat -> kstate X -> Prop) :
  cpu_at s c n op -> lock_free s PTLOCK -> table (pt s) P L off -> p ∈ L (LState EMBRYO) ->
  P !! p = Some r -> p_state r = EMBRYO ->
  (forall k t', ks = Some k ->
     table t' (alter (fun r => alloc_fields forkret_addr (ticks s) (set_p_kstack (Some k) r)) p P) L off ->
     Q (Some p) (set_pt t' s)) ->
  (forall t' s', ks = None ->
     table t' (alter (fun r => set_p_state UNUSED (set_p_kstack None r)) p P)
       (lmove L p (LState EMBRYO) (LState UNUSED)) off ->
     same_kernel c [PTLOCK] (set_pt t' s) s' -> cpu_at s' c n op -> lock_free s' PTLOCK -> Q None s') ->
  wp (alloc_finish forkret_addr c p ks) Q s.
Proof.
  intros Hc Hl H Hp Hr Hst HS HF. pose proof Hc as (k0 & _ & [Hn0 _] & Hk0 & _).
  apply wp_bind. eapply wp_kwr; [done..|by rewrite Hst|done|]. intros t1 H1.
  pose proof (lookup_alter_Some (set_p_kstack ks) _ _ _ Hr) as Hr1. destruct ks as [k|].
  - apply wp_bind, wp_gets, wp_bind. eapply wp_kwr; [exact H1|exact Hr1|done|done|done| |done|].
    { cbn. by rewrite Hst. }
    intros t2 H2. apply wp_ret. rewrite alter_twice in H2. by apply (HS k t2).
  - apply wp_bind. eapply (wp_acquire_lk (set_pt t1 s)); [done..|]. intros s2 Hs2 Hc2 Hl2.
    apply wp_bind, wp_lift_pt. rewrite (sk_pt _ _ _ _ Hs2). eapply wp_mono; [by apply unalloc_move_spec|].
    intros [] t3 H3. apply wp_bind. eapply (wp_release_lk _ c _ (n + 1)); [done|lia|done|].
    intros s4 Hs4 Hc4 Hl4. replace (n + 1 - 1) with n in Hc4 by lia. apply wp_ret.
    rewrite alter_twice in H3. apply (HF t3); try done. eapply same_kernel_trans; [|exact Hs4].
    by apply (same_kernel_set_pt _ _ _ _ t3) in Hs2.
Qed.

Lemma allocproc_spec s c n op P L off (R : option Z -> X -> Prop) (Q : option nat -> kstate X -> Prop) :
  cpu_at s c n op -> lock_free s PTLOCK -> table (pt s) P L off -> wp sv_kalloc R (ext s) ->
  (L (LState UNUSED) = [] -> forall s', same_kernel c [PTLOCK] s s' -> cpu_at s' c n op ->
     lock_free s' PTLOCK -> Q None s') ->
  (forall p ks x t' s', list.head (L (LState UNUSED)) = Some p -> R (Some ks) x ->
     table t' (alter (allocated (nextpid s) ks (ticks s)) p P)
       (lmove L p (LState UNUSED) (LState EMBRYO)) off ->
     same_kernel c [PTLOCK] (set_ext x (set_nextpid (u32 (nextpid s + 1)) (set_pt t' s))) s' ->
     cpu_at s' c n op -> lock_free s' PTLOCK -> Q (Some p) s') ->
  (forall p x t' s', list.head (L (LState UNUSED)) = Some p -> R None x ->
     table t' (alter (given_back (nextpid s)) p P) (lmove L p (LState UNUSED) (LState UNUSED)) off ->
     same_kernel c [PTLOCK] (set_ext x (set_nextpid (u32 (nextpid s + 1)) (set_pt t' s))) s' ->
     cpu_at s' c n op -> lock_free s' PTLOCK -> Q None s') ->
  wp (allocproc forkret_addr c) Q s.
Proof.
  intros Hc Hl H Hk HN HS HF. pose proof Hc as (k0 & _ & [Hn0 _] & Hk0 & _).
  unfold allocproc. apply wp_bind. eapply wp_acquire_lk; [done..|].
  intros s1 Hs1 Hc1 Hl1. assert (H1 : table (pt s1) P L off) by (by rewrite (sk_pt _ _ _ _ Hs1)).
  apply wp_bind. eapply alloc_take_spec; [exact H1| |].
  { intros EL. apply wp_bind. eapply (wp_release_lk _ c _ (n + 1)); [done|lia|done|].
    intros s2 Hs2 Hc2 Hl2. replace (n + 1 - 1) with n in Hc2 by lia. apply wp_ret.
    apply HN; try done. by eapply same_kernel_trans. }
  intros p t2 Hp H2. rewrite (sk_nextpid _ _ _ _ Hs1) in H2 |- *. apply wp_bind.
  eapply (wp_release_lk _ c _ (n + 1)); [done|lia|done|].
  intros s3 Hs3 Hc3 Hl3. replace (n + 1 - 1) with n in Hc3 by lia.
  assert (Hs : same_kernel c [PTLOCK] (set_nextpid (u32 (nextpid s + 1)) (set_pt t2 s)) s3).
  { eapply same_kernel_trans; [|exact Hs3]. destruct Hs1; by split. }
  assert (H3 : table (pt s3) _ _ _) by (rewrite (sk_pt _ _ _ _ Hs3); exact H2).
  assert (Hx : ext s3 = ext s) by (by rewrite (sk_ext _ _ _ _ Hs)).
  assert (exists r, P !! p = Some r /\ p ∉ L (LState EMBRYO)) as (r & Hr & Hpe).
  { assert (Hin : p ∈ L (LState UNUSED)) by (destruct (L (LState UNUSED)); simplify_eq/=; by left).
    destruct (table_elem _ _ _ H Hin) as (r & Hr & Hh & _). exists r. split; [done|]. intros Hin2.
    destruct (table_elem _ _ _ H Hin2) as (r' & Hr' & Hh' & _). congruence. }
  apply wp_bind, wp_lift_ext. rewrite Hx. eapply wp_mono; [exact Hk|]. intros ks x HR.
  eapply (alloc_finish_spec (set_ext x s3)); [exact Hc3|exact Hl3|exact H3| |by apply lookup_alter_Some|done|..].
  { rewrite lmove_to by done. set_solver. }
  - intros k t' -> Ht'. rewrite alter_twice in Ht'. cbn in Ht'. rewrite (sk_ticks _ _ _ _ Hs) in Ht'.
    apply (HS p k x t'); try done. destruct Hs; by split.
  - intros t' s' -> Ht' Hs' Hc' Hl'. rewrite alter_twice in Ht'. apply (HF p x t'); try done.
    + eapply table_ext; [|exact Ht']. intros l. symmetry. by apply lmove_lmove.
    + eapply same_kernel_trans; [|exact Hs']. destruct Hs; by split.
Qed.

(** * [userinit] *)

(** Static storage is zero. *)
Definition zero_table : ptable :=
  MkPtable (replicate NPROC zero_proc) (replicate statecount (MkPtrs None None))
    (replicate (S MAXPRIO) (MkPtrs None None)).

Lemma zero_table_sized : sized zero_table.
Proof.
  split; [done|]. intros [st|i] Hl; cbn [valid_lid get_ptrs plist ready zero_table] in *.
  - destruct st; eexists; reflexivity.
  - eexists. apply lookup_replicate_2. lia.
Qed.

(** The last section of [userinit], and of any creation that stays on the EMBRYO
    list until the end. *)
Lemma embryo_ready_spec t P L off p r msg :
  table t P L off -> p ∈ L (LState EMBRYO) -> P !! p = Some r ->
  wp (removeOrPanic (LState EMBRYO) p msg;;
      assertState p EMBRYO;;
      wr (set_p_state RUNNABLE) p;;
      prio ← rd p_priority p;
      stateListAdd (ready_lid prio) p)
     (fun _ t' => table t' (alter (set_p_state RUNNABLE) p P)
        (lmove L p (LState EMBRYO) (ready_lid (p_priority r))) off) t.
Proof.
  intros H Hp Hr. destruct (table_elem _ _ _ H Hp) as (r' & Hr' & Hh & Hpr & Hoff & Hlt). simplify_eq.
  destruct (home_state _ _ Hh) as [Hst _]. eapply table_take; [done..|]. intros t1 H1.
  apply wp_bind. eapply wp_rep_wr_off; [done|set_solver|done|done|]. intros t2 H2.
  pose proof (lookup_alter_Some (set_p_state RUNNABLE) _ _ _ Hr) as Hr2.
  apply wp_bind. eapply wp_rep_rd; [done..|].
  eapply table_put; [done| |done|by apply home_runnable|done|by auto].
  apply prio_ok_alter; [exact (proj2 H)|]. by intros ? [= <-]%(eq_trans (eq_sym Hr)).
Qed.

(** What booting needs of the other subsystems: a page for the stack, a page
    directory, the initial image, and the root directory; [G] holds of them in the end. *)
Definition services_space (G : Z -> option nat -> X -> Prop) (x : X) : Prop :=
  wp sv_setupkvm (fun pd x2 => exists d, pd = Some d /\
    wp (sv_inituvm d) (fun _ x3 => wp sv_namei_root (G d) x3) x2) x.
Definition services_give (G : Z -> Z -> option nat -> X -> Prop) (x : X) : Prop :=
  wp sv_kalloc (fun ks x1 => exists k, ks = Some k /\ services_space (G k) x1) x.
Definition services_boot (x : X) : Prop := services_give (fun _ _ _ _ => True) x.

(** The slot of the first process, as [userinit] leaves it. *)
Record is_init (r : proc) : Prop := {
  in_state : p_state r = RUNNABLE;
  in_pid : p_pid r = 1;
  in_kstack : is_Some (p_kstack r);
  in_pgdir : is_Some (p_pgdir r);
  in_sz : p_sz r = PGSIZE;
  in_tf : p_tf r = init_tf;
  in_prio : p_priority r = DEFAULTPRIO;
  in_budget : p_budget r = BUDGET;
  in_parent : p_parent r = None;
  in_name : cstr (p_name r) = cstr initcode_name
}.

Definition boot_lists : lists :=
  lmove (lmove only_unused 0 (LState UNUSED) (LState EMBRYO)) 0 (LState EMBRYO) (LReady 0).

Definition boot_table (t : ptable) : Prop :=
  exists r, is_init r /\
    table t (<[0%nat := r]> (replicate NPROC zero_proc)) boot_lists ∅.

Lemma wp_kread {A} (f : proc -> A) s P L off p r (Q : A -> kstate X -> Prop) :
  table (pt s) P L off -> P !! p = Some r -> (forall r, f (set_p_next None r) = f r) ->
  Q (f r) s -> wp (lift_pt (rd f p)) Q s.
Proof.
  intros H Hr Hf HQ. apply wp_lift_pt. eapply table_rd; [done..|]. by destruct s.
Qed.

(** The field writes of [userinit] between [allocproc] and the last section. *)
Definition init_fields (pd : option Z) (nm : list Z) (cwd : option nat) (r : proc) : proc :=
  set_p_cwd cwd (set_p_name nm (set_p_uid UID (set_p_gid GID (set_p_tf init_tf
    (set_p_sz PGSIZE (set_p_pgdir pd r)))))).
Lemma userinit_fill_spec s P L off p r G (Q : unit -> kstate X -> Prop) :
  table (pt s) P L off -> P !! p = Some r -> p_state r = EMBRYO -> length (p_name r) = 16%nat ->
  services_space G (ext s) ->
  (forall t' x d nm cwd, cstr nm = cstr initcode_name -> G d cwd x ->
     table t' (alter (init_fields (Some d) nm cwd) p P) L off -> Q tt (set_ext x (set_pt t' s))) ->
  wp (userinit_fill p) Q s.
Proof.
  intros H Hr Hst Hnm Hsv HQ. unfold userinit_fill.
  apply wp_bind, wp_lift_ext. eapply wp_mono; [exact Hsv|]. intros ? x1 (d & -> & Hsv1).
  apply wp_bind. eapply wp_kwr; [exact H|exact Hr|done|done|done|by rewrite Hst|done|]. intros t1 H1.
  pose proof (lookup_alter_Some (set_p_pgdir (Some d)) _ _ _ Hr) as Hr1.
  apply wp_bind, wp_panic_if; [done|]. apply wp_bind, wp_lift_ext. eapply wp_mono; [exact Hsv1|].
  intros [] x2 Hsv2.
  apply wp_bind. eapply wp_kwr; [exact H1|exact Hr1|done|done|done|cbn; by rewrite Hst|done|].
  intros t2 H2. pose proof (lookup_alter_Some (set_p_sz PGSIZE) _ _ _ Hr1) as Hr2.
  apply wp_bind. eapply wp_kwr; [exact H2|exact Hr2|done|done|done|cbn; by rewrite Hst|done|].
  intros t3 H3. pose proof (lookup_alter_Some (set_p_tf init_tf) _ _ _ Hr2) as Hr3.
  apply wp_bind. eapply wp_kwr; [exact H3|exact Hr3|done|done|done|cbn; by rewrite Hst|done|].
  intros t4 H4. pose proof (lookup_alter_Some (set_p_gid GID) _ _ _ Hr3) as Hr4.
  apply wp_bind. eapply wp_kwr; [exact H4|exact Hr4|done|done|done|cbn; by rewrite Hst|done|].
  intros t5 H5. pose proof (lookup_alter_Some (set_p_uid UID) _ _ _ Hr4) as Hr5.
  apply wp_bind. eapply wp_kread; [exact H5|exact Hr5|done|].
  destruct (safestrcpy_cstr (p_name r) initcode_name 16) as (nm & Hcp & _ & _ & Hcs & _);
    [apply (bool_decide_unpack _); done|lia|].
  apply wp_bind. eapply wp_deref; [exact Hcp|].
  apply wp_bind. eapply wp_kwr; [exact H5|exact Hr5|done|done|done|cbn; by rewrite Hst|done|].
  intros t6 H6. pose proof (lookup_alter_Some (set_p_name nm) _ _ _ Hr5) as Hr6.
  apply wp_bind, wp_lift_ext. eapply wp_mono; [exact Hsv2|]. intros cwd x3 HG.
  eapply wp_kwr; [exact H6|exact Hr6|done|done|done|cbn; by rewrite Hst|done|].
  intros t7 H7. rewrite !alter_twice in H7. by apply (HQ t7 x3 d nm cwd).
Qed.

Lemma unused_zero : unused_from 0 (replicate NPROC zero_proc) = replicate NPROC zero_proc.
Proof. reflexivity. Qed.
Lemma pcbs_zero : pcbs zero_table = replicate NPROC zero_proc.
Proof. reflexivity. Qed.
Lemma alter_replicate (f : proc -> proc) (r : proc) (n : nat) :
  alter f 0%nat (replicate (S n) r) = <[0%nat := f r]> (replicate (S n) r).
Proof. done. Qed.

(** From the allocated slot to the ready list. *)
Lemma userinit_tail s c n op p r P L G :
  cpu_at s c n op -> lock_free s PTLOCK -> table (pt s) P L ∅ -> P !! p = Some r ->
  p ∈ L (LState EMBRYO) -> length (p_name r) = 16%nat ->
  services_space G (ext s) ->
  wp (userinit_fill p;;
      acquire_lk c PTLOCK;;
      lift_pt (removeOrPanic (LState EMBRYO) p "Process Not Found In EMBRYO List!";;
               assertState p EMBRYO;;
               wr (set_p_state RUNNABLE) p;;
               prio ← rd p_priority p;
               stateListAdd (ready_lid prio) p);;
      release_lk c PTLOCK)
     (fun _ s' => exists d nm cwd, cstr nm = cstr initcode_name /\ G d cwd (ext s') /\
        table (pt s') (alter (fun r => set_p_state RUNNABLE (init_fields (Some d) nm cwd r)) p P)
          (lmove L p (LState EMBRYO) (ready_lid (p_priority r))) ∅ /\
        initproc s' = initproc s /\ cpu_at s' c n op /\ lock_free s' PTLOCK /\
        (forall d, d <> c -> cpus s' !! d = cpus s !! d)) s.
Proof.
  intros Hc Hl H Hr Hp Hnm Hsv.
  assert (Hn0 : 0 <= n) by (destruct Hc as (k0 & _ & [? _] & <- & _); done).
  destruct (table_elem _ _ _ H Hp) as (r' & Hr' & Hh & _). simplify_eq.
  destruct (home_state _ _ Hh) as [Hst _]. apply wp_bind. eapply userinit_fill_spec; [done..|].
  intros t1 x1 d nm cwd Hn HG H1. apply wp_bind. eapply (wp_acquire_lk _ c); [exact Hc|exact Hl|].
  intros s2 Hs2 Hc2 Hl2. apply wp_bind, wp_lift_pt. rewrite (sk_pt _ _ _ _ Hs2).
  eapply wp_mono; [eapply embryo_ready_spec; [exact H1|done|by apply lookup_alter_Some]|].
  intros [] t3 H3. rewrite alter_twice in H3. eapply (wp_release_lk _ c _ (n + 1)); [done|lia|done|].
  intros s4 Hs4 Hc4 Hl4. replace (n + 1 - 1) with n in Hc4 by lia. exists d, nm, cwd.
  split; [done|]. rewrite (sk_ext _ _ _ _ Hs4). split; [cbn; by rewrite (sk_ext _ _ _ _ Hs2)|].
  rewrite (sk_pt _ _ _ _ Hs4), (sk_init _ _ _ _ Hs4). split; [exact H3|].
  split; [apply (sk_init _ _ _ _ Hs2)|]. split_and!; [done..|].
  intros d' Hd'. rewrite (sk_cpus _ _ _ _ Hs4) by done. by apply (sk_cpus _ _ _ _ Hs2).
Qed.

Definition first_process (G : Z -> Z -> option nat -> X -> Prop) s : Prop :=
  exists r ks d, is_init r /\ table (pt s) (<[0%nat := r]> (replicate NPROC zero_proc)) boot_lists ∅ /\
    p_kstack r = Some ks /\ p_pgdir r = Some d /\ G ks d (p_cwd r) (ext s).
Lemma userinit_gives G s c n op :
  cpu_at s c n op -> lock_free s PTLOCK -> pt s = zero_table -> nextpid s = 1 ->
  services_give G (ext s) ->
  wp (userinit forkret_addr c) (fun _ s' => first_process G s' /\ initproc s' = Some 0%nat /\
    cpu_at s' c n op /\ lock_free s' PTLOCK /\
    (forall d, d <> c -> cpus s' !! d = cpus s !! d)) s.
Proof.
  intros Hc Hl Ht Hpid Hsv. pose proof Hc as (k0 & _ & [Hn0 _] & Hk0 & _).
  unfold userinit. apply wp_bind. eapply wp_acquire_lk; [done..|]. intros s1 Hs1 Hc1 Hl1.
  pose proof (init_table_spec zero_table zero_table_sized ltac:(by apply Forall_replicate)) as Hi.
  apply wp_unbind in Hi. rewrite pcbs_zero, unused_zero in Hi.
  apply wp_bind, wp_lift_pt. rewrite (sk_pt _ _ _ _ Hs1), Ht.
  eapply wp_mono; [exact Hi|]. intros [] t2 Hi2. apply wp_bind, wp_lift_pt.
  eapply wp_mono; [exact Hi2|]. clear Hi Hi2. intros [] t3 H3.
  apply wp_bind, wp_gets, wp_bind, wp_modify, wp_bind.
  eapply (wp_release_lk _ c _ (n + 1)); [done|lia|done|]. intros s4 Hs4 Hc4 Hl4.
  replace (n + 1 - 1) with n in Hc4 by lia.
  assert (H4 : table (pt s4) (replicate NPROC zero_proc) only_unused ∅)
    by (rewrite (sk_pt _ _ _ _ Hs4); exact H3).
  assert (Hx4 : ext s4 = ext s) by (rewrite (sk_ext _ _ _ _ Hs4); apply Hs1).
  assert (Hn4 : nextpid s4 = 1) by (rewrite (sk_nextpid _ _ _ _ Hs4), <-Hpid; apply Hs1).
  assert (Hd4 : forall d, d <> c -> cpus s4 !! d = cpus s !! d).
  { intros d Hd. rewrite (sk_cpus _ _ _ _ Hs4) by done. by apply Hs1. }
  clear Hs1 Hc1 Hl1 Hs4 H3 s1 t2 t3. apply wp_bind.
  eapply (allocproc_spec s4 c n op); [done|done|exact H4|rewrite Hx4; exact Hsv|done| |].
  { intros p ks x t5 s5 [= <-] (k & [= <-] & Hsv5) H5 Hs5 Hc5 Hl5. apply wp_bind, wp_modify, wp_bind, wp_nonnull.
    eapply wp_mono; [eapply (userinit_tail (set_initproc (Some 0%nat) s5) c n op 0%nat _ _ _ (G ks))|].
    - exact Hc5.
    - exact Hl5.
    - cbn. rewrite (sk_pt _ _ _ _ Hs5). exact H5.
    - reflexivity.
    - apply (bool_decide_unpack _). done.
    - reflexivity.
    - cbn. rewrite (sk_ext _ _ _ _ Hs5). exact Hsv5.
    - intros [] s6 (d & nm & cwd & Hnm & HG & H6 & Hi6 & Hc6 & Hl6 & Hd6). rewrite alter_twice in H6.
      split_and!; [|done..|].
      + eexists _, ks, d. split; [|split; [exact H6|by split_and!]]. rewrite Hn4. by split.
      + intros d' Hd'. rewrite Hd6 by done. cbn. rewrite (sk_cpus _ _ _ _ Hs5) by done. by apply Hd4. }
  intros p x t5 s5 _ (k & ? & _). done.
Qed.
Lemma userinit_spec s c n op :
  cpu_at s c n op -> lock_free s PTLOCK -> pt s = zero_table -> nextpid s = 1 ->
  services_boot (ext s) ->
  wp (userinit forkret_addr c) (fun _ s' => boot_table (pt s') /\ initproc s' = Some 0%nat /\
    cpu_at s' c n op /\ lock_free s' PTLOCK /\
    (forall d, d <> c -> cpus s' !! d = cpus s !! d)) s.
Proof.
  intros. eapply wp_mono; [by apply (userinit_gives (fun _ _ _ _ => True) s c n op)|].
  intros [] s' [(r & ? & ? & Hr & Ht & _) Hrest]. split; [by exists r|done].
Qed.

(** * Safety from boot on *)

(** The processors before the first scheduling: consistent and idle. *)
Definition cpus_idle s : Prop :=
  forall d k, cpus s !! d = Some k -> cpu_ok k /\ c_proc k = None.

Lemma boot_lists_elem l p : p ∈ boot_lists l ->
  (l = LReady 0 /\ p = 0%nat) \/ (l = LState UNUSED /\ p <> 0%nat).
Proof.
  destruct l as [[]|[|i]]; intros Hp; try (by apply not_elem_of_nil in Hp).
  - right. split; [done|]. intros ->. change (0%nat ∈ seq 1 63) in Hp.
    apply elem_of_seq in Hp. lia.
  - left. apply list_elem_of_singleton in Hp. done.
Qed.

Lemma boot_inv s : boot_table (pt s) -> cpus_idle s -> lock_free s PTLOCK -> sysinv (MkSys s Free ∅).
Proof.
  intros (r & Hr & H) Hi Hl. eexists _, _. split; cbn.
  - eapply table_off_eq; [|exact H]. intros x. rewrite elem_off. split; [set_solver|].
    intros (st & Hst & _). by rewrite lookup_empty in Hst.
  - apply Forall_insert; [|]; cycle 1.
    { intros _. destruct Hr. by rewrite <-!not_eq_None_Some in *. }
    apply Forall_replicate. by apply backed_dead; left.
  - intros q Hq. by rewrite lookup_empty in Hq.
  - intros q st Hq. by rewrite lookup_empty in Hq.
  - intros d k Hk. by apply (Hi d).
  - intros p. split.
    + intros [[? _]|[? _]]%boot_lists_elem; done.
    + intros (d & Hd & _). unfold runner in Hd. cbn in Hd.
      destruct (cpus s !! d) as [k|] eqn:Hk; [|done]. cbn in Hd. destruct (Hi _ _ Hk). congruence.
  - intros d d' p Hd. unfold runner in Hd. cbn in Hd.
    destruct (cpus s !! d) as [k|] eqn:Hk; [|done]. cbn in Hd. destruct (Hi _ _ Hk). congruence.
  - done.
Qed.

(** The state in which [main] calls [userinit] on processor [c]. *)
Record boot_pre s (c : nat) : Prop := {
  bp_cpus : cpus_idle s;
  bp_cpu : is_Some (cpus s !! c);
  bp_lock : lock_free s PTLOCK;
  bp_table : pt s = zero_table;
  bp_pid : nextpid s = 1;
  bp_ext : services_boot (ext s)
}.

Lemma booted s c : boot_pre s c ->
  wp (userinit forkret_addr c) (fun _ s' => boot_table (pt s') /\ initproc s' = Some 0%nat /\
    sysinv (MkSys s' Free ∅)) s.
Proof.
  intros [Hi [k Hk] Hl Ht Hn Hx]. destruct (Hi _ _ Hk) as [Hok Hp].
  eapply wp_mono; [eapply (userinit_spec s c (c_ncli k) None); try done; by exists k|].
  intros [] s' (Hb & Hin & Hc & Hl' & Hd). split_and!; [done..|]. apply boot_inv; [done| |done].
  intros d k' Hk'. destruct (decide (d = c)) as [->|Hne].
  - destruct Hc as (k2 & Hk2 & Hok2 & _ & Hp2). by simplify_eq.
  - rewrite Hd in Hk' by done. by apply (Hi d).
Qed.

(** ** The theorems *)

(** Code that may be run at a program point neither panics nor faults. *)
Definition never_stuck (σ : sys (X := X)) : Prop :=
  forall o, guard σ o -> exists σ', exec o σ = Ok σ'.

(** The lists as the code sees them: following [next] from the head of [l]. *)
Definition chain (t : ptable) (l : lid) (xs : list nat) : Prop := is_list t l xs.

(** Every slot is on the list of its state, once, and on no other; the exceptions
    are the slots that [fork] has taken off the EMBRYO list. *)
Definition partitioned (σ : sys (X := X)) : Prop :=
  exists L : lists,
    (forall l, valid_lid l -> chain (pt (ks σ)) l (L l) /\ NoDup (L l)) /\
    (forall p r, procs (pt (ks σ)) !! p = Some r ->
       forall l, p ∈ L l <-> home r = l /\ p ∉ off_lists (pend σ)).

(** The processes in state RUNNING are the current processes of the processors
    (the one that a scheduler is taking over apart), and none is on two. *)
Definition running_on_cpus (σ : sys (X := X)) : Prop :=
  (forall p r, procs (pt (ks σ)) !! p = Some r ->
     p_state r = RUNNING <-> exists d, runner σ d = Some p /\ mode σ <> ByScheduler d p) /\
  (forall d d' p, runner σ d = Some p -> runner σ d' = Some p -> d = d').

Lemma inv_partitioned σ : sysinv σ -> partitioned σ.
Proof.
  intros (P & L & HI). pose proof (ia_table _ _ _ HI) as [H _]. exists L. split.
  - intros l Hl. split; [by eapply rep_list|by eapply rep_nodup].
  - intros p r Hr l. rewrite (rep_home _ _ _ _ _ H).
    assert (Hp : P !! p = Some (set_p_next None r)).
    { rewrite <-(rep_pcbs _ _ _ _ _ H). unfold pcbs. by rewrite list_lookup_fmap, Hr. }
    rewrite Hp. split; [intros [? (r' & [= <-] & <-)]; done|].
    intros [<- Hoff]. split; [done|]. by eexists.
Qed.

Lemma inv_running σ : sysinv σ -> running_on_cpus σ.
Proof.
  intros (P & L & HI). split; [|apply HI]. intros p r Hr.
  pose proof (ia_table _ _ _ HI) as [H HP]. rewrite <-(ia_run _ _ _ HI), (rep_home _ _ _ _ _ H).
  assert (Hp : P !! p = Some (set_p_next None r)).
  { rewrite <-(rep_pcbs _ _ _ _ _ H). unfold pcbs. by rewrite list_lookup_fmap, Hr. }
  rewrite Hp. split.
  - intros Hst. split; [|eexists; split; [done|by apply home_other]].
    intros (st & Hst' & Hne)%elem_off. destruct (ia_stage _ _ _ HI _ _ Hst' Hne) as (r' & Hr' & Hs).
    simplify_eq. cbn in Hs. rewrite Hst in Hs. by destruct (decide _).
  - intros [_ (r' & [= <-] & Hh)]. by destruct (home_state _ _ Hh) as [Hs _].
Qed.

Lemma inv_safe σ : sysinv σ -> never_stuck σ.
Proof. intros HI o Hg. destruct (step_safe _ _ HI Hg) as (σ' & He & _). eauto. Qed.


(** C3: In every reachable configuration the lists partition the process table:
    following the links from the head of a list visits exactly the slots whose
    state (and priority) it stands for, each once, the slots that [fork] has in
    hand apart. *)
Theorem process_lists_partition s c : boot_pre s c ->
  wp (userinit forkret_addr c) (fun _ s' =>
    forall σ, reachable (MkSys s' Free ∅) σ -> partitioned σ) s.
Proof.
  intros Hb. eapply wp_mono; [by apply booted|]. intros [] s' (_ & _ & HI) σ Hr.
  by eapply inv_partitioned, reachable_inv.
Qed.

(** C5: In every reachable configuration a process is RUNNING exactly when a
    processor runs it, and no process runs on two processors. *)
Theorem one_processor_per_process s c : boot_pre s c ->
  wp (userinit forkret_addr c) (fun _ s' =>
    forall σ, reachable (MkSys s' Free ∅) σ -> running_on_cpus σ) s.
Proof.
  intros Hb. eapply wp_mono; [by apply booted|]. intros [] s' (_ & _ & HI) σ Hr.
  by eapply inv_running, reachable_inv.
Qed.

End boot.

(** * A concrete kernel *)

(** Subsystems that always succeed: pages are handed out in order. *)
#[export] Instance bump_services : Services Z := {|
  sv_kalloc := fun x => Ok (Some x, x + PGSIZE);
  sv_kfree := fun _ => mret tt;
  sv_setupkvm := fun x => Ok (Some x, x + PGSIZE);
  sv_inituvm := fun _ => mret tt;
  sv_allocuvm := fun _ _ new => mret new;
  sv_deallocuvm := fun _ _ new => mret new;
  sv_copyuvm := fun _ _ x => Ok (Some x, x + PGSIZE);
  sv_freevm := fun _ => mret tt;
  sv_filedup := fun _ => mret tt;
  sv_fileclose := fun _ => mret tt;
  sv_namei_root := mret (Some 1%nat);
  sv_idup := fun _ => mret tt;
  sv_iput := fun _ => mret tt;
  sv_begin_op := mret tt;
  sv_end_op := mret tt;
  sv_iinit_initlog := mret tt
|}.

Definition demo_cpu (apicid : Z) : cpu := MkCpu apicid 0 false false None 0 0.
Definition demo_kernel : kstate Z := {|
  pt := zero_table; PromoteAtTime := 0; locks := [initlock "ptable"; initlock "time"];
  cpus := [demo_cpu 0; demo_cpu 1]; nextpid := 1; initproc := None; ticks := 0;
  kpgdir := 0x80400000; fsready := false; ext := 0x80500000 |}.

Lemma demo_boot_pre : boot_pre demo_kernel 0.
Proof.
  split; try done.
  - intros [|[|d]] k Hk; cbn in Hk; simplify_eq; done.
  - by exists (initlock "ptable").
  - unfold services_boot. cbn. eauto.
Qed.


Lemma process_lists_partition_witness :
  wp (userinit 0x80103000 0) (fun _ s' =>
    forall σ, reachable (MkSys s' Free ∅) σ -> partitioned σ) demo_kernel.
Proof. apply (process_lists_partition 0x80103000 demo_kernel 0). exact demo_boot_pre. Defined.

Lemma one_processor_per_process_witness :
  wp (userinit 0x80103000 0) (fun _ s' =>
    forall σ, reachable (MkSys s' Free ∅) σ -> running_on_cpus σ) demo_kernel.
Proof. apply (one_processor_per_process 0x80103000 demo_kernel 0). exact demo_boot_pre. Defined.

(** A run of two processors: the first process is dispatched, allocates a slot and
    publishes a child, which the second processor picks up; the first one sleeps and
    is woken from an interrupt. *)
Definition demo_ops : list (op (X := Z)) :=
  [ODispatch 0; ORelease 0; OAcquire 0; OAlloc 0; ORelease 0;
   OFill 1 (set_p_kstack (Some 0x80600000)); OAcquire 0; ODetach 0 1; ORelease 0;
   OFill 1 (set_p_pgdir (Some 0x80601000)); OAcquire 0; OPublish 0 1; ORelease 0;
   ODispatch 1; ORelease 1; OAcquire 0; OLeave 0 (LvSleep CTicks); OResume 0;
   OPromote 0; OTick; OInterrupt 1 CTicks; ODispatch 0; ORelease 0].
Fixpoint run_ops (os : list (op (X := Z))) (σ : sys (X := Z)) : outcome (sys (X := Z)) :=
  match os with
  | [] => Ok σ
  | o :: os => match exec o σ with Ok σ' => run_ops os σ' | Err e => Err e end
  end.
Definition demo_result : outcome (list (option nat) * list procstate) :=
  match userinit 0x80103000 0 demo_kernel with
  | Err e => Err e
  | Ok (_, s) =>
      match run_ops demo_ops (MkSys s Free ∅) with
      | Err e => Err e
      | Ok σ => Ok (c_proc <$> cpus (ks σ), p_state <$> take 3 (procs (pt (ks σ))))
      end
  end.
Lemma demo_run : demo_result = Ok ([Some 0; Some 1]%nat, [RUNNING; RUNNING; UNUSED]).
Proof. vm_compute. reflexivity. Qed.
