(* ===== verification/Fair.v ===== *)
(** The scheduler starves no process: in every interleaving of the processors a process on a ready list moves
    up with the promotions, and at the highest priority it is picked after at most as many dispatches
    as there are processes in front of it. *)

From stdpp Require Import base tactics numbers option list gmap fin_maps sets strings.
From Stdlib Require Import ZArith Lia.
From S2P Require Import Prelude ProcDefs StateLists PtableRep Spinlock Kernel Proc ProcFacts ProcLife KernelFacts SchedFacts System SystemFacts Boot.

(** * Positions on a list *)

(** [q], if it is on list [l], is not further back on it afterwards. *)
Definition kept (q : nat) (l : lid) (L L' : lists) : Prop :=
  forall k, L l !! k = Some q -> exists j, (j <= k)%nat /\ L' l !! j = Some q.

Lemma kept_eq q l L L' : L' l = L l -> kept q l L L'.
Proof. intros E k Hk. exists k. by rewrite E. Qed.
Lemma kept_trans q l L1 L2 L3 : kept q l L1 L2 -> kept q l L2 L3 -> kept q l L1 L3.
Proof.
  intros H1 H2 k Hk. destruct (H1 _ Hk) as (j & Hj & Hq). destruct (H2 _ Hq) as (i & Hi & Hq'). exists i. split; [lia|done].
Qed.
Lemma kept_app q l L L' xs : L' l = L l ++ xs -> kept q l L L'.
Proof. intros E k Hk. exists k. split; [done|]. rewrite E. by apply lookup_app_l_Some. Qed.

Lemma lrem_position p q xs k : xs !! k = Some q -> q <> p -> exists j, (j <= k)%nat /\ lrem p xs !! j = Some q.
Proof.
  revert k. induction xs as [|x xs IH]; intros k Hk Hne; [done|]. unfold lrem. rewrite filter_cons.
  destruct k as [|k]; cbn in Hk.
  - injection Hk as ->. rewrite decide_True by done. exists 0%nat. split; [lia|done].
  - destruct (IH _ Hk Hne) as (j & Hj & Hq). unfold lrem in Hq. case_decide; [exists (S j)|exists j]; split; try done; lia.
Qed.
Lemma kept_lset_app q l L a p : kept q l L (lset L a (L a ++ [p])).
Proof. destruct (decide (l = a)) as [->|Hb]; [apply (kept_app _ _ _ _ [p]), lset_eq|by apply kept_eq, lset_ne]. Qed.

Lemma kept_lmove q l L p a b : q <> p \/ a <> l -> kept q l L (lmove L p a b).
Proof.
  intros Hc. unfold lmove. apply (kept_trans _ _ _ (lset L a (lrem p (L a)))).
  - destruct (decide (a = l)) as [->|Ha].
    + destruct Hc as [Hc|]; [|done]. intros k Hk. rewrite lset_eq. by apply lrem_position.
    + apply kept_eq, lset_ne. congruence.
  - apply kept_lset_app.
Qed.

Lemma kept_woken q i P L o : kept q (LReady i) L (woken P L o).2.
Proof. destruct o as [p|]; [|by apply kept_eq]. apply kept_lmove. by right. Qed.
Lemma kept_wakes q i ch n PL : kept q (LReady i) PL.2 (Nat.iter n (wake_step ch) PL).2.
Proof.
  induction n as [|n IH]; [by apply kept_eq|]. rewrite Nat.iter_succ. eapply kept_trans; [exact IH|]. apply kept_woken.
Qed.
Lemma kept_killed q i P L p : kept q (LReady i) L (killed_at P L p).2.
Proof. unfold killed_at. destruct (bool_decide _); [apply kept_woken|by apply kept_eq]. Qed.
Lemma kept_reprioritised q i prio P L p :
  (p = q -> exists r, P !! q = Some r /\ p_priority r = prio) -> kept q (LReady i) L (reprioritised prio P L p).2.
Proof.
  intros Hq. unfold reprioritised. destruct (P !! p) as [r|] eqn:Er; [|by apply kept_eq].
  destruct (Z.eqb_spec (p_priority r) prio) as [|Hne]; [by apply kept_eq|]. cbn [snd].
  destruct (bool_decide _); [|by apply kept_eq]. apply kept_lmove. left. intros ->.
  destruct (Hq eq_refl) as (r' & Hr' & Hp). congruence.
Qed.
Lemma promoted_level q i L : (i < MAXPRIO)%nat -> q ∈ L (LReady i) -> q ∈ promoted_lists L (LReady (S i)).
Proof.
  intros Hi Hq. unfold promoted_lists. case_decide; [apply elem_of_app; by right|]. rewrite decide_True by lia. done.
Qed.
Lemma kept_promoted q L : kept q (LReady MAXPRIO) L (promoted_lists L).
Proof. apply (kept_app _ _ _ _ (L (LReady (pred MAXPRIO)))). reflexivity. Qed.

Section fair.
Context {X : Type}.
Implicit Types σ : sys (X := X).

(** A step that does not give [q] another priority. *)
Definition spares (q : nat) σ (o : op (X := X)) : Prop :=
  match o with
  | OBody _ (BSetpriority pid priority) =>
      forall r, procs (pt (ks σ)) !! q = Some r -> p_pid r = u32 pid -> priority = p_priority r
  | _ => True
  end.

(** The table after a step, with [q] where it was or further to the front. *)
Definition advanced (q i : nat) (L : lists) (t : ptable) : Prop :=
  exists P' L' off', table t P' L' off' /\ kept q (LReady i) L L'.
Lemma advanced_of q i L t P' L' off' : table t P' L' off' -> kept q (LReady i) L L' -> advanced q i L t.
Proof. intros. by exists P', L', off'. Qed.
Lemma advanced_same q i t P L off : table t P L off -> advanced q i L t.
Proof. intros H. eapply advanced_of; [exact H|]. by apply kept_eq. Qed.

Lemma put_pt_ok (m : M ptable unit) (R : ptable -> Prop) σ md pd σ' :
  wp m (fun _ => R) (pt (ks σ)) -> put_ks (lift_pt m) σ md pd = Ok σ' -> R (pt (ks σ')).
Proof. unfold put_ks, lift_pt, zoom, wp. destruct (m (pt (ks σ))) as [[[] t']|e]; [|done]. by intros ? [= <-]. Qed.
Lemma put_ok (m : K X unit) (R : kstate X -> Prop) σ md pd σ' :
  wp m (fun _ => R) (ks σ) -> put_ks m σ md pd = Ok σ' -> R (ks σ').
Proof. unfold put_ks, wp. destruct (m (ks σ)) as [[[] s']|e]; [|done]. by intros ? [= <-]. Qed.

(** Operations on locks and processors do not see the table. *)
Definition keeps_pt {A} (m : K X A) : Prop := forall s a s', m s = Ok (a, s') -> pt s' = pt s.
Lemma keeps_on_lock {A} c i (m : M (cpu * spinlock) A) : keeps_pt (on_lock c i m).
Proof. intros s a s'. unfold on_lock. repeat case_match; try done. by intros [= <- <-]. Qed.
Lemma keeps_on_cpu {A} c (m : M cpu A) : keeps_pt (on_cpu c m).
Proof. intros s a s'. unfold on_cpu. repeat case_match; try done. by intros [= <- <-]. Qed.
Lemma keeps_bind {A C} (m : K X A) (f : A -> K X C) : keeps_pt m -> (forall a, keeps_pt (f a)) -> keeps_pt (m ≫= f).
Proof.
  intros Hm Hf s b s'. unfold mbind, M_bind. destruct (m s) as [[a s1]|] eqn:E; [|done]. intros H.
  rewrite (Hf _ _ _ _ H). eauto.
Qed.
Lemma keeps_put (m : K X unit) σ md pd σ' : keeps_pt m -> put_ks m σ md pd = Ok σ' -> pt (ks σ') = pt (ks σ).
Proof. intros Hm. unfold put_ks. destruct (m (ks σ)) as [[[] s']|] eqn:E; [|done]. intros [= <-]. cbn. eauto. Qed.
Lemma keeps_resume c : keeps_pt (scheduler_resume (X := X) c).
Proof.
  unfold scheduler_resume, switchkvm. apply keeps_bind; [|intros _].
  - apply keeps_bind; [|intros; apply keeps_on_cpu]. intros s a s' H. by injection H as <- <-.
  - apply keeps_bind; [apply keeps_on_cpu|intros _; apply keeps_on_lock].
Qed.
Lemma keeps_idle c : keeps_pt (scheduler_idle (X := X) c).
Proof. unfold scheduler_idle. apply keeps_bind; [apply keeps_on_lock|intros _; apply keeps_on_cpu]. Qed.

(** * Every step but a dispatch *)

Lemma body_advances q i b t P L off :
  table t P L off ->
  match b with
  | BSetpriority pid priority => 0 <= priority <= Z.of_nat MAXPRIO /\
      (forall r, P !! q = Some r -> p_pid r = u32 pid -> priority = p_priority r)
  | _ => True
  end -> wp (run_body b) (fun _ => advanced q i L) t.
Proof.
  intros H Hb. destruct b as [pid|pid prio|pid|ch]; cbn [run_body].
  - apply wp_bind. eapply wp_mono; [by apply kill_body_spec|]. intros v t' Ht'. apply wp_ret.
    destruct (kill_target P L pid); destruct Ht' as [_ Ht']; [|by eapply advanced_same].
    eapply advanced_of; [exact Ht'|apply kept_killed].
  - destruct Hb as [Hb Hsp]. apply wp_bind. eapply wp_mono; [by apply setpriority_body_spec|]. intros v t' Ht'. apply wp_ret.
    destruct (prio_target P L pid) as [p|] eqn:E; destruct Ht' as [_ Ht']; [|by eapply advanced_same].
    eapply advanced_of; [exact Ht'|]. apply kept_reprioritised. intros ->.
    apply find_elem in E as [_ Hm]. destruct (matches_Some _ _ _ Hm) as (r & Hr & Hp). exists r. split; [done|].
    unfold has_pid in Hp. apply Z.eqb_eq in Hp. by rewrite (Hsp _ Hr Hp).
  - apply wp_bind. eapply wp_mono; [by eapply getpriority_body_spec|]. intros v t' [-> _].
    apply wp_ret. by eapply advanced_same.
  - eapply wp_mono; [by apply wakeup1_spec|]. intros [] t' Ht'. eapply advanced_of; [exact Ht'|apply kept_woken].
Qed.

Lemma leave_advances q i lv now init t P L off p :
  table t P L off -> p ∈ L (LState RUNNING) -> (lv = LvExit -> init <> Some p) ->
  wp (run_leave lv now p init) (fun _ => advanced q i L) t.
Proof.
  intros H Hp Hex. destruct lv as [|ch|]; cbn [run_leave].
  - eapply wp_mono; [by apply yield_body_spec|]. intros [] t' Ht'. eapply advanced_of; [exact Ht'|].
    apply kept_lmove. by right.
  - eapply wp_mono; [by apply sleep_body_spec|]. intros [] t' Ht'. eapply advanced_of; [exact Ht'|].
    apply kept_lmove. by right.
  - eapply wp_mono; [by apply exit_body_spec; auto|]. intros [] t' Ht'. eapply advanced_of; [exact Ht'|].
    unfold exited, reparented. cbn [snd]. eapply kept_trans; [|apply kept_lmove; by right].
    eapply (kept_trans _ _ _ (wake_step _ (P, L)).2); [apply kept_woken|]. apply (kept_wakes q i _ _ (_, _)).
Qed.

(** The case of each operation; the names are those of the steps. *)
Lemma advance_interrupt q i σ P L c ch σ' :
  inv_at σ P L -> guard σ (OInterrupt c ch) -> exec (OInterrupt c ch) σ = Ok σ' -> advanced q i L (pt (ks σ')).
Proof.
  intros HI [Hf [k Hk]] He. destruct (cpu_runner _ _ _ _ _ HI Hk) as [Hc _].
  pose proof (ia_mode _ _ _ HI) as Hm. rewrite Hf in Hm. cbn [exec] in He.
  eapply (put_ok _ (fun s => advanced q i L (pt s))), He. eapply wp_mono; [eapply with_ptable_spec; [done|done|]|].
  - by apply (body_advances q i (BWakeup ch) _ P L _ (ia_table _ _ _ HI)).
  - intros [] s' (t' & Ht' & Hs & _). by rewrite (sk_pt _ _ _ _ Hs).
Qed.
Lemma advance_alloc q i σ P L c σ' :
  inv_at σ P L -> exec (OAlloc c) σ = Ok σ' -> advanced q i L (pt (ks σ')).
Proof.
  intros HI He. cbn [exec] in He.
  assert (Hw : wp alloc_take (fun _ s' => advanced q i L (pt s')) (ks σ)).
  { eapply alloc_take_spec; [apply HI|intros _; eapply advanced_same, HI|].
    intros p t' _ Ht'. eapply advanced_of; [exact Ht'|]. apply kept_lmove. by right. }
  unfold wp in Hw. destruct (alloc_take (ks σ)) as [[[p|] s']|e]; [| |done]; by injection He as <-.
Qed.
Lemma advance_self q i σ P L c f σ' :
  inv_at σ P L -> guard σ (OSelf c f) -> exec (OSelf c f) σ = Ok σ' -> advanced q i L (pt (ks σ')).
Proof.
  intros HI [((Hf1 & Hf2 & Hf3 & Hf4) & Hpr & Hks & Hpd) Hns] He. cbn [exec] in He.
  destruct (runner σ c) as [p|] eqn:Hrun; [|injection He as <-; eapply advanced_same, HI].
  pose proof (runner_running _ _ _ _ _ HI Hrun (Hns p)) as Hp.
  destruct (table_elem _ _ _ (ia_table _ _ _ HI) Hp) as (r & Hr & Hh & _ & Hoff & Hlt).
  eapply (put_pt_ok _ (advanced q i L)), He. eapply table_wr_on; [apply HI|done|done|done| |].
  - intros r' Hr'. split; [by apply home_state_eq|by auto].
  - intros t' Ht' _. by eapply advanced_same.
Qed.
Lemma advance_fill q i σ P L np f σ' :
  inv_at σ P L -> guard σ (OFill np f) -> exec (OFill np f) σ = Ok σ' -> advanced q i L (pt (ks σ')).
Proof.
  intros HI [(Hf1 & Hf2 & Hf3 & Hf4) Hst] He. cbn [exec] in He. eapply (put_pt_ok _ (advanced q i L)), He.
  destruct Hst as [Hst|Hst].
  - pose proof (ia_fresh _ _ _ HI _ Hst) as Hp.
    destruct (table_elem _ _ _ (ia_table _ _ _ HI) Hp) as (r & Hr & Hh & _ & _ & Hlt).
    destruct (home_state _ _ Hh) as [Hs _]. eapply table_wr_on; [apply HI|done|done|done| |].
    + intros r' Hr'. simplify_eq. split; [|by auto]. rewrite !(home_other _ EMBRYO) by (rewrite ?Hf3; done). done.
    + intros t' Ht' _. by eapply advanced_same.
  - destruct (stage_off _ _ _ _ _ HI Hst) as (Hoff & r & Hr & Hlt & _); [done|].
    eapply table_wr_off; [apply HI|done..|]. intros t' Ht'. by eapply advanced_same.
Qed.
Lemma advance_leave q i σ P L c lv σ' :
  inv_at σ P L -> guard σ (OLeave c lv) -> exec (OLeave c lv) σ = Ok σ' -> advanced q i L (pt (ks σ')).
Proof.
  intros HI [(p & Hmd & Hex) Hd] He. pose proof (ia_mode _ _ _ HI) as Hm. rewrite Hmd in Hm.
  destruct Hm as [Hlk (n & _ & Hc)]. pose proof (runner_cpu _ _ _ _ Hc) as Hrun. cbn [exec] in He.
  eapply (put_ok _ (fun s => advanced q i L (pt s))), He. clear He.
  assert (Hp : p ∈ L (LState RUNNING)) by (eapply runner_running; [done..|congruence]).
  assert (n = 1) as ->.
  { destruct Hc as (k & Hk & _ & Hn & _). unfold depth in Hd. rewrite Hk in Hd. cbn in Hd. congruence. }
  apply wp_bind. eapply wp_curproc; [done|]. intros s1 Hs1 Hk1 Hc1.
  apply wp_bind, wp_gets, wp_bind, wp_gets, wp_bind, wp_lift_pt. rewrite (sk_pt _ _ _ _ Hs1), (sk_init _ _ _ _ Hs1).
  eapply wp_mono; [apply wp_conj; [by apply (leave_body lv (ticks s1) _ _ _ _ _ _ (ia_table _ _ _ HI) Hp)|by apply (leave_advances q i lv (ticks s1) _ _ _ _ _ _ (ia_table _ _ _ HI) Hp)]|].
  intros [] t1 [(P1 & L1 & f & l & _ & Hdep & H1) (P' & L' & off' & H' & Hkept)]. apply wp_bind.
  assert (HP : P' = alter f p P1) by (by rewrite <-(rep_pcbs _ _ _ _ _ (proj1 H')), <-(rep_pcbs _ _ _ _ _ (proj1 H1))).
  assert (Hlt : (p < length P')%nat).
  { rewrite (rep_len _ _ _ _ _ (proj1 H')). by destruct (table_elem _ _ _ (ia_table _ _ _ HI) Hp) as (? & _ & _ & _ & _ & ?). }
  rewrite HP, length_alter in Hlt. apply lookup_lt_is_Some in Hlt as [r1 Hr1].
  eapply wp_mono; [eapply (sched_enter_spec (set_pt t1 s1) c p (f r1)); [exact Hc1| |exact H'| |]|].
  { eapply lock_held_same; [|exact Hlk]. cbn. by rewrite Hk1. }
  { by rewrite HP, list_lookup_alter_eq, Hr1. }
  { destruct (proj1 Hdep r1) as (_ & _ & Hin). intros E. rewrite E in Hin. set_solver. }
  intros e s2 (t2 & H2 & Hs2 & _). apply wp_ret. rewrite (sk_pt _ _ _ _ Hs2). eapply advanced_of; [exact H2|done].
Qed.

(** A promotion that is due. *)
Definition promotes σ (o : op (X := X)) : bool :=
  match o with OPromote _ => PromoteAtTime (ks σ) <=? ticks (ks σ) | _ => false end.

Lemma promote_cases σ P L c σ' : inv_at σ P L -> guard σ (OPromote c) -> exec (OPromote c) σ = Ok σ' ->
  exists P' L', table (pt (ks σ')) P' L' (off_lists (pend σ)) /\ L' = if promotes σ (OPromote c) then promoted_lists L else L.
Proof.
  intros HI (Hf & Hr & Hd) He. pose proof (idle_cpu _ _ _ _ HI Hr Hd) as Hc.
  pose proof (ia_mode _ _ _ HI) as Hm. rewrite Hf in Hm.
  eapply (put_ok _ (fun s => exists P' L', table (pt s) P' L' (off_lists (pend σ)) /\ L' = if promotes σ (OPromote c) then promoted_lists L else L)), He.
  eapply wp_mono; [eapply scheduler_promote_spec; [done|done|apply HI]|].
  intros [] s' (_ & _ & Hp). cbn [promotes]. destruct (_ <=? _).
  - destruct Hp as (t' & Ht' & Hs). rewrite (sk_pt _ _ _ _ Hs). eauto.
  - rewrite (sk_pt _ _ _ _ Hp). exists P, L. split; [apply HI|done].
Qed.

(** Any step but a dispatch and a promotion. *)
Lemma step_advances q i σ P L o σ' :
  inv_at σ P L -> guard σ o -> spares q σ o -> (forall c, o <> ODispatch c) -> promotes σ o = false -> exec o σ = Ok σ' ->
  advanced q i L (pt (ks σ')).
Proof.
  intros HI Hg Hsp Hnd Hpr He. pose proof (ia_table _ _ _ HI) as H.
  assert (Hsame : pt (ks σ') = pt (ks σ) -> advanced q i L (pt (ks σ'))) by (intros ->; by eapply advanced_same).
  destruct o as [c|c|c|c|c b|c ch|c|c np|c np|c np|np|c np|np f|c f|c|c lv|c|c|c| |x].
  - by eapply Hsame, keeps_put, He; apply keeps_on_lock.
  - by eapply Hsame, keeps_put, He; apply keeps_on_lock.
  - by eapply Hsame, keeps_put, He; apply keeps_on_cpu.
  - by eapply Hsame, keeps_put, He; apply keeps_on_cpu.
  - eapply (put_pt_ok _ (advanced q i L)), He. eapply body_advances; [done..|]. destruct Hg as [_ Hg].
    destruct b as [|pid priority| |]; try done. split; [done|]. intros r Hr. 
    destruct (rep_lookup _ _ _ _ _ _ _ (proj1 H) Hr) as (r2 & Hr2 & ->). exact (Hsp r2 Hr2).
  - by eapply advance_interrupt.
  - by eapply advance_alloc.
  - destruct Hg as [_ Hst]. pose proof (ia_fresh _ _ _ HI _ Hst) as Hp.
    eapply (put_pt_ok _ (advanced q i L)), He. eapply wp_mono; [by apply unalloc_move_spec|].
    intros [] t' Ht'. eapply advanced_of; [exact Ht'|]. apply kept_lmove. by right.
  - destruct Hg as [_ Hst]. pose proof (ia_fresh _ _ _ HI _ Hst) as Hp.
    destruct (table_elem _ _ _ H Hp) as (r & Hr & _).
    eapply (put_pt_ok _ (advanced q i L)), He. eapply wp_mono; [by eapply detach_spec|].
    intros [] t' Ht'. eapply advanced_of; [exact Ht'|]. by apply kept_eq, lset_ne.
  - destruct Hg as (_ & Hst & _). destruct (stage_off _ _ _ _ _ HI Hst) as (Hoff & r & Hr & Hlt & _); [done|].
    eapply (put_pt_ok _ (advanced q i L)), He. eapply wp_mono; [by eapply publish_spec|].
    intros [] t' Ht'. eapply advanced_of; [exact Ht'|]. apply kept_lset_app.
  - destruct (stage_off _ _ _ _ _ HI Hg) as (Hoff & r & Hr & Hlt & _); [done|].
    eapply (put_pt_ok _ (advanced q i L)), He. eapply table_wr_off; [done..|]. intros t' Ht'. by eapply advanced_same.
  - destruct Hg as [_ Hst]. destruct (stage_off _ _ _ _ _ HI Hst) as (Hoff & r & Hr & Hlt & Hs & _); [done|].
    eapply (put_pt_ok _ (advanced q i L)), He. destruct H as [Hrep HP].
    eapply wp_mono; [by eapply (off_put _ _ _ _ _ _ (LState UNUSED)); [..|by apply home_other]|].
    intros [] t' Ht'. eapply advanced_of; [exact Ht'|]. apply kept_lset_app.
  - by eapply advance_fill.
  - by eapply advance_self.
  - cbn [exec] in He. destruct (runner σ c) as [p|]; [|by apply Hsame; injection He as <-].
    eapply (put_pt_ok _ (advanced q i L)), He. eapply wp_mono; [by apply wait_reap_spec|]. intros [] t' Ht'.
    destruct (scan_result P L p) as [z|]; [|subst t'; by eapply advanced_same].
    destruct Ht' as [_ Ht']. eapply advanced_of; [exact Ht'|]. apply kept_lmove. by right.
  - by eapply advance_leave.
  - by eapply Hsame, keeps_put, He; apply keeps_resume.
  - destruct (promote_cases _ _ _ _ _ HI Hg He) as (P' & L' & Ht' & ->). rewrite Hpr in Ht'. by eapply advanced_same.
  - by destruct (Hnd c).
  - by apply Hsame; injection He as <-.
  - by apply Hsame; injection He as <-.
Qed.


(** * Dispatches *)

(** Following the links from the head of ready list [i], [q] comes after [k] others. *)
Definition waits σ (q i k : nat) : Prop :=
  (i <= MAXPRIO)%nat /\ exists xs, is_list (pt (ks σ)) (LReady i) xs /\ xs !! k = Some q.

Lemma seg_unique nx xs ys : hd_or None xs = hd_or None ys -> seg nx xs None -> seg nx ys None -> xs = ys.
Proof.
  revert ys. induction xs as [|x xs IH]; intros [|y ys]; cbn; try done.
  intros [= ->] [H1 H2] [H3 H4]. f_equal. apply IH; [congruence|done..].
Qed.
Lemma is_list_unique t l xs ys : is_list t l xs -> is_list t l ys -> xs = ys.
Proof.
  intros (H1 & H2 & _) (H3 & H4 & _). eapply seg_unique; [|done..]. rewrite H1 in H3. injection H3 as H3 _. by destruct xs, ys.
Qed.
Lemma waits_table σ P L off q i k : table (pt (ks σ)) P L off -> waits σ q i k <-> L (LReady i) !! k = Some q.
Proof.
  intros [H _]. split.
  - intros [Hi (xs & Hx & Hk)]. by rewrite (is_list_unique _ _ _ _ (rep_list _ _ _ _ _ H (LReady i) Hi) Hx).
  - intros Hk. assert (Hi : valid_lid (LReady i)) by (eapply (rep_valid _ _ _ _ _ H), list_elem_of_lookup_2, Hk).
    split; [exact Hi|]. exists (L (LReady i)). split; [by apply (rep_list _ _ _ _ _ H)|done].
Qed.
Lemma waits_bound σ q i k : sysinv σ -> waits σ q i k -> (k < NPROC)%nat.
Proof.
  intros (P & L & HI) Hw. apply (waits_table _ _ _ _ _ _ _ (ia_table _ _ _ HI)) in Hw. apply lookup_lt_Some in Hw.
  pose proof (rep_len_le _ _ _ _ _ (LReady i) (proj1 (ia_table _ _ _ HI))). lia.
Qed.
Lemma waits_advanced σ σ' q i k L : L (LReady i) !! k = Some q -> advanced q i L (pt (ks σ')) ->
  exists j, (j <= k)%nat /\ waits σ' q i j.
Proof. intros Hk (P' & L' & off' & Ht & Hkept). destruct (Hkept _ Hk) as (j & Hj & Hq). exists j. split; [done|]. by eapply waits_table. Qed.

(** What a dispatch does to the lists. *)
Lemma dispatch_cases σ P L c σ' : inv_at σ P L -> guard σ (ODispatch c) -> exec (ODispatch c) σ = Ok σ' ->
  match best_ready L descending with
  | Some (i, p) => runner σ' c = Some p /\ exists P', table (pt (ks σ')) P' (lmove L p (LReady i) (LState RUNNING)) (off_lists (pend σ))
  | None => table (pt (ks σ')) P L (off_lists (pend σ))
  end.
Proof.
  intros HI (Hf & Hr & Hd) He. pose proof (idle_cpu _ _ _ _ HI Hr Hd) as Hc.
  pose proof (ia_mode _ _ _ HI) as Hm. rewrite Hf in Hm. cbn [exec] in He.
  pose proof (scheduler_dispatch_spec _ _ _ _ _ Hc Hm (ia_table _ _ _ HI) (ia_backed _ _ _ HI)) as Hw.
  unfold wp in Hw. destruct (scheduler_dispatch c (ks σ)) as [[o s']|e]; [|done]. destruct Hw as [Hpost _].
  destruct (best_ready L descending) as [[i p]|].
  - destruct Hpost as (-> & Hc' & t' & Ht' & Hs). injection He as <-. split; [by eapply runner_cpu|].
    cbn. rewrite (sk_pt _ _ _ _ Hs). eauto.
  - destruct Hpost as (-> & Hs & _). destruct (scheduler_idle c s') as [[[] s2]|] eqn:E; [|done]. injection He as <-.
    cbn. rewrite (keeps_idle _ _ _ _ E), (sk_pt _ _ _ _ Hs). apply HI.
Qed.

Lemma dispatch_keeps q i k σ P L c σ' :
  inv_at σ P L -> L (LReady i) !! k = Some q -> guard σ (ODispatch c) -> exec (ODispatch c) σ = Ok σ' ->
  runner σ' c = Some q \/ exists j, waits σ' q i j.
Proof.
  intros HI Hk Hg He. pose proof (dispatch_cases _ _ _ _ _ HI Hg He) as H.
  destruct (best_ready L descending) as [[i' p]|]; [|right; exists k; by eapply waits_table].
  destruct H as (Hr & P' & Ht). destruct (decide (q = p)) as [->|Hne]; [by left|right].
  destruct (kept_lmove q (LReady i) L p (LReady i') (LState RUNNING) (or_introl Hne) k Hk) as (j & _ & Hj).
  exists j. by eapply waits_table.
Qed.

Lemma best_ready_top L p xs : L (LReady MAXPRIO) = p :: xs -> best_ready L descending = Some (MAXPRIO, p).
Proof. intros E. change descending with (MAXPRIO :: reverse (seq 0 MAXPRIO)). cbn [best_ready]. by rewrite E. Qed.

Lemma dispatch_advances q k σ P L c σ' :
  inv_at σ P L -> L (LReady MAXPRIO) !! k = Some q -> guard σ (ODispatch c) -> exec (ODispatch c) σ = Ok σ' ->
  runner σ' c = Some q \/ exists j, (j < k)%nat /\ waits σ' q MAXPRIO j.
Proof.
  intros HI Hk Hg He. pose proof (dispatch_cases _ _ _ _ _ HI Hg He) as H.
  pose proof (rep_nodup _ _ _ _ _ (proj1 (ia_table _ _ _ HI)) (LReady MAXPRIO)) as Hnd.
  destruct (L (LReady MAXPRIO)) as [|p xs] eqn:EL; [done|]. rewrite (best_ready_top L p xs EL) in H. destruct H as (Hr & P' & Ht).
  destruct k as [|k]; cbn in Hk; [injection Hk as ->; by left|]. right. exists k. split; [lia|].
  eapply waits_table; [exact Ht|]. rewrite lmove_from, EL by done. apply NoDup_cons in Hnd as [Hnin _].
  unfold lrem. rewrite filter_cons_False by tauto. fold (lrem p xs). by rewrite lrem_absent.
Qed.

(** * Runs *)

(** A run of the interleaved processors in which nobody sets the priority of [q]; [n] promotions are
    carried out on the way. *)
Inductive run (q : nat) : sys (X := X) -> list (op (X := X)) -> nat -> sys (X := X) -> Prop :=
  | run_nil σ : run q σ [] 0 σ
  | run_cons σ o σ1 os n σ2 : guard σ o -> spares q σ o -> exec o σ = Ok σ1 -> run q σ1 os n σ2 ->
      run q σ (o :: os) ((if promotes σ o then 1 else 0) + n) σ2.

Lemma run_app q σ os n σ1 os' n' σ2 : run q σ os n σ1 -> run q σ1 os' n' σ2 -> run q σ (os ++ os') (n + n') σ2.
Proof.
  induction 1 as [σ|σ o σ3 os n σ4 Hg Hsp He Hr IH]; intros H2; [done|]. cbn [app]. rewrite <-Nat.add_assoc. econstructor; eauto.
Qed.
Lemma run_inv q σ os n σ' : sysinv σ -> run q σ os n σ' -> sysinv σ'.
Proof.
  intros HI Hr. induction Hr as [|σ o σ1 os n σ2 Hg _ He Hr IH]; [done|]. apply IH.
  destruct (step_safe _ _ HI Hg) as (σ3 & He3 & HI3). congruence.
Qed.

Definition is_dispatch (o : op (X := X)) : bool := match o with ODispatch _ => true | _ => false end.
Definition dispatches (os : list (op (X := X))) : nat := length (filter (fun o => is_dispatch o = true) os).
Lemma dispatches_cons o os : dispatches (o :: os) = ((if is_dispatch o then 1 else 0) + dispatches os)%nat.
Proof. unfold dispatches. rewrite filter_cons. by destruct (is_dispatch o). Qed.
Lemma dispatches_app os os' : dispatches (os ++ os') = (dispatches os + dispatches os')%nat.
Proof. unfold dispatches. by rewrite filter_app, length_app. Qed.

(** Some dispatch of the run picks [q], after at most [k] others. *)
Definition served σ (q k : nat) (os : list (op (X := X))) : Prop :=
  exists os1 d os2 n σ1 σ2, os = os1 ++ ODispatch d :: os2 /\ run q σ os1 n σ1 /\
    exec (ODispatch d) σ1 = Ok σ2 /\ runner σ2 d = Some q /\ (dispatches os1 <= k)%nat.

Lemma served_now σ σ1 q c os : exec (ODispatch c) σ = Ok σ1 -> runner σ1 c = Some q -> served σ q 0 (ODispatch c :: os).
Proof. intros He Hr. exists [], c, os, 0%nat, σ, σ1. split_and!; try done. constructor. Qed.
Lemma served_after q σ os n σ1 k os' : run q σ os n σ1 -> served σ1 q k os' -> served σ q (dispatches os + k) (os ++ os').
Proof.
  intros Hr (os1 & d & os2 & n2 & σ2 & σ3 & -> & Hr2 & Hd & Hrun & Hle).
  exists (os ++ os1), d, os2, (n + n2)%nat, σ2, σ3. rewrite <-app_assoc, dispatches_app. split_and!; try done; [by eapply run_app|lia].
Qed.
Lemma served_app q σ k os os' : served σ q k os -> served σ q k (os ++ os').
Proof.
  intros (os1 & d & os2 & n & σ1 & σ2 & -> & H). exists os1, d, (os2 ++ os'), n, σ1, σ2. by rewrite <-app_assoc.
Qed.
Lemma served_le q σ k k' os : served σ q k os -> (k <= k')%nat -> served σ q k' os.
Proof.
  intros (os1 & d & os2 & n & σ1 & σ2 & E & Hr & He & Hrun & Hk) Hle. exists os1, d, os2, n, σ1, σ2. split_and!; try done. lia.
Qed.
Lemma run_step q σ o σ1 : guard σ o -> spares q σ o -> exec o σ = Ok σ1 ->
  run q σ [o] ((if promotes σ o then 1 else 0) + 0) σ1.
Proof. intros. econstructor; [done..|constructor]. Qed.
Lemma served_later σ o σ1 q j k os : guard σ o -> spares q σ o -> exec o σ = Ok σ1 -> served σ1 q j os ->
  (dispatches [o] + j <= k)%nat -> served σ q k (o :: os).
Proof. intros Hg Hsp He Hs Hk. eapply served_le, Hk. eapply (served_after q σ [o]); [by apply run_step|done]. Qed.

(** One step of a process on ready list [i]: it is picked, or waits on, one list higher after a
    promotion, and further to the front of the highest list after a dispatch. *)
Lemma step_waits q i k σ o σ1 : sysinv σ -> waits σ q i k -> guard σ o -> spares q σ o -> exec o σ = Ok σ1 ->
  (exists c, o = ODispatch c /\ runner σ1 c = Some q) \/
  exists i' j, waits σ1 q i' j /\ (Nat.min MAXPRIO (i + if promotes σ o then 1 else 0) <= i')%nat /\
    (i = MAXPRIO -> (j + (if is_dispatch o then 1 else 0) <= k)%nat).
Proof.
  intros (P & L & HI) Hw Hg Hsp He. pose proof (ia_table _ _ _ HI) as H.
  pose proof (proj1 (waits_table _ _ _ _ _ _ _ H) Hw) as Hk. destruct Hw as [Hi _].
  destruct (is_dispatch o) eqn:Ed; [|destruct (promotes σ o) eqn:Ep].
  - destruct o as [| | | | | | | | | | | | | | | | | |c| |]; try done. destruct (decide (i = MAXPRIO)) as [->|Hne].
    + destruct (dispatch_advances _ _ _ _ _ _ _ HI Hk Hg He) as [Hr|(j & Hj & Hw')]; [left; eauto|right].
      exists MAXPRIO, j. split; [done|]. split; [apply Nat.le_min_l|intros; lia].
    + destruct (dispatch_keeps _ _ _ _ _ _ _ _ HI Hk Hg He) as [Hr|(j & Hw')]; [left; eauto|right].
      exists i, j. split; [done|]. split; [cbn [promotes]; lia|done].
  - right. destruct o as [| | | | | | | | | | | | | | | | |c| | |]; try done.
    destruct (promote_cases _ _ _ _ _ HI Hg He) as (P' & L' & Ht' & ->). rewrite Ep in Ht'.
    destruct (decide (i = MAXPRIO)) as [->|Hne].
    + destruct (kept_promoted q L k Hk) as (j & Hj & Hq). exists MAXPRIO, j. split; [by eapply waits_table|]. split; [lia|intros; lia].
    + assert (Hin : q ∈ promoted_lists L (LReady (S i))) by (apply promoted_level; [lia|by eapply list_elem_of_lookup_2]).
      apply list_elem_of_lookup_1 in Hin as [j Hj]. exists (S i), j. split; [by eapply waits_table|]. split; [lia|done].
  - right. destruct (waits_advanced σ σ1 q i k L Hk) as (j & Hj & Hw').
    { eapply step_advances; [done..| |done|done]. intros c ->. done. }
    exists i, j. split; [done|]. split; lia.
Qed.

(** At the top, as many dispatches as there are processes in front and one more. *)
Lemma top_serves q σ os n σ' k : sysinv σ -> run q σ os n σ' -> waits σ q MAXPRIO k -> (k < dispatches os)%nat -> served σ q k os.
Proof.
  intros HI Hr. revert k HI. induction Hr as [σ|σ o σ1 os n σ2 Hg Hsp He Hr IH]; intros k HI Hw Hd; [cbn in Hd; lia|].
  pose proof (run_inv _ _ _ _ _ HI (run_step _ _ _ _ Hg Hsp He)) as HI1. rewrite dispatches_cons in Hd.
  destruct (step_waits _ _ _ _ _ _ HI Hw Hg Hsp He) as [(c & -> & Hrun)|(i' & j & Hw' & Hi & Hj)].
  - eapply served_le; [by eapply served_now|lia].
  - assert (i' = MAXPRIO) as -> by (destruct Hw' as [? _]; destruct (promotes σ o); lia). specialize (Hj eq_refl).
    eapply served_later; [done..|apply (IH j HI1 Hw'); lia|]. rewrite dispatches_cons. change (dispatches []) with 0%nat. lia.
Qed.

(** A run with [n] promotions picks the process or lifts it by [n] levels. *)
Lemma run_lifts q σ os n σ' i k : sysinv σ -> run q σ os n σ' -> waits σ q i k ->
  served σ q (dispatches os) os \/ exists i' j, waits σ' q i' j /\ (Nat.min MAXPRIO (i + n) <= i')%nat.
Proof.
  intros HI Hr. revert i k HI. induction Hr as [σ|σ o σ1 os n σ2 Hg Hsp He Hr IH]; intros i k HI Hw.
  - right. exists i, k. split; [done|]. lia.
  - pose proof (run_inv _ _ _ _ _ HI (run_step _ _ _ _ Hg Hsp He)) as HI1.
    destruct (step_waits _ _ _ _ _ _ HI Hw Hg Hsp He) as [(c & -> & Hrun)|(i' & j & Hw' & Hi & _)].
    + left. eapply served_le; [by eapply served_now|lia].
    + destruct (IH i' j HI1 Hw') as [Hs|(i2 & j2 & Hw2 & Hi2)]; [left|right].
      * eapply served_later; [done..|]. rewrite !dispatches_cons. change (dispatches []) with 0%nat. lia.
      * exists i2, j2. split; [done|]. lia.
Qed.

(** C6: no starvation.  After [userinit], however the processors interleave, a runnable process whose priority nobody sets
    gets a processor.  On the list of highest priority, with [k] others in front of it, one of the next [k + 1] dispatches
    picks it, whichever processors make them: newcomers, wake-ups, preempted processes and promotions queue behind it.
    On list [i] it is picked at the latest by the [NPROC] dispatches that follow [MAXPRIO - i] promotions. *)
Theorem no_starvation `{!Services X} forkret_addr s c : boot_pre s c ->
  wp (userinit forkret_addr c) (fun _ s' => forall σ, reachable (MkSys s' Free ∅) σ ->
    (forall q k os n σ', waits σ q MAXPRIO k -> run q σ os n σ' -> (k < dispatches os)%nat -> served σ q k os) /\
    (forall q i k os1 n σ1 os2 m σ2, waits σ q i k -> run q σ os1 n σ1 -> (MAXPRIO <= i + n)%nat ->
       run q σ1 os2 m σ2 -> (NPROC <= dispatches os2)%nat -> served σ q (dispatches (os1 ++ os2)) (os1 ++ os2))) s.
Proof.
  intros Hb. eapply wp_mono; [by apply booted|]. intros [] s' (_ & _ & HI0) σ Hr. pose proof (reachable_inv _ _ HI0 Hr) as HI. split.
  - intros q k os n σ' Hw Hrun Hd. by eapply top_serves.
  - intros q i k os1 n σ1 os2 m σ2 Hw H1 Hn H2 Hd. rewrite dispatches_app.
    destruct (run_lifts _ _ _ _ _ _ _ HI H1 Hw) as [Hs|(i' & j & Hw' & Hi)].
    + eapply served_le; [by apply served_app|lia].
    + assert (i' = MAXPRIO) as -> by (destruct Hw' as [? _]; lia). pose proof (run_inv _ _ _ _ _ HI H1) as HI1.
      pose proof (waits_bound _ _ _ _ HI1 Hw'). eapply served_le; [eapply served_after; [done|apply (top_serves q σ1 os2 m σ2 j HI1 H2 Hw'); lia]|lia].
Qed.
End fair.

(** After boot the first process waits, alone, on list 0. *)
Lemma boot_waits {X} (s : kstate X) : boot_table (pt s) -> waits (MkSys s Free ∅) 0 0 0.
Proof. intros (r & _ & Ht). eapply waits_table; [exact Ht|]. reflexivity. Qed.

(** It is picked after six promotions at the latest. *)
Lemma no_starvation_witness :
  wp (userinit 0x80103000 0) (fun _ s' => forall os1 σ1 os2 m σ2, run 0 (MkSys s' Free ∅) os1 6 σ1 ->
    run 0 σ1 os2 m σ2 -> (64 <= dispatches os2)%nat -> served (MkSys s' Free ∅) 0 (dispatches (os1 ++ os2)) (os1 ++ os2)) demo_kernel.
Proof.
  eapply wp_mono; [apply wp_conj; [apply (no_starvation 0x80103000 demo_kernel 0), demo_boot_pre|apply booted, demo_boot_pre]|].
  intros [] s' [H [Hb _]] os1 σ1 os2 m σ2 H1 H2 Hd. destruct (H _ (reach_init _)) as [_ H'].
  exact (H' 0%nat 0%nat 0%nat os1 6%nat σ1 os2 m σ2 (boot_waits _ Hb) H1 (le_n 6) H2 Hd).
Defined.
