(* ===== verification/ProcTheorems.v ===== *)
(** What the routines of proc.c promise: scheduling policy, budgets, wakeup, kill,
    priorities, exit and wait. *)

From stdpp Require Import base tactics numbers option list gmap fin_maps sets strings.
From Stdlib Require Import ZArith Lia.
From S2P Require Import Prelude ProcDefs StateLists PtableRep Spinlock CString Kernel Proc ProcFacts ProcLife KernelFacts SchedFacts System SystemFacts Boot.

(** * Scheduling policy *)

Section policy.
Context {X : Type}.
Implicit Types s : kstate X.

(** A process that can be scheduled. *)
Definition runnable (P : list proc) (off : gset nat) (p : nat) (r : proc) : Prop :=
  P !! p = Some r /\ p_state r = RUNNABLE /\ p ∉ off.

Lemma runnable_on_list t P L off p r :
  table t P L off -> runnable P off p r ->
  p ∈ L (LReady (Z.to_nat (p_priority r))) /\ (Z.to_nat (p_priority r) <= MAXPRIO)%nat.
Proof.
  intros [H HP] (Hr & Hst & Hoff). rewrite Forall_lookup in HP. specialize (HP _ _ Hr).
  destruct (prio_lid r HP) as [Hl Hv]. split; [|by rewrite Hl in Hv].
  apply (rep_home _ _ _ _ _ H). split; [done|]. exists r. split; [done|].
  by rewrite home_runnable.
Qed.

Lemma descending_lookup k i : descending !! k = Some i -> (i + k = MAXPRIO)%nat.
Proof.
  change descending with [6;5;4;3;2;1;0]%nat. do 7 (destruct k as [|k]; [by intros [= <-]|]). done.
Qed.
Lemma descending_split a i b j :
  descending = a ++ i :: b -> j ∉ a -> (j <= MAXPRIO)%nat -> (j <= i)%nat.
Proof.
  intros Hd Hj Hle. assert (Hin : j ∈ descending).
  { unfold descending. apply elem_of_reverse, elem_of_seq. lia. }
  rewrite Hd, elem_of_app in Hin. destruct Hin as [|Hin]; [done|].
  apply list_elem_of_lookup in Hin as [m Hm].
  assert (Hi : descending !! length a = Some i) by (by rewrite Hd, list_lookup_middle).
  assert (Hk : descending !! (length a + m)%nat = Some j)
    by (by rewrite Hd, lookup_app_r, Nat.add_sub_swap, Nat.sub_diag by lia).
  apply descending_lookup in Hi, Hk. lia.
Qed.

(** The chosen process: of the highest priority present, first of its list. *)
Definition best_choice (P : list proc) (L : lists) (off : gset nat) (o : option nat) : Prop :=
  match o with
  | None => forall q rq, ~ runnable P off q rq
  | Some p => exists r xs, runnable P off p r /\
      (forall q rq, runnable P off q rq -> p_priority rq <= p_priority r) /\
      L (ready_lid (p_priority r)) = p :: xs
  end.

Lemma best_ready_choice t P L off :
  table t P L off -> best_choice P L off (snd <$> best_ready L descending).
Proof.
  intros H. destruct (best_ready L descending) as [[i p]|] eqn:E; cbn.
  - apply best_ready_Some in E as (a & b & xs & Hd & Hno & Hi).
    assert (Hp : p ∈ L (LReady i)) by (rewrite Hi; by left).
    destruct (table_elem _ _ _ H Hp) as (r & Hr & Hh & Hpr & Hoff & _).
    destruct (home_ready _ _ Hh) as [Hst Hl]. pose proof (ready_prio _ _ Hpr Hh) as Hpi.
    exists r, xs. split_and!; [done| |by rewrite Hl]. intros q rq Hq.
    destruct (runnable_on_list _ _ _ _ _ _ H Hq) as [Hin Hle].
    assert (0 <= p_priority rq).
    { destruct Hq as [Hrq _], H as [_ HP]. rewrite Forall_lookup in HP. apply (HP _ _ Hrq). }
    assert (Hna : Z.to_nat (p_priority rq) ∉ a).
    { intros Ha. rewrite (Hno _ Ha) in Hin. by apply not_elem_of_nil in Hin. }
    pose proof (descending_split _ _ _ _ Hd Hna Hle). lia.
  - intros q rq Hq. destruct (runnable_on_list _ _ _ _ _ _ H Hq) as [Hin Hle].
    enough (L (LReady (Z.to_nat (p_priority rq))) = []) as E0
      by (rewrite E0 in Hin; by apply not_elem_of_nil in Hin).
    revert E Hle. unfold descending. change (reverse (seq 0 (S MAXPRIO))) with [6;5;4;3;2;1;0]%nat.
    generalize (Z.to_nat (p_priority rq)). unfold MAXPRIO. cbn. intros i E Hle.
    repeat case_match; try done. do 7 (destruct i as [|i]; [done|]). lia.
Qed.


(** When promotion is due, every sleeping, running and runnable process below the
    top level moves up one level with a full budget, and no other field of any
    process changes; otherwise nothing happens.  The next promotion is set
    [TICKS_TO_PROMOTE] ticks ahead. *)
Theorem promotion_raises_everyone s c P L :
  cpu_at s c 0 None -> lock_free s PTLOCK -> table (pt s) P L ∅ ->
  wp (scheduler_promote c) (fun _ s' =>
    if PromoteAtTime s <=? ticks s then
      PromoteAtTime s' = u32 (ticks s + TICKS_TO_PROMOTE) /\
      forall p r, P !! p = Some r -> exists r', procs (pt s') !! p = Some r' /\
        set_p_next None r' =
          if bool_decide (p_state r ∈ [SLEEPING; RUNNING; RUNNABLE]) &&
             (p_priority r <? Z.of_nat MAXPRIO)
          then set_p_budget BUDGET (set_p_priority (p_priority r + 1) r) else r
    else pt s' = pt s /\ PromoteAtTime s' = PromoteAtTime s) s.
Proof.
  intros Hc Hl H. eapply wp_mono; [by apply (scheduler_promote_spec s c P L ∅)|].
  intros [] s' (_ & _ & Hp). destruct (PromoteAtTime s <=? ticks s).
  - destruct Hp as (t' & Ht' & Hs). split; [by rewrite (sk_promote _ _ _ _ Hs)|].
    intros p r Hr. rewrite (sk_pt _ _ _ _ Hs). cbn [pt set_pt].
    destruct (rep_lookup _ _ _ _ _ p
      (if bool_decide (p ∉ (∅ : gset nat)) && promotable r then promote1 r else r) (proj1 Ht'))
      as (r0 & Hr0 & Heq).
    { unfold promoted_slots. by rewrite list_lookup_imap, Hr. }
    exists r0. split; [done|]. rewrite <-Heq.
    rewrite (bool_decide_eq_true_2 (p ∉ (∅ : gset nat))) by set_solver.
    unfold promotable, promote1, promote. cbn [andb].
    destruct (bool_decide (p_state r ∈ [SLEEPING; RUNNING; RUNNABLE])); [|done]. cbn [andb].
    destruct (Z.ltb_spec (p_priority r) (Z.of_nat MAXPRIO)); [|done]. rewrite s32_small; [done|].
    destruct H as [_ HP]. rewrite Forall_lookup in HP. destruct (HP _ _ Hr). unfold MAXPRIO in *. lia.
  - by rewrite (sk_pt _ _ _ _ Hp), (sk_promote _ _ _ _ Hp).
Qed.

End policy.

(** * Budgets *)

(** A budget is positive and at most [BUDGET]. *)
Definition budget_ok (r : proc) : Prop := 0 < p_budget r <= BUDGET.
(** The ticks used since the process was dispatched, below 2^31. *)
Definition used (now : Z) (r : proc) : Z := now - p_cpu_ticks_in r.

(** Charging a time slice keeps the budget positive and at most [BUDGET].  A
    process whose slice is within its budget loses just that; one that has used it
    up gets a full budget and falls one priority level, unless it is at level 0. *)
Theorem charge_budget_bounds now r :
  budget_ok r -> prio_ok r -> 0 <= used now r < 2 ^ 31 -> 0 <= p_cpu_ticks_in r -> now < 2 ^ 32 ->
  budget_ok (charge now r) /\ prio_ok (charge now r) /\
  (used now r < p_budget r -> p_budget (charge now r) = p_budget r - used now r /\
     p_priority (charge now r) = p_priority r) /\
  (p_budget r <= used now r -> p_budget (charge now r) = BUDGET /\
     p_priority (charge now r) = Z.max 0 (p_priority r - 1)).
Proof.
  unfold budget_ok, used. intros Hb Hp Hu Hin Hnow. pose proof Hp as Hp'. unfold prio_ok in Hp'.
  assert (E : s32 (u32 (p_budget r) - u32 (now - p_cpu_ticks_in r)) = p_budget r - (now - p_cpu_ticks_in r)).
  { unfold BUDGET in Hb. rewrite !u32_small by lia. apply s32_small. lia. }
  split; [|split; [by apply charge_prio|]]; unfold charge; rewrite E; clear E;
    destruct (Z.leb_spec (p_budget r - (now - p_cpu_ticks_in r)) 0);
    destruct (Z.ltb_spec 0 (p_priority r)); cbn [p_budget p_priority set_p_budget set_p_priority];
    unfold BUDGET in *; lia.
Qed.
Lemma charge_budget_bounds_witness :
  let r := set_p_budget 5 (set_p_priority 3 zero_proc) in
  budget_ok r /\ p_priority (charge 7 r) = 2.
Proof.
  split; [by unfold budget_ok, BUDGET|].
  apply (charge_budget_bounds 7 (set_p_budget 5 (set_p_priority 3 zero_proc)));
    unfold budget_ok, prio_ok, used, BUDGET, MAXPRIO; cbn; lia.
Defined.

(** * Wakeup, kill, priorities *)

Section calls.
Context {X : Type}.
Implicit Types s : kstate X.

(** After a call that takes the lock and releases it: the table is [P], [L]. *)
Definition call_post (c : nat) (n : Z) (op : option nat) (P : list proc) (L : lists) (off : gset nat)
    s s' : Prop :=
  table (pt s') P L off /\ cpu_at s' c n op /\ lock_free s' PTLOCK /\
  ext s' = ext s /\ nextpid s' = nextpid s /\ ticks s' = ticks s /\ forall d, d <> c -> cpus s' !! d = cpus s !! d.

Lemma call_post_of c n op P L off s s' t' : table t' P L off -> same_kernel c [PTLOCK] (set_pt t' s) s' ->
  cpu_at s' c n op -> lock_free s' PTLOCK -> call_post c n op P L off s s'.
Proof. intros Ht [] Hc Hl. unfold call_post. by rewrite sk_pt, sk_ext, sk_nextpid, sk_ticks. Qed.

Lemma with_ptable_call {A} s c n op (m : M ptable A) (R : A -> list proc * lists) off :
  cpu_at s c n op -> lock_free s PTLOCK ->
  wp m (fun a t' => table t' (R a).1 (R a).2 off) (pt s) ->
  wp (with_ptable c m) (fun a s' => call_post c n op (R a).1 (R a).2 off s s') s.
Proof.
  intros Hc Hl Hm. eapply wp_mono; [by eapply with_ptable_spec|].
  intros a s' (t' & Ht' & Hs & Hc' & Hl'). by eapply call_post_of.
Qed.

(** [o] is woken and nothing else changes. *)
Definition woken_facts (P : list proc) (L : lists) (P' : list proc) (L' : lists)
    (o : option nat) (ch : chan) : Prop :=
  match o with
  | None => P' = P /\ L' = L
  | Some p => exists r, P !! p = Some r /\ p_state r = SLEEPING /\ p_chan r = ch /\
      P' = <[p := set_p_state RUNNABLE r]> P /\
      L' (LState SLEEPING) = lrem p (L (LState SLEEPING)) /\
      L' (ready_lid (p_priority r)) = L (ready_lid (p_priority r)) ++ [p] /\
      forall l, l <> LState SLEEPING -> l <> ready_lid (p_priority r) -> L' l = L l
  end.

Lemma wake_step_facts P L ch :
  woken_facts P L (wake_step ch (P, L)).1 (wake_step ch (P, L)).2 (first_sleeper P L ch) ch.
Proof.
  unfold wake_step, woken_facts. cbn [fst snd]. destruct (first_sleeper P L ch) as [p|] eqn:E; [|done].
  apply find_elem in E as [_ Hm]. destruct (matches_Some _ _ _ Hm) as (r & Hr & Ht).
  apply andb_true_iff in Ht as [Hst%bool_decide_eq_true Hch%bool_decide_eq_true].
  exists r. cbn [woken fst snd]. rewrite Hr. cbn [from_option].
  assert (Hne : LState SLEEPING <> ready_lid (p_priority r)) by (unfold ready_lid; by case_match).
  split_and!; [done..| | | |].
  - symmetry. by apply insert_alter.
  - by apply lmove_from.
  - by apply lmove_to.
  - intros l Hl1 Hl2. by apply lmove_other.
Qed.

Lemma wakeup_with_ptable c ch s : wakeup c ch s = with_ptable c (wakeup1 ch) s.
Proof.
  unfold wakeup, with_ptable, mbind, M_bind.
  destruct (acquire_lk c PTLOCK s) as [[[] s1]|]; [|done].
  destruct (lift_pt (wakeup1 ch) s1) as [[[] s2]|]; [|done].
  by destruct (release_lk c PTLOCK s2) as [[[] s3]|].
Qed.

Lemma wakeup_spec s c n op ch P L off :
  cpu_at s c n op -> lock_free s PTLOCK -> table (pt s) P L off ->
  wp (wakeup c ch) (fun _ s' => exists P' L', call_post c n op P' L' off s s' /\
    woken_facts P L P' L' (first_sleeper P L ch) ch) s.
Proof.
  intros Hc Hl H. unfold wp. rewrite wakeup_with_ptable. change (match _ with Ok _ => _ | Err _ => _ end)
    with (wp (with_ptable c (wakeup1 ch)) (fun _ s' => exists P' L', call_post c n op P' L' off s s' /\
      woken_facts P L P' L' (first_sleeper P L ch) ch) s).
  eapply wp_mono; [apply (with_ptable_call s c n op _ (fun _ => wake_step ch (P, L)) off); [done..|]|].
  { by apply wakeup1_spec. }
  intros [] s' Hs'. eexists _, _. split; [exact Hs'|]. apply wake_step_facts.
Qed.

(** C37: [wakeup] makes exactly one process runnable, the first of the SLEEPING list
    that sleeps on the channel, and puts it at the tail of its ready list; without
    a sleeper on the channel nothing changes.  Every other slot is untouched, also
    the further processes sleeping on the same channel. *)
Theorem wakeup_first_sleeper s c n op ch P L off :
  cpu_at s c n op -> lock_free s PTLOCK -> table (pt s) P L off ->
  wp (wakeup c ch) (fun _ s' => exists P' L', call_post c n op P' L' off s s' /\
    woken_facts P L P' L' (first_sleeper P L ch) ch) s.
Proof. apply wakeup_spec. Qed.

(** [kill] marks the process with the given pid as killed and returns 0; a
    sleeping one becomes runnable.  With no such process in use it returns -1 and
    changes nothing. *)
Theorem kill_marks_process s c n op pid P L off :
  cpu_at s c n op -> lock_free s PTLOCK -> table (pt s) P L off ->
  wp (kill c pid) (fun v s' => exists P' L', call_post c n op P' L' off s s' /\
    match kill_target P L pid with
    | None => v = -1 /\ P' = P /\ (forall p r, P !! p = Some r -> p ∉ off -> p_state r <> UNUSED ->
        p_pid r <> u32 pid)
    | Some p => v = 0 /\ exists r, P !! p = Some r /\ p_pid r = u32 pid /\ p_state r <> UNUSED /\
        P' = <[p := set_p_killed 1 (set_p_state (if decide (p_state r = SLEEPING) then RUNNABLE
                                                 else p_state r) r)]> P
    end) s.
Proof.
  intros Hc Hl H. unfold kill.
  eapply wp_mono; [eapply with_ptable_spec; [done|done|by apply kill_body_spec]|].
  intros v s' (t' & Ht' & Hs & Hc' & Hl').
  assert (Hpost : forall P' L', table t' P' L' off -> call_post c n op P' L' off s s').
  { intros P' L' H'. by eapply call_post_of. }
  destruct (kill_target P L pid) as [p|] eqn:E; destruct Ht' as [-> Ht'].
  - eexists _, _. split; [by apply Hpost|]. split; [done|].
    apply find_elem in E as [Hin Hm]. destruct (matches_Some _ _ _ Hm) as (r & Hr & Ht).
    exists r. apply Z.eqb_eq in Ht. split_and!; [done|done| |].
    + apply elem_of_app in Hin as [(st & Hin & _ & Hne)%elem_on_states|(i & _ & Hin)%elem_on_ready];
        destruct (table_elem _ _ _ H Hin) as (r' & Hr' & Hh & _); simplify_eq.
      * destruct (home_state _ _ Hh). congruence.
      * destruct (home_ready _ _ Hh). congruence.
    + unfold killed_at. rewrite Hr. cbn [fmap option_fmap option_map].
      destruct (decide (p_state r = SLEEPING)) as [Hs1|Hs1].
      * rewrite bool_decide_eq_true_2 by congruence. cbn [woken fst].
        rewrite alter_twice. symmetry. by rewrite <-(insert_alter _ _ _ _ Hr).
      * rewrite bool_decide_eq_false_2 by congruence. cbn [fst].
        rewrite <-(insert_alter _ _ _ _ Hr). by f_equal.
  - eexists _, _. split; [by apply Hpost|]. split_and!; [done|done|].
    intros p r Hr Hoff Hst Hpid.
    assert (Hin : p ∈ on_states L ++ on_ready L).
    { apply elem_of_app. rewrite (rep_concat_elem _ _ _ _ state_lids _ _ (proj1 H) Hr),
        (rep_concat_elem _ _ _ _ ready_lids _ _ (proj1 H) Hr), home_state_lids, home_ready_lids.
      - destruct (decide (p_state r = RUNNABLE)); tauto.
      - destruct H as [_ HP]. rewrite Forall_lookup in HP. eauto. }
    apply list_elem_of_In in Hin. pose proof (List.find_none _ _ E _ Hin) as Hn.
    unfold matches in Hn. rewrite Hr in Hn. cbn in Hn. unfold has_pid in Hn.
    by apply Z.eqb_neq in Hn.
Qed.

(** [setpriority] with a priority in range finds the process among the ready,
    sleeping and running ones.  If the priority differs from the present one the
    process gets it with a full budget, and a runnable process moves to the tail of
    the ready list of its new priority.  Without such a process: -1, no change. *)
Theorem setpriority_moves s c n op pid priority P L off :
  cpu_at s c n op -> lock_free s PTLOCK -> table (pt s) P L off ->
  0 <= priority <= Z.of_nat MAXPRIO ->
  wp (setpriority c pid priority) (fun v s' => exists P' L', call_post c n op P' L' off s s' /\
    match prio_target P L pid with
    | None => v = -1 /\ P' = P /\ L' = L
    | Some p => v = 0 /\ exists r, P !! p = Some r /\ p_pid r = u32 pid /\
        if p_priority r =? priority then P' = P /\ L' = L else
        P' = <[p := set_p_budget BUDGET (set_p_priority priority r)]> P /\
        (p_state r = RUNNABLE ->
           L' (ready_lid (p_priority r)) = lrem p (L (ready_lid (p_priority r))) /\
           L' (ready_lid priority) = L (ready_lid priority) ++ [p]) /\
        (p_state r <> RUNNABLE -> L' = L)
    end) s.
Proof.
  intros Hc Hl H Hprio. unfold setpriority.
  eapply wp_mono; [eapply with_ptable_spec; [done|done|by apply setpriority_body_spec]|].
  intros v s' (t' & Ht' & Hs & Hc' & Hl').
  assert (Hpost : forall P' L', table t' P' L' off -> call_post c n op P' L' off s s').
  { intros P' L' H'. by eapply call_post_of. }
  destruct (prio_target P L pid) as [p|] eqn:E; destruct Ht' as [-> Ht']; [|eauto 8].
  eexists _, _. split; [by apply Hpost|]. split; [done|].
  apply find_elem in E as [Hin Hm]. destruct (matches_Some _ _ _ Hm) as (r & Hr & Ht).
  exists r. apply Z.eqb_eq in Ht. split_and!; [done|done|].
  unfold reprioritised. rewrite Hr. destruct (Z.eqb_spec (p_priority r) priority) as [|Hne]; [done|].
  cbn [fst snd]. split; [by rewrite <-(insert_alter _ _ _ _ Hr)|]. split.
  - intros Hst. rewrite bool_decide_eq_true_2 by done.
    assert (prio_ok r) as Hpr by (destruct H as [_ HP]; rewrite Forall_lookup in HP; eauto).
    assert (ready_lid (p_priority r) <> ready_lid priority).
    { unfold ready_lid, prio_ok in *. destruct (Z.ltb_spec (p_priority r) 0), (Z.ltb_spec priority 0); try lia.
      intros [= ?]. lia. }
    split; [by apply lmove_from|by apply lmove_to].
  - intros Hst. by rewrite bool_decide_eq_false_2.
Qed.

(** * Exit and wait *)

Lemma wake_length ch P L : length (wake_step ch (P, L)).1 = length P.
Proof.
  unfold wake_step. cbn [fst snd]. destruct (first_sleeper P L ch); [|done]. cbn [woken fst].
  apply length_alter.
Qed.
Lemma reparented_length cur init off P L : length (reparented cur init off P L).1 = length P.
Proof.
  unfold reparented. induction (length (kids P cur (L (LState ZOMBIE)))) as [|n IH].
  - unfold adopt_all. cbn. apply length_imap.
  - rewrite Nat.iter_succ, <-IH. destruct (Nat.iter n _ _) as [P1 L1]. apply wake_length.
Qed.

(** How [exit] of [cur] changes the slot of another process: a child gets the parent
    [init]; a process sleeping on the parent of [cur], or on [init], may wake up. *)
Definition bystander (cur : nat) (init : option nat) (adopts : bool) (r r' : proc) : Prop :=
  let r1 := if adopts then adopt cur init r else r in
  r' = r1 \/ p_state r = SLEEPING /\ r' = set_p_state RUNNABLE r1.

Lemma reparented_slot cur init off P L p r' :
  (reparented cur init off P L).1 !! p = Some r' -> exists r, P !! p = Some r /\
    bystander cur init (bool_decide (p ∉ off) && negb (bool_decide (p_state r = UNUSED))) r r'.
Proof.
  intros (r1 & Hr1 & Hd)%wakes_lookup. unfold adopt_all in Hr1. rewrite list_lookup_imap in Hr1.
  destruct (P !! p) as [r|]; [|done]. cbn in Hr1. injection Hr1 as <-. exists r. split; [done|].
  unfold bystander. destruct Hd as [->|[Hs ->]]; [by left|right]. split; [|done].
  apply andb_true_iff in Hs as [Hs%bool_decide_eq_true _]. destruct (_ && _); [|done].
  by rewrite adopt_state in Hs.
Qed.

Lemma exited_slot now cur init off P L p r' :
  p <> cur -> (exited now cur init off P L).1 !! p = Some r' -> exists r, P !! p = Some r /\
    bystander cur init (bool_decide (p ∉ off) && negb (bool_decide (p_state r = UNUSED))) r r'.
Proof.
  intros Hne. unfold exited. cbn zeta. cbn [fst]. rewrite list_lookup_alter_ne by done.
  intros (r1 & Hr1 & Hb)%reparented_slot. apply wake_lookup in Hr1 as (r & Hr & Hd).
  exists r. split; [done|]. destruct Hd as [->|[Hs ->]]; [done|].
  apply andb_true_iff in Hs as [Hs%bool_decide_eq_true _]. revert Hb. unfold bystander. cbn.
  rewrite Hs. cbn. destruct (bool_decide (p ∉ off)); cbn.
  - rewrite adopt_state_comm. intros [->|[[=] _]]. by right.
  - intros [->|[[=] _]]. by right.
Qed.

Lemma bystander_state cur init b r r' :
  bystander cur init b r r' -> p_state r <> SLEEPING -> p_state r' = p_state r /\ p_pid r' = p_pid r.
Proof.
  intros [->|[? _]] Hne; [|done]. destruct b; [|done]. unfold adopt. by destruct (bool_decide _).
Qed.
Lemma charge_pid now r : p_pid (charge now r) = p_pid r.
Proof. unfold charge. destruct (_ <=? 0); [|done]. by destruct (0 <? p_priority r). Qed.

Lemma table_lookup t P L off p : table t P L off -> (p < NPROC)%nat -> exists r, P !! p = Some r.
Proof. intros [H _] Hp. apply lookup_lt_is_Some. by rewrite (rep_len _ _ _ _ _ H). Qed.

Lemma exited_self now cur init off P L t' r :
  table t' (exited now cur init off P L).1 (exited now cur init off P L).2 off ->
  P !! cur = Some r -> p_state r = RUNNING ->
  exists r', (exited now cur init off P L).1 !! cur = Some r' /\ p_state r' = ZOMBIE /\
    p_sz r' = 0 /\ p_pid r' = p_pid r.
Proof.
  intros Ht Hr Hst. assert (Hlt : (cur < NPROC)%nat).
  { pose proof (rep_len _ _ _ _ _ (proj1 Ht)) as Hlen. apply lookup_lt_Some in Hr.
    unfold exited in Hlen. cbn zeta in Hlen. cbn [fst] in Hlen. rewrite length_alter in Hlen.
    rewrite <-Hlen. by rewrite reparented_length, wake_length. }
  destruct (table_lookup _ _ _ _ _ Ht Hlt) as [r' Hr']. exists r'. split; [done|].
  unfold exited in Hr'. cbn zeta in Hr'. cbn [fst] in Hr'.
  rewrite list_lookup_alter_eq, Hr in Hr'. cbn [from_option] in Hr'.
  apply fmap_Some in Hr' as (r2 & Hr2 & ->). cbn.
  apply reparented_slot in Hr2 as (r1 & Hr1 & Hb). apply wake_lookup in Hr1 as (r0 & Hr0 & Hd).
  simplify_eq. destruct Hd as [->|[Hs _]]; cycle 1.
  { apply andb_true_iff in Hs as [Hs%bool_decide_eq_true _]. congruence. }
  destruct (bystander_state _ _ _ _ _ Hb) as [_ E]; [congruence|]. by rewrite charge_pid, E.
Qed.

Lemma exited_wakes now cur init off P L t' r w :
  table t' (exited now cur init off P L).1 (exited now cur init off P L).2 off ->
  P !! cur = Some r -> p_state r <> SLEEPING ->
  first_sleeper P L (pchan (p_parent r)) = Some w ->
  exists r', (exited now cur init off P L).1 !! w = Some r' /\ p_state r' = RUNNABLE.
Proof.
  intros Ht Hr Hst Hw. pose proof Hw as Hw'. apply find_elem in Hw' as [_ Hm].
  destruct (matches_Some _ _ _ Hm) as (rw & Hrw & Hs).
  apply andb_true_iff in Hs as [Hs%bool_decide_eq_true _].
  assert (Hne : w <> cur) by congruence.
  assert (exists r', (exited now cur init off P L).1 !! w = Some r') as [r' Hr'].
  { apply lookup_lt_is_Some. unfold exited. cbn zeta. cbn [fst].
    rewrite length_alter, reparented_length, wake_length. by eapply lookup_lt_Some. }
  exists r'. split; [done|]. unfold exited in Hr'. cbn zeta in Hr'. cbn [fst] in Hr'.
  rewrite list_lookup_alter_ne in Hr' by done. rewrite Hr in Hr'. cbn [from_option] in Hr'.
  apply reparented_slot in Hr' as (r1 & Hr1 & Hb). unfold wake_step in Hr1. cbn [fst snd] in Hr1.
  rewrite Hw in Hr1. cbn [woken fst] in Hr1. rewrite list_lookup_alter_eq, Hrw in Hr1.
  injection Hr1 as <-. by destruct (bystander_state _ _ _ _ _ Hb) as [E _].
Qed.

(** What [exit] of [cur], whose slot was [r], does to the table [P], [L]. *)
Record exit_facts (cur : nat) (init : option nat) (off : gset nat) (P : list proc) (L : lists)
    (r : proc) (P' : list proc) : Prop := {
  ex_zombie : exists r', P' !! cur = Some r' /\ p_state r' = ZOMBIE /\ p_sz r' = 0 /\
    p_pid r' = p_pid r;
  ex_no_children : forall p r', p <> cur -> P' !! p = Some r' -> p ∉ off -> p_state r' <> UNUSED ->
    p_parent r' <> Some cur;
  ex_others : forall p r', p <> cur -> P' !! p = Some r' -> exists r0, P !! p = Some r0 /\
    bystander cur init (bool_decide (p ∉ off) && negb (bool_decide (p_state r0 = UNUSED))) r0 r';
  ex_parent_woken : forall w, first_sleeper P L (pchan (p_parent r)) = Some w ->
    exists r', P' !! w = Some r' /\ p_state r' = RUNNABLE
}.

(** C33: [exit], under the lock: the process becomes a zombie of size 0; no process in
    use has it as its parent any more, its children have [initproc]; apart from that
    other processes change at most by waking up; and if the first process sleeping
    in [wait] for it is asleep, it is made runnable. *)
Theorem exit_hands_over now t P L off cur init r :
  table t P L off -> cur ∈ L (LState RUNNING) -> P !! cur = Some r -> init <> Some cur ->
  wp (exit_body now cur init) (fun _ t' => exists P' L', table t' P' L' off /\
    exit_facts cur init off P L r P') t.
Proof.
  intros H Hc Hr Hinit. eapply wp_mono; [by apply exit_body_spec|]. intros [] t' Ht'.
  eexists _, _. split; [exact Ht'|]. destruct (table_elem _ _ _ H Hc) as (r2 & Hr2 & Hh & _).
  simplify_eq. destruct (home_state _ _ Hh) as [Hst _]. split.
  - by eapply exited_self.
  - intros p r' Hne Hr' Hoff Hu. destruct (exited_slot _ _ _ _ _ _ _ _ Hne Hr') as (r0 & Hr0 & Hb).
    rewrite bool_decide_eq_true_2 in Hb by done. unfold bystander in Hb. cbn [andb] in Hb.
    destruct (bool_decide_reflect (p_state r0 = UNUSED)) as [E|E]; cbn [negb] in Hb.
    + destruct Hb as [->|[E2 _]]; congruence.
    + destruct Hb as [->|[_ ->]]; cbn; by apply adopt_not_child.
  - intros p r' Hne Hr'. by eapply exited_slot.
  - intros w Hw. eapply exited_wakes; [exact Ht'|exact Hr|congruence|done].
Qed.

End calls.

(** ** [wait] *)

Section waiting.
Context {X : Type} `{!Services X}.
Context (swtch_out : nat -> K X unit).
Implicit Types s : kstate X.

(** The reaped slot. *)
Definition reaped_slot (r : proc) : proc :=
  set_p_state UNUSED (reap_fields (set_p_kstack None r)).

Lemma scan_zombie_child P L cur z : scan_result P L cur = Return z ->
  exists r, P !! z = Some r /\ p_parent r = Some cur /\ p_state r = ZOMBIE /\
    exists st, z ∈ L (LState st).
Proof.
  unfold scan_result. destruct (List.find _ _) as [p|] eqn:E; [|done]. intros [= ->].
  apply find_elem in E as [Hin Hm]. destruct (matches_Some _ _ _ Hm) as (r & Hr & Ht).
  apply elem_on_states in Hin as (st & Hin & _).
  apply andb_true_iff in Ht as [Hp%bool_decide_eq_true Hz%bool_decide_eq_true]. eauto 8.
Qed.

(** One round of [wait] that finds a zombie: its pages are freed and the slot goes
    back to the free list. *)
Lemma wait_round_reaps n s c cur z r P L off ks pd (G : X -> Prop) :
  cpu_at s c 1 (Some cur) -> lock_held s PTLOCK c -> table (pt s) P L off ->
  scan_result P L cur = Return z -> P !! z = Some r ->
  p_kstack r = Some ks -> p_pgdir r = Some pd ->
  wp (sv_kfree ks) (fun _ x1 => wp (sv_freevm pd) (fun _ => G) x1) (ext s) ->
  wp (wait_loop swtch_out (S n) c cur) (fun v s' => v = s32 (p_pid r) /\ G (ext s') /\
    cpu_at s' c 0 (Some cur) /\ lock_free s' PTLOCK /\
    table (pt s') (<[z := reaped_slot r]> P) (lmove L z (LState ZOMBIE) (LState UNUSED)) off) s.
Proof.
  intros Hc Hl H Hscan Hr Hks Hpd Hsv. cbn [wait_loop]. apply wp_bind, wp_lift_pt.
  eapply wp_mono; [exact (wait_scan_spec _ _ _ _ cur H)|]. intros o t1 [-> ->].
  replace (set_pt (pt s) s) with s by (by destruct s). rewrite Hscan.
  destruct (scan_zombie_child _ _ _ _ Hscan) as (r' & Hr' & Hpar & Hz & st & Hin). simplify_eq.
  destruct (table_elem _ _ _ H Hin) as (r' & Hr' & Hh & _ & _ & Hlt). simplify_eq.
  destruct (home_state _ _ Hh) as [Hs _]. rewrite Hz in Hs. subst st.
  apply wp_bind. eapply wp_kread; [done..|]. apply wp_bind. eapply wp_kread; [done..|].
  rewrite Hks. apply wp_bind. eapply wp_deref; [done|]. apply wp_bind, wp_lift_ext.
  eapply wp_mono; [exact Hsv|]. intros [] x1 Hsv1. apply wp_bind.
  eapply wp_kwr; [exact H|exact Hr|done|done|done|by rewrite Hz|done|]. intros t2 H2.
  pose proof (lookup_alter_Some (set_p_kstack None) _ _ _ Hr) as Hr2.
  apply wp_bind. eapply wp_kread; [exact H2|exact Hr2|done|]. cbn [p_pgdir set_p_kstack]. rewrite Hpd.
  apply wp_bind. eapply wp_deref; [done|]. apply wp_bind, wp_lift_ext.
  eapply wp_mono; [exact Hsv1|]. intros [] x2 Hx2. apply wp_bind, wp_lift_pt.
  eapply wp_mono; [eapply reap_spec; [exact H2|done]|]. intros [] t3 H3. apply wp_bind.
  unfold reaped in H3. cbn [fst snd] in H3. rewrite alter_twice in H3.
  eapply (wp_release_lk _ c _ 1); [exact Hc|lia|exact Hl|]. intros s4 Hs4 Hc4 Hl4. apply wp_ret.
  split_and!; [done|by rewrite (sk_ext _ _ _ _ Hs4)|done..|].
  rewrite (sk_pt _ _ _ _ Hs4). rewrite (insert_alter (fun r => reaped_slot r)) by done.
  exact H3.
Qed.

(** [wait] in a process with a zombie child, whose memory the other subsystems take back. *)
Lemma wait_spec n s c cur z r P L off ks pd (G : X -> Prop) :
  cpu_at s c 0 (Some cur) -> lock_free s PTLOCK -> table (pt s) P L off ->
  scan_result P L cur = Return z -> P !! z = Some r ->
  p_kstack r = Some ks -> p_pgdir r = Some pd ->
  wp (sv_kfree ks) (fun _ x1 => wp (sv_freevm pd) (fun _ => G) x1) (ext s) ->
  p_parent r = Some cur /\ p_state r = ZOMBIE /\
  wp (wait swtch_out (S n) c) (fun v s' => v = s32 (p_pid r) /\ G (ext s') /\
    cpu_at s' c 0 (Some cur) /\ lock_free s' PTLOCK /\
    table (pt s') (<[z := reaped_slot r]> P) (lmove L z (LState ZOMBIE) (LState UNUSED)) off) s.
Proof.
  intros Hc Hl H Hscan Hr Hks Hpd Hsv.
  destruct (scan_zombie_child _ _ _ _ Hscan) as (r' & Hr' & Hpar & Hz & _). simplify_eq.
  split_and!; [done..|]. eapply cur_acquire; [done..|]. intros s1 Hs1 Hc1 Hl1.
  eapply wait_round_reaps; [done|done| |done..|].
  - by rewrite (sk_pt _ _ _ _ Hs1).
  - by rewrite (sk_ext _ _ _ _ Hs1).
Qed.

(** [wait] in a process without children, or in a killed process without a zombie
    child, returns -1 and changes nothing. *)
Theorem wait_without_children n s c cur r P L off :
  cpu_at s c 0 (Some cur) -> lock_free s PTLOCK -> table (pt s) P L off -> P !! cur = Some r ->
  (forall p rp, P !! p = Some rp -> p ∉ off -> p_state rp <> UNUSED -> p_parent rp = Some cur ->
     p_killed r <> 0 /\ p_state rp <> ZOMBIE) ->
  wp (wait swtch_out (S n) c) (fun v s' => v = -1 /\ pt s' = pt s /\
    cpu_at s' c 0 (Some cur) /\ lock_free s' PTLOCK) s.
Proof.
  intros Hc Hl H Hr Hno. eapply cur_acquire; [done..|]. intros s1 Hs1 Hc1 Hl1. cbn [wait_loop].
  assert (H1 : table (pt s1) P L off) by (by rewrite (sk_pt _ _ _ _ Hs1)).
  apply wp_bind, wp_lift_pt.
  eapply wp_mono; [exact (wait_scan_spec _ _ _ _ cur H1)|]. intros o t1 [-> ->].
  replace (set_pt (pt s1) s1) with s1 by (by destruct s1).
  assert (Hchild : forall p l, p ∈ L l -> l <> LState UNUSED -> forall rp, P !! p = Some rp ->
    child_of cur rp = true -> p_killed r <> 0 /\ p_state rp <> ZOMBIE).
  { intros p l Hin Hl' rp Hrp Hch%bool_decide_eq_true.
    destruct (table_elem _ _ _ H Hin) as (r' & Hr' & Hh & _ & Hoff & _). simplify_eq.
    apply (Hno p); try done. intros E. apply Hl'. by apply home_other. }
  unfold scan_result. destruct (List.find _ _) as [z|] eqn:Ez.
  { apply find_elem in Ez as [Hin Hm]. destruct (matches_Some _ _ _ Hm) as (rz & Hrz & Ht).
    apply elem_on_states in Hin as (st & Hin & _ & Hu).
    apply andb_true_iff in Ht as [Hp Hz%bool_decide_eq_true].
    destruct (Hchild z _ Hin ltac:(congruence) _ Hrz Hp). done. }
  assert (Hk : existsb (matches P (child_of cur)) (on_states L ++ on_ready L) = true -> p_killed r <> 0).
  { intros (p & Hin%list_elem_of_In & Hm)%existsb_exists. destruct (matches_Some _ _ _ Hm) as (rp & Hrp & Ht).
    apply elem_of_app in Hin as [(st & Hin & _ & Hu)%elem_on_states|(i & _ & Hin)%elem_on_ready].
    - by destruct (Hchild p _ Hin ltac:(congruence) _ Hrp Ht).
    - by destruct (Hchild p _ Hin ltac:(done) _ Hrp Ht). }
  apply wp_bind. eapply wp_kread; [done..|].
  destruct (existsb _ _); cbn [negb orb].
  - destruct (Z.eqb_spec (p_killed r) 0) as [E|]; [by destruct (Hk eq_refl)|]. cbn [negb].
    apply wp_bind. eapply (wp_release_lk _ c _ 1); [done|lia|done|]. intros s2 Hs2 Hc2 Hl2. apply wp_ret.
    split_and!; try done. by rewrite (sk_pt _ _ _ _ Hs2), (sk_pt _ _ _ _ Hs1).
  - apply wp_bind. eapply (wp_release_lk _ c _ 1); [done|lia|done|]. intros s2 Hs2 Hc2 Hl2. apply wp_ret.
    split_and!; try done. by rewrite (sk_pt _ _ _ _ Hs2), (sk_pt _ _ _ _ Hs1).
Qed.

End waiting.
