(* ===== verification/Fork.v ===== *)
(** [fork]: the child is a copy of the parent that returns 0, or nothing changes. *)

From stdpp Require Import base tactics numbers option list gmap fin_maps sets strings.
From Stdlib Require Import ZArith Lia.
From S2P Require Import Prelude ProcDefs StateLists PtableRep Spinlock CString Kernel Proc ProcFacts ProcLife KernelFacts SchedFacts System SystemFacts Boot.

Section fork.
Context {X : Type} `{!Services X}.
Context (forkret_addr : Z).
Implicit Types s : kstate X.

Lemma wp_kwr_off f s P L off p (Q : unit -> kstate X -> Prop) :
  table (pt s) P L off -> p ∈ off -> (p < NPROC)%nat ->
  (forall r, set_p_next None (f r) = f (set_p_next None r)) ->
  (forall r, prio_ok r -> prio_ok (f r)) ->
  (forall t', table t' (alter f p P) L off -> Q tt (set_pt t' s)) -> wp (lift_pt (wr f p)) Q s.
Proof. intros. apply wp_lift_pt. by eapply table_wr_off. Qed.

(** ** Duplicating the open files *)

Definition dup_ext (fs : list (option nat)) : M X unit :=
  for_each (fun f => match f with Some f => sv_filedup f | None => mret tt end) fs.
Lemma dup_files_spec fs s (Q : unit -> kstate X -> Prop) (R : X -> Prop) :
  wp (dup_ext fs) (fun _ x => R x) (ext s) -> (forall x, R x -> Q tt (set_ext x s)) ->
  wp (dup_files fs) Q s.
Proof.
  revert s Q. unfold dup_ext, dup_files. induction fs as [|f fs IH]; intros s Q Hd HQ; cbn in *.
  - apply wp_ret. apply (HQ (ext s)) in Hd. by destruct s.
  - apply wp_bind. apply wp_unbind in Hd. destruct f as [f|].
    + apply wp_lift_ext. eapply wp_mono; [exact Hd|]. intros [] x Hx. by eapply IH.
    + by eapply IH.
Qed.

(** ** The child *)

(** The slot [rn] that [fork] makes of the allocated slot for the parent [r], with kernel stack
    [ks] and page directory [d]. *)
Record child_slot (cur : nat) (r : proc) (pid ks d : Z) (st : procstate) (rn : proc) : Prop := {
  ch_state : p_state rn = st;
  ch_pid : p_pid rn = pid;
  ch_parent : p_parent rn = Some cur;
  ch_sz : p_sz rn = p_sz r;
  ch_pgdir : p_pgdir rn = Some d;
  ch_kstack : p_kstack rn = Some ks;
  ch_tf : p_tf rn = set_tf_eax 0 (p_tf r);
  ch_cwd : p_cwd rn = p_cwd r;
  ch_files : forall fd f, p_ofile r !! fd = Some (Some f) -> p_ofile rn !! fd = Some (Some f);
  ch_uid : p_uid rn = p_uid r;
  ch_gid : p_gid rn = p_gid r;
  ch_name : cstr (p_name rn) = take 15 (cstr (p_name r));
  ch_prio : p_priority rn = DEFAULTPRIO;
  ch_budget : p_budget rn = BUDGET
}.

(** A parent whose arrays have their declared sizes. *)
Record parent_ok (r : proc) : Prop := {
  pa_files : length (p_ofile r) = NOFILE;
  pa_name : length (p_name r) = 16%nat /\ 0 ∈ p_name r
}.

Definition copied (cur : nat) (r : proc) (cwd : nat) (nm : list Z) (r0 : proc) : proc :=
  set_p_gid (p_gid r) (set_p_uid (p_uid r) (set_p_name nm (set_p_cwd (Some cwd)
    (set_p_ofile (copy_ofile (p_ofile r) (p_ofile r0)) (set_p_tf (set_tf_eax 0 (p_tf r))
      (set_p_parent (Some cur) (set_p_sz (p_sz r) r0))))))).

Lemma fork_copy_spec s P L off cur np r r0 cwd (D : X -> Prop) (Q : Z -> kstate X -> Prop) :
  table (pt s) P L off -> np ∈ off -> cur <> np -> P !! cur = Some r -> P !! np = Some r0 ->
  p_cwd r = Some cwd -> parent_ok r -> length (p_name r0) = 16%nat ->
  wp (dup_ext (p_ofile r)) (fun _ x => wp (sv_idup cwd) (fun _ => D) x) (ext s) ->
  (forall t' x nm, D x -> cstr nm = take 15 (cstr (p_name r)) ->
     table t' (alter (copied cur r cwd nm) np P) L off -> Q (p_pid r0) (set_ext x (set_pt t' s))) ->
  wp (fork_copy cur np (p_sz r)) Q s.
Proof.
  intros H Hnp Hne Hr Hr0 Hcwd [Hof [Hnl Hnz]] Hn0 Hsv HQ. unfold fork_copy.
  assert (Hlt : (np < NPROC)%nat) by (by eapply table_lt).
  assert (Hc : forall f, alter f np P !! cur = Some r) by (intros; by rewrite list_lookup_alter_ne).
  apply wp_bind. eapply wp_kwr_off; [exact H|done..|]. intros t1 H1.
  apply wp_bind. eapply wp_kwr_off; [exact H1|done..|]. intros t2 H2. rewrite alter_twice in H2.
  apply wp_bind. eapply wp_kread; [exact H2|apply Hc|done|].
  apply wp_bind. eapply wp_kwr_off; [exact H2|done..|]. intros t3 H3. rewrite alter_twice in H3.
  apply wp_bind. eapply wp_kread; [exact H3|apply Hc|done|].
  apply wp_bind. eapply dup_files_spec; [exact Hsv|]. intros x1 Hsv1.
  apply wp_bind. eapply wp_kwr_off; [exact H3|done..|]. intros t4 H4. rewrite alter_twice in H4.
  apply wp_bind. eapply wp_kread; [exact H4|apply Hc|done|]. rewrite Hcwd.
  apply wp_bind, wp_nonnull, wp_bind, wp_lift_ext. eapply wp_mono; [exact Hsv1|]. intros [] x2 Hx2.
  apply wp_bind. eapply wp_kwr_off; [exact H4|done..|]. intros t5 H5. rewrite alter_twice in H5.
  apply wp_bind. eapply wp_kread; [exact H5|apply Hc|done|].
  apply wp_bind. eapply wp_kread; [exact H5|by apply lookup_alter_Some|done|].
  destruct (safestrcpy_cstr (p_name r0) (p_name r) 16) as (nm & Hcp & _ & _ & Hcs & _); [done|lia|].
  apply wp_bind. eapply wp_deref; [exact Hcp|].
  apply wp_bind. eapply wp_kwr_off; [exact H5|done..|]. intros t6 H6. rewrite alter_twice in H6.
  apply wp_bind. eapply wp_kread; [exact H6|by apply lookup_alter_Some|done|].
  apply wp_bind. eapply wp_kread; [exact H6|apply Hc|done|].
  apply wp_bind. eapply wp_kwr_off; [exact H6|done..|]. intros t7 H7. rewrite alter_twice in H7.
  apply wp_bind. eapply wp_kread; [exact H7|apply Hc|done|].
  apply wp_bind. eapply wp_kwr_off; [exact H7|done..|]. intros t8 H8. rewrite alter_twice in H8.
  apply wp_ret. by apply (HQ t8 x2 nm).
Qed.

(** ** Giving up *)

Lemma fork_abort_spec s c n op P L off np r0 ks (F : X -> Prop) :
  cpu_at s c n op -> lock_free s PTLOCK -> table (pt s) P L (off ∪ {[np]}) -> np ∉ off ->
  P !! np = Some r0 -> p_kstack r0 = Some ks -> wp (sv_kfree ks) (fun _ => F) (ext s) ->
  wp (fork_abort c np) (fun v s' => v = -1 /\ F (ext s') /\ cpu_at s' c n op /\ lock_free s' PTLOCK /\
    table (pt s') (alter (fun r => set_p_state UNUSED (set_p_kstack None r)) np P)
      (lset L (LState UNUSED) (L (LState UNUSED) ++ [np])) off) s.
Proof.
  intros Hc Hl H Hnp Hr0 Hks Hsv. assert (Hlt : (np < NPROC)%nat) by (by eapply table_lt).
  assert (Hn0 : 0 <= n) by (destruct Hc as (k0 & _ & [? _] & <- & _); done).
  assert (Hin : np ∈ off ∪ {[np]}) by set_solver.
  unfold fork_abort. apply wp_bind. eapply wp_kread; [done..|]. rewrite Hks.
  apply wp_bind. eapply wp_deref; [done|]. apply wp_bind, wp_lift_ext.
  eapply wp_mono; [exact Hsv|]. intros [] x1 Hx1.
  apply wp_bind. eapply wp_kwr_off; [exact H|done..|]. intros t1 H1.
  apply wp_bind. eapply wp_kwr_off; [exact H1|done..|]. intros t2 H2. rewrite alter_twice in H2.
  apply wp_bind. eapply (wp_acquire_lk _ c); [exact Hc|exact Hl|]. intros s3 Hs3 Hc3 Hl3.
  apply wp_bind, wp_lift_pt. rewrite (sk_pt _ _ _ _ Hs3). destruct H2 as [H2 HP2].
  eapply wp_mono; [eapply off_put; [exact H2|exact HP2|done|by apply lookup_alter_Some|by apply home_other]|].
  intros [] t4 H4. apply wp_bind. eapply (wp_release_lk _ c _ (n + 1)); [exact Hc3|lia|exact Hl3|].
  intros s5 Hs5 Hc5 Hl5. replace (n + 1 - 1) with n in Hc5 by lia. apply wp_ret.
  assert (Hx5 : ext s5 = x1) by (rewrite (sk_ext _ _ _ _ Hs5); exact (sk_ext _ _ _ _ Hs3)).
  split_and!; [done|by rewrite Hx5|done..|]. rewrite (sk_pt _ _ _ _ Hs5). eapply table_off_eq; [|exact H4]. set_solver.
Qed.

(** ** The whole *)

(** What the other subsystems do for [fork]: every call returns.  [kalloc] and [copyuvm] may run
    out of memory, which leaves them in a state with [F]; otherwise there are a kernel stack and a
    page directory, and a state in relation [D] to them. *)
Definition fork_services (x : X) (pd sz : Z) (fs : list (option nat)) (cwd : nat)
    (F : X -> Prop) (D : Z -> Z -> X -> Prop) : Prop :=
  wp sv_kalloc (fun oks x1 =>
    match oks with
    | None => F x1
    | Some ks =>
        wp (sv_copyuvm pd sz) (fun npd x2 =>
          match npd with
          | None => wp (sv_kfree ks) (fun _ => F) x2
          | Some d => wp (dup_ext fs) (fun _ x3 => wp (sv_idup cwd) (fun _ => D ks d) x3) x2
          end) x1
    end) x.

(** No process that is in use has changed. *)
Definition in_use_same (P P' : list proc) : Prop :=
  forall p r, P !! p = Some r -> p_state r <> UNUSED -> P' !! p = Some r.

Definition fork_post (c : nat) (n : Z) (cur : nat) (r : proc) (P : list proc) (L : lists)
    (off : gset nat) (F : X -> Prop) (D : Z -> Z -> X -> Prop) s (v : Z) s' : Prop :=
  cpu_at s' c n (Some cur) /\ lock_free s' PTLOCK /\ exists P' L', table (pt s') P' L' off /\
  in_use_same P P' /\
  (v = -1 /\ (L (LState UNUSED) = [] /\ ext s' = ext s \/ F (ext s')) /\ (forall st, st <> UNUSED -> L' (LState st) = L (LState st)) \/
   exists np rn ks d, list.head (L (LState UNUSED)) = Some np /\ v = s32 (nextpid s) /\
     P' !! np = Some rn /\ child_slot cur r (nextpid s) ks d RUNNABLE rn /\ D ks d (ext s') /\
     L' (ready_lid DEFAULTPRIO) = L (ready_lid DEFAULTPRIO) ++ [np]).

Lemma in_use_alter f np P r0 : P !! np = Some r0 -> p_state r0 = UNUSED -> in_use_same P (alter f np P).
Proof.
  intros Hr0 Hst p r Hr Hne. rewrite list_lookup_alter_ne; [done|]. intros ->. congruence.
Qed.

(** Detached, with a page directory: copy and publish. *)
Lemma fork_finish s c n cur np r r0 P L off cwd (D : X -> Prop) :
  cpu_at s c n (Some cur) -> lock_free s PTLOCK -> table (pt s) P L (off ∪ {[np]}) -> np ∉ off ->
  cur <> np -> P !! cur = Some r -> P !! np = Some r0 -> p_cwd r = Some cwd -> parent_ok r ->
  length (p_name r0) = 16%nat ->
  wp (dup_ext (p_ofile r)) (fun _ x => wp (sv_idup cwd) (fun _ => D) x) (ext s) ->
  wp (pid ← fork_copy cur np (p_sz r);
      acquire_lk c PTLOCK;; lift_pt (fork_publish np);; release_lk c PTLOCK;; mret (s32 pid))
     (fun v s' => v = s32 (p_pid r0) /\ D (ext s') /\ cpu_at s' c n (Some cur) /\ lock_free s' PTLOCK /\
        exists nm, cstr nm = take 15 (cstr (p_name r)) /\
        table (pt s') (alter (fun r1 => set_p_state RUNNABLE (copied cur r cwd nm r1)) np P)
          (lset L (ready_lid (p_priority r0)) (L (ready_lid (p_priority r0)) ++ [np])) off) s.
Proof.
  intros Hc Hl H Hnp Hne Hr Hr0 Hcwd Hpa Hn0 Hsv.
  assert (Hlt : (np < NPROC)%nat) by (by eapply table_lt).
  assert (Hn : 0 <= n) by (destruct Hc as (k0 & _ & [? _] & <- & _); done).
  assert (Hin : np ∈ off ∪ {[np]}) by set_solver.
  apply wp_bind. eapply fork_copy_spec; [exact H|done..|]. intros t1 x1 nm Hx1 Hnm H1.
  apply wp_bind. eapply (wp_acquire_lk _ c); [exact Hc|exact Hl|]. intros s2 Hs2 Hc2 Hl2.
  apply wp_bind, wp_lift_pt. rewrite (sk_pt _ _ _ _ Hs2).
  eapply wp_mono; [eapply publish_spec; [exact H1|done|by apply lookup_alter_Some|done]|].
  intros [] t3 H3. apply wp_bind. eapply (wp_release_lk _ c _ (n + 1)); [exact Hc2|lia|exact Hl2|].
  intros s4 Hs4 Hc4 Hl4. replace (n + 1 - 1) with n in Hc4 by lia. apply wp_ret.
  assert (Hx4 : ext s4 = x1) by (rewrite (sk_ext _ _ _ _ Hs4); exact (sk_ext _ _ _ _ Hs2)).
  split_and!; [done|by rewrite Hx4|done..|]. exists nm. split; [done|]. rewrite (sk_pt _ _ _ _ Hs4).
  rewrite alter_twice in H3. eapply table_off_eq; [|exact H3]. set_solver.
Qed.

Lemma child_of_copied cur r cwd nm pid ks now npd d ru :
  p_cwd r = Some cwd -> parent_ok r -> length (p_ofile ru) = NOFILE ->
  cstr nm = take 15 (cstr (p_name r)) -> npd = Some d ->
  child_slot cur r pid ks d RUNNABLE (set_p_state RUNNABLE (copied cur r cwd nm
    (set_p_pgdir npd (allocated forkret_addr pid ks now ru)))).
Proof.
  intros Hcwd [Hof _] Hfu Hnm ->. split; try done. intros fd f Hf. cbn. unfold copy_ofile.
  rewrite lookup_zip_with, Hf. cbn.
  destruct (lookup_lt_is_Some_2 (p_ofile ru) fd) as [y Hy].
  { rewrite Hfu, <-Hof. by eapply lookup_lt_Some. }
  by rewrite Hy.
Qed.

(** From the allocated slot on. *)
Lemma fork_allocated (fa : proc -> proc) s c n cur np r ru P L off pd cwd ks pid (F : X -> Prop) (D : Z -> X -> Prop) :
  cpu_at s c n (Some cur) -> lock_free s PTLOCK ->
  table (pt s) (alter fa np P) (lmove L np (LState UNUSED) (LState EMBRYO)) off ->
  list.head (L (LState UNUSED)) = Some np -> np ∉ off -> np ∉ L (LState EMBRYO) -> cur <> np ->
  P !! cur = Some r -> P !! np = Some ru -> p_state ru = UNUSED ->
  length (p_name (fa ru)) = 16%nat -> p_kstack (fa ru) = Some ks -> p_pid (fa ru) = pid ->
  p_priority (fa ru) = DEFAULTPRIO ->
  (forall d nm, cstr nm = take 15 (cstr (p_name r)) -> child_slot cur r pid ks d RUNNABLE
     (set_p_state RUNNABLE (copied cur r cwd nm (set_p_pgdir (Some d) (fa ru))))) ->
  p_pgdir r = Some pd -> p_cwd r = Some cwd -> parent_ok r ->
  wp (sv_copyuvm pd (p_sz r)) (fun npd x2 =>
    match npd with
    | None => wp (sv_kfree ks) (fun _ => F) x2
    | Some d => wp (dup_ext (p_ofile r)) (fun _ x3 => wp (sv_idup cwd) (fun _ => D d) x3) x2
    end) (ext s) ->
  wp (acquire_lk c PTLOCK;;
      lift_pt (fork_detach np);;
      release_lk c PTLOCK;;
      opd ← lift_pt (rd p_pgdir cur);
      pd ← deref (fun _ => opd);
      sz ← lift_pt (rd p_sz cur);
      npd ← lift_ext (sv_copyuvm pd sz);
      lift_pt (wr (set_p_pgdir npd) np);;
      match npd with
      | None => fork_abort c np
      | Some _ =>
          pid ← fork_copy cur np sz;
          acquire_lk c PTLOCK;; lift_pt (fork_publish np);; release_lk c PTLOCK;; mret (s32 pid)
      end)
     (fun v s' => cpu_at s' c n (Some cur) /\ lock_free s' PTLOCK /\ exists P' L',
        table (pt s') P' L' off /\ in_use_same P P' /\
        (v = -1 /\ F (ext s') /\ (forall st, st <> UNUSED -> L' (LState st) = L (LState st)) \/
         exists rn d, v = s32 pid /\ P' !! np = Some rn /\ child_slot cur r pid ks d RUNNABLE rn /\ D d (ext s') /\
           L' (ready_lid DEFAULTPRIO) = L (ready_lid DEFAULTPRIO) ++ [np])) s.
Proof.
  intros Hc Hl H Hhd Hoff HnE Hne Hr Hru Hst Hnm Hks Hpid Hprio Hch Hpd Hcwd Hpa Hsv.
  assert (Hn : 0 <= n) by (destruct Hc as (k0 & _ & [? _] & <- & _); done).
  set (P1 := alter fa np P) in *.
  set (L1 := lmove L np (LState UNUSED) (LState EMBRYO)) in *.
  assert (Hr1 : P1 !! np = Some (fa ru)) by (by apply lookup_alter_Some).
  assert (Hc1 : P1 !! cur = Some r) by (unfold P1; by rewrite list_lookup_alter_ne).
  assert (Hin : np ∈ L1 (LState EMBRYO)) by (unfold L1; rewrite lmove_to by done; set_solver).
  apply wp_bind. eapply (wp_acquire_lk _ c); [exact Hc|exact Hl|]. intros s2 Hs2 Hc2 Hl2.
  apply wp_bind, wp_lift_pt. rewrite (sk_pt _ _ _ _ Hs2). eapply wp_mono; [by eapply detach_spec|].
  intros [] t3 H3. apply wp_bind. eapply (wp_release_lk _ c _ (n + 1)); [exact Hc2|lia|exact Hl2|].
  intros s4 Hs4 Hc4 Hl4. replace (n + 1 - 1) with n in Hc4 by lia.
  assert (H4 : table (pt s4) P1 (lset L1 (LState EMBRYO) (lrem np (L1 (LState EMBRYO)))) (off ∪ {[np]}))
    by (rewrite (sk_pt _ _ _ _ Hs4); exact H3).
  assert (Hx4 : ext s4 = ext s) by (rewrite (sk_ext _ _ _ _ Hs4); apply (sk_ext _ _ _ _ Hs2)).
  set (L2 := lset L1 (LState EMBRYO) (lrem np (L1 (LState EMBRYO)))) in *.
  assert (HL2 : forall l, l <> LState UNUSED -> L2 l = L l).
  { intros l Hlu. unfold L2, L1. destruct (decide (l = LState EMBRYO)) as [->|].
    - rewrite lset_eq, lmove_to by done. unfold lrem. rewrite filter_app. fold (lrem np (L (LState EMBRYO))).
      rewrite lrem_absent, filter_cons_False by tauto. by rewrite app_nil_r.
    - rewrite lset_ne by done. by apply lmove_other. }
  apply wp_bind. eapply wp_kread; [exact H4|exact Hc1|done|]. rewrite Hpd.
  apply wp_bind. eapply wp_deref; [done|]. apply wp_bind. eapply wp_kread; [exact H4|exact Hc1|done|].
  apply wp_bind, wp_lift_ext. rewrite Hx4. eapply wp_mono; [exact Hsv|]. intros npd x5 Hsv5.
  apply wp_bind. eapply wp_kwr_off; [exact H4|set_solver|by eapply table_lt|done|done|]. intros t6 H6.
  pose proof (lookup_alter_Some (set_p_pgdir npd) _ _ _ Hr1) as Hr6.
  assert (Hc6 : alter (set_p_pgdir npd) np P1 !! cur = Some r) by (by rewrite list_lookup_alter_ne).
  destruct npd as [d|].
  - eapply wp_mono; [eapply fork_finish; [exact Hc4|exact Hl4|exact H6|done..|exact Hsv5]|].
    intros v s7 (-> & Hx7 & Hc7 & Hl7 & nm & Hnm7 & H7). unfold P1 in H7. rewrite !alter_twice in H7.
    split_and!; [done..|]. eexists _, _. split; [exact H7|]. split; [by eapply in_use_alter|].
    right. eexists _, d. split; [cbn; by rewrite Hpid|]. split; [by apply lookup_alter_Some|].
    split; [by apply Hch|]. split; [done|]. cbn [p_priority set_p_pgdir]. rewrite Hprio, lset_eq, HL2; [done|].
    unfold ready_lid. by case_match.
  - eapply wp_mono; [eapply fork_abort_spec; [exact Hc4|exact Hl4|exact H6|done|exact Hr6|done|exact Hsv5]|].
    intros v s7 (-> & Hx7 & Hc7 & Hl7 & H7). unfold P1 in H7. rewrite !alter_twice in H7.
    split_and!; [done..|]. eexists _, _. split; [exact H7|]. split; [by eapply in_use_alter|].
    left. split; [done|]. split; [done|]. intros st Hst'. rewrite lset_ne by congruence. apply HL2. congruence.
Qed.

(** Every slot has its name and file arrays. *)
Definition arrays_ok (r : proc) : Prop := length (p_name r) = 16%nat /\ length (p_ofile r) = NOFILE.

Lemma fork_spec s c n cur r P L off pd cwd (F : X -> Prop) (D : Z -> Z -> X -> Prop) :
  cpu_at s c n (Some cur) -> lock_free s PTLOCK -> table (pt s) P L off ->
  cur ∈ L (LState RUNNING) -> P !! cur = Some r -> Forall arrays_ok P -> 0 ∈ p_name r ->
  p_pgdir r = Some pd -> p_cwd r = Some cwd ->
  fork_services (ext s) pd (p_sz r) (p_ofile r) cwd F D ->
  wp (fork forkret_addr c) (fork_post c n cur r P L off F D s) s.
Proof.
  intros Hc Hl H Hin Hr Harr Hnz Hpd Hcwd Hsv. unfold fork. rewrite Forall_lookup in Harr.
  apply wp_bind. eapply wp_curproc; [done|]. intros s1 Hs1 Hk1 Hc1. apply wp_bind.
  assert (H1 : table (pt s1) P L off) by (by rewrite (sk_pt _ _ _ _ Hs1)).
  assert (Hl1 : lock_free s1 PTLOCK) by (eapply lock_free_same; [|done]; by rewrite Hk1).
  eapply (allocproc_spec forkret_addr s1); [exact Hc1|exact Hl1|exact H1|
    rewrite (sk_ext _ _ _ _ Hs1); exact Hsv|..].
  - intros Hnone s2 Hs2 Hc2 Hl2. apply wp_ret. split_and!; [done..|]. exists P, L.
    rewrite (sk_pt _ _ _ _ Hs2). split_and!; [done|by intros p r' Hr' _|]. left. split_and!; [done| |done]. left. split; [done|].
    rewrite (sk_ext _ _ _ _ Hs2). exact (sk_ext _ _ _ _ Hs1).
  - rewrite (sk_nextpid _ _ _ _ Hs1). intros np ks x t2 s2 Hhd Hsv2 H2 Hs2 Hc2 Hl2.
    assert (Hnp : np ∈ L (LState UNUSED)) by (destruct (L (LState UNUSED)); simplify_eq/=; by left).
    destruct (table_elem _ _ _ H Hnp) as (ru & Hru & Hh & _ & Hoff & _).
    destruct (home_state _ _ Hh) as [Hst _].
    destruct (table_elem _ _ _ H Hin) as (rc & Hrc & Hhc & _). simplify_eq.
    destruct (Harr _ _ Hru) as [Hn1 Hf1]. destruct (Harr _ _ Hr) as [Hn2 Hf2].
    assert (Hpa : parent_ok r) by (by split).
    eapply wp_mono; [eapply (fork_allocated (allocated forkret_addr (nextpid s) ks (ticks s1)))|];
      [exact Hc2|exact Hl2|rewrite (sk_pt _ _ _ _ Hs2); exact H2|exact Hhd|exact Hoff| | |exact Hr|
       exact Hru|exact Hst|exact Hn1|done|done|done| |exact Hpd|exact Hcwd|exact Hpa| |].
    + intros HE. destruct (table_elem _ _ _ H HE) as (r' & Hr' & Hh' & _). congruence.
    + intros ->. congruence.
    + intros d nm Hnm. by eapply child_of_copied.
    + rewrite (sk_ext _ _ _ _ Hs2). exact Hsv2.
    + intros v s3 (Hc3 & Hl3 & P' & L' & H3 & Hu & Hd). split_and!; [done..|]. exists P', L'.
      split_and!; [done..|]. destruct Hd as [(? & ? & ?)|(rn & d & ?)]; [left; by auto|right]. exists np, rn, ks, d. tauto.
  - rewrite (sk_nextpid _ _ _ _ Hs1). intros np x t2 s2 Hhd Hx H2 Hs2 Hc2 Hl2. apply wp_ret.
    assert (Hnp : np ∈ L (LState UNUSED)) by (destruct (L (LState UNUSED)); simplify_eq/=; by left).
    destruct (table_elem _ _ _ H Hnp) as (ru & Hru & Hh & _).
    destruct (home_state _ _ Hh) as [Hst _].
    split_and!; [done..|]. eexists _, _. rewrite (sk_pt _ _ _ _ Hs2). split; [exact H2|].
    split; [by eapply in_use_alter|]. left. split; [done|].
    split; [right; by rewrite (sk_ext _ _ _ _ Hs2)|]. intros st Hst'. by apply lmove_other; congruence.
Qed.

End fork.
