(* ===== verification/ProcExamples.v ===== *)
(** An executable check of the process-table invariant.

    [table_check] walks the thirteen lists of a concrete [ptable] and compares them
    with the states and priorities of the slots; a table that passes satisfies
    [table] with the lists that were walked. *)

From stdpp Require Import base tactics numbers option list gmap sets strings fin_maps.
From Stdlib Require Import ZArith Lia.
From S2P Require Import Prelude ProcDefs StateLists PtableRep Spinlock CString Kernel Proc ProcFacts ProcLife KernelFacts SchedFacts System SystemFacts Boot ProcTheorems Fork.

Definition all_lids : list lid := (LState <$> all_states) ++ (LReady <$> seq 0 (S MAXPRIO)).

Fixpoint walk (t : ptable) (fuel : nat) (p : option nat) : option (list nat) :=
  match p with
  | None => Some []
  | Some q =>
      match fuel with
      | O => None
      | S fuel => r ← procs t !! q; cons q <$> walk t fuel (p_next r)
      end
  end.
Definition chain_of (t : ptable) (l : lid) : option (list nat) :=
  v ← get_ptrs l t;
  xs ← walk t (S NPROC) (q_head v);
  if decide (q_tail v = last xs) then Some xs else None.
Definition lists_of (t : ptable) : lists := fun l =>
  if decide (l ∈ all_lids) then from_option id [] (chain_of t l) else [].

#[export] Instance prio_ok_dec r : Decision (prio_ok r).
Proof. unfold prio_ok. apply _. Defined.

Definition list_check (t : ptable) (off : gset nat) (l : lid) : bool :=
  bool_decide (is_Some (chain_of t l)) && bool_decide (NoDup (lists_of t l)) &&
  forallb (fun p => bool_decide (p ∉ off) && bool_decide (home <$> (procs t !! p) = Some l)) (lists_of t l).
Definition slot_check (t : ptable) (off : gset nat) (p : nat) : bool :=
  match procs t !! p with
  | None => false
  | Some r => bool_decide (prio_ok r) &&
      (bool_decide (p ∈ off) || bool_decide (p ∈ lists_of t (home r)))
  end.
Definition table_check (t : ptable) (off : gset nat) : bool :=
  bool_decide (length (procs t) = NPROC) && forallb (list_check t off) all_lids &&
  forallb (slot_check t off) (seq 0 NPROC).

Lemma walk_seg t fuel p xs : walk t fuel p = Some xs ->
  p = hd_or None xs /\ seg (nxt t) xs None /\ Forall (fun p => (p < length (procs t))%nat) xs.
Proof.
  revert p xs. induction fuel as [|fuel IH]; intros [q|] xs; cbn; try (by intros [= <-]).
  destruct (procs t !! q) as [r|] eqn:Hq; [|done]. cbn.
  destruct (walk t fuel (p_next r)) as [ys|] eqn:Hw; [|done]. cbn. intros [= <-].
  destruct (IH _ _ Hw) as (Hh & Hs & Hf). split_and!; [done| |].
  - cbn. split; [|done]. unfold nxt. by rewrite Hq.
  - constructor; [by eapply lookup_lt_Some|done].
Qed.

Lemma chain_is_list t l xs : chain_of t l = Some xs -> is_list t l xs.
Proof.
  unfold chain_of. destruct (get_ptrs l t) as [[h tl]|] eqn:Hp; [|done].
  cbn [mbind option_bind q_head q_tail].
  destruct (walk t (S NPROC) h) as [ys|] eqn:Hw; [|done]. cbn [mbind option_bind]. case_decide as Ht; [|done]. intros [= <-].
  destruct (walk_seg _ _ _ _ Hw) as (Hh & Hs & Hf). split_and!; [|done..].
  rewrite Hp. cbn in Ht. by rewrite Ht, Hh, hd_or_head.
Qed.

Lemma valid_all_lids l : valid_lid l <-> l ∈ all_lids.
Proof.
  unfold all_lids. rewrite elem_of_app, !list_elem_of_fmap. split.
  - destruct l as [st|i]; intros Hl; [left|right].
    + exists st. split; [done|]. by destruct st; apply (bool_decide_unpack _).
    + exists i. split; [done|]. apply elem_of_seq. cbn in Hl. lia.
  - intros [(st & -> & _)|(i & -> & Hi)]; [done|]. apply elem_of_seq in Hi. cbn. lia.
Qed.

Lemma forallb_elem {A} (f : A -> bool) xs x : forallb f xs = true -> x ∈ xs -> f x = true.
Proof. intros H Hx%list_elem_of_In. by apply (proj1 (forallb_forall f xs) H). Qed.

Lemma table_check_sound t off : table_check t off = true -> table t (pcbs t) (lists_of t) off.
Proof.
  unfold table_check. rewrite !andb_true_iff. intros [[Hlen%bool_decide_eq_true HL] HS].
  assert (Hlist : forall l, l ∈ all_lids -> chain_of t l = Some (lists_of t l) /\ NoDup (lists_of t l) /\
    forall p, p ∈ lists_of t l -> p ∉ off /\ home <$> (procs t !! p) = Some l).
  { intros l Hl. pose proof (forallb_elem _ _ _ HL Hl) as Hc. unfold list_check in Hc.
    rewrite !andb_true_iff, !bool_decide_eq_true in Hc. destruct Hc as [[[xs Hx] Hnd] Hf].
    split_and!; [|done|].
    - unfold lists_of. rewrite decide_True by done. by rewrite Hx.
    - intros p Hp. pose proof (forallb_elem _ _ _ Hf Hp) as Hc.
      by rewrite andb_true_iff, !bool_decide_eq_true in Hc. }
  assert (Hin : forall l p, p ∈ lists_of t l -> l ∈ all_lids).
  { intros l p Hp. unfold lists_of in Hp. case_decide; [done|]. by apply not_elem_of_nil in Hp. }
  assert (Hslot : forall p r, procs t !! p = Some r -> prio_ok r /\ (p ∈ off \/ p ∈ lists_of t (home r))).
  { intros p r Hr. assert (Hp : p ∈ seq 0 NPROC).
    { apply elem_of_seq. apply lookup_lt_Some in Hr. lia. }
    pose proof (forallb_elem _ _ _ HS Hp) as Hc. unfold slot_check in Hc. rewrite Hr in Hc.
    by rewrite andb_true_iff, orb_true_iff, !bool_decide_eq_true in Hc. }
  split; [split|].
  - done.
  - by rewrite pcbs_length.
  - intros l Hl%valid_all_lids. apply chain_is_list. by apply Hlist.
  - intros l. destruct (decide (l ∈ all_lids)) as [Hl|Hl]; [by apply Hlist|].
    unfold lists_of. rewrite decide_False by done. constructor.
  - intros l p. unfold pcbs. split.
    + intros Hp. destruct (Hlist l (Hin _ _ Hp)) as (_ & _ & Hf). destruct (Hf p Hp) as [Hoff Hh].
      split; [done|]. destruct (procs t !! p) as [r|] eqn:Hr; [|done]. cbn in Hh. injection Hh as Hh.
      exists (set_p_next None r). by rewrite list_lookup_fmap, Hr.
    + intros [Hoff (r' & Hr' & Hh)]. rewrite list_lookup_fmap in Hr'.
      destruct (procs t !! p) as [r|] eqn:Hr; [|done]. cbn in Hr'. injection Hr' as <-.
      change (home (set_p_next None r)) with (home r) in Hh. subst l.
      by destruct (Hslot p r Hr) as [_ [?|?]].
  - intros l p Hp. apply valid_all_lids. by eapply Hin.
  - apply Forall_lookup. intros p r'. unfold pcbs. rewrite list_lookup_fmap.
    destruct (procs t !! p) as [r|] eqn:Hr; [|done]. cbn. intros [= <-]. by apply (Hslot p r).
Qed.

(** Concrete kernels on which the theorems about proc.c apply. *)

(** ** Executable forms of the hypotheses *)

Definition cpu_check {X} (s : kstate X) (c : nat) (n : Z) (op : option nat) : bool :=
  match cpus s !! c with
  | None => false
  | Some k => (c_ncli k =? n) && (0 <=? n) && ((n =? 0) || negb (c_if k)) && bool_decide (c_proc k = op)
  end.
Definition free_check {X} (s : kstate X) : bool :=
  match locks s !! PTLOCK with Some l => lk_locked l =? 0 | None => false end.

Lemma cpu_check_sound {X} (s : kstate X) c n op : cpu_check s c n op = true -> cpu_at s c n op.
Proof.
  unfold cpu_check. destruct (cpus s !! c) as [k|] eqn:Hk; [|done].
  rewrite !andb_true_iff, orb_true_iff, bool_decide_eq_true.
  intros [[[Hn%Z.eqb_eq H0%Z.leb_le] Hi] Hp]. exists k. split_and!; try done. split; [lia|].
  intros Hpos. destruct Hi as [Hz%Z.eqb_eq|Hi%negb_true_iff]; [lia|done].
Qed.
Lemma free_check_sound {X} (s : kstate X) : free_check s = true -> lock_free s PTLOCK.
Proof.
  unfold free_check. destruct (locks s !! PTLOCK) as [l|] eqn:Hl; [|done]. intros H%Z.eqb_eq. by exists l.
Qed.

(** ** States *)

Definition demo_sys (ops : list (op (X := Z))) : sys (X := Z) :=
  match userinit 0x80103000 0 demo_kernel with
  | Err _ => MkSys demo_kernel Free ∅
  | Ok (_, s) => match run_ops ops (MkSys s Free ∅) with Err _ => MkSys s Free ∅ | Ok σ => σ end
  end.
Definition demo_state (ops : list (op (X := Z))) : kstate Z := ks (demo_sys ops).

(** Just booted; the first process running; it has a child; it sleeps, and so does the
    child, on the same channel. *)
Definition st_booted : kstate Z := demo_state [].
Definition run_first : list (op (X := Z)) := [ODispatch 0; ORelease 0].
Definition make_child : list (op (X := Z)) :=
  [OAcquire 0; OAlloc 0; ORelease 0; OFill 1 (set_p_kstack (Some 0x80600000)); OAcquire 0;
   ODetach 0 1; ORelease 0; OFill 1 (set_p_pgdir (Some 0x80601000)); OFill 1 (set_p_parent (Some 0%nat));
   OAcquire 0; OPublish 0 1; ORelease 0].
Definition st_running : kstate Z := demo_state run_first.
Definition st_family : kstate Z := demo_state (run_first ++ make_child).
Definition both_sleep : list (op (X := Z)) :=
  [ODispatch 1; ORelease 1;
   OAcquire 0; OLeave 0 (LvSleep CTicks); OResume 0; OAcquire 1; OLeave 1 (LvSleep CTicks); OResume 1].
Definition st_asleep : kstate Z := demo_state (run_first ++ make_child ++ both_sleep).
Definition child_exits : list (op (X := Z)) := [ODispatch 1; ORelease 1; OAcquire 1; OLeave 1 LvExit; OResume 1].
Definition st_zombie : kstate Z := demo_state (run_first ++ make_child ++ child_exits).
Definition st_child_running : kstate Z := demo_state (run_first ++ make_child ++ [ODispatch 1; ORelease 1]).

Lemma table_of (t : ptable) : table_check t ∅ = true -> table t (pcbs t) (lists_of t) ∅.
Proof. apply table_check_sound. Qed.
Definition backed_b (r : proc) : bool :=
  negb (bool_decide (p_state r ∈ [SLEEPING; RUNNABLE; RUNNING; ZOMBIE])) ||
  (negb (bool_decide (p_kstack r = None)) && negb (bool_decide (p_pgdir r = None))).
Lemma backed_of P : forallb backed_b P = true -> Forall backed P.
Proof.
  intros H. apply Forall_lookup. intros i r Hr. pose proof (forallb_elem _ _ _ H (list_elem_of_lookup_2 _ _ _ Hr)) as Hb.
  unfold backed_b in Hb. rewrite orb_true_iff, andb_true_iff, !negb_true_iff, !bool_decide_eq_false in Hb.
  unfold backed. tauto.
Qed.

(** ** Witnesses *)


(** Discharge the standing hypotheses of a theorem on a concrete state. *)
Ltac concrete :=
  first [ apply cpu_check_sound; vm_compute; reflexivity
        | apply free_check_sound; vm_compute; reflexivity
        | apply table_of; vm_compute; reflexivity
        | apply backed_of; vm_compute; reflexivity
        | vm_compute; reflexivity ].

Definition st_due : kstate Z := set_ticks 3000 st_family.
Lemma promotion_raises_everyone_witness :
  wp (scheduler_promote 1) (fun _ s' =>
    if PromoteAtTime st_due <=? ticks st_due then
      PromoteAtTime s' = u32 (ticks st_due + TICKS_TO_PROMOTE) /\
      forall p r, pcbs (pt st_due) !! p = Some r -> exists r', procs (pt s') !! p = Some r' /\
        set_p_next None r' =
          if bool_decide (p_state r ∈ [SLEEPING; RUNNING; RUNNABLE]) &&
             (p_priority r <? Z.of_nat MAXPRIO)
          then set_p_budget BUDGET (set_p_priority (p_priority r + 1) r) else r
    else pt s' = pt st_due /\ PromoteAtTime s' = PromoteAtTime st_due) st_due.
Proof.
  apply (promotion_raises_everyone st_due 1 (pcbs (pt st_due)) (lists_of (pt st_due))); concrete.
Defined.

Lemma wakeup_first_sleeper_witness :
  wp (wakeup 0 CTicks) (fun _ s' => exists P' L',
    call_post 0 0 None P' L' ∅ st_asleep s' /\
    woken_facts (pcbs (pt st_asleep)) (lists_of (pt st_asleep)) P' L'
      (first_sleeper (pcbs (pt st_asleep)) (lists_of (pt st_asleep)) CTicks) CTicks) st_asleep.
Proof.
  apply (wakeup_first_sleeper st_asleep 0 0 None CTicks (pcbs (pt st_asleep)) (lists_of (pt st_asleep)) ∅);
    concrete.
Defined.

(** The second sleeper on the channel is not woken. *)
Definition states_after (r : outcome (unit * kstate Z)) : option (list procstate) :=
  match r with Ok (_, s) => Some (p_state <$> take 3 (procs (pt s))) | Err _ => None end.
Theorem wakeup_leaves_sleepers :
  (p_state <$> take 3 (procs (pt st_asleep)), p_chan <$> take 2 (procs (pt st_asleep))) =
    ([SLEEPING; SLEEPING; UNUSED], [CTicks; CTicks]) /\
  states_after (wakeup 0 CTicks st_asleep) = Some [RUNNABLE; SLEEPING; UNUSED].
Proof. vm_compute. done. Qed.

Lemma kill_marks_process_witness :
  let P := pcbs (pt st_family) in let L := lists_of (pt st_family) in
  wp (kill 0 2) (fun v s' => exists P' L', call_post 0 0 (Some 0%nat) P' L' ∅ st_family s' /\
    match kill_target P L 2 with
    | None => v = -1 /\ P' = P /\ (forall p r, P !! p = Some r -> p ∉ (∅ : gset nat) -> p_state r <> UNUSED ->
        p_pid r <> u32 2)
    | Some p => v = 0 /\ exists r, P !! p = Some r /\ p_pid r = u32 2 /\ p_state r <> UNUSED /\
        P' = <[p := set_p_killed 1 (set_p_state (if decide (p_state r = SLEEPING) then RUNNABLE
                                                 else p_state r) r)]> P
    end) st_family.
Proof.
  apply (kill_marks_process st_family 0 0 (Some 0%nat) 2 (pcbs (pt st_family)) (lists_of (pt st_family)) ∅);
    concrete.
Defined.

Lemma setpriority_moves_witness :
  let P := pcbs (pt st_family) in let L := lists_of (pt st_family) in
  wp (setpriority 0 2 5) (fun v s' => exists P' L', call_post 0 0 (Some 0%nat) P' L' ∅ st_family s' /\
    match prio_target P L 2 with
    | None => v = -1 /\ P' = P /\ L' = L
    | Some p => v = 0 /\ exists r, P !! p = Some r /\ p_pid r = u32 2 /\
        if p_priority r =? 5 then P' = P /\ L' = L else
        P' = <[p := set_p_budget BUDGET (set_p_priority 5 r)]> P /\
        (p_state r = RUNNABLE ->
           L' (ready_lid (p_priority r)) = lrem p (L (ready_lid (p_priority r))) /\
           L' (ready_lid 5) = L (ready_lid 5) ++ [p]) /\
        (p_state r <> RUNNABLE -> L' = L)
    end) st_family.
Proof.
  apply (setpriority_moves st_family 0 0 (Some 0%nat) 2 5 (pcbs (pt st_family)) (lists_of (pt st_family)) ∅);
    [concrete..|unfold MAXPRIO; lia].
Defined.

Definition slot (s : kstate Z) (p : nat) : proc := default zero_proc (pcbs (pt s) !! p).

Lemma exit_hands_over_witness :
  wp (exit_body 0 1 (Some 0%nat)) (fun _ t' => exists P' L', table t' P' L' ∅ /\
    exit_facts 1 (Some 0%nat) ∅ (pcbs (pt st_child_running)) (lists_of (pt st_child_running))
      (slot st_child_running 1) P') (pt st_child_running).
Proof.
  apply (exit_hands_over 0 (pt st_child_running) (pcbs (pt st_child_running))
    (lists_of (pt st_child_running)) ∅ 1 (Some 0%nat) (slot st_child_running 1)).
  - concrete.
  - apply (bool_decide_unpack _). vm_compute. exact I.
  - concrete.
  - done.
Defined.

Lemma wait_without_children_witness :
  wp (wait (fun _ => fail ESpin) 1 0) (fun v s' => v = -1 /\ pt s' = pt st_running /\
    cpu_at s' 0 0 (Some 0%nat) /\ lock_free s' PTLOCK) st_running.
Proof.
  apply (wait_without_children (fun _ => fail ESpin) 0 st_running 0 0 (slot st_running 0)
    (pcbs (pt st_running)) (lists_of (pt st_running)) ∅); [concrete..|].
  intros p rp Hrp _ _ Hpar. exfalso.
  assert (Hn : forallb (fun r => bool_decide (p_parent r = None)) (pcbs (pt st_running)) = true)
    by (vm_compute; reflexivity).
  pose proof (forallb_elem _ _ _ Hn (list_elem_of_lookup_2 _ _ _ Hrp)) as E%bool_decide_eq_true.
  congruence.
Defined.
