(* ===== verification/Types.v ===== *)
(** Types of proc.c: the fields of the process table stay within their C types, and its pointers stay
    inside the table, whatever the routines are called with.

    [typed I R m] says that [m] keeps the invariant [I] and returns a value in [R].  The rules follow the
    shape of the code, so that the routines are checked by proof search in the database [typed]. *)

From stdpp Require Import base tactics numbers option list gmap sets strings.
From Stdlib Require Import ZArith Lia.
From S2P Require Import Prelude ProcDefs StateLists PtableRep Spinlock CString Kernel Proc KernelFacts Boot ProcExamples.

Create HintDb typed.
#[export] Hint Constants Opaque : typed.

(** * Types of values *)

Definition is_u32 (z : Z) : Prop := 0 <= z < 2 ^ 32.
Definition is_s32 (z : Z) : Prop := - 2 ^ 31 <= z < 2 ^ 31.
(** A pointer into the process table, and one that may be null. *)
Definition is_slot (p : nat) : Prop := (p < NPROC)%nat.
Definition opt_of {A} (R : A -> Prop) (o : option A) : Prop := match o with Some a => R a | None => True end.
Definition anything {A} (_ : A) : Prop := True.
(** The values of a loop: a result or the loop variable. *)
Definition ctl_of {A B} (R : A -> Prop) (R' : B -> Prop) (r : ctl A B) : Prop :=
  match r with Return a => R a | Continue b => R' b end.

Lemma u32_is_u32 z : is_u32 (u32 z).
Proof. apply u32_range. Qed.
Lemma s32_is_s32 z : is_s32 (s32 z).
Proof. apply s32_range. Qed.
#[export] Hint Resolve u32_is_u32 s32_is_s32 : typed.

(** * The judgement and its rules *)

Definition typed {S A} (I : S -> Prop) (R : A -> Prop) (m : M S A) : Prop :=
  forall s, I s -> match m s with Ok (a, s') => R a /\ I s' | Err _ => True end.

Section rules.
Context {S : Type} (I : S -> Prop).

Lemma typed_ret {A} (R : A -> Prop) a : R a -> typed I R (mret a).
Proof. intros H s Hs. done. Qed.
Lemma typed_bind {A B} (R : A -> Prop) (R' : B -> Prop) (m : M S A) (f : A -> M S B) :
  typed I R m -> (forall a, R a -> typed I R' (f a)) -> typed I R' (m ≫= f).
Proof.
  intros Hm Hf s Hs. unfold mbind, M_bind. specialize (Hm s Hs). destruct (m s) as [[a s']|]; [|done].
  destruct Hm as [Ha Hs']. by apply Hf.
Qed.
Lemma typed_weaken {A} (R R' : A -> Prop) (m : M S A) : (forall a, R a -> R' a) -> typed I R m -> typed I R' m.
Proof. intros H Hm s Hs. specialize (Hm s Hs). destruct (m s) as [[a s']|]; [|done]. naive_solver. Qed.
Lemma typed_fail {A} (R : A -> Prop) e : typed I R (fail e).
Proof. by intros s _. Qed.
Lemma typed_gets {A} (f : S -> A) (R : A -> Prop) : (forall s, I s -> R (f s)) -> typed I R (gets f).
Proof. intros H s Hs. split; [by apply H|done]. Qed.
Lemma typed_modify (f : S -> S) : (forall s, I s -> I (f s)) -> typed I anything (modify f).
Proof. intros H s Hs. split; [done|by apply H]. Qed.
Lemma typed_panic_if b msg : typed I anything (panic_if b msg).
Proof. intros s Hs. unfold panic_if. by destruct b. Qed.
Lemma typed_deref {A} (o : option A) (R : A -> Prop) : opt_of R o -> typed I R (deref (fun _ => o)).
Proof. intros H s Hs. unfold deref. by destruct o. Qed.
Lemma typed_nonnull p : opt_of is_slot p -> typed I is_slot (nonnull p).
Proof. intros H s Hs. by destruct p. Qed.
Lemma typed_nonnull_any p : typed I anything (nonnull p).
Proof. intros s Hs. by destruct p. Qed.
Lemma typed_for_each {A} (f : A -> M S unit) (P : A -> Prop) xs :
  Forall P xs -> (forall x, P x -> typed I anything (f x)) -> typed I anything (for_each f xs).
Proof.
  intros H Hf. induction H as [|x xs Hx _ IH]; cbn; [by apply typed_ret|]. eapply typed_bind; [by apply Hf|done].
Qed.
Lemma typed_zoom {T A} (get : S -> T) (set : T -> S -> S) (J : T -> Prop) (R : A -> Prop) (m : M T A) :
  (forall s, I s -> J (get s)) -> (forall s t, I s -> J t -> I (set t s)) -> typed J R m -> typed I R (zoom get set m).
Proof.
  intros Hg Hset Hm s Hs. unfold zoom. specialize (Hm (get s) (Hg s Hs)). destruct (m (get s)) as [[a t]|]; [|done].
  destruct Hm as [Ha Ht]. split; [done|by apply Hset].
Qed.
End rules.
#[export] Hint Resolve typed_fail typed_panic_if typed_nonnull typed_deref : typed.

(** Follow the code: a known routine by its lemma, otherwise the parts. *)
Ltac typed_known := solve [eauto 6 with typed].
Ltac typed_go :=
  lazymatch goal with
  | |- forall _, _ => intros; cbn beta in *; typed_go
  | |- typed _ _ (mret _) => apply typed_ret; eauto with typed
  | |- typed _ _ (mbind _ ?m) =>
      first [ eapply typed_bind; [typed_known|]; typed_go
            | apply (typed_bind _ anything); [typed_go|typed_go] ]
  | |- typed _ _ (if ?b then _ else _) => destruct b eqn:?; typed_go
  | |- typed _ _ (match ?x with _ => _ end) => destruct x eqn:?; cbn [opt_of ctl_of fst snd] in *; destruct_and?; typed_go
  | |- typed _ anything _ => first [ typed_known | apply typed_nonnull_any | eapply typed_weaken; [|typed_known]; by intros ? _ | idtac ]
  | |- typed _ _ _ => first [ typed_known | idtac ]
  | |- _ => eauto with typed
  end.

(** * The process table *)

Record wt_proc (r : proc) : Prop := {
  wt_sz : is_u32 (p_sz r);
  wt_pgdir : opt_of is_u32 (p_pgdir r);
  wt_kstack : opt_of is_u32 (p_kstack r);
  wt_pid : is_u32 (p_pid r);
  wt_parent : opt_of is_slot (p_parent r);
  wt_killed : is_s32 (p_killed r);
  wt_ofile : length (p_ofile r) = NOFILE;
  wt_name : length (p_name r) = 16%nat;
  wt_start : is_u32 (p_start_ticks r);
  wt_uid : is_u32 (p_uid r);
  wt_gid : is_u32 (p_gid r);
  wt_total : is_u32 (p_cpu_ticks_total r);
  wt_in : is_u32 (p_cpu_ticks_in r);
  wt_next : opt_of is_slot (p_next r);
  wt_priority : is_s32 (p_priority r);
  wt_budget : is_s32 (p_budget r)
}.
Definition wt_ptrs (q : ptrs) : Prop := opt_of is_slot (q_head q) /\ opt_of is_slot (q_tail q).
Record wt_table (t : ptable) : Prop := {
  wt_size : length (procs t) = NPROC;
  wt_procs : Forall wt_proc (procs t);
  wt_plist : Forall wt_ptrs (plist t);
  wt_ready : Forall wt_ptrs (ready t)
}.

Ltac field_write := intros; match goal with H : wt_proc _ |- _ => destruct H; split; (assumption || done) end.
Lemma wt_set_sz v r : is_u32 v -> wt_proc r -> wt_proc (set_p_sz v r).
Proof. field_write. Qed.
Lemma wt_set_pgdir v r : opt_of is_u32 v -> wt_proc r -> wt_proc (set_p_pgdir v r).
Proof. field_write. Qed.
Lemma wt_set_kstack v r : opt_of is_u32 v -> wt_proc r -> wt_proc (set_p_kstack v r).
Proof. field_write. Qed.
Lemma wt_set_state v r : wt_proc r -> wt_proc (set_p_state v r).
Proof. field_write. Qed.
Lemma wt_set_pid v r : is_u32 v -> wt_proc r -> wt_proc (set_p_pid v r).
Proof. field_write. Qed.
Lemma wt_set_parent v r : opt_of is_slot v -> wt_proc r -> wt_proc (set_p_parent v r).
Proof. field_write. Qed.
Lemma wt_set_tf v r : wt_proc r -> wt_proc (set_p_tf v r).
Proof. field_write. Qed.
Lemma wt_set_context v r : wt_proc r -> wt_proc (set_p_context v r).
Proof. field_write. Qed.
Lemma wt_set_chan v r : wt_proc r -> wt_proc (set_p_chan v r).
Proof. field_write. Qed.
Lemma wt_set_killed v r : is_s32 v -> wt_proc r -> wt_proc (set_p_killed v r).
Proof. field_write. Qed.
Lemma wt_set_ofile v r : length v = NOFILE -> wt_proc r -> wt_proc (set_p_ofile v r).
Proof. field_write. Qed.
Lemma wt_set_cwd v r : wt_proc r -> wt_proc (set_p_cwd v r).
Proof. field_write. Qed.
Lemma wt_set_name v r : length v = 16%nat -> wt_proc r -> wt_proc (set_p_name v r).
Proof. field_write. Qed.
Lemma wt_set_start_ticks v r : is_u32 v -> wt_proc r -> wt_proc (set_p_start_ticks v r).
Proof. field_write. Qed.
Lemma wt_set_uid v r : is_u32 v -> wt_proc r -> wt_proc (set_p_uid v r).
Proof. field_write. Qed.
Lemma wt_set_gid v r : is_u32 v -> wt_proc r -> wt_proc (set_p_gid v r).
Proof. field_write. Qed.
Lemma wt_set_total v r : is_u32 v -> wt_proc r -> wt_proc (set_p_cpu_ticks_total v r).
Proof. field_write. Qed.
Lemma wt_set_in v r : is_u32 v -> wt_proc r -> wt_proc (set_p_cpu_ticks_in v r).
Proof. field_write. Qed.
Lemma wt_set_next v r : opt_of is_slot v -> wt_proc r -> wt_proc (set_p_next v r).
Proof. field_write. Qed.
Lemma wt_set_priority v r : is_s32 v -> wt_proc r -> wt_proc (set_p_priority v r).
Proof. field_write. Qed.
Lemma wt_set_budget v r : is_s32 v -> wt_proc r -> wt_proc (set_p_budget v r).
Proof. field_write. Qed.
#[export] Hint Resolve wt_set_sz wt_set_pgdir wt_set_kstack wt_set_state wt_set_pid wt_set_parent wt_set_tf wt_set_context
  wt_set_chan wt_set_killed wt_set_ofile wt_set_cwd wt_set_name wt_set_start_ticks wt_set_uid wt_set_gid wt_set_total
  wt_set_in wt_set_next wt_set_priority wt_set_budget : typed.

(** Constants of the code. *)
Ltac const_typed := split; vm_compute; congruence.
#[export] Hint Extern 0 (is_s32 0) => const_typed : typed.
#[export] Hint Extern 0 (is_s32 1) => const_typed : typed.
#[export] Hint Extern 0 (is_s32 (-1)) => const_typed : typed.
#[export] Hint Extern 0 (is_s32 BUDGET) => const_typed : typed.
#[export] Hint Extern 0 (is_s32 DEFAULTPRIO) => const_typed : typed.
#[export] Hint Extern 0 (is_u32 0) => const_typed : typed.
#[export] Hint Extern 0 (is_u32 PGSIZE) => const_typed : typed.
#[export] Hint Extern 0 (is_u32 UID) => const_typed : typed.
#[export] Hint Extern 0 (is_u32 GID) => const_typed : typed.
Lemma opt_none {A} (R : A -> Prop) : opt_of R None.
Proof. done. Qed.
Lemma opt_some {A} (R : A -> Prop) a : R a -> opt_of R (Some a).
Proof. done. Qed.
Lemma anything_is {A} (a : A) : anything a.
Proof. done. Qed.
Lemma ctl_return {A B} (R : A -> Prop) (R' : B -> Prop) a : R a -> ctl_of R R' (Return a).
Proof. done. Qed.
Lemma ctl_continue {A B} (R : A -> Prop) (R' : B -> Prop) b : R' b -> ctl_of R R' (Continue b).
Proof. done. Qed.
#[export] Hint Resolve opt_none opt_some anything_is ctl_return ctl_continue : typed.

Lemma typed_wr f p : (forall r, wt_proc r -> wt_proc (f r)) -> typed wt_table anything (wr f p).
Proof.
  intros Hf t [H1 H2 H3 H4]. unfold wr, store. destruct (procs t !! p) as [r|] eqn:E; cbn; [|done]. split; [done|].
  split; cbn; [by rewrite length_insert| |done..]. apply Forall_insert; [done|]. apply Hf. rewrite Forall_lookup in H2. by eapply H2.
Qed.
Lemma typed_rd {A} (f : proc -> A) p (R : A -> Prop) : (forall r, wt_proc r -> R (f r)) -> typed wt_table R (rd f p).
Proof.
  intros Hf t [H1 H2 H3 H4]. unfold rd, deref. destruct (procs t !! p) as [r|] eqn:E; cbn; [|done]. split; [|done].
  apply Hf. rewrite Forall_lookup in H2. by eapply H2.
Qed.
Lemma get_ptrs_wt l t q : wt_table t -> get_ptrs l t = Some q -> wt_ptrs q.
Proof. intros [_ _ H3 H4] E. rewrite Forall_lookup in H3, H4. destruct l; cbn in E; eauto. Qed.
Lemma typed_rd_ptrs f l : (forall q, wt_ptrs q -> opt_of is_slot (f q)) -> typed wt_table (opt_of is_slot) (rd_ptrs f l).
Proof.
  intros Hf t Ht. unfold rd_ptrs, deref. destruct (get_ptrs l t) as [q|] eqn:E; cbn; [|done]. split; [|done].
  apply Hf. by eapply get_ptrs_wt.
Qed.
Lemma typed_wr_ptrs f l : (forall q, wt_ptrs q -> wt_ptrs (f q)) -> typed wt_table anything (wr_ptrs f l).
Proof.
  intros Hf t Ht. unfold wr_ptrs, store. destruct (get_ptrs l t) as [q|] eqn:E; cbn; [|done]. split; [done|].
  pose proof (Hf q (get_ptrs_wt _ _ _ Ht E)). destruct Ht, l; split; cbn; try done; by apply Forall_insert.
Qed.
Lemma typed_head l : typed wt_table (opt_of is_slot) (rd_ptrs q_head l).
Proof. apply typed_rd_ptrs. by intros q []. Qed.
Lemma typed_tail l : typed wt_table (opt_of is_slot) (rd_ptrs q_tail l).
Proof. apply typed_rd_ptrs. by intros q []. Qed.
Lemma typed_set_head l v : opt_of is_slot v -> typed wt_table anything (wr_ptrs (set_q_head v) l).
Proof. intros Hv. apply typed_wr_ptrs. by intros q []. Qed.
Lemma typed_set_tail l v : opt_of is_slot v -> typed wt_table anything (wr_ptrs (set_q_tail v) l).
Proof. intros Hv. apply typed_wr_ptrs. by intros q []. Qed.
#[export] Hint Resolve typed_head typed_tail typed_set_head typed_set_tail : typed.

(** Reading a field gives a value of its type. *)
Lemma typed_rd_next p : typed wt_table (opt_of is_slot) (rd p_next p).
Proof. apply typed_rd, wt_next. Qed.
Lemma typed_rd_parent p : typed wt_table (opt_of is_slot) (rd p_parent p).
Proof. apply typed_rd, wt_parent. Qed.
Lemma typed_rd_priority p : typed wt_table is_s32 (rd p_priority p).
Proof. apply typed_rd, wt_priority. Qed.
Lemma typed_rd_pid p : typed wt_table is_u32 (rd p_pid p).
Proof. apply typed_rd, wt_pid. Qed.
Lemma typed_rd_sz p : typed wt_table is_u32 (rd p_sz p).
Proof. apply typed_rd, wt_sz. Qed.
Lemma typed_rd_pgdir p : typed wt_table (opt_of is_u32) (rd p_pgdir p).
Proof. apply typed_rd, wt_pgdir. Qed.
Lemma typed_rd_kstack p : typed wt_table (opt_of is_u32) (rd p_kstack p).
Proof. apply typed_rd, wt_kstack. Qed.
Lemma typed_rd_uid p : typed wt_table is_u32 (rd p_uid p).
Proof. apply typed_rd, wt_uid. Qed.
Lemma typed_rd_gid p : typed wt_table is_u32 (rd p_gid p).
Proof. apply typed_rd, wt_gid. Qed.
Lemma typed_rd_name p : typed wt_table (fun nm => length nm = 16%nat) (rd p_name p).
Proof. apply typed_rd, wt_name. Qed.
Lemma typed_rd_ofile p : typed wt_table (fun fs => length fs = NOFILE) (rd p_ofile p).
Proof. apply typed_rd, wt_ofile. Qed.
Lemma typed_rd_any {A} (f : proc -> A) p : typed wt_table anything (rd f p).
Proof. by apply typed_rd. Qed.
#[export] Hint Resolve typed_rd_next typed_rd_parent typed_rd_priority typed_rd_pid typed_rd_sz typed_rd_pgdir typed_rd_kstack
  typed_rd_uid typed_rd_gid typed_rd_name typed_rd_ofile : typed.
#[export] Hint Resolve typed_rd_any | 9 : typed.
#[export] Hint Resolve typed_wr : typed.

(** ** Lists *)

Lemma typed_stateListAdd l p : is_slot p -> typed wt_table anything (stateListAdd l p).
Proof. intros Hp. unfold stateListAdd. typed_go. Qed.
Lemma typed_stateListFind fuel : forall p prev cur, opt_of is_slot prev -> opt_of is_slot cur ->
  typed wt_table (fun pc => opt_of is_slot pc.1 /\ opt_of is_slot pc.2) (stateListFind fuel p prev cur).
Proof.
  induction fuel as [|fuel IH]; intros p prev [c|] Hp Hc; cbn [stateListFind]; typed_go.
Qed.
#[export] Hint Resolve typed_stateListAdd typed_stateListFind : typed.
Lemma typed_stateListRemove l p : opt_of is_slot p -> typed wt_table anything (stateListRemove l p).
Proof.
  intros Hp. unfold stateListRemove. typed_go.
Qed.
#[export] Hint Resolve typed_stateListRemove : typed.
Lemma typed_removeOrPanic l p msg : is_slot p -> typed wt_table anything (removeOrPanic l p msg).
Proof. intros Hp. unfold removeOrPanic. typed_go. Qed.
Lemma typed_assertState p st : typed wt_table anything (assertState p st).
Proof. unfold assertState. typed_go. Qed.
#[export] Hint Resolve typed_removeOrPanic typed_assertState : typed.

Section loops.
Context {A B : Type} (R : A -> Prop) (R' : B -> Prop) (body : B -> nat -> M ptable (ctl A B)).
Context (Hbody : forall b p, R' b -> is_slot p -> typed wt_table (ctl_of R R') (body b p)).
Lemma typed_while_list fuel : forall b p, R' b -> opt_of is_slot p -> typed wt_table (ctl_of R R') (while_list fuel body b p).
Proof.
  induction fuel as [|fuel IH]; intros b [p|] Hb Hp; cbn [while_list]; typed_go.
Qed.
Lemma typed_for_lists ls : forall b, R' b -> typed wt_table (ctl_of R R') (for_lists ls body b).
Proof.
  induction ls as [|l ls IH]; intros b Hb; cbn [for_lists]; [by apply typed_ret|].
  eapply typed_bind; [apply typed_head|]. intros hd Hhd. eapply typed_bind; [by apply typed_while_list|].
  intros [a|b'] Hr; [by apply typed_ret|by apply IH].
Qed.
End loops.

(** A loop whose variables need no type. *)
Lemma typed_while_any {A B} (R : A -> Prop) fuel (body : B -> nat -> M ptable (ctl A B)) b p :
  (forall b p, is_slot p -> typed wt_table (ctl_of R anything) (body b p)) -> opt_of is_slot p ->
  typed wt_table (ctl_of R anything) (while_list fuel body b p).
Proof. intros Hb Hp. apply typed_while_list; [|done..]. intros b' p' _. apply Hb. Qed.
Lemma typed_lists_any {A B} (R : A -> Prop) ls (body : B -> nat -> M ptable (ctl A B)) b :
  (forall b p, is_slot p -> typed wt_table (ctl_of R anything) (body b p)) -> typed wt_table (ctl_of R anything) (for_lists ls body b).
Proof. intros Hb. apply typed_for_lists; [|done]. intros b' p' _. apply Hb. Qed.
(** A search over lists: what it returns has type [R]. *)
Ltac typed_search R := eapply (typed_bind _ (ctl_of R anything)); [apply typed_lists_any; typed_go|typed_go].

Lemma typed_make_runnable msg p : is_slot p -> typed wt_table anything (make_runnable msg p).
Proof. intros Hp. unfold make_runnable. typed_go. Qed.
#[export] Hint Resolve typed_make_runnable : typed.
Lemma typed_wakeup1 ch : typed wt_table anything (wakeup1 ch).
Proof.
  unfold wakeup1. eapply typed_bind; [typed_known|]. intros hd Hhd.
  apply (typed_bind _ (ctl_of (@anything unit) anything)); [|typed_go]. apply typed_while_any; [typed_go|done].
Qed.
#[export] Hint Resolve typed_wakeup1 : typed.

(** ** The bodies that run under the lock *)

Lemma typed_kill_body pid : typed wt_table is_s32 (kill_body pid).
Proof.
  unfold kill_body. apply (typed_bind _ (ctl_of is_s32 anything)); [apply typed_lists_any; typed_go|].
  intros [v|b] Hv; cbn in Hv; [typed_go|]. typed_search is_s32.
Qed.
Lemma wt_charge now r : wt_proc r -> wt_proc (charge now r).
Proof.
  intros H. unfold charge. destruct (_ <=? 0); [|auto with typed]. destruct (Z.ltb_spec 0 (p_priority r)) as [Hlt|]; [|auto with typed].
  apply wt_set_budget; [auto with typed|]. apply wt_set_priority; [|done]. pose proof (wt_priority r H). unfold is_s32 in *. lia.
Qed.
Lemma wt_promote r : wt_proc r -> wt_proc (promote r).
Proof. unfold promote. auto with typed. Qed.
#[export] Hint Resolve wt_charge wt_promote : typed.
Lemma typed_charge_budget now p : typed wt_table anything (charge_budget now p).
Proof. unfold charge_budget. typed_go. Qed.
#[export] Hint Resolve typed_charge_budget : typed.
Lemma typed_promote_in_place l : typed wt_table anything (promote_in_place l).
Proof.
  unfold promote_in_place. eapply typed_bind; [typed_known|]. intros hd Hhd.
  apply (typed_bind _ (ctl_of (@anything unit) anything)); [|typed_go]. apply typed_while_any; [typed_go|done].
Qed.
Lemma typed_promote_ready_from fuel : forall p, opt_of is_slot p -> typed wt_table anything (promote_ready_from fuel p).
Proof. induction fuel as [|fuel IH]; intros [p|] Hp; cbn [promote_ready_from]; typed_go. Qed.
#[export] Hint Resolve typed_promote_in_place typed_promote_ready_from : typed.
Lemma typed_promote_all : typed wt_table anything promote_all.
Proof.
  unfold promote_all. typed_go. apply (typed_for_each _ _ anything); [by apply Forall_true|]. intros i _. unfold promote_ready. typed_go.
Qed.
Lemma typed_pick : typed wt_table (opt_of (fun ip => is_slot ip.2)) pick.
Proof.
  unfold pick. generalize (reverse (seq 0 (S MAXPRIO))). induction l as [|i l IH]; cbn [pick_from]; typed_go.
Qed.
Lemma typed_dispatch now i p : is_u32 now -> is_slot p -> typed wt_table anything (dispatch now i p).
Proof. intros Hn Hp. unfold dispatch. typed_go. Qed.
Lemma typed_setpriority_body pid prio : is_s32 prio -> typed wt_table is_s32 (setpriority_body pid prio).
Proof.
  intros Hp. unfold setpriority_body. apply (typed_bind _ (ctl_of is_s32 anything)); [apply typed_lists_any; typed_go|].
  intros [v|b] Hv; cbn in Hv; [typed_go|]. typed_search is_s32.
Qed.
Lemma typed_getpriority_body pid : typed wt_table is_s32 (getpriority_body pid).
Proof. unfold getpriority_body. typed_search is_s32. Qed.
Lemma typed_reparent cur init : opt_of is_slot init -> typed wt_table anything (reparent cur init).
Proof.
  intros Hi. unfold reparent. apply (typed_bind _ (ctl_of (@anything unit) anything)); [apply typed_lists_any; typed_go|].
  intros _ _. typed_search (@anything unit).
Qed.
#[export] Hint Resolve typed_kill_body typed_promote_all typed_pick typed_dispatch typed_setpriority_body typed_getpriority_body typed_reparent : typed.
Lemma typed_exit_body now cur init : is_slot cur -> opt_of is_slot init -> typed wt_table anything (exit_body now cur init).
Proof. intros Hc Hi. unfold exit_body. typed_go. Qed.
Lemma typed_wait_scan cur : typed wt_table (ctl_of is_slot anything) (wait_scan cur).
Proof.
  unfold wait_scan. apply (typed_bind _ (ctl_of is_slot anything)); [apply typed_lists_any; typed_go|].
  intros [p|k] Hp; [typed_go|]. apply typed_lists_any. typed_go.
Qed.
Lemma wt_reap_fields r : wt_proc r -> wt_proc (reap_fields r).
Proof.
  intros H. unfold reap_fields. apply wt_set_killed; [auto with typed|]. apply wt_set_name; [|auto with typed].
  rewrite length_insert. apply H.
Qed.
#[export] Hint Resolve typed_exit_body typed_wait_scan wt_reap_fields : typed.
Lemma typed_reap p : is_slot p -> typed wt_table anything (reap p).
Proof. intros Hp. unfold reap. typed_go. Qed.
Lemma typed_yield_body now cur : is_slot cur -> typed wt_table anything (yield_body now cur).
Proof. intros Hc. unfold yield_body. typed_go. Qed.
Lemma typed_sleep_body now ch cur : is_slot cur -> typed wt_table anything (sleep_body now ch cur).
Proof. intros Hc. unfold sleep_body. typed_go. Qed.
Lemma typed_alloc_move p : is_slot p -> typed wt_table anything (alloc_move p).
Proof. intros Hp. unfold alloc_move. typed_go. Qed.
Lemma typed_unalloc_move p : is_slot p -> typed wt_table anything (unalloc_move p).
Proof. intros Hp. unfold unalloc_move. typed_go. Qed.
Lemma typed_fork_detach p : is_slot p -> typed wt_table anything (fork_detach p).
Proof. intros Hp. unfold fork_detach. typed_go. Qed.
Lemma typed_fork_publish p : is_slot p -> typed wt_table anything (fork_publish p).
Proof. intros Hp. unfold fork_publish. typed_go. Qed.
#[export] Hint Resolve typed_reap typed_yield_body typed_sleep_body typed_alloc_move typed_unalloc_move typed_fork_detach typed_fork_publish : typed.

(** * The kernel state *)

(** What runs on a processor is in the table. *)
Definition wt_cpu (k : cpu) : Prop := opt_of is_slot (c_proc k).
Lemma typed_cpu_modify f : (forall k, c_proc (f k) = c_proc k) -> typed wt_cpu anything (modify f).
Proof. intros Hf. apply typed_modify. intros k Hk. unfold wt_cpu. by rewrite Hf. Qed.
Lemma typed_gets_any {S A} (I : S -> Prop) (f : S -> A) : typed I anything (gets f).
Proof. by apply typed_gets. Qed.
#[export] Hint Resolve typed_gets_any | 9 : typed.
#[export] Hint Extern 2 (typed wt_cpu anything (modify _)) => (apply typed_cpu_modify; reflexivity) : typed.
Lemma typed_gets_proc : typed wt_cpu (opt_of is_slot) (gets c_proc).
Proof. by apply typed_gets. Qed.
#[export] Hint Resolve typed_gets_proc : typed.
Lemma typed_mycpu_check : typed wt_cpu anything mycpu_check.
Proof. unfold mycpu_check. typed_go. Qed.
#[export] Hint Resolve typed_mycpu_check : typed.
Lemma typed_pushcli : typed wt_cpu anything pushcli.
Proof. unfold pushcli. typed_go. Qed.
Lemma typed_popcli : typed wt_cpu anything popcli.
Proof. unfold popcli. typed_go. Qed.
#[export] Hint Resolve typed_pushcli typed_popcli : typed.
Lemma typed_myproc : typed wt_cpu (opt_of is_slot) myproc.
Proof. unfold myproc. typed_go. Qed.

Definition wt_lock (s : cpu * spinlock) : Prop := wt_cpu s.1.
Lemma typed_lock_cpu {A} (R : A -> Prop) (m : M cpu A) : typed wt_cpu R m -> typed wt_lock R (zoom fst (fun k s => (k, s.2)) m).
Proof. by apply typed_zoom. Qed.
Lemma typed_lock_modify f : (forall s, (f s).1 = s.1) -> typed wt_lock anything (modify f).
Proof. intros Hf. apply typed_modify. intros s Hs. unfold wt_lock. by rewrite Hf. Qed.
#[export] Hint Extern 2 (typed wt_lock anything (modify _)) => (apply typed_lock_modify; reflexivity) : typed.
#[export] Hint Resolve typed_lock_cpu typed_myproc : typed.
Lemma typed_holding me : typed wt_lock anything (holding me).
Proof. unfold holding. typed_go. Qed.
#[export] Hint Resolve typed_holding : typed.
Lemma typed_spin_xchg : typed wt_lock anything spin_xchg.
Proof. unfold spin_xchg. typed_go. Qed.
#[export] Hint Resolve typed_spin_xchg : typed.
Lemma typed_acquire me : typed wt_lock anything (acquire me).
Proof. unfold acquire. typed_go. Qed.
Lemma typed_release me : typed wt_lock anything (release me).
Proof. unfold release. typed_go. Qed.
#[export] Hint Resolve typed_acquire typed_release : typed.

Section state.
Context {X : Type} (IX : X -> Prop).
Implicit Types s : kstate X.

Record wt_state s : Prop := {
  ws_table : wt_table (pt s);
  ws_cpus : Forall wt_cpu (cpus s);
  ws_nextpid : is_u32 (nextpid s);
  ws_ticks : is_u32 (ticks s);
  ws_promote : is_u32 (PromoteAtTime s);
  ws_init : opt_of is_slot (initproc s);
  ws_ext : IX (ext s)
}.

Lemma typed_lift_pt {A} (R : A -> Prop) (m : M ptable A) : typed wt_table R m -> typed wt_state R (lift_pt m).
Proof. apply typed_zoom; [by intros s []|]. intros s t [] Ht. by split. Qed.
Lemma typed_lift_ext {A} (R : A -> Prop) (m : M X A) : typed IX R m -> typed wt_state R (lift_ext m).
Proof. apply typed_zoom; [by intros s []|]. intros s x [] Hx. by split. Qed.
Lemma typed_on_cpu {A} (R : A -> Prop) c (m : M cpu A) : typed wt_cpu R m -> typed wt_state R (on_cpu c m).
Proof.
  intros Hm s [H1 H2 H3 H4 H5 H6 H7]. unfold on_cpu. destruct (cpus s !! c) as [k|] eqn:Hk; [|done].
  assert (Hw : wt_cpu k) by (rewrite Forall_lookup in H2; by eapply H2). specialize (Hm k Hw). destruct (m k) as [[a k']|]; [|done].
  destruct Hm as [Ha Hk']. split; [done|]. split; try done. cbn. by apply Forall_insert.
Qed.
Lemma typed_on_lock {A} (R : A -> Prop) c i (m : M (cpu * spinlock) A) : typed wt_lock R m -> typed wt_state R (on_lock c i m).
Proof.
  intros Hm s [H1 H2 H3 H4 H5 H6 H7]. unfold on_lock. destruct (cpus s !! c) as [k|] eqn:Hk, (locks s !! i) as [l|]; try done.
  assert (Hw : wt_lock (k, l)) by (rewrite Forall_lookup in H2; by eapply H2). specialize (Hm (k, l) Hw).
  destruct (m (k, l)) as [[a [k' l']]|]; [|done]. destruct Hm as [Ha Hk']. split; [done|]. split; try done. cbn. by apply Forall_insert.
Qed.
Lemma typed_acquire_lk c i : typed wt_state anything (acquire_lk (X := X) c i).
Proof. apply typed_on_lock, typed_acquire. Qed.
Lemma typed_release_lk c i : typed wt_state anything (release_lk (X := X) c i).
Proof. apply typed_on_lock, typed_release. Qed.
Lemma typed_holding_lk c i : typed wt_state anything (holding_lk (X := X) c i).
Proof. apply typed_on_lock, typed_holding. Qed.
Lemma typed_kmyproc c : typed wt_state (opt_of is_slot) (kmyproc (X := X) c).
Proof. apply typed_on_cpu, typed_myproc. Qed.
Lemma typed_set_proc c op : opt_of is_slot op -> typed wt_state anything (on_cpu (X := X) c (modify (set_c_proc op))).
Proof. intros Hop. apply typed_on_cpu, typed_modify. by intros k _. Qed.
Lemma typed_ticks : typed wt_state is_u32 (gets ticks).
Proof. apply typed_gets, ws_ticks. Qed.
Lemma typed_nextpid : typed wt_state is_u32 (gets nextpid).
Proof. apply typed_gets, ws_nextpid. Qed.
Lemma typed_initproc : typed wt_state (opt_of is_slot) (gets initproc).
Proof. apply typed_gets, ws_init. Qed.
Lemma typed_set_nextpid v : is_u32 v -> typed wt_state anything (modify (set_nextpid v)).
Proof. intros Hv. apply typed_modify. intros s []. by split. Qed.
Lemma typed_set_promote v : is_u32 v -> typed wt_state anything (modify (set_PromoteAtTime v)).
Proof. intros Hv. apply typed_modify. intros s []. by split. Qed.
Lemma typed_set_initproc v : opt_of is_slot v -> typed wt_state anything (modify (set_initproc v)).
Proof. intros Hv. apply typed_modify. intros s []. by split. Qed.
Lemma typed_set_fsready v : typed wt_state anything (modify (set_fsready v)).
Proof. apply typed_modify. intros s []. by split. Qed.
End state.
#[export] Hint Resolve typed_lift_pt typed_lift_ext typed_acquire_lk typed_release_lk typed_holding_lk typed_kmyproc typed_set_proc
  typed_ticks typed_nextpid typed_initproc typed_set_nextpid typed_set_promote typed_set_initproc typed_set_fsready : typed.
#[export] Hint Resolve typed_on_cpu | 3 : typed.

(** Parts that run on a component. *)
Ltac typed_parts :=
  typed_go;
  repeat match goal with
  | |- typed _ _ (lift_pt _) => apply typed_lift_pt; typed_go
  | |- typed _ _ (on_cpu _ _) => apply typed_on_cpu; typed_go
  end.

Lemma safestrcpy_loop_length n : forall s t s', safestrcpy_loop s t n = Some s' -> length s' = length s.
Proof.
  induction n as [|n IH]; intros [|a s] t s'; cbn [safestrcpy_loop]; try done.
  - by intros [= <-].
  - destruct t as [|b t]; [done|]. intros (s1 & H & ->)%fmap_Some. cbn. f_equal. destruct (b =? 0); [|by eapply IH].
    destruct s; [done|]. by injection H as <-.
Qed.
Lemma safestrcpy_typed s t n m : length s = m -> opt_of (fun s' => length s' = m) (safestrcpy s t n).
Proof.
  intros <-. unfold safestrcpy. destruct (n <=? 0); [done|]. destruct (safestrcpy_loop s t _) eqn:E; [|done]. by eapply safestrcpy_loop_length.
Qed.
Lemma copy_ofile_length old new : length old = NOFILE -> length new = NOFILE -> length (copy_ofile old new) = NOFILE.
Proof. intros H1 H2. unfold copy_ofile. rewrite length_zip_with. lia. Qed.
#[export] Hint Resolve safestrcpy_typed copy_ofile_length wt_ofile wt_name : typed.

(** * The routines *)

Section routines.
Context {X : Type} `{!Services X} (IX : X -> Prop) (forkret_addr : Z).
Context (swtch_out : nat -> K X unit) (swtch_in : nat -> nat -> K X unit).
Abbreviation I := (wt_state IX).

(** The services return addresses and sizes; what runs in between keeps the types. *)
Record services_typed : Prop := {
  ts_kalloc : typed IX (opt_of is_u32) sv_kalloc;
  ts_kfree : forall a, typed IX anything (sv_kfree a);
  ts_setupkvm : typed IX (opt_of is_u32) sv_setupkvm;
  ts_inituvm : forall a, typed IX anything (sv_inituvm a);
  ts_allocuvm : forall d a b, is_u32 a -> is_u32 b -> typed IX is_u32 (sv_allocuvm d a b);
  ts_deallocuvm : forall d a b, is_u32 a -> is_u32 b -> typed IX is_u32 (sv_deallocuvm d a b);
  ts_copyuvm : forall d z, typed IX (opt_of is_u32) (sv_copyuvm d z);
  ts_freevm : forall d, typed IX anything (sv_freevm d);
  ts_filedup : forall f, typed IX anything (sv_filedup f);
  ts_fileclose : forall f, typed IX anything (sv_fileclose f);
  ts_namei_root : typed IX anything sv_namei_root;
  ts_idup : forall i, typed IX anything (sv_idup i);
  ts_iput : forall i, typed IX anything (sv_iput i);
  ts_begin_op : typed IX anything sv_begin_op;
  ts_end_op : typed IX anything sv_end_op;
  ts_iinit : typed IX anything sv_iinit_initlog
}.
Context (Hsv : services_typed) (Hout : forall c, typed I anything (swtch_out c)) (Hin : forall c p, typed I anything (swtch_in c p)).
#[local] Hint Resolve ts_kalloc ts_kfree ts_setupkvm ts_inituvm ts_allocuvm ts_deallocuvm ts_copyuvm ts_freevm ts_filedup ts_fileclose
  ts_namei_root ts_idup ts_iput ts_begin_op ts_end_op ts_iinit : typed.

Lemma typed_curproc c : typed I is_slot (curproc (X := X) c).
Proof. unfold curproc. typed_go. Qed.
#[local] Hint Resolve typed_curproc : typed.
Lemma typed_switchuvm c p : typed I anything (switchuvm (X := X) c p).
Proof. unfold switchuvm. typed_parts. Qed.
Lemma typed_switchkvm c : typed I anything (switchkvm (X := X) c).
Proof. unfold switchkvm. typed_parts. Qed.
#[local] Hint Resolve typed_switchuvm typed_switchkvm : typed.
Lemma typed_alloc_take : typed I (opt_of is_slot) (alloc_take (X := X)).
Proof. unfold alloc_take. typed_parts. Qed.
Lemma wt_alloc_fields now r : is_u32 now -> wt_proc r -> wt_proc (alloc_fields forkret_addr now r).
Proof. intros Hn Hr. unfold alloc_fields. auto 20 with typed. Qed.
#[local] Hint Resolve typed_alloc_take wt_alloc_fields : typed.
Lemma typed_alloc_finish c p ks : is_slot p -> opt_of is_u32 ks -> typed I (opt_of is_slot) (alloc_finish (X := X) forkret_addr c p ks).
Proof. intros Hp Hk. unfold alloc_finish. typed_parts. Qed.
#[local] Hint Resolve typed_alloc_finish : typed.
Lemma typed_allocproc c : typed I (opt_of is_slot) (allocproc forkret_addr c).
Proof. unfold allocproc. typed_parts. Qed.
#[local] Hint Resolve typed_allocproc : typed.

Lemma typed_initProcessLists : typed wt_table anything initProcessLists.
Proof.
  unfold initProcessLists, clear_list. typed_go; apply (typed_for_each _ _ anything); try (by apply Forall_true); typed_go.
Qed.
Lemma typed_initFreeList : typed wt_table anything initFreeList.
Proof.
  unfold initFreeList. assert (Hn : (NPROC + 0 <= NPROC)%nat) by lia. revert Hn. generalize NPROC at 1 3 as n. intros n. generalize 0%nat as p.
  induction n as [|n IH]; intros p Hn; cbn [initFreeList_from]; [typed_go|].
  assert (is_slot p) by (unfold is_slot; lia). typed_go. apply IH. lia.
Qed.
#[local] Hint Resolve typed_initProcessLists typed_initFreeList : typed.
Lemma typed_userinit_fill p : typed I anything (userinit_fill (X := X) p).
Proof. unfold userinit_fill. typed_parts. Qed.
#[local] Hint Resolve typed_userinit_fill : typed.
Lemma typed_userinit c : typed I anything (userinit forkret_addr c).
Proof. unfold userinit. typed_parts. Qed.

Lemma typed_growproc c n : typed I anything (growproc (X := X) c n).
Proof.
  unfold growproc. do 4 (eapply typed_bind; [typed_known|]; intros). apply (typed_bind _ is_u32); [typed_parts|]. typed_parts.
Qed.
Lemma typed_dup_files fs : typed I anything (dup_files (X := X) fs).
Proof. unfold dup_files. apply (typed_for_each _ _ anything); [by apply Forall_true|]. typed_parts. Qed.
#[local] Hint Resolve typed_dup_files : typed.
Lemma typed_fork_copy cur np sz : is_slot cur -> is_u32 sz -> typed I is_u32 (fork_copy (X := X) cur np sz).
Proof. intros Hc Hz. unfold fork_copy. typed_parts. Qed.
Lemma typed_fork_abort c np : is_slot np -> typed I anything (fork_abort (X := X) c np).
Proof. intros Hp. unfold fork_abort. typed_parts. Qed.
#[local] Hint Resolve typed_fork_copy typed_fork_abort : typed.
Lemma typed_fork c : typed I anything (fork forkret_addr c).
Proof. unfold fork. typed_parts. Qed.

Lemma typed_sched_enter c : typed I anything (sched_enter (X := X) c).
Proof. unfold sched_enter. typed_parts. Qed.
#[local] Hint Resolve typed_sched_enter : typed.
Lemma typed_sched c : typed I anything (sched swtch_out c).
Proof. unfold sched. typed_parts. Qed.
#[local] Hint Resolve typed_sched : typed.
Lemma typed_close_files cur fs : typed I anything (close_files (X := X) cur fs).
Proof.
  unfold close_files. apply (typed_for_each _ _ anything); [by apply Forall_true|]. typed_parts.
  apply typed_wr. intros r Hr. apply wt_set_ofile; [|done]. rewrite length_insert. apply Hr.
Qed.
#[local] Hint Resolve typed_close_files : typed.
Lemma typed_exit_files cur : typed I anything (exit_files (X := X) cur).
Proof. unfold exit_files. typed_parts. Qed.
#[local] Hint Resolve typed_exit_files : typed.
Lemma typed_exit c : typed I anything (Proc.exit swtch_out c).
Proof. unfold Proc.exit, exit_enter. typed_parts. Qed.
Lemma typed_sleep c ch lk : typed I anything (sleep swtch_out c ch lk).
Proof. unfold sleep, sleep_enter, sleep_leave. typed_parts. Qed.
#[local] Hint Resolve typed_sleep : typed.
Lemma typed_wait n c : typed I anything (wait swtch_out n c).
Proof.
  unfold wait. eapply typed_bind; [typed_known|]. intros cur Hc. eapply typed_bind; [typed_known|]. intros _ _.
  induction n as [|n IH]; cbn [wait_loop]; typed_parts.
Qed.
Lemma typed_yield c : typed I anything (yield swtch_out c).
Proof. unfold yield, yield_enter. typed_parts. Qed.
Lemma typed_scheduler_round c : typed I anything (scheduler_round swtch_in c).
Proof. unfold scheduler_round, scheduler_promote, scheduler_dispatch, scheduler_idle, scheduler_resume. typed_parts. Qed.
Lemma typed_forkret c : typed I anything (forkret (X := X) c).
Proof. unfold forkret. typed_parts. Qed.
Lemma typed_wakeup c ch : typed I anything (wakeup (X := X) c ch).
Proof. unfold wakeup. typed_parts. Qed.
Lemma typed_with_ptable {A} (R : A -> Prop) c (m : M ptable A) : typed wt_table R m -> typed I R (with_ptable (X := X) c m).
Proof. intros Hm. unfold with_ptable. typed_parts. Qed.
Lemma typed_locked_cur {A} (R : A -> Prop) c (m : nat -> M ptable A) : (forall p, is_slot p -> typed wt_table R (m p)) -> typed I R (locked_cur (X := X) c m).
Proof. intros Hm. unfold locked_cur. typed_parts. Qed.

(** ** Any sequence of calls *)

Inductive routine :=
  | RUserinit | RFork | RExit | RWait (rounds : nat) | RSleep (ch : chan) (lk : option nat) | RYield | RForkret | RScheduler
  | RWakeup (ch : chan) | RKill (pid : Z) | RSetpriority (pid priority : Z) | RGetpriority (pid : Z) | RGrow (n : Z)
  | RSetuid (uid : Z) | RSetgid (gid : Z) | RGetuid | RGetgid | RGetppid.
Definition discard {A} (m : K X A) : K X unit := m;; mret tt.
Definition run_routine (c : nat) (r : routine) : K X unit :=
  match r with
  | RUserinit => userinit forkret_addr c
  | RFork => discard (fork forkret_addr c)
  | RExit => Proc.exit swtch_out c
  | RWait n => discard (wait swtch_out n c)
  | RSleep ch lk => sleep swtch_out c ch lk
  | RYield => yield swtch_out c
  | RForkret => forkret c
  | RScheduler => scheduler_round swtch_in c
  | RWakeup ch => wakeup c ch
  | RKill pid => discard (kill c pid)
  | RSetpriority pid priority => discard (setpriority c pid (s32 priority))
  | RGetpriority pid => discard (getpriority c pid)
  | RGrow n => discard (growproc c (s32 n))
  | RSetuid uid => discard (setuid c uid)
  | RSetgid gid => discard (setgid c gid)
  | RGetuid => discard (getuid c)
  | RGetgid => discard (getgid c)
  | RGetppid => discard (getppid c)
  end.
Lemma typed_discard {A} (R : A -> Prop) (m : K X A) : typed I R m -> typed I anything (discard m).
Proof. intros Hm. unfold discard. eapply typed_bind; [done|]. intros. by apply typed_ret. Qed.
Lemma typed_fmap {A B} (f : A -> B) (R : A -> Prop) (m : M ptable A) : typed wt_table R m -> typed wt_table anything (f <$> m).
Proof. intros Hm. eapply typed_bind; [done|]. intros. by apply typed_ret. Qed.
Lemma typed_ppid_of p : typed wt_table is_u32 (ppid_of p).
Proof. unfold ppid_of. typed_go. Qed.
Lemma typed_routine c r : typed I anything (run_routine c r).
Proof.
  destruct r; cbn [run_routine];
    [apply typed_userinit|eapply typed_discard, typed_fork|apply typed_exit|eapply typed_discard, typed_wait|apply typed_sleep
    |apply typed_yield|apply typed_forkret|apply typed_scheduler_round|apply typed_wakeup|..].
  - eapply typed_discard, typed_with_ptable, typed_kill_body.
  - eapply typed_discard, typed_with_ptable, typed_setpriority_body. auto with typed.
  - eapply typed_discard, typed_with_ptable, typed_getpriority_body.
  - eapply typed_discard, typed_growproc.
  - unfold setuid. eapply typed_discard, typed_bind; [apply typed_locked_cur; intros; apply typed_wr; auto with typed|]. intros. by apply (typed_ret _ anything).
  - unfold setgid. eapply typed_discard, typed_bind; [apply typed_locked_cur; intros; apply typed_wr; auto with typed|]. intros. by apply (typed_ret _ anything).
  - eapply typed_discard, typed_locked_cur. intros. eapply typed_fmap, typed_rd_uid.
  - eapply typed_discard, typed_locked_cur. intros. eapply typed_fmap, typed_rd_gid.
  - eapply typed_discard, typed_locked_cur. intros. eapply typed_fmap, typed_ppid_of.
Qed.

End routines.

(** Services that always give the same pages, and a run: the first process starts, forks, sets its
    identity and is preempted. *)
#[local] Instance still_services : Services unit := {|
  sv_kalloc := mret (Some 0x80500000);
  sv_kfree := fun _ => mret tt;
  sv_setupkvm := mret (Some 0x80501000);
  sv_inituvm := fun _ => mret tt;
  sv_allocuvm := fun _ _ new => mret new;
  sv_deallocuvm := fun _ _ new => mret new;
  sv_copyuvm := fun _ _ => mret (Some 0x80502000);
  sv_freevm := fun _ => mret tt;
  sv_filedup := fun _ => mret tt;
  sv_fileclose := fun _ => mret tt;
  sv_namei_root := mret (Some 1%nat);
  sv_idup := fun _ => mret tt;
  sv_iput := fun _ => mret tt;
  sv_begin_op := mret tt;
  sv_end_op := mret tt;
  sv_iinit_initlog := mret tt
|}.
Lemma still_typed : services_typed (X := unit) anything.
Proof. by split; intros; apply typed_ret. Qed.
Definition still_kernel : kstate unit := {|
  pt := zero_table; PromoteAtTime := 0; locks := [initlock "ptable"; initlock "time"];
  cpus := [demo_cpu 0; demo_cpu 1]; nextpid := 0xFFFFFFFF; initproc := None; ticks := 0;
  kpgdir := 0x80400000; fsready := false; ext := tt |}.
Lemma still_wt : wt_state anything still_kernel.
Proof.
  split; try done.
  - split; [done|..]; apply Forall_replicate; by split.
  - by repeat constructor.
Qed.
(** A time slice: the process forks, takes an identity and yields. *)
Definition slice_code (c p : nat) : K unit unit :=
  forkret c;; fork 0x80103000 c;; setuid c 7;; yield_enter c;; sched_enter c;; mret tt.
Lemma slice_typed c p : typed (wt_state anything) anything (slice_code c p).
Proof.
  unfold slice_code. eapply typed_bind; [apply typed_forkret, still_typed|]. intros _ _. eapply typed_bind; [apply typed_fork, still_typed|].
  intros _ _. eapply typed_bind; [eapply typed_bind; [apply typed_locked_cur; intros; apply typed_wr; auto with typed|];
    intros; by apply (typed_ret _ anything)|]. intros _ _. apply (typed_bind _ anything).
  - unfold yield_enter. eapply typed_bind; [apply typed_curproc|]. typed_parts.
  - intros _ _. eapply typed_bind; [apply typed_sched_enter|]. intros _ _. by apply typed_ret.
Qed.
(** A process that leaves comes back at once. *)
Definition never_back (_ : nat) : K unit unit := mret tt.
Definition still_calls : list (nat * routine) := [(0%nat, RUserinit); (0%nat, RScheduler); (1%nat, RWakeup CTicks); (1%nat, RScheduler)].
Abbreviation still_run := (for_each (fun cr => run_routine 0x80103000 never_back slice_code cr.1 cr.2) still_calls still_kernel).
Lemma still_run_ok : match still_run with Ok _ => true | Err _ => false end = true.
Proof. vm_compute. reflexivity. Qed.
Lemma still_run_exists : exists s', still_run = Ok (tt, s').
Proof. pose proof still_run_ok as Hok. revert Hok. generalize still_run. intros [[[] s']|] Hok; [by exists s'|done]. Qed.
Lemma never_back_typed c : typed (wt_state anything) anything (never_back c).
Proof. by apply typed_ret. Qed.
