(* ===== verification/Memory.v ===== *)
(** Words and pages in the byte memory of the kernel: little-endian 32-bit loads
    and stores, and the address arithmetic of mmu.h and memlayout.h. *)

From stdpp Require Import base tactics numbers option list sets.
From Stdlib Require Import ZArith Lia.
From S2P Require Import Prelude ProcDefs Spinlock CString Kernel.

(** * memlayout.h and mmu.h *)

Definition EXTMEM : Z := 0x100000.
Definition PHYSTOP : Z := 0xE000000.
Definition DEVSPACE : Z := 0xFE000000.
Definition KERNLINK : Z := KERNBASE + EXTMEM.
Definition P2V (a : Z) : Z := u32 (a + KERNBASE).

Definition PDX (va : Z) : Z := Z.land (Z.shiftr va 22) 0x3FF.
Definition PTX (va : Z) : Z := Z.land (Z.shiftr va 12) 0x3FF.
Definition PGADDR (d t o : Z) : Z := u32 (Z.lor (Z.lor (Z.shiftl d 22) (Z.shiftl t 12)) o).
Definition PGMASK : Z := u32 (Z.lnot (PGSIZE - 1)).
Definition PGROUNDUP (sz : Z) : Z := Z.land (u32 (sz + PGSIZE - 1)) PGMASK.
Definition PGROUNDDOWN (a : Z) : Z := Z.land a PGMASK.
Definition PTE_P : Z := 0x001.
Definition PTE_W : Z := 0x002.
Definition PTE_U : Z := 0x004.
Definition PTE_ADDR (pte : Z) : Z := Z.land (u32 pte) (u32 (Z.lnot 0xFFF)).
Definition PTE_FLAGS (pte : Z) : Z := Z.land (u32 pte) 0xFFF.

(** A 32-bit load; stores are [put32]. *)
Definition get32 (m : mem) (a : Z) : Z :=
  m a + 256 * (m (a + 1) + 256 * (m (a + 2) + 256 * m (a + 3))).

(** * Page arithmetic *)

(** Clearing the low [k] bits. *)
Lemma land_high k a : 0 <= k <= 32 -> 0 <= a < 2 ^ 32 -> Z.land a (Z.shiftl (Z.ones (32 - k)) k) = a - a mod 2 ^ k.
Proof.
  intros Hk Ha. rewrite Z.mod_eq by lia. rewrite <-Z.shiftr_div_pow2, Z.mul_comm, <-Z.shiftl_mul_pow2 by lia.
  ring_simplify. apply Z.bits_inj'. intros n Hn. rewrite Z.land_spec.
  destruct (Z.ltb_spec n k).
  - rewrite !Z.shiftl_spec_low by lia. by rewrite andb_false_r.
  - rewrite !Z.shiftl_spec, Z.shiftr_spec by lia. replace (n - k + k) with n by lia.
    destruct (Z.ltb_spec (n - k) (32 - k)).
    + by rewrite Z.ones_spec_low, andb_true_r by lia.
    + rewrite Z.ones_spec_high, andb_false_r by lia. symmetry.
      apply (Z.bits_above_log2 a n); [lia|]. destruct (decide (a = 0)) as [->|].
      * cbn. lia.
      * apply Z.log2_lt_pow2; [lia|]. eapply Z.lt_le_trans; [apply Ha|].
        apply Z.pow_le_mono_r; lia.
Qed.

Lemma land_pgmask a : 0 <= a < 2 ^ 32 -> Z.land a PGMASK = a - a mod PGSIZE.
Proof. exact (land_high 12 a ltac:(lia)). Qed.
Lemma land_word a : 0 <= a < 2 ^ 32 -> Z.land a (u32 (Z.lnot 3)) = a - a mod 4.
Proof. exact (land_high 2 a ltac:(lia)). Qed.

Lemma PGROUNDDOWN_spec a : 0 <= a < 2 ^ 32 ->
  PGROUNDDOWN a mod PGSIZE = 0 /\ PGROUNDDOWN a <= a < PGROUNDDOWN a + PGSIZE.
Proof.
  intros Ha. unfold PGROUNDDOWN. rewrite land_pgmask by done.
  pose proof (Z.mod_pos_bound a PGSIZE ltac:(done)). split; [|lia].
  rewrite Zminus_mod, Zmod_mod, Z.sub_diag. done.
Qed.

Lemma PGROUNDUP_spec a : 0 <= a -> a + PGSIZE - 1 < 2 ^ 32 ->
  PGROUNDUP a mod PGSIZE = 0 /\ a <= PGROUNDUP a < a + PGSIZE.
Proof.
  intros Ha Hb. unfold PGROUNDUP. rewrite u32_small by (unfold PGSIZE in *; lia).
  destruct (PGROUNDDOWN_spec (a + PGSIZE - 1)) as [H1 H2]; [unfold PGSIZE in *; lia|].
  unfold PGROUNDDOWN in *. split; [done|]. lia.
Qed.

Lemma PTE_ADDR_spec a : 0 <= a < 2 ^ 32 -> PTE_ADDR a = a - a mod PGSIZE.
Proof. intros Ha. unfold PTE_ADDR. rewrite u32_small by done. by apply land_pgmask. Qed.

Lemma PTE_FLAGS_spec a : 0 <= a < 2 ^ 32 -> PTE_FLAGS a = a mod PGSIZE.
Proof.
  intros Ha. unfold PTE_FLAGS. rewrite u32_small by done.
  change 0xFFF with (Z.ones 12). by rewrite Z.land_ones by lia.
Qed.

Lemma PDX_spec va : 0 <= va < 2 ^ 32 -> PDX va = va / 2 ^ 22 /\ 0 <= PDX va < 1024.
Proof.
  intros. unfold PDX. change 0x3FF with (Z.ones 10).
  rewrite Z.land_ones, Z.shiftr_div_pow2 by lia.
  assert (0 <= va / 2 ^ 22 < 2 ^ 10) by (split; [apply Z.div_pos|apply Z.div_lt_upper_bound]; lia).
  rewrite Z.mod_small by lia. split; lia.
Qed.

Lemma PTX_spec va : PTX va = va / PGSIZE mod 1024 /\ 0 <= PTX va < 1024.
Proof.
  unfold PTX. change 0x3FF with (Z.ones 10). rewrite Z.land_ones, Z.shiftr_div_pow2 by lia.
  change (2 ^ 10) with 1024. change (2 ^ 12) with PGSIZE.
  pose proof (Z.mod_pos_bound (va / PGSIZE) 1024). lia.
Qed.

(** An address is determined by its directory index, table index and offset. *)
Lemma va_decompose va : 0 <= va < 2 ^ 32 ->
  va = PDX va * 2 ^ 22 + PTX va * PGSIZE + va mod PGSIZE.
Proof.
  intros Hva. destruct (PDX_spec va Hva) as [-> _]. destruct (PTX_spec va) as [-> _].
  replace (2 ^ 22) with (PGSIZE * 1024) by done.
  rewrite <-Z.div_div by done.
  pose proof (Z.div_mod va PGSIZE ltac:(done)).
  pose proof (Z.div_mod (va / PGSIZE) 1024 ltac:(done)). unfold PGSIZE in *. lia.
Qed.

(** * Words *)

(** Every cell holds a byte. *)
Definition byte_mem (m : mem) : Prop := forall a, 0 <= m a < 256.

Lemma byte_mput m a v : byte_mem m -> 0 <= v < 256 -> byte_mem (mput m a v).
Proof. intros Hm Hv b. unfold mput. by destruct (b =? a). Qed.
Lemma byte_put32 m a d : byte_mem m -> byte_mem (put32 m a d).
Proof. intros Hm. unfold put32. repeat apply byte_mput; try done; apply u8_range. Qed.
Lemma byte_memset m dst c n : 0 <= n -> byte_mem m -> byte_mem (memset m dst c n).
Proof.
  intros Hn Hm b. rewrite memset_bytes by done. destruct (_ && _); [apply u8_range|done].
Qed.
Lemma byte_memmove m dst src n : 0 <= n -> byte_mem m -> byte_mem (memmove m dst src n).
Proof. intros Hn Hm b. rewrite memmove_bytes by done. by destruct (_ && _). Qed.

Lemma get32_range m a : byte_mem m -> 0 <= get32 m a < 2 ^ 32.
Proof.
  intros Hm. unfold get32. pose proof (Hm a). pose proof (Hm (a + 1)).
  pose proof (Hm (a + 2)). pose proof (Hm (a + 3)). lia.
Qed.

Lemma get32_ext m m' a : (forall b, a <= b < a + 4 -> m b = m' b) -> get32 m a = get32 m' a.
Proof. intros H. unfold get32. by rewrite !H by lia. Qed.

Lemma put32_at m a d b : put32 m a d b =
  if (a <=? b) && (b <? a + 4) then u8 (Z.shiftr d (8 * (b - a))) else m b.
Proof.
  unfold put32, mput.
  destruct (Z.eqb_spec b (a + 3)), (Z.eqb_spec b (a + 2)), (Z.eqb_spec b (a + 1)),
    (Z.eqb_spec b a), (Z.leb_spec a b), (Z.ltb_spec b (a + 4)); try lia; subst; cbn [andb];
    first [done | by rewrite Z.sub_diag, Z.mul_0_r, Z.shiftr_0_r | f_equal; f_equal; lia].
Qed.

Lemma put32_other m a d b : b < a \/ a + 4 <= b -> put32 m a d b = m b.
Proof.
  intros. rewrite put32_at. by destruct (Z.leb_spec a b), (Z.ltb_spec b (a + 4)); try lia.
Qed.

Lemma get32_put32 m a d : get32 (put32 m a d) a = u32 d.
Proof.
  unfold get32. rewrite !put32_at.
  assert (E : forall k, 0 <= k < 4 -> (a <=? a + k) && (a + k <? a + 4) = true) by
    (intros; apply andb_true_iff; split; [apply Z.leb_le|apply Z.ltb_lt]; lia).
  assert (E0 := E 0 ltac:(lia)). rewrite Z.add_0_r in E0. rewrite E0, !E by lia.
  replace (8 * (a - a)) with 0 by lia. replace (8 * (a + 1 - a)) with 8 by lia.
  replace (8 * (a + 2 - a)) with 16 by lia. replace (8 * (a + 3 - a)) with 24 by lia.
  rewrite Z.shiftr_0_r, !Z.shiftr_div_pow2 by lia. unfold u8, u32.
  change (2 ^ 32) with (256 * (256 * (256 * 256))).
  rewrite 3!Z.rem_mul_r by lia. rewrite !Z.div_div by lia.
  change (2 ^ 8) with 256. change (2 ^ 16) with (256 * 256).
  change (2 ^ 24) with (256 * 256 * 256). lia.
Qed.

Lemma get32_put32_other m a d b : b + 4 <= a \/ a + 4 <= b -> get32 (put32 m a d) b = get32 m b.
Proof. intros. apply get32_ext. intros c Hc. apply put32_other. lia. Qed.
