(* ===== verification/Kalloc.v ===== *)
(** The physical page allocator: kalloc.c.

    Free pages form a list threaded through their own first words; the list is
    the abstraction the theorems are stated against. *)

From stdpp Require Import base tactics numbers option list sets relations strings.
From Stdlib Require Import ZArith Lia.
From S2P Require Import Prelude ProcDefs Spinlock CString Kernel Memory.

(** * Data *)

(** Kernel memory, the processor at hand, and [kmem]. *)
Record kmem := MkKmem {
  km_mem : mem;
  km_cpu : cpu;
  km_lock : spinlock;
  km_use_lock : Z;
  km_freelist : Z       (* 0 is the null pointer *)
}.
Definition set_mem (v : mem) (s : kmem) : kmem :=
  MkKmem v (km_cpu s) (km_lock s) (km_use_lock s) (km_freelist s).
Definition set_km_lock (v : cpu * spinlock) (s : kmem) : kmem :=
  MkKmem (km_mem s) v.1 v.2 (km_use_lock s) (km_freelist s).
Definition set_use_lock (v : Z) (s : kmem) : kmem :=
  MkKmem (km_mem s) (km_cpu s) (km_lock s) v (km_freelist s).
Definition set_freelist (v : Z) (s : kmem) : kmem :=
  MkKmem (km_mem s) (km_cpu s) (km_lock s) (km_use_lock s) v.

(** [if(kmem.use_lock) acquire(&kmem.lock); ... if(kmem.use_lock) release(&kmem.lock)] *)
Definition when_locking (m : M (cpu * spinlock) unit) : M kmem unit :=
  u ← gets km_use_lock;
  if u =? 0 then mret tt else zoom (fun s => (km_cpu s, km_lock s)) set_km_lock m.
Definition with_kmem {A} (me : nat) (m : M kmem A) : M kmem A :=
  when_locking (acquire me);;
  a ← m;
  when_locking (release me);;
  mret a.

Section code.
(** The processor, and [end], the first address after the kernel image. *)
Context (me : nat) (kend : Z).

Definition kfree (v : Z) : M kmem unit :=
  panic_if (negb (v mod PGSIZE =? 0) || (v <? kend) || (PHYSTOP <=? V2P v)) "kfree";;
  modify (fun s => set_mem (memset (km_mem s) v 1 PGSIZE) s);;
  with_kmem me (
    modify (fun s => set_mem (put32 (km_mem s) v (km_freelist s)) s);;
    modify (set_freelist v)).

Definition kalloc : M kmem Z :=
  with_kmem me (
    r ← gets km_freelist;
    (if r =? 0 then mret tt else modify (fun s => set_freelist (get32 (km_mem s) r) s));;
    mret r).

(** [for(; p + PGSIZE <= vend; p += PGSIZE) kfree(p)] *)
Fixpoint freerange_from (fuel : nat) (p vend : Z) : M kmem unit :=
  match fuel with
  | O => fail EFuel
  | S fuel =>
      if u32 (p + PGSIZE) <=? vend then kfree p;; freerange_from fuel (u32 (p + PGSIZE)) vend
      else mret tt
  end.
(** The address space has [2 ^ 20] pages. *)
Definition freerange (vstart vend : Z) : M kmem unit :=
  freerange_from (S (Z.to_nat (2 ^ 20))) (PGROUNDUP vstart) vend.

Definition kinit1 (vstart vend : Z) : M kmem unit :=
  modify (fun s => set_km_lock (km_cpu s, initlock "kmem") s);;
  modify (set_use_lock 0);;
  freerange vstart vend.
Definition kinit2 (vstart vend : Z) : M kmem unit :=
  freerange vstart vend;;
  modify (set_use_lock 1).
End code.

(** * The free list *)

Section facts.
Context (me : nat) (kend : Z).
(** The kernel is linked above [KERNBASE]. *)
Context (kend_high : KERNBASE < kend).

(** A page that the allocator manages. *)
Definition page_ok (v : Z) : Prop :=
  v mod PGSIZE = 0 /\ kend <= v < KERNBASE + PHYSTOP.

Fixpoint chain (m : mem) (h : Z) (xs : list Z) : Prop :=
  match xs with
  | [] => h = 0
  | x :: xs => h = x /\ page_ok x /\ chain m (get32 m x) xs
  end.

(** The addresses of a page. *)
Definition in_page (v a : Z) : Prop := v <= a < v + PGSIZE.

Record free_pages (s : kmem) (xs : list Z) : Prop := {
  fp_chain : chain (km_mem s) (km_freelist s) xs;
  fp_nodup : NoDup xs;
  fp_bytes : byte_mem (km_mem s);
  fp_cpu : cpu_ok (km_cpu s);
  fp_lock : lk_locked (km_lock s) = 0
}.

Lemma page_disjoint v w a : v mod PGSIZE = 0 -> w mod PGSIZE = 0 ->
  in_page v a -> in_page w a -> v = w.
Proof.
  unfold in_page. intros Hv Hw Ha Hb.
  rewrite (Z.div_mod v PGSIZE), (Z.div_mod w PGSIZE) by done. rewrite Hv, Hw.
  pose proof (Z.div_mod v PGSIZE ltac:(done)). pose proof (Z.div_mod w PGSIZE ltac:(done)).
  unfold PGSIZE in *. lia.
Qed.

Lemma chain_pages m h xs : chain m h xs -> Forall page_ok xs.
Proof. revert h. induction xs as [|x xs IH]; intros h; cbn; [done|]. intros (_ & ? & ?%IH). by constructor. Qed.

Lemma page_nonzero v : page_ok v -> v <> 0.
Proof. intros [_ ?]. unfold KERNBASE in *. lia. Qed.
Lemma page_range v : page_ok v -> 0 <= v /\ v + PGSIZE < 2 ^ 32.
Proof. intros [_ ?]. unfold KERNBASE, PHYSTOP, PGSIZE in *. lia. Qed.

(** The list only depends on the first words of its own pages. *)
Lemma chain_ext m m' h xs :
  (forall x a, x ∈ xs -> x <= a < x + 4 -> m' a = m a) -> chain m h xs -> chain m' h xs.
Proof.
  revert h. induction xs as [|x xs IH]; intros h Hm; cbn; [done|].
  intros (-> & Hx & Hc). split; [done|]. split; [done|].
  rewrite (get32_ext m' m) by (intros a Ha; eapply Hm; [left|done]).
  apply IH; [|done]. intros y a Hy. apply Hm. by right.
Qed.

Lemma V2P_page v : page_ok v -> V2P v = v - KERNBASE.
Proof. intros [_ ?]. unfold V2P. apply u32_small. unfold KERNBASE, PHYSTOP in *. lia. Qed.

(** The argument check of [kfree] accepts exactly the managed pages. *)
Lemma kfree_check v : 0 <= v < 2 ^ 32 ->
  negb (v mod PGSIZE =? 0) || (v <? kend) || (PHYSTOP <=? V2P v) = false <-> page_ok v.
Proof.
  intros Hv. unfold page_ok. rewrite !orb_false_iff, negb_false_iff, Z.eqb_eq, Z.ltb_ge, Z.leb_gt.
  split.
  - intros [[? ?] Hp]. split; [done|]. unfold V2P in Hp. rewrite u32_small in Hp; unfold KERNBASE, PHYSTOP in *; lia.
  - intros [? ?]. rewrite V2P_page by done. split; [split|]; unfold KERNBASE in *; lia.
Qed.

(** The processor and the lock after a locked section. *)
Definition relocked (s : kmem) : cpu * spinlock :=
  if km_use_lock s =? 0 then (km_cpu s, km_lock s)
  else (settle (km_cpu s), MkSpinlock 0 (lk_name (km_lock s)) None).

Lemma left_entered k : cpu_ok k -> left_cpu (entered k) = settle k.
Proof.
  intros [Hn Hi]. unfold left_cpu, entered, settle, saved_if. cbn. f_equal; [lia|].
  destruct (Z.eqb_spec (c_ncli k) 0) as [Hz|Hz]; destruct (Z.eqb_spec (c_ncli k + 1) 1); try lia.
  - by destruct (c_if k).
  - cbn. symmetry. apply Hi. lia.
Qed.

(** A locked section that computes [(a, f s)] and does not touch the lock. *)
Lemma wp_with_kmem {A} (m : M kmem A) (Q : A -> kmem -> Prop) s a f u :
  cpu_ok (km_cpu s) -> lk_locked (km_lock s) = 0 ->
  (forall kl, m (set_km_lock kl s) = Ok (a, MkKmem f kl.1 kl.2 (km_use_lock s) u)) ->
  Q a (MkKmem f (relocked s).1 (relocked s).2 (km_use_lock s) u) ->
  wp (with_kmem me m) Q s.
Proof.
  intros Hc Hl Hm HQ. unfold with_kmem, when_locking, relocked in *. wp_steps.
  destruct (Z.eqb_spec (km_use_lock s) 0) as [Hz|Hz].
  - wp_steps. specialize (Hm (km_cpu s, km_lock s)).
    change (set_km_lock _ s) with (MkKmem (km_mem s) (km_cpu s) (km_lock s) (km_use_lock s) (km_freelist s)) in Hm.
    destruct s as [x k l us fl]. cbn in *. eapply wp_run; [done|]. wp_steps. cbn. rewrite Hz. cbn. wp_steps. by rewrite Hz in HQ.
  - apply wp_zoom. eapply wp_run; [by apply acquire_free; auto|]. wp_steps.
    eapply wp_run; [apply Hm|]. wp_steps. cbn [km_use_lock km_cpu km_lock fst snd].
    destruct (Z.eqb_spec (km_use_lock s) 0); [done|]. apply wp_zoom.
    cbn [km_use_lock km_cpu km_lock fst snd]. eapply wp_run.
    + rewrite release_prefix; [|by apply entered_ok|destruct Hc; cbn; lia].
      unfold is_held. cbn. by rewrite bool_decide_eq_true_2.
    + wp_steps. by rewrite left_entered.
Qed.

Lemma relocked_ok s : cpu_ok (km_cpu s) -> lk_locked (km_lock s) = 0 ->
  cpu_ok (relocked s).1 /\ lk_locked (relocked s).2 = 0.
Proof. intros. unfold relocked. by destruct (Z.eqb_spec (km_use_lock s) 0). Qed.

(** * The operations *)

(** What freeing page [v] does to memory. *)
Definition freed_mem (m : mem) (v next : Z) : mem := put32 (memset m v 1 PGSIZE) v next.

Lemma freed_other m v next a : ~ in_page v a -> freed_mem m v next a = m a.
Proof.
  unfold in_page, freed_mem. intros Ha. rewrite put32_other by (unfold PGSIZE in *; lia).
  rewrite memset_bytes by done.
  destruct (Z.leb_spec v a), (Z.ltb_spec a (v + PGSIZE)); (done || lia).
Qed.

Lemma kfree_spec v s xs : free_pages s xs -> page_ok v -> v ∉ xs ->
  wp (kfree me kend v) (fun _ s' =>
    free_pages s' (v :: xs) /\ km_use_lock s' = km_use_lock s /\
    km_mem s' = freed_mem (km_mem s) v (km_freelist s)) s.
Proof.
  intros [Hch Hnd Hb Hc Hl] Hv Hx. pose proof (page_range v Hv) as Hr. unfold kfree. wp_step.
  apply wp_panic_if; [apply kfree_check; [unfold PGSIZE in *; lia|done]|]. wp_steps.
  eapply (wp_with_kmem _ _ _ tt (freed_mem (km_mem s) v (km_freelist s))); [done..|reflexivity|]. cbn [km_use_lock km_mem km_freelist].
  split; [|done].
  assert (Hfl : 0 <= km_freelist s < 2 ^ 32).
  { destruct xs as [|x xs]; cbn in Hch; [by rewrite Hch|]. destruct Hch as (-> & Hp & _).
    apply page_range in Hp. unfold PGSIZE in *. lia. }
  pose proof (chain_pages _ _ _ Hch) as Hps. rewrite Forall_forall in Hps.
  apply (relocked_ok s) in Hl as [Hc' Hl']; [|done].
  split; cbn [km_use_lock km_mem km_freelist km_cpu km_lock]; [|by constructor| |exact Hc'|exact Hl'].
  - split; [done|]. split; [done|]. set (m' := freed_mem _ _ _).
    change (chain m' (get32 m' v) xs).
    assert (get32 m' v = km_freelist s) as -> by (unfold m', freed_mem; by rewrite get32_put32, u32_small).
    apply (chain_ext (km_mem s)); [|done]. intros x a Hxin Ha.
    apply freed_other.
    intros Hin. assert (v = x) as ->; [|done]. apply (page_disjoint v x a); [apply Hv| |done|].
    + by apply Hps.
    + unfold in_page, PGSIZE. lia.
  - by apply byte_put32, byte_memset.
Qed.

Lemma kalloc_spec s xs : free_pages s xs ->
  wp (kalloc me) (fun r s' =>
    km_mem s' = km_mem s /\ km_use_lock s' = km_use_lock s /\
    match xs with
    | [] => r = 0 /\ free_pages s' []
    | x :: ys => r = x /\ free_pages s' ys
    end) s.
Proof.
  intros [Hch Hnd Hb Hc Hl]. pose proof (relocked_ok s Hc Hl) as [Hc' Hl']. unfold kalloc.
  destruct xs as [|x xs].
  - cbn in Hch. eapply (wp_with_kmem _ _ _ (km_freelist s)); [done..| |].
    { intros kl. unfold gets, mbind, M_bind. cbn. rewrite Hch. done. }
    cbn. split; [done|]. split; [done|]. split; [done|]. by split.
  - destruct Hch as (Hx & Hp & Hch).
    eapply (wp_with_kmem _ _ _ (km_freelist s) (km_mem s) (get32 (km_mem s) x)); [done..| |].
    { intros kl. unfold gets, mbind, M_bind. cbn [km_freelist set_km_lock]. rewrite Hx.
      destruct (Z.eqb_spec x 0) as [->|]; [by apply page_nonzero in Hp|]. reflexivity. }
    split; [done|]. split; [done|]. split; [done|]. inversion_clear Hnd. by split.
Qed.
(** * Handing all of memory to the allocator *)

Fixpoint pages (p : Z) (n : nat) : list Z :=
  match n with O => [] | S n => p :: pages (p + PGSIZE) n end.

Lemma elem_of_pages p n v : p mod PGSIZE = 0 ->
  v ∈ pages p n <-> v mod PGSIZE = 0 /\ p <= v < p + PGSIZE * Z.of_nat n.
Proof.
  revert p. induction n as [|n IH]; intros p Hp; cbn [pages].
  - split; [by intros ?%not_elem_of_nil|lia].
  - rewrite elem_of_cons, IH by (rewrite Zplus_mod, Hp; done). split.
    + intros [->|[? ?]]; (split; [done|unfold PGSIZE in *; lia]).
    + intros [Hv ?]. destruct (decide (v = p)); [by left|right]. split; [done|].
      assert (~ v < p + PGSIZE); [|unfold PGSIZE in *; lia]. intros ?.
      assert (v = p); [|done]. apply (page_disjoint v p v); try done; unfold in_page, PGSIZE in *; lia.
Qed.

Lemma freerange_from_spec n fuel p vend s xs :
  p mod PGSIZE = 0 -> kend <= p -> vend <= KERNBASE + PHYSTOP ->
  (n < fuel)%nat -> vend < p + PGSIZE * (Z.of_nat n + 1) ->
  (n = 0%nat \/ p + PGSIZE * Z.of_nat n <= vend) ->
  p < KERNBASE + PHYSTOP + PGSIZE ->
  (forall x, x ∈ xs -> x < p \/ vend <= x) ->
  free_pages s xs ->
  wp (freerange_from me kend fuel p vend) (fun _ s' =>
    free_pages s' (reverse (pages p n) ++ xs) /\ km_use_lock s' = km_use_lock s /\
    forall a, km_mem s' a <> km_mem s a -> exists v, v ∈ pages p n /\ in_page v a) s.
Proof.
  revert fuel p s xs. induction n as [|n IH]; intros fuel p s xs Hp Hk Hv Hf Hhi Hlo Hpb Hx Hs;
    (destruct fuel as [|fuel]; [lia|]); cbn [freerange_from pages].
  - rewrite u32_small by (unfold KERNBASE, PHYSTOP, PGSIZE in *; lia).
    destruct (Z.leb_spec (p + PGSIZE) vend); [unfold PGSIZE in *; lia|]. by apply wp_ret.
  - destruct Hlo as [?|Hlo]; [done|].
    assert (Hpn : p + PGSIZE <= vend) by (unfold PGSIZE in *; lia).
    rewrite u32_small by (unfold KERNBASE, PHYSTOP, PGSIZE in *; lia).
    destruct (Z.leb_spec (p + PGSIZE) vend); [|lia]. apply wp_bind.
    assert (Hpx : p ∉ xs) by (intros H'%Hx; unfold PGSIZE in *; lia).
    assert (Hpo : page_ok p) by (split; [done|unfold PGSIZE in *; lia]).
    eapply wp_mono; [apply (kfree_spec p s xs Hs Hpo Hpx)|]. cbn beta. intros [] s1 (Hs1 & Hu & Hm1).
    eapply wp_mono; [apply (IH fuel (p + PGSIZE) s1 (p :: xs)); try done; try (unfold PGSIZE in *; lia)|].
    + by rewrite Zplus_mod, Hp.
    + intros x [->|H1]%elem_of_cons; [unfold PGSIZE; lia|]. destruct (Hx x H1); unfold PGSIZE; lia.
    + cbn beta. intros [] s2 (Hs2 & Hu2 & Hm2). split; [by rewrite reverse_cons, <-(assoc_L (++))|]. split; [congruence|].
      intros a Ha. destruct (decide (km_mem s2 a = km_mem s1 a)) as [Ea|Ea].
      * exists p. split; [by left|]. rewrite Ea, Hm1 in Ha. destruct (decide (in_page p a)) as [|Hno]; [done|].
        by rewrite freed_other in Ha.
      * destruct (Hm2 a Ea) as (v & Hv1 & Hv2). exists v. split; [by right|done].
Qed.

Lemma freerange_spec vstart vend s xs :
  kend <= vstart -> vstart <= vend -> vend <= KERNBASE + PHYSTOP ->
  (forall x, x ∈ xs -> x + PGSIZE <= vstart \/ vend <= x) -> free_pages s xs ->
  wp (freerange me kend vstart vend) (fun _ s' => exists ys,
    free_pages s' (ys ++ xs) /\ km_use_lock s' = km_use_lock s /\
    (forall a, km_mem s' a <> km_mem s a -> exists v, v ∈ ys /\ in_page v a) /\
    forall v, v ∈ ys <-> v mod PGSIZE = 0 /\ vstart <= v /\ v + PGSIZE <= vend) s.
Proof.
  intros Hk Hse Hv Hx Hs. unfold freerange.
  destruct (PGROUNDUP_spec vstart) as [Hal Hr]; [unfold KERNBASE, PHYSTOP, PGSIZE in *; lia..|].
  set (p := PGROUNDUP vstart) in *.
  set (n := Z.to_nat ((vend - p) / PGSIZE)).
  pose proof (Z.div_mod (vend - p) PGSIZE ltac:(done)) as Hd.
  pose proof (Z.mod_pos_bound (vend - p) PGSIZE ltac:(done)) as Hm.
  assert (Hn : 0 <= vend - p -> Z.of_nat n = (vend - p) / PGSIZE).
  { intros. unfold n. rewrite Z2Nat.id; [done|]. apply Z.div_pos; [done|]. done. }
  assert (Hneg : vend - p < 0 -> n = 0%nat).
  { intros. unfold n. assert ((vend - p) / PGSIZE < 0); [by apply Z.div_lt_upper_bound|lia]. }
  eapply wp_mono; [apply (freerange_from_spec n _ p vend s xs)|].
  - done.
  - lia.
  - done.
  - unfold KERNBASE, PHYSTOP, PGSIZE in *. lia.
  - destruct (Z.lt_ge_cases (vend - p) 0); [rewrite Hneg by done|rewrite Hn by done]; unfold PGSIZE in *; lia.
  - destruct (Z.lt_ge_cases (vend - p) 0); [left; auto|right; rewrite Hn by done; lia].
  - unfold KERNBASE, PHYSTOP, PGSIZE in *. lia.
  - intros x Hxx. destruct (Hx x Hxx); [left|by right]. unfold PGSIZE in *. lia.
  - done.
  - cbn beta. intros [] s' (Hs' & Hu & Hm'). exists (reverse (pages p n)). split; [done|]. split; [done|].
    split; [intros a (w & Hw & Hin)%Hm'; exists w; by rewrite elem_of_reverse|].
    intros v. rewrite elem_of_reverse, elem_of_pages by done. split.
    + intros [Hv1 Hv2]. split; [done|]. split; [lia|].
      destruct (Z.lt_ge_cases (vend - p) 0) as [?%Hneg|H0]; [unfold PGSIZE in *; lia|].
      specialize (Hn H0).
      pose proof (Z.div_mod v PGSIZE ltac:(done)). pose proof (Z.div_mod p PGSIZE ltac:(done)).
      unfold PGSIZE in *. lia.
    + intros (Hv1 & Hv2 & Hv3). split; [done|].
      pose proof (Z.div_mod v PGSIZE ltac:(done)). pose proof (Z.div_mod p PGSIZE ltac:(done)).
      assert (p <= v) by (unfold PGSIZE in *; lia).
      rewrite Hn by (unfold PGSIZE in *; lia). unfold PGSIZE in *. lia.
Qed.
(** [main]: the pages below 4 MB before, the rest after the switch to the full
    kernel page table. *)
Definition LOWMEM : Z := P2V (4 * 1024 * 1024).
Definition kinit_all : M kmem unit :=
  kinit1 me kend kend LOWMEM;; kinit2 me kend LOWMEM (P2V PHYSTOP).

(** The state in which [main] starts: nothing on the free list. *)
Definition kmem_start (s : kmem) : Prop :=
  km_freelist s = 0 /\ byte_mem (km_mem s) /\ cpu_ok (km_cpu s).

Context (kend_low : kend <= LOWMEM).

(** A page below the limit of the first call ends below it. *)
Lemma low_page v : v mod PGSIZE = 0 -> v < LOWMEM <-> v + PGSIZE <= LOWMEM.
Proof. intros Hm. pose proof (Z.div_mod v PGSIZE ltac:(done)). unfold PGSIZE in *. change LOWMEM with 0x80400000. lia. Qed.

Lemma kinit1_spec s : kmem_start s ->
  wp (kinit1 me kend kend LOWMEM) (fun _ s' => exists ys, free_pages s' ys /\ forall v, v ∈ ys <-> page_ok v /\ v < LOWMEM) s.
Proof.
  intros (Hf & Hb & Hc). unfold kinit1. wp_steps. assert (Hlow : kend <= 0x80400000) by exact kend_low.
  eapply wp_mono; [apply (freerange_spec kend LOWMEM _ []); try (change LOWMEM with 0x80400000; unfold KERNBASE, PHYSTOP; lia)|].
  { intros x Hx. by apply not_elem_of_nil in Hx. }
  { split; cbn; auto. constructor. }
  cbn beta. intros [] s1 (ys & H1 & _ & _ & Hys). rewrite app_nil_r in H1. exists ys. split; [done|]. intros v. rewrite Hys. unfold page_ok. split.
  - intros (Hm & ? & ?%low_page); [|done]. change LOWMEM with 0x80400000 in *. unfold KERNBASE, PHYSTOP. split_and!; [done|lia..].
  - intros [[Hm ?] ?%low_page]; [|done]. split_and!; [done|lia|done].
Qed.
Lemma kinit2_spec s xs : free_pages s xs -> (forall x, x ∈ xs -> x < LOWMEM) ->
  wp (kinit2 me kend LOWMEM (P2V PHYSTOP)) (fun _ s' => exists zs, free_pages s' (zs ++ xs) /\ (forall v, v ∈ zs <-> page_ok v /\ LOWMEM <= v) /\
    forall a, km_mem s' a <> km_mem s a -> exists v, v ∈ zs /\ in_page v a) s.
Proof.
  intros Hs Hx. unfold kinit2. apply wp_bind. change (P2V PHYSTOP) with (KERNBASE + PHYSTOP).
  pose proof (chain_pages _ _ _ (fp_chain _ _ Hs)) as Hps. rewrite Forall_forall in Hps.
  eapply wp_mono; [apply (freerange_spec LOWMEM (KERNBASE + PHYSTOP) s xs); try done|].
  { intros x Hin. left. apply low_page; [by apply Hps|by apply Hx]. }
  cbn beta. intros [] s2 (zs & [Ha Hb' Hd He Hg] & _ & Hm & Hzs). wp_steps. exists zs. split; [by split|]. split; [|done].
  intros v. rewrite Hzs. unfold page_ok. assert (Hlow : kend <= LOWMEM) by exact kend_low.
  pose proof (Z.div_mod v PGSIZE ltac:(done)). unfold PGSIZE, KERNBASE, PHYSTOP in *. split; intros; destruct_and?; split_and!; (done || lia).
Qed.
Lemma kinit_all_spec s : kmem_start s ->
  wp kinit_all (fun _ s' => exists xs, free_pages s' xs /\ (forall v, v ∈ xs <-> page_ok v)) s.
Proof.
  intros Hs. unfold kinit_all. apply wp_bind. eapply wp_mono; [by apply kinit1_spec|]. cbn beta. intros [] s1 (ys & H1 & Hys).
  eapply wp_mono; [apply (kinit2_spec s1 ys H1); intros x Hx; by apply Hys|]. cbn beta. intros [] s2 (zs & H2 & Hzs & _).
  exists (zs ++ ys). split; [done|]. intros v. rewrite elem_of_app, Hys, Hzs. destruct (Z.lt_ge_cases v LOWMEM); naive_solver lia.
Qed.
(** * Histories

    Between calls the owners of the allocated pages write to them as they like. *)
Inductive hstep : kmem * list Z -> kmem * list Z -> Prop :=
  | h_alloc s s' live r : kalloc me s = Ok (r, s') ->
      hstep (s, live) (s', if r =? 0 then live else r :: live)
  | h_free s s' a v b : kfree me kend v s = Ok (tt, s') ->
      hstep (s, a ++ v :: b) (s', a ++ b)
  | h_write s live m : byte_mem m ->
      (forall a, m a <> km_mem s a -> exists v, v ∈ live /\ in_page v a) ->
      hstep (s, live) (set_mem m s, live).

(** Every managed page is free or allocated, and not both. *)
Definition accounted (s : kmem) (live : list Z) : Prop :=
  exists xs, free_pages s xs /\ NoDup (live ++ xs) /\ forall v, v ∈ live ++ xs <-> page_ok v.

Lemma accounted_step c c' : hstep c c' -> accounted c.1 c.2 -> accounted c'.1 c'.2.
Proof.
  intros [s s' live r E|s s' a v b E|s live m Hm Hw] (xs & Hs & Hnd & Hall); cbn in *.
  - pose proof (kalloc_spec s xs Hs) as H. unfold wp in H. rewrite E in H.
    destruct H as (_ & _ & H). destruct xs as [|x xs].
    { destruct H as [-> H]. by exists []. }
    destruct H as [-> H]. assert (Hx : page_ok x) by (apply Hall; set_solver).
    destruct (Z.eqb_spec x 0) as [->|]; [by apply page_nonzero in Hx|].
    exists xs. split; [done|]. rewrite (comm (++)) in Hnd. cbn in Hnd. rewrite (comm (++)) in Hnd.
    split; [done|]. intros w. rewrite <-Hall. set_solver.
  - assert (Hv : page_ok v) by (apply Hall; set_solver).
    assert (Hp : (a ++ v :: b) ++ xs ≡ₚ (a ++ b) ++ v :: xs) by solve_Permutation.
    rewrite Hp in Hnd. pose proof (kfree_spec v s xs Hs Hv) as H.
    unfold wp in H. rewrite E in H. destruct H as (H & _).
    { apply NoDup_app in Hnd as (_ & _ & Hnd). by apply NoDup_cons in Hnd as [??]. }
    exists (v :: xs). split; [done|]. split; [done|]. intros w. by rewrite <-Hall, Hp.
  - exists xs. destruct Hs as [Hc Hn Hb Hk Hl]. split; [|done]. split; cbn; auto.
    pose proof (chain_pages _ _ _ Hc) as Hps. rewrite Forall_forall in Hps.
    apply (chain_ext (km_mem s)); [|done]. intros x y Hx Hy.
    destruct (decide (m y = km_mem s y)) as [|Hne]; [done|]. exfalso.
    destruct (Hw y Hne) as (v & Hv & Hin).
    assert (v = x) as ->.
    { apply (page_disjoint v x y); [apply Hall; set_solver|by apply Hps|done|].
      unfold in_page, PGSIZE. lia. }
    apply NoDup_app in Hnd as (_ & Hd & _). by apply (Hd x).
Qed.

Lemma accounted_history c c' : rtc hstep c c' -> accounted c.1 c.2 -> accounted c'.1 c'.2.
Proof. induction 1; eauto using accounted_step. Qed.

(** C10: The page allocator is correct: after boot and any history of allocations,
    frees of allocated pages and writes into allocated pages, no page is allocated
    twice, [kalloc] never hands out a page in use, fails only when every managed page is
    in use, leaves memory alone, and [kfree] of an allocated page succeeds. *)
Theorem kalloc_exclusive s0 s1 s live : kmem_start s0 -> kinit_all s0 = Ok (tt, s1) ->
  rtc hstep (s1, []) (s, live) ->
  NoDup live /\ Forall page_ok live /\
  wp (kalloc me) (fun r s' => km_mem s' = km_mem s /\
    ((r = 0 /\ forall v, page_ok v -> v ∈ live) \/ (page_ok r /\ r ∉ live))) s /\
  forall v, v ∈ live -> wp (kfree me kend v) (fun _ s' =>
    forall a, ~ in_page v a -> km_mem s' a = km_mem s a) s.
Proof.
  intros H0 H1 Hh. pose proof (kinit_all_spec s0 H0) as Hk. unfold wp in Hk. rewrite H1 in Hk.
  destruct Hk as (ys & Hys & Hall0).
  destruct (accounted_history _ _ Hh) as (xs & Hs & Hnd & Hall).
  { exists ys. split; [done|]. split; [apply Hys|done]. }
  cbn in *. pose proof Hnd as (Hl & Hd & _)%NoDup_app. split; [done|]. split; [|split].
  - apply Forall_forall. intros v Hv. apply Hall. set_solver.
  - eapply wp_mono; [apply (kalloc_spec s xs Hs)|]. cbn beta. intros r s' (Hm & _ & Hr).
    split; [done|]. destruct xs as [|x xs].
    + left. destruct Hr as [-> _]. split; [done|]. intros v Hv%Hall. by rewrite app_nil_r in Hv.
    + right. destruct Hr as [-> _]. split; [apply Hall; set_solver|]. intros Hx. apply (Hd x Hx). by left.
  - intros v Hv. eapply wp_mono; [apply (kfree_spec v s xs Hs)|].
    + apply Hall. set_solver.
    + by apply Hd.
    + cbn beta. intros [] s' (_ & _ & ->) a Ha. by apply freed_other.
Qed.
End facts.

(** A kernel that ends one megabyte into its link area. *)
Definition demo_kmem : kmem :=
  MkKmem (fun _ => 0) (MkCpu 0 0 false true None 0 0) (MkSpinlock 0 "" None) 0 0.
Definition demo_end : Z := KERNLINK + 0x15000.
Definition final {S A} (m : M S A) (s : S) : S :=
  match m s with Ok (_, s') => s' | Err _ => s end.
Definition demo_init : kmem := final (kinit_all 0 demo_end) demo_kmem.

Lemma wp_final {S} (m : M S unit) Q s : wp m Q s -> m s = Ok (tt, final m s).
Proof. unfold wp, final. by destruct (m s) as [[[] s']|e]. Qed.
Lemma demo_start : kmem_start demo_kmem.
Proof. split; [done|]. by split; [intros a; cbn|split]. Qed.

Lemma demo_init_ok : kinit_all 0 demo_end demo_kmem = Ok (tt, demo_init).
Proof. exact (wp_final _ _ _ (kinit_all_spec 0 demo_end eq_refl ltac:(done) demo_kmem demo_start)). Qed.

Lemma kalloc_exclusive_witness :
  wp (kalloc 0) (fun r s' => km_mem s' = km_mem demo_init /\
    ((r = 0 /\ forall v, page_ok demo_end v -> v ∈ []) \/ (page_ok demo_end r /\ r ∉ []))) demo_init.
Proof.
  exact (proj1 (proj2 (proj2 (kalloc_exclusive 0 demo_end eq_refl ltac:(done) demo_kmem demo_init
    demo_init [] demo_start demo_init_ok (rtc_refl _ _))))).
Defined.
