(* ===== verification/Pipe.v ===== *)
(** Pipes: [pipewrite], [piperead] and [pipeclose] of pipe.c.

    A call that has to wait stops at its [sleep] and releases the lock; what is
    left of it is a value, and waking up runs the rest.  Histories interleave the
    calls of any number of readers and writers at these points. *)

From stdpp Require Import base tactics numbers option list sets relations strings.
From Stdlib Require Import ZArith Lia.
From S2P Require Import Prelude ProcDefs Spinlock.

(** * Data *)

Definition PIPESIZE : Z := 512.

Record pipe := MkPipe {
  pi_data : list Z;
  pi_nread : Z;       (* number of bytes read *)
  pi_nwrite : Z;      (* number of bytes written *)
  pi_readopen : Z;    (* read fd is still open *)
  pi_writeopen : Z    (* write fd is still open *)
}.
Definition set_data (v : list Z) (p : pipe) : pipe :=
  MkPipe v (pi_nread p) (pi_nwrite p) (pi_readopen p) (pi_writeopen p).
Definition set_nread (v : Z) (p : pipe) : pipe :=
  MkPipe (pi_data p) v (pi_nwrite p) (pi_readopen p) (pi_writeopen p).
Definition set_nwrite (v : Z) (p : pipe) : pipe :=
  MkPipe (pi_data p) (pi_nread p) v (pi_readopen p) (pi_writeopen p).
Definition set_readopen (v : Z) (p : pipe) : pipe :=
  MkPipe (pi_data p) (pi_nread p) (pi_nwrite p) v (pi_writeopen p).
Definition set_writeopen (v : Z) (p : pipe) : pipe :=
  MkPipe (pi_data p) (pi_nread p) (pi_nwrite p) (pi_readopen p) v.

(** Calls that leave the pipe code, in order: [wakeup] on one of the two
    channels, [sleep] on one of them, and [kfree] of the pipe. *)
Inductive pchan := NREAD | NWRITE.
Inductive pevent := PvWakeup (c : pchan) | PvSleep (c : pchan) | PvFree.
#[global] Instance pchan_eq_dec : EqDecision pchan.
Proof. solve_decision. Defined.
#[global] Instance pevent_eq_dec : EqDecision pevent.
Proof. solve_decision. Defined.

Record pst := MkPst { ps_pipe : pipe; ps_cpu : cpu; ps_lock : spinlock; ps_log : list pevent }.
Definition set_pipe (v : pipe) (s : pst) : pst := MkPst v (ps_cpu s) (ps_lock s) (ps_log s).
Definition set_ps_lock (v : cpu * spinlock) (s : pst) : pst := MkPst (ps_pipe s) v.1 v.2 (ps_log s).
Definition log (e : pevent) : M pst unit :=
  modify (fun s => MkPst (ps_pipe s) (ps_cpu s) (ps_lock s) (ps_log s ++ [e])).
Definition on_plock (m : M (cpu * spinlock) unit) : M pst unit :=
  zoom (fun s => (ps_cpu s, ps_lock s)) set_ps_lock m.
Definition on_pipe (f : pipe -> pipe) : M pst unit := modify (fun s => set_pipe (f (ps_pipe s)) s).

(** A call returns, or sleeps with some work left. *)
Inductive pres (A B : Type) := PDone (a : A) | PSleep (b : B).
Arguments PDone {A B} a.
Arguments PSleep {A B} b.

(** * Code *)

Definition pipe_full (p : pipe) : bool := pi_nwrite p =? u32 (pi_nread p + PIPESIZE).
Definition pipe_empty (p : pipe) : bool := pi_nread p =? pi_nwrite p.

(** [p->data[p->nwrite++ % PIPESIZE] = b] *)
Definition pipe_put (b : Z) (p : pipe) : pipe :=
  set_nwrite (u32 (pi_nwrite p + 1))
    (set_data (<[Z.to_nat (pi_nwrite p mod PIPESIZE) := b]> (pi_data p)) p).
(** [p->data[p->nread++ % PIPESIZE]] *)
Definition pipe_get (p : pipe) : Z * pipe :=
  (pi_data p !!! Z.to_nat (pi_nread p mod PIPESIZE), set_nread (u32 (pi_nread p + 1)) p).

Section code.
(** The processor, and [myproc()->killed]. *)
Context (me : nat) (killed : bool).

(** The loop of [pipewrite] with the bytes still to write; [n] is what the call
    returns. *)
Fixpoint pipewrite_loop (n : Z) (rest : list Z) : M pst (pres Z (list Z)) :=
  match rest with
  | [] => log (PvWakeup NREAD);; on_plock (release me);; mret (PDone n)
  | b :: rest' =>
      p ← gets ps_pipe;
      if pipe_full p then
        if (pi_readopen p =? 0) || killed then on_plock (release me);; mret (PDone (-1))
        else
          log (PvWakeup NREAD);;
          log (PvSleep NWRITE);;
          on_plock (release me);;
          mret (PSleep rest)
      else on_pipe (pipe_put b);; pipewrite_loop n rest'
  end.
(** Entering the call, and coming back from its [sleep]. *)
Definition pipewrite (n : Z) (rest : list Z) : M pst (pres Z (list Z)) :=
  on_plock (acquire me);; pipewrite_loop n rest.

(** The copy loop of [piperead]. *)
Fixpoint pipe_take (n : nat) (p : pipe) : list Z * pipe :=
  match n with
  | O => ([], p)
  | S n =>
      if pipe_empty p then ([], p)
      else let '(b, p1) := pipe_get p in
           let '(bs, p2) := pipe_take n p1 in (b :: bs, p2)
  end.
(** The result is the bytes stored at [addr], or [None] for -1. *)
Definition piperead (n : Z) : M pst (pres (option (list Z)) unit) :=
  on_plock (acquire me);;
  p ← gets ps_pipe;
  if pipe_empty p && negb (pi_writeopen p =? 0) then
    if killed then on_plock (release me);; mret (PDone None)
    else log (PvSleep NREAD);; on_plock (release me);; mret (PSleep tt)
  else
    let '(bs, p') := pipe_take (Z.to_nat n) p in
    modify (set_pipe p');;
    log (PvWakeup NWRITE);;
    on_plock (release me);;
    mret (PDone (Some bs)).

Definition pipeclose (writable : bool) : M pst unit :=
  on_plock (acquire me);;
  (if writable then on_pipe (set_writeopen 0);; log (PvWakeup NREAD)
   else on_pipe (set_readopen 0);; log (PvWakeup NWRITE));;
  p ← gets ps_pipe;
  on_plock (release me);;
  if (pi_readopen p =? 0) && (pi_writeopen p =? 0) then log PvFree else mret tt.
End code.

(** The fields that [pipealloc] sets; the buffer is whatever [kalloc] returned. *)
Definition pipe_init (data : list Z) : pipe := MkPipe data 0 0 1 1.

(** * The ring buffer *)

Definition pipe_len (p : pipe) : Z := u32 (pi_nwrite p - pi_nread p).

Record pipe_ok (p : pipe) : Prop := {
  po_data : Z.of_nat (length (pi_data p)) = PIPESIZE;
  po_nread : 0 <= pi_nread p < 2 ^ 32;
  po_nwrite : 0 <= pi_nwrite p < 2 ^ 32;
  po_len : pipe_len p <= PIPESIZE
}.

(** The bytes in the pipe, oldest first. *)
Definition pipe_at (p : pipe) (k : Z) : Z := pi_data p !!! Z.to_nat ((pi_nread p + k) mod PIPESIZE).
Definition contents (p : pipe) : list Z := pipe_at p <$> seqZ 0 (pipe_len p).

Lemma contents_length p : Z.of_nat (length (contents p)) = pipe_len p.
Proof.
  unfold contents. rewrite length_fmap, length_seqZ. apply Z2Nat.id. apply u32_range.
Qed.

(** The counters wrap at [2 ^ 32], which the buffer size divides. *)
Lemma u32_mod_pipe z : u32 z mod PIPESIZE = z mod PIPESIZE.
Proof.
  unfold u32, PIPESIZE. symmetry. rewrite (Z.div_mod z (2 ^ 32)) at 1 by done.
  rewrite Zplus_mod. change (2 ^ 32) with (512 * 8388608) at 1.
  rewrite <-Z.mul_assoc, Z.mul_comm, Z.mod_mul by done. by rewrite Z.add_0_l, Zmod_mod.
Qed.

Lemma pipe_nwrite p : pipe_ok p -> pi_nwrite p = u32 (pi_nread p + pipe_len p).
Proof.
  intros [_ Hr Hw _]. unfold pipe_len. rewrite Z.add_comm, u32_add_l.
  replace (pi_nwrite p - pi_nread p + pi_nread p) with (pi_nwrite p) by lia. symmetry. by apply u32_small.
Qed.

Lemma eqb_bool_decide (a b c d : Z) : (a = b <-> c = d) -> (a =? b) = bool_decide (c = d).
Proof. intros H. destruct (Z.eqb_spec a b); case_bool_decide; naive_solver. Qed.

Lemma pipe_full_len p : pipe_ok p -> pipe_full p = bool_decide (pipe_len p = PIPESIZE).
Proof.
  intros Hp. pose proof (pipe_nwrite p Hp) as Hw. apply eqb_bool_decide. split.
  - intros E. unfold pipe_len. rewrite E, u32_sub_l. by replace (_ - _) with PIPESIZE by lia.
  - intros <-. done.
Qed.
Lemma pipe_empty_len p : pipe_ok p -> pipe_empty p = bool_decide (pipe_len p = 0).
Proof.
  intros Hp. pose proof (pipe_nwrite p Hp) as Hw. apply eqb_bool_decide. split.
  - intros E. unfold pipe_len. by rewrite E, Z.sub_diag.
  - intros E. rewrite Hw, E, Z.add_0_r. symmetry. apply u32_small, Hp.
Qed.

Lemma pipe_put_len b p : pipe_ok p -> pipe_len p < PIPESIZE ->
  pipe_len (pipe_put b p) = pipe_len p + 1.
Proof.
  intros Hp Hl. unfold pipe_len at 1. cbn. rewrite u32_sub_l.
  replace (pi_nwrite p + 1 - pi_nread p) with ((pi_nwrite p - pi_nread p) + 1) by lia.
  rewrite <-u32_add_l. fold (pipe_len p). apply u32_small.
  pose proof (u32_range (pi_nwrite p - pi_nread p)). fold (pipe_len p) in *. unfold PIPESIZE in *. lia.
Qed.

Lemma pipe_put_ok b p : pipe_ok p -> pipe_len p < PIPESIZE -> pipe_ok (pipe_put b p).
Proof.
  intros Hp Hl. pose proof (pipe_put_len b p Hp Hl) as Hlen. destruct Hp as [Hd Hr Hw Hn].
  split; [|done|apply u32_range|lia]. cbn. by rewrite length_insert.
Qed.

Lemma pipe_put_contents b p : pipe_ok p -> pipe_len p < PIPESIZE ->
  contents (pipe_put b p) = contents p ++ [b].
Proof.
  intros Hp Hl. unfold contents. rewrite pipe_put_len by done.
  pose proof (u32_range (pi_nwrite p - pi_nread p)) as Hr. fold (pipe_len p) in Hr.
  rewrite seqZ_app by lia. rewrite fmap_app. change (seqZ (0 + pipe_len p) 1) with [0 + pipe_len p].
  rewrite Z.add_0_l. cbn [fmap list_fmap].
  assert (Hidx : pi_nwrite p mod PIPESIZE = (pi_nread p + pipe_len p) mod PIPESIZE)
    by (rewrite (pipe_nwrite p Hp) at 1; apply u32_mod_pipe).
  f_equal.
  - apply list_fmap_ext. intros i k Hk. apply lookup_seqZ in Hk as [-> Hk].
    unfold pipe_at. cbn. rewrite list_lookup_total_insert_ne; [done|].
    rewrite Hidx. intros E. apply Z2Nat.inj in E; [|apply Z.mod_pos_bound; done..].
    pose proof (Z.div_mod (pi_nread p + pipe_len p) PIPESIZE ltac:(done)).
    pose proof (Z.div_mod (pi_nread p + (0 + Z.of_nat i)) PIPESIZE ltac:(done)).
    unfold PIPESIZE in *. lia.
  - f_equal. unfold pipe_at. cbn. rewrite <-Hidx, list_lookup_total_insert_eq; [done|].
    pose proof (Z.mod_pos_bound (pi_nwrite p) PIPESIZE ltac:(done)).
    pose proof (po_data p Hp). lia.
Qed.

Lemma pipe_get_len p : pipe_ok p -> 0 < pipe_len p -> pipe_len (pipe_get p).2 = pipe_len p - 1.
Proof.
  intros Hp Hl. unfold pipe_len at 1. cbn. rewrite u32_sub_r.
  replace (pi_nwrite p - (pi_nread p + 1)) with ((pi_nwrite p - pi_nread p) - 1) by lia.
  rewrite <-u32_sub_l. fold (pipe_len p). apply u32_small.
  pose proof (u32_range (pi_nwrite p - pi_nread p)). fold (pipe_len p) in *. lia.
Qed.

Lemma pipe_get_ok p : pipe_ok p -> 0 < pipe_len p -> pipe_ok (pipe_get p).2.
Proof.
  intros Hp Hl. pose proof (pipe_get_len p Hp Hl) as Hlen. destruct Hp as [Hd Hr Hw Hn].
  split; [done|apply u32_range|done|lia].
Qed.

Lemma pipe_get_contents p : pipe_ok p -> 0 < pipe_len p ->
  contents p = (pipe_get p).1 :: contents (pipe_get p).2.
Proof.
  intros Hp Hl. unfold contents. rewrite pipe_get_len by done.
  rewrite seqZ_cons by lia. rewrite fmap_cons. f_equal.
  - unfold pipe_at. by rewrite Z.add_0_r.
  - rewrite <-(fmap_add_seqZ 1 0), <-list_fmap_compose. apply list_fmap_ext. intros i k _.
    unfold pipe_at, compose. cbn.
    rewrite <-(Zplus_mod_idemp_l (u32 _)), u32_mod_pipe, Zplus_mod_idemp_l. do 3 f_equal. lia.
Qed.

(** * The calls *)

Lemma pipe_take_spec n p bs p' : pipe_ok p -> pipe_take n p = (bs, p') ->
  pipe_ok p' /\ contents p = bs ++ contents p' /\ bs = take n (contents p) /\
  pi_readopen p' = pi_readopen p /\ pi_writeopen p' = pi_writeopen p.
Proof.
  revert p bs p'. induction n as [|n IH]; intros p bs p' Hp; cbn [pipe_take].
  { intros [= <- <-]. by rewrite take_0. }
  rewrite pipe_empty_len by done. case_bool_decide as He.
  - intros [= <- <-]. unfold contents. by rewrite He.
  - assert (Hl : 0 < pipe_len p)
      by (pose proof (u32_range (pi_nwrite p - pi_nread p)); fold (pipe_len p) in *; lia).
    pose proof (pipe_get_contents p Hp Hl) as Hc. pose proof (pipe_get_ok p Hp Hl) as Hok.
    destruct (pipe_get p) as [b p1] eqn:Eg.
    assert (Ho : pi_readopen p1 = pi_readopen p /\ pi_writeopen p1 = pi_writeopen p) by (by inv Eg).
    destruct (pipe_take n p1) as [bs1 p2] eqn:E. intros [= <- <-].
    destruct (IH p1 bs1 p2 Hok E) as (H1 & H2 & H3 & H4 & H5). cbn in Hc.
    rewrite Hc. cbn. rewrite <-H3, <-H2. destruct Ho. split_and!; (done || congruence).
Qed.

Section facts.
Context (me : nat).

(** Nobody holds the lock and the pipe is well-formed. *)
Record pready (s : pst) : Prop := {
  pr_cpu : cpu_ok (ps_cpu s);
  pr_lock : lk_locked (ps_lock s) = 0;
  pr_pipe : pipe_ok (ps_pipe s)
}.
(** Processor [me], in state [k] before, holds the lock. *)
Record pinside (k : cpu) (s : pst) : Prop := {
  pn_ok : cpu_ok k;
  pn_cpu : ps_cpu s = entered k;
  pn_lock : exists l, ps_lock s = MkSpinlock 1 l (Some me);
  pn_pipe : pipe_ok (ps_pipe s)
}.

Lemma wp_pacquire s (Q : unit -> pst -> Prop) : pready s ->
  (forall s', pinside (ps_cpu s) s' -> ps_pipe s' = ps_pipe s -> ps_log s' = ps_log s -> Q tt s') ->
  wp (on_plock (acquire me)) Q s.
Proof.
  intros [Hc Hl Hp] HQ. apply wp_zoom. eapply wp_run; [by apply acquire_free|].
  apply HQ; [|done..]. split; cbn; eauto.
Qed.

Lemma wp_prelease k s (Q : unit -> pst -> Prop) : pinside k s ->
  (forall s', pready s' -> ps_pipe s' = ps_pipe s -> ps_log s' = ps_log s -> Q tt s') ->
  wp (on_plock (release me)) Q s.
Proof.
  intros [Hk Hc [l Hl] Hp] HQ. apply wp_zoom. rewrite Hc, Hl. eapply wp_run.
  - rewrite release_prefix; [|by apply entered_ok|destruct Hk; cbn; lia].
    unfold is_held. cbn. by rewrite bool_decide_eq_true_2.
  - apply HQ; [|done..]. split; cbn; [|done|done]. destruct Hk as [Hn Hi]. split; cbn; [lia|].
    intros ?. destruct (Z.eqb_spec (c_ncli k + 1) 1); [lia|done].
Qed.

Lemma wp_plog k s e (Q : unit -> pst -> Prop) : pinside k s ->
  (forall s', pinside k s' -> ps_pipe s' = ps_pipe s -> ps_log s' = ps_log s ++ [e] -> Q tt s') ->
  wp (log e) Q s.
Proof. intros [????] HQ. apply wp_modify, HQ; [|done..]. by split. Qed.

(** The ends of the pipe that are open. *)
Definition same_ends (p p' : pipe) : Prop :=
  pi_readopen p' = pi_readopen p /\ pi_writeopen p' = pi_writeopen p.

(** What a call of [pipewrite] with [rest] to write does: [acc] are the bytes it
    puts into the pipe before it returns or sleeps. *)
Definition write_result (killed : bool) (n : Z) (rest : list Z) (p' : pipe) (acc : list Z)
    (r : pres Z (list Z)) : Prop :=
  match r with
  | PDone v =>
      (v = n /\ acc = rest) \/
      (v = -1 /\ acc `prefix_of` rest /\ pipe_len p' = PIPESIZE /\ (pi_readopen p' = 0 \/ killed = true))
  | PSleep rest' =>
      rest = acc ++ rest' /\ rest' <> [] /\ pipe_len p' = PIPESIZE /\
      pi_readopen p' <> 0 /\ killed = false
  end.
Definition write_post (killed : bool) (n : Z) (rest : list Z) (p : pipe) (r : pres Z (list Z))
    (p' : pipe) (acc : list Z) : Prop :=
  contents p' = contents p ++ acc /\ same_ends p p' /\
  pi_nwrite p' = u32 (pi_nwrite p + Z.of_nat (length acc)) /\ write_result killed n rest p' acc r.

Lemma write_post_nil killed n rest p r : pipe_ok p -> write_result killed n rest p [] r ->
  write_post killed n rest p r p [].
Proof.
  intros Hp Hr. split; [by rewrite app_nil_r|]. split; [done|]. split; [|done].
  by rewrite Z.add_0_r, u32_small by apply Hp.
Qed.

Lemma pipewrite_loop_spec killed n rest k s : pinside k s ->
  wp (pipewrite_loop me killed n rest) (fun r s' => pready s' /\
    exists acc, write_post killed n rest (ps_pipe s) r (ps_pipe s') acc) s.
Proof.
  revert s. induction rest as [|b rest IH]; intros s Hs; cbn [pipewrite_loop].
  - wp_step. apply (wp_plog k); [done|]. intros s1 H1 E1 _. wp_step. apply (wp_prelease k); [done|].
    intros s2 H2 E2 _. wp_steps. split; [done|]. exists []. rewrite E2, E1.
    apply write_post_nil; [apply (pn_pipe _ _ Hs)|by left].
  - wp_steps. rewrite pipe_full_len by apply (pn_pipe _ _ Hs). case_bool_decide as Hf.
    + destruct ((pi_readopen (ps_pipe s) =? 0) || killed) eqn:Eo.
      * wp_step. apply (wp_prelease k); [done|]. intros s2 H2 E2 _. wp_steps. split; [done|].
        exists []. rewrite E2. apply write_post_nil; [apply (pn_pipe _ _ Hs)|right].
        apply orb_true_iff in Eo as [?%Z.eqb_eq|?]; auto using prefix_nil.
      * apply orb_false_iff in Eo as [Ho%Z.eqb_neq Hk]. wp_step. apply (wp_plog k); [done|].
        intros s1 H1 E1 _. wp_step. apply (wp_plog k); [done|]. intros s2 H2 E2 _. wp_step.
        apply (wp_prelease k); [done|]. intros s3 H3 E3 _. wp_steps. split; [done|].
        exists []. rewrite E3, E2, E1. by apply write_post_nil; [apply (pn_pipe _ _ Hs)|].
    + assert (Hl : pipe_len (ps_pipe s) < PIPESIZE) by (pose proof (po_len _ (pn_pipe _ _ Hs)); lia).
      unfold on_pipe. wp_steps. set (s1 := set_pipe (pipe_put b (ps_pipe s)) s).
      assert (H1 : pinside k s1) by (destruct Hs; split; cbn; auto using pipe_put_ok).
      eapply wp_mono; [by apply IH|]. cbn beta. intros r s2 (H2 & acc & Hc & He & Hw & Hr).
      split; [done|]. exists (b :: acc). cbn [s1 set_pipe ps_pipe] in *.
      rewrite pipe_put_contents in Hc by (apply Hs || done). unfold write_post.
      split; [by rewrite Hc, <-(assoc_L (++))|]. split; [done|]. split.
      * rewrite Hw. cbn [pipe_put set_nwrite set_data pi_nwrite length]. rewrite u32_add_l. f_equal. lia.
      * destruct r as [v|rest'].
        -- destruct Hr as [[-> ->]|(-> & ? & ?)]; [by left|right]. by auto using prefix_cons.
        -- destruct Hr as (-> & ?). done.
Qed.

Lemma pipewrite_spec killed n rest s : pready s ->
  wp (pipewrite me killed n rest) (fun r s' => pready s' /\
    exists acc, write_post killed n rest (ps_pipe s) r (ps_pipe s') acc) s.
Proof.
  intros Hs. unfold pipewrite. wp_step. apply wp_pacquire; [done|]. intros s1 H1 E1 _.
  rewrite <-E1. by eapply pipewrite_loop_spec.
Qed.

(** What a call of [piperead] does with the pipe. *)
Definition read_post (killed : bool) (n : Z) (p : pipe) (r : pres (option (list Z)) unit) (p' : pipe) : Prop :=
  same_ends p p' /\ pi_nwrite p' = pi_nwrite p /\
  match r with
  | PDone (Some bs) =>
      bs = take (Z.to_nat n) (contents p) /\ contents p = bs ++ contents p' /\
      (contents p <> [] \/ pi_writeopen p = 0)
  | PDone None => p' = p /\ contents p = [] /\ pi_writeopen p <> 0 /\ killed = true
  | PSleep _ => p' = p /\ contents p = [] /\ pi_writeopen p <> 0 /\ killed = false
  end.

Lemma pipe_take_nwrite n p : pi_nwrite (pipe_take n p).2 = pi_nwrite p.
Proof.
  revert p. induction n as [|n IH]; intros p; cbn; [done|]. destruct (pipe_empty p); [done|].
  specialize (IH (set_nread (u32 (pi_nread p + 1)) p)). by destruct (pipe_take n _).
Qed.

Lemma piperead_spec killed n s : pready s ->
  wp (piperead me killed n) (fun r s' => pready s' /\ read_post killed n (ps_pipe s) r (ps_pipe s')) s.
Proof.
  intros Hs. unfold piperead. wp_step. apply wp_pacquire; [done|]. intros s1 H1 E1 _. wp_steps.
  rewrite E1, pipe_empty_len by apply Hs.
  assert (Hce : contents (ps_pipe s) = [] <-> pipe_len (ps_pipe s) = 0).
  { pose proof (contents_length (ps_pipe s)). split; [intros E; rewrite E in *; cbn in *; lia|].
    intros E. apply nil_length_inv. lia. }
  destruct (bool_decide (pipe_len (ps_pipe s) = 0) && negb (pi_writeopen (ps_pipe s) =? 0)) eqn:Eb.
  - apply andb_true_iff in Eb as [He%bool_decide_eq_true Hw]. apply negb_true_iff, Z.eqb_neq in Hw.
    apply Hce in He. destruct killed.
    + wp_step. apply (wp_prelease (ps_cpu s)); [done|]. intros s2 H2 E2 _. wp_steps.
      rewrite E2, E1. split; [done|]. by repeat split.
    + wp_step. apply (wp_plog (ps_cpu s)); [done|]. intros s2 H2 E2 _. wp_step.
      apply (wp_prelease (ps_cpu s)); [done|]. intros s3 H3 E3 _. wp_steps.
      rewrite E3, E2, E1. split; [done|]. by repeat split.
  - pose proof (pipe_take_nwrite (Z.to_nat n) (ps_pipe s)) as Hnw.
    destruct (pipe_take (Z.to_nat n) (ps_pipe s)) as [bs p'] eqn:Et.
    destruct (pipe_take_spec _ _ _ _ (pr_pipe _ Hs) Et) as (Hok & Hc & Hb & Ho1 & Ho2).
    wp_steps. apply (wp_plog (ps_cpu s)); [by destruct H1; split|]. intros s2 H2 E2 _. wp_step.
    apply (wp_prelease (ps_cpu s)); [done|]. intros s3 H3 E3 _. wp_steps.
    rewrite E3, E2. split; [done|]. split; [done|]. split; [done|]. split; [done|]. split; [done|].
    apply andb_false_iff in Eb as [Hne%bool_decide_eq_false|Hw%negb_false_iff].
    + left. by rewrite Hce.
    + right. by apply Z.eqb_eq.
Qed.

Definition closed_end (writable : bool) : pipe -> pipe :=
  if writable then set_writeopen 0 else set_readopen 0.

Lemma pipeclose_spec writable s : pready s ->
  wp (pipeclose me writable) (fun _ s' => pready s' /\
    ps_pipe s' = closed_end writable (ps_pipe s) /\
    ps_log s' = ps_log s ++ PvWakeup (if writable then NREAD else NWRITE) ::
      (if (pi_readopen (ps_pipe s') =? 0) && (pi_writeopen (ps_pipe s') =? 0) then [PvFree] else [])) s.
Proof.
  intros Hs. unfold pipeclose, on_pipe. wp_step. apply wp_pacquire; [done|]. intros s1 H1 E1 G1.
  assert (H1' : pinside (ps_cpu s) (set_pipe (closed_end writable (ps_pipe s1)) s1)).
  { destruct H1 as [??? []]. split; cbn; [done..|]. by destruct writable; split. }
  wp_step. eapply (wp_mono _ (fun _ s2 => pinside (ps_cpu s) s2 /\
    ps_pipe s2 = closed_end writable (ps_pipe s) /\
    ps_log s2 = ps_log s ++ [PvWakeup (if writable then NREAD else NWRITE)])).
  { destruct writable; wp_steps; (apply (wp_plog (ps_cpu s)); [done|]); intros s2 H2 E2 G2;
      (split; [done|]); rewrite E2, G2; cbn; by rewrite E1, G1. }
  intros [] s2 (H2 & E2 & G2). wp_steps. apply (wp_prelease (ps_cpu s)); [done|]. intros s3 H3 E3 G3.
  destruct ((pi_readopen (ps_pipe s2) =? 0) && (pi_writeopen (ps_pipe s2) =? 0)) eqn:Eb.
  - apply wp_modify. cbn [ps_pipe ps_log]. split; [by destruct H3; split|].
    by rewrite E3, Eb, G3, G2, <-(assoc_L (++)).
  - apply wp_ret. rewrite E3, Eb, G3, G2. done.
Qed.
End facts.

(** * Histories *)

(** The pipe with everything that writers have put into it and everything that
    readers have got out of it, over calls by any processes in any order. *)
Record phist := MkPhist { ph_st : pst; ph_in : list Z; ph_out : list Z }.

(** The bytes of [rest] that a call has put into the pipe. *)
Definition accepted (p p' : pipe) (rest : list Z) : list Z :=
  take (Z.to_nat (u32 (pi_nwrite p' - pi_nwrite p))) rest.
Definition received (r : pres (option (list Z)) unit) : list Z :=
  match r with PDone (Some bs) => bs | _ => [] end.

Inductive pstep : phist -> phist -> Prop :=
  | ps_write me killed n rest s r s' i o : pipewrite me killed n rest s = Ok (r, s') ->
      pstep (MkPhist s i o) (MkPhist s' (i ++ accepted (ps_pipe s) (ps_pipe s') rest) o)
  | ps_read me killed n s r s' i o : piperead me killed n s = Ok (r, s') ->
      pstep (MkPhist s i o) (MkPhist s' i (o ++ received r))
  | ps_close me writable s s' i o : pipeclose me writable s = Ok (tt, s') ->
      pstep (MkPhist s i o) (MkPhist s' i o).

Record phinv (h : phist) : Prop := {
  phi_ready : pready (ph_st h);
  phi_fifo : ph_in h = ph_out h ++ contents (ps_pipe (ph_st h))
}.

Lemma accepted_spec killed n rest p r p' acc : pipe_ok p -> pipe_ok p' ->
  write_post killed n rest p r p' acc -> accepted p p' rest = acc.
Proof.
  intros Hp Hp' (Hc & _ & Hw & Hr). unfold accepted. rewrite Hw, u32_sub_l.
  replace (_ - _) with (Z.of_nat (length acc)) by lia.
  assert (Hlen : Z.of_nat (length acc) <= PIPESIZE).
  { pose proof (contents_length p') as H1. rewrite Hc, length_app in H1.
    pose proof (po_len _ Hp'). lia. }
  rewrite u32_small, Nat2Z.id by (unfold PIPESIZE in *; lia).
  destruct r as [v|rest']; cbn in Hr.
  - destruct Hr as [[_ ->]|(_ & [tl ->] & _)]; [by rewrite take_ge|by rewrite take_app_length].
  - destruct Hr as (-> & _). by rewrite take_app_length.
Qed.

Lemma phinv_step h h' : pstep h h' -> phinv h -> phinv h'.
Proof.
  intros [me killed n rest s r s' i o E|me killed n s r s' i o E|me writable s s' i o E] [Hr Hf]; cbn in *.
  - pose proof (pipewrite_spec me killed n rest s Hr) as H. unfold wp in H. rewrite E in H.
    destruct H as (Hr' & acc & Hp). split; cbn; [done|].
    rewrite (accepted_spec _ _ _ _ _ _ acc (pr_pipe _ Hr) (pr_pipe _ Hr') Hp).
    destruct Hp as (-> & _). by rewrite Hf, (assoc_L (++)).
  - pose proof (piperead_spec me killed n s Hr) as H. unfold wp in H. rewrite E in H.
    destruct H as (Hr' & _ & _ & Hp). split; cbn; [done|]. rewrite Hf, <-(assoc_L (++)). f_equal.
    destruct r as [[bs|]|]; cbn.
    + by destruct Hp as (_ & -> & _).
    + by destruct Hp as (-> & _).
    + by destruct Hp as (-> & _).
  - pose proof (pipeclose_spec me writable s Hr) as H. unfold wp in H. rewrite E in H.
    destruct H as (Hr' & Hp & _). split; cbn; [done|]. rewrite Hf, Hp. f_equal.
    by destruct writable.
Qed.

Lemma phinv_history h h' : rtc pstep h h' -> phinv h -> phinv h'.
Proof. induction 1; eauto using phinv_step. Qed.

Lemma phinv_init data k name : Z.of_nat (length data) = PIPESIZE -> cpu_ok k ->
  phinv (MkPhist (MkPst (pipe_init data) k (initlock name) []) [] []).
Proof. intros Hd Hk. split; cbn; [|done]. split; cbn; [done|done|]. by split; cbn. Qed.

(** C14: A pipe is a bounded queue: whatever calls readers and writers make on a
    fresh pipe, in whatever order and with the counters wrapping around, the bytes
    that came out followed by the at most 512 bytes still inside are exactly
    the bytes that went in, and the next call of either kind completes or
    sleeps, and sleeps only on a full pipe with a reader or an empty one with a
    writer. *)
Theorem pipe_fifo data k name s i o me killed n rest :
  Z.of_nat (length data) = PIPESIZE -> cpu_ok k ->
  rtc pstep (MkPhist (MkPst (pipe_init data) k (initlock name) []) [] []) (MkPhist s i o) ->
  i = o ++ contents (ps_pipe s) /\ Z.of_nat (length (contents (ps_pipe s))) <= PIPESIZE /\
  wp (pipewrite me killed n rest) (fun r s' => exists acc,
    write_post killed n rest (ps_pipe s) r (ps_pipe s') acc) s /\
  wp (piperead me killed n) (fun r s' => read_post killed n (ps_pipe s) r (ps_pipe s')) s.
Proof.
  intros Hd Hk Hh. destruct (phinv_history _ _ Hh (phinv_init data k name Hd Hk)) as [Hr Hf]. cbn in *.
  split; [done|]. split; [rewrite contents_length; apply Hr|]. split.
  - eapply wp_mono; [by apply pipewrite_spec|]. cbn beta. intros r s' [_ H]. done.
  - eapply wp_mono; [by apply piperead_spec|]. cbn beta. intros r s' [_ H]. done.
Qed.

(** Ten bytes go in, four come out. *)
Definition demo_pipe : pst :=
  MkPst (pipe_init (replicate 512 0)) (MkCpu 0 0 false true None 0 0) (initlock "pipe") [].
Definition demo_written : pst :=
  match pipewrite 0 false 10 (seqZ 1 10) demo_pipe with Ok (_, s) => s | Err _ => demo_pipe end.
Definition demo_read : pst :=
  match piperead 0 false 4 demo_written with Ok (_, s) => s | Err _ => demo_pipe end.

Lemma pipe_fifo_witness :
  seqZ 1 10 = [1; 2; 3; 4] ++ contents (ps_pipe demo_read) /\
  Z.of_nat (length (contents (ps_pipe demo_read))) <= PIPESIZE /\
  wp (pipewrite 0 false 2 [7; 8]) (fun r s' => exists acc,
    write_post false 2 [7; 8] (ps_pipe demo_read) r (ps_pipe s') acc) demo_read /\
  wp (piperead 0 false 2) (fun r s' => read_post false 2 (ps_pipe demo_read) r (ps_pipe s')) demo_read.
Proof.
  apply (pipe_fifo (replicate 512 0) (MkCpu 0 0 false true None 0 0) "pipe").
  - reflexivity.
  - split; cbn; done.
  - eapply rtc_l; [|eapply rtc_once].
    + apply (ps_write 0 false 10 (seqZ 1 10) demo_pipe (PDone 10) demo_written). vm_compute. reflexivity.
    + assert (Ha : [] ++ accepted (ps_pipe demo_pipe) (ps_pipe demo_written) (seqZ 1 10) = seqZ 1 10)
        by (vm_compute; reflexivity).
      rewrite Ha.
      apply (ps_read 0 false 4 demo_written (PDone (Some [1; 2; 3; 4])) demo_read). vm_compute. reflexivity.
Defined.
