(* ===== verification/Block.v ===== *)
(** The block layer: sleep locks (sleeplock.c), the disk driver (ide.c) and the
    buffer cache (bio.c).

    The model is one kernel thread and the disk.  Waiting for the disk is
    [ide_wait], which takes the interrupts as they come; waiting for a sleep
    lock that somebody else holds cannot succeed in this execution and is
    [ESpin].  The disk remembers its writes in order, so that a crash can be
    placed between any two of them. *)

From stdpp Require Import base tactics numbers option list sets strings.
From Stdlib Require Import ZArith Lia.
From S2P Require Import Prelude ProcDefs Spinlock.

(** * Constants *)

Definition BSIZE : Z := 512.
Definition SECTOR_SIZE : Z := 512.
Definition MAXOPBLOCKS : Z := 10.
Definition LOGSIZE : Z := MAXOPBLOCKS * 3.
Definition NBUF : nat := 30.
Definition FSSIZE : Z := 2000.
Definition ROOTDEV : Z := 1.
Definition B_VALID : Z := 0x2.
Definition B_DIRTY : Z := 0x4.

(** * The disk *)

(** An ATA drive in PIO mode: the task file registers as last written, the
    status register, the sectors of the two drives, and the completed writes,
    oldest first. *)
Record device := MkDevice {
  dv_regs : Z -> Z;
  dv_status : Z;
  dv_disk : Z -> Z -> list Z;
  dv_hist : list (Z * Z * list Z)
}.
Definition upd1 (f : Z -> Z) (a v : Z) : Z -> Z := fun b => if b =? a then v else f b.
Definition upd2 {A} (f : Z -> Z -> A) (a b : Z) (v : A) : Z -> Z -> A :=
  fun x y => if (x =? a) && (y =? b) then v else f x y.

Definition reg_outb (port v : Z) (d : device) : device :=
  MkDevice (upd1 (dv_regs d) port (u8 v)) (dv_status d) (dv_disk d) (dv_hist d).
(** The drive and the sector that the registers select. *)
Definition reg_drive (d : device) : Z := Z.land (Z.shiftr (dv_regs d 0x1f6) 4) 1.
Definition reg_sector (d : device) : Z :=
  dv_regs d 0x1f3 + 2 ^ 8 * dv_regs d 0x1f4 + 2 ^ 16 * dv_regs d 0x1f5 +
  2 ^ 24 * Z.land (dv_regs d 0x1f6) 0x0f.
Definition reg_outsl (data : list Z) (d : device) : device :=
  MkDevice (dv_regs d) (dv_status d) (upd2 (dv_disk d) (reg_drive d) (reg_sector d) data)
    (dv_hist d ++ [(reg_drive d, reg_sector d, data)]).
Definition reg_insl (d : device) : list Z := dv_disk d (reg_drive d) (reg_sector d).

(** * Data *)

(** [struct buf] with the two fields of its sleep lock. *)
Record buf := MkBuf {
  b_flags : Z; b_dev : Z; b_blockno : Z;
  b_locked : Z; b_pid : Z;
  b_refcnt : Z;
  b_data : list Z
}.
Definition set_flags (v : Z) (b : buf) := MkBuf v (b_dev b) (b_blockno b) (b_locked b) (b_pid b) (b_refcnt b) (b_data b).
Definition set_sleep (l p : Z) (b : buf) := MkBuf (b_flags b) (b_dev b) (b_blockno b) l p (b_refcnt b) (b_data b).
Definition set_refcnt (v : Z) (b : buf) := MkBuf (b_flags b) (b_dev b) (b_blockno b) (b_locked b) (b_pid b) v (b_data b).
Definition set_bdata (v : list Z) (b : buf) := MkBuf (b_flags b) (b_dev b) (b_blockno b) (b_locked b) (b_pid b) (b_refcnt b) v.
Definition set_key (dev blockno : Z) (b : buf) := MkBuf (b_flags b) dev blockno (b_locked b) (b_pid b) (b_refcnt b) (b_data b).

(** A buffer after boot: its static storage is zero. *)
Definition zero_buf : buf := MkBuf 0 0 0 0 0 0 (replicate (Z.to_nat BSIZE) 0).

(** [wakeup] calls: on a buffer's sleep lock, or on a buffer whose request is done. *)
Inductive bwake := WLock (b : nat) | WBuf (b : nat).

(** The cache: the buffers, the links of the list through [prev] and [next] (index
    [NBUF] is [bcache.head]), the driver's queue, the disk. *)
Record blocks := MkBlocks {
  bk_bufs : list buf;
  bk_next : list nat;
  bk_prev : list nat;
  bk_queue : list nat;
  bk_havedisk1 : Z;
  bk_dev : device;
  bk_wakes : list bwake
}.
Definition set_bufs (v : list buf) (s : blocks) := MkBlocks v (bk_next s) (bk_prev s) (bk_queue s) (bk_havedisk1 s) (bk_dev s) (bk_wakes s).
Definition set_next (v : list nat) (s : blocks) := MkBlocks (bk_bufs s) v (bk_prev s) (bk_queue s) (bk_havedisk1 s) (bk_dev s) (bk_wakes s).
Definition set_prev (v : list nat) (s : blocks) := MkBlocks (bk_bufs s) (bk_next s) v (bk_queue s) (bk_havedisk1 s) (bk_dev s) (bk_wakes s).
Definition set_queue (v : list nat) (s : blocks) := MkBlocks (bk_bufs s) (bk_next s) (bk_prev s) v (bk_havedisk1 s) (bk_dev s) (bk_wakes s).
Definition set_bdev (v : device) (s : blocks) := MkBlocks (bk_bufs s) (bk_next s) (bk_prev s) (bk_queue s) (bk_havedisk1 s) v (bk_wakes s).
Definition set_havedisk1 (v : Z) (s : blocks) := MkBlocks (bk_bufs s) (bk_next s) (bk_prev s) (bk_queue s) v (bk_dev s) (bk_wakes s).
Definition set_wakes (v : list bwake) (s : blocks) := MkBlocks (bk_bufs s) (bk_next s) (bk_prev s) (bk_queue s) (bk_havedisk1 s) (bk_dev s) v.

(** The spin locks of this layer on the processor at hand: [bcache.lock], [idelock]
    and the guards of the sleep locks. *)
Record spins := MkSpins { sp_cpu : cpu; sp_bcache : spinlock; sp_ide : spinlock; sp_guards : list spinlock }.
Definition bstate : Type := spins * blocks.

#[global] Instance spinlock_inhabited : Inhabited spinlock := populate (initlock EmptyString).

(** Code that takes no spin lock. *)
Definition on_blocks {A} (m : M blocks A) : M bstate A := zoom snd (fun t s => (s.1, t)) m.

Section locking.
Context (me : nat).
(** A section of code under a spin lock, which does not touch other locks. *)
Definition locked {A} (get : spins -> spinlock) (set : spinlock -> spins -> spins)
    (m : M blocks A) : M bstate A :=
  let lk := zoom (fun s : bstate => (sp_cpu s.1, get s.1))
              (fun v (s : bstate) =>
                 (set v.2 (MkSpins v.1 (sp_bcache s.1) (sp_ide s.1) (sp_guards s.1)), s.2)) in
  lk (acquire me);;
  a ← on_blocks m;
  lk (release me);;
  mret a.
Definition under_bcache {A} : M blocks A -> M bstate A :=
  locked sp_bcache (fun l s => MkSpins (sp_cpu s) l (sp_ide s) (sp_guards s)).
Definition under_ide {A} : M blocks A -> M bstate A :=
  locked sp_ide (fun l s => MkSpins (sp_cpu s) (sp_bcache s) l (sp_guards s)).
Definition under_guard {A} (b : nat) : M blocks A -> M bstate A :=
  locked (fun s => sp_guards s !!! b)
    (fun l s => MkSpins (sp_cpu s) (sp_bcache s) (sp_ide s) (<[b := l]> (sp_guards s))).
End locking.

(** [b->f] and [b->f = v] *)
Definition brd {A} (f : buf -> A) (b : nat) : M blocks A := deref (fun s => f <$> bk_bufs s !! b).
Definition bwr (f : buf -> buf) (b : nat) : M blocks unit :=
  store (fun s => match bk_bufs s !! b with
                  | Some r => Some (set_bufs (<[b := f r]> (bk_bufs s)) s)
                  | None => None
                  end).
Definition wake (w : bwake) : M blocks unit := modify (fun s => set_wakes (bk_wakes s ++ [w]) s).
Definition dev_do (f : device -> device) : M blocks unit := modify (fun s => set_bdev (f (bk_dev s)) s).

(** * sleeplock.c *)

Section code.
(** The processor, and the pid of the process that runs on it. *)
Context (me : nat) (pid : Z).

Definition initsleeplock (b : nat) : M blocks unit := bwr (set_sleep 0 0) b.

Definition acquiresleep (b : nat) : M bstate unit :=
  under_guard me b (
    l ← brd b_locked b;
    if l =? 0 then bwr (set_sleep 1 pid) b else fail ESpin).

Definition releasesleep (b : nat) : M bstate unit :=
  under_guard me b (
    bwr (set_sleep 0 0) b;;
    wake (WLock b)).

Definition holdingsleep (b : nat) : M bstate bool :=
  under_guard me b (l ← brd b_locked b; mret (negb (l =? 0))).

(** * ide.c *)

Definition IDE_BSY : Z := 0x80.
Definition IDE_DRDY : Z := 0x40.
Definition IDE_DF : Z := 0x20.
Definition IDE_ERR : Z := 0x01.
Definition IDE_CMD_READ : Z := 0x20.
Definition IDE_CMD_WRITE : Z := 0x30.
Definition IDE_CMD_RDMUL : Z := 0xc4.
Definition IDE_CMD_WRMUL : Z := 0xc5.

(** A drive that is never ready keeps the processor polling. *)
Definition idewait (checkerr : bool) : M blocks Z :=
  r ← gets (fun s => dv_status (bk_dev s));
  if negb (Z.land r (Z.lor IDE_BSY IDE_DRDY) =? IDE_DRDY) then fail ESpin else
  if checkerr && negb (Z.land r (Z.lor IDE_DF IDE_ERR) =? 0) then mret (-1) else mret 0.

(** [ideinit] after [initlock] and [ioapicenable]: probe for the second drive.  Its
    status register reads non-zero exactly when the drive is there. *)
Definition ideinit (disk1_status : Z) : M blocks unit :=
  idewait false;;
  dev_do (reg_outb 0x1f6 (Z.lor 0xe0 (Z.shiftl 1 4)));;
  (if negb (disk1_status =? 0) then modify (set_havedisk1 1) else mret tt);;
  dev_do (reg_outb 0x1f6 (Z.lor 0xe0 (Z.shiftl 0 4))).

Definition idestart (b : nat) : M blocks unit :=
  n ← brd b_blockno b;
  panic_if (FSSIZE <=? n) "incorrect blockno";;
  let sector_per_block := BSIZE / SECTOR_SIZE in
  let sector := s32 (n * sector_per_block) in
  let read_cmd := if sector_per_block =? 1 then IDE_CMD_READ else IDE_CMD_RDMUL in
  let write_cmd := if sector_per_block =? 1 then IDE_CMD_WRITE else IDE_CMD_WRMUL in
  panic_if (7 <? sector_per_block) "idestart";;
  idewait false;;
  dev ← brd b_dev b;
  flags ← brd b_flags b;
  data ← brd b_data b;
  dev_do (reg_outb 0x3f6 0);;
  dev_do (reg_outb 0x1f2 sector_per_block);;
  dev_do (reg_outb 0x1f3 (Z.land sector 0xff));;
  dev_do (reg_outb 0x1f4 (Z.land (Z.shiftr sector 8) 0xff));;
  dev_do (reg_outb 0x1f5 (Z.land (Z.shiftr sector 16) 0xff));;
  dev_do (reg_outb 0x1f6 (Z.lor (Z.lor 0xe0 (Z.shiftl (Z.land dev 1) 4)) (Z.land (Z.shiftr sector 24) 0x0f)));;
  if negb (Z.land flags B_DIRTY =? 0) then
    dev_do (reg_outb 0x1f7 write_cmd);;
    dev_do (reg_outsl data)
  else dev_do (reg_outb 0x1f7 read_cmd).

(** [ideintr] on the request at the head of the queue. *)
Definition ide_finish (b : nat) : M blocks unit :=
  flags ← brd b_flags b;
  (if Z.land flags B_DIRTY =? 0 then
     w ← idewait true;
     if 0 <=? w then d ← gets (fun s => reg_insl (bk_dev s)); bwr (set_bdata d) b else mret tt
   else mret tt);;
  bwr (fun r => set_flags (Z.lor (b_flags r) B_VALID) r) b;;
  bwr (fun r => set_flags (Z.land (b_flags r) (Z.lnot B_DIRTY)) r) b;;
  wake (WBuf b).
Definition ideintr : M bstate unit :=
  under_ide me (
    q ← gets bk_queue;
    match q with
    | [] => mret tt
    | b :: q =>
        modify (set_queue q);;
        ide_finish b;;
        match q with [] => mret tt | b' :: _ => idestart b' end
    end).

(** [(b->flags & (B_VALID|B_DIRTY)) == B_VALID] *)
Definition buf_synced (b : nat) : M blocks bool :=
  flags ← brd b_flags b; mret (Z.land flags (Z.lor B_VALID B_DIRTY) =? B_VALID).

(** [while(!synced) sleep(b, &idelock)]: the lock is dropped, an interrupt comes,
    the lock is taken again. *)
Fixpoint ide_wait (fuel b : nat) : M bstate unit :=
  match fuel with
  | O => fail EFuel
  | S fuel =>
      ideintr;;
      r ← under_ide me (buf_synced b);
      if (r : bool) then mret tt else ide_wait fuel b
  end.

Definition iderw (b : nat) : M bstate unit :=
  h ← holdingsleep b;
  panic_if (negb h) "iderw: buf not locked";;
  r ← on_blocks (buf_synced b);
  panic_if r "iderw: nothing to do";;
  dev ← on_blocks (brd b_dev b);
  hd1 ← gets (fun s : bstate => bk_havedisk1 s.2);
  panic_if (negb (dev =? 0) && (hd1 =? 0)) "iderw: ide disk 1 not present";;
  q ← gets (fun s : bstate => bk_queue s.2);
  r ← under_ide me (
    modify (set_queue (q ++ [b]));;
    (match q with [] => idestart b | _ => mret tt end);;
    buf_synced b);
  if (r : bool) then mret tt else ide_wait (S (length q)) b.

(** * bio.c *)

Definition HEAD : nat := NBUF.
Definition get_next (i : nat) : M blocks nat := deref (fun s => bk_next s !! i).
Definition get_prev (i : nat) : M blocks nat := deref (fun s => bk_prev s !! i).
Definition put_next (i v : nat) : M blocks unit := modify (fun s => set_next (<[i := v]> (bk_next s)) s).
Definition put_prev (i v : nat) : M blocks unit := modify (fun s => set_prev (<[i := v]> (bk_prev s)) s).

(** Put [b] behind [bcache.head]. *)
Definition push_front (b : nat) : M blocks unit :=
  n ← get_next HEAD;
  put_next b n;;
  put_prev b HEAD;;
  n ← get_next HEAD;
  put_prev n b;;
  put_next HEAD b.
(** [b->next->prev = b->prev; b->prev->next = b->next] *)
Definition unlink (b : nat) : M blocks unit :=
  n ← get_next b; p ← get_prev b; put_prev n p;;
  p ← get_prev b; n ← get_next b; put_next p n.

(** [binit] after [initlock]. *)
Definition binit : M blocks unit :=
  put_prev HEAD HEAD;;
  put_next HEAD HEAD;;
  for_each (fun b => push_front b;; initsleeplock b) (seq 0 NBUF).

(** Walk the list from [b] on, forwards or backwards, to the first buffer that
    passes the test. *)
Fixpoint bscan (fuel : nat) (step : nat -> M blocks nat) (test : buf -> bool) (b : nat) : M blocks (option nat) :=
  if bool_decide (b = HEAD) then mret None else
  match fuel with
  | O => fail EFuel
  | S fuel =>
      r ← brd id b;
      if test r then mret (Some b) else n ← step b; bscan fuel step test n
  end.

Definition cached (dev blockno : Z) (r : buf) : bool := (b_dev r =? dev) && (b_blockno r =? blockno).
Definition recyclable (r : buf) : bool := (b_refcnt r =? 0) && (Z.land (b_flags r) B_DIRTY =? 0).

(** [bget] under [bcache.lock]. *)
Definition bget_find (dev blockno : Z) : M blocks nat :=
  n ← get_next HEAD;
  hit ← bscan NBUF get_next (cached dev blockno) n;
  match hit with
  | Some b => bwr (fun r => set_refcnt (u32 (b_refcnt r + 1)) r) b;; mret b
  | None =>
      p ← get_prev HEAD;
      free ← bscan NBUF get_prev recyclable p;
      match free with
      | Some b => bwr (fun r => set_refcnt 1 (set_flags 0 (set_key dev blockno r))) b;; mret b
      | None => fail (EPanic "bget: no buffers")
      end
  end.
Definition bget (dev blockno : Z) : M bstate nat :=
  b ← under_bcache me (bget_find dev blockno);
  acquiresleep b;;
  mret b.

Definition bread (dev blockno : Z) : M bstate nat :=
  b ← bget dev blockno;
  flags ← on_blocks (brd b_flags b);
  (if Z.land flags B_VALID =? 0 then iderw b else mret tt);;
  mret b.

Definition bwrite (b : nat) : M bstate unit :=
  h ← holdingsleep b;
  panic_if (negb h) "bwrite";;
  on_blocks (bwr (fun r => set_flags (Z.lor (b_flags r) B_DIRTY) r) b);;
  iderw b.

(** [brelse] under [bcache.lock]. *)
Definition brelse_list (b : nat) : M blocks unit :=
  bwr (fun r => set_refcnt (u32 (b_refcnt r - 1)) r) b;;
  n ← brd b_refcnt b;
  if n =? 0 then unlink b;; push_front b else mret tt.
Definition brelse (b : nat) : M bstate unit :=
  h ← holdingsleep b;
  panic_if (negb h) "brelse";;
  releasesleep b;;
  under_bcache me (brelse_list b).
End code.
