(* ===== verification/BlockFacts.v ===== *)
(** The contract of the block layer: what [bread], [bwrite] and [brelse] do, in
    terms of the blocks that callers see, the disk, the blocks pinned by the log
    and the buffers in use. *)

From stdpp Require Import base tactics numbers option list gmap sets strings.
From Stdlib Require Import ZArith Lia.
From S2P Require Import Prelude ProcDefs Spinlock Block.

(** * Spin locks of the layer *)

Record spins_ok (sp : spins) : Prop := {
  so_cpu : cpu_ok (sp_cpu sp);
  so_bcache : lk_locked (sp_bcache sp) = 0;
  so_ide : lk_locked (sp_ide sp) = 0;
  so_guards : forall b, (b < NBUF)%nat -> lk_locked (sp_guards sp !!! b) = 0;
  so_len : length (sp_guards sp) = NBUF
}.

Lemma left_entered_ok k : cpu_ok k -> cpu_ok (left_cpu (entered k)).
Proof.
  intros [Hn Hi]. split; cbn; [lia|]. intros ?. destruct (Z.eqb_spec (c_ncli k + 1) 1); [lia|done].
Qed.

Lemma wp_on_blocks {A} (m : M blocks A) (Q : A -> bstate -> Prop) (s : bstate) :
  wp m (fun a t => Q a (s.1, t)) s.2 -> wp (on_blocks m) Q s.
Proof. intros H. unfold on_blocks. by apply wp_zoom. Qed.

(** A locked section behaves as its body and leaves all spin locks free. *)
Lemma wp_locked {A} me (get : spins -> spinlock) set (m : M blocks A) (Q : A -> bstate -> Prop) s sp1 :
  cpu_ok (sp_cpu s.1) -> lk_locked (get s.1) = 0 ->
  sp1 = set (MkSpinlock 1 (lk_name (get s.1)) (Some me))
          (MkSpins (entered (sp_cpu s.1)) (sp_bcache s.1) (sp_ide s.1) (sp_guards s.1)) ->
  get sp1 = MkSpinlock 1 (lk_name (get s.1)) (Some me) -> sp_cpu sp1 = entered (sp_cpu s.1) ->
  (forall k l, cpu_ok k -> lk_locked l = 0 ->
     spins_ok (set l (MkSpins k (sp_bcache sp1) (sp_ide sp1) (sp_guards sp1)))) ->
  wp m (fun a t => forall sp, spins_ok sp -> Q a (sp, t)) s.2 ->
  wp (locked me get set m) Q s.
Proof.
  intros Hc Hl E1 Hg1 Hc1 Hok Hm. unfold locked. wp_step. apply wp_zoom. cbn [fst snd].
  eapply wp_run; [by apply acquire_free|]. wp_step. apply wp_on_blocks. cbn [fst snd].
  eapply wp_mono; [exact Hm|]. cbn beta. intros a t Ha. wp_step. apply wp_zoom. cbn [fst snd].
  rewrite <-E1, Hg1, Hc1. eapply wp_run.
  { rewrite release_prefix; [|by apply entered_ok|destruct Hc; cbn; lia].
    unfold is_held. cbn. by rewrite bool_decide_eq_true_2. }
  wp_step. cbn [fst snd]. apply Ha. apply Hok; [by apply left_entered_ok|done].
Qed.

Lemma wp_under_bcache {A} me (m : M blocks A) (Q : A -> bstate -> Prop) s : spins_ok s.1 ->
  wp m (fun a t => forall sp, spins_ok sp -> Q a (sp, t)) s.2 -> wp (under_bcache me m) Q s.
Proof. intros [????] Hm. by eapply wp_locked. Qed.
Lemma wp_under_ide {A} me (m : M blocks A) (Q : A -> bstate -> Prop) s : spins_ok s.1 ->
  wp m (fun a t => forall sp, spins_ok sp -> Q a (sp, t)) s.2 -> wp (under_ide me m) Q s.
Proof. intros [????] Hm. by eapply wp_locked. Qed.
Lemma wp_under_guard {A} me b (m : M blocks A) (Q : A -> bstate -> Prop) s : spins_ok s.1 ->
  (b < NBUF)%nat ->
  wp m (fun a t => forall sp, spins_ok sp -> Q a (sp, t)) s.2 -> wp (under_guard me b m) Q s.
Proof.
  intros [H1 H2 H3 H4 H5] Hb Hm. eapply wp_locked; try done; cbn; auto.
  - rewrite list_lookup_total_insert_eq; [done|lia].
  - intros k l ??. split; cbn; [done..| |by rewrite !length_insert].
    intros j Hj. destruct (decide (j = b)) as [->|Hne].
    + by rewrite list_lookup_total_insert_eq by (rewrite length_insert; lia).
    + rewrite !list_lookup_total_insert_ne by done. by apply H4.
Qed.

(** * The list of buffers *)

(** Following [f] through [xs] ends in [t]. *)
Fixpoint chainl (f : list nat) (xs : list nat) (t : nat) : Prop :=
  match xs with
  | [] => True
  | a :: xs => f !! a = Some (hd t xs) /\ chainl f xs t
  end.

Lemma chainl_app f xs ys t : chainl f (xs ++ ys) t <-> chainl f xs (hd t ys) /\ chainl f ys t.
Proof.
  induction xs as [|x xs IH]; cbn; [tauto|]. rewrite IH.
  assert (hd t (xs ++ ys) = hd (hd t ys) xs) as -> by (by destruct xs). tauto.
Qed.
Lemma chainl_insert_ne f xs t a v : a ∉ xs -> chainl f xs t -> chainl (<[a := v]> f) xs t.
Proof.
  induction xs as [|x xs IH]; cbn; [done|]. intros Ha [H1 H2].
  rewrite list_lookup_insert_ne by set_solver. split; [done|]. apply IH; set_solver.
Qed.
(** Redirect the end of a chain. *)
Lemma chainl_redirect f xs p t t' : p ∉ xs -> chainl f (xs ++ [p]) t -> chainl (<[p := t']> f) (xs ++ [p]) t'.
Proof.
  intros Hp. rewrite !chainl_app. cbn. intros [H1 [H2 _]]. split; [by apply chainl_insert_ne|].
  split; [|done]. apply list_lookup_insert_eq. by apply lookup_lt_Some in H2.
Qed.

(** The last element of [HEAD :: l] is the first of its reverse, or [HEAD]. *)
Lemma last_split h (l : list nat) : exists xs, h :: l = xs ++ [hd h (reverse l)].
Proof.
  destruct l as [|x l _] using rev_ind; [by exists []|]. rewrite reverse_snoc. cbn. by exists (h :: l).
Qed.

Lemma chainl_remove f h l1 b l2 : NoDup (h :: l1 ++ b :: l2) -> chainl f (h :: l1 ++ b :: l2) h ->
  f !! b = Some (hd h l2) /\ chainl (<[hd h (reverse l1) := hd h l2]> f) (h :: l1 ++ l2) h.
Proof.
  intros Hnd Hc. change (h :: l1 ++ b :: l2) with ((h :: l1) ++ b :: l2) in *.
  apply chainl_app in Hc as [H1 H2]. cbn [hd] in H1. destruct H2 as [Hb H2]. split; [done|].
  change (h :: l1 ++ l2) with ((h :: l1) ++ l2). destruct (last_split h l1) as [xs Hxs].
  rewrite Hxs in *. apply NoDup_app in Hnd as (Hn1 & Hd & Hn2). apply chainl_app. split.
  - apply (chainl_redirect _ _ _ b); [|done]. apply NoDup_app in Hn1 as (_ & Hd' & _).
    intros Hin. apply (Hd' _ Hin). set_solver.
  - apply chainl_insert_ne; [|done]. intros Hin. apply (Hd (hd h (reverse l1))); set_solver.
Qed.

(** The links form the circular list of [o] around [bcache.head]. *)
Record ring (nx pv : list nat) (o : list nat) : Prop := {
  rg_nodup : NoDup (HEAD :: o);
  rg_next : chainl nx (HEAD :: o) HEAD;
  rg_prev : chainl pv (HEAD :: reverse o) HEAD;
  rg_lenn : length nx = S NBUF;
  rg_lenp : length pv = S NBUF;
  rg_lt : Forall (fun x => (x < NBUF)%nat) o
}.

Lemma hd_lt h (l : list nat) : Forall (fun x => (x < NBUF)%nat) l -> (h < S NBUF)%nat -> (hd h l < S NBUF)%nat.
Proof. intros Hl Hh. destruct l; cbn; [done|]. inv Hl. lia. Qed.

(** Only the links of the state change. *)
Definition same_but_links (s s' : blocks) : Prop := s' = set_prev (bk_prev s') (set_next (bk_next s') s).

Lemma unlink_spec s l1 b l2 (Q : unit -> blocks -> Prop) :
  ring (bk_next s) (bk_prev s) (l1 ++ b :: l2) ->
  (forall s', ring (bk_next s') (bk_prev s') (l1 ++ l2) -> same_but_links s s' -> Q tt s') ->
  wp (unlink b) Q s.
Proof.
  intros [Hnd Hn Hp Hln Hlp Hlt] HQ. unfold unlink, get_next, get_prev, put_next, put_prev.
  pose proof (chainl_remove _ _ _ _ _ Hnd Hn) as [Enb Hn'].
  assert (Hrev : reverse (l1 ++ b :: l2) = reverse l2 ++ b :: reverse l1)
    by (rewrite reverse_app, reverse_cons, <-(assoc_L (++)); done).
  rewrite Hrev in Hp.
  assert (Hnd' : NoDup (HEAD :: reverse l2 ++ b :: reverse l1)).
  { rewrite <-Hrev. by rewrite (reverse_Permutation (l1 ++ b :: l2)). }
  pose proof (chainl_remove _ _ _ _ _ Hnd' Hp) as [Epb Hp']. rewrite reverse_involutive in Hp'.
  set (n := hd HEAD l2) in *. set (p := hd HEAD (reverse l1)) in *.
  assert (Hnb : n <> b).
  { unfold n. apply NoDup_cons in Hnd as [Hh Hnd]. destruct l2 as [|y l2]; cbn; [set_solver|].
    apply NoDup_app in Hnd as (_ & _ & Hnd). apply NoDup_cons in Hnd. set_solver. }
  wp_step. eapply wp_deref; [exact Enb|]. wp_step. eapply wp_deref; [exact Epb|]. wp_steps.
  eapply wp_deref; [cbn; rewrite list_lookup_insert_ne by done; exact Epb|]. wp_step.
  eapply wp_deref; [exact Enb|]. wp_steps. apply HQ; [|done].
  split; cbn [bk_next bk_prev set_next set_prev]; try by rewrite length_insert.
  - apply NoDup_cons in Hnd as [??]. apply NoDup_cons. split; [set_solver|].
    rewrite <-Permutation_middle in H0. by apply NoDup_cons in H0 as [??].
  - done.
  - by rewrite reverse_app.
  - rewrite Forall_app, Forall_cons in Hlt. apply Forall_app. tauto.
Qed.

Lemma push_front_spec s o b (Q : unit -> blocks -> Prop) :
  ring (bk_next s) (bk_prev s) o -> b ∉ o -> (b < NBUF)%nat ->
  (forall s', ring (bk_next s') (bk_prev s') (b :: o) -> same_but_links s s' -> Q tt s') ->
  wp (push_front b) Q s.
Proof.
  intros [Hnd Hn Hp Hln Hlp Hlt] Hb Hbn HQ. unfold push_front, get_next, put_next, put_prev.
  destruct Hn as [Eh Hn]. assert (HbH : b <> HEAD) by (unfold HEAD; lia).
  assert (HnH : hd HEAD o <> b) by (destruct o; cbn; [done|set_solver]).
  wp_step. eapply wp_deref; [exact Eh|]. wp_steps.
  eapply wp_deref; [cbn; rewrite list_lookup_insert_ne by done; exact Eh|]. wp_steps.
  apply HQ; [|done]. split; cbn [bk_next bk_prev set_next set_prev].
  - apply NoDup_cons in Hnd as [??]. rewrite !NoDup_cons. set_solver.
  - split; [apply list_lookup_insert_eq; rewrite length_insert; unfold HEAD; lia|]. split.
    + rewrite list_lookup_insert_ne by done. apply list_lookup_insert_eq. lia.
    + apply NoDup_cons in Hnd as [??]. by do 2 (apply chainl_insert_ne; [done|]).
  - rewrite reverse_cons. destruct (last_split HEAD (reverse o)) as [xs Hxs].
    rewrite reverse_involutive in Hxs. change (HEAD :: reverse o ++ [b]) with ((HEAD :: reverse o) ++ [b]).
    apply chainl_app. cbn [hd]. split.
    + rewrite Hxs in *. eapply chainl_redirect; [|apply chainl_insert_ne; [|exact Hp]].
      * assert (Hnr : NoDup (HEAD :: reverse o)) by (by rewrite (reverse_Permutation o)).
        rewrite Hxs in Hnr. apply NoDup_app in Hnr as (_ & Hd & _). intros Hin. apply (Hd _ Hin). set_solver.
      * rewrite <-Hxs. rewrite elem_of_cons, elem_of_reverse. set_solver.
    + cbn. split; [|done]. rewrite list_lookup_insert_ne by done. apply list_lookup_insert_eq. lia.
  - by rewrite !length_insert.
  - by rewrite !length_insert.
  - by constructor.
Qed.

(** The first buffer along [xs] that passes the test. *)
Definition scan_post (bufs : list buf) (test : buf -> bool) (xs : list nat) (r : option nat) : Prop :=
  match r with
  | Some b => exists a c rb, xs = a ++ b :: c /\ bufs !! b = Some rb /\ test rb = true /\
      forall x rx, x ∈ a -> bufs !! x = Some rx -> test rx = false
  | None => forall x rx, x ∈ xs -> bufs !! x = Some rx -> test rx = false
  end.

Lemma bscan_spec f step test xs s fuel :
  (forall i v, f !! i = Some v -> step i s = Ok (v, s)) ->
  chainl f xs HEAD -> Forall (fun x => (x < NBUF)%nat) xs -> length (bk_bufs s) = NBUF ->
  (length xs <= fuel)%nat ->
  exists r, bscan fuel step test (hd HEAD xs) s = Ok (r, s) /\ scan_post (bk_bufs s) test xs r.
Proof.
  intros Hstep. revert fuel. induction xs as [|x xs IH]; intros fuel Hc Hlt Hlen Hf.
  { exists None. split; [|by intros ?? ?%not_elem_of_nil]. cbn [hd]. by destruct fuel. }
  destruct Hc as [Hx Hc]. inv Hlt. cbn in Hf. destruct fuel as [|fuel]; [lia|]. cbn [hd bscan].
  rewrite bool_decide_eq_false_2 by (unfold HEAD; lia).
  destruct (lookup_lt_is_Some_2 (bk_bufs s) x) as [rx Hrx]; [lia|].
  unfold brd, deref, mbind, M_bind. rewrite Hrx. cbn [fmap option_fmap option_map id].
  destruct (test rx) eqn:Et.
  - exists (Some x). split; [done|]. exists [], xs, rx. split_and!; try done. by intros ?? ?%not_elem_of_nil.
  - rewrite (Hstep x _ Hx). destruct (IH fuel) as (r & Hr & Hp); [done..|lia|].
    exists r. split; [exact Hr|]. destruct r as [b|]; cbn in *.
    + destruct Hp as (a & c & rb & -> & Hb & Htb & Ha). exists (x :: a), c, rb. split_and!; try done.
      intros y ry [->|Hy]%elem_of_cons; [congruence|eauto].
    + intros y ry [->|Hy]%elem_of_cons; [congruence|eauto].
Qed.

(** * The driver *)

(** The drive is ready and reports no error. *)
Definition drive_ready (d : device) : Prop :=
  Z.land (dv_status d) (Z.lor IDE_BSY IDE_DRDY) = IDE_DRDY /\
  Z.land (dv_status d) (Z.lor IDE_DF IDE_ERR) = 0.

(** The registers as [idestart] leaves them for a block of the root disk. *)
Definition selected (d : device) (n : Z) : Prop := reg_drive d = ROOTDEV /\ reg_sector d = n.

Lemma wp_idewait c s (Q : Z -> blocks -> Prop) : drive_ready (bk_dev s) -> Q 0 s -> wp (idewait c) Q s.
Proof.
  intros [H1 H2] HQ. unfold idewait. wp_steps. rewrite H1, Z.eqb_refl. cbn [negb].
  rewrite H2. cbn. by destruct c.
Qed.

Lemma sector_bytes n : 0 <= n < FSSIZE ->
  u8 (Z.land n 0xff) + 2 ^ 8 * u8 (Z.land (Z.shiftr n 8) 0xff) + 2 ^ 16 * u8 (Z.land (Z.shiftr n 16) 0xff) = n /\
  Z.land (Z.shiftr n 24) 0x0f = 0.
Proof.
  intros Hn. unfold FSSIZE in Hn. change 0xff with (Z.ones 8). rewrite !Z.land_ones by lia.
  rewrite !Z.shiftr_div_pow2 by lia. unfold u8. rewrite !Zmod_mod.
  replace (n / 2 ^ 24) with 0 by (symmetry; apply Z.div_small; lia).
  replace (n / 2 ^ 16) with 0 by (symmetry; apply Z.div_small; lia).
  split; [|done]. rewrite (Z.mod_small (n / 2 ^ 8)), Zmod_0_l.
  - pose proof (Z.div_mod n (2 ^ 8)). lia.
  - split; [apply Z.div_pos; lia|]. apply Z.div_lt_upper_bound; lia.
Qed.

(** The state after the device alone has changed. *)
Lemma wp_dev_do f s (Q : unit -> blocks -> Prop) : Q tt (set_bdev (f (bk_dev s)) s) -> wp (dev_do f) Q s.
Proof. apply wp_modify. Qed.

(** Starting a request selects the block; a write reaches the disk. *)
Definition started (r : buf) (d d' : device) : Prop :=
  selected d' (b_blockno r) /\ dv_status d' = dv_status d /\
  if Z.land (b_flags r) B_DIRTY =? 0 then dv_disk d' = dv_disk d /\ dv_hist d' = dv_hist d
  else dv_disk d' = upd2 (dv_disk d) ROOTDEV (b_blockno r) (b_data r) /\
       dv_hist d' = dv_hist d ++ [(ROOTDEV, b_blockno r, b_data r)].

Lemma wp_brd {A} (f : buf -> A) b r s (Q : A -> blocks -> Prop) :
  bk_bufs s !! b = Some r -> Q (f r) s -> wp (brd f b) Q s.
Proof. intros Hr HQ. unfold brd. eapply wp_deref; [by rewrite Hr|done]. Qed.
Lemma wp_bwr f b r s (Q : unit -> blocks -> Prop) :
  bk_bufs s !! b = Some r -> Q tt (set_bufs (<[b := f r]> (bk_bufs s)) s) -> wp (bwr f b) Q s.
Proof. intros Hr HQ. unfold bwr. eapply wp_store; [by rewrite Hr|done]. Qed.

Lemma idestart_spec s b r (Q : unit -> blocks -> Prop) :
  bk_bufs s !! b = Some r -> b_dev r = ROOTDEV -> 0 <= b_blockno r < FSSIZE -> drive_ready (bk_dev s) ->
  (forall d, started r (bk_dev s) d -> Q tt (set_bdev d s)) -> wp (idestart b) Q s.
Proof.
  intros Hr Hd Hn Hrdy HQ. unfold idestart. wp_step. apply (wp_brd _ _ r); [done|]. wp_step.
  apply wp_panic_if; [apply Z.leb_gt; lia|]. wp_step. apply wp_panic_if; [done|]. wp_step.
  apply wp_idewait; [done|]. wp_step. apply (wp_brd _ _ r); [done|]. wp_step.
  apply (wp_brd _ _ r); [done|]. wp_step. apply (wp_brd _ _ r); [done|].
  change (BSIZE / SECTOR_SIZE) with 1. rewrite Z.mul_1_r, s32_small, Hd by (unfold FSSIZE in *; lia).
  destruct (sector_bytes _ Hn) as [Hs1 Hs2]. do 6 (wp_step; apply wp_dev_do).
  rewrite Hs2. cbn [Z.eqb Pos.eqb].
  destruct (Z.land (b_flags r) B_DIRTY =? 0) eqn:Ef; cbn [negb].
  - apply wp_dev_do. apply (HQ (reg_outb 0x1f7 _ _)). unfold started. rewrite Ef. split; [|done].
    split; [done|]. unfold reg_sector. cbn. rewrite Z.mul_0_r, Z.add_0_r. exact Hs1.
  - wp_step. apply wp_dev_do. apply wp_dev_do. apply (HQ (reg_outsl _ _)). unfold started. rewrite Ef.
    assert (Hsel : forall d0, selected (reg_outb 0x1f7 IDE_CMD_WRITE (reg_outb 0x1f6 (Z.lor (Z.lor 0xe0 (Z.shiftl (Z.land ROOTDEV 1) 4)) 0)
      (reg_outb 0x1f5 (Z.land (Z.shiftr (b_blockno r) 16) 0xff) (reg_outb 0x1f4 (Z.land (Z.shiftr (b_blockno r) 8) 0xff)
       (reg_outb 0x1f3 (Z.land (b_blockno r) 0xff) d0))))) (b_blockno r)).
    { intros d0. split; [done|]. unfold reg_sector. cbn. rewrite Z.mul_0_r, Z.add_0_r. exact Hs1. }
    specialize (Hsel (reg_outb 0x1f2 1 (reg_outb 0x3f6 0 (bk_dev s)))). destruct Hsel as [Ha Hb].
    split; [split; [exact Ha|exact Hb]|]. split; [done|].
    unfold reg_outsl. cbn [dv_disk dv_hist set_bdev bk_dev]. rewrite Ha, Hb. done.
Qed.

(** The buffer after its request is done. *)
Definition synced (d : device) (r : buf) : buf :=
  set_flags B_VALID (if Z.land (b_flags r) B_DIRTY =? 0
                     then set_bdata (dv_disk d ROOTDEV (b_blockno r)) r else r).
(** Flags with which [iderw] has something to do. *)
Definition pending (fl : Z) : Prop := fl = 0 \/ fl = B_DIRTY \/ fl = Z.lor B_VALID B_DIRTY.

Lemma ide_finish_spec s b r (Q : unit -> blocks -> Prop) :
  bk_bufs s !! b = Some r -> pending (b_flags r) -> drive_ready (bk_dev s) ->
  selected (bk_dev s) (b_blockno r) ->
  (forall w, Q tt (set_wakes w (set_bufs (<[b := synced (bk_dev s) r]> (bk_bufs s)) s))) ->
  wp (ide_finish b) Q s.
Proof.
  intros Hr Hp Hrdy [Hs1 Hs2] HQ. unfold ide_finish. wp_step. apply (wp_brd _ _ r); [done|].
  set (r1 := if Z.land (b_flags r) B_DIRTY =? 0 then set_bdata (dv_disk (bk_dev s) ROOTDEV (b_blockno r)) r else r).
  assert (Hf : b_flags r1 = b_flags r) by (unfold r1; by destruct (_ =? 0)).
  assert (Hb : (b < length (bk_bufs s))%nat) by (by apply lookup_lt_Some in Hr).
  wp_step. eapply (wp_mono _ (fun _ s1 => s1 = set_bufs (<[b := r1]> (bk_bufs s)) s)).
  { unfold r1. destruct (Z.land (b_flags r) B_DIRTY =? 0) eqn:Ed.
    - wp_step. apply wp_idewait; [done|]. cbn [Z.leb Z.compare]. wp_step. apply wp_gets.
      apply (wp_bwr _ _ r); [done|]. unfold reg_insl. by rewrite Hs1, Hs2.
    - apply wp_ret. rewrite list_insert_id by done. by destruct s. }
  intros [] s1 ->. wp_step. apply (wp_bwr _ _ r1); [cbn; by rewrite list_lookup_insert_eq|].
  wp_step. eapply wp_bwr; [cbn; rewrite list_lookup_insert_eq by (by rewrite length_insert); done|].
  unfold wake. wp_steps. cbn [bk_bufs set_bufs]. rewrite !list_insert_insert_eq.
  assert (Hfl : set_flags (Z.land (b_flags (set_flags (Z.lor (b_flags r1) B_VALID) r1)) (Z.lnot B_DIRTY))
      (set_flags (Z.lor (b_flags r1) B_VALID) r1) = synced (bk_dev s) r).
  { unfold synced. fold r1. unfold set_flags. cbn. f_equal. rewrite Hf. by destruct Hp as [->|[->| ->]]. }
  rewrite Hfl. apply HQ.
Qed.

(** Nothing is queued and the root disk is there. *)
Definition io_idle (t : blocks) : Prop :=
  bk_queue t = [] /\ bk_havedisk1 t <> 0 /\ drive_ready (bk_dev t).

Lemma wp_holdingsleep me b r s (Q : bool -> bstate -> Prop) : spins_ok s.1 -> (b < NBUF)%nat ->
  bk_bufs s.2 !! b = Some r ->
  (forall sp, spins_ok sp -> Q (negb (b_locked r =? 0)) (sp, s.2)) -> wp (holdingsleep me b) Q s.
Proof.
  intros Hs Hb Hr HQ. unfold holdingsleep. apply wp_under_guard; [done|done|].
  wp_step. apply (wp_brd _ _ r); [done|]. apply wp_ret. eauto.
Qed.

Lemma pending_synced fl : pending fl -> Z.land fl (Z.lor B_VALID B_DIRTY) =? B_VALID = false.
Proof. by intros [->|[->| ->]]. Qed.

(** [iderw] reads the block, or writes it, and returns. *)
Lemma iderw_spec me s b r (Q : unit -> bstate -> Prop) :
  spins_ok s.1 -> io_idle s.2 -> length (bk_bufs s.2) = NBUF ->
  bk_bufs s.2 !! b = Some r -> b_locked r <> 0 -> b_dev r = ROOTDEV -> 0 <= b_blockno r < FSSIZE ->
  pending (b_flags r) ->
  (forall sp d w, spins_ok sp -> started r (bk_dev s.2) d ->
    Q tt (sp, set_wakes w (set_bdev d (set_bufs (<[b := synced (bk_dev s.2) r]> (bk_bufs s.2)) s.2)))) ->
  wp (iderw me b) Q s.
Proof.
  intros Hsp (Hq & Hh & Hrdy) Hlen Hr Hl Hd Hn Hp HQ. destruct s as [sp t]. cbn [fst snd] in *.
  assert (Hb : (b < NBUF)%nat) by (apply lookup_lt_Some in Hr; lia).
  unfold iderw. wp_step. apply (wp_holdingsleep _ _ r); [done..|]. intros sp1 Hsp1.
  assert (Hl' : b_locked r =? 0 = false) by (by apply Z.eqb_neq). rewrite Hl'. wp_step.
  apply wp_panic_if; [done|]. wp_step. apply wp_on_blocks. unfold buf_synced at 1. wp_step.
  apply (wp_brd _ _ r); [done|]. apply wp_ret. rewrite pending_synced by done. wp_step.
  apply wp_panic_if; [done|]. wp_step. apply wp_on_blocks. apply (wp_brd _ _ r); [done|]. wp_steps.
  apply wp_panic_if.
  { cbn. rewrite andb_false_iff. right. by apply Z.eqb_neq. }
  wp_steps. cbn [fst snd]. rewrite Hq. apply wp_under_ide; [done|]. cbn [fst snd app].
  wp_step. apply wp_modify. wp_step. apply (idestart_spec _ _ r); [done..|]. intros d Hst.
  unfold buf_synced at 1. wp_step. apply (wp_brd _ _ r); [done|]. apply wp_ret. intros sp2 Hsp2.
  rewrite pending_synced by done. cbn [length ide_wait]. wp_step. unfold ideintr.
  apply wp_under_ide; [done|]. cbn [fst snd]. wp_steps. cbn [bk_queue set_bdev set_queue].
  wp_step. apply wp_modify. destruct Hst as [Hsel [Hst1 Hst2]]. wp_step.
  eapply (ide_finish_spec _ b r); [done|done| |exact Hsel|].
  { cbn. unfold drive_ready. by rewrite Hst1. }
  intros w. apply wp_ret. intros sp3 Hsp3. wp_step. apply wp_under_ide; [done|]. cbn [fst snd].
  unfold buf_synced. wp_step. eapply wp_brd; [cbn; apply list_lookup_insert_eq; lia|].
  apply wp_ret. intros sp4 Hsp4. apply wp_ret.
  assert (E : synced d r = synced (bk_dev t) r).
  { unfold synced. destruct (Z.land (b_flags r) B_DIRTY =? 0); [by rewrite (proj1 Hst2)|done]. }
  specialize (HQ sp4 d w Hsp4 (conj Hsel (conj Hst1 Hst2))). rewrite <-E in HQ.
  destruct t; cbn in *. by subst.
Qed.
