(* ===== verification/BioFacts.v ===== *)
(** The buffer cache against its contract: callers see one version of each block,
    clean buffers hold what is on disk, pinned and held blocks stay cached. *)

From stdpp Require Import base tactics numbers option list gmap fin_maps sets strings.
From Stdlib Require Import ZArith Lia.
From S2P Require Import Prelude ProcDefs Spinlock Block BlockFacts.

(** * The contract's state *)

(** The contents of blocks, by block number. *)
Definition image := Z -> list Z.
Definition upd (f : image) (n : Z) (d : list Z) : image := fun m => if decide (m = n) then d else f m.

Lemma upd_eq f n d : upd f n d n = d.
Proof. unfold upd. by rewrite decide_True. Qed.
Lemma upd_ne f n d m : m <> n -> upd f n d m = f m.
Proof. intros. unfold upd. by rewrite decide_False. Qed.

(** A buffer is fresh, or caches a block of the root disk; [h] is the block when the
    buffer is held. *)
Definition slot_ok (V : image) (dirty : gset Z) (h : option Z) (r : buf) : Prop :=
  (b_dev r = 0 /\ b_flags r = 0 /\ b_refcnt r = 0 /\ b_locked r = 0 /\ h = None) \/
  (b_dev r = ROOTDEV /\ 0 <= b_blockno r < FSSIZE /\
   b_flags r = (if decide (b_blockno r ∈ dirty) then Z.lor B_VALID B_DIRTY else B_VALID) /\
   b_data r = V (b_blockno r) /\
   match h with
   | Some n => n = b_blockno r /\ b_locked r = 1 /\ b_refcnt r = 1
   | None => b_locked r = 0 /\ b_refcnt r = 0
   end).

(** [V]: the blocks as callers see them; [D]: the disk; [dirty]: the blocks pinned by
    the log; [held]: the locked buffers and their blocks. *)
Record bok (s : bstate) (V D : image) (dirty : gset Z) (held : gmap nat Z) : Prop := {
  bo_spins : spins_ok s.1;
  bo_io : io_idle s.2;
  bo_ring : exists o, ring (bk_next s.2) (bk_prev s.2) o /\ o ≡ₚ seq 0 NBUF;
  bo_len : length (bk_bufs s.2) = NBUF;
  bo_slot : forall i r, bk_bufs s.2 !! i = Some r -> slot_ok V dirty (held !! i) r;
  bo_uniq : forall i j ri rj, bk_bufs s.2 !! i = Some ri -> bk_bufs s.2 !! j = Some rj ->
    b_dev ri = ROOTDEV -> b_dev rj = ROOTDEV -> b_blockno ri = b_blockno rj -> i = j;
  bo_dirty : forall n, n ∈ dirty -> exists i r, bk_bufs s.2 !! i = Some r /\ b_dev r = ROOTDEV /\ b_blockno r = n;
  bo_held : forall i n, held !! i = Some n -> (i < NBUF)%nat;
  bo_clean : forall n, n ∉ dirty -> (forall i, held !! i <> Some n) -> V n = D n;
  bo_disk : forall n, dv_disk (bk_dev s.2) ROOTDEV n = D n
}.
(** The writes that have reached the disk. *)
Definition history (s : bstate) : list (Z * Z * list Z) := dv_hist (bk_dev s.2).

(** The blocks that occupy a buffer. *)
Definition in_use (dirty : gset Z) (held : gmap nat Z) : gset Z := dirty ∪ map_img held.

Lemma slot_root V dirty h r : slot_ok V dirty h r -> b_dev r <> 0 ->
  b_dev r = ROOTDEV /\ 0 <= b_blockno r < FSSIZE /\
  b_flags r = (if decide (b_blockno r ∈ dirty) then Z.lor B_VALID B_DIRTY else B_VALID) /\
  b_data r = V (b_blockno r) /\
  match h with
  | Some n => n = b_blockno r /\ b_locked r = 1 /\ b_refcnt r = 1
  | None => b_locked r = 0 /\ b_refcnt r = 0
  end.
Proof. by intros [(? & _)|?]. Qed.

Lemma slot_held V dirty n r : slot_ok V dirty (Some n) r ->
  b_dev r = ROOTDEV /\ 0 <= b_blockno r < FSSIZE /\ b_blockno r = n /\
  b_flags r = (if decide (n ∈ dirty) then Z.lor B_VALID B_DIRTY else B_VALID) /\
  b_data r = V n /\ b_locked r = 1 /\ b_refcnt r = 1.
Proof. intros [(_ & _ & _ & _ & ?)|(? & ? & ? & ? & -> & ? & ?)]; [done|]. repeat (split; [done|]). done. Qed.

(** A held buffer is found, with its contents. *)
Lemma bok_held s V D dirty held b n : bok s V D dirty held -> held !! b = Some n ->
  exists r, bk_bufs s.2 !! b = Some r /\ slot_ok V dirty (Some n) r.
Proof.
  intros H Hb. destruct (lookup_lt_is_Some_2 (bk_bufs s.2) b) as [r Hr].
  { rewrite (bo_len _ _ _ _ _ H). by eapply bo_held. }
  exists r. split; [done|]. rewrite <-Hb. by eapply bo_slot.
Qed.

(** * Finding a buffer *)

(** Fewer blocks in use than buffers leave a buffer to recycle. *)
Lemma recyclable_exists s V D dirty held : bok s V D dirty held ->
  (size (in_use dirty held) < NBUF)%nat ->
  exists i r, bk_bufs s.2 !! i = Some r /\ recyclable r = true.
Proof.
  intros H Hsz. destruct (decide (Exists (fun r => recyclable r = true) (bk_bufs s.2))) as [He|He].
  { apply Exists_exists in He as (r & [i Hi]%list_elem_of_lookup & Hr). eauto. }
  exfalso. apply not_Exists_Forall in He; [|apply _].
  set (ks := b_blockno <$> bk_bufs s.2).
  assert (Hin : forall i r, bk_bufs s.2 !! i = Some r -> b_dev r = ROOTDEV /\ b_blockno r ∈ in_use dirty held).
  { intros i r Hr. rewrite Forall_lookup in He. specialize (He i r Hr).
    destruct (bo_slot _ _ _ _ _ H i r Hr) as [(_ & Hf & Hc & _)|(Hd & _ & Hf & _ & Hh)].
    - exfalso. apply He. unfold recyclable. by rewrite Hf, Hc.
    - split; [done|]. unfold in_use. destruct (held !! i) as [n|] eqn:Eh.
      + destruct Hh as (-> & _). apply elem_of_union_r, elem_of_map_img. eauto.
      + destruct Hh as (_ & Hc). apply elem_of_union_l. destruct (decide (b_blockno r ∈ dirty)); [done|].
        exfalso. apply He. unfold recyclable. by rewrite Hf, Hc. }
  assert (Hnd : NoDup ks).
  { apply NoDup_alt. intros i j n (ri & -> & Hi)%list_lookup_fmap_Some_1 (rj & Ej & Hj)%list_lookup_fmap_Some_1.
    eapply (bo_uniq _ _ _ _ _ H i j); [done|done|by eapply Hin|by eapply Hin|done]. }
  assert (Hsub : list_to_set ks ⊆ in_use dirty held).
  { intros n. rewrite elem_of_list_to_set. intros (r & -> & [i Hr]%list_elem_of_lookup)%list_elem_of_fmap.
    by eapply Hin. }
  apply subseteq_size in Hsub. rewrite size_list_to_set in Hsub by done.
  unfold ks in Hsub. rewrite length_fmap, (bo_len _ _ _ _ _ H) in Hsub. lia.
Qed.

(** No buffer caches block [n]. *)
Definition uncached (s : blocks) (n : Z) : Prop :=
  forall i r, bk_bufs s !! i = Some r -> b_dev r = ROOTDEV -> b_blockno r <> n.

Definition found (s : blocks) (held : gmap nat Z) (n : Z) (b : nat) (t : blocks) : Prop :=
  exists r, bk_bufs s !! b = Some r /\ held !! b = None /\
    ((b_dev r = ROOTDEV /\ b_blockno r = n /\ t = set_bufs (<[b := set_refcnt 1 r]> (bk_bufs s)) s) \/
     (uncached s n /\ recyclable r = true /\
      t = set_bufs (<[b := set_refcnt 1 (set_flags 0 (set_key ROOTDEV n r))]> (bk_bufs s)) s)).

Lemma bget_find_spec s V D dirty held n : bok s V D dirty held ->
  (forall i, held !! i <> Some n) -> n ∈ dirty \/ (size (in_use dirty held) < NBUF)%nat ->
  wp (bget_find ROOTDEV n) (found s.2 held n) s.2.
Proof.
  intros H Hnh Hroom. destruct (bo_ring _ _ _ _ _ H) as (o & [Hnd [Hhn Hn] [Hhp Hp] _ _ Hlt] & Hperm).
  pose proof (bo_len _ _ _ _ _ H) as Hlen.
  assert (Hall : forall i r, bk_bufs s.2 !! i = Some r -> i ∈ o).
  { intros i r Hr. rewrite Hperm, elem_of_seq. apply lookup_lt_Some in Hr. lia. }
  assert (Hol : length o = NBUF) by (by rewrite Hperm, length_seq).
  unfold bget_find, get_next at 1. wp_step. eapply wp_deref; [exact Hhn|]. wp_step.
  destruct (bscan_spec (bk_next s.2) get_next (cached ROOTDEV n) o s.2 NBUF) as (hit & Eh & Hh);
    [|done|done|done|lia|].
  { intros i v Hi. unfold get_next, deref. by rewrite Hi. }
  eapply wp_run; [exact Eh|]. destruct hit as [b|].
  - destruct Hh as (a & c & r & _ & Hr & Hc & _). wp_step. apply (wp_bwr _ _ r); [done|]. apply wp_ret.
    apply andb_true_iff in Hc as [Hd%Z.eqb_eq Hb%Z.eqb_eq].
    destruct (slot_root _ _ _ _ (bo_slot _ _ _ _ _ H b r Hr)) as (_ & _ & _ & _ & Hm); [by rewrite Hd|].
    destruct (held !! b) as [m|] eqn:Em.
    { destruct Hm as [-> _]. exfalso. apply (Hnh b). by rewrite Em, Hb. }
    exists r. split; [done|]. split; [done|]. left. destruct Hm as [_ ->]. done.
  - cbn in Hh.
    assert (Hunc : uncached s.2 n).
    { intros i r Hr Hd Hb. specialize (Hh i r (Hall _ _ Hr) Hr). unfold cached in Hh.
      by rewrite Hd, Hb, !Z.eqb_refl in Hh. }
    assert (Hsz : (size (in_use dirty held) < NBUF)%nat).
    { destruct Hroom as [Hdn|]; [|done]. destruct (bo_dirty _ _ _ _ _ H n Hdn) as (i & r & Hr & Hd & Hb).
      by destruct (Hunc i r Hr Hd). }
    wp_step. eapply wp_deref; [exact Hhp|]. wp_step.
    destruct (bscan_spec (bk_prev s.2) get_prev recyclable (reverse o) s.2 NBUF) as (free & Ef & Hf).
    { intros i v Hi. unfold get_prev, deref. by rewrite Hi. }
    { done. }
    { by apply Forall_reverse. }
    { done. }
    { rewrite length_reverse. lia. }
    eapply wp_run; [exact Ef|]. destruct free as [b|].
    + destruct Hf as (a & c & r & _ & Hr & Hc & _). wp_step. apply (wp_bwr _ _ r); [done|]. apply wp_ret.
      exists r. split; [done|]. split; [|by right]. destruct (held !! b) as [m|] eqn:Em; [|done].
      pose proof (bo_slot _ _ _ _ _ H b r Hr) as Hs. rewrite Em in Hs.
      apply slot_held in Hs as (_ & _ & _ & _ & _ & _ & Hrc). unfold recyclable in Hc.
      by rewrite Hrc in Hc.
    + exfalso. destruct (recyclable_exists _ _ _ _ _ H Hsz) as (i & r & Hr & Hc).
      cbn in Hf. rewrite (Hf i r) in Hc; [done| |done]. rewrite elem_of_reverse. by eapply Hall.
Qed.

Section calls.
Context (me : nat) (pid : Z).

(** The state when the buffer of [bget] is locked: the block was cached, or its
    buffer now waits to be filled. *)
Lemma found_cached s V D dirty held n b r sp w :
  bok s V D dirty held -> held !! b = None -> bk_bufs s.2 !! b = Some r ->
  b_dev r = ROOTDEV -> b_blockno r = n -> spins_ok sp ->
  bok (sp, set_wakes w (set_bufs (<[b := set_sleep 1 pid (set_refcnt 1 r)]> (bk_bufs s.2)) s.2))
    V D dirty (<[b := n]> held).
Proof.
  intros H Hb Hr Hd Hn Hsp. pose proof (bo_slot _ _ _ _ _ H b r Hr) as Hs.
  destruct H as [_ Hio Hring Hlen Hslot Huniq Hdirty Hheld Hclean Hdisk].
  assert (Hbl : (b < length (bk_bufs s.2))%nat) by (by apply lookup_lt_Some in Hr).
  assert (Hlk : forall i ri, <[b := set_sleep 1 pid (set_refcnt 1 r)]> (bk_bufs s.2) !! i = Some ri ->
    exists r0, bk_bufs s.2 !! i = Some r0 /\ b_dev ri = b_dev r0 /\ b_blockno ri = b_blockno r0 /\
      (i <> b -> ri = r0)).
  { intros i ri. rewrite list_lookup_insert_Some. intros [(-> & <- & _)|(? & ?)]; [by exists r|].
    exists ri. done. }
  split; cbn [fst snd bk_bufs set_bufs set_wakes bk_next bk_prev bk_dev].
  - done.
  - done.
  - done.
  - by rewrite length_insert.
  - intros i ri Hi. destruct (decide (i = b)) as [->|Hne].
    + rewrite list_lookup_insert_eq in Hi by done. injection Hi as <-. rewrite lookup_insert_eq. right.
      apply slot_root in Hs as (_ & ? & ? & ? & _); [|by rewrite Hd]. cbn. by rewrite Hn in *.
    + rewrite list_lookup_insert_ne in Hi by done. rewrite lookup_insert_ne by done. by apply Hslot.
  - intros i j ri rj (r0 & ? & -> & -> & _)%Hlk (r1 & ? & -> & -> & _)%Hlk. eauto.
  - intros m (i & r0 & Hi & ? & ?)%Hdirty. destruct (decide (i = b)) as [->|].
    + exists b, (set_sleep 1 pid (set_refcnt 1 r)). rewrite list_lookup_insert_eq by done.
      assert (r0 = r) as -> by congruence. done.
    + exists i, r0. by rewrite list_lookup_insert_ne.
  - intros i m. rewrite lookup_insert_Some. intros [(<- & _)|(_ & ?)]; [lia|eauto].
  - intros m Hm Hh. apply Hclean; [done|]. intros i Hi. apply (Hh i).
    rewrite lookup_insert_ne; [done|]. intros ->. congruence.
  - done.
Qed.

(** The buffer of an uncached block after it has been read. *)
Definition filled (V : image) (n : Z) (r : buf) : buf :=
  MkBuf B_VALID ROOTDEV n 1 pid 1 (V n).

Lemma found_recycled s V D dirty held n b r sp w d :
  bok s V D dirty held -> held !! b = None -> bk_bufs s.2 !! b = Some r ->
  uncached s.2 n -> recyclable r = true -> 0 <= n < FSSIZE -> (forall i, held !! i <> Some n) ->
  spins_ok sp -> dv_disk d = dv_disk (bk_dev s.2) -> drive_ready d ->
  bok (sp, set_wakes w (set_bdev d (set_bufs (<[b := filled V n r]> (bk_bufs s.2)) s.2)))
    V D dirty (<[b := n]> held).
Proof.
  intros H Hb Hr Hunc Hrec Hn Hnh Hsp Hdd Hrdy. pose proof (bo_slot _ _ _ _ _ H b r Hr) as Hs.
  destruct H as [_ Hio Hring Hlen Hslot Huniq Hdirty Hheld Hclean Hdisk].
  assert (Hbl : (b < length (bk_bufs s.2))%nat) by (by apply lookup_lt_Some in Hr).
  assert (Hnd : n ∉ dirty) by (intros (i & ri & Hi & Hdi & Hbi)%Hdirty; by eapply Hunc).
  split; cbn [fst snd bk_bufs set_bufs set_wakes bk_next bk_prev bk_dev set_bdev].
  - done.
  - destruct Hio as (?&?&?). by split_and!.
  - done.
  - by rewrite length_insert.
  - intros i ri Hi. destruct (decide (i = b)) as [->|Hne].
    + rewrite list_lookup_insert_eq in Hi by done. injection Hi as <-. rewrite lookup_insert_eq. right.
      cbn. rewrite decide_False by done. done.
    + rewrite list_lookup_insert_ne in Hi by done. rewrite lookup_insert_ne by done. by apply Hslot.
  - intros i j ri rj. rewrite !list_lookup_insert_Some.
    intros [(<- & <- & _)|(? & Hi)] [(<- & <- & _)|(? & Hj)] Hdi Hdj E; cbn in *; eauto.
    + by destruct (Hunc j rj).
    + by destruct (Hunc i ri).
  - intros m Hm. destruct (Hdirty m Hm) as (i & r0 & Hi & Hdi & Hbi). exists i, r0.
    rewrite list_lookup_insert_ne; [done|]. intros ->. assert (r0 = r) as -> by congruence.
    apply slot_root in Hs as (_ & _ & Hf & _); [|by rewrite Hdi]. rewrite decide_True in Hf by congruence.
    unfold recyclable in Hrec. rewrite Hf, andb_comm in Hrec. done.
  - intros i m. rewrite lookup_insert_Some. intros [(<- & _)|(_ & ?)]; [lia|eauto].
  - intros m Hm Hh. apply Hclean; [done|]. intros i Hi. apply (Hh i).
    rewrite lookup_insert_ne; [done|]. intros ->. congruence.
  - intros m. by rewrite Hdd.
Qed.

Lemma wp_acquiresleep b r s (Q : unit -> bstate -> Prop) : spins_ok s.1 -> (b < NBUF)%nat ->
  bk_bufs s.2 !! b = Some r -> b_locked r = 0 ->
  (forall sp, spins_ok sp -> Q tt (sp, set_bufs (<[b := set_sleep 1 pid r]> (bk_bufs s.2)) s.2)) ->
  wp (acquiresleep me pid b) Q s.
Proof.
  intros Hs Hb Hr Hl HQ. unfold acquiresleep. apply wp_under_guard; [done|done|].
  wp_step. apply (wp_brd _ _ r); [done|]. rewrite Hl. cbn. apply (wp_bwr _ _ r); [done|]. eauto.
Qed.

Lemma bread_spec s V D dirty held n : bok s V D dirty held -> 0 <= n < FSSIZE ->
  (forall i, held !! i <> Some n) -> n ∈ dirty \/ (size (in_use dirty held) < NBUF)%nat ->
  wp (bread me pid ROOTDEV n) (fun b s' => held !! b = None /\
    bok s' V D dirty (<[b := n]> held) /\ history s' = history s) s.
Proof.
  intros H Hn Hnh Hroom. destruct s as [sp t]. unfold bread, bget. wp_step. wp_step.
  apply wp_under_bcache; [apply H|]. eapply wp_mono; [exact (bget_find_spec _ _ _ _ _ _ H Hnh Hroom)|].
  cbn [fst snd]. intros b t1 (r & Hr & Hbh & Hcase) sp1 Hsp1.
  pose proof (bo_slot _ _ _ _ _ H b r Hr) as Hs. rewrite Hbh in Hs.
  pose proof (bo_len _ _ _ _ _ H) as Hlen. cbn [fst snd] in *.
  assert (Hbl : (b < length (bk_bufs t))%nat) by (by apply lookup_lt_Some in Hr).
  assert (Hlk : b_locked r = 0) by (destruct Hs as [(_&_&_&?&_)|(_&_&_&_&?&_)]; done).
  destruct Hcase as [(Hd & Hb & ->)|(Hunc & Hrec & ->)].
  - wp_step. eapply wp_acquiresleep; [done|lia|cbn; by apply list_lookup_insert_eq|done|].
    intros sp2 Hsp2. wp_steps. cbn [snd bk_bufs set_bufs]. rewrite list_insert_insert_eq.
    apply wp_on_blocks. eapply wp_brd; [cbn; by apply list_lookup_insert_eq|].
    apply slot_root in Hs as (_ & _ & Hf & _); [|by rewrite Hd].
    assert (Hv : Z.land (b_flags (set_sleep 1 pid (set_refcnt 1 r))) B_VALID =? 0 = false)
      by (cbn; rewrite Hf; by destruct (decide _)).
    rewrite Hv. wp_steps. split; [done|]. split; [|done].
    apply (found_cached (sp, t) V D dirty held n b r sp2 (bk_wakes t)); done.
  - set (r1 := set_refcnt 1 (set_flags 0 (set_key ROOTDEV n r))).
    wp_step. eapply (wp_acquiresleep _ r1); [done|lia|cbn; by apply list_lookup_insert_eq|done|].
    intros sp2 Hsp2. wp_steps. cbn [snd bk_bufs set_bufs]. rewrite list_insert_insert_eq.
    apply wp_on_blocks. eapply wp_brd; [cbn; by apply list_lookup_insert_eq|]. cbn [b_flags set_sleep r1 set_refcnt set_flags].
    cbn [Z.land Z.eqb]. wp_step.
    eapply (iderw_spec _ _ b (set_sleep 1 pid r1)); cbn [fst snd bk_bufs set_bufs]; [done|apply H|by rewrite length_insert|by apply list_lookup_insert_eq|done|done|done|by left|].
    intros sp3 d w Hsp3 (Hsel & Hst & Hdd & Hhh). apply wp_ret. split; [done|].
    cbn [bk_bufs set_bufs bk_dev]. rewrite list_insert_insert_eq. split; [|exact Hhh].
    assert (Hfill : synced (bk_dev t) (set_sleep 1 pid r1) = filled V n r).
    { assert (HV : V n = D n).
      { apply (bo_clean _ _ _ _ _ H); [|done].
        intros (i & ri & Hi & Hdi & Hbi)%(bo_dirty _ _ _ _ _ H). by eapply Hunc. }
      unfold filled. rewrite HV, <-(bo_disk _ _ _ _ _ H). reflexivity. }
    cbn [bk_dev set_bufs] in *. rewrite Hfill.
    apply (found_recycled (sp, t)); try done. unfold drive_ready. rewrite Hst. apply H.
Qed.

(** * Holding a buffer *)

(** A held buffer changes; the other blocks keep their contents and state. *)
Lemma bok_put s V D dirty held b n r' V' D' dirty' sp d w :
  bok s V D dirty held -> held !! b = Some n -> slot_ok V' dirty' (Some n) r' ->
  (forall m, m <> n -> V' m = V m /\ D' m = D m /\ (m ∈ dirty' <-> m ∈ dirty)) ->
  (forall m, dv_disk d ROOTDEV m = D' m) -> drive_ready d -> spins_ok sp ->
  bok (sp, set_wakes w (set_bdev d (set_bufs (<[b := r']> (bk_bufs s.2)) s.2))) V' D' dirty' held.
Proof.
  intros H Hb Hs' Hframe Hdd Hrdy Hsp. destruct (bok_held _ _ _ _ _ _ _ H Hb) as (r & Hr & Hs).
  apply slot_held in Hs as (Hd & Hrng & Hn & _). apply slot_held in Hs' as Hs2.
  destruct Hs2 as (Hd' & _ & Hn' & _).
  destruct H as [_ Hio Hring Hlen Hslot Huniq Hdirty Hheld Hclean Hdisk].
  assert (Hbl : (b < length (bk_bufs s.2))%nat) by (by apply lookup_lt_Some in Hr).
  assert (Hother : forall i ri, i <> b -> bk_bufs s.2 !! i = Some ri -> b_dev ri = ROOTDEV -> b_blockno ri <> n).
  { intros i ri Hne Hi Hdi E. apply Hne. eapply Huniq; [done|done|done|done|congruence]. }
  split; cbn [fst snd bk_bufs set_bufs set_wakes bk_next bk_prev bk_dev set_bdev]; [done| |done|by rewrite length_insert|..].
  - destruct Hio as (?&?&?). by split_and!.
  - intros i ri Hi. destruct (decide (i = b)) as [->|Hne].
    + rewrite list_lookup_insert_eq in Hi by done. injection Hi as <-. by rewrite Hb.
    + rewrite list_lookup_insert_ne in Hi by done. destruct (Hslot i ri Hi) as [?|(Hdi & ? & Hf & Hv & ?)]; [by left|right].
      destruct (Hframe (b_blockno ri) (Hother i ri Hne Hi Hdi)) as (Ev & _ & Ed).
      rewrite Ev. split_and!; try tauto. rewrite Hf. by destruct (decide (_ ∈ dirty)), (decide (_ ∈ dirty')); try tauto.
  - intros i j ri rj. rewrite !list_lookup_insert_Some.
    intros [(<- & <- & _)|(? & Hi)] [(<- & <- & _)|(? & Hj)] Hdi Hdj E; cbn in *; eauto.
    + destruct (Hother j rj); [done|done|done|congruence].
    + destruct (Hother i ri); [done|done|done|congruence].
  - intros m Hm. destruct (decide (m = n)) as [->|Hne].
    + exists b, r'. by rewrite list_lookup_insert_eq.
    + apply (Hframe m Hne), Hdirty in Hm as (i & ri & Hi & ? & ?). exists i, ri.
      rewrite list_lookup_insert_ne; [done|]. intros ->. congruence.
  - done.
  - intros m Hm Hh. assert (m <> n) as Hne by (intros ->; by apply (Hh b)).
    destruct (Hframe m Hne) as (-> & -> & Ed). apply Hclean; [tauto|done].
  - done.
Qed.

(** [b->data[...] = ...] *)
Definition bset (b : nat) (d : list Z) : M bstate unit := on_blocks (bwr (set_bdata d) b).
(** [b->data] *)
Definition bget_data (b : nat) : M bstate (list Z) := on_blocks (brd b_data b).
Lemma bget_data_spec s V D dirty held b n (Q : list Z -> bstate -> Prop) :
  bok s V D dirty held -> held !! b = Some n -> Q (V n) s -> wp (bget_data b) Q s.
Proof.
  intros H Hb HQ. destruct (bok_held _ _ _ _ _ _ _ H Hb) as (r & Hr & Hs). apply wp_on_blocks.
  apply (wp_brd _ _ r); [done|]. apply slot_held in Hs as (_ & _ & _ & _ & -> & _). by destruct s.
Qed.

Lemma bset_spec s V D dirty held b n d : bok s V D dirty held -> held !! b = Some n ->
  wp (bset b d) (fun _ s' => bok s' (upd V n d) D dirty held /\ history s' = history s) s.
Proof.
  intros H Hb. destruct (bok_held _ _ _ _ _ _ _ H Hb) as (r & Hr & Hs). apply wp_on_blocks.
  apply (wp_bwr _ _ r); [done|]. split; [|done].
  eapply (bok_put _ _ _ _ _ b n _ _ _ _ s.1 (bk_dev s.2) (bk_wakes s.2) H Hb); try apply H.
  - apply slot_held in Hs as (? & ? & Hn & ? & ? & ? & ?). right. cbn. rewrite Hn, upd_eq. rewrite Hn in *. done.
  - intros m Hm. by rewrite upd_ne.
Qed.

Lemma bok_pin s V D dirty held b n r sp : bok s V D dirty held -> held !! b = Some n ->
  bk_bufs s.2 !! b = Some r -> spins_ok sp ->
  bok (sp, set_bufs (<[b := set_flags (Z.lor (b_flags r) B_DIRTY) r]> (bk_bufs s.2)) s.2) V D ({[n]} ∪ dirty) held.
Proof.
  intros H Hb Hr Hsp. pose proof (bo_slot _ _ _ _ _ H b r Hr) as Hs. rewrite Hb in Hs.
  eapply (bok_put _ _ _ _ _ b n _ _ _ _ sp (bk_dev s.2) (bk_wakes s.2) H Hb); try apply H; [|..|done].
  - apply slot_held in Hs as (? & ? & Hn & Hf & ? & ? & ?). right. cbn. rewrite Hn in *.
    split; [done|]. split; [done|]. split; [|done]. rewrite Hf, (decide_True (P := n ∈ {[n]} ∪ dirty)) by set_solver.
    by destruct (decide (n ∈ dirty)).
  - intros m Hm. set_solver.
Qed.

Lemma bwrite_spec s V D dirty held b n : bok s V D dirty held -> held !! b = Some n ->
  wp (bwrite me b) (fun _ s' => bok s' V (upd D n (V n)) (dirty ∖ {[n]}) held /\
    history s' = history s ++ [(ROOTDEV, n, V n)]) s.
Proof.
  intros H Hb. destruct (bok_held _ _ _ _ _ _ _ H Hb) as (r & Hr & Hs).
  pose proof (bo_len _ _ _ _ _ H) as Hlen.
  assert (Hbl : (b < NBUF)%nat) by (by eapply bo_held).
  apply slot_held in Hs as (Hd & Hrng & Hn & Hf & Hv & Hl & Hc). unfold bwrite. wp_step.
  apply (wp_holdingsleep _ _ r); [apply H|done|done|]. intros sp1 Hsp1. rewrite Hl. cbn [Z.eqb negb]. wp_step.
  apply wp_panic_if; [done|]. wp_step. apply wp_on_blocks. cbn [fst snd]. apply (wp_bwr _ _ r); [done|].
  set (r1 := set_flags _ r). assert (Hf1 : b_flags r1 = Z.lor B_VALID B_DIRTY)
    by (unfold r1; cbn; rewrite Hf; by destruct (decide (n ∈ dirty))).
  eapply (iderw_spec _ _ b r1); cbn [fst snd bk_bufs set_bufs]; [done|apply H|by rewrite length_insert|apply list_lookup_insert_eq; lia
    |unfold r1; cbn; by rewrite Hl|done|done|rewrite Hf1; right; by right|].
  intros sp2 d w Hsp2 Hst. unfold started in Hst. rewrite Hf1 in Hst. destruct Hst as (_ & Hstat & Hdd & Hhh).
  cbn [b_blockno b_data r1 set_flags bk_dev set_bufs] in *. rewrite Hn, Hv in *.
  rewrite list_insert_insert_eq. split; [|exact Hhh].
  apply (bok_put _ _ _ _ _ b n _ _ _ _ sp2 d w H Hb); [..|done].
  - assert (Hsy : synced (bk_dev s.2) r1 = set_flags B_VALID r) by (unfold synced; rewrite Hf1; done).
    rewrite Hsy. right. cbn. rewrite Hn, decide_False by set_solver. done.
  - intros m Hm. rewrite upd_ne by done. set_solver.
  - intros m. rewrite Hdd. unfold upd2, upd. rewrite Z.eqb_refl. cbn.
    destruct (Z.eqb_spec m n), (decide (m = n)); try done. apply H.
  - unfold drive_ready. rewrite Hstat. apply H.
Qed.

(** The buffer is let go: its block is pinned, or its contents are on disk. *)
Lemma bok_drop s V D dirty held b n r sp nx pv w :
  bok s V D dirty held -> held !! b = Some n -> bk_bufs s.2 !! b = Some r ->
  n ∈ dirty \/ V n = D n -> spins_ok sp ->
  (exists o, ring nx pv o /\ o ≡ₚ seq 0 NBUF) ->
  bok (sp, set_wakes w (set_prev pv (set_next nx
    (set_bufs (<[b := set_refcnt 0 (set_sleep 0 0 r)]> (bk_bufs s.2)) s.2)))) V D dirty (delete b held).
Proof.
  intros H Hb Hr Hok Hsp Hrg. pose proof (bo_slot _ _ _ _ _ H b r Hr) as Hs. rewrite Hb in Hs.
  apply slot_held in Hs as (Hd & Hrng & Hn & Hf & Hv & _ & _).
  destruct H as [_ Hio Hring Hlen Hslot Huniq Hdirty Hheld Hclean Hdisk].
  assert (Hbl : (b < length (bk_bufs s.2))%nat) by (by apply lookup_lt_Some in Hr).
  set (r' := set_refcnt 0 (set_sleep 0 0 r)).
  assert (Hlk : forall i ri, <[b := r']> (bk_bufs s.2) !! i = Some ri ->
    exists r0, bk_bufs s.2 !! i = Some r0 /\ b_dev ri = b_dev r0 /\ b_blockno ri = b_blockno r0).
  { intros i ri. rewrite list_lookup_insert_Some. intros [(-> & <- & _)|(? & ?)]; [by exists r|by exists ri]. }
  split; cbn [fst snd bk_bufs set_bufs set_wakes bk_next bk_prev bk_dev set_next set_prev]; [done|done|done|by rewrite length_insert|..].
  - intros i ri Hi. destruct (decide (i = b)) as [->|Hne].
    + rewrite list_lookup_insert_eq in Hi by done. injection Hi as <-. rewrite lookup_delete_eq. right.
      cbn. rewrite Hn in *. done.
    + rewrite list_lookup_insert_ne in Hi by done. rewrite lookup_delete_ne by done. by apply Hslot.
  - intros i j ri rj (r0 & ? & -> & ->)%Hlk (r1 & ? & -> & ->)%Hlk. eauto.
  - intros m (i & r0 & Hi & ? & ?)%Hdirty. destruct (decide (i = b)) as [->|].
    + exists b, r'. rewrite list_lookup_insert_eq by done. assert (r0 = r) as -> by congruence. done.
    + exists i, r0. by rewrite list_lookup_insert_ne.
  - intros i m [_ ?]%lookup_delete_Some. eauto.
  - intros m Hm Hh. destruct (decide (m = n)) as [->|Hne]; [by destruct Hok|].
    apply Hclean; [done|]. intros i Hi. apply (Hh i). rewrite lookup_delete_ne; [done|]. congruence.
  - done.
Qed.

(** The list after a move to its front. *)
Lemma to_front s o b (Q : unit -> blocks -> Prop) :
  ring (bk_next s) (bk_prev s) o -> o ≡ₚ seq 0 NBUF -> (b < NBUF)%nat ->
  (forall nx pv, (exists o', ring nx pv o' /\ o' ≡ₚ seq 0 NBUF) -> Q tt (set_prev pv (set_next nx s))) ->
  wp (unlink b;; push_front b) Q s.
Proof.
  intros Hr Hp Hb HQ. assert (Hin : b ∈ o) by (rewrite Hp, elem_of_seq; lia).
  apply list_elem_of_split in Hin as (l1 & l2 & ->).
  pose proof (rg_nodup _ _ _ Hr) as Hnd. apply NoDup_cons in Hnd as [_ Hnd].
  wp_step. eapply (unlink_spec s l1 b l2); [done|]. intros s1 Hr1 E1.
  rewrite <-Permutation_middle in Hnd, Hp. apply NoDup_cons in Hnd as [Hnb _].
  eapply (push_front_spec s1 (l1 ++ l2) b); [done|done|done|]. intros s2 Hr2 E2.
  rewrite E2, E1. apply (HQ (bk_next s2) (bk_prev s2)). eauto.
Qed.

Lemma brelse_spec s V D dirty held b n : bok s V D dirty held -> held !! b = Some n ->
  n ∈ dirty \/ V n = D n ->
  wp (brelse me b) (fun _ s' => bok s' V D dirty (delete b held) /\ history s' = history s) s.
Proof.
  intros H Hb Hok. destruct (bok_held _ _ _ _ _ _ _ H Hb) as (r & Hr & Hs).
  apply slot_held in Hs as (_ & _ & _ & _ & _ & Hl & Hc).
  assert (Hbl : (b < NBUF)%nat) by (by eapply bo_held). pose proof (bo_len _ _ _ _ _ H) as Hlen.
  destruct s as [sp t]. cbn [fst snd] in *. unfold brelse. wp_step.
  apply (wp_holdingsleep _ _ r); [apply H|done|done|]. intros sp1 Hsp1. rewrite Hl. cbn [Z.eqb negb]. wp_step.
  apply wp_panic_if; [done|]. wp_step. unfold releasesleep. apply wp_under_guard; [done|done|].
  cbn [fst snd]. wp_step. apply (wp_bwr _ _ r); [done|]. apply wp_modify. intros sp2 Hsp2.
  apply wp_under_bcache; [done|]. cbn [fst snd]. unfold brelse_list. wp_step.
  eapply wp_bwr; [cbn; apply list_lookup_insert_eq; lia|]. wp_step.
  eapply wp_brd; [cbn; apply list_lookup_insert_eq; rewrite length_insert; lia|].
  cbn [b_refcnt set_refcnt set_sleep bk_bufs set_wakes set_bufs]. rewrite Hc, list_insert_insert_eq.
  change (u32 (1 - 1)) with 0. cbn [Z.eqb].
  destruct (bo_ring _ _ _ _ _ H) as (o & Hrg & Hp).
  eapply (to_front _ o b); [done|done|done|]. intros nx pv Hrg' sp3 Hsp3.
  split; [|done]. exact (bok_drop (sp, t) V D dirty held b n r sp3 nx pv _ H Hb Hr Hok Hsp3 Hrg').
Qed.
End calls.

(** * Boot *)

(** The static storage of the cache, with a disk image. *)
Definition bcache_start (sp : spins) (d : device) : bstate :=
  (sp, MkBlocks (replicate NBUF zero_buf) (replicate (S NBUF) 0%nat) (replicate (S NBUF) 0%nat) [] 1 d []).

(** [binit] links the buffers in reverse order. *)
Lemma binit_run zb h d :
  binit (MkBlocks (replicate NBUF zb) (replicate (S NBUF) 0%nat) (replicate (S NBUF) 0%nat) [] h d []) =
  Ok (tt, MkBlocks (replicate NBUF (set_sleep 0 0 zb)) (HEAD :: seq 0 NBUF) (seq 1 NBUF ++ [0%nat]) [] h d []).
Proof. vm_compute. reflexivity. Qed.

(** After [binit] nothing is cached and every block reads as on disk. *)
Lemma binit_spec sp d : spins_ok sp -> drive_ready d ->
  wp (on_blocks binit) (fun _ s' => bok s' (dv_disk d ROOTDEV) (dv_disk d ROOTDEV) ∅ ∅ /\ history s' = dv_hist d)
    (bcache_start sp d).
Proof.
  intros Hsp Hd. apply wp_on_blocks. eapply wp_run; [apply binit_run|]. split; [|done].
  assert (Hz : forall i r, replicate NBUF (set_sleep 0 0 zero_buf) !! i = Some r -> r = zero_buf)
    by (by intros i r [-> _]%lookup_replicate).
  split; cbn [fst snd bk_bufs bk_next bk_prev bk_queue bk_havedisk1 bk_dev]; [done|done| |done|..].
  - exists (reverse (seq 0 NBUF)). split; [|apply reverse_Permutation].
    split; [apply (bool_decide_unpack _); vm_compute; done|..|done|done|].
    + vm_compute. repeat split; reflexivity.
    + vm_compute. repeat split; reflexivity.
    + apply Forall_forall. intros x. rewrite elem_of_reverse, elem_of_seq. lia.
  - intros i r ->%Hz. by left.
  - by intros i j ri rj ->%Hz.
  - set_solver.
  - intros i n Hi. by rewrite lookup_empty in Hi.
  - done.
  - done.
Qed.
