(* ===== verification/Bytes.v ===== *)
(** Structures stored in byte arrays: slices, splices and little-endian fields. *)

From stdpp Require Import base tactics numbers option list.
From Stdlib Require Import ZArith Lia.
From S2P Require Import Prelude.

(** [n] bytes from offset [off], and [bs] written at [off]. *)
Definition slice {A} (off n : nat) (d : list A) : list A := take n (drop off d).
Definition splice {A} (off : nat) (bs d : list A) : list A :=
  take off d ++ bs ++ drop (off + length bs) d.

(** The [n] low bytes of [z], least significant first, and back. *)
Fixpoint le_bytes (n : nat) (z : Z) : list Z :=
  match n with O => [] | S n => u8 z :: le_bytes n (z / 256) end.
Fixpoint le_value (bs : list Z) : Z :=
  match bs with [] => 0 | b :: bs => b + 256 * le_value bs end.

(** Fields of a structure: [uint], [int], [ushort] and [short] at an offset. *)
Definition ld32 (off : nat) (d : list Z) : Z := le_value (slice off 4 d).
Definition st32 (off : nat) (v : Z) (d : list Z) : list Z := splice off (le_bytes 4 v) d.
Definition ld16 (off : nat) (d : list Z) : Z := le_value (slice off 2 d).
Definition st16 (off : nat) (v : Z) (d : list Z) : list Z := splice off (le_bytes 2 v) d.

(** * Slices *)

Section slices.
Context {A : Type}.
Implicit Types d bs : list A.

Lemma splice_length off bs d : (off + length bs <= length d)%nat -> length (splice off bs d) = length d.
Proof. intros. unfold splice. rewrite !length_app, length_take, length_drop. lia. Qed.
Lemma slice_length off n d : (off + n <= length d)%nat -> length (slice off n d) = n.
Proof. intros. unfold slice. rewrite length_take, length_drop. lia. Qed.

Lemma slice_splice_same off bs d : (off <= length d)%nat -> slice off (length bs) (splice off bs d) = bs.
Proof.
  intros. unfold slice, splice. rewrite drop_app_length' by (rewrite length_take; lia).
  by rewrite take_app_length.
Qed.

Lemma lookup_splice off bs d i : (off + length bs <= length d)%nat ->
  splice off bs d !! i = if decide (off <= i < off + length bs)%nat then bs !! (i - off)%nat else d !! i.
Proof.
  intros Hl. unfold splice. case_decide.
  - rewrite lookup_app_r by (rewrite length_take; lia). rewrite length_take, Nat.min_l by lia.
    rewrite lookup_app_l by lia. done.
  - destruct (decide (i < off)%nat).
    + rewrite lookup_app_l by (rewrite length_take; lia). by rewrite lookup_take_lt.
    + rewrite lookup_app_r by (rewrite length_take; lia). rewrite length_take, Nat.min_l by lia.
      rewrite lookup_app_r by lia. rewrite lookup_drop. f_equal. lia.
Qed.
Lemma lookup_slice off n d i : slice off n d !! i = if decide (i < n)%nat then d !! (off + i)%nat else None.
Proof.
  unfold slice. case_decide.
  - by rewrite lookup_take_lt, lookup_drop.
  - apply lookup_take_ge. lia.
Qed.

Lemma slice_splice_other off bs d off' n : (off + length bs <= length d)%nat ->
  (off' + n <= off)%nat \/ (off + length bs <= off')%nat ->
  slice off' n (splice off bs d) = slice off' n d.
Proof.
  intros Hl Hd. apply list_eq. intros i. rewrite !lookup_slice. case_decide; [|done].
  rewrite lookup_splice by done. rewrite decide_False by lia. done.
Qed.

Lemma splice_slice_id off n d : (off + n <= length d)%nat -> splice off (slice off n d) d = d.
Proof.
  intros. apply list_eq. intros i. rewrite lookup_splice by (rewrite slice_length; lia).
  rewrite slice_length by lia. case_decide; [|done]. rewrite lookup_slice, decide_True by lia.
  f_equal. lia.
Qed.
End slices.

(** * Little-endian numbers *)

Lemma le_bytes_length n z : length (le_bytes n z) = n.
Proof. revert z. induction n as [|n IH]; intros z; cbn; [done|]. by rewrite IH. Qed.

Lemma le_value_bytes n z : le_value (le_bytes n z) = z mod 256 ^ Z.of_nat n.
Proof.
  revert z. induction n as [|n IH]; intros z; cbn [le_bytes le_value].
  - by rewrite Z.mod_1_r.
  - rewrite IH, Nat2Z.inj_succ, Z.pow_succ_r by lia. rewrite Z.rem_mul_r by lia. done.
Qed.

Definition byte_list (d : list Z) : Prop := Forall (fun b => 0 <= b < 256) d.

Lemma le_bytes_byte n z : byte_list (le_bytes n z).
Proof. revert z. induction n as [|n IH]; intros z; cbn; constructor; [apply u8_range|apply IH]. Qed.

Lemma le_value_range bs : byte_list bs -> 0 <= le_value bs < 256 ^ Z.of_nat (length bs).
Proof.
  induction 1 as [|b bs Hb Hbs IH]; cbn [le_value length]; [done|].
  rewrite Nat2Z.inj_succ, Z.pow_succ_r by lia. lia.
Qed.

Lemma le_bytes_value bs : byte_list bs -> le_bytes (length bs) (le_value bs) = bs.
Proof.
  induction 1 as [|b bs Hb Hbs IH]; cbn [le_value length le_bytes]; [done|]. f_equal.
  - unfold u8. rewrite Z.mul_comm. change (2 ^ 8) with 256. rewrite Z_mod_plus_full. by apply Z.mod_small.
  - assert ((b + 256 * le_value bs) / 256 = le_value bs) as ->; [|exact IH].
    rewrite Z.mul_comm, Z.div_add, Z.div_small by lia. lia.
Qed.

Lemma byte_list_splice off bs d : byte_list bs -> byte_list d -> byte_list (splice off bs d).
Proof. intros. unfold splice. repeat apply Forall_app_2; auto using Forall_take, Forall_drop. Qed.
Lemma byte_list_slice off n d : byte_list d -> byte_list (slice off n d).
Proof. intros. by apply Forall_take, Forall_drop. Qed.

(** * Fields *)

Lemma ld32_st32 off v d : (off + 4 <= length d)%nat -> ld32 off (st32 off v d) = u32 v.
Proof.
  intros. unfold ld32, st32. change 4%nat with (length (le_bytes 4 v)) at 1.
  rewrite slice_splice_same by lia. by rewrite le_value_bytes.
Qed.
Lemma ld32_st32_other off v d off' : (off + 4 <= length d)%nat -> (off' + 4 <= off \/ off + 4 <= off')%nat ->
  ld32 off' (st32 off v d) = ld32 off' d.
Proof. intros. unfold ld32, st32. by rewrite slice_splice_other by (rewrite le_bytes_length; lia). Qed.
Lemma ld16_st16 off v d : (off + 2 <= length d)%nat -> ld16 off (st16 off v d) = u16 v.
Proof.
  intros. unfold ld16, st16. change 2%nat with (length (le_bytes 2 v)) at 1.
  rewrite slice_splice_same by lia. by rewrite le_value_bytes.
Qed.
Lemma st32_length off v d : (off + 4 <= length d)%nat -> length (st32 off v d) = length d.
Proof. intros. apply splice_length. by rewrite le_bytes_length. Qed.
Lemma st16_length off v d : (off + 2 <= length d)%nat -> length (st16 off v d) = length d.
Proof. intros. apply splice_length. by rewrite le_bytes_length. Qed.
Lemma ld32_range off d : byte_list d -> 0 <= ld32 off d < 2 ^ 32.
Proof.
  intros Hd. unfold ld32. pose proof (le_value_range _ (byte_list_slice off 4 d Hd)) as H.
  assert (256 ^ Z.of_nat (length (slice off 4 d)) <= 2 ^ 32); [|lia].
  change (2 ^ 32) with (256 ^ 4). apply Z.pow_le_mono_r; [lia|].
  unfold slice. rewrite length_take. lia.
Qed.
