(* ===== verification/Mp.v ===== *)
(** Finding the processors: mp.c and mp.h.

    The firmware leaves a floating pointer structure in low memory that leads to a table with one
    entry per processor.  [load a] is the byte the kernel reads at its address [a], [None] where
    nothing is mapped; [inb23] is what the interrupt mode register reads. *)

From stdpp Require Import base tactics numbers option list strings sets.
From Stdlib Require Import ZArith Lia.
From S2P Require Import Prelude ProcDefs Spinlock Bytes Memory.

(** [sizeof] of [struct mp], [mpconf], [mpproc] and [mpioapic]. *)
Definition mp_size : Z := 16.
Definition mpconf_size : Z := 44.
Definition mpproc_size : Z := 20.
Definition mpioapic_size : Z := 8.

Definition MPPROC : Z := 0.
Definition MPBUS : Z := 1.
Definition MPIOAPIC : Z := 2.
Definition MPIOINTR : Z := 3.
Definition MPLINTR : Z := 4.

(** ["_MP_"] and ["PCMP"] *)
Definition mp_signature : list Z := [95; 77; 80; 95].
Definition mpconf_signature : list Z := [80; 67; 77; 80].

(** The globals that [mpinit] sets, and the ports it writes. *)
Record mpstate := MkMp {
  ncpu : nat;
  mp_cpus : list cpu;
  ioapicid : Z;
  lapic : Z;
  mp_out : list (Z * Z)
}.
Definition set_lapic (v : Z) (s : mpstate) : mpstate := MkMp (ncpu s) (mp_cpus s) (ioapicid s) v (mp_out s).
Definition set_ioapicid (v : Z) (s : mpstate) : mpstate := MkMp (ncpu s) (mp_cpus s) v (lapic s) (mp_out s).
Definition mp_outb (port v : Z) (s : mpstate) : mpstate :=
  MkMp (ncpu s) (mp_cpus s) (ioapicid s) (lapic s) (mp_out s ++ [(port, u8 v)]).
Definition set_apicid (v : Z) (k : cpu) : cpu :=
  MkCpu v (c_ncli k) (c_intena k) (c_if k) (c_proc k) (c_esp0 k) (c_cr3 k).
(** [if(ncpu < NCPU) { cpus[ncpu].apicid = ...; ncpu++; }] *)
Definition add_cpu (apicid : Z) (s : mpstate) : option mpstate :=
  if bool_decide (ncpu s < NCPU)%nat then
    k ← mp_cpus s !! ncpu s;
    Some (MkMp (S (ncpu s)) (<[ncpu s := set_apicid apicid k]> (mp_cpus s)) (ioapicid s) (lapic s) (mp_out s))
  else Some s.

Lemma bind_ok {S A B} (m : M S A) (f : A -> M S B) s a s' : m s = Ok (a, s') -> (m ≫= f) s = f a s'.
Proof. unfold mbind, M_bind. by intros ->. Qed.

Section mp.
Context (load : Z -> option Z) (inb23 : Z).

Definition byte (a : Z) : M mpstate Z := deref (fun _ => load a).
(** A little-endian field of [n] bytes. *)
Fixpoint field (n : nat) (a : Z) : M mpstate Z :=
  match n with
  | O => mret 0
  | S n => b ← byte a; r ← field n (u32 (a + 1)); mret (b + 256 * r)
  end.

(** [sum(addr, len)] from a partial sum on. *)
Fixpoint sum_from (a : Z) (len : nat) (acc : Z) : M mpstate Z :=
  match len with
  | O => mret (u8 acc)
  | S len => b ← byte a; sum_from (u32 (a + 1)) len (acc + b)
  end.
Definition sum (a : Z) (len : nat) : M mpstate Z := sum_from a len 0.

(** [memcmp(a, sig, n) == 0] *)
Fixpoint signed (a : Z) (sig : list Z) : M mpstate bool :=
  match sig with
  | [] => mret true
  | c :: sig => b ← byte a; if b =? c then signed (u32 (a + 1)) sig else mret false
  end.

(** Addresses of structures are kernel addresses. *)
Fixpoint mpsearch1_from (fuel : nat) (p e : Z) : M mpstate (option Z) :=
  match fuel with
  | O => fail EFuel
  | S fuel =>
      if e <=? p then mret None else
      h ← signed p mp_signature;
      z ← (if h : bool then sum p (Z.to_nat mp_size) else mret 1);
      if h && (z =? 0) then mret (Some p) else mpsearch1_from fuel (u32 (p + mp_size)) e
  end.
Definition mpsearch1 (a len : Z) : M mpstate (option Z) :=
  let addr := P2V a in mpsearch1_from (S (Z.to_nat (len / mp_size))) addr (u32 (addr + len)).

(** [(bda[i + 1] << 8) | bda[i]] *)
Definition bda_word (i : Z) : M mpstate Z :=
  let bda := P2V 0x400 in
  hi ← byte (bda + (i + 1)); lo ← byte (bda + i); mret (Z.lor (Z.shiftl hi 8) lo).
Definition mpsearch : M mpstate (option Z) :=
  x ← bda_word 0x0E;
  let p := Z.shiftl x 4 in
  mp ← (if negb (p =? 0) then mpsearch1 p 1024
        else y ← bda_word 0x13; mpsearch1 (u32 (y * 1024 - 1024)) 1024);
  match mp with
  | Some mp => mret (Some mp)
  | None => mpsearch1 0xF0000 0x10000
  end.

(** The floating pointer structure and the table it leads to. *)
Definition mpconfig : M mpstate (option (Z * Z)) :=
  mp ← mpsearch;
  match mp with
  | None => mret None
  | Some mp =>
      physaddr ← field 4 (u32 (mp + 4));
      if physaddr =? 0 then mret None else
      let conf := P2V physaddr in
      h ← signed conf mpconf_signature;
      if negb h then mret None else
      version ← byte (u32 (conf + 6));
      if negb (version =? 1) && negb (version =? 4) then mret None else
      length ← field 2 (u32 (conf + 4));
      z ← sum conf (Z.to_nat length);
      if negb (z =? 0) then mret None else mret (Some (mp, conf))
  end.

(** The entries from [p] to [e]; the result is [ismp].  In the [default] case [break] leaves the
    [switch] and not the loop, and [p] stays where it is. *)
Fixpoint mpinit_entries (fuel : nat) (p e : Z) (ismp : bool) : M mpstate bool :=
  match fuel with
  | O => fail EFuel
  | S fuel =>
      if e <=? p then mret ismp else
      ty ← byte p;
      if ty =? MPPROC then
        apicid ← byte (u32 (p + 1));
        store (add_cpu apicid);;
        mpinit_entries fuel (u32 (p + mpproc_size)) e ismp
      else if ty =? MPIOAPIC then
        apicno ← byte (u32 (p + 1));
        modify (set_ioapicid apicno);;
        mpinit_entries fuel (u32 (p + mpioapic_size)) e ismp
      else if (ty =? MPBUS) || (ty =? MPIOINTR) || (ty =? MPLINTR) then
        mpinit_entries fuel (u32 (p + 8)) e ismp
      else mpinit_entries fuel p e false
  end.

Definition mpinit (fuel : nat) : M mpstate unit :=
  c ← mpconfig;
  match c with
  | None => fail (EPanic "Expect to run on an SMP")
  | Some (mp, conf) =>
      lapicaddr ← field 4 (u32 (conf + 36));
      modify (set_lapic lapicaddr);;
      length ← field 2 (u32 (conf + 4));
      ismp ← mpinit_entries fuel (u32 (conf + mpconf_size)) (u32 (conf + length)) true;
      panic_if (negb ismp) "Didn't find a suitable machine";;
      imcrp ← byte (u32 (mp + 12));
      if negb (imcrp =? 0) then modify (mp_outb 0x22 0x70);; modify (mp_outb 0x23 (Z.lor inb23 1)) else mret tt
  end.

(** * What the reads give *)

(** The kernel reads [bs] from address [a] on. *)
Definition holds (a : Z) (bs : list Z) : Prop :=
  0 <= a /\ a + Z.of_nat (length bs) < 2 ^ 32 /\ forall (i : nat) b, bs !! i = Some b -> load (a + Z.of_nat i) = Some b.

Lemma holds_app a bs bs' : holds a (bs ++ bs') -> holds a bs /\ holds (a + Z.of_nat (length bs)) bs'.
Proof.
  intros (Ha & Hl & H). rewrite length_app in Hl. split; (split; [lia|]; split; [lia|]); intros i b Hb.
  - apply H. by apply lookup_app_l_Some.
  - rewrite <-Z.add_assoc, <-Nat2Z.inj_add. apply H. rewrite lookup_app_r by lia. by replace (_ + i - _)%nat with i by lia.
Qed.
Lemma holds_cons a b bs : holds a (b :: bs) -> load a = Some b /\ u32 (a + 1) = a + 1 /\ holds (a + 1) bs.
Proof.
  intros H. pose proof H as (Ha & Hl & Hb). cbn in Hl. destruct (holds_app a [b] bs H) as [_ H']. split; [|split].
  - specialize (Hb 0%nat b eq_refl). by rewrite Z.add_0_r in Hb.
  - apply u32_small. lia.
  - done.
Qed.
Lemma holds_at a bs i : holds a bs -> (i <= length bs)%nat -> holds (u32 (a + Z.of_nat i)) (drop i bs).
Proof.
  intros H Hi. pose proof H as (Ha & Hl & _). rewrite <-(take_drop i bs) in H. apply holds_app in H as [_ H].
  rewrite length_take, Nat.min_l in H by done. by rewrite u32_small by lia.
Qed.
Lemma byte_at a bs i b s : holds a bs -> bs !! i = Some b -> byte (u32 (a + Z.of_nat i)) s = Ok (b, s).
Proof.
  intros (Ha & Hl & H) Hb. pose proof (lookup_lt_Some _ _ _ Hb). unfold byte, deref. rewrite u32_small by lia. by rewrite (H i b Hb).
Qed.

Lemma field_run bs : forall a s, holds a bs -> field (length bs) a s = Ok (le_value bs, s).
Proof.
  induction bs as [|b bs IH]; intros a s H; [done|]. destruct (holds_cons _ _ _ H) as (Hb & Hu & H').
  cbn. unfold byte, deref, mbind, M_bind. rewrite Hb, Hu, IH by done. done.
Qed.
Lemma field_at a bs i n s : holds a bs -> (i + n <= length bs)%nat -> field n (u32 (a + Z.of_nat i)) s = Ok (le_value (slice i n bs), s).
Proof.
  intros H Hl. pose proof (holds_at a bs i H ltac:(lia)) as H1. rewrite <-(take_drop n (drop i bs)) in H1.
  apply holds_app in H1 as [H1 _]. pose proof (field_run _ _ s H1) as H2. rewrite length_take, length_drop, Nat.min_l in H2 by lia. done.
Qed.

Definition total (bs : list Z) : Z := foldr Z.add 0 bs.
Lemma sum_from_run bs : forall a acc s, holds a bs -> sum_from a (length bs) acc s = Ok (u8 (acc + total bs), s).
Proof.
  induction bs as [|b bs IH]; intros a acc s H; cbn; [by rewrite Z.add_0_r|]. destruct (holds_cons _ _ _ H) as (Hb & Hu & H').
  unfold byte, deref, mbind, M_bind. rewrite Hb, Hu, IH by done. unfold total. cbn. by rewrite Z.add_assoc.
Qed.
Lemma sum_run a bs s : holds a bs -> sum a (length bs) s = Ok (u8 (total bs), s).
Proof. intros H. unfold sum. by rewrite sum_from_run. Qed.
Lemma signed_run sig : forall a bs s, holds a bs -> length bs = length sig -> signed a sig s = Ok (bool_decide (bs = sig), s).
Proof.
  induction sig as [|c sig IH]; intros a [|b bs] s H Hl; try done. destruct (holds_cons _ _ _ H) as (Hb & Hu & H').
  cbn. unfold byte, deref, mbind, M_bind. rewrite Hb, Hu. destruct (Z.eqb_spec b c) as [->|Hne].
  - rewrite (IH _ bs) by (done || by injection Hl). do 2 f_equal. apply bool_decide_ext. by split; [intros ->|intros [= ->]].
  - rewrite bool_decide_eq_false_2; [done|]. congruence.
Qed.

(** A floating pointer structure: signature and checksum. *)
Definition is_fp (bs : list Z) : bool := bool_decide (take 4 bs = mp_signature) && (u8 (total bs) =? 0).
(** The first of [n] blocks of 16 bytes that is one. *)
Fixpoint first_fp (n : nat) (a : Z) (mem : list Z) : option Z :=
  match n with
  | O => None
  | S n => if is_fp (take 16 mem) then Some a else first_fp n (a + 16) (drop 16 mem)
  end.
Lemma mpsearch1_from_run n : forall a mem s, holds a mem -> length mem = (16 * n)%nat ->
  mpsearch1_from (S n) a (a + 16 * Z.of_nat n) s = Ok (first_fp n a mem, s).
Proof.
  induction n as [|n IH]; intros a mem s H Hl; cbn [mpsearch1_from first_fp].
  { by rewrite (proj2 (Z.leb_le _ _)) by lia. }
  rewrite (proj2 (Z.leb_gt _ _)) by lia. rewrite <-(take_drop 16 mem) in H. apply holds_app in H as [H1 H2].
  rewrite length_take, Nat.min_l in H2 by lia. change (Z.of_nat 16) with 16 in H2.
  assert (H3 : holds a (take 4 (take 16 mem))).
  { rewrite <-(take_drop 4 (take 16 mem)) in H1. by apply holds_app in H1 as [H1 _]. }
  unfold mbind at 1, M_bind. rewrite (signed_run _ _ _ _ H3) by (rewrite !length_take; unfold mp_signature; cbn [length]; lia).
  fold (is_fp (take 16 mem)). unfold is_fp. case_bool_decide as Hs; cbn [andb].
  - unfold mbind, M_bind. change (Z.to_nat mp_size) with 16%nat. rewrite <-(Nat.min_l 16 (length mem)) at 1 by lia.
    rewrite <-length_take, (sum_run _ _ _ H1). destruct (u8 (total (take 16 mem)) =? 0); [done|].
    destruct H2 as (H2a & H2b & H2c). rewrite u32_small by (unfold mp_size; lia). unfold mp_size.
    replace (a + 16 * Z.of_nat (S n)) with (a + 16 + 16 * Z.of_nat n) by lia. apply IH; [done|rewrite length_drop; lia].
  - destruct H2 as (H2a & H2b & H2c). unfold mbind, M_bind, mret, M_ret. rewrite u32_small by (unfold mp_size; lia). unfold mp_size.
    replace (a + 16 * Z.of_nat (S n)) with (a + 16 + 16 * Z.of_nat n) by lia. apply IH; [done|rewrite length_drop; lia].
Qed.
Lemma mpsearch1_run a n mem s : holds (P2V a) mem -> length mem = (16 * n)%nat ->
  mpsearch1 a (16 * Z.of_nat n) s = Ok (first_fp n (P2V a) mem, s).
Proof.
  intros H Hl. pose proof H as (Ha & Hb & _). unfold mpsearch1. rewrite u32_small by lia.
  rewrite (Z.mul_comm 16) at 1. unfold mp_size. rewrite Z.div_mul, Nat2Z.id by lia. by apply mpsearch1_from_run.
Qed.

(** * What the firmware leaves in memory *)

(** The segment of the extended BIOS data area and the kilobytes of base memory, from the BIOS data
    area; the kilobyte that is searched first; the ROM. *)
Record firmware := {
  fw_ebda : Z;
  fw_base : Z;
  fw_low : list Z;
  fw_rom : list Z
}.
Definition fw_addr (w : firmware) : Z := if fw_ebda w =? 0 then fw_base w * 1024 - 1024 else fw_ebda w * 16.
Record fw_in_memory (w : firmware) : Prop := {
  fw_ebda_range : 0 <= fw_ebda w < 2 ^ 16;
  fw_base_range : 1 <= fw_base w < 2 ^ 16;
  fw_ebda_at : holds (P2V 0x40E) (le_bytes 2 (fw_ebda w));
  fw_base_at : holds (P2V 0x413) (le_bytes 2 (fw_base w));
  fw_low_at : holds (P2V (fw_addr w)) (fw_low w);
  fw_low_size : length (fw_low w) = 1024%nat;
  fw_rom_at : holds (P2V 0xF0000) (fw_rom w);
  fw_rom_size : length (fw_rom w) = (16 * 4096)%nat
}.
Definition fw_fp (w : firmware) : option Z :=
  match first_fp 64 (P2V (fw_addr w)) (fw_low w) with
  | Some mp => Some mp
  | None => first_fp 4096 (P2V 0xF0000) (fw_rom w)
  end.

(** [(hi << 8) | lo] puts a number of 16 bits together. *)
Lemma two_bytes v : 0 <= v < 2 ^ 16 -> Z.lor (Z.shiftl (u8 (v / 256)) 8) (u8 v) = v.
Proof.
  intros Hv. assert (0 <= v / 256 < 256) by (split; [apply Z.div_pos; lia|apply Z.div_lt_upper_bound; lia]).
  rewrite u8_small by done. pose proof (u8_range v).
  assert (Hd : Z.land (Z.shiftl (v / 256) 8) (u8 v) = 0).
  { apply Z.bits_inj'. intros i Hi. rewrite Z.land_spec, Z.bits_0, Z.shiftl_spec by lia. destruct (decide (i < 8)).
    - by rewrite (Z.testbit_neg_r _ (i - 8)) by lia.
    - rewrite (Z.bits_above_log2 (u8 v)); [by rewrite andb_false_r|lia|]. destruct (decide (u8 v = 0)) as [->|]; [cbn; lia|].
      apply Z.log2_lt_pow2; [lia|]. apply Z.lt_le_trans with (2 ^ 8); [lia|]. apply Z.pow_le_mono_r; lia. }
  rewrite <-Z.lxor_lor, <-Z.add_nocarry_lxor by done.
  rewrite Z.shiftl_mul_pow2 by lia. unfold u8. change (2 ^ 8) with 256. rewrite (Z.div_mod v 256) at 3 by lia. lia.
Qed.

Lemma bda_word_run i v s : holds (P2V 0x400 + i) (le_bytes 2 v) -> 0 <= v < 2 ^ 16 -> bda_word i s = Ok (v, s).
Proof.
  intros (Ha & Hl & H) Hv. unfold bda_word, mbind, M_bind, byte, deref.
  pose proof (H 0%nat _ eq_refl) as H0. pose proof (H 1%nat _ eq_refl) as H1. rewrite Z.add_0_r in H0. rewrite H0.
  change (Z.of_nat 1) with 1 in H1. rewrite Z.add_assoc, H1. by rewrite two_bytes.
Qed.
Lemma mpsearch_run w s : fw_in_memory w -> mpsearch s = Ok (fw_fp w, s).
Proof.
  intros [He Hb Hea Hba Hla Hls Hra Hrs]. unfold mpsearch, fw_fp.
  erewrite bind_ok by (by apply (bda_word_run _ (fw_ebda w))). cbn zeta.
  rewrite Z.shiftl_mul_pow2 by lia. change (2 ^ 4) with 16.
  assert (Hlow : (if negb (fw_ebda w * 16 =? 0) then mpsearch1 (fw_ebda w * 16) 1024
    else y ← bda_word 0x13; mpsearch1 (u32 (y * 1024 - 1024)) 1024) s = Ok (first_fp 64 (P2V (fw_addr w)) (fw_low w), s)).
  { unfold fw_addr in *. destruct (Z.eqb_spec (fw_ebda w) 0) as [E|E].
    - rewrite E, Z.mul_0_l, Z.eqb_refl. cbn [negb]. erewrite bind_ok by (apply (bda_word_run _ (fw_base w)); done || lia).
      rewrite u32_small by lia. by apply (mpsearch1_run _ 64).
    - rewrite (proj2 (Z.eqb_neq _ _)) by lia. cbn [negb]. by apply (mpsearch1_run _ 64). }
  erewrite bind_ok by (exact Hlow). destruct (first_fp 64 _ _); [done|]. by apply (mpsearch1_run _ 4096).
Qed.

(** * The table *)

Inductive entry :=
  | EProcessor (apicid : Z) (rest : list Z)
  | EIoapic (apicno : Z) (rest : list Z)
  | EOther (ty : Z) (rest : list Z).
Definition entry_bytes (e : entry) : list Z :=
  match e with
  | EProcessor i rest => MPPROC :: i :: rest
  | EIoapic i rest => MPIOAPIC :: i :: rest
  | EOther ty rest => ty :: rest
  end.
Definition entry_ok (e : entry) : Prop :=
  match e with
  | EProcessor _ rest => length rest = 18%nat
  | EIoapic _ rest => length rest = 6%nat
  | EOther ty rest => ty ∈ [MPBUS; MPIOINTR; MPLINTR] /\ length rest = 7%nat
  end.
Definition table_bytes (es : list entry) : list Z := es ≫= entry_bytes.
(** The processors, and the last I/O APIC. *)
Definition processors (es : list entry) : list Z := omap (fun e => match e with EProcessor i _ => Some i | _ => None end) es.
Definition last_ioapic (es : list entry) (old : Z) : Z :=
  foldl (fun a e => match e with EIoapic i _ => i | _ => a end) old es.

(** What an entry does. *)
Definition enter (e : entry) (s : mpstate) : mpstate :=
  match e with
  | EProcessor i _ =>
      if decide (ncpu s < NCPU)%nat then MkMp (S (ncpu s)) (alter (set_apicid i) (ncpu s) (mp_cpus s)) (ioapicid s) (lapic s) (mp_out s) else s
  | EIoapic i _ => set_ioapicid i s
  | EOther _ _ => s
  end.
Definition room (s : mpstate) : Prop := length (mp_cpus s) = NCPU.
Lemma enter_room e s : room s -> room (enter e s).
Proof. unfold room. intros H. destruct e; cbn; try done. case_decide; [|done]. cbn. by rewrite length_alter. Qed.
Lemma add_cpu_enter i rest s : room s -> add_cpu i s = Some (enter (EProcessor i rest) s).
Proof.
  unfold room, add_cpu. intros H. cbn. case_bool_decide; [|by rewrite decide_False]. rewrite decide_True by done.
  destruct (lookup_lt_is_Some_2 (mp_cpus s) (ncpu s) ltac:(lia)) as [k Hk]. rewrite Hk. cbn. do 2 f_equal.
  apply list_eq. intros j. destruct (decide (j = ncpu s)) as [->|Hne].
  - rewrite list_lookup_insert_eq by lia. by rewrite list_lookup_alter_eq, Hk.
  - by rewrite list_lookup_insert_ne, list_lookup_alter_ne by done.
Qed.

Lemma entry_step e a rest ismp fuel lim s : entry_ok e -> room s -> holds a (entry_bytes e ++ rest) -> a < lim ->
  mpinit_entries (S fuel) a lim ismp s = mpinit_entries fuel (a + Z.of_nat (length (entry_bytes e))) lim ismp (enter e s).
Proof.
  intros He Hr H Hlt. cbn [mpinit_entries]. rewrite (proj2 (Z.leb_gt _ _)) by lia. pose proof H as (Ha & Hl & _). rewrite length_app in Hl.
  assert (Hb : forall i b, entry_bytes e !! i = Some b -> byte (u32 (a + Z.of_nat i)) s = Ok (b, s)).
  { intros i b Hi. eapply byte_at; [done|]. by apply lookup_app_l_Some. }
  destruct e as [i r|i r|ty r]; cbn [entry_ok entry_bytes length] in *.
  - pose proof (Hb 0%nat _ eq_refl) as H0. rewrite Z.add_0_r, u32_small in H0 by lia. erewrite bind_ok by exact H0. change (MPPROC =? MPPROC) with true. cbv iota.
    erewrite bind_ok by exact (Hb 1%nat _ eq_refl). unfold store, mbind, M_bind. rewrite (add_cpu_enter i r) by done.
    rewrite u32_small by (unfold mpproc_size; lia). unfold mpproc_size. by rewrite He.
  - pose proof (Hb 0%nat _ eq_refl) as H0. rewrite Z.add_0_r, u32_small in H0 by lia. erewrite bind_ok by exact H0. change (MPIOAPIC =? MPPROC) with false. change (MPIOAPIC =? MPIOAPIC) with true. cbv iota.
    erewrite bind_ok by exact (Hb 1%nat _ eq_refl). unfold modify, mbind, M_bind.
    rewrite u32_small by (unfold mpioapic_size; lia). unfold mpioapic_size. by rewrite He.
  - destruct He as [Hty He]. pose proof (Hb 0%nat _ eq_refl) as H0. rewrite Z.add_0_r, u32_small in H0 by lia. erewrite bind_ok by exact H0.
    rewrite (u32_small (a + 8)) by lia. rewrite He. cbn [enter].
    unfold MPBUS, MPIOINTR, MPLINTR in Hty. repeat (apply elem_of_cons in Hty as [->|Hty]; [done|]). by apply elem_of_nil in Hty.
Qed.
Lemma entries_run es : forall a lim rest fuel s, Forall entry_ok es -> room s -> holds a (table_bytes es ++ rest) ->
  a + Z.of_nat (length (table_bytes es)) <= lim -> 
  mpinit_entries (length es + fuel) a lim true s =
  mpinit_entries fuel (a + Z.of_nat (length (table_bytes es))) lim true (foldl (fun s e => enter e s) s es).
Proof.
  induction es as [|e es IH]; intros a lim rest fuel s He Hr H Hlim; [by rewrite Z.add_0_r|].
  apply Forall_cons in He as [He Hes]. cbn [table_bytes mbind list_bind] in *. fold (table_bytes es) in *.
  rewrite <-app_assoc in H. rewrite length_app in *. cbn [length Nat.add].
  assert (0 < length (entry_bytes e))%nat by (destruct e; cbn; lia).
  erewrite entry_step; [|done..|lia]. apply holds_app in H as [_ H]. rewrite (IH _ _ rest); [|done|by apply enter_room|done|lia].
  f_equal. lia.
Qed.

(** The identifiers of the processors found so far. *)
Definition ids (s : mpstate) : list Z := c_apicid <$> take (ncpu s) (mp_cpus s).
Record scanned (s0 : mpstate) (es : list entry) (s : mpstate) : Prop := {
  sc_room : room s;
  sc_few : (ncpu s <= NCPU)%nat;
  sc_ids : ids s = take NCPU (ids s0 ++ processors es);
  sc_ioapic : ioapicid s = last_ioapic es (ioapicid s0);
  sc_lapic : lapic s = lapic s0;
  sc_out : mp_out s = mp_out s0;
  sc_kept : set_apicid 0 <$> mp_cpus s = set_apicid 0 <$> mp_cpus s0 (* nothing but the identifiers *)
}.
Lemma ids_length s : room s -> (ncpu s <= NCPU)%nat -> length (ids s) = ncpu s.
Proof. unfold room, ids. intros. rewrite length_fmap, length_take. lia. Qed.
Lemma ids_enter i rest s : room s -> (ncpu s < NCPU)%nat -> ids (enter (EProcessor i rest) s) = ids s ++ [i].
Proof.
  unfold room. intros Hr Hn. unfold ids. cbn. rewrite decide_True by done. cbn.
  destruct (lookup_lt_is_Some_2 (mp_cpus s) (ncpu s) ltac:(lia)) as [k Hk].
  erewrite take_S_r by (by rewrite list_lookup_alter_eq, Hk). rewrite take_alter_ge by lia. by rewrite fmap_app.
Qed.
Lemma scanned_all es : forall s, room s -> (ncpu s <= NCPU)%nat -> scanned s es (foldl (fun s e => enter e s) s es).
Proof.
  induction es as [|e es IH]; intros s Hr Hn; cbn [foldl].
  { split; try done. unfold processors. cbn. rewrite app_nil_r, take_ge; [done|]. by rewrite ids_length. }
  assert (Hn' : (ncpu (enter e s) <= NCPU)%nat) by (destruct e; cbn; try done; case_decide; cbn; lia).
  destruct (IH (enter e s) (enter_room e s Hr) Hn') as [H1 H2 H3 H4 H5 H6 H7]. split; [done..| | | | |].
  - rewrite H3. destruct e as [i r|i r|ty r]; [|done..]. destruct (decide (ncpu s < NCPU)%nat) as [Hlt|Hge].
    + rewrite ids_enter by done. by rewrite <-app_assoc.
    + cbn [enter]. rewrite decide_False by done. rewrite !take_app_le; [done|rewrite ids_length; [lia|done..]..].
  - rewrite H4. destruct e; cbn; [|done..]. by case_decide.
  - rewrite H5. destruct e; cbn; [|done..]. by case_decide.
  - rewrite H6. destruct e; cbn; [|done..]. by case_decide.
  - rewrite H7. destruct e; cbn; [|done..]. case_decide; [|done]. cbn. apply list_eq. intros j. rewrite !list_lookup_fmap.
    destruct (decide (j = ncpu s)) as [->|Hne]; [|by rewrite list_lookup_alter_ne].
    rewrite list_lookup_alter_eq. by destruct (mp_cpus s !! ncpu s).
Qed.

(** The floating pointer structure and the configuration table as they should be. *)
Record fp_ok (fp : list Z) (pa imcrp : Z) : Prop := {
  fp_size : length fp = 16%nat;
  fp_physaddr : ld32 4 fp = pa;
  fp_nonzero : pa <> 0;
  fp_imcrp : fp !! 12%nat = Some imcrp
}.
Record conf_ok (hd body : list Z) : Prop := {
  cf_size : length hd = 44%nat;
  cf_signature : take 4 hd = mpconf_signature;
  cf_version : hd !! 6%nat = Some 1 \/ hd !! 6%nat = Some 4;
  cf_length : ld16 4 hd = 44 + Z.of_nat (length body);
  cf_checksum : u8 (total (hd ++ body)) = 0
}.

Lemma mpconfig_run w mp fp pa imcrp hd body s : fw_in_memory w -> fw_fp w = Some mp -> fp_ok fp pa imcrp -> holds mp fp ->
  conf_ok hd body -> holds (P2V pa) (hd ++ body) -> mpconfig s = Ok (Some (mp, P2V pa), s).
Proof.
  intros Hw Hmp [F1 F2 F3 F4] Hfp [C1 C2 C3 C4 C5] Hc. unfold mpconfig.
  erewrite bind_ok by (by rewrite (mpsearch_run w), Hmp). cbv iota beta.
  erewrite bind_ok by (apply (field_at mp fp 4 4); [done|lia]). fold (ld32 4 fp). rewrite F2.
  rewrite (proj2 (Z.eqb_neq _ _)) by done. cbn zeta.
  assert (Hs : signed (P2V pa) mpconf_signature s = Ok (true, s)).
  { rewrite <-(take_drop 4 hd), <-app_assoc in Hc. apply holds_app in Hc as [Hc _]. erewrite signed_run; [|done|by rewrite C2].
    by rewrite bool_decide_eq_true_2. }
  erewrite bind_ok by exact Hs. cbn [negb].
  assert (exists v, hd !! 6%nat = Some v /\ (v = 1 \/ v = 4)) as (v & Hv & Hv14) by (destruct C3; eauto).
  erewrite bind_ok by (apply (byte_at (P2V pa) (hd ++ body) 6 v); [exact Hc|by apply lookup_app_l_Some]).
  replace (negb (v =? 1) && negb (v =? 4)) with false by (by destruct Hv14 as [-> | ->]).
  pose proof (holds_app _ _ _ Hc) as [Hh _].
  erewrite bind_ok by (apply (field_at (P2V pa) hd 4 2); [done|lia]). fold (ld16 4 hd). rewrite C4.
  replace (Z.to_nat _) with (length (hd ++ body)) by (rewrite length_app, C1; lia).
  erewrite bind_ok by (by apply sum_run). by rewrite C5.
Qed.

Lemma find_apic_index cs : forall i n, NoDup (c_apicid <$> cs) -> forall k, cs !! i = Some k -> find_apic cs (c_apicid k) n = Some (n + i)%nat.
Proof.
  induction cs as [|c cs IH]; intros [|i] n Hnd k Hk; try done; cbn in *.
  - injection Hk as ->. rewrite Z.eqb_refl. by rewrite Nat.add_0_r.
  - apply NoDup_cons in Hnd as [Hni Hnd]. rewrite (proj2 (Z.eqb_neq _ _)).
    + rewrite (IH i (S n) Hnd k Hk). f_equal. lia.
    + intros He. apply Hni. rewrite He. apply list_elem_of_fmap. exists k. split; [done|]. by eapply list_elem_of_lookup_2.
Qed.

(** Each processor finds its record by its identifier. *)
Lemma mycpu_finds (cs : list cpu) i a : NoDup (c_apicid <$> cs) -> (c_apicid <$> cs) !! i = Some a -> mycpu cs false a = Ok i.
Proof.
  intros Hnd Hi. apply list_lookup_fmap_Some in Hi as (k & -> & Hk). unfold mycpu. by rewrite (find_apic_index _ i 0 Hnd k Hk).
Qed.

(** What [mpinit] does, with the rest of the processors' records as it was. *)
Lemma mpinit_runs w mp fp pa imcrp hd es fuel s : fw_in_memory w -> fw_fp w = Some mp -> fp_ok fp pa imcrp -> holds mp fp ->
  conf_ok hd (table_bytes es) -> Forall entry_ok es -> holds (P2V pa) (hd ++ table_bytes es) -> ncpu s = O -> length (mp_cpus s) = NCPU -> (length es < fuel)%nat ->
  wp (mpinit fuel) (fun _ s' =>
    let found := take NCPU (processors es) in
    (ncpu s' = length found /\ ids s' = found /\ length (mp_cpus s') = NCPU /\
     lapic s' = ld32 36 hd /\ ioapicid s' = last_ioapic es (ioapicid s) /\
     mp_out s' = mp_out s ++ (if imcrp =? 0 then [] else [(0x22, 0x70); (0x23, u8 (Z.lor inb23 1))])) /\
    set_apicid 0 <$> mp_cpus s' = set_apicid 0 <$> mp_cpus s) s.
Proof.
  intros Hw Hmp Hf Hfp Hc C6 Hconf Hn Hlen Hfuel. unfold mpinit. apply wp_bind. eapply wp_run; [by eapply mpconfig_run|]. cbv iota beta.
  destruct Hc as [C1 C2 C3 C4 C5]. pose proof (holds_app _ _ _ Hconf) as [Hh Ht]. pose proof Hconf as (Ha & Hb & _).
  rewrite length_app in Hb. rewrite C1 in Hb, Ht.
  apply wp_bind. eapply wp_run; [apply (field_at (P2V pa) hd 36 4); [done|lia]|]. fold (ld32 36 hd).
  apply wp_bind, wp_modify, wp_bind. eapply wp_run; [apply (field_at (P2V pa) hd 4 2); [done|lia]|]. fold (ld16 4 hd). rewrite C4.
  unfold mpconf_size. rewrite (u32_small (P2V pa + 44)), (u32_small (P2V pa + (44 + _))) by lia. set (s1 := set_lapic _ s).
  pose proof (scanned_all es s1 Hlen ltac:(cbn; rewrite Hn; lia)) as [S1 S2 S3 S4 S5 S6 S7].
  set (s2 := foldl _ s1 es) in *. apply wp_bind. eapply wp_run with (a := true) (s' := s2).
  { replace fuel with (length es + (fuel - length es))%nat by lia.
    rewrite (entries_run es _ _ [] _ s1); [|done|done|by rewrite app_nil_r|lia].
    destruct (fuel - length es)%nat eqn:E; [lia|]. cbn [mpinit_entries]. by rewrite (proj2 (Z.leb_le _ _)) by lia. }
  cbn [negb]. apply wp_bind, wp_panic_if; [done|]. apply wp_bind. destruct Hf as [F1 F2 F3 F4].
  eapply wp_run; [by apply (byte_at mp fp 12)|].
  assert (Hids : ids s2 = take NCPU (processors es)) by (rewrite S3; unfold ids, s1; cbn [ncpu set_lapic]; by rewrite Hn).
  assert (Hcpu : ncpu s2 = length (take NCPU (processors es))) by (by rewrite <-Hids, ids_length).
  destruct (imcrp =? 0); cbn [negb].
  - apply wp_ret. cbn zeta. rewrite S6, app_nil_r. done.
  - wp_steps. cbn zeta. cbn [ncpu mp_cpus lapic ioapicid mp_out mp_outb]. split_and!; try done. rewrite S6, <-app_assoc. done.
Qed.

(** C26: when the firmware describes the machine, [mpinit] ends and finds the first [NCPU] processors of
    the table in its order, the local and the I/O interrupt controller, and takes external interrupts
    from the old controller if it has to; each processor then finds its own record by its identifier. *)
Theorem mpinit_discovers w mp fp pa imcrp hd es fuel s : fw_in_memory w -> fw_fp w = Some mp -> fp_ok fp pa imcrp -> holds mp fp ->
  conf_ok hd (table_bytes es) -> Forall entry_ok es -> holds (P2V pa) (hd ++ table_bytes es) -> ncpu s = O -> length (mp_cpus s) = NCPU -> (length es < fuel)%nat ->
  wp (mpinit fuel) (fun _ s' =>
    let found := take NCPU (processors es) in
    ncpu s' = length found /\ ids s' = found /\ length (mp_cpus s') = NCPU /\
    lapic s' = ld32 36 hd /\ ioapicid s' = last_ioapic es (ioapicid s) /\
    mp_out s' = mp_out s ++ (if imcrp =? 0 then [] else [(0x22, 0x70); (0x23, u8 (Z.lor inb23 1))]) /\
    (NoDup found -> forall i a, found !! i = Some a -> mycpu (take (ncpu s') (mp_cpus s')) false a = Ok i)) s.
Proof.
  intros. eapply wp_mono; [by eapply mpinit_runs|]. cbn beta zeta. intros [] s' [(? & Hids & ? & ? & ? & ?) _].
  split_and!; [done..|]. rewrite <-Hids. unfold ids. intros Hnd i a Hi. by apply mycpu_finds.
Qed.

(** The loop does not get past an entry of another type. *)
Lemma unknown_entry_stays es a lim ty rest fuel s : Forall entry_ok es -> ty ∉ [MPPROC; MPBUS; MPIOAPIC; MPIOINTR; MPLINTR] ->
  room s -> holds a (table_bytes es ++ ty :: rest) -> a + Z.of_nat (length (table_bytes es)) < lim ->
  mpinit_entries fuel a lim true s = Err EFuel.
Proof.
  intros Hes Hty. revert fuel a s. induction Hes as [|e es He Hes IH]; intros fuel a s Hr H Hlim.
  - cbn in H, Hlim. rewrite Z.add_0_r in Hlim. apply holds_cons in H as (Hb & _). generalize true.
    induction fuel as [|fuel IH]; intros ismp; [done|]. cbn [mpinit_entries]. rewrite (proj2 (Z.leb_gt _ _)) by done.
    erewrite bind_ok by (unfold byte, deref; by rewrite Hb).
    assert (Hne : forall x, x ∈ [MPPROC; MPBUS; MPIOAPIC; MPIOINTR; MPLINTR] -> (ty =? x) = false).
    { intros x Hx. apply Z.eqb_neq. by intros ->. }
    rewrite !Hne by (unfold MPPROC, MPBUS, MPIOAPIC, MPIOINTR, MPLINTR; set_solver). apply IH.
  - destruct fuel as [|fuel]; [done|]. cbn [table_bytes mbind list_bind] in *. fold (table_bytes es) in *.
    rewrite <-app_assoc in H. rewrite length_app in Hlim. assert (0 < length (entry_bytes e))%nat by (destruct e; cbn; lia).
    erewrite entry_step; [|done..|lia]. apply holds_app in H as [_ H]. apply IH; [by apply enter_room|done|lia].
Qed.

(** C39: an entry of another type stops the kernel: [mpinit] never ends, because [break] leaves the
    [switch] and not the loop; the message for such a machine is never printed. *)
Theorem unknown_entry_hangs w mp fp pa imcrp hd es ty rest fuel s : fw_in_memory w -> fw_fp w = Some mp -> fp_ok fp pa imcrp -> holds mp fp ->
  conf_ok hd (table_bytes es ++ ty :: rest) ->
  Forall entry_ok es -> ty ∉ [MPPROC; MPBUS; MPIOAPIC; MPIOINTR; MPLINTR] ->
  holds (P2V pa) (hd ++ table_bytes es ++ ty :: rest) -> length (mp_cpus s) = NCPU ->
  mpinit fuel s = Err EFuel.
Proof.
  intros Hw Hmp Hf Hfp Hc Hes Hty Hconf Hlen. unfold mpinit. erewrite bind_ok by (by eapply mpconfig_run). cbv iota beta.
  destruct Hc as [C1 C2 C3 C4 C5]. pose proof (holds_app _ _ _ Hconf) as [Hh Ht]. pose proof Hconf as (Ha & Hb & _).
  rewrite !length_app in Hb. rewrite C1 in Hb, Ht. cbn [length] in Hb. rewrite length_app in C4. cbn [length] in C4.
  erewrite bind_ok by (apply (field_at (P2V pa) hd 36 4); [done|lia]). erewrite bind_ok by done.
  erewrite bind_ok by (apply (field_at (P2V pa) hd 4 2); [done|lia]). fold (ld16 4 hd). rewrite C4.
  unfold mpconf_size. rewrite (u32_small (P2V pa + 44)), (u32_small (P2V pa + (44 + _))) by lia. set (s1 := set_lapic _ s). change (room s1) in Hlen.
  unfold mbind, M_bind. by rewrite (unknown_entry_stays es _ _ ty rest) by (done || lia).
Qed.
End mp.

(** * A machine with two processors *)

Definition demo_entries : list entry :=
  [EProcessor 0 (replicate 18 1); EProcessor 1 (replicate 18 0); EIoapic 2 (replicate 6 0); EOther MPBUS (replicate 7 0)].
Definition demo_header (check : Z) : list Z :=
  mpconf_signature ++ le_bytes 2 (44 + 56) ++ [4; check] ++ replicate 28 0 ++ le_bytes 4 0xFEE00000 ++ replicate 4 0.
Definition demo_fp (check : Z) : list Z := mp_signature ++ le_bytes 4 0x9FC40 ++ [1; 4; check; 0; 0x80; 0; 0; 0].
Definition demo_conf : list Z := demo_header 114 ++ table_bytes demo_entries.

Section demo.
Context (conf : list Z) (Hconf : length conf = 100%nat).
Definition demo_low : list Z := replicate 16 0 ++ demo_fp 219 ++ replicate 32 0 ++ conf ++ replicate 860 0.
Definition demo_firmware : firmware := Build_firmware 0x9FC0 639 demo_low (replicate (16 * 4096) 0).
Definition demo_load (a : Z) : option Z :=
  if (0x8009FC00 <=? a) && (a <? 0x8009FC00 + 1024) then demo_low !! Z.to_nat (a - 0x8009FC00)
  else if (0x800F0000 <=? a) && (a <? 0x80100000) then Some 0
  else if a =? 0x8000040E then Some 0xC0 else if a =? 0x8000040F then Some 0x9F
  else if a =? 0x80000413 then Some 0x7F else if a =? 0x80000414 then Some 2 else None.

Lemma demo_low_size : length demo_low = 1024%nat.
Proof. unfold demo_low. rewrite !length_app, !length_replicate, Hconf. done. Qed.
Lemma demo_low_at : holds demo_load 0x8009FC00 demo_low.
Proof.
  split; [done|]. rewrite demo_low_size. split; [lia|]. intros i b Hb. pose proof (lookup_lt_Some _ _ _ Hb) as Hi.
  rewrite demo_low_size in Hi. unfold demo_load.
  rewrite (proj2 (Z.leb_le _ _)), (proj2 (Z.ltb_lt _ _)) by lia. cbn [andb]. by replace (Z.to_nat _) with i by lia.
Qed.
Lemma demo_in_memory : fw_in_memory demo_load demo_firmware.
Proof.
  split; [done..| | |exact demo_low_at|exact demo_low_size| |apply length_replicate].
  - split; [done|]. split; [done|]. intros [|[|i]] b [= <-]; reflexivity.
  - split; [done|]. split; [done|]. intros [|[|i]] b [= <-]; reflexivity.
  - unfold demo_firmware, fw_rom. split; [done|]. rewrite length_replicate. split; [done|]. intros i b [-> Hi]%lookup_replicate. unfold demo_load.
    change (P2V 0xF0000) with 0x800F0000. rewrite (proj2 (Z.ltb_ge _ (0x8009FC00 + 1024))) by lia. rewrite andb_false_r.
    by rewrite (proj2 (Z.leb_le _ _)), (proj2 (Z.ltb_lt _ _)) by lia.
Qed.
Lemma demo_parts : holds demo_load 0x8009FC10 (demo_fp 219) /\ holds demo_load 0x8009FC40 conf.
Proof.
  pose proof demo_low_at as H. unfold demo_low in H. apply holds_app in H as [_ H]. apply holds_app in H as [H1 H].
  apply holds_app in H as [_ H]. apply holds_app in H as [H2 _]. done.
Qed.
Lemma demo_fp_ok : fp_ok (demo_fp 219) 0x9FC40 0x80.
Proof. split; (vm_compute; done). Qed.
Lemma demo_fw_fp : fw_fp demo_firmware = Some 0x8009FC10.
Proof. reflexivity. Qed.
End demo.
Definition demo_mp : mpstate := MkMp 0 (replicate NCPU (MkCpu 0 0 false false None 0 0)) 0 0 [].

(** Both processors are found. *)
Lemma mpinit_discovers_witness :
  wp (mpinit (demo_load demo_conf) 0 5) (fun _ s' => ids s' = [0; 1] /\ mp_out s' = [(0x22, 0x70); (0x23, 1)]) demo_mp.
Proof.
  eapply wp_mono; [apply (mpinit_discovers (demo_load demo_conf) 0 (demo_firmware demo_conf) 0x8009FC10 (demo_fp 219) 0x9FC40 0x80
    (demo_header 114) demo_entries 5 demo_mp)|].
  - by apply demo_in_memory.
  - apply demo_fw_fp.
  - apply demo_fp_ok.
  - by apply demo_parts.
  - split; try (vm_compute; done). by right.
  - repeat (apply Forall_cons; split; [vm_compute; done || (split; [set_solver|done])|]); apply Forall_nil; done.
  - by apply demo_parts.
  - done.
  - done.
  - cbn. lia.
  - cbn beta. intros [] s' (_ & H1 & _ & _ & _ & H2 & _). split; [exact H1|exact H2].
Defined.

(** One processor and then an entry of type 9. *)
Definition odd_rest : list Z := replicate 35 0.
Definition odd_entries : list entry := [EProcessor 0 (replicate 18 1)].
Definition odd_conf : list Z := demo_header 111 ++ table_bytes odd_entries ++ 9 :: odd_rest.
Lemma unknown_entry_hangs_witness : mpinit (demo_load odd_conf) 0 1000 demo_mp = Err EFuel.
Proof.
  apply (unknown_entry_hangs (demo_load odd_conf) 0 (demo_firmware odd_conf) 0x8009FC10 (demo_fp 219) 0x9FC40 0x80 (demo_header 111)
    odd_entries 9 odd_rest 1000 demo_mp).
  - by apply demo_in_memory.
  - apply demo_fw_fp.
  - apply demo_fp_ok.
  - by apply demo_parts.
  - split; try (vm_compute; done). by right.
  - by repeat constructor.
  - by apply (bool_decide_unpack _).
  - by apply demo_parts.
  - done.
Defined.
