(* ===== verification/Log.v ===== *)
(** The redo log: log.c, and [readsb] of fs.c.

    The state adds [struct log] to the block layer.  A call of [begin_op] that
    would have to sleep is [begin_try] with result [false]; in the single-thread
    [begin_op] nobody can commit meanwhile, so it is [ESpin]. *)

From stdpp Require Import base tactics numbers option list sets strings.
From Stdlib Require Import ZArith Lia.
From S2P Require Import Prelude ProcDefs Spinlock Block BioFacts Bytes.

(** * Data *)

(** [struct log] without its lock; [lg_n] and [lg_block] are the in-memory header. *)
Record logrec := MkLogrec {
  lg_start : Z; lg_size : Z;
  lg_outstanding : Z;     (* how many FS sys calls are executing. *)
  lg_committing : Z;      (* in commit(), please wait. *)
  lg_dev : Z;
  lg_n : Z; lg_block : list Z
}.
Definition set_outstanding (v : Z) (l : logrec) := MkLogrec (lg_start l) (lg_size l) v (lg_committing l) (lg_dev l) (lg_n l) (lg_block l).
Definition set_committing (v : Z) (l : logrec) := MkLogrec (lg_start l) (lg_size l) (lg_outstanding l) v (lg_dev l) (lg_n l) (lg_block l).
Definition set_lhn (v : Z) (l : logrec) := MkLogrec (lg_start l) (lg_size l) (lg_outstanding l) (lg_committing l) (lg_dev l) v (lg_block l).
Definition set_lhblock (v : list Z) (l : logrec) := MkLogrec (lg_start l) (lg_size l) (lg_outstanding l) (lg_committing l) (lg_dev l) (lg_n l) v.
Definition set_where (start size dev : Z) (l : logrec) := MkLogrec start size (lg_outstanding l) (lg_committing l) dev (lg_n l) (lg_block l).

(** The static storage of [log]. *)
Definition zero_log : logrec := MkLogrec 0 0 0 0 0 0 (replicate (Z.to_nat LOGSIZE) 0).

(** The block layer, [log.lock], the log, and the number of [wakeup(&log)] calls. *)
Record lstate := MkLstate { lt_bs : bstate; lt_lk : spinlock; lt_log : logrec; lt_wakes : nat }.
Definition set_bs (v : bstate) (s : lstate) := MkLstate v (lt_lk s) (lt_log s) (lt_wakes s).
Definition set_log (v : logrec) (s : lstate) := MkLstate (lt_bs s) (lt_lk s) v (lt_wakes s).
Definition set_ltlk (v : spinlock) (s : lstate) := MkLstate (lt_bs s) v (lt_log s) (lt_wakes s).

(** [struct superblock] *)
Record superblock := MkSuperblock {
  sb_size : Z; sb_nblocks : Z; sb_ninodes : Z; sb_nlog : Z;
  sb_logstart : Z; sb_inodestart : Z; sb_bmapstart : Z
}.
Definition decode_sb (d : list Z) : superblock :=
  MkSuperblock (ld32 0 d) (ld32 4 d) (ld32 8 d) (ld32 12 d) (ld32 16 d) (ld32 20 d) (ld32 24 d).

Definition on_bs {A} (m : M bstate A) : M lstate A := zoom lt_bs set_bs m.

Section code.
(** The processor, and the pid of the process that runs on it. *)
Context (me : nat) (pid : Z).

(** Code under [log.lock]: it may change the log and the buffers. *)
Definition with_log_cpu (m : M (cpu * spinlock) unit) : M lstate unit :=
  zoom (fun s => (sp_cpu (lt_bs s).1, lt_lk s))
    (fun v s => let sp := (lt_bs s).1 in
       MkLstate (MkSpins v.1 (sp_bcache sp) (sp_ide sp) (sp_guards sp), (lt_bs s).2) v.2 (lt_log s) (lt_wakes s)) m.
Definition under_log {A} (m : M (logrec * blocks * nat) A) : M lstate A :=
  with_log_cpu (acquire me);;
  a ← zoom (fun s => (lt_log s, (lt_bs s).2, lt_wakes s))
        (fun v s => MkLstate ((lt_bs s).1, v.1.2) (lt_lk s) v.1.1 v.2) m;
  with_log_cpu (release me);;
  mret a.
Definition log_do (f : logrec -> logrec) : M (logrec * blocks * nat) unit :=
  modify (fun v => (f v.1.1, v.1.2, v.2)).
Definition log_get {A} (f : logrec -> A) : M (logrec * blocks * nat) A := gets (fun v => f v.1.1).
(** [wakeup(&log)] *)
Definition log_wakeup : M (logrec * blocks * nat) unit := modify (fun v => (v.1, S v.2)).

(** Blocks are read and written on [log.dev]. *)
Definition lbread (n : Z) : M lstate nat :=
  dev ← gets (fun s => lg_dev (lt_log s)); on_bs (bread me pid dev (u32 n)).

(** One round of a copy loop: [to]'s block becomes a copy of [from]'s. *)
Definition copy_block (from to : nat) : M lstate unit :=
  d ← on_bs (bget_data from); on_bs (bset to d);; on_bs (bwrite me to).

Definition lh_block (tail : nat) : M lstate Z := deref (fun s => lg_block (lt_log s) !! tail).

Definition install_one (tail : nat) : M lstate unit :=
  start ← gets (fun s => lg_start (lt_log s));
  lbuf ← lbread (start + Z.of_nat tail + 1);
  b ← lh_block tail;
  dbuf ← lbread b;
  copy_block lbuf dbuf;;
  on_bs (brelse me lbuf);;
  on_bs (brelse me dbuf).
Definition install_trans : M lstate unit :=
  n ← gets (fun s => lg_n (lt_log s)); for_each install_one (seq 0 (Z.to_nat n)).

(** [hb->block[i]] is at offset [4 + 4 * i] of the header block. *)
Definition hoff (i : nat) : nat := 4 + 4 * i.

Definition read_head : M lstate unit :=
  start ← gets (fun s => lg_start (lt_log s));
  b ← lbread start;
  d ← on_bs (bget_data b);
  modify (fun s => set_log (set_lhn (s32 (ld32 0 d)) (lt_log s)) s);;
  n ← gets (fun s => lg_n (lt_log s));
  for_each (fun i =>
    store (fun s => if decide (i < length (lg_block (lt_log s)))%nat
                    then Some (set_log (set_lhblock (<[i := s32 (ld32 (hoff i) d)]> (lg_block (lt_log s))) (lt_log s)) s)
                    else None)) (seq 0 (Z.to_nat n));;
  on_bs (brelse me b).

(** The bytes of a header block after [n] and the first blocks are stored. *)
Fixpoint put_blocks (i : nat) (bl : list Z) (d : list Z) : list Z :=
  match bl with [] => d | b :: bl => put_blocks (S i) bl (st32 (hoff i) b d) end.
Definition put_head (n : Z) (bl : list Z) (d : list Z) : list Z := put_blocks 0 (take (Z.to_nat n) bl) (st32 0 n d).

Definition write_head : M lstate unit :=
  l ← gets lt_log;
  b ← lbread (lg_start l);
  d ← on_bs (bget_data b);
  on_bs (bset b (put_head (lg_n l) (lg_block l) d));;
  on_bs (bwrite me b);;
  on_bs (brelse me b).

Definition set_n (v : Z) : M lstate unit := modify (fun s => set_log (set_lhn v (lt_log s)) s).

Definition recover_from_log : M lstate unit :=
  read_head;; install_trans;; set_n 0;; write_head.

Definition readsb (dev : Z) : M bstate superblock :=
  b ← bread me pid dev 1; d ← bget_data b; brelse me b;; mret (decode_sb d).

Definition initlog (dev : Z) : M lstate unit :=
  panic_if (BSIZE <=? 4 + 4 * LOGSIZE) "initlog: too big logheader";;
  modify (set_ltlk (initlock "log"));;
  sb ← on_bs (readsb dev);
  modify (fun s => set_log (set_where (s32 (sb_logstart sb)) (s32 (sb_nlog sb)) dev (lt_log s)) s);;
  recover_from_log.

(** One pass of the loop of [begin_op]: [false] is the [sleep(&log, &log.lock)]. *)
Definition begin_try : M lstate bool :=
  under_log (
    c ← log_get lg_committing;
    n ← log_get lg_n;
    o ← log_get lg_outstanding;
    if negb (c =? 0) then mret false
    else if LOGSIZE <? n + (o + 1) * MAXOPBLOCKS then mret false
    else log_do (set_outstanding (o + 1));; mret true).
Definition begin_op : M lstate unit :=
  r ← begin_try; if (r : bool) then mret tt else fail ESpin.

Definition write_one (tail : nat) : M lstate unit :=
  start ← gets (fun s => lg_start (lt_log s));
  to ← lbread (start + Z.of_nat tail + 1);
  b ← lh_block tail;
  from ← lbread b;
  copy_block from to;;
  on_bs (brelse me from);;
  on_bs (brelse me to).
Definition write_log : M lstate unit :=
  n ← gets (fun s => lg_n (lt_log s)); for_each write_one (seq 0 (Z.to_nat n)).

Definition commit : M lstate unit :=
  n ← gets (fun s => lg_n (lt_log s));
  if 0 <? n then write_log;; write_head;; install_trans;; set_n 0;; write_head else mret tt.

(** [end_op] under [log.lock]: must this call commit? *)
Definition end_enter : M lstate bool :=
  under_log (
    o ← log_get lg_outstanding;
    log_do (set_outstanding (o - 1));;
    c ← log_get lg_committing;
    panic_if (negb (c =? 0)) "log.committing";;
    if o - 1 =? 0 then log_do (set_committing 1);; mret true
    else log_wakeup;; mret false).
Definition end_leave : M lstate unit := under_log (log_do (set_committing 0);; log_wakeup).
Definition end_op : M lstate unit :=
  do_commit ← end_enter;
  if (do_commit : bool) then commit;; end_leave else mret tt.

(** The index of [b] among the first [n] logged blocks, or [n]. *)
Fixpoint absorb (bl : list Z) (n : nat) (b : Z) : nat :=
  match n, bl with
  | S n, x :: bl => if x =? b then 0 else S (absorb bl n b)
  | _, _ => 0
  end.
Definition log_write (b : nat) : M lstate unit :=
  l ← gets lt_log;
  panic_if ((LOGSIZE <=? lg_n l) || (lg_size l - 1 <=? lg_n l)) "too big a transaction";;
  panic_if (lg_outstanding l <? 1) "log_write outside of trans";;
  under_log (
    n ← log_get lg_n;
    bl ← log_get lg_block;
    r ← deref (fun v => bk_bufs v.1.2 !! b);
    let i := absorb bl (Z.to_nat n) (b_blockno r) in
    log_do (set_lhblock (<[i := b_blockno r]> bl));;
    (if Z.of_nat i =? n then log_do (set_lhn (n + 1)) else mret tt);;
    modify (fun v => (v.1.1, set_bufs (<[b := set_flags (Z.lor (b_flags r) B_DIRTY) r]> (bk_bufs v.1.2)) v.1.2, v.2))).
End code.
