(* ===== verification/LogFacts.v ===== *)
(** The log's routines against the block layer's contract: which blocks they write
    to disk, and in which order. *)

From stdpp Require Import base tactics numbers option list gmap fin_maps sets strings.
From Stdlib Require Import ZArith Lia.
From S2P Require Import Prelude ProcDefs Spinlock Block BlockFacts BioFacts Bytes Log.

(** * Images under a sequence of writes *)

Definition write : Type := Z * Z * list Z.
Definition wkey (w : write) : Z := w.1.2.
Fixpoint replay (I : image) (ws : list write) : image :=
  match ws with [] => I | w :: ws => replay (upd I (wkey w) w.2) ws end.

Lemma replay_app I ws ws' : replay I (ws ++ ws') = replay (replay I ws) ws'.
Proof. revert I. induction ws as [|w ws IH]; intros I; cbn; [done|]. apply IH. Qed.

Lemma replay_notin I ws n : n ∉ wkey <$> ws -> replay I ws n = I n.
Proof.
  revert I. induction ws as [|w ws IH]; intros I; cbn; [done|]. intros Hn.
  rewrite IH by set_solver. apply upd_ne. set_solver.
Qed.

Lemma replay_in I ws w : NoDup (wkey <$> ws) -> w ∈ ws -> replay I ws (wkey w) = w.2.
Proof.
  revert I. induction ws as [|x ws IH]; intros I; cbn; [by intros _ ?%not_elem_of_nil|].
  intros [Hx Hnd]%NoDup_cons [->|Hw]%elem_of_cons; [|by apply IH].
  rewrite replay_notin by done. apply upd_eq.
Qed.

Lemma replay_ext I J ws n : (forall m, I m = J m) -> replay I ws n = replay J ws n.
Proof.
  revert I J. induction ws as [|w ws IH]; intros I J H; cbn; [apply H|]. apply IH.
  intros m. unfold upd. by destruct (decide _).
Qed.

Lemma bok_ext s V V' D D' dirty held : (forall n, V n = V' n) -> (forall n, D n = D' n) ->
  bok s V D dirty held -> bok s V' D' dirty held.
Proof.
  intros HV HD [H1 H2 H3 H4 H5 H6 H7 H8 H9 H10]. split; auto.
  - intros i r Hi. specialize (H5 i r Hi). unfold slot_ok in *. by rewrite <-HV.
  - intros n Hn Hh. rewrite <-HV, <-HD. auto.
  - intros n. by rewrite <-HD.
Qed.

(** * The state of the log *)

(** The block layer's contract, the log [l] with its lock free, and the writes so far. *)
Record lok (s : lstate) (V D : image) (dirty : gset Z) (held : gmap nat Z) (l : logrec) (h : list write) : Prop := {
  lk_bok : bok (lt_bs s) V D dirty held;
  lk_free : lk_locked (lt_lk s) = 0;
  lk_log : lt_log s = l;
  lk_hist : history (lt_bs s) = h
}.

Lemma lok_ext s V V' D D' dirty held l h : (forall n, V n = V' n) -> (forall n, D n = D' n) ->
  lok s V D dirty held l h -> lok s V' D' dirty held l h.
Proof. intros HV HD [H1 H2 H3 H4]. split; [by eapply bok_ext|done..]. Qed.

Lemma wp_on_bs {A} (m : M bstate A) (Q : A -> lstate -> Prop) s :
  wp m (fun a t => Q a (set_bs t s)) (lt_bs s) -> wp (on_bs m) Q s.
Proof. intros H. unfold on_bs. by apply wp_zoom. Qed.

Section calls.
Context (me : nat) (pid : Z).
Implicit Types (s : lstate) (V D : image).

Lemma lbread_spec s V D dirty held l h n (Q : nat -> lstate -> Prop) :
  lok s V D dirty held l h -> lg_dev l = ROOTDEV -> 0 <= n < FSSIZE ->
  (forall i, held !! i <> Some n) -> n ∈ dirty \/ (size (in_use dirty held) < NBUF)%nat ->
  (forall b s', held !! b = None -> lok s' V D dirty (<[b := n]> held) l h -> Q b s') ->
  wp (lbread me pid n) Q s.
Proof.
  intros [H1 H2 H3 H4] Hd Hn Hh Hroom HQ. unfold lbread. wp_steps. rewrite H3, Hd.
  rewrite u32_small by (unfold FSSIZE in *; lia). apply wp_on_bs.
  eapply wp_mono; [by eapply bread_spec|]. cbn beta. intros b t (Hb & Ht & Hi).
  apply HQ; [done|]. split; cbn; [done|done|done|congruence].
Qed.

Lemma brelse_lspec s V D dirty held l h b n (Q : unit -> lstate -> Prop) :
  lok s V D dirty held l h -> held !! b = Some n -> n ∈ dirty \/ V n = D n ->
  (forall s', lok s' V D dirty (delete b held) l h -> Q tt s') -> wp (on_bs (brelse me b)) Q s.
Proof.
  intros [H1 H2 H3 H4] Hb Hok HQ. apply wp_on_bs. eapply wp_mono; [by eapply brelse_spec|].
  cbn beta. intros [] t [Ht Hi]. apply HQ. split; cbn; [done|done|done|congruence].
Qed.

(** Writing [d] to the held block [n]. *)
Lemma bset_bwrite_lspec s V D dirty held l h b n d (Q : unit -> lstate -> Prop) :
  lok s V D dirty held l h -> held !! b = Some n ->
  (forall s', lok s' (upd V n d) (upd D n d) (dirty ∖ {[n]}) held l (h ++ [(ROOTDEV, n, d)]) -> Q tt s') ->
  wp (on_bs (bset b d);; on_bs (bwrite me b)) Q s.
Proof.
  intros [H1 H2 H3 H4] Hb HQ. wp_step. apply wp_on_bs. eapply wp_mono; [by eapply bset_spec|].
  cbn beta. intros [] t1 [Ht1 Hi1]. apply wp_on_bs. eapply wp_mono; [by eapply bwrite_spec|].
  cbn beta. intros [] t2 [Ht2 Hi2]. rewrite upd_eq in Ht2, Hi2. cbn [lt_bs set_bs] in Hi2.
  apply HQ. split; [done|done|done|]. change (history t2 = h ++ [(ROOTDEV, n, d)]). by rewrite Hi2, Hi1, H4.
Qed.

Lemma copy_block_spec s V D dirty held l h from to n m (Q : unit -> lstate -> Prop) :
  lok s V D dirty held l h -> held !! from = Some m -> held !! to = Some n ->
  (forall s', lok s' (upd V n (V m)) (upd D n (V m)) (dirty ∖ {[n]}) held l (h ++ [(ROOTDEV, n, V m)]) -> Q tt s') ->
  wp (copy_block me from to) Q s.
Proof.
  intros H Hf Ht HQ. unfold copy_block. wp_step. apply wp_on_bs. eapply bget_data_spec; [apply H|done|].
  assert (H' : lok (set_bs (lt_bs s) s) V D dirty held l h) by (by destruct H).
  by eapply bset_bwrite_lspec.
Qed.

(** Room for one more buffer when nothing is held. *)
Lemma room_empty dirty : (size dirty < NBUF)%nat -> (size (in_use dirty ∅) < NBUF)%nat.
Proof. unfold in_use. intros. by rewrite map_img_empty_L, union_empty_r_L. Qed.
Lemma room_one dirty b n : (size dirty + 1 < NBUF)%nat -> (size (in_use dirty (<[b := n]> ∅)) < NBUF)%nat.
Proof.
  unfold in_use. intros. rewrite map_img_insert_notin_L, map_img_empty_L, union_empty_r_L by apply lookup_empty.
  eapply Nat.le_lt_trans; [|exact H]. rewrite union_comm_L.
  pose proof (size_union_alt ({[n]} : gset Z) dirty) as ->. rewrite size_singleton.
  assert (size (dirty ∖ {[n]}) <= size dirty)%nat by (apply subseteq_size; set_solver). lia.
Qed.

(** * Transactions *)

(** The log that mkfs makes: [LOGSIZE] blocks, the first of them the header. *)
Definition in_log (start n : Z) : Prop := start <= n < start + LOGSIZE.
Definition log_addr (start : Z) (i : nat) : Z := start + Z.of_nat i + 1.

(** The log is inside the disk; the logged blocks are distinct, outside the log, and
    neither the boot block nor the super block. *)
Record tx_ok (start : Z) (bl : list Z) : Prop := {
  tx_start : 0 < start /\ start + LOGSIZE <= FSSIZE;
  tx_nodup : NoDup bl;
  tx_blocks : Forall (fun b => 1 < b < FSSIZE /\ ~ in_log start b) bl;
  tx_len : Z.of_nat (length bl) < LOGSIZE
}.
(** The in-memory header lists [bl]. *)
Record logged (l : logrec) (bl : list Z) : Prop := {
  ll_dev : lg_dev l = ROOTDEV;
  ll_n : lg_n l = Z.of_nat (length bl);
  ll_blocks : take (length bl) (lg_block l) = bl
}.

Lemma logged_lookup l bl i b : logged l bl -> bl !! i = Some b -> lg_block l !! i = Some b.
Proof.
  intros [_ _ H] Hi. rewrite <-H in Hi. apply lookup_take_Some in Hi as [? _]. done.
Qed.
Lemma tx_lookup start bl i b : tx_ok start bl -> bl !! i = Some b ->
  0 <= b < FSSIZE /\ ~ in_log start b /\ in_log start (log_addr start i) /\ 0 <= log_addr start i < FSSIZE.
Proof.
  intros [[Hs1 Hs2] _ Hb Hl] Hi. rewrite Forall_lookup in Hb. destruct (Hb i b Hi) as [? ?].
  apply lookup_lt_Some in Hi. unfold in_log, log_addr, LOGSIZE, MAXOPBLOCKS in *. split_and!; try lia; done.
Qed.

(** The writes of [write_log] and [install_trans] from position [i] on. *)
Fixpoint log_writes (start : Z) (V : image) (i : nat) (bl : list Z) : list write :=
  match bl with
  | [] => []
  | b :: bl => (ROOTDEV, log_addr start i, V b) :: log_writes start V (S i) bl
  end.
Fixpoint install_writes (start : Z) (V : image) (i : nat) (bl : list Z) : list write :=
  match bl with
  | [] => []
  | b :: bl => (ROOTDEV, b, V (log_addr start i)) :: install_writes start V (S i) bl
  end.

Lemma log_writes_ext start V V' i bl : (forall b, b ∈ bl -> V b = V' b) ->
  log_writes start V i bl = log_writes start V' i bl.
Proof.
  revert i. induction bl as [|b bl IH]; intros i H; cbn; [done|]. rewrite H by set_solver.
  f_equal. apply IH. set_solver.
Qed.
Lemma install_writes_ext start V V' i bl : (forall a, in_log start a -> V a = V' a) ->
  Z.of_nat (i + length bl) < LOGSIZE -> 0 <= start ->
  install_writes start V i bl = install_writes start V' i bl.
Proof.
  revert i. induction bl as [|b bl IH]; intros i H Hl Hs; cbn in *; [done|].
  rewrite H by (unfold in_log, log_addr; lia). f_equal. apply IH; [done|lia|done].
Qed.

Lemma write_one_spec s V D dirty l h i b (Q : unit -> lstate -> Prop) bl :
  lok s V D dirty ∅ l h -> logged l bl -> tx_ok (lg_start l) bl -> bl !! i = Some b ->
  b ∈ dirty -> (size dirty < NBUF)%nat -> log_addr (lg_start l) i ∉ dirty ->
  (forall s', lok s' (upd V (log_addr (lg_start l) i) (V b)) (upd D (log_addr (lg_start l) i) (V b)) dirty ∅ l
      (h ++ [(ROOTDEV, log_addr (lg_start l) i, V b)]) -> Q tt s') ->
  wp (write_one me pid i) Q s.
Proof.
  intros H Hl Htx Hi Hbd Hsz Had HQ. destruct (tx_lookup _ _ _ _ Htx Hi) as (Hb & Hbl & Hal & Ha).
  set (a := log_addr (lg_start l) i) in *. assert (Hab : a <> b) by (by intros ->).
  unfold write_one. wp_steps. rewrite (lk_log _ _ _ _ _ _ _ H).
  eapply lbread_spec; [done|apply Hl|exact Ha|intros j; by rewrite lookup_empty|right; by apply room_empty|].
  intros to s1 _ H1. wp_step. eapply wp_deref.
  { rewrite (lk_log _ _ _ _ _ _ _ H1). by eapply logged_lookup. }
  wp_step. eapply lbread_spec; [done|apply Hl|exact Hb| |by left|].
  { intros j. rewrite lookup_insert_Some, lookup_empty. naive_solver. }
  intros from s2 Hft H2. assert (Hne : from <> to) by (intros ->; by rewrite lookup_insert_eq in Hft).
  wp_step. eapply (copy_block_spec _ _ _ _ _ _ _ from to a b); [done|by rewrite lookup_insert_eq
    |rewrite lookup_insert_ne by done; by rewrite lookup_insert_eq|].
  intros s3 H3. assert (dirty ∖ {[a]} = dirty) as E by set_solver. rewrite E in H3.
  wp_step. eapply (brelse_lspec _ _ _ _ _ _ _ from b); [done|by rewrite lookup_insert_eq|by left|].
  rewrite delete_insert_id by done. intros s4 H4.
  eapply (brelse_lspec _ _ _ _ _ _ _ to a); [done|by rewrite lookup_insert_eq|right; by rewrite !upd_eq|].
  rewrite delete_insert_id by apply lookup_empty. done.
Qed.

Lemma write_loop_spec bl suf i s V D dirty l h :
  drop i bl = suf -> lok s V D dirty ∅ l h -> logged l bl -> tx_ok (lg_start l) bl ->
  (forall b, b ∈ bl -> b ∈ dirty) -> (forall a, in_log (lg_start l) a -> a ∉ dirty) -> (size dirty < NBUF)%nat ->
  wp (for_each (write_one me pid) (seq i (length suf))) (fun _ s' =>
    let lw := log_writes (lg_start l) V i suf in
    lok s' (replay V lw) (replay D lw) dirty ∅ l (h ++ lw)) s.
Proof.
  revert i s V D h. induction suf as [|b suf IH]; intros i s V D h Hd H Hl Htx Hbd Had Hsz.
  { cbn. apply wp_ret. by rewrite app_nil_r. }
  assert (Hi : bl !! i = Some b) by (rewrite <-(Nat.add_0_r i), <-lookup_drop, Hd; done).
  cbn [length seq for_each]. wp_step.
  destruct (tx_lookup _ _ _ _ Htx Hi) as (_ & _ & Hal & _).
  eapply write_one_spec; [done..|apply Hbd; by eapply list_elem_of_lookup_2|done|by apply Had|].
  intros s1 H1. eapply wp_mono.
  { apply (IH (S i)); [|done..]. by rewrite (drop_S _ _ _ Hi) in Hd; injection Hd. }
  cbn beta zeta. intros [] s2 H2. cbn [log_writes replay wkey fst snd].
  rewrite (log_writes_ext _ (upd V _ _) V) in H2; [by rewrite <-(assoc_L (++)) in H2|].
  intros b' Hb'. apply upd_ne. intros ->.
  assert (Hin : log_addr (lg_start l) i ∈ bl).
  { rewrite <-(take_drop i bl), Hd. set_solver. }
  apply list_elem_of_lookup in Hin as [j Hj]. by destruct (tx_lookup _ _ _ _ Htx Hj) as (_ & ? & _).
Qed.

Lemma write_head_spec s V D dirty l h (Q : unit -> lstate -> Prop) :
  lok s V D dirty ∅ l h -> lg_dev l = ROOTDEV -> 0 <= lg_start l < FSSIZE -> (size dirty < NBUF)%nat ->
  lg_start l ∉ dirty ->
  (forall s', let d := put_head (lg_n l) (lg_block l) (V (lg_start l)) in
    lok s' (upd V (lg_start l) d) (upd D (lg_start l) d) dirty ∅ l (h ++ [(ROOTDEV, lg_start l, d)]) -> Q tt s') ->
  wp (write_head me pid) Q s.
Proof.
  intros H Hd Hs Hsz Hnd HQ. unfold write_head. wp_steps. rewrite (lk_log _ _ _ _ _ _ _ H).
  eapply lbread_spec; [done|done|done|intros j; by rewrite lookup_empty|right; by apply room_empty|].
  intros b s1 _ H1. wp_step. apply wp_on_bs. eapply bget_data_spec; [apply H1|by rewrite lookup_insert_eq|].
  assert (H1' : lok (set_bs (lt_bs s1) s1) V D dirty (<[b := lg_start l]> ∅) l h) by (by destruct H1).
  set (d := put_head _ _ _) in *.
  assert (Hrun : wp (on_bs (bset b d);; on_bs (bwrite me b))
    (fun _ s2 => wp (on_bs (brelse me b)) Q s2) (set_bs (lt_bs s1) s1)).
  { eapply (bset_bwrite_lspec _ _ _ _ _ _ _ b (lg_start l)); [done|by rewrite lookup_insert_eq|].
    intros s2 H2. assert (dirty ∖ {[lg_start l]} = dirty) as E by set_solver. rewrite E in H2.
    eapply (brelse_lspec _ _ _ _ _ _ _ b (lg_start l)); [done|by rewrite lookup_insert_eq|right; by rewrite !upd_eq|].
    rewrite delete_insert_id by apply lookup_empty. intros s3 H3. by apply HQ. }
  apply wp_unbind in Hrun. wp_step. eapply wp_mono; [exact Hrun|]. cbn beta. intros [] s2 H2. by wp_step.
Qed.

(** One round of [install_trans]: the destination is pinned, or there is room for it. *)
Lemma install_one_spec s V D dirty l h i b (Q : unit -> lstate -> Prop) bl :
  lok s V D dirty ∅ l h -> logged l bl -> tx_ok (lg_start l) bl -> bl !! i = Some b ->
  (size dirty < NBUF)%nat -> b ∈ dirty \/ dirty = ∅ ->
  V (log_addr (lg_start l) i) = D (log_addr (lg_start l) i) ->
  (forall s', lok s' (upd V b (V (log_addr (lg_start l) i))) (upd D b (V (log_addr (lg_start l) i))) (dirty ∖ {[b]}) ∅ l
      (h ++ [(ROOTDEV, b, V (log_addr (lg_start l) i))]) -> Q tt s') ->
  wp (install_one me pid i) Q s.
Proof.
  intros H Hl Htx Hi Hsz Hbd HVD HQ. destruct (tx_lookup _ _ _ _ Htx Hi) as (Hb & Hbl & Hal & Ha).
  set (a := log_addr (lg_start l) i) in *. assert (Hab : a <> b) by (by intros ->).
  unfold install_one. wp_steps. rewrite (lk_log _ _ _ _ _ _ _ H).
  eapply lbread_spec; [done|apply Hl|exact Ha|intros j; by rewrite lookup_empty|right; by apply room_empty|].
  intros lbuf s1 _ H1. wp_step. eapply wp_deref.
  { rewrite (lk_log _ _ _ _ _ _ _ H1). by eapply logged_lookup. }
  wp_step. eapply lbread_spec; [done|apply Hl|exact Hb| | |].
  { intros j. rewrite lookup_insert_Some, lookup_empty. naive_solver. }
  { destruct Hbd as [?| ->]; [by left|right]. apply room_one. rewrite size_empty. unfold NBUF. lia. }
  intros dbuf s2 Hft H2. assert (Hne : dbuf <> lbuf) by (intros ->; by rewrite lookup_insert_eq in Hft).
  wp_step. eapply (copy_block_spec _ _ _ _ _ _ _ lbuf dbuf b a); [done
    |rewrite lookup_insert_ne by done; by rewrite lookup_insert_eq|by rewrite lookup_insert_eq|].
  intros s3 H3. wp_step. rewrite insert_insert_ne in H3 by done.
  eapply (brelse_lspec _ _ _ _ _ _ _ lbuf a); [done|by rewrite lookup_insert_eq|right; by rewrite !upd_ne|].
  rewrite delete_insert_id by (rewrite lookup_insert_ne by done; apply lookup_empty). intros s4 H4.
  eapply (brelse_lspec _ _ _ _ _ _ _ dbuf b); [done|by rewrite lookup_insert_eq|right; by rewrite !upd_eq|].
  rewrite delete_insert_id by apply lookup_empty. done.
Qed.

(** In [commit] the blocks still to install are pinned; in recovery none is. *)
Definition still_pinned (pinned : bool) (suf : list Z) : gset Z := if pinned then list_to_set suf else ∅.

Lemma install_loop_spec pinned bl suf i s V D l h :
  drop i bl = suf -> lok s V D (still_pinned pinned suf) ∅ l h -> logged l bl -> tx_ok (lg_start l) bl ->
  (length bl < NBUF)%nat ->
  wp (for_each (install_one me pid) (seq i (length suf))) (fun _ s' =>
    let iw := install_writes (lg_start l) V i suf in
    lok s' (replay V iw) (replay D iw) ∅ ∅ l (h ++ iw)) s.
Proof.
  revert i s V D h. induction suf as [|b suf IH]; intros i s V D h Hd H Hl Htx Hn.
  { cbn. apply wp_ret. rewrite app_nil_r. by destruct pinned. }
  assert (Hi : bl !! i = Some b) by (rewrite <-(Nat.add_0_r i), <-lookup_drop, Hd; done).
  assert (Hlt := lookup_lt_Some _ _ _ Hi). assert (Hlen := f_equal length Hd). rewrite length_drop in Hlen. cbn in Hlen.
  assert (Hnd : NoDup (b :: suf)).
  { pose proof (tx_nodup _ _ Htx) as Hnd. rewrite <-(take_drop i bl), Hd in Hnd. by apply NoDup_app in Hnd as (_&_&?). }
  destruct (tx_lookup _ _ _ _ Htx Hi) as (_ & Hbl & Hal & _).
  cbn [length seq for_each]. wp_step. eapply install_one_spec; [done..| | | |].
  - unfold still_pinned. destruct pinned; [|rewrite size_empty; unfold NBUF; lia].
    rewrite size_list_to_set by done. cbn. lia.
  - unfold still_pinned. destruct pinned; [left; set_solver|by right].
  - apply (bo_clean _ _ _ _ _ (lk_bok _ _ _ _ _ _ _ H)); [|intros j; by rewrite lookup_empty].
    unfold still_pinned. destruct pinned; [|set_solver]. rewrite elem_of_list_to_set. intros Hin.
    assert (Hin' : log_addr (lg_start l) i ∈ bl) by (rewrite <-(take_drop i bl), Hd; set_solver).
    apply list_elem_of_lookup in Hin' as [j Hj]. by destruct (tx_lookup _ _ _ _ Htx Hj) as (_ & ? & _).
  - intros s1 H1. eapply wp_mono.
    { apply (IH (S i)); [by rewrite (drop_S _ _ _ Hi) in Hd; injection Hd| |done..].
      assert (still_pinned pinned (b :: suf) ∖ {[b]} = still_pinned pinned suf) as <-; [|done].
      unfold still_pinned. apply NoDup_cons in Hnd as [Hnb _]. destruct pinned; [|set_solver].
      cbn. set_solver. }
    cbn beta zeta. intros [] s2 H2. cbn [install_writes replay wkey fst snd].
    rewrite (install_writes_ext _ (upd V _ _) V) in H2; [by rewrite <-(assoc_L (++)) in H2| | |].
    + intros a Ha. apply upd_ne. by intros ->.
    + destruct Htx. lia.
    + destruct Htx. lia.
Qed.

Lemma set_n_spec s V D dirty held l h n : lok s V D dirty held l h ->
  wp (set_n n) (fun _ s' => lok s' V D dirty held (set_lhn n l) h) s.
Proof. intros [H1 H2 H3 H4]. apply wp_modify. split; cbn; [done|done|by rewrite H3|done]. Qed.

(** * Commit *)

(** The writes of [commit], in order. *)
Definition commit_writes (start : Z) (V : image) (bl blocks : list Z) : list write :=
  let lw := log_writes start V 0 bl in
  let hd1 := put_head (Z.of_nat (length bl)) blocks (V start) in
  let hd0 := put_head 0 blocks hd1 in
  let iw := install_writes start (upd (replay V lw) start hd1) 0 bl in
  lw ++ [(ROOTDEV, start, hd1)] ++ iw ++ [(ROOTDEV, start, hd0)].

Lemma log_writes_keys start V i bl : wkey <$> log_writes start V i bl = log_addr start <$> seq i (length bl).
Proof. revert i. induction bl as [|b bl IH]; intros i; cbn; [done|]. by rewrite IH. Qed.
Lemma install_writes_keys start V i bl : wkey <$> install_writes start V i bl = bl.
Proof. revert i. induction bl as [|b bl IH]; intros i; cbn; [done|]. by rewrite IH. Qed.

Lemma log_keys_in_log start i (bl : list Z) : 0 <= start -> Z.of_nat (i + length bl) < LOGSIZE ->
  Forall (fun a => in_log start a /\ a <> start) (log_addr start <$> seq i (length bl)).
Proof.
  intros Hs Hl. apply Forall_forall. intros a (j & -> & Hj)%list_elem_of_fmap.
  apply elem_of_seq in Hj. unfold in_log, log_addr. lia.
Qed.

Lemma commit_spec s V D l h bl : lok s V D (list_to_set bl) ∅ l h -> logged l bl -> tx_ok (lg_start l) bl ->
  bl <> [] -> (length bl < NBUF)%nat ->
  wp (commit me pid) (fun _ s' =>
    let ws := commit_writes (lg_start l) V bl (lg_block l) in
    lok s' (replay V ws) (replay D ws) ∅ ∅ (set_lhn 0 l) (h ++ ws)) s.
Proof.
  intros H Hl Htx Hne Hlen. set (start := lg_start l) in *.
  assert (Hn : lg_n l = Z.of_nat (length bl)) by apply Hl. pose proof (tx_nodup _ _ Htx) as Hnd.
  assert (Hsz : (size (list_to_set bl : gset Z) < NBUF)%nat) by (by rewrite size_list_to_set).
  assert (Hout : forall a, in_log start a -> a ∉ (list_to_set bl : gset Z)).
  { intros a Ha. rewrite elem_of_list_to_set. intros [j Hj]%list_elem_of_lookup.
    by destruct (tx_lookup _ _ _ _ Htx Hj) as (_ & ? & _). }
  assert (Hst : 0 < start /\ start + LOGSIZE <= FSSIZE) by apply Htx.
  assert (Hsin : in_log start start) by (unfold in_log, LOGSIZE, MAXOPBLOCKS; lia).
  unfold commit. wp_steps. rewrite (lk_log _ _ _ _ _ _ _ H), Hn.
  destruct (Z.ltb_spec 0 (Z.of_nat (length bl))) as [_|?]; [|destruct bl; cbn in *; [done|lia]].
  unfold write_log. wp_steps. rewrite (lk_log _ _ _ _ _ _ _ H), Hn, Nat2Z.id.
  eapply wp_mono; [by apply (write_loop_spec bl bl 0); [done..| |done|]; intros; [set_solver|auto]|].
  cbn beta zeta. intros [] s1 H1. fold start in H1. set (lw := log_writes start V 0 bl) in *. wp_step.
  assert (HVs : replay V lw start = V start).
  { apply replay_notin. unfold lw. rewrite log_writes_keys. intros Hin.
    pose proof (log_keys_in_log start 0 bl ltac:(lia) (tx_len _ _ Htx)) as Hf.
    rewrite Forall_forall in Hf. by apply Hf in Hin as [_ ?]. }
  eapply write_head_spec; [done|apply Hl|unfold LOGSIZE, MAXOPBLOCKS in *; lia|done|by apply Hout|].
  intros s2. cbn zeta. fold start. rewrite HVs, Hn. set (hd1 := put_head _ _ (V start)). intros H2. wp_step.
  unfold install_trans. wp_steps. rewrite (lk_log _ _ _ _ _ _ _ H2), Hn, Nat2Z.id.
  eapply wp_mono; [by apply (install_loop_spec true bl bl 0)|]. cbn beta zeta. intros [] s3 H3. fold start in H3.
  set (iw := install_writes start _ 0 bl) in *. wp_step. eapply wp_mono; [by apply set_n_spec|].
  cbn beta. intros [] s4 H4. assert (HVs' : replay (upd (replay V lw) start hd1) iw start = hd1).
  { rewrite replay_notin; [apply upd_eq|]. unfold iw. rewrite install_writes_keys.
    intros Hin. apply (Hout start Hsin). set_solver. }
  eapply write_head_spec; [done|apply Hl|cbn; fold start; unfold LOGSIZE, MAXOPBLOCKS in *; lia
    |rewrite size_empty; unfold NBUF; lia|set_solver|].
  intros s5. cbn [lg_start lg_n lg_block set_lhn]. fold start. cbn zeta. rewrite HVs'. intros H5.
  unfold commit_writes. fold lw hd1 iw. rewrite !replay_app. cbn [replay wkey fst snd].
  by rewrite <-!(assoc_L (++)) in H5.
Qed.
End calls.
