(* ===== verification/LogCrash.v ===== *)
(** Crash safety of the log.

    A disk image stands for the file system it would be after recovery: the home
    blocks, with the blocks of a committed transaction taken from the log.  Every
    disk write of [commit] and of recovery keeps this meaning, except the one write
    of the header that commits, which changes it from the old state to the new. *)

From stdpp Require Import base tactics numbers option list gmap fin_maps sets strings.
From Stdlib Require Import ZArith Lia.
From S2P Require Import Prelude ProcDefs Spinlock Block BlockFacts BioFacts Bytes Log LogFacts.

(** * The header block *)

Definition header_n (d : list Z) : Z := s32 (ld32 0 d).
Definition header_blocks (d : list Z) : list Z :=
  (fun i => s32 (ld32 (hoff i) d)) <$> seq 0 (Z.to_nat (header_n d)).

Lemma put_blocks_length i bl d : (hoff (i + length bl) <= length d)%nat -> length (put_blocks i bl d) = length d.
Proof.
  revert i d. induction bl as [|b bl IH]; intros i d Hl; cbn [put_blocks]; [done|]. unfold hoff in *. cbn in Hl.
  rewrite IH.
  - apply st32_length. lia.
  - rewrite st32_length; lia.
Qed.

Lemma put_blocks_other i bl d off : (hoff (i + length bl) <= length d)%nat ->
  (off + 4 <= hoff i \/ hoff (i + length bl) <= off)%nat -> ld32 off (put_blocks i bl d) = ld32 off d.
Proof.
  revert i d. induction bl as [|b bl IH]; intros i d Hl Ho; cbn [put_blocks]; [done|]. unfold hoff in *. cbn in Hl, Ho.
  rewrite IH; [|rewrite st32_length; lia|lia]. rewrite ld32_st32_other; [done|lia|lia].
Qed.

Lemma put_blocks_at i bl d j b : (hoff (i + length bl) <= length d)%nat -> bl !! j = Some b ->
  ld32 (hoff (i + j)) (put_blocks i bl d) = u32 b.
Proof.
  revert i d j. induction bl as [|x bl IH]; intros i d j Hl Hj; cbn [put_blocks]; [done|]. unfold hoff in Hl. cbn in Hl.
  destruct j as [|j]; cbn in Hj.
  - injection Hj as ->. rewrite Nat.add_0_r.
    rewrite put_blocks_other; [|unfold hoff; rewrite st32_length; lia|unfold hoff; lia].
    apply ld32_st32. unfold hoff. lia.
  - replace (i + S j)%nat with (S i + j)%nat by lia. apply IH; [unfold hoff; rewrite st32_length; lia|done].
Qed.

(** [write_head] and [read_head] agree on the header's format. *)
Lemma header_round_trip n blocks d : length d = Z.to_nat BSIZE -> 0 <= n <= LOGSIZE ->
  (Z.to_nat n <= length blocks)%nat -> Forall (fun b => - 2 ^ 31 <= b < 2 ^ 31) blocks ->
  header_n (put_head n blocks d) = n /\ header_blocks (put_head n blocks d) = take (Z.to_nat n) blocks /\
  length (put_head n blocks d) = Z.to_nat BSIZE.
Proof.
  intros Hd Hn Hl Hb. unfold LOGSIZE, MAXOPBLOCKS in *. change (Z.to_nat BSIZE) with 512%nat in *.
  assert (Hlt : length (take (Z.to_nat n) blocks) = Z.to_nat n) by (rewrite length_take; lia).
  assert (Hoff : (hoff (0 + length (take (Z.to_nat n) blocks)) <= length (st32 0 n d))%nat)
    by (rewrite st32_length by lia; unfold hoff; lia).
  assert (Hhn : header_n (put_head n blocks d) = n).
  { unfold header_n, put_head. rewrite put_blocks_other by (done || unfold hoff; lia).
    rewrite ld32_st32 by lia. rewrite s32_u32. apply s32_small. lia. }
  split; [done|]. split.
  - unfold header_blocks. rewrite Hhn. apply list_eq. intros i. rewrite list_lookup_fmap.
    destruct (decide (i < Z.to_nat n)%nat) as [Hi|Hi].
    + rewrite lookup_seq_lt by done. cbn [fmap option_fmap option_map].
      destruct (lookup_lt_is_Some_2 (take (Z.to_nat n) blocks) i ltac:(lia)) as [b Hib].
      rewrite Hib. unfold put_head. rewrite (put_blocks_at 0 _ _ i b) by done.
      rewrite s32_u32, s32_small; [done|]. rewrite Forall_lookup in Hb. apply lookup_take_Some in Hib as [Hib _]. by eapply Hb.
    + rewrite lookup_seq_ge by lia. rewrite lookup_take_ge by lia. done.
  - unfold put_head. rewrite put_blocks_length by done. rewrite st32_length; lia.
Qed.

(** * What a disk image means *)

Section meaning.
Context (start : Z).

Definition meaning (I : image) : image :=
  replay I (install_writes start I 0 (header_blocks (I start))).

(** The same home blocks. *)
Definition agree (I J : image) : Prop := forall n, ~ in_log start n -> I n = J n.

(** The header is well-formed. *)
Definition header_ok (I : image) : Prop :=
  length (I start) = Z.to_nat BSIZE /\ 0 <= header_n (I start) < Z.of_nat NBUF /\ tx_ok start (header_blocks (I start)).

Lemma meaning_empty I : header_n (I start) = 0 -> meaning I = I.
Proof. intros H. unfold meaning, header_blocks. by rewrite H. Qed.

Lemma install_writes_lookup V i bl j b : bl !! j = Some b ->
  (ROOTDEV, b, V (log_addr start (i + j))) ∈ install_writes start V i bl.
Proof.
  revert i j. induction bl as [|x bl IH]; intros i j Hj; [done|]. destruct j as [|j]; cbn in Hj |- *.
  - injection Hj as ->. rewrite Nat.add_0_r. by left.
  - right. replace (i + S j)%nat with (S i + j)%nat by lia. by apply IH.
Qed.

Lemma meaning_logged I i b : NoDup (header_blocks (I start)) -> header_blocks (I start) !! i = Some b ->
  meaning I b = I (log_addr start i).
Proof.
  intros Hnd Hi. unfold meaning. pose proof (install_writes_lookup I 0 _ _ _ Hi) as Hin.
  apply (replay_in I) in Hin; [done|]. by rewrite install_writes_keys.
Qed.
Lemma meaning_home I n : n ∉ header_blocks (I start) -> meaning I n = I n.
Proof. intros Hn. unfold meaning. apply replay_notin. by rewrite install_writes_keys. Qed.

(** The meaning depends on the log and on the home blocks that are not in it. *)
Lemma meaning_ext I J : tx_ok start (header_blocks (I start)) ->
  (forall a, in_log start a -> J a = I a) ->
  (forall n, n ∉ header_blocks (I start) -> ~ in_log start n -> J n = I n) ->
  agree (meaning J) (meaning I).
Proof.
  intros Htx Hlog Hhome n Hn. assert (Hs : J start = I start).
  { apply Hlog. destruct Htx. unfold in_log, LOGSIZE, MAXOPBLOCKS in *. lia. }
  destruct (decide (n ∈ header_blocks (I start))) as [Hin|Hnin].
  - apply list_elem_of_lookup in Hin as [i Hi]. rewrite (meaning_logged I i n) by (done || apply Htx).
    rewrite (meaning_logged J i n) by (rewrite Hs; done || apply Htx). apply Hlog.
    by destruct (tx_lookup _ _ _ _ Htx Hi) as (_ & _ & ? & _).
  - rewrite !meaning_home by (rewrite ?Hs; done). by apply Hhome.
Qed.
End meaning.

(** * Crashes during commit *)

Section commit.
Context (start : Z) (V D : image) (bl blocks : list Z).
Context (Htx : tx_ok start bl) (Hlen : (length bl < NBUF)%nat).
Context (Hempty : header_n (D start) = 0) (Hsize : length (D start) = Z.to_nat BSIZE).
Context (Hclean : forall n, n ∉ bl -> V n = D n).
Context (Hblocks : take (length bl) blocks = bl) (Hint : Forall (fun b => - 2 ^ 31 <= b < 2 ^ 31) blocks).

Local Abbreviation lw := (log_writes start V 0 bl).
Local Abbreviation hd1 := (put_head (Z.of_nat (length bl)) blocks (V start)).
Local Abbreviation iw := (install_writes start (upd (replay V lw) start hd1) 0 bl).

Lemma start_in_log : in_log start start.
Proof using Type. clear. unfold in_log, LOGSIZE, MAXOPBLOCKS. lia. Qed.
Lemma logged_not_in_log n : n ∈ bl -> ~ in_log start n.
Proof. intros [i Hi]%list_elem_of_lookup. by destruct (tx_lookup _ _ _ _ Htx Hi) as (_ & ? & _). Qed.
Lemma start_clean : V start = D start.
Proof. apply Hclean. intros H%logged_not_in_log. apply H, start_in_log. Qed.

Lemma lw_keys n : n ∈ wkey <$> lw -> in_log start n /\ n <> start.
Proof.
  rewrite log_writes_keys. intros Hin. destruct Htx.
  pose proof (log_keys_in_log start 0 bl ltac:(lia) tx_len) as Hf. rewrite Forall_forall in Hf. auto.
Qed.

Lemma log_writes_lookup i bl' j b : bl' !! j = Some b ->
  (ROOTDEV, log_addr start (i + j), V b) ∈ log_writes start V i bl'.
Proof.
  revert i j. induction bl' as [|x bl' IH]; intros i j Hj; [done|]. destruct j as [|j]; cbn in Hj |- *.
  - injection Hj as ->. rewrite Nat.add_0_r. by left.
  - right. replace (i + S j)%nat with (S i + j)%nat by lia. by apply IH.
Qed.
Lemma replay_lw I j b : bl !! j = Some b -> replay I lw (log_addr start j) = V b.
Proof.
  intros Hj. pose proof (log_writes_lookup 0 bl j b Hj) as Hin. apply (replay_in I) in Hin; [done|].
  rewrite log_writes_keys. apply NoDup_fmap_2; [|apply NoDup_seq].
  intros x y. unfold log_addr. lia.
Qed.

Lemma header1 : header_n hd1 = Z.of_nat (length bl) /\ header_blocks hd1 = bl /\ length hd1 = Z.to_nat BSIZE.
Proof.
  assert (Hl : (length bl <= length blocks)%nat).
  { assert (H := f_equal length Hblocks). rewrite length_take in H. lia. }
  destruct (header_round_trip (Z.of_nat (length bl)) blocks (V start)) as (? & Hb & ?).
  - by rewrite start_clean.
  - pose proof (tx_len _ _ Htx). lia.
  - lia.
  - done.
  - rewrite Nat2Z.id, Hblocks in Hb. done.
Qed.
Lemma header0 : header_n (put_head 0 blocks hd1) = 0 /\ length (put_head 0 blocks hd1) = Z.to_nat BSIZE.
Proof.
  destruct header1 as (_ & _ & Hl).
  destruct (header_round_trip 0 blocks hd1) as (? & _ & ?); try done. lia.
Qed.

Lemma empty_header_ok J : length (J start) = Z.to_nat BSIZE -> header_n (J start) = 0 -> header_ok start J.
Proof.
  intros Hl Hn. split; [done|]. rewrite Hn. split; [unfold NBUF; lia|].
  assert (header_blocks (J start) = []) as -> by (unfold header_blocks; by rewrite Hn).
  destruct Htx as [? _ _ _].
  split; [done|constructor|constructor|cbn; unfold LOGSIZE, MAXOPBLOCKS; lia].
Qed.

(** While the log is being written the image means the old state. *)
Lemma before_commit k : (k <= length bl)%nat -> let J := replay D (take k lw) in
  header_ok start J /\ agree start (meaning start J) D.
Proof.
  intros Hk J. assert (Hkeys : forall n, n ∈ wkey <$> take k lw -> in_log start n /\ n <> start).
  { intros n (w & -> & Hw)%list_elem_of_fmap. apply lw_keys. apply list_elem_of_fmap_2.
    eapply elem_of_take in Hw as (i & Hi & _). by eapply list_elem_of_lookup_2. }
  assert (HJ : J start = D start) by (apply replay_notin; intros [_ ?]%Hkeys; done).
  split; [apply empty_header_ok; by rewrite HJ|]. rewrite meaning_empty by (by rewrite HJ).
  intros n Hn. apply replay_notin. by intros [? _]%Hkeys.
Qed.

(** The state right after the header is written. *)
Definition committed : image := upd (replay D lw) start hd1.

Lemma committed_start : committed start = hd1.
Proof. apply upd_eq. Qed.
Lemma committed_log j b : bl !! j = Some b -> committed (log_addr start j) = V b.
Proof.
  intros Hj. unfold committed. rewrite upd_ne by (unfold log_addr; lia). by apply replay_lw.
Qed.
Lemma committed_home n : n ∉ bl -> ~ in_log start n -> committed n = V n.
Proof.
  intros Hn Hl. unfold committed. rewrite upd_ne by (intros ->; by apply Hl, start_in_log).
  rewrite Hclean by done. apply replay_notin. by intros [? _]%lw_keys.
Qed.

Lemma committed_meaning : agree start (meaning start committed) V.
Proof.
  destruct header1 as (_ & Hb & _). intros n Hn.
  assert (Hhb : header_blocks (committed start) = bl) by (by rewrite committed_start).
  destruct (decide (n ∈ bl)) as [[i Hi]%list_elem_of_lookup|Hnin].
  - rewrite (meaning_logged start committed i n) by (rewrite Hhb; done || apply Htx).
    by apply committed_log.
  - rewrite meaning_home by (by rewrite Hhb). by apply committed_home.
Qed.

(** While the transaction is being installed the image means the new state. *)
Lemma during_install k : let J := replay committed (take k iw) in
  header_ok start J /\ agree start (meaning start J) V.
Proof.
  intros J. destruct header1 as (Hn1 & Hb & Hl).
  assert (Hkeys : forall n, n ∈ wkey <$> take k iw -> n ∈ bl).
  { intros n (w & -> & Hw)%list_elem_of_fmap. rewrite <-(install_writes_keys start (upd (replay V lw) start hd1) 0 bl).
    apply list_elem_of_fmap_2. eapply elem_of_take in Hw as (i & Hi & _). by eapply list_elem_of_lookup_2. }
  assert (HJ : forall a, in_log start a -> J a = committed a).
  { intros a Ha. apply replay_notin. intros H%Hkeys%logged_not_in_log. done. }
  assert (HJs : J start = hd1) by (rewrite HJ by apply start_in_log; apply committed_start).
  split.
  - unfold header_ok. rewrite HJs, Hn1, Hb. split; [done|]. split; [lia|done].
  - intros n Hn. rewrite <-(committed_meaning n Hn).
    assert (Hhb : header_blocks (committed start) = bl) by (by rewrite committed_start).
    apply meaning_ext; rewrite ?Hhb; try done. intros m Hm _. apply replay_notin. intros H%Hkeys. done.
Qed.

Lemma after_install : let J := upd (replay committed iw) start (put_head 0 blocks hd1) in
  header_ok start J /\ header_n (J start) = 0 /\ agree start J V.
Proof.
  destruct header0 as [Hn0 Hl0]. intros J. assert (HJ : J start = put_head 0 blocks hd1) by apply upd_eq.
  split; [apply empty_header_ok; by rewrite HJ|]. split; [by rewrite HJ|]. intros n Hn.
  unfold J. rewrite upd_ne by (intros ->; by apply Hn, start_in_log).
  destruct (decide (n ∈ bl)) as [[i Hi]%list_elem_of_lookup|Hnin].
  - pose proof (install_writes_lookup start (upd (replay V lw) start hd1) 0 _ _ _ Hi) as Hin.
    apply (replay_in committed) in Hin; [|rewrite install_writes_keys; apply Htx].
    cbn [wkey fst snd Nat.add] in Hin. rewrite Hin, upd_ne by (unfold log_addr; lia). by apply replay_lw.
  - rewrite replay_notin by (by rewrite install_writes_keys). by apply committed_home.
Qed.

Lemma lw_length V0 i (bl' : list Z) : length (log_writes start V0 i bl') = length bl'.
Proof. revert i. induction bl' as [|b bl' IH]; intros i; cbn; [done|]. by rewrite IH. Qed.

(** After any number of the writes of [commit] the image is well-formed, and means
    the old state up to the write of the header and the new one from it on. *)
Lemma commit_prefix k : let J := replay D (take k (commit_writes start V bl blocks)) in
  header_ok start J /\ agree start (meaning start J) (if decide (k <= length bl)%nat then D else V).
Proof.
  unfold commit_writes. cbn zeta. case_decide as Hk.
  - rewrite take_app_le by (by rewrite lw_length). by apply before_commit.
  - rewrite take_app_ge by (rewrite lw_length; lia). rewrite lw_length.
    destruct (k - length bl)%nat as [|j] eqn:Ej; [lia|]. cbn [app take].
    rewrite replay_app. cbn [replay wkey fst snd]. fold committed.
    destruct (decide (j <= length iw)%nat).
    + rewrite take_app_le by done. apply during_install.
    + rewrite take_ge by (rewrite length_app; cbn; lia). rewrite replay_app. cbn [replay wkey fst snd].
      destruct after_install as (? & Hn & ?). split; [done|]. by rewrite meaning_empty.
Qed.
End commit.

(** * Recovery *)

Section recovery.
Context (me : nat) (pid : Z).

Lemma read_blocks_spec d k i s V D dirty held l h :
  lok s V D dirty held l h -> (i + k <= length (lg_block l))%nat ->
  wp (for_each (fun i =>
    store (fun s => if decide (i < length (lg_block (lt_log s)))%nat
                    then Some (set_log (set_lhblock (<[i := s32 (ld32 (hoff i) d)]> (lg_block (lt_log s))) (lt_log s)) s)
                    else None)) (seq i k))
    (fun _ s' => exists bl, lok s' V D dirty held (set_lhblock bl l) h /\ length bl = length (lg_block l) /\
       (forall j, (i <= j < i + k)%nat -> bl !! j = Some (s32 (ld32 (hoff j) d))) /\
       (forall j, ~ (i <= j < i + k)%nat -> bl !! j = lg_block l !! j)) s.
Proof.
  revert i s l. induction k as [|k IH]; intros i s l H Hk; cbn [seq for_each].
  - apply wp_ret. exists (lg_block l). split; [by destruct l|]. split; [done|]. split; [lia|done].
  - wp_step. eapply wp_store.
    { rewrite (lk_log _ _ _ _ _ _ _ H), decide_True by lia. done. }
    set (l1 := set_lhblock (<[i := s32 (ld32 (hoff i) d)]> (lg_block l)) l).
    assert (H1 : lok (set_log l1 s) V D dirty held l1 h) by (destruct H; by split).
    assert (Hk1 : (S i + k <= length (lg_block l1))%nat) by (cbn; rewrite length_insert; lia).
    eapply wp_mono; [apply (IH (S i) _ l1 H1 Hk1)|]. cbn beta. intros [] s2 (bl & H2 & Hlen & Hin & Hout).
    exists bl. split; [done|]. split; [rewrite Hlen; cbn; by rewrite length_insert|]. split.
    + intros j Hj. destruct (decide (j = i)) as [->|]; [|apply Hin; lia].
      rewrite Hout by lia. cbn. apply list_lookup_insert_eq. lia.
    + intros j Hj. rewrite Hout by lia. cbn. apply list_lookup_insert_ne. lia.
Qed.

Lemma read_head_spec s V D l h (Q : unit -> lstate -> Prop) :
  lok s V D ∅ ∅ l h -> lg_dev l = ROOTDEV -> length (lg_block l) = Z.to_nat LOGSIZE ->
  Forall (fun b => - 2 ^ 31 <= b < 2 ^ 31) (lg_block l) -> header_ok (lg_start l) V ->
  (forall s' bl, let l' := set_lhblock bl (set_lhn (header_n (V (lg_start l))) l) in
    lok s' V D ∅ ∅ l' h -> logged l' (header_blocks (V (lg_start l))) ->
    length bl = Z.to_nat LOGSIZE -> Forall (fun b => - 2 ^ 31 <= b < 2 ^ 31) bl -> Q tt s') ->
  wp (read_head me pid) Q s.
Proof.
  intros H Hdev Hlb Hint (Hlen & Hn & Htx) HQ. set (d := V (lg_start l)) in *.
  unfold read_head. wp_steps. rewrite (lk_log _ _ _ _ _ _ _ H).
  assert (Hst : 0 <= lg_start l < FSSIZE) by (destruct Htx; unfold LOGSIZE, MAXOPBLOCKS in *; lia).
  eapply lbread_spec; [done|done|done|intros j; by rewrite lookup_empty|right; apply room_empty; rewrite size_empty; unfold NBUF; lia|].
  intros b s1 _ H1. wp_step. apply wp_on_bs. eapply bget_data_spec; [apply H1|by rewrite lookup_insert_eq|]. fold d.
  wp_steps. set (l1 := set_lhn (header_n d) l).
  set (s2 := set_log _ _). assert (H2 : lok s2 V D ∅ (<[b := lg_start l]> ∅) l1 h).
  { destruct H1 as [? ? E ?]. split; cbn; [done|done|by rewrite E|done]. }
  rewrite (lk_log _ _ _ _ _ _ _ H2). cbn [lg_n l1 set_lhn].
  eapply wp_mono; [apply (read_blocks_spec d _ 0 s2 _ _ _ _ l1 _ H2)|].
  { cbn. rewrite Hlb. unfold NBUF, LOGSIZE, MAXOPBLOCKS in *. lia. }
  cbn beta. intros [] s3 (bl & H3 & Hbl & Hin & Hout). cbn in Hbl.
  eapply (brelse_lspec _ _ _ _ _ _ _ _ b (lg_start l)); [done|by rewrite lookup_insert_eq|right|].
  { apply (bo_clean _ _ _ _ _ (lk_bok _ _ _ _ _ _ _ H)); [set_solver|intros j; by rewrite lookup_empty]. }
  rewrite delete_insert_id by apply lookup_empty. intros s4 H4. eapply HQ; [done|..]; cbn [lg_block set_lhblock].
  - assert (Hhl : length (header_blocks d) = Z.to_nat (header_n d)) by (unfold header_blocks; by rewrite length_fmap, length_seq).
    split; cbn; [done|rewrite Hhl; lia|]. apply list_eq. intros i.
    rewrite Hhl. unfold header_blocks. rewrite list_lookup_fmap. destruct (decide (i < Z.to_nat (header_n d))%nat).
    + rewrite lookup_take_lt, lookup_seq_lt by lia. apply Hin. lia.
    + rewrite lookup_take_ge, lookup_seq_ge by lia. done.
  - congruence.
  - apply Forall_lookup. intros i x Hx. destruct (decide (i < Z.to_nat (header_n d))%nat).
    + rewrite Hin in Hx by lia. injection Hx as <-. apply s32_range.
    + rewrite Hout in Hx by lia. cbn in Hx. rewrite Forall_lookup in Hint. by eapply Hint.
Qed.

(** The writes of recovery on an image: install the logged blocks, clear the header. *)
Definition recovery_writes (start : Z) (I : image) (blocks : list Z) : list write :=
  install_writes start I 0 (header_blocks (I start)) ++ [(ROOTDEV, start, put_head 0 blocks (I start))].

Lemma recover_spec s I l h : lok s I I ∅ ∅ l h -> lg_dev l = ROOTDEV ->
  length (lg_block l) = Z.to_nat LOGSIZE -> Forall (fun b => - 2 ^ 31 <= b < 2 ^ 31) (lg_block l) ->
  header_ok (lg_start l) I ->
  wp (recover_from_log me pid) (fun _ s' => exists blocks,
    let ws := recovery_writes (lg_start l) I blocks in
    Forall (fun b => - 2 ^ 31 <= b < 2 ^ 31) blocks /\ length blocks = Z.to_nat LOGSIZE /\
    lok s' (replay I ws) (replay I ws) ∅ ∅ (set_lhn 0 (set_lhblock blocks l)) (h ++ ws)) s.
Proof.
  intros H Hdev Hlb Hint Hok. unfold recover_from_log. wp_step. eapply read_head_spec; [done..|].
  intros s1 blocks l1 H1 Hl1 Hlb1 Hint1.
  assert (El1 : l1 = set_lhblock blocks (set_lhn (header_n (I (lg_start l))) l)) by reflexivity. clearbody l1.
  assert (Hst : lg_start l1 = lg_start l) by (by rewrite El1). destruct Hok as (Hlen & Hn & Htx). set (start := lg_start l) in *.
  assert (Hhl : (length (header_blocks (I start)) < NBUF)%nat)
    by (unfold header_blocks; rewrite length_fmap, length_seq; unfold NBUF in *; lia).
  wp_step. unfold install_trans. wp_steps. rewrite (lk_log _ _ _ _ _ _ _ H1), (ll_n _ _ Hl1), Nat2Z.id.
  eapply wp_mono; [apply (install_loop_spec me pid false (header_blocks (I start)) (header_blocks (I start)) 0 s1); [done|done|done|by rewrite Hst|done]|].
  cbn beta zeta. rewrite Hst. intros [] s2 H2. set (iw := install_writes start I 0 _) in *. wp_step.
  eapply wp_mono; [by apply set_n_spec|]. cbn beta. intros [] s3 H3.
  assert (Hs : replay I iw start = I start).
  { apply replay_notin. unfold iw. rewrite install_writes_keys. intros [i Hi]%list_elem_of_lookup.
    destruct (tx_lookup _ _ _ _ Htx Hi) as (_ & Hb & _). apply Hb. unfold in_log, LOGSIZE, MAXOPBLOCKS. lia. }
  eapply write_head_spec; [done|apply Hl1| |rewrite size_empty; unfold NBUF; lia|set_solver|].
  { cbn. rewrite Hst. destruct Htx. unfold LOGSIZE, MAXOPBLOCKS in *. lia. }
  intros s4. cbn [lg_start lg_n lg_block set_lhn]. cbn zeta. rewrite Hst, Hs. intros H4.
  assert (Hbl : lg_block l1 = blocks) by (by rewrite El1). rewrite Hbl in H4.
  exists blocks. cbn zeta. split; [done|]. split; [done|]. rewrite El1 in H4.
  unfold recovery_writes. fold iw. rewrite replay_app. cbn [replay wkey fst snd].
  by rewrite <-(assoc_L (++)) in H4.
Qed.
End recovery.

(** Recovery may itself be interrupted: every prefix of its writes keeps the meaning,
    and all of them leave the meaning as the disk's home blocks. *)
Lemma recovery_prefix start I blocks k : header_ok start I -> Forall (fun b => - 2 ^ 31 <= b < 2 ^ 31) blocks ->
  let J := replay I (take k (recovery_writes start I blocks)) in
  header_ok start J /\ agree start (meaning start J) (meaning start I).
Proof.
  intros (Hlen & Hn & Htx) Hint. unfold recovery_writes. set (bl := header_blocks (I start)) in *.
  set (iw := install_writes start I 0 bl). assert (Hin : in_log start start) by (unfold in_log, LOGSIZE, MAXOPBLOCKS; lia).
  assert (Hkeys : forall j n, n ∈ wkey <$> take j iw -> n ∈ bl).
  { intros j n (w & -> & Hw)%list_elem_of_fmap. rewrite <-(install_writes_keys start I 0 bl).
    apply list_elem_of_fmap_2. eapply elem_of_take in Hw as (i & Hi & _). by eapply list_elem_of_lookup_2. }
  assert (Hlog : forall j a, in_log start a -> replay I (take j iw) a = I a).
  { intros j a Ha. apply replay_notin. intros [i Hi]%Hkeys%list_elem_of_lookup.
    by destruct (tx_lookup _ _ _ _ Htx Hi) as (_ & ? & _). }
  destruct (decide (k <= length iw)%nat) as [Hk|Hk].
  - rewrite take_app_le by done. cbn zeta. set (J := replay I (take k iw)).
    assert (HJs : J start = I start) by (by apply Hlog). split.
    + unfold header_ok. by rewrite HJs.
    + apply meaning_ext; [done|intros a Ha; by apply Hlog|]. intros n Hnb _. apply replay_notin. by intros ?%Hkeys.
  - rewrite take_ge by (rewrite length_app; cbn; lia). rewrite replay_app. cbn [replay wkey fst snd]. cbn zeta.
    set (J := upd _ start _). assert (HJs : J start = put_head 0 blocks (I start)) by apply upd_eq.
    destruct (header_round_trip 0 blocks (I start)) as (H0 & _ & Hl0); [done|unfold LOGSIZE, MAXOPBLOCKS; lia|lia|done|].
    split.
    + split; [by rewrite HJs|]. rewrite HJs, H0. split; [unfold NBUF; lia|].
      assert (header_blocks (put_head 0 blocks (I start)) = []) as -> by (unfold header_blocks; by rewrite H0).
      destruct Htx. split; [done|constructor|constructor|cbn; unfold LOGSIZE, MAXOPBLOCKS; lia].
    + rewrite (meaning_empty start J) by (by rewrite HJs). intros n Hnl. unfold J.
      rewrite upd_ne by (intros ->; by apply Hnl). done.
Qed.

Lemma recovery_final start I blocks : header_ok start I ->
  agree start (replay I (recovery_writes start I blocks)) (meaning start I).
Proof.
  intros (_ & _ & Htx) n Hn. unfold recovery_writes. rewrite replay_app. cbn [replay wkey fst snd].
  apply upd_ne. intros ->. apply Hn. destruct Htx. unfold in_log, LOGSIZE, MAXOPBLOCKS. lia.
Qed.

(** The super block is not among the writes of recovery. *)
Lemma recovery_keeps_sb start J blocks k : 1 < start -> tx_ok start (header_blocks (J start)) ->
  replay J (take k (recovery_writes start J blocks)) 1 = J 1.
Proof.
  intros Hs Htx. apply replay_notin. intros (w & E1 & Hw)%list_elem_of_fmap.
  apply elem_of_take in Hw as (i & Hi & _). apply list_elem_of_lookup_2 in Hi.
  apply (list_elem_of_fmap_2 wkey) in Hi. rewrite <-E1 in Hi. unfold recovery_writes in Hi.
  rewrite fmap_app, install_writes_keys in Hi. cbn in Hi.
  apply elem_of_app in Hi as [Hi|Hi]; [|apply list_elem_of_singleton in Hi; lia].
  pose proof (tx_blocks _ _ Htx) as Hf. rewrite Forall_forall in Hf. destruct (Hf _ Hi). lia.
Qed.

(** * Power failures *)

(** A machine that starts with image [I] on its root disk. *)
Definition disk_of (I : image) : device :=
  MkDevice (fun _ => 0) IDE_DRDY (fun dev n => if dev =? ROOTDEV then I n else []) [].
Definition power_on (sp : spins) (I : image) : lstate :=
  MkLstate (bcache_start sp (disk_of I)) (initlock EmptyString) zero_log 0.
(** The part of boot that brings the disk up: [binit] and [initlog]. *)
Definition boot_fs (me : nat) (pid : Z) : M lstate unit :=
  on_bs (on_blocks binit);; initlog me pid ROOTDEV.

(** The superblock places the log. *)
Definition sb_ok (start : Z) (I : image) : Prop := s32 (sb_logstart (decode_sb (I 1))) = start /\ 1 < start.

Section power.
Context (me : nat) (pid : Z) (sp : spins) (Hsp : spins_ok sp).

Lemma boot_fs_spec start I : sb_ok start I -> header_ok start I ->
  wp (boot_fs me pid) (fun _ s' => exists blocks,
    let ws := recovery_writes start I blocks in
    Forall (fun b => - 2 ^ 31 <= b < 2 ^ 31) blocks /\ length blocks = Z.to_nat LOGSIZE /\
    lok s' (replay I ws) (replay I ws) ∅ ∅
      (MkLogrec start (s32 (sb_nlog (decode_sb (I 1)))) 0 0 ROOTDEV 0 blocks) ws) (power_on sp I).
Proof.
  intros [Hsb Hs1] Hok. unfold boot_fs. wp_step. apply wp_on_bs.
  eapply wp_mono; [apply (binit_spec sp (disk_of I)); done|]. cbn beta. intros [] t [Ht Hh].
  change (dv_disk (disk_of I) ROOTDEV) with I in Ht. cbn in Hh.
  unfold initlog. wp_step. apply wp_panic_if; [done|]. wp_step. apply wp_modify. wp_step. apply wp_on_bs.
  unfold readsb. cbn [lt_bs set_ltlk set_bs]. wp_step.
  eapply wp_mono; [apply (bread_spec me pid t _ _ _ _ 1 Ht); [done|intros j; by rewrite lookup_empty|]|].
  { right. apply room_empty. rewrite size_empty. unfold NBUF. lia. }
  cbn beta. intros b t1 (_ & Ht1 & Hh1). wp_step. eapply bget_data_spec; [done|by rewrite lookup_insert_eq|].
  wp_step. eapply wp_mono; [eapply brelse_spec; [done|by rewrite lookup_insert_eq|by right]|].
  cbn beta. rewrite delete_insert_id by apply lookup_empty. intros [] t2 [Ht2 Hh2]. wp_steps.
  rewrite Hsb. set (s0 := set_log _ _).
  assert (H0 : lok s0 I I ∅ ∅ (set_where start (s32 (sb_nlog (decode_sb (I 1)))) ROOTDEV zero_log) []).
  { split; [done|done|done|]. change (history t2 = []). by rewrite Hh2, Hh1. }
  eapply wp_mono; [apply (recover_spec me pid s0 I _ [] H0); [done|done| |done]|].
  { apply Forall_replicate. lia. }
  cbn beta zeta. intros [] s' (blocks & Hb & Hl & H'). exists blocks. done.
Qed.

(** [reboots I J]: starting from [I], any number of boots that each lost power after some
    of their writes have left the image [J]. *)
Inductive reboots (I : image) : image -> Prop :=
  | rb_none : reboots I I
  | rb_crash J s k : reboots I J -> boot_fs me pid (power_on sp J) = Ok (tt, s) ->
      reboots I (replay J (take k (history (lt_bs s)))).

Lemma reboots_keep start I J : 1 < start -> sb_ok start I -> header_ok start I -> reboots I J ->
  sb_ok start J /\ header_ok start J /\ agree start (meaning start J) (meaning start I).
Proof.
  intros Hs1 Hsb Hok. induction 1 as [|J s k _ (HsbJ & HokJ & HagJ) E]; [done|].
  destruct (proj1 (wp_ok _ _ _) (boot_fs_spec start J HsbJ HokJ)) as ([] & s1 & E1 & Hb).
  assert (s1 = s) as -> by congruence. clear E E1.
  destruct Hb as (blocks & Hint & _ & Hl). rewrite (lk_hist _ _ _ _ _ _ _ Hl).
  destruct (recovery_prefix start J blocks k HokJ Hint) as [Hok' Hag']. split; [|split; [done|]].
  - destruct HsbJ as [HsbJ _]. split; [|done]. etrans; [|exact HsbJ]. do 3 f_equal.
    apply recovery_keeps_sb; [done|apply HokJ].
  - intros n Hn. by rewrite Hag', HagJ.
Qed.

(** The super block is not among the writes of a commit. *)
Lemma commit_keeps_sb start V D bl blocks k : 1 < start -> tx_ok start bl ->
  replay D (take k (commit_writes start V bl blocks)) 1 = D 1.
Proof.
  intros Hs Htx. apply replay_notin. intros (w & E1 & Hw)%list_elem_of_fmap.
  apply elem_of_take in Hw as (i & Hi & _). apply list_elem_of_lookup_2 in Hi.
  apply (list_elem_of_fmap_2 wkey) in Hi. rewrite <-E1 in Hi. unfold commit_writes in Hi.
  rewrite !fmap_app, log_writes_keys, install_writes_keys in Hi. cbn in Hi.
  repeat rewrite elem_of_app, elem_of_cons in Hi. destruct Hi as [Hi|[Hi|[Hi|[Hi|Hi]]]]; try lia.
  - apply list_elem_of_fmap in Hi as (j & Hj & _). unfold log_addr in Hj. lia.
  - pose proof (tx_blocks _ _ Htx) as Hf. rewrite Forall_forall in Hf. destruct (Hf _ Hi). lia.
  - by apply not_elem_of_nil in Hi.
Qed.

(** Commit of a transaction with blocks [bl] completes, and wherever the power fails
    during it - after the first [k] disk writes - and however often it fails again
    while the machine recovers, the boot that completes finds the old state if the
    header had not been written and the new one if it had. *)
Lemma commit_crash_safe s V D l h bl :
  lok s V D (list_to_set bl) ∅ l h -> logged l bl -> tx_ok (lg_start l) bl -> bl <> [] ->
  (length bl < NBUF)%nat -> length (D (lg_start l)) = Z.to_nat BSIZE ->
  Forall (fun b => - 2 ^ 31 <= b < 2 ^ 31) (lg_block l) ->
  header_n (D (lg_start l)) = 0 -> sb_ok (lg_start l) D ->
  wp (commit me pid) (fun _ s' => exists ws D',
    lok s' D' D' ∅ ∅ (set_lhn 0 l) (h ++ ws) /\ agree (lg_start l) D' V /\
    header_n (D' (lg_start l)) = 0 /\ length (D' (lg_start l)) = Z.to_nat BSIZE /\ sb_ok (lg_start l) D' /\
    forall k J, reboots (replay D (take k ws)) J ->
      wp (boot_fs me pid) (fun _ s2 => exists R l2, lok s2 R R ∅ ∅ l2 (history (lt_bs s2)) /\
        agree (lg_start l) R (if decide (k <= length bl)%nat then D else V)) (power_on sp J)) s.
Proof.
  intros H Hl Htx Hne Hlen Hsize Hint Hempty Hsb. pose proof (lk_bok _ _ _ _ _ _ _ H) as Hb.
  assert (Hclean : forall n, n ∉ bl -> V n = D n).
  { intros n Hn. apply (bo_clean _ _ _ _ _ Hb); [set_solver|]. intros i. by rewrite lookup_empty. }
  assert (Hs1 : 1 < lg_start l) by apply Hsb. pose proof (ll_blocks _ _ Hl) as Hbl.
  eapply wp_mono; [by eapply commit_spec|]. cbn beta zeta. intros [] s' H'.
  set (ws := commit_writes _ _ _ _) in *. exists ws, (replay D ws).
  assert (Hkeep : forall k, sb_ok (lg_start l) (replay D (take k ws))).
  { intros k. destruct Hsb as [Hsb _]. split; [|exact Hs1]. unfold ws. by rewrite commit_keeps_sb. }
  assert (Hfin : header_ok (lg_start l) (replay D ws) /\ header_n (replay D ws (lg_start l)) = 0 /\
    agree (lg_start l) (replay D ws) V).
  { unfold ws, commit_writes. cbn zeta. rewrite !replay_app.
    exact (after_install (lg_start l) V D bl (lg_block l) Htx Hlen Hsize Hclean Hbl Hint). }
  destruct Hfin as ((Hfl & _) & Hfn & Hfa). split; [|split; [done|split; [done|split; [done|split]]]].
  - eapply lok_ext; [|done|exact H']. intros n.
    apply (bo_clean _ _ _ _ _ (lk_bok _ _ _ _ _ _ _ H')); [set_solver|]. intros i. by rewrite lookup_empty.
  - specialize (Hkeep (length ws)). by rewrite firstn_all in Hkeep.
  - intros k J HJ. destruct (commit_prefix (lg_start l) V D bl (lg_block l) Htx Hlen Hempty Hsize Hclean Hbl Hint k) as [Hok Hag].
    fold ws in Hok, Hag.
    destruct (reboots_keep (lg_start l) (replay D (take k ws)) J Hs1 (Hkeep k) Hok HJ) as (HsbJ & HokJ & HagJ).
    eapply wp_mono; [exact (boot_fs_spec (lg_start l) J HsbJ HokJ)|]. cbn beta zeta.
    intros [] s2 (blocks & _ & _ & H2). eexists _, _. split.
    + destruct H2 as [Hb2 Hf2 Hl2 Hh2]. split; [exact Hb2|exact Hf2|exact Hl2|reflexivity].
    + intros n Hn. rewrite (recovery_final _ _ _ HokJ n Hn), (HagJ n Hn). by apply Hag.
Qed.
End power.
