(* ===== verification/LogTx.v ===== *)
(** Transactions: [begin_op], [log_write] and [end_op] of log.c, from the start of a
    system call to its commit. *)

From stdpp Require Import base tactics numbers option list gmap fin_maps sets strings.
From Stdlib Require Import ZArith Lia.
From S2P Require Import Prelude ProcDefs Spinlock Block BlockFacts BioFacts Bytes Log LogFacts LogCrash.

Section tx.
Context (me : nat) (pid : Z).

Lemma wp_under_log {A} (m : M (logrec * blocks * nat) A) (Q : A -> lstate -> Prop) s :
  spins_ok (lt_bs s).1 -> lk_locked (lt_lk s) = 0 ->
  wp m (fun a v => forall sp lk, spins_ok sp -> lk_locked lk = 0 ->
    Q a (MkLstate (sp, v.1.2) lk v.1.1 v.2)) (lt_log s, (lt_bs s).2, lt_wakes s) ->
  wp (under_log me m) Q s.
Proof.
  intros Hsp Hl Hm. destruct Hsp as [Hc Hs2 Hs3 Hs4 Hs5]. unfold under_log, with_log_cpu. wp_step. apply wp_zoom.
  eapply wp_run; [by apply acquire_free|]. wp_step. apply wp_zoom. cbn [lt_log lt_bs lt_wakes lt_lk fst snd].
  eapply wp_mono; [exact Hm|]. cbn beta. intros a [[l t] w] HQ. cbn [fst snd] in HQ. wp_step. apply wp_zoom.
  cbn [lt_bs lt_lk fst snd sp_cpu]. eapply wp_run.
  { rewrite release_prefix; [|by apply entered_ok|destruct Hc; cbn; lia].
    unfold is_held. cbn. by rewrite bool_decide_eq_true_2. }
  wp_step. cbn [fst snd lt_bs lt_log lt_wakes sp_bcache sp_ide sp_guards]. apply HQ; [|done].
  split; cbn; [by apply left_entered_ok|done..].
Qed.

(** * Absorption *)

Lemma absorb_spec bl n b : (n <= length bl)%nat ->
  (absorb bl n b <= n)%nat /\
  ((absorb bl n b < n)%nat -> bl !! absorb bl n b = Some b) /\
  (absorb bl n b = n -> b ∉ take n bl).
Proof.
  revert bl. induction n as [|n IH]; intros bl Hl; destruct bl as [|x bl]; cbn in *; try lia.
  - split; [lia|]. split; [lia|]. intros _. apply not_elem_of_nil.
  - split; [lia|]. split; [lia|]. intros _. apply not_elem_of_nil.
  - destruct (Z.eqb_spec x b) as [->|Hne].
    + split; [lia|]. split; [done|]. lia.
    + destruct (IH bl ltac:(lia)) as (H1 & H2 & H3). split; [lia|]. split.
      * intros ?. apply H2. lia.
      * intros ?. rewrite elem_of_cons. intros [->|?]; [done|]. apply H3; [lia|done].
Qed.

(** The blocks of the transaction after [log_write] of block [n]. *)
Definition logged_after (bl : list Z) (n : Z) : list Z := if decide (n ∈ bl) then bl else bl ++ [n].

Lemma logged_after_nodup bl n : NoDup bl -> NoDup (logged_after bl n).
Proof.
  intros H. unfold logged_after. case_decide; [done|]. apply NoDup_app. split; [done|].
  split; [set_solver|apply NoDup_singleton].
Qed.

(** [log_write] has room for one more block. *)
Definition log_room (l : logrec) (bl : list Z) : Prop :=
  Z.of_nat (length bl) + 1 < LOGSIZE /\ Z.of_nat (length bl) < lg_size l - 1.

(** The in-memory header after [log_write] of block [n]. *)
Definition header_after (l : logrec) (bl : list Z) (n : Z) : logrec :=
  let i := absorb (lg_block l) (length bl) n in
  let l1 := set_lhblock (<[i := n]> (lg_block l)) l in
  if Z.of_nat i =? Z.of_nat (length bl) then set_lhn (Z.of_nat (length bl) + 1) l1 else l1.

Lemma header_after_logged l bl n : logged l bl -> (length bl < length (lg_block l))%nat ->
  logged (header_after l bl n) (logged_after bl n).
Proof.
  intros [Hd Hln Hbl] Hle. destruct (absorb_spec (lg_block l) (length bl) n ltac:(lia)) as (Ha1 & Ha2 & Ha3).
  rewrite Hbl in Ha3. unfold header_after, logged_after.
  set (i := absorb (lg_block l) (length bl) n) in *.
  destruct (Z.eqb_spec (Z.of_nat i) (Z.of_nat (length bl))) as [Ei|Ei].
  - assert (Hi : i = length bl) by lia. rewrite decide_False by (by apply Ha3). split; cbn; [done| |].
    + rewrite length_app. cbn. lia.
    + rewrite length_app, Hi, Nat.add_1_r. rewrite (take_S_r _ _ n) by (apply list_lookup_insert_eq; lia).
      by rewrite take_insert_ge, Hbl.
  - assert (Hi : (i < length bl)%nat) by lia. specialize (Ha2 Hi).
    assert (Hin : n ∈ bl).
    { rewrite <-Hbl. apply (list_elem_of_lookup_2 _ i). rewrite lookup_take_lt by lia. done. }
    rewrite decide_True by done. split; cbn; [done|done|]. by rewrite list_insert_id.
Qed.

Lemma log_write_spec s V D dirty held l h bl b n (Q : unit -> lstate -> Prop) :
  lok s V D dirty held l h -> logged l bl -> length (lg_block l) = Z.to_nat LOGSIZE ->
  held !! b = Some n -> log_room l bl -> 1 <= lg_outstanding l ->
  (forall s', lok s' V D ({[n]} ∪ dirty) held (header_after l bl n) h -> Q tt s') ->
  wp (log_write me b) Q s.
Proof.
  intros H Hl Hlen Hb [Hr1 Hr2] Ho HQ. pose proof (lk_bok _ _ _ _ _ _ _ H) as Hbok.
  destruct (bok_held _ _ _ _ _ _ _ Hbok Hb) as (r & Hr & Hs). apply slot_held in Hs as (_ & _ & Hn & _).
  pose proof (lk_log _ _ _ _ _ _ _ H) as El. destruct Hl as [Hd Hln Hbl].
  unfold log_write. wp_steps. rewrite El, Hln. apply wp_panic_if.
  { apply orb_false_iff. split; apply Z.leb_gt; lia. }
  wp_step. apply wp_panic_if; [apply Z.ltb_ge; lia|]. apply wp_under_log; [apply Hbok|apply H|].
  rewrite El. unfold log_get. wp_steps. cbn [fst snd]. rewrite Hln, Nat2Z.id.
  rewrite Hn. unfold log_do. wp_steps. cbn [fst snd].
  eapply (wp_mono _ (fun _ v => v = (header_after l bl n, (lt_bs s).2, lt_wakes s))).
  { unfold header_after. cbn zeta. destruct (Z.of_nat _ =? Z.of_nat (length bl)); wp_steps; done. }
  cbn beta. intros [] v ->. apply wp_modify. cbn [fst snd]. intros sp lk Hsp Hlk. apply HQ.
  split; [|done|done|apply H]. by apply (bok_pin (lt_bs s)).
Qed.

(** * One system call *)

(** Inside a transaction of one system call: [V] are the blocks as the call sees
    them, [D] the disk, [bl] the blocks logged so far. *)
Record intx (s : lstate) (V D : image) (bl : list Z) (l : logrec) (h : list write) : Prop := {
  it_lok : lok s V D (list_to_set bl) ∅ l h;
  it_logged : logged l bl;
  it_len : length (lg_block l) = Z.to_nat LOGSIZE;
  it_ints : Forall (fun b => - 2 ^ 31 <= b < 2 ^ 31) (lg_block l);
  it_out : lg_outstanding l = 1;
  it_com : lg_committing l = 0;
  it_tx : tx_ok (lg_start l) bl
}.

(** The usual update of a block: [bp = bread(n); modify; log_write(bp); brelse(bp)]. *)
Definition tx_put (n : Z) (f : list Z -> list Z) : M lstate unit :=
  b ← lbread me pid n;
  d ← on_bs (bget_data b);
  on_bs (bset b (f d));;
  log_write me b;;
  on_bs (brelse me b).

Lemma logged_after_set bl n : list_to_set (logged_after bl n) = ({[n]} ∪ list_to_set bl : gset Z).
Proof. unfold logged_after. case_decide; set_solver. Qed.
Lemma logged_after_length bl n : (length bl <= length (logged_after bl n) <= S (length bl))%nat.
Proof. unfold logged_after. case_decide; rewrite ?length_app; cbn; lia. Qed.

Lemma tx_ok_after start bl n : tx_ok start bl -> 1 < n < FSSIZE -> ~ in_log start n ->
  Z.of_nat (length bl) + 1 < LOGSIZE -> tx_ok start (logged_after bl n).
Proof.
  intros [H1 H2 H3 H4] Hn Hl Hlen. split; [done|by apply logged_after_nodup| |].
  - unfold logged_after. case_decide; [done|]. apply Forall_app. by split; [|apply Forall_singleton].
  - pose proof (logged_after_length bl n). lia.
Qed.

Lemma header_after_fields l bl n : length (lg_block (header_after l bl n)) = length (lg_block l) /\
  lg_start (header_after l bl n) = lg_start l /\ lg_size (header_after l bl n) = lg_size l /\
  lg_outstanding (header_after l bl n) = lg_outstanding l /\
  lg_committing (header_after l bl n) = lg_committing l /\
  (forall P : Z -> Prop, Forall P (lg_block l) -> P n -> Forall P (lg_block (header_after l bl n))).
Proof.
  unfold header_after. cbn zeta. destruct (_ =? _); cbn; rewrite length_insert; split_and!; try done;
    intros P HP Hn; by apply Forall_insert.
Qed.

Lemma tx_put_spec s V D bl l h n f (Q : unit -> lstate -> Prop) :
  intx s V D bl l h -> 1 < n < FSSIZE -> ~ in_log (lg_start l) n -> log_room l bl ->
  (forall s' l', intx s' (upd V n (f (V n))) D (logged_after bl n) l' h ->
    lg_start l' = lg_start l -> lg_size l' = lg_size l -> Q tt s') ->
  wp (tx_put n f) Q s.
Proof.
  intros [H Hl Hlen Hint Ho Hc Htx] Hn Hnl Hr HQ. unfold tx_put. wp_step.
  assert (Hsz : (size (list_to_set bl : gset Z) < NBUF)%nat).
  { rewrite size_list_to_set by apply Htx. destruct Hr. unfold LOGSIZE, MAXOPBLOCKS, NBUF in *. lia. }
  eapply lbread_spec; [done|apply Hl|lia|intros j; by rewrite lookup_empty|right; by apply room_empty|].
  intros b s1 _ H1. wp_step. apply wp_on_bs. eapply bget_data_spec; [apply H1|by rewrite lookup_insert_eq|].
  wp_step. apply wp_on_bs. eapply wp_mono; [eapply bset_spec; [apply H1|by rewrite lookup_insert_eq]|].
  cbn beta. intros [] t [Ht Hh]. set (s2 := set_bs t _).
  assert (H2 : lok s2 (upd V n (f (V n))) D (list_to_set bl) (<[b := n]> ∅) l h).
  { destruct H1 as [? ? ? Hi]. split; [done|done|done|]. change (history t = h). by rewrite Hh, <-Hi. }
  wp_step. eapply log_write_spec; [done|done|done|by rewrite lookup_insert_eq|done|lia|].
  intros s3 H3. eapply brelse_lspec; [done|by rewrite lookup_insert_eq|left; set_solver|].
  rewrite delete_insert_id by apply lookup_empty. intros s4 H4.
  destruct (header_after_fields l bl n) as (E1 & E2 & E3 & E4 & E5 & E6).
  eapply (HQ s4 (header_after l bl n)); [|done|done]. rewrite <-logged_after_set in H4.
  split; [done| |congruence| |congruence|congruence|].
  - apply header_after_logged; [done|]. rewrite Hlen. destruct Hr. unfold LOGSIZE, MAXOPBLOCKS in *. lia.
  - apply E6; [done|]. unfold FSSIZE in *. lia.
  - rewrite E2. apply tx_ok_after; try done. apply Hr.
Qed.

(** The writes of a system call, and their effect. *)
Definition update : Type := Z * (list Z -> list Z).
Fixpoint apply_updates (V : image) (ups : list update) : image :=
  match ups with [] => V | u :: ups => apply_updates (upd V u.1 (u.2 (V u.1))) ups end.
Fixpoint blocks_of (bl : list Z) (ups : list update) : list Z :=
  match ups with [] => bl | u :: ups => blocks_of (logged_after bl u.1) ups end.
Definition run_updates (ups : list update) : M lstate unit := for_each (fun u => tx_put u.1 u.2) ups.

Lemma run_updates_spec ups s V D bl l h (Q : unit -> lstate -> Prop) :
  intx s V D bl l h -> Forall (fun u : update => 1 < u.1 < FSSIZE /\ ~ in_log (lg_start l) u.1) ups ->
  Z.of_nat (length bl + length ups) < LOGSIZE -> Z.of_nat (length bl + length ups) <= lg_size l - 1 ->
  (forall s' l', intx s' (apply_updates V ups) D (blocks_of bl ups) l' h ->
    lg_start l' = lg_start l -> lg_size l' = lg_size l -> Q tt s') ->
  wp (run_updates ups) Q s.
Proof.
  revert s V bl l. induction ups as [|u ups IH]; intros s V bl l H Hf H1 H2 HQ; cbn in *.
  { apply wp_ret. by eapply HQ. }
  apply Forall_cons in Hf as [[Hu1 Hu2] Hf]. wp_step.
  eapply tx_put_spec; [done|done|done|unfold log_room; lia|]. intros s1 l1 Hs1 E1 E2.
  pose proof (logged_after_length bl u.1).
  eapply IH; [done|by rewrite E1|lia|rewrite E2; lia|]. intros s2 l2 Hs2 E3 E4.
  apply (HQ s2 l2); [done|congruence|congruence].
Qed.

(** Between system calls: nothing is pinned, held or reserved, the log on disk is empty. *)
Record quiesced (s : lstate) (D : image) (l : logrec) (h : list write) : Prop := {
  qu_lok : lok s D D ∅ ∅ l h;
  qu_logged : logged l [];
  qu_len : length (lg_block l) = Z.to_nat LOGSIZE;
  qu_ints : Forall (fun b => - 2 ^ 31 <= b < 2 ^ 31) (lg_block l);
  qu_out : lg_outstanding l = 0;
  qu_com : lg_committing l = 0;
  qu_tx : tx_ok (lg_start l) [];
  qu_head : header_n (D (lg_start l)) = 0;
  qu_size : length (D (lg_start l)) = Z.to_nat BSIZE;
  qu_sb : sb_ok (lg_start l) D
}.

Lemma begin_op_spec s D l h (Q : unit -> lstate -> Prop) : quiesced s D l h ->
  (forall s', intx s' D D [] (set_outstanding 1 l) h -> Q tt s') -> wp (begin_op me) Q s.
Proof.
  intros [H Hl Hlen Hint Ho Hc Htx _ _ _] HQ. unfold begin_op, begin_try. wp_step.
  apply wp_under_log; [apply H|apply H|]. rewrite (lk_log _ _ _ _ _ _ _ H). unfold log_get, log_do. wp_steps.
  cbn [fst snd]. rewrite Hc, Ho, (ll_n _ _ Hl). cbn [Z.eqb negb length Z.of_nat].
  change (LOGSIZE <? 0 + (0 + 1) * MAXOPBLOCKS) with false. wp_steps. cbn [fst snd]. intros sp lk Hsp Hlk. wp_steps.
  apply HQ. split; cbn; try done; [|by destruct Hl; split].
  split; cbn; [|done|done|apply H]. destruct (lk_bok _ _ _ _ _ _ _ H); by split.
Qed.

Lemma end_enter_spec s V D bl l h (Q : bool -> lstate -> Prop) : intx s V D bl l h ->
  (forall s', lok s' V D (list_to_set bl) ∅ (set_committing 1 (set_outstanding 0 l)) h -> Q true s') ->
  wp (end_enter me) Q s.
Proof.
  intros [H Hl Hlen Hint Ho Hc Htx] HQ. unfold end_enter. apply wp_under_log; [apply H|apply H|].
  rewrite (lk_log _ _ _ _ _ _ _ H). unfold log_get, log_do. wp_steps. cbn [fst snd]. apply wp_panic_if.
  { cbn. by rewrite Hc. }
  rewrite Ho. cbn [Z.sub Z.add Z.opp Z.eqb]. change (1 - 1 =? 0) with true. wp_steps. intros sp lk Hsp Hlk. apply HQ.
  split; cbn; [|done|done|apply H]. destruct (lk_bok _ _ _ _ _ _ _ H); by split.
Qed.

Lemma end_leave_spec s V D dirty held l h (Q : unit -> lstate -> Prop) : lok s V D dirty held l h ->
  (forall s', lok s' V D dirty held (set_committing 0 l) h -> Q tt s') -> wp (end_leave me) Q s.
Proof.
  intros H HQ. unfold end_leave. apply wp_under_log; [apply H|apply H|].
  rewrite (lk_log _ _ _ _ _ _ _ H). unfold log_do, log_wakeup. wp_steps. intros sp lk Hsp Hlk. apply HQ.
  split; cbn; [|done|done|apply H]. destruct (lk_bok _ _ _ _ _ _ _ H); by split.
Qed.

Section power.
Context (sp : spins) (Hsp : spins_ok sp).

(** From image [D], [ws] are the writes of a commit: losing power after any of them, any
    number of times, leaves [D] or [N] once a boot completes. *)
Definition crash_atomic (start : Z) (D N : image) (ws : list write) : Prop :=
  exists c, forall k J, reboots me pid sp (replay D (take k ws)) J ->
    wp (boot_fs me pid) (fun _ s2 => exists R l2, lok s2 R R ∅ ∅ l2 (history (lt_bs s2)) /\
      agree start R (if decide (k <= c)%nat then D else N)) (power_on sp J).

Lemma boot_meaning start I J : sb_ok start I -> header_ok start I -> reboots me pid sp I J ->
  wp (boot_fs me pid) (fun _ s2 => exists R l2, lok s2 R R ∅ ∅ l2 (history (lt_bs s2)) /\
    agree start R (meaning start I)) (power_on sp J).
Proof.
  intros Hsb Hok HJ. destruct (reboots_keep me pid sp Hsp start I J) as (HsbJ & HokJ & HagJ); [apply Hsb|exact Hsb|exact Hok|exact HJ|].
  eapply wp_mono; [exact (boot_fs_spec me pid sp Hsp start J HsbJ HokJ)|]. cbn beta zeta.
  intros [] s2 (blocks & _ & _ & [Hb2 Hf2 Hl2 Hh2]). eexists _, _. split.
  - split; [exact Hb2|exact Hf2|exact Hl2|reflexivity].
  - intros n Hn. rewrite (recovery_final _ _ _ HokJ n Hn). by apply HagJ.
Qed.

Lemma end_op_spec s V D bl l h : intx s V D bl l h -> (length bl < NBUF)%nat ->
  header_n (D (lg_start l)) = 0 -> length (D (lg_start l)) = Z.to_nat BSIZE -> sb_ok (lg_start l) D ->
  wp (end_op me pid) (fun _ s' => exists ws D' l', quiesced s' D' l' (h ++ ws) /\
    lg_start l' = lg_start l /\ lg_size l' = lg_size l /\ agree (lg_start l) D' V /\
    crash_atomic (lg_start l) D V ws) s.
Proof.
  intros H Hlen Hhead Hsize Hsb. unfold end_op. wp_step. eapply end_enter_spec; [done|]. intros s1 H1.
  destruct H as [_ [Hd Hln Hbl] Hlb Hint _ _ Htx]. set (l1 := set_committing 1 (set_outstanding 0 l)) in *.
  assert (Htx0 : tx_ok (lg_start l) []).
  { destruct Htx. split; [done|constructor|constructor|cbn; unfold LOGSIZE, MAXOPBLOCKS; lia]. }
  destruct (decide (bl = [])) as [->|Hne].
  - wp_step. unfold commit. wp_steps. rewrite (lk_log _ _ _ _ _ _ _ H1).
    change (lg_n l1) with (lg_n l). rewrite Hln. cbn [length Z.of_nat Z.ltb Z.compare]. wp_steps.
    eapply end_leave_spec; [done|]. intros s2 H2. cbn [list_to_set] in H2.
    assert (HVD : forall n, V n = D n).
    { intros n. apply (bo_clean _ _ _ _ _ (lk_bok _ _ _ _ _ _ _ H2)); [set_solver|]. intros i. by rewrite lookup_empty. }
    exists [], D, (set_committing 0 l1). split; [|split; [done|split; [done|split]]].
    + split; try done. rewrite app_nil_r. by eapply lok_ext; [..|exact H2].
    + intros n _. by rewrite HVD.
    + exists 0%nat. intros k J HJ. rewrite take_nil in HJ. cbn [replay] in HJ.
      assert (Hok : header_ok (lg_start l) D).
      { split; [done|]. rewrite Hhead. split; [unfold NBUF; lia|].
        unfold header_blocks. by rewrite Hhead. }
      eapply wp_mono; [exact (boot_meaning (lg_start l) D J Hsb Hok HJ)|]. cbn beta.
      rewrite meaning_empty by done. intros [] s3 (R & l2 & HR & Hag). exists R, l2. split; [done|].
      intros n Hn. rewrite (Hag n Hn). destruct (decide _); [done|]. by rewrite HVD.
  - wp_step. eapply wp_mono.
    { apply (commit_crash_safe me pid sp Hsp s1 V D l1 h bl); done. }
    cbn beta. intros [] s2 (ws & D' & H2 & Hag & Hh2 & Hl2 & Hsb2 & Hcr).
    eapply end_leave_spec; [done|]. intros s3 H3. exists ws, D', (set_committing 0 (set_lhn 0 l1)).
    split; [|split; [reflexivity|split; [reflexivity|split; [exact Hag|by exists (length bl); exact Hcr]]]].
    split; [exact H3|by split|exact Hlb|exact Hint|reflexivity|reflexivity|exact Htx0|exact Hh2|exact Hl2|exact Hsb2].
Qed.

(** Boot leaves the machine ready for transactions, on the file system that the
    image meant. *)
Lemma boot_quiesced start I : sb_ok start I -> header_ok start I ->
  wp (boot_fs me pid) (fun _ s' => exists D' l' h, quiesced s' D' l' h /\ lg_start l' = start /\
    lg_size l' = s32 (sb_nlog (decode_sb (I 1))) /\ agree start D' (meaning start I)) (power_on sp I).
Proof.
  intros Hsb Hok. eapply wp_mono; [exact (boot_fs_spec me pid sp Hsp start I Hsb Hok)|].
  cbn beta zeta. intros [] s' (blocks & Hint & Hlb & H). set (ws := recovery_writes start I blocks) in *.
  pose proof (recovery_prefix start I blocks (length ws) Hok Hint) as [Hok' _]. fold ws in Hok'.
  rewrite firstn_all in Hok'. pose proof Hok as (Hlen & _ & Htx).
  assert (Hhead : replay I ws start = put_head 0 blocks (I start)).
  { unfold ws, recovery_writes. rewrite replay_app. apply upd_eq. }
  destruct (header_round_trip 0 blocks (I start)) as (H0 & _ & Hl0); [done|unfold LOGSIZE, MAXOPBLOCKS; lia|lia|done|].
  exists (replay I ws), (MkLogrec start (s32 (sb_nlog (decode_sb (I 1)))) 0 0 ROOTDEV 0 blocks), ws. split; [|split; [reflexivity|split; [reflexivity|exact (recovery_final start I blocks Hok)]]].
  split; cbn [lg_block lg_outstanding lg_committing lg_start]; [exact H|by split|done|done|done|done| | |by rewrite Hhead|].
  - destruct Htx. split; [done|constructor|constructor|cbn; unfold LOGSIZE, MAXOPBLOCKS; lia].
  - by rewrite Hhead.
  - destruct Hsb as [Hsb Hs1]. split; [|done]. etrans; [|exact Hsb]. do 3 f_equal.
    rewrite <-(firstn_all ws). by apply recovery_keeps_sb.
Qed.

(** A file-system call as a transaction. *)
Definition run_tx (ups : list update) : M lstate unit := begin_op me;; run_updates ups;; end_op me pid.

Lemma blocks_of_length bl ups : (length (blocks_of bl ups) <= length bl + length ups)%nat.
Proof.
  revert bl. induction ups as [|u ups IH]; intros bl; cbn; [lia|]. specialize (IH (logged_after bl u.1)).
  pose proof (logged_after_length bl u.1). lia.
Qed.

(** C4: File-system calls are atomic.  A call that updates at most 29 blocks inside
    [begin_op] and [end_op] completes, with its updates in place and the log empty
    again.  If the power fails after any of the disk writes this takes, and again any number
    of times while the machine comes back up, the boot that completes finds the file
    system without the call's updates or with all of them. *)
Theorem transaction_atomic s D l h ups : quiesced s D l h ->
  Forall (fun u : update => 1 < u.1 < FSSIZE /\ ~ in_log (lg_start l) u.1) ups ->
  (length ups < NBUF)%nat -> Z.of_nat (length ups) <= lg_size l - 1 ->
  wp (run_tx ups) (fun _ s' => exists ws D' l', quiesced s' D' l' (h ++ ws) /\
    lg_start l' = lg_start l /\ lg_size l' = lg_size l /\
    agree (lg_start l) D' (apply_updates D ups) /\
    crash_atomic (lg_start l) D (apply_updates D ups) ws) s.
Proof.
  intros Hq Hf Hn Hs. unfold run_tx. wp_step. eapply begin_op_spec; [done|]. intros s1 H1. wp_step.
  eapply run_updates_spec; [exact H1|done|cbn; unfold LOGSIZE, MAXOPBLOCKS, NBUF in *; lia|done|].
  cbn [lg_start lg_size set_outstanding]. intros s2 l2 H2 E1 E2.
  pose proof (blocks_of_length [] ups) as Hbl. cbn in Hbl.
  eapply wp_mono; [eapply end_op_spec; [exact H2|lia|rewrite E1; apply Hq..]|]. cbn beta. rewrite E1, E2. done.
Qed.
End power.
End tx.

(** * An instance *)

(** A disk with its super block in block 1 and the log at block 2. *)
Definition demo_sb : list Z :=
  st32 16 2 (st32 12 30 (st32 0 2000 (replicate 512 0))).
Definition demo_image : image := fun n => if n =? 1 then demo_sb else replicate 512 0.
Definition demo_spins : spins :=
  MkSpins (MkCpu 0 0 false true None 0 0) (initlock EmptyString) (initlock EmptyString) (replicate NBUF (initlock EmptyString)).
Lemma demo_spins_ok : spins_ok demo_spins.
Proof.
  split; [by split|done|done| |done]. intros b Hb. cbn [sp_guards demo_spins].
  by rewrite lookup_total_replicate_2.
Qed.

Lemma demo_image_ok : sb_ok 2 demo_image /\ header_ok 2 demo_image.
Proof.
  split; [by vm_compute|]. split; [done|]. change (header_n (demo_image 2)) with 0.
  split; [unfold NBUF; lia|]. change (header_blocks (demo_image 2)) with (@nil Z).
  split; [done|constructor|constructor|done].
Qed.

Lemma demo_boot : exists s D h l, boot_fs 0 1 (power_on demo_spins demo_image) = Ok (tt, s) /\
  quiesced s D l h /\ lg_start l = 2 /\ lg_size l = 30.
Proof.
  destruct demo_image_ok as [Hsb Hok].
  destruct (proj1 (wp_ok _ _ _) (boot_quiesced 0 1 demo_spins demo_spins_ok 2 demo_image Hsb Hok)) as ([] & s & E & D & l & h & Hq & Hst & Hsz & _).
  exists s, D, h, l. split; [exact E|]. split; [exact Hq|]. split; [exact Hst|].
  rewrite Hsz. vm_compute. reflexivity.
Qed.

(** Writing two blocks after boot. *)
Definition demo_updates : list update := [(100, fun d => 7 :: tl d); (101, fun d => 8 :: tl d)].

Lemma transaction_atomic_witness : exists s D l h,
  boot_fs 0 1 (power_on demo_spins demo_image) = Ok (tt, s) /\
  wp (run_tx 0 1 demo_updates) (fun _ s' => exists ws D' l', quiesced s' D' l' (h ++ ws) /\
    lg_start l' = lg_start l /\ lg_size l' = lg_size l /\
    agree (lg_start l) D' (apply_updates D demo_updates) /\
    crash_atomic 0 1 demo_spins (lg_start l) D (apply_updates D demo_updates) ws) s.
Proof.
  destruct demo_boot as (s & D & h & l & E & Hq & Hst & Hsz). exists s, D, l, h. split; [exact E|].
  apply (transaction_atomic 0 1 demo_spins demo_spins_ok s D l h demo_updates Hq).
  - rewrite Hst. repeat constructor; cbn; unfold FSSIZE, in_log, LOGSIZE, MAXOPBLOCKS; lia.
  - cbn. unfold NBUF. lia.
  - rewrite Hsz. done.
Defined.

(** * Reservation *)

(** [begin_op] admits a call while [LOGSIZE] blocks are not all spoken for. *)
Lemma begin_try_spec me s V D dirty held l h (Q : bool -> lstate -> Prop) :
  lok s V D dirty held l h ->
  (forall s', let ok := (lg_committing l =? 0) && (lg_n l + (lg_outstanding l + 1) * MAXOPBLOCKS <=? LOGSIZE) in
    lok s' V D dirty held (if ok then set_outstanding (lg_outstanding l + 1) l else l) h -> Q ok s') ->
  wp (begin_try me) Q s.
Proof.
  intros H HQ. unfold begin_try. apply wp_under_log; [apply H|apply H|].
  rewrite (lk_log _ _ _ _ _ _ _ H). unfold log_get, log_do. wp_steps. cbn [fst snd].
  cbn zeta in HQ. rewrite Z.leb_antisym in HQ.
  destruct (lg_committing l =? 0); cbn [negb andb] in *;
    [destruct (LOGSIZE <? lg_n l + (lg_outstanding l + 1) * MAXOPBLOCKS); cbn [negb] in *|]; wp_steps;
    intros sp lk Hsp Hlk; apply HQ; (split; cbn; [|done|done|apply H]); destruct (lk_bok _ _ _ _ _ _ _ H); by split.
Qed.

(** Three calls, admitted together, that update ten blocks each. *)
Definition three_calls (me : nat) (pid : Z) : M lstate unit :=
  begin_op me;; begin_op me;; begin_op me;;
  run_updates me pid ((fun n => (n, fun d => d)) <$> seqZ 100 30).

