(* ===== verification/Fs.v ===== *)
(** The file system: fs.c.

    The code is written against the class [BlockIO] of block operations that log.c and
    bio.c offer; [LogIO] instantiates it with them. *)

From stdpp Require Import base tactics numbers option list sets strings.
From Stdlib Require Import ZArith Lia.
From S2P Require Import Prelude ProcDefs Spinlock Block CString Bytes Log.

(** * Interface to the block layer *)

(** [bread], access to [b->data], [log_write], [brelse], and the processor that
    spin locks of the client run on. *)
Class BlockIO (B : Type) := {
  io_bread : Z -> Z -> M B nat;
  io_data : nat -> M B (list Z);
  io_set : nat -> list Z -> M B unit;
  io_log_write : nat -> M B unit;
  io_brelse : nat -> M B unit;
  io_cpu : B -> cpu;
  io_set_cpu : cpu -> B -> B
}.

(** * Constants *)

Definition NINODE : nat := 50.
Definition NDEV : Z := 10.
Definition ROOTINO : Z := 1.
Definition NDIRECT : Z := 12.
Definition NINDIRECT : Z := BSIZE / 4.
Definition MAXFILE : Z := NDIRECT + NINDIRECT.
Definition DINODE_SIZE : Z := 64.
Definition IPB : Z := BSIZE / DINODE_SIZE.
Definition BPB : Z := BSIZE * 8.
Definition DIRSIZ : nat := 14.
Definition DIRENT_SIZE : Z := 16.
Definition T_DIR : Z := 1.
Definition T_FILE : Z := 2.
Definition T_DEV : Z := 3.

Definition IBLOCK (i : Z) (sb : superblock) : Z := u32 (i / IPB + sb_inodestart sb).
Definition BBLOCK (b : Z) (sb : superblock) : Z := u32 (b / BPB + sb_bmapstart sb).

(** * Data *)

(** [struct dinode] at its offset in an inode block. *)
Record dinode := MkDinode {
  di_type : Z; di_major : Z; di_minor : Z; di_nlink : Z; di_size : Z;
  di_addrs : list Z
}.
Definition dinode_off (inum : Z) : nat := Z.to_nat (inum mod IPB * DINODE_SIZE).
Definition load_addrs (n : nat) (off : nat) (d : list Z) : list Z := (fun i => ld32 (off + 4 * i) d) <$> seq 0 n.
Definition load_dinode (off : nat) (d : list Z) : dinode :=
  MkDinode (s16 (ld16 off d)) (s16 (ld16 (off + 2) d)) (s16 (ld16 (off + 4) d)) (s16 (ld16 (off + 6) d))
    (ld32 (off + 8) d) (load_addrs 13 (off + 12) d).
Definition addrs_bytes (a : list Z) : list Z := a ≫= le_bytes 4.
Definition dinode_bytes (di : dinode) : list Z :=
  le_bytes 2 (di_type di) ++ le_bytes 2 (di_major di) ++ le_bytes 2 (di_minor di) ++ le_bytes 2 (di_nlink di) ++
  le_bytes 4 (di_size di) ++ addrs_bytes (di_addrs di).
Definition store_dinode (off : nat) (di : dinode) (d : list Z) : list Z := splice off (dinode_bytes di) d.

(** [struct inode]; [i_guard] is the spin lock inside its sleep lock. *)
Record inode := MkInode {
  i_dev : Z; i_inum : Z; i_ref : Z;
  i_guard : spinlock; i_locked : Z; i_pid : Z;
  i_valid : Z;
  i_type : Z; i_major : Z; i_minor : Z; i_nlink : Z; i_size : Z;
  i_addrs : list Z
}.
Definition set_ikey (dev inum : Z) (r : inode) := MkInode dev inum (i_ref r) (i_guard r) (i_locked r) (i_pid r) (i_valid r) (i_type r) (i_major r) (i_minor r) (i_nlink r) (i_size r) (i_addrs r).
Definition set_iref (v : Z) (r : inode) := MkInode (i_dev r) (i_inum r) v (i_guard r) (i_locked r) (i_pid r) (i_valid r) (i_type r) (i_major r) (i_minor r) (i_nlink r) (i_size r) (i_addrs r).
Definition set_iguard (v : spinlock) (r : inode) := MkInode (i_dev r) (i_inum r) (i_ref r) v (i_locked r) (i_pid r) (i_valid r) (i_type r) (i_major r) (i_minor r) (i_nlink r) (i_size r) (i_addrs r).
Definition set_ilock (l p : Z) (r : inode) := MkInode (i_dev r) (i_inum r) (i_ref r) (i_guard r) l p (i_valid r) (i_type r) (i_major r) (i_minor r) (i_nlink r) (i_size r) (i_addrs r).
Definition set_ivalid (v : Z) (r : inode) := MkInode (i_dev r) (i_inum r) (i_ref r) (i_guard r) (i_locked r) (i_pid r) v (i_type r) (i_major r) (i_minor r) (i_nlink r) (i_size r) (i_addrs r).
Definition set_itype (v : Z) (r : inode) := MkInode (i_dev r) (i_inum r) (i_ref r) (i_guard r) (i_locked r) (i_pid r) (i_valid r) v (i_major r) (i_minor r) (i_nlink r) (i_size r) (i_addrs r).
Definition set_inodev (ma mi : Z) (r : inode) := MkInode (i_dev r) (i_inum r) (i_ref r) (i_guard r) (i_locked r) (i_pid r) (i_valid r) (i_type r) ma mi (i_nlink r) (i_size r) (i_addrs r).
Definition set_inlink (v : Z) (r : inode) := MkInode (i_dev r) (i_inum r) (i_ref r) (i_guard r) (i_locked r) (i_pid r) (i_valid r) (i_type r) (i_major r) (i_minor r) v (i_size r) (i_addrs r).
Definition set_isize (v : Z) (r : inode) := MkInode (i_dev r) (i_inum r) (i_ref r) (i_guard r) (i_locked r) (i_pid r) (i_valid r) (i_type r) (i_major r) (i_minor r) (i_nlink r) v (i_addrs r).
Definition set_iaddrs (v : list Z) (r : inode) := MkInode (i_dev r) (i_inum r) (i_ref r) (i_guard r) (i_locked r) (i_pid r) (i_valid r) (i_type r) (i_major r) (i_minor r) (i_nlink r) (i_size r) v.

Definition zero_inode : inode :=
  MkInode 0 0 0 (initlock EmptyString) 0 0 0 0 0 0 0 0 (replicate 13 0).

(** The fields of an inode that live on disk. *)
Definition to_dinode (r : inode) : dinode :=
  MkDinode (i_type r) (i_major r) (i_minor r) (i_nlink r) (i_size r) (i_addrs r).
Definition of_dinode (di : dinode) (r : inode) : inode :=
  MkInode (i_dev r) (i_inum r) (i_ref r) (i_guard r) (i_locked r) (i_pid r) (i_valid r)
    (di_type di) (di_major di) (di_minor di) (di_nlink di) (di_size di) (di_addrs di).

(** [struct stat] *)
Record stat := MkStat { st_type : Z; st_dev : Z; st_ino : Z; st_nlink : Z; st_size : Z }.

(** The block layer, [sb], [icache] and its lock. *)
Record fs (B : Type) := MkFs {
  fs_io : B;
  fs_sb : superblock;
  fs_lk : spinlock;
  fs_inodes : list inode;
  fs_wakes : list nat       (* wakeup calls on inode locks *)
}.
Arguments MkFs {B}. Arguments fs_io {B}. Arguments fs_sb {B}. Arguments fs_lk {B}. Arguments fs_inodes {B}. Arguments fs_wakes {B}.

Section code.
Context {B : Type} `{!BlockIO B}.
Local Abbreviation F := (M (fs B)).

Definition set_io (v : B) (s : fs B) : fs B := MkFs v (fs_sb s) (fs_lk s) (fs_inodes s) (fs_wakes s).
Definition set_sb (v : superblock) (s : fs B) : fs B := MkFs (fs_io s) v (fs_lk s) (fs_inodes s) (fs_wakes s).
Definition set_fslk (v : spinlock) (s : fs B) : fs B := MkFs (fs_io s) (fs_sb s) v (fs_inodes s) (fs_wakes s).
Definition set_inodes (v : list inode) (s : fs B) : fs B := MkFs (fs_io s) (fs_sb s) (fs_lk s) v (fs_wakes s).
Definition set_fswakes (v : list nat) (s : fs B) : fs B := MkFs (fs_io s) (fs_sb s) (fs_lk s) (fs_inodes s) v.

Definition on_io {A} (m : M B A) : F A := zoom fs_io set_io m.

(** The processor, the pid of the process on it, its current directory, and the device
    table [devsw]: the read and write routines of the devices. *)
Context (me : nat) (pid : Z) (cwd : nat).
Context (devread : Z -> option (nat -> Z -> F (Z * list Z))) (devwrite : Z -> option (nat -> list Z -> Z -> F Z)).

(** [ip->f] and [ip->f = v] *)
Definition ird {A} (f : inode -> A) (ip : nat) : F A := deref (fun s => f <$> fs_inodes s !! ip).
Definition iwr (f : inode -> inode) (ip : nat) : F unit :=
  store (fun s => match fs_inodes s !! ip with
                  | Some r => Some (set_inodes (<[ip := f r]> (fs_inodes s)) s)
                  | None => None
                  end).

(** A spin-lock operation of this processor on a lock stored in the state. *)
Definition spin (get : fs B -> option spinlock) (put : spinlock -> fs B -> fs B)
    (m : M (cpu * spinlock) unit) : F unit :=
  l ← deref get;
  l' ← on_io (zoom io_cpu io_set_cpu (fun k => match m (k, l) with Ok (_, (k', l')) => Ok (l', k') | Err e => Err e end));
  modify (put l').
Definition under_icache {A} (m : F A) : F A :=
  let lk := spin (fun s => Some (fs_lk s)) set_fslk in
  lk (acquire me);; a ← m; lk (release me);; mret a.
Definition under_iguard {A} (ip : nat) (m : F A) : F A :=
  let lk := spin (fun s => i_guard <$> fs_inodes s !! ip)
              (fun l s => set_inodes (alter (set_iguard l) ip (fs_inodes s)) s) in
  lk (acquire me);; a ← m; lk (release me);; mret a.

(** The sleep lock of an inode. *)
Definition iacquiresleep (ip : nat) : F unit :=
  under_iguard ip (l ← ird i_locked ip; if l =? 0 then iwr (set_ilock 1 pid) ip else fail ESpin).
Definition ireleasesleep (ip : nat) : F unit :=
  under_iguard ip (iwr (set_ilock 0 0) ip;; modify (fun s => set_fswakes (fs_wakes s ++ [ip]) s)).
Definition iholdingsleep (ip : nat) : F bool :=
  under_iguard ip (l ← ird i_locked ip; mret (negb (l =? 0))).

(** * Blocks *)

Definition fbread (dev n : Z) : F nat := on_io (io_bread dev n).
Definition fdata (b : nat) : F (list Z) := on_io (io_data b).
Definition fset (b : nat) (d : list Z) : F unit := on_io (io_set b d).
Definition flog_write (b : nat) : F unit := on_io (io_log_write b).
Definition fbrelse (b : nat) : F unit := on_io (io_brelse b).

(** [readsb(dev, &sb)] *)
Definition fs_readsb (dev : Z) : F unit :=
  bp ← fbread dev 1; d ← fdata bp; modify (set_sb (decode_sb d));; fbrelse bp.

Definition bzero (dev bno : Z) : F unit :=
  bp ← fbread dev bno;
  d ← fdata bp;
  fset bp (splice 0 (replicate (Z.to_nat BSIZE) 0) d);;
  flog_write bp;;
  fbrelse bp.

(** [bp->data[bi/8] & (1 << (bi % 8))] *)
Definition bit_byte (bi : Z) : nat := Z.to_nat (bi / 8).
Definition bit_mask (bi : Z) : Z := Z.shiftl 1 (bi mod 8).
Definition bit_free (bi : Z) (d : list Z) : bool := Z.land (d !!! bit_byte bi) (bit_mask bi) =? 0.
Definition set_bit (bi : Z) (d : list Z) : list Z :=
  <[bit_byte bi := u8 (Z.lor (d !!! bit_byte bi) (bit_mask bi))]> d.
Definition clear_bit (bi : Z) (d : list Z) : list Z :=
  <[bit_byte bi := u8 (Z.land (d !!! bit_byte bi) (Z.lnot (bit_mask bi)))]> d.

(** The inner loop of [balloc] from bit [bi] on. *)
Fixpoint free_bit (fuel : nat) (size b bi : Z) (d : list Z) : option Z :=
  match fuel with
  | O => None
  | S fuel =>
      if (bi <? BPB) && (b + bi <? size) then
        if bit_free bi d then Some bi else free_bit fuel size b (bi + 1) d
      else None
  end.
Fixpoint balloc_from (fuel : nat) (dev b : Z) : F Z :=
  match fuel with
  | O => fail EFuel
  | S fuel =>
      sb ← gets fs_sb;
      if b <? sb_size sb then
        bp ← fbread dev (BBLOCK b sb);
        d ← fdata bp;
        match free_bit (Z.to_nat BPB) (sb_size sb) b 0 d with
        | Some bi =>
            fset bp (set_bit bi d);;
            flog_write bp;;
            fbrelse bp;;
            bzero dev (b + bi);;
            mret (b + bi)
        | None => fbrelse bp;; balloc_from fuel dev (b + BPB)
        end
      else fail (EPanic "balloc: out of blocks")
  end.
Definition balloc (dev : Z) : F Z :=
  sb ← gets fs_sb; balloc_from (S (Z.to_nat (sb_size sb / BPB + 1))) dev 0.

Definition bfree (dev b : Z) : F unit :=
  fs_readsb dev;;
  sb ← gets fs_sb;
  bp ← fbread dev (BBLOCK b sb);
  d ← fdata bp;
  let bi := b mod BPB in
  panic_if (bit_free bi d) "freeing free block";;
  fset bp (clear_bit bi d);;
  flog_write bp;;
  fbrelse bp.

(** * Inodes *)

(** [iinit] without its message. *)
Definition iinit (dev : Z) : F unit :=
  modify (set_fslk (initlock "icache"));;
  for_each (fun i => iwr (set_ilock 0 0) i;; iwr (set_iguard (initlock "sleep lock")) i) (seq 0 NINODE);;
  fs_readsb dev.

(** The scan of [iget]: a cached entry, else the first empty one. *)
Fixpoint iget_scan (rs : list inode) (i : nat) (dev inum : Z) (empty : option nat) : (nat + option nat) :=
  match rs with
  | [] => inr empty
  | r :: rs =>
      if (0 <? i_ref r) && (i_dev r =? dev) && (i_inum r =? inum) then inl i
      else iget_scan rs (S i) dev inum
             (match empty with
              | None => if i_ref r =? 0 then Some i else None
              | Some _ => empty
              end)
  end.
Definition iget (dev inum : Z) : F nat :=
  under_icache (
    rs ← gets fs_inodes;
    match iget_scan rs 0 dev inum None with
    | inl ip => iwr (fun r => set_iref (s32 (i_ref r + 1)) r) ip;; mret ip
    | inr None => fail (EPanic "iget: no inodes")
    | inr (Some ip) => iwr (fun r => set_ivalid 0 (set_iref 1 (set_ikey dev inum r))) ip;; mret ip
    end).

Fixpoint ialloc_from (fuel : nat) (dev inum type : Z) : F nat :=
  match fuel with
  | O => fail EFuel
  | S fuel =>
      sb ← gets fs_sb;
      if inum <? sb_ninodes sb then
        bp ← fbread dev (IBLOCK inum sb);
        d ← fdata bp;
        if di_type (load_dinode (dinode_off inum) d) =? 0 then
          let d1 := splice (dinode_off inum) (replicate (Z.to_nat DINODE_SIZE) 0) d in
          fset bp (st16 (dinode_off inum) type d1);;
          flog_write bp;;
          fbrelse bp;;
          iget dev inum
        else fbrelse bp;; ialloc_from fuel dev (inum + 1) type
      else fail (EPanic "ialloc: no inodes")
  end.
Definition ialloc (dev type : Z) : F nat :=
  sb ← gets fs_sb; ialloc_from (S (Z.to_nat (sb_ninodes sb))) dev 1 type.

Definition iupdate (ip : nat) : F unit :=
  r ← ird id ip;
  sb ← gets fs_sb;
  bp ← fbread (i_dev r) (IBLOCK (i_inum r) sb);
  d ← fdata bp;
  fset bp (store_dinode (dinode_off (i_inum r)) (to_dinode r) d);;
  flog_write bp;;
  fbrelse bp.

Definition idup (ip : nat) : F nat :=
  under_icache (iwr (fun r => set_iref (s32 (i_ref r + 1)) r) ip);; mret ip.

Definition ilock (ip : nat) : F unit :=
  ref ← ird i_ref ip;
  panic_if (ref <? 1) "ilock";;
  iacquiresleep ip;;
  r ← ird id ip;
  if i_valid r =? 0 then
    sb ← gets fs_sb;
    bp ← fbread (i_dev r) (IBLOCK (i_inum r) sb);
    d ← fdata bp;
    iwr (of_dinode (load_dinode (dinode_off (i_inum r)) d)) ip;;
    fbrelse bp;;
    iwr (set_ivalid 1) ip;;
    t ← ird i_type ip;
    panic_if (t =? 0) "ilock: no type"
  else mret tt.

Definition iunlock (ip : nat) : F unit :=
  h ← iholdingsleep ip;
  ref ← ird i_ref ip;
  panic_if (negb h || (ref <? 1)) "iunlock";;
  ireleasesleep ip.

(** * Inode content *)

(** [ip->addrs[i] = v] *)
Definition set_addr (i : Z) (v : Z) (r : inode) : inode := set_iaddrs (<[Z.to_nat i := v]> (i_addrs r)) r.
Definition get_addr (ip : nat) (i : Z) : F Z :=
  deref (fun s => r ← fs_inodes s !! ip; i_addrs r !! Z.to_nat i).

(** Entry [bn] of the indirect block [addr], allocated if absent. *)
Definition bmap_entry (dev addr bn : Z) : F Z :=
  bp ← fbread dev addr;
  d ← fdata bp;
  let addr := ld32 (Z.to_nat (4 * bn)) d in
  addr ← (if addr =? 0 then
            a ← balloc dev;
            d ← fdata bp;
            fset bp (st32 (Z.to_nat (4 * bn)) a d);;
            flog_write bp;;
            mret a
          else mret addr);
  fbrelse bp;;
  mret addr.

Definition bmap (ip : nat) (bn : Z) : F Z :=
  dev ← ird i_dev ip;
  if bn <? NDIRECT then
    addr ← get_addr ip bn;
    if addr =? 0 then a ← balloc dev; iwr (set_addr bn a) ip;; mret a else mret addr
  else
    let bn := bn - NDIRECT in
    if bn <? NINDIRECT then
      addr ← get_addr ip NDIRECT;
      addr ← (if addr =? 0 then a ← balloc dev; iwr (set_addr NDIRECT a) ip;; mret a else mret addr);
      bmap_entry dev addr bn
    else fail (EPanic "bmap: out of range").

(** [itrunc]: direct blocks, then the blocks of the indirect block and itself. *)
Definition itrunc_direct (dev : Z) (ip : nat) (i : nat) : F unit :=
  a ← get_addr ip (Z.of_nat i);
  if a =? 0 then mret tt else bfree dev a;; iwr (set_addr (Z.of_nat i) 0) ip.
Definition itrunc_indirect (dev : Z) (d : list Z) (j : nat) : F unit :=
  let a := ld32 (4 * j) d in if a =? 0 then mret tt else bfree dev a.
Definition itrunc (ip : nat) : F unit :=
  dev ← ird i_dev ip;
  for_each (itrunc_direct dev ip) (seq 0 (Z.to_nat NDIRECT));;
  a ← get_addr ip NDIRECT;
  (if a =? 0 then mret tt else
     bp ← fbread dev a;
     d ← fdata bp;
     for_each (itrunc_indirect dev d) (seq 0 (Z.to_nat NINDIRECT));;
     fbrelse bp;;
     a ← get_addr ip NDIRECT;
     bfree dev a;;
     iwr (set_addr NDIRECT 0) ip);;
  iwr (set_isize 0) ip;;
  iupdate ip.

Definition iput (ip : nat) : F unit :=
  iacquiresleep ip;;
  r ← ird id ip;
  (if negb (i_valid r =? 0) && (i_nlink r =? 0) then
     ref ← under_icache (ird i_ref ip);
     if ref =? 1 then
       itrunc ip;;
       iwr (set_itype 0) ip;;
       iupdate ip;;
       iwr (set_ivalid 0) ip
     else mret tt
   else mret tt);;
  ireleasesleep ip;;
  under_icache (iwr (fun r => set_iref (s32 (i_ref r - 1)) r) ip).

Definition iunlockput (ip : nat) : F unit := iunlock ip;; iput ip.

Definition stati (ip : nat) : F stat :=
  r ← ird id ip; mret (MkStat (i_type r) (s32 (i_dev r)) (i_inum r) (i_nlink r) (i_size r)).

(** The copy loop of [readi]: bytes [off .. off+n) of the file. *)
Fixpoint readi_loop (fuel : nat) (ip : nat) (off n : Z) : F (list Z) :=
  if n <=? 0 then mret [] else
  match fuel with
  | O => fail EFuel
  | S fuel =>
      dev ← ird i_dev ip;
      a ← bmap ip (off / BSIZE);
      bp ← fbread dev a;
      d ← fdata bp;
      let m := Z.min n (BSIZE - off mod BSIZE) in
      let bs := slice (Z.to_nat (off mod BSIZE)) (Z.to_nat m) d in
      fbrelse bp;;
      rest ← readi_loop fuel ip (off + m) (n - m);
      mret (bs ++ rest)
  end.
(** Blocks that a transfer of [n] bytes can touch. *)
Definition io_fuel (n : Z) : nat := Z.to_nat (n / BSIZE + 2).
(** The result and the bytes stored at [dst]. *)
Definition readi (ip : nat) (off n : Z) : F (Z * list Z) :=
  r ← ird id ip;
  if i_type r =? T_DEV then
    if (i_major r <? 0) || (NDEV <=? i_major r) then mret (-1, []) else
    match devread (i_major r) with
    | None => mret (-1, [])
    | Some f => f ip (s32 n)
    end
  else if (i_size r <? off) || (u32 (off + n) <? off) then mret (-1, []) else
  let n := if i_size r <? u32 (off + n) then i_size r - off else n in
  bs ← readi_loop (io_fuel n) ip off n;
  mret (s32 n, bs).

Fixpoint writei_loop (fuel : nat) (ip : nat) (off : Z) (src : list Z) : F unit :=
  match src with
  | [] => mret tt
  | _ =>
      match fuel with
      | O => fail EFuel
      | S fuel =>
          dev ← ird i_dev ip;
          a ← bmap ip (off / BSIZE);
          bp ← fbread dev a;
          d ← fdata bp;
          let m := Z.min (Z.of_nat (length src)) (BSIZE - off mod BSIZE) in
          fset bp (splice (Z.to_nat (off mod BSIZE)) (take (Z.to_nat m) src) d);;
          flog_write bp;;
          fbrelse bp;;
          writei_loop fuel ip (off + m) (drop (Z.to_nat m) src)
      end
  end.
(** [src] are the [n] bytes at the source pointer. *)
Definition writei (ip : nat) (src : list Z) (off : Z) : F Z :=
  let n := Z.of_nat (length src) in
  r ← ird id ip;
  if i_type r =? T_DEV then
    if (i_major r <? 0) || (NDEV <=? i_major r) then mret (-1) else
    match devwrite (i_major r) with
    | None => mret (-1)
    | Some f => f ip src (s32 n)
    end
  else if (i_size r <? off) || (u32 (off + n) <? off) then mret (-1) else
  if MAXFILE * BSIZE <? u32 (off + n) then mret (-1) else
  writei_loop (io_fuel n) ip off src;;
  size ← ird i_size ip;
  (if (0 <? n) && (size <? off + n) then iwr (set_isize (off + n)) ip;; iupdate ip else mret tt);;
  mret (s32 n).

(** * Directories *)

Definition namecmp (s t : list Z) : option Z := strncmp s t DIRSIZ.

(** [struct dirent] *)
Definition de_inum (de : list Z) : Z := ld16 0 de.
Definition de_name (de : list Z) : list Z := slice 2 DIRSIZ de.

Fixpoint dirlookup_from (fuel : nat) (dp : nat) (name : list Z) (off : Z) : F (option (nat * Z)) :=
  match fuel with
  | O => fail EFuel
  | S fuel =>
      r ← ird id dp;
      if off <? i_size r then
        '(n, de) ← readi dp off DIRENT_SIZE;
        panic_if (negb (n =? DIRENT_SIZE)) "dirlookup read";;
        if de_inum de =? 0 then dirlookup_from fuel dp name (off + DIRENT_SIZE) else
        c ← deref (fun _ => namecmp name (de_name de));
        if c =? 0 then ip ← iget (i_dev r) (de_inum de); mret (Some (ip, off))
        else dirlookup_from fuel dp name (off + DIRENT_SIZE)
      else mret None
  end.
Definition dir_fuel (size : Z) : nat := Z.to_nat (size / DIRENT_SIZE + 2).
(** The inode found and the byte offset of its entry. *)
Definition dirlookup (dp : nat) (name : list Z) : F (option (nat * Z)) :=
  r ← ird id dp;
  panic_if (negb (i_type r =? T_DIR)) "dirlookup not DIR";;
  dirlookup_from (dir_fuel (i_size r)) dp name 0.

(** The offset of the first empty entry, or the end of the directory. *)
Fixpoint dirlink_slot (fuel : nat) (dp : nat) (off : Z) : F Z :=
  match fuel with
  | O => fail EFuel
  | S fuel =>
      size ← ird i_size dp;
      if off <? size then
        '(n, de) ← readi dp off DIRENT_SIZE;
        panic_if (negb (n =? DIRENT_SIZE)) "dirlink read";;
        if de_inum de =? 0 then mret off else dirlink_slot fuel dp (off + DIRENT_SIZE)
      else mret off
  end.
Definition dirlink (dp : nat) (name : list Z) (inum : Z) : F Z :=
  hit ← dirlookup dp name;
  match hit with
  | Some (ip, _) => iput ip;; mret (-1)
  | None =>
      size ← ird i_size dp;
      off ← dirlink_slot (dir_fuel size) dp 0;
      nm ← deref (fun _ => strncpy (replicate DIRSIZ 0) name DIRSIZ);
      w ← writei dp (le_bytes 2 inum ++ nm) off;
      panic_if (negb (w =? DIRENT_SIZE)) "dirlink";;
      mret 0
  end.
End code.

(** * Paths *)

Definition SLASH : Z := 47.

(** Skip leading slashes; running off the buffer is a fault. *)
Fixpoint skip_slashes (path : list Z) : option (list Z) :=
  match path with
  | [] => None
  | c :: rest => if c =? SLASH then skip_slashes rest else Some path
  end.
(** The element up to the next slash or NUL. *)
Fixpoint span_elem (path : list Z) : option (list Z * list Z) :=
  match path with
  | [] => None
  | c :: rest =>
      if (c =? SLASH) || (c =? 0) then Some ([], path)
      else match span_elem rest with
           | Some (e, rest') => Some (c :: e, rest')
           | None => None
           end
  end.
(** The new contents of the [DIRSIZ] bytes at [name]. *)
Definition copy_name (elem name : list Z) : list Z :=
  if (DIRSIZ <=? length elem)%nat then splice 0 (take DIRSIZ elem) name
  else splice 0 (elem ++ [0]) name.
(** [skipelem]: [Some None] is the null pointer; [None] a fault. *)
Definition skipelem (path name : list Z) : option (option (list Z * list Z)) :=
  path ← skip_slashes path;
  match path with
  | [] => None
  | c :: _ =>
      if c =? 0 then Some None else
      '(elem, path) ← span_elem path;
      path ← skip_slashes path;
      Some (Some (path, copy_name elem name))
  end.

Section paths.
Context {B : Type} `{!BlockIO B}.
Local Abbreviation F := (M (fs B)).
Context (me : nat) (pid : Z) (cwd : nat).
Context (devread : Z -> option (nat -> Z -> F (Z * list Z))).

Fixpoint namex_from (fuel : nat) (ip : nat) (path : list Z) (parent : bool) (name : list Z) : F (option (nat * list Z)) :=
  match fuel with
  | O => fail EFuel
  | S fuel =>
      step ← deref (fun _ => skipelem path name);
      match step with
      | None => if parent then iput me pid ip;; mret None else mret (Some (ip, name))
      | Some (path, name) =>
          ilock me pid ip;;
          t ← ird i_type ip;
          if negb (t =? T_DIR) then iunlockput me pid ip;; mret None else
          c ← deref (fun _ => head path);
          if parent && (c =? 0) then iunlock me ip;; mret (Some (ip, name)) else
          next ← dirlookup me devread ip name;
          match next with
          | None => iunlockput me pid ip;; mret None
          | Some (next, _) => iunlockput me pid ip;; namex_from fuel next path parent name
          end
      end
  end.
Definition namex (path : list Z) (parent : bool) (name : list Z) : F (option (nat * list Z)) :=
  c ← deref (fun _ => head path);
  ip ← (if c =? SLASH then iget me ROOTDEV ROOTINO else idup me cwd);
  namex_from (S (length path)) ip path parent name.

Definition namei (path : list Z) : F (option nat) :=
  r ← namex path false (replicate DIRSIZ 0); mret (fst <$> r).
Definition nameiparent (path name : list Z) : F (option (nat * list Z)) := namex path true name.
End paths.
