(* ===== verification/FsLayout.v ===== *)
(** The block operations that the file system relies on: the laws that go with the
    class [BlockIO], and their instance, log.c over the buffer cache. *)

From stdpp Require Import base tactics numbers option list gmap sets strings.
From Stdlib Require Import ZArith Lia.
From S2P Require Import Prelude ProcDefs Spinlock Block BlockFacts BioFacts Bytes Log LogFacts LogCrash LogTx Fs.

(** * Laws *)

(** A transaction logs at most this many blocks. *)
Definition LOGROOM : nat := 28.
(** Blocks that a transaction may change: not the boot block, the super block or the log. *)
Definition loggable (start n : Z) : Prop := 1 < n < FSSIZE /\ ~ in_log start n.

(** Reading.  [io_ok s V D L held]: the blocks are [V]; those of [L] are logged; [held] are the
    locked buffers and their blocks.  A block that is neither logged nor held is as on
    disk, [D]. *)
Class BlockIORead (B : Type) {IO : BlockIO B} := {
  io_ok : B -> image -> image -> gset Z -> gmap nat Z -> Prop;
  io_clean s V D L held n : io_ok s V D L held -> n ∉ L -> (forall i, held !! i <> Some n) -> V n = D n;
  io_bread_law s V D L held n : io_ok s V D L held -> 0 <= n < FSSIZE -> (forall i, held !! i <> Some n) ->
    (size (L ∪ map_img held) < NBUF)%nat ->
    wp (io_bread ROOTDEV n) (fun b s' => held !! b = None /\ io_ok s' V D L (<[b := n]> held)) s;
  io_data_law s V D L held b n : io_ok s V D L held -> held !! b = Some n ->
    wp (io_data b) (fun d s' => d = V n /\ s' = s) s;
  io_brelse_law s V D L held b n : io_ok s V D L held -> held !! b = Some n -> n ∈ L \/ V n = D n ->
    wp (io_brelse b) (fun _ s' => io_ok s' V D L (delete b held)) s;
  io_cpu_ok s V D L held : io_ok s V D L held -> cpu_ok (io_cpu s);
  io_set_cpu_ok s V D L held k : io_ok s V D L held -> cpu_ok k -> io_ok (io_set_cpu k s) V D L held;
  io_get_set k s : io_cpu (io_set_cpu k s) = k;
  io_set_set k k' s : io_set_cpu k' (io_set_cpu k s) = io_set_cpu k' s
}.

(** Writing, inside a transaction. *)
Class BlockIOLaws (B : Type) {IO : BlockIO B} (start : Z) := {
  io_read :: BlockIORead B;
  io_set_law s V D L held b n d : io_ok s V D L held -> held !! b = Some n ->
    wp (io_set b d) (fun _ s' => io_ok s' (upd V n d) D L held) s;
  io_log_write_law s V D L held b n : io_ok s V D L held -> held !! b = Some n -> loggable start n ->
    (size L <= LOGROOM)%nat -> wp (io_log_write b) (fun _ s' => io_ok s' V D ({[n]} ∪ L) held) s
}.

(** * The log as block layer *)

Section log.
Context (me : nat) (pid : Z).

#[export] Instance LogIO : BlockIO lstate := {
  io_bread dev n := on_bs (bread me pid dev n);
  io_data b := on_bs (bget_data b);
  io_set b d := on_bs (bset b d);
  io_log_write b := log_write me b;
  io_brelse b := on_bs (brelse me b);
  io_cpu s := sp_cpu (lt_bs s).1;
  io_set_cpu k s := let sp := (lt_bs s).1 in set_bs (MkSpins k (sp_bcache sp) (sp_ide sp) (sp_guards sp), (lt_bs s).2) s
}.

(** The transaction of one system call, with buffers held. *)
Record in_call (start : Z) (h : list write) (s : lstate) (V D : image) (L : gset Z) (held : gmap nat Z) : Prop := {
  ic_start : lg_start (lt_log s) = start;
  ic_size : lg_size (lt_log s) = LOGSIZE;
  ic_tx : exists bl, L = list_to_set bl /\ lok s V D L held (lt_log s) h /\ logged (lt_log s) bl /\
    tx_ok start bl;
  ic_len : length (lg_block (lt_log s)) = Z.to_nat LOGSIZE;
  ic_ints : Forall (fun b => - 2 ^ 31 <= b < 2 ^ 31) (lg_block (lt_log s));
  ic_out : lg_outstanding (lt_log s) = 1;
  ic_com : lg_committing (lt_log s) = 0
}.

(** Buffer operations keep the log. *)
Lemma in_call_bs start h s t V D V' D' L held held' : in_call start h s V D L held ->
  bok t V' D' L held' -> history t = history (lt_bs s) -> in_call start h (set_bs t s) V' D' L held'.
Proof.
  intros [H1 H2 (bl & -> & [Hb Hf Hl Hh] & Hlg & Htx) H3 H4 H5 H6] Ht Hi. split; cbn; try done.
  exists bl. split; [done|]. split; [|done]. split; cbn; [done..|congruence].
Qed.
Lemma in_call_bok start h s V D L held : in_call start h s V D L held -> bok (lt_bs s) V D L held.
Proof. intros [_ _ (bl & -> & H & _) _ _ _ _]. apply H. Qed.

(** Buffer operations in general. *)
Lemma bok_cpu t V D L held k : bok t V D L held -> cpu_ok k ->
  bok (MkSpins k (sp_bcache t.1) (sp_ide t.1) (sp_guards t.1), t.2) V D L held.
Proof. intros [[? ? ? ? ?] ? ? ? ? ? ? ? ? ?] Hk. split; cbn; done. Qed.

Section read.
(** A predicate on states that buffer operations preserve gives the laws of reading. *)
Context (P : lstate -> image -> image -> gset Z -> gmap nat Z -> Prop).
Context (P_bok : forall s V D L held, P s V D L held -> bok (lt_bs s) V D L held).
Context (P_bs : forall s t V D V' D' L held held', P s V D L held -> bok t V' D' L held' -> history t = history (lt_bs s) ->
  P (set_bs t s) V' D' L held').

Definition ReadLaws : BlockIORead lstate.
Proof using P P_bok P_bs.
  refine {| io_ok := P |}.
  - intros s V D L held n H. apply (bo_clean _ _ _ _ _ (P_bok _ _ _ _ _ H)).
  - intros s V D L held n H Hn Hh Hsz. apply wp_on_bs. eapply wp_mono; [eapply bread_spec; [by eapply P_bok|done|done|by right]|].
    cbn beta. intros b t (Hb & Ht & Hi). split; [done|]. by eapply P_bs.
  - intros s V D L held b n H Hb. apply wp_on_bs. eapply bget_data_spec; [by eapply P_bok|done|].
    split; [done|]. by destruct s.
  - intros s V D L held b n H Hb Hc. apply wp_on_bs.
    eapply wp_mono; [eapply brelse_spec; [by eapply P_bok|done|done]|]. cbn beta. intros _ t [Ht Hi]. by eapply P_bs.
  - intros s V D L held H. apply (P_bok _ _ _ _ _ H).
  - intros s V D L held k H Hk. eapply P_bs; [done| |done]. apply bok_cpu; [by eapply P_bok|done].
  - done.
  - done.
Defined.
End read.

(** Inside a system call. *)
#[export] Instance LogLaws (start : Z) (h : list write) : BlockIOLaws lstate start.
Proof.
  refine {| io_read := ReadLaws (in_call start h) (in_call_bok start h) (in_call_bs start h) |}.
  - intros s V D L held b n d H Hb. apply wp_on_bs.
    eapply wp_mono; [eapply bset_spec; [exact (in_call_bok _ _ _ _ _ _ _ H)|done]|]. cbn beta. intros _ t [Ht Hi].
    exact (in_call_bs _ _ _ _ _ _ _ _ _ _ _ H Ht Hi).
  - intros s V D L held b n [H1 H2 (bl & -> & H & Hlg & Htx) H3 H4 H5 H6] Hb [Hn Hnl] Hsz. unfold LOGROOM in Hsz.
    rewrite size_list_to_set in Hsz by apply Htx.
    assert (Hroom : log_room (lt_log s) bl).
    { unfold log_room. rewrite H2. unfold LOGSIZE, MAXOPBLOCKS. lia. }
    eapply log_write_spec; [done|done|done|done|done|lia|]. intros s' Hs'.
    pose proof (lk_log _ _ _ _ _ _ _ Hs') as El.
    destruct (header_after_fields (lt_log s) bl n) as (E1 & E2 & E3 & E4 & E5 & E6).
    change (in_call start h s' V D ({[n]} ∪ list_to_set bl) held). split; rewrite ?El; try congruence.
    + exists (logged_after bl n). rewrite logged_after_set. split; [done|]. split; [done|]. split.
      * apply header_after_logged; [done|]. rewrite H3. unfold LOGSIZE, MAXOPBLOCKS. lia.
      * apply tx_ok_after; try done. apply Hroom.
    + apply E6; [done|]. unfold FSSIZE in *. lia.
Defined.

(** Outside: reading only. *)
Definition between (l : logrec) (h : list write) (s : lstate) (V D : image) (L : gset Z) (held : gmap nat Z) : Prop :=
  L = ∅ /\ lok s V D ∅ held l h.
Lemma between_bok l h s V D L held : between l h s V D L held -> bok (lt_bs s) V D L held.
Proof. intros [-> H]. apply H. Qed.
Lemma between_bs l h s t V D V' D' L held held' : between l h s V D L held -> bok t V' D' L held' ->
  history t = history (lt_bs s) -> between l h (set_bs t s) V' D' L held'.
Proof. intros [-> [H1 H2 H3 H4]] Ht Hi. split; [done|]. split; cbn; [done..|congruence]. Qed.
Definition IdleLaws (l : logrec) (h : list write) : BlockIORead lstate :=
  ReadLaws (between l h) (between_bok l h) (between_bs l h).
End log.

(** The on-disk format of the file system: free-map bits and inodes. *)

(** * The free map *)

(** A disk block: [BSIZE] bytes. *)
Definition block_ok (d : list Z) : Prop := length d = Z.to_nat BSIZE /\ byte_list d.

Definition bit_at (bi : Z) (d : list Z) : bool := Z.testbit (d !!! bit_byte bi) (bi mod 8).

Lemma bit_free_at bi d : bit_free bi d = negb (bit_at bi d).
Proof.
  unfold bit_free, bit_at, bit_mask. pose proof (Z.mod_pos_bound bi 8 ltac:(lia)) as Hb. set (k := bi mod 8) in *.
  destruct (Z.eqb_spec (Z.land (d !!! bit_byte bi) (Z.shiftl 1 k)) 0) as [E|E].
  - apply (f_equal (fun z => Z.testbit z k)) in E. rewrite Z.land_spec, Z.shiftl_1_l, Z.pow2_bits_true, Z.bits_0 in E by lia.
    rewrite andb_true_r in E. by rewrite E.
  - destruct (Z.testbit (d !!! bit_byte bi) k) eqn:Et; [done|]. destruct E. apply Z.bits_inj'. intros j Hj.
    rewrite Z.land_spec, Z.shiftl_1_l, Z.bits_0. destruct (decide (j = k)) as [->|Hne]; [by rewrite Et|].
    rewrite Z.pow2_bits_false by done. apply andb_false_r.
Qed.

Lemma u8_lor_mask b k : 0 <= b < 256 -> 0 <= k < 8 -> u8 (Z.lor b (Z.shiftl 1 k)) = Z.lor b (Z.shiftl 1 k).
Proof.
  intros Hb Hk. unfold u8. rewrite Z.shiftl_1_l, <-Z.land_ones by lia. apply Z.bits_inj'. intros j Hj.
  rewrite Z.land_spec, Z.testbit_ones_nonneg by lia. destruct (Z.ltb_spec j 8); [by rewrite andb_true_r|].
  rewrite Z.lor_spec, Z.pow2_bits_false by lia.
  destruct (decide (b = 0)) as [->|]; [by rewrite Z.bits_0|].
  rewrite Z.bits_above_log2; [done|lia|]. apply Z.log2_lt_pow2; [lia|].
  apply Z.lt_le_trans with (2 ^ 8); [lia|]. apply Z.pow_le_mono_r; lia.
Qed.

Section bits.
Context (bi bj : Z) (d : list Z) (Hd : block_ok d) (Hi : 0 <= bi < BPB) (Hj : 0 <= bj < BPB).

Lemma bit_byte_lt z : 0 <= z < BPB -> (bit_byte z < length d)%nat.
Proof.
  destruct Hd as [Hl _]. intros Hz. unfold bit_byte, BPB, BSIZE in *. rewrite Hl.
  pose proof (Z.div_lt_upper_bound z 8 512 ltac:(lia) ltac:(lia)). pose proof (Z.div_pos z 8). lia.
Qed.
Lemma bit_byte_val z : 0 <= z < BPB -> 0 <= d !!! bit_byte z < 256.
Proof.
  intros Hz. destruct Hd as [_ Hb]. pose proof (bit_byte_lt z Hz) as Hl. apply lookup_lt_is_Some in Hl as [x Hx].
  rewrite (list_lookup_total_correct _ _ _ Hx). by eapply Forall_lookup_1 in Hb.
Qed.
Lemma same_byte : bit_byte bi = bit_byte bj -> bi <> bj -> bi mod 8 <> bj mod 8.
Proof.
  unfold bit_byte. intros E Hne Hm. apply Hne. apply Z2Nat.inj in E; [|by apply Z.div_pos; lia..].
  rewrite (Z.div_mod bi 8), (Z.div_mod bj 8) by lia. congruence.
Qed.

Lemma bit_at_byte v : bit_at bj (<[bit_byte bi := v]> d) =
  if decide (bit_byte bi = bit_byte bj) then Z.testbit v (bj mod 8) else bit_at bj d.
Proof.
  unfold bit_at. destruct (decide _) as [E|E].
  - rewrite <-E, list_lookup_total_insert_eq; [done|by apply bit_byte_lt].
  - by rewrite list_lookup_total_insert_ne.
Qed.

Lemma bit_at_set : bit_at bj (set_bit bi d) = bool_decide (bi = bj) || bit_at bj d.
Proof.
  unfold set_bit, bit_mask. rewrite bit_at_byte, u8_lor_mask, Z.lor_spec, Z.shiftl_1_l;
    [|by apply bit_byte_val|by apply Z.mod_pos_bound].
  pose proof (Z.mod_pos_bound bi 8 ltac:(lia)). destruct (decide _) as [E|E].
  - rewrite Z.pow2_bits_eqb by lia. unfold bit_at. rewrite E, orb_comm. f_equal.
    destruct (bool_decide_reflect (bi = bj)) as [->|Hne]; [apply Z.eqb_refl|]. apply Z.eqb_neq. by apply same_byte.
  - rewrite bool_decide_eq_false_2; [done|]. congruence.
Qed.
Lemma bit_at_clear : bit_at bj (clear_bit bi d) = negb (bool_decide (bi = bj)) && bit_at bj d.
Proof.
  unfold clear_bit, bit_mask. rewrite bit_at_byte. unfold u8.
  pose proof (Z.mod_pos_bound bi 8 ltac:(lia)). pose proof (Z.mod_pos_bound bj 8 ltac:(lia)). destruct (decide _) as [E|E].
  - rewrite Z.mod_pow2_bits_low by lia. rewrite Z.land_spec, Z.lnot_spec, Z.shiftl_1_l, Z.pow2_bits_eqb by lia.
    unfold bit_at. rewrite E, andb_comm. f_equal. f_equal.
    destruct (bool_decide_reflect (bi = bj)) as [->|Hne]; [apply Z.eqb_refl|]. apply Z.eqb_neq. by apply same_byte.
  - rewrite bool_decide_eq_false_2; [done|]. congruence.
Qed.
End bits.

Lemma set_bit_ok bi d : block_ok d -> block_ok (set_bit bi d).
Proof. intros [H1 H2]. split; [by unfold set_bit; rewrite length_insert|]. apply Forall_insert; [done|apply u8_range]. Qed.
Lemma clear_bit_ok bi d : block_ok d -> block_ok (clear_bit bi d).
Proof. intros [H1 H2]. split; [by unfold clear_bit; rewrite length_insert|]. apply Forall_insert; [done|apply u8_range]. Qed.

(** The inner loop of [balloc] finds the first clear bit. *)
Lemma free_bit_spec fuel size b bi d : BPB - bi <= Z.of_nat fuel ->
  match free_bit fuel size b bi d with
  | Some r => bi <= r < BPB /\ b + r < size /\ bit_at r d = false /\ forall j, bi <= j < r -> bit_at j d = true
  | None => forall j, bi <= j < BPB -> b + j < size -> bit_at j d = true
  end.
Proof.
  revert bi. induction fuel as [|fuel IH]; intros bi Hf; cbn [free_bit]; [intros; lia|].
  destruct (Z.ltb_spec bi BPB); cbn [andb]; [|intros; lia].
  destruct (Z.ltb_spec (b + bi) size); [|intros; lia].
  rewrite bit_free_at. destruct (bit_at bi d) eqn:Eb; cbn [negb].
  - specialize (IH (bi + 1) ltac:(lia)). destruct (free_bit fuel size b (bi + 1) d) as [r|].
    + destruct IH as (H1 & H2 & H3 & H4). split_and!; [lia..|done|]. intros j Hj.
      destruct (decide (j = bi)) as [->|]; [done|]. apply H4. lia.
    + intros j Hj Hs. destruct (decide (j = bi)) as [->|]; [done|]. apply IH; lia.
  - split_and!; [lia..|done|]. intros; lia.
Qed.

(** * Inodes *)

Definition dinode_ok (di : dinode) : Prop :=
  - 2 ^ 15 <= di_type di < 2 ^ 15 /\ - 2 ^ 15 <= di_major di < 2 ^ 15 /\ - 2 ^ 15 <= di_minor di < 2 ^ 15 /\
  - 2 ^ 15 <= di_nlink di < 2 ^ 15 /\ 0 <= di_size di < 2 ^ 32 /\
  length (di_addrs di) = 13%nat /\ Forall (fun a => 0 <= a < 2 ^ 32) (di_addrs di).

Lemma s16_u16 z : - 2 ^ 15 <= z < 2 ^ 15 -> s16 (u16 z) = z.
Proof. intros. unfold s16, u16. rewrite Zplus_mod_idemp_l, Z.mod_small by lia. lia. Qed.

Lemma addrs_bytes_length a : length (addrs_bytes a) = (4 * length a)%nat.
Proof. induction a as [|x a IH]; [done|]. unfold addrs_bytes in *. cbn [mbind list_bind]. rewrite length_app, le_bytes_length, IH. cbn. lia. Qed.
Lemma dinode_bytes_length di : length (di_addrs di) = 13%nat -> length (dinode_bytes di) = 64%nat.
Proof.
  intros H. unfold dinode_bytes. rewrite !length_app, !le_bytes_length, addrs_bytes_length, H. done.
Qed.

Lemma slice_app_skip {A} n k (xs ys : list A) off : length xs = k -> slice (k + off) n (xs ++ ys) = slice off n ys.
Proof. intros <-. unfold slice. by rewrite <-drop_drop, drop_app_length. Qed.
Lemma slice_app_here {A} n (xs ys : list A) : length xs = n -> slice 0 n (xs ++ ys) = xs.
Proof. intros <-. unfold slice. by rewrite drop_0, take_app_length. Qed.
Lemma slice_slice {A} off n o k (d : list A) : (o + k <= n)%nat -> slice o k (slice off n d) = slice (off + o) k d.
Proof.
  intros H. apply list_eq. intros i. rewrite !lookup_slice. destruct (decide (i < k)%nat); [|done].
  rewrite decide_True by lia. f_equal. lia.
Qed.

(** A field of an inode just stored. *)
Lemma load_stored (off : nat) (bs d : list Z) o k : (off + length bs <= length d)%nat -> (o + k <= length bs)%nat ->
  slice (off + o) k (splice off bs d) = slice o k bs.
Proof.
  intros H1 H2. rewrite <-(slice_slice off (length bs)) by done. by rewrite slice_splice_same by lia.
Qed.

Lemma addrs_bytes_lookup a i v : a !! i = Some v -> slice (4 * i) 4 (addrs_bytes a) = le_bytes 4 v.
Proof.
  revert i. induction a as [|x a IH]; intros i Hi; [done|]. unfold addrs_bytes in *. cbn [mbind list_bind].
  destruct i as [|i]; cbn in Hi.
  - injection Hi as ->. apply slice_app_here, le_bytes_length.
  - replace (4 * S i)%nat with (4 + 4 * i)%nat by lia. rewrite slice_app_skip by apply le_bytes_length. by apply IH.
Qed.

Lemma le_short z : - 2 ^ 15 <= z < 2 ^ 15 -> s16 (le_value (le_bytes 2 z)) = z.
Proof. intros. rewrite le_value_bytes. by apply s16_u16. Qed.
Lemma le_word z : 0 <= z < 2 ^ 32 -> le_value (le_bytes 4 z) = z.
Proof. intros. rewrite le_value_bytes. by apply Z.mod_small. Qed.

Lemma load_addrs_stored off d pre a : length pre = 12%nat -> length a = 13%nat -> (off + 64 <= length d)%nat ->
  Forall (fun a => 0 <= a < 2 ^ 32) a -> load_addrs 13 (off + 12) (splice off (pre ++ addrs_bytes a) d) = a.
Proof.
  intros Hp Ha Hd Hw. assert (Hlen : length (pre ++ addrs_bytes a) = 64%nat) by (rewrite length_app, addrs_bytes_length; lia).
  apply list_eq. intros i. unfold load_addrs. rewrite list_lookup_fmap.
  destruct (decide (i < 13)%nat) as [Hi|Hi].
  - rewrite lookup_seq_lt by done. cbn [fmap option_fmap option_map]. destruct (lookup_lt_is_Some_2 a i ltac:(lia)) as [v Hv].
    rewrite Hv. unfold ld32. replace (off + 12 + 4 * (0 + i))%nat with (off + (12 + 4 * i))%nat by lia.
    rewrite load_stored by lia. rewrite slice_app_skip by done. rewrite (addrs_bytes_lookup _ _ _ Hv).
    rewrite Forall_lookup in Hw. f_equal. apply le_word. by eapply Hw.
  - rewrite lookup_seq_ge by lia. cbn. symmetry. apply lookup_ge_None. lia.
Qed.

Lemma load_store_dinode off di d : dinode_ok di -> (off + 64 <= length d)%nat ->
  load_dinode off (store_dinode off di d) = di.
Proof.
  intros (Ht & Hma & Hmi & Hn & Hs & Hl & Ha) Hd. pose proof (dinode_bytes_length di Hl) as Hb.
  unfold load_dinode, store_dinode. destruct di as [t ma mi nl sz a]; cbn [di_type di_major di_minor di_nlink di_size di_addrs] in *.
  f_equal.
  - unfold ld16. replace off with (off + 0)%nat at 1 by lia. rewrite load_stored by lia. unfold dinode_bytes; cbn.
    by apply le_short.
  - unfold ld16. rewrite load_stored by lia. unfold dinode_bytes. cbn [di_type di_major di_minor di_nlink di_size di_addrs].
    by apply le_short.
  - unfold ld16. rewrite load_stored by lia. by apply le_short.
  - unfold ld16. rewrite load_stored by lia. by apply le_short.
  - unfold ld32. rewrite load_stored by lia. by apply le_word.
  - unfold dinode_bytes. cbn [di_type di_major di_minor di_nlink di_size di_addrs].
    rewrite !app_assoc. by apply load_addrs_stored.
Qed.

(** Inodes in one block do not overlap. *)
Lemma load_dinode_other off di d off' : (off + 64 <= length d)%nat -> length (di_addrs di) = 13%nat ->
  (off' + 64 <= off \/ off + 64 <= off')%nat -> load_dinode off' (store_dinode off di d) = load_dinode off' d.
Proof.
  intros Hd Hl Ho. pose proof (dinode_bytes_length di Hl) as Hb.
  assert (Hs : forall o k, (o + k <= 64)%nat -> slice (off' + o) k (store_dinode off di d) = slice (off' + o) k d).
  { intros o k Hk. unfold store_dinode. apply slice_splice_other; lia. }
  unfold load_dinode, ld16, ld32. f_equal; rewrite <-?Hs by lia; try done.
  - f_equal. f_equal. pose proof (Hs 0 2)%nat as H0. rewrite Nat.add_0_r in H0. apply H0. lia.
  - apply list_fmap_ext. intros i j Hj. apply lookup_seq in Hj as [-> Hj]. unfold ld32.
    rewrite <-!Nat.add_assoc, Hs by lia. done.
Qed.

Lemma dinode_off_range inum : (dinode_off inum + 64 <= Z.to_nat BSIZE)%nat.
Proof.
  unfold dinode_off, DINODE_SIZE. pose proof (Z.mod_pos_bound inum IPB). unfold IPB, DINODE_SIZE, BSIZE in *.
  change (512 / 64) with 8 in *. lia.
Qed.
Lemma dinode_off_apart i j : 0 <= i -> 0 <= j -> i <> j -> i / IPB = j / IPB ->
  (dinode_off j + 64 <= dinode_off i \/ dinode_off i + 64 <= dinode_off j)%nat.
Proof.
  intros Hi Hj Hne E. unfold dinode_off, DINODE_SIZE. change IPB with 8 in *.
  pose proof (Z.div_mod i 8). pose proof (Z.div_mod j 8). pose proof (Z.mod_pos_bound i 8). pose proof (Z.mod_pos_bound j 8).
  lia.
Qed.
Lemma store_dinode_ok inum di d : length (di_addrs di) = 13%nat -> block_ok d -> block_ok (store_dinode (dinode_off inum) di d).
Proof.
  intros Hl [H1 H2]. pose proof (dinode_off_range inum). pose proof (dinode_bytes_length di Hl) as Hb. split.
  - unfold store_dinode. rewrite splice_length; lia.
  - apply byte_list_splice; [|done]. unfold dinode_bytes. repeat apply Forall_app_2; try apply le_bytes_byte.
    unfold addrs_bytes. apply Forall_bind, Forall_true. intros x. apply le_bytes_byte.
Qed.
