(* ===== verification/FsFacts.v ===== *)
(** What the block and inode routines of fs.c do, against the laws of the block layer. *)

From stdpp Require Import base tactics numbers option list gmap sets strings.
From Stdlib Require Import ZArith Lia.
From S2P Require Import Prelude ProcDefs Spinlock Block BlockFacts BioFacts Bytes Log LogFacts Fs FsLayout.

(** * Layout of the disk *)

Definition bitmap_block (sb : superblock) (n : Z) : Prop := exists b, 0 <= b < sb_size sb /\ n = BBLOCK b sb.
Definition inode_block (sb : superblock) (n : Z) : Prop := exists i, 0 <= i < sb_ninodes sb /\ n = IBLOCK i sb.
(** Blocks that hold file contents. *)
Definition data_block (start : Z) (sb : superblock) (n : Z) : Prop :=
  0 <= n < sb_size sb /\ loggable start n /\ ~ bitmap_block sb n /\ ~ inode_block sb n.

Record geometry (start : Z) (sb : superblock) : Prop := {
  ge_size : 0 < sb_size sb <= FSSIZE;
  ge_bmapstart : 0 <= sb_bmapstart sb < FSSIZE;
  ge_inodestart : 0 <= sb_inodestart sb < FSSIZE;
  ge_ninodes : sb_ninodes sb <= FSSIZE * IPB;
  ge_bitmap : forall n, bitmap_block sb n -> loggable start n;
  ge_inodes : forall n, inode_block sb n -> loggable start n;
  ge_apart : forall n, bitmap_block sb n -> ~ inode_block sb n
}.

(** Block [b] is marked in the free map. *)
Definition used (sb : superblock) (V : image) (b : Z) : Prop := bit_at (b mod BPB) (V (BBLOCK b sb)) = true.
#[global] Instance used_dec sb V b : Decision (used sb V b).
Proof. unfold used. apply _. Defined.

(** The blocks on disk: well formed, described by [sb], and only data blocks are free. *)
Record volume (start : Z) (sb : superblock) (V : image) : Prop := {
  vo_geo : geometry start sb;
  vo_img : forall n, loggable start n -> block_ok (V n);
  vo_sb : decode_sb (V 1) = sb;
  vo_free : forall n, 0 <= n < sb_size sb -> ~ used sb V n -> data_block start sb n
}.

(** The free blocks. *)
Definition free_set (sb : superblock) (V : image) : gset Z :=
  list_to_set (filter (fun b => ~ used sb V b) (seqZ 0 (sb_size sb))).
Lemma elem_free_set sb V b : b ∈ free_set sb V <-> 0 <= b < sb_size sb /\ ~ used sb V b.
Proof. unfold free_set. rewrite elem_of_list_to_set, list_elem_of_filter, elem_of_seqZ. split; intros []; split; done || lia. Qed.

Definition zero_block : list Z := replicate (Z.to_nat BSIZE) 0.
Lemma zero_block_ok : block_ok zero_block.
Proof. split; [apply length_replicate|]. by apply Forall_replicate. Qed.
Lemma zero_splice d : block_ok d -> splice 0 zero_block d = zero_block.
Proof.
  intros [Hl _]. unfold splice. rewrite take_0. unfold zero_block. rewrite length_replicate, drop_ge by lia.
  apply app_nil_r.
Qed.

(** The effect of taking block [r]. *)
Definition mark (sb : superblock) (V : image) (r : Z) : image := upd V (BBLOCK r sb) (set_bit (r mod BPB) (V (BBLOCK r sb))).
Definition unmark (sb : superblock) (V : image) (r : Z) : image := upd V (BBLOCK r sb) (clear_bit (r mod BPB) (V (BBLOCK r sb))).
Definition taken (sb : superblock) (V : image) (r : Z) : image := upd (mark sb V r) r zero_block.

Section layout.
Context {start : Z} {sb : superblock}.

Lemma bit_range b : 0 <= b mod BPB < BPB.
Proof. by apply Z.mod_pos_bound. Qed.
Lemma BBLOCK_small b : geometry start sb -> 0 <= b < sb_size sb -> BBLOCK b sb = b / BPB + sb_bmapstart sb.
Proof.
  intros G Hb. destruct (ge_size _ _ G), (ge_bmapstart _ _ G). unfold BBLOCK. apply u32_small.
  pose proof (Z.div_pos b BPB). pose proof (Z.div_le_upper_bound b BPB b). unfold BPB, BSIZE, FSSIZE in *. nia.
Qed.
Lemma bit_place b c : geometry start sb -> 0 <= b < sb_size sb -> 0 <= c < sb_size sb ->
  BBLOCK b sb = BBLOCK c sb -> b mod BPB = c mod BPB -> b = c.
Proof.
  intros G Hb Hc E Em. rewrite !BBLOCK_small in E by done. rewrite (Z.div_mod b BPB), (Z.div_mod c BPB) by done.
  f_equal; [f_equal; lia|done].
Qed.
Lemma bitmap_of b : 0 <= b < sb_size sb -> bitmap_block sb (BBLOCK b sb).
Proof. by exists b. Qed.

Context {V : image} (HV : volume start sb V).

Lemma bitmap_block_ok b : 0 <= b < sb_size sb -> block_ok (V (BBLOCK b sb)).
Proof. intros Hb. apply HV. eapply ge_bitmap; [apply HV|by apply bitmap_of]. Qed.

Lemma used_mark r b : 0 <= r < sb_size sb -> 0 <= b < sb_size sb -> used sb (mark sb V r) b <-> b = r \/ used sb V b.
Proof.
  intros Hr Hb. unfold used, mark. destruct (decide (BBLOCK b sb = BBLOCK r sb)) as [E|E].
  - rewrite E, upd_eq, bit_at_set; [|by apply bitmap_block_ok|apply bit_range..].
    destruct (bool_decide_reflect (r mod BPB = b mod BPB)) as [Em|Em]; cbn.
    + split; [|done]. left. by eapply bit_place; [apply HV|..].
    + split; [by right|]. intros [->|?]; done.
  - rewrite upd_ne by done. split; [by right|]. intros [->|?]; done.
Qed.
Lemma used_unmark r b : 0 <= r < sb_size sb -> 0 <= b < sb_size sb -> used sb (unmark sb V r) b <-> b <> r /\ used sb V b.
Proof.
  intros Hr Hb. unfold used, unmark. destruct (decide (BBLOCK b sb = BBLOCK r sb)) as [E|E].
  - rewrite E, upd_eq, bit_at_clear; [|by apply bitmap_block_ok|apply bit_range..].
    destruct (bool_decide_reflect (r mod BPB = b mod BPB)) as [Em|Em]; cbn.
    + split; [done|]. intros [Hne _]. destruct Hne. by eapply bit_place; [apply HV|..].
    + split; [|by intros []]. split; [|done]. intros ->. done.
  - rewrite upd_ne by done. split; [|by intros []]. split; [|done]. intros ->. done.
Qed.

(** Changing blocks other than the super block and the free map. *)
Lemma used_upd n d b : ~ bitmap_block sb n -> 0 <= b < sb_size sb -> used sb (upd V n d) b <-> used sb V b.
Proof. intros Hn Hb. unfold used. rewrite upd_ne; [done|]. intros E. apply Hn. rewrite <-E. by apply bitmap_of. Qed.
Lemma volume_upd n d : n <> 1 -> ~ bitmap_block sb n -> block_ok d -> volume start sb (upd V n d).
Proof.
  intros H1 Hn Hd. split; [apply HV| | |].
  - intros m Hm. destruct (decide (m = n)) as [->|]; [by rewrite upd_eq|]. rewrite upd_ne by done. by apply HV.
  - rewrite upd_ne by done. apply HV.
  - intros m Hm. rewrite used_upd by done. by apply HV.
Qed.
Lemma volume_mark r : 0 <= r < sb_size sb -> volume start sb (mark sb V r).
Proof.
  intros Hr. assert (Hb : bitmap_block sb (BBLOCK r sb)) by (by apply bitmap_of).
  pose proof (ge_bitmap _ _ (vo_geo _ _ _ HV) _ Hb) as [Hl _]. split; [apply HV| | |].
  - intros m Hm. unfold mark. destruct (decide (m = BBLOCK r sb)) as [->|]; [|rewrite upd_ne by done; by apply HV].
    rewrite upd_eq. by apply set_bit_ok, HV.
  - unfold mark. rewrite upd_ne by lia. apply HV.
  - intros m Hm. rewrite used_mark by done. intros Hu. apply HV; [done|]. tauto.
Qed.
End layout.

Lemma volume_taken {start sb V} (HV : volume start sb V) r : 0 <= r < sb_size sb -> ~ used sb V r ->
  volume start sb (taken sb V r) /\
  (forall b, 0 <= b < sb_size sb -> used sb (taken sb V r) b <-> b = r \/ used sb V b) /\
  free_set sb (taken sb V r) = free_set sb V ∖ {[r]}.
Proof.
  intros Hr Hu. pose proof (vo_free _ _ _ HV r Hr Hu) as (_ & [Hl _] & Hnb & _).
  pose proof (volume_mark HV r Hr) as HM.
  assert (Hub : forall b, 0 <= b < sb_size sb -> used sb (taken sb V r) b <-> b = r \/ used sb V b).
  { intros b Hb. unfold taken. rewrite used_upd by done. by apply (used_mark HV). }
  split; [|split; [done|]].
  - apply volume_upd; [done|lia|done|apply zero_block_ok].
  - apply set_eq. intros b. rewrite elem_of_difference, !elem_free_set, elem_of_singleton. split.
    + intros [Hb Hn]. rewrite Hub in Hn by done. tauto.
    + intros [[Hb Hn] Hne]. split; [done|]. rewrite Hub by done. tauto.
Qed.

(** * Rules for the operations on blocks *)

Section reading.
Context {B : Type} {IO : BlockIO B} {RD : BlockIORead B}.

(** A state of the file system with its spin locks free. *)
Record fsok (s : fs B) (V D : image) (L : gset Z) (held : gmap nat Z) : Prop := {
  fo_io : io_ok (fs_io s) V D L held;
  fo_lk : lk_locked (fs_lk s) = 0;
  fo_guards : Forall (fun r => lk_locked (i_guard r) = 0) (fs_inodes s)
}.

Lemma wp_on_io {A} (m : M B A) (Q : A -> fs B -> Prop) s :
  wp m (fun a t => Q a (set_io t s)) (fs_io s) -> wp (on_io m) Q s.
Proof. intros H. unfold on_io. by apply wp_zoom. Qed.

Lemma fsok_io s t V D L held V' D' L' held' : fsok s V D L held -> io_ok t V' D' L' held' ->
  fsok (set_io t s) V' D' L' held'.
Proof. intros [_ H1 H2] H. by split. Qed.

(** No buffer is held for block [n]. *)
Definition unheld (held : gmap nat Z) (n : Z) : Prop := forall i, held !! i <> Some n.

Lemma fbread_rule s V D L held n (Q : nat -> fs B -> Prop) : fsok s V D L held -> 0 <= n < FSSIZE ->
  unheld held n -> (size (L ∪ map_img held) < NBUF)%nat ->
  (forall b t, held !! b = None -> fsok (set_io t s) V D L (<[b := n]> held) -> Q b (set_io t s)) ->
  wp (fbread ROOTDEV n) Q s.
Proof.
  intros H Hn Hh Hsz HQ. apply wp_on_io. eapply wp_mono; [apply (io_bread_law _ _ _ _ _ _ (fo_io _ _ _ _ _ H)); done|].
  cbn beta. intros b t [Hb Ht]. apply HQ; [done|]. by eapply fsok_io.
Qed.
Lemma fdata_rule s V D L held b n (Q : list Z -> fs B -> Prop) : fsok s V D L held -> held !! b = Some n ->
  Q (V n) s -> wp (fdata b) Q s.
Proof.
  intros H Hb HQ. apply wp_on_io. eapply wp_mono; [apply (io_data_law _ _ _ _ _ _ _ (fo_io _ _ _ _ _ H) Hb)|].
  cbn beta. intros d t [-> ->]. by destruct s.
Qed.
Lemma fbrelse_rule s V D L held b n (Q : unit -> fs B -> Prop) : fsok s V D L held -> held !! b = Some n ->
  n ∈ L \/ V n = D n ->
  (forall t, fsok (set_io t s) V D L (delete b held) -> Q tt (set_io t s)) -> wp (fbrelse b) Q s.
Proof.
  intros H Hb Hl HQ. apply wp_on_io.
  eapply wp_mono; [apply (io_brelse_law _ _ _ _ _ _ _ (fo_io _ _ _ _ _ H) Hb Hl)|].
  cbn beta. intros [] t Ht. apply HQ. by eapply fsok_io.
Qed.

(** [bp = bread(n); ... bp->data ...] *)
Lemma fetch_rule {A} s V D L held n (f : nat -> list Z -> M (fs B) A) (Q : A -> fs B -> Prop) :
  fsok s V D L held -> 0 <= n < FSSIZE -> unheld held n -> (size (L ∪ map_img held) < NBUF)%nat ->
  (forall b t, held !! b = None -> n ∈ L \/ V n = D n -> fsok (set_io t s) V D L (<[b := n]> held) ->
    wp (f b (V n)) Q (set_io t s)) ->
  wp (bp ← fbread ROOTDEV n; d ← fdata bp; f bp d) Q s.
Proof.
  intros H Hn Hh Hs Hf. wp_step. eapply fbread_rule; [done..|]. intros b t Hb Ht. wp_step.
  eapply fdata_rule; [done|apply lookup_insert_eq|]. apply Hf; [done| |done].
  destruct (decide (n ∈ L)); [by left|right]. by eapply io_clean; [apply H|..].
Qed.
(** [... brelse(bp); ...] of a block that was only read. *)
Lemma done_rule s V D L held b n (Q : unit -> fs B -> Prop) : fsok s V D L (<[b := n]> held) -> held !! b = None ->
  n ∈ L \/ V n = D n -> (forall t, fsok (set_io t s) V D L held -> Q tt (set_io t s)) -> wp (fbrelse b) Q s.
Proof.
  intros H Hb Hc HQ. eapply fbrelse_rule; [done|apply lookup_insert_eq|done|].
  rewrite delete_insert_id by done. done.
Qed.

Lemma set_io_sb (s : fs B) t sb : fs_sb s = sb -> set_sb sb (set_io t s) = set_io t s.
Proof. by intros <-. Qed.

Lemma fs_readsb_rule start s V D L held sb (Q : unit -> fs B -> Prop) : fsok s V D L held -> fs_sb s = sb ->
  volume start sb V -> unheld held 1 -> (size (L ∪ map_img held) < NBUF)%nat ->
  (forall t, fsok (set_io t s) V D L held -> Q tt (set_io t s)) -> wp (fs_readsb ROOTDEV) Q s.
Proof.
  intros H Hsb HV Hh Hs HQ. unfold fs_readsb. eapply fetch_rule; [done|unfold FSSIZE; lia|done|done|].
  intros b t Hb Hc Ht. wp_steps. rewrite (vo_sb _ _ _ HV), set_io_sb by done. eapply done_rule; [done..|].
  intros t2 H2. by apply HQ.
Qed.
End reading.

Section ops.
Context {B : Type} {IO : BlockIO B} {start : Z} {LW : BlockIOLaws B start}.
Context (me : nat) (pid : Z).

Lemma fset_rule s V D L held b n d (Q : unit -> fs B -> Prop) : fsok s V D L held -> held !! b = Some n ->
  (forall t, fsok (set_io t s) (upd V n d) D L held -> Q tt (set_io t s)) -> wp (fset b d) Q s.
Proof.
  intros H Hb HQ. apply wp_on_io. eapply wp_mono; [apply (io_set_law _ _ _ _ _ _ _ d (fo_io _ _ _ _ _ H) Hb)|].
  cbn beta. intros [] t Ht. apply HQ. by eapply fsok_io.
Qed.
Lemma flog_write_rule s V D L held b n (Q : unit -> fs B -> Prop) : fsok s V D L held -> held !! b = Some n ->
  loggable start n -> (size L <= LOGROOM)%nat ->
  (forall t, fsok (set_io t s) V D ({[n]} ∪ L) held -> Q tt (set_io t s)) -> wp (flog_write b) Q s.
Proof.
  intros H Hb Hl Hs HQ. apply wp_on_io.
  eapply wp_mono; [apply (io_log_write_law _ _ _ _ _ _ _ (fo_io _ _ _ _ _ H) Hb Hl Hs)|].
  cbn beta. intros [] t Ht. apply HQ. by eapply fsok_io.
Qed.

(** [bp->data = ...; log_write(bp); brelse(bp); ...] *)
Lemma put_rule {A} s V D L held b n d (k : M (fs B) A) (Q : A -> fs B -> Prop) :
  fsok s V D L (<[b := n]> held) -> held !! b = None -> loggable start n -> (size L <= LOGROOM)%nat ->
  (forall t, fsok (set_io t s) (upd V n d) D ({[n]} ∪ L) held -> wp k Q (set_io t s)) ->
  wp (fset b d;; flog_write b;; fbrelse b;; k) Q s.
Proof.
  intros H Hb Hl Hs Hk. wp_step. eapply fset_rule; [done|apply lookup_insert_eq|]. intros t1 H1. wp_step.
  eapply flog_write_rule; [done|apply lookup_insert_eq|done|done|]. intros t2 H2. wp_step.
  eapply done_rule; [done|done|left; set_solver|]. intros t3 H3. by apply Hk.
Qed.
Lemma put_end_rule s V D L held b n d (Q : unit -> fs B -> Prop) :
  fsok s V D L (<[b := n]> held) -> held !! b = None -> loggable start n -> (size L <= LOGROOM)%nat ->
  (forall t, fsok (set_io t s) (upd V n d) D ({[n]} ∪ L) held -> Q tt (set_io t s)) ->
  wp (fset b d;; flog_write b;; fbrelse b) Q s.
Proof.
  intros H Hb Hl Hs Hk. wp_step. eapply fset_rule; [done|apply lookup_insert_eq|]. intros t1 H1. wp_step.
  eapply flog_write_rule; [done|apply lookup_insert_eq|done|done|]. intros t2 H2.
  eapply done_rule; [done|done|left; set_solver|]. intros t3 H3. by apply Hk.
Qed.

(** * balloc and bfree *)

(** The held buffers are no obstacle to allocation: neither free-map nor free blocks. *)
Definition held_used (sb : superblock) (V : image) (held : gmap nat Z) : Prop :=
  forall i n, held !! i = Some n -> ~ bitmap_block sb n /\ (0 <= n < sb_size sb -> used sb V n).

Lemma size_add (L X : gset Z) n k : (size (L ∪ X) <= k)%nat -> (size (({[n]} ∪ L) ∪ X) <= S k)%nat.
Proof.
  intros H. rewrite <-(assoc_L (∪)). pose proof (size_union_alt {[n]} (L ∪ X)) as E.
  assert (size ((L ∪ X) ∖ {[n]}) <= size (L ∪ X))%nat by (apply subseteq_size; set_solver).
  rewrite size_singleton in E. lia.
Qed.
Lemma size_left (L X : gset Z) k : (size (L ∪ X) <= k)%nat -> (size L <= k)%nat.
Proof. intros H. etrans; [|exact H]. apply subseteq_size. set_solver. Qed.

Lemma bzero_rule s V D L held n (Q : unit -> fs B -> Prop) : fsok s V D L held -> block_ok (V n) -> loggable start n ->
  unheld held n -> (size (L ∪ map_img held) <= LOGROOM)%nat ->
  (forall t, fsok (set_io t s) (upd V n zero_block) D ({[n]} ∪ L) held -> Q tt (set_io t s)) ->
  wp (bzero ROOTDEV n) Q s.
Proof.
  intros H Hv Hl Hh Hs HQ. pose proof (size_left _ _ _ Hs) as HsL. unfold bzero.
  eapply fetch_rule; [done|destruct Hl; lia|done|unfold LOGROOM, NBUF in *; lia|].
  intros b t Hb _ Ht. fold zero_block. rewrite zero_splice by done. eapply put_end_rule; [done..|].
  intros t2 H2. by apply HQ.
Qed.

(** [r] is the first free block. *)
Definition first_free (sb : superblock) (V : image) (r : Z) : Prop :=
  0 <= r < sb_size sb /\ ~ used sb V r /\ forall b, 0 <= b < r -> used sb V b.

Lemma block_split b bi : b mod BPB = 0 -> 0 <= bi < BPB -> (b + bi) / BPB = b / BPB /\ (b + bi) mod BPB = bi.
Proof.
  intros Hb Hi. pose proof (Z.div_mod b BPB ltac:(done)) as E. rewrite Hb, Z.add_0_r in E.
  split; [symmetry; apply (Z.div_unique _ _ _ bi); lia|]. rewrite E, Z.add_comm, Z.mul_comm, Z.mod_add by done.
  by apply Z.mod_small.
Qed.

Section balloc.
Context (s0 : fs B) (V D : image) (L : gset Z) (held : gmap nat Z) (sb : superblock).
Context (Hsb : fs_sb s0 = sb) (HV : volume start sb V) (Hheld : held_used sb V held).
Context (Hroom : (size (L ∪ map_img held) < LOGROOM)%nat) (Hfree : free_set sb V ≠ ∅).

Lemma balloc_from_spec fuel t b (Q : Z -> fs B -> Prop) :
  fsok (set_io t s0) V D L held -> 0 <= b -> b mod BPB = 0 ->
  (forall c, 0 <= c < b -> c < sb_size sb -> used sb V c) -> sb_size sb - b <= (Z.of_nat fuel - 1) * BPB -> (0 < fuel)%nat ->
  (forall r t, first_free sb V r ->
    fsok (set_io t s0) (taken sb V r) D ({[r]} ∪ ({[BBLOCK r sb]} ∪ L)) held -> Q r (set_io t s0)) ->
  wp (balloc_from fuel ROOTDEV b) Q (set_io t s0).
Proof.
  revert t b. induction fuel as [|fuel IH]; intros t b H Hb Hbm Hlow Hf Hpos HQ; [lia|]. cbn [balloc_from].
  wp_steps. cbn [fs_sb set_io]. rewrite Hsb. pose proof (vo_geo _ _ _ HV) as G.
  destruct (Z.ltb_spec b (sb_size sb)) as [Hlt|Hge].
  2: { destruct Hfree. apply set_eq. intros c. split; [|set_solver]. rewrite elem_free_set. intros [Hc Hu].
       destruct Hu. apply Hlow; lia. }
  assert (Hbb : bitmap_block sb (BBLOCK b sb)) by (apply bitmap_of; lia).
  pose proof (ge_bitmap _ _ G _ Hbb) as Hlog. pose proof (size_left L (map_img held) 27 ltac:(unfold LOGROOM in Hroom; lia)) as HsL.
  eapply fetch_rule; [done|destruct Hlog; lia| |unfold LOGROOM, NBUF in *; lia|].
  { intros i Hi. by destruct (Hheld _ _ Hi). }
  intros bp t1 Hbp Hclean H1. pose proof (free_bit_spec (Z.to_nat BPB) (sb_size sb) b 0 (V (BBLOCK b sb)) ltac:(done)) as Hfb.
  destruct (free_bit _ _ _ _ _) as [bi|].
  - destruct Hfb as (Hbi & Hsz & Hbit & Hbefore). destruct (block_split b bi Hbm Hbi) as [Ed Em].
    assert (HbE : BBLOCK (b + bi) sb = BBLOCK b sb) by (unfold BBLOCK; by rewrite Ed).
    assert (Hnu : ~ used sb V (b + bi)) by (unfold used; rewrite HbE, Em, Hbit; done).
    assert (Hff : first_free sb V (b + bi)).
    { split; [lia|]. split; [done|]. intros c Hc. destruct (decide (c < b)); [apply Hlow; lia|].
      destruct (block_split b (c - b) Hbm ltac:(lia)) as [Ed' Em']. replace (b + (c - b)) with c in * by lia.
      unfold used. unfold BBLOCK. rewrite Ed', Em'. apply Hbefore. lia. }
    pose proof (vo_free _ _ _ HV (b + bi) ltac:(lia) Hnu) as (_ & Hdl & Hdb & _).
    eapply put_rule; [done|done|done|unfold LOGROOM; lia|]. intros t2 H2. wp_step.
    eapply bzero_rule; [exact H2| |done| | |].
    + destruct (decide (b + bi = BBLOCK b sb)) as [E|E]; [rewrite E, upd_eq; by apply set_bit_ok, HV|].
      rewrite upd_ne by done. by apply HV.
    + intros i Hi. destruct (Hheld _ _ Hi) as [_ Hu]. apply Hnu, Hu. lia.
    + apply size_add. unfold LOGROOM in *. lia.
    + intros t3 H3. wp_step. apply HQ; [done|]. unfold taken, mark. rewrite HbE, Em. exact H3.
  - wp_step. eapply done_rule; [done..|]. intros t2 H2. eapply (IH t2); [done|unfold BPB, BSIZE; lia| | | |..].
    + by rewrite <-(Z.mul_1_l BPB) at 1; rewrite Z.mod_add.
    + intros c Hc Hcs. destruct (decide (c < b)); [apply Hlow; lia|].
      destruct (block_split b (c - b) Hbm ltac:(lia)) as [Ed' Em']. replace (b + (c - b)) with c in * by lia.
      unfold used. unfold BBLOCK. rewrite Ed', Em'. apply Hfb; lia.
    + unfold BPB, BSIZE in *. lia.
    + unfold BPB, BSIZE in *. lia.
    + done.
Qed.

Lemma balloc_spec (Q : Z -> fs B -> Prop) : fsok s0 V D L held ->
  (forall r t, first_free sb V r ->
    fsok (set_io t s0) (taken sb V r) D ({[r]} ∪ ({[BBLOCK r sb]} ∪ L)) held -> Q r (set_io t s0)) ->
  wp (balloc ROOTDEV) Q s0.
Proof.
  intros H HQ. unfold balloc. wp_steps. rewrite Hsb. destruct (ge_size _ _ (vo_geo _ _ _ HV)).
  assert (E : s0 = set_io (fs_io s0) s0) by (by destruct s0). rewrite E.
  apply balloc_from_spec; [by rewrite <-E|done|done|intros; lia| |lia|done].
  pose proof (Z.div_mod (sb_size sb) BPB ltac:(done)). pose proof (Z.mod_pos_bound (sb_size sb) BPB ltac:(done)).
  pose proof (Z.div_pos (sb_size sb) BPB ltac:(lia) ltac:(done)). lia.
Qed.
End balloc.



Lemma bfree_spec s V D L held sb b (Q : unit -> fs B -> Prop) : fsok s V D L held -> fs_sb s = sb ->
  volume start sb V -> 0 <= b < sb_size sb -> used sb V b -> unheld held 1 -> unheld held (BBLOCK b sb) ->
  (size (L ∪ map_img held) <= LOGROOM)%nat ->
  (forall t, fsok (set_io t s) (unmark sb V b) D ({[BBLOCK b sb]} ∪ L) held -> Q tt (set_io t s)) ->
  wp (bfree ROOTDEV b) Q s.
Proof.
  intros H Hsb HV Hb Hu Hh1 Hhb Hs HQ. pose proof (size_left _ _ _ Hs) as HsL.
  pose proof (ge_bitmap _ _ (vo_geo _ _ _ HV) _ (bitmap_of b Hb)) as Hlog.
  unfold bfree. wp_step. eapply (fs_readsb_rule start); [done..|unfold LOGROOM, NBUF in *; lia|]. intros t1 H1.
  do 2 wp_step. cbn [fs_sb set_io]. rewrite Hsb.
  eapply fetch_rule; [done|destruct Hlog; lia|done|unfold LOGROOM, NBUF in *; lia|].
  intros bp t2 Hbp _ H2. wp_step. apply wp_panic_if; [by rewrite bit_free_at, Hu|].
  eapply put_end_rule; [done..|]. intros t3 H3. by apply HQ.
Qed.

(** * Inodes on disk *)

(** The inode with number [inum]. *)
Definition disk_inode (sb : superblock) (V : image) (inum : Z) : dinode :=
  load_dinode (dinode_off inum) (V (IBLOCK inum sb)).
Definition put_inode (sb : superblock) (V : image) (inum : Z) (di : dinode) : image :=
  upd V (IBLOCK inum sb) (store_dinode (dinode_off inum) di (V (IBLOCK inum sb))).

Lemma IBLOCK_small sb i : geometry start sb -> 0 <= i < sb_ninodes sb -> IBLOCK i sb = i / IPB + sb_inodestart sb.
Proof using Type.
  intros G Hi. pose proof (ge_ninodes _ _ G). destruct (ge_inodestart _ _ G). unfold IBLOCK. apply u32_small.
  pose proof (Z.div_pos i IPB ltac:(lia) ltac:(done)). pose proof (Z.div_lt_upper_bound i IPB FSSIZE ltac:(done) ltac:(lia)).
  unfold FSSIZE in *. lia.
Qed.

Lemma disk_inode_put sb V i j di : volume start sb V -> 0 <= i < sb_ninodes sb -> 0 <= j < sb_ninodes sb ->
  dinode_ok di -> disk_inode sb (put_inode sb V i di) j = if decide (i = j) then di else disk_inode sb V j.
Proof using Type.
  intros HV Hi Hj Hdi. pose proof (vo_geo _ _ _ HV) as G. unfold disk_inode, put_inode.
  assert (Hib : inode_block sb (IBLOCK i sb)) by (by exists i).
  destruct (vo_img _ _ _ HV _ (ge_inodes _ _ G _ Hib)) as [Hlen _]. pose proof (dinode_off_range i) as Hr.
  destruct (decide (i = j)) as [->|Hne].
  - rewrite upd_eq. apply load_store_dinode; [done|lia].
  - destruct (decide (IBLOCK j sb = IBLOCK i sb)) as [E|E]; [|by rewrite upd_ne].
    rewrite E, upd_eq. apply load_dinode_other; [lia|apply Hdi|].
    apply dinode_off_apart; [lia..|]. rewrite !IBLOCK_small in E by done. lia.
Qed.

Lemma volume_put_inode sb V i di : volume start sb V -> 0 <= i < sb_ninodes sb -> length (di_addrs di) = 13%nat ->
  volume start sb (put_inode sb V i di) /\ forall b, 0 <= b < sb_size sb -> used sb (put_inode sb V i di) b <-> used sb V b.
Proof using Type.
  intros HV Hi Hdi. pose proof (vo_geo _ _ _ HV) as G. assert (Hib : inode_block sb (IBLOCK i sb)) by (by exists i).
  assert (Hnb : ~ bitmap_block sb (IBLOCK i sb)) by (intros Hb; by eapply ge_apart).
  destruct (ge_inodes _ _ G _ Hib) as [Hl _]. split.
  - apply volume_upd; [done|lia|done|]. apply store_dinode_ok; [done|]. apply HV. by eapply ge_inodes.
  - intros b Hb. by apply used_upd.
Qed.

Lemma iupdate_spec s V D L held sb ip r (Q : unit -> fs B -> Prop) : fsok s V D L held -> fs_sb s = sb ->
  volume start sb V -> fs_inodes s !! ip = Some r -> i_dev r = ROOTDEV -> 0 <= i_inum r < sb_ninodes sb ->
  unheld held (IBLOCK (i_inum r) sb) -> (size (L ∪ map_img held) <= LOGROOM)%nat ->
  (forall t, fsok (set_io t s) (put_inode sb V (i_inum r) (to_dinode r)) D ({[IBLOCK (i_inum r) sb]} ∪ L) held ->
    Q tt (set_io t s)) ->
  wp (iupdate ip) Q s.
Proof.
  intros H Hsb HV Hr Hdev Hi Hh Hs HQ. pose proof (size_left _ _ _ Hs) as HsL. unfold iupdate, ird. wp_step.
  eapply wp_deref; [by rewrite Hr|]. cbn [id]. do 2 wp_step. rewrite Hsb, Hdev.
  assert (Hib : inode_block sb (IBLOCK (i_inum r) sb)) by (by exists (i_inum r)).
  pose proof (ge_inodes _ _ (vo_geo _ _ _ HV) _ Hib) as Hlog.
  eapply fetch_rule; [done|destruct Hlog; lia|done|unfold LOGROOM, NBUF in *; lia|]. intros b t Hb _ Ht.
  eapply put_end_rule; [done..|]. intros t2 H2. by apply HQ.
Qed.
End ops.
