(* ===== verification/FsData.v ===== *)
(** Contents of files: [bmap], [readi] and [writei] of fs.c. *)

From stdpp Require Import base tactics numbers option list gmap sets strings.
From Stdlib Require Import ZArith Lia.
From S2P Require Import Prelude ProcDefs Spinlock Block BlockFacts BioFacts Bytes Log LogFacts Fs FsLayout FsFacts.

(** * The blocks of a file *)

(** The indirect block, and the block that holds block [bn] of the file; 0 for none. *)
Definition indirect (a : list Z) : Z := a !!! Z.to_nat NDIRECT.
Definition fblk (V : image) (a : list Z) (bn : Z) : Z :=
  if bn <? NDIRECT then a !!! Z.to_nat bn
  else if indirect a =? 0 then 0 else ld32 (Z.to_nat (4 * (bn - NDIRECT))) (V (indirect a)).

(** A file owns data blocks that are marked in the free map, each in one place. *)
Record file_ok (start : Z) (sb : superblock) (V : image) (a : list Z) : Prop := {
  fl_len : length a = 13%nat;
  fl_ind : indirect a <> 0 -> data_block start sb (indirect a) /\ used sb V (indirect a);
  fl_data : forall bn, 0 <= bn < MAXFILE -> fblk V a bn <> 0 ->
    data_block start sb (fblk V a bn) /\ used sb V (fblk V a bn) /\ fblk V a bn <> indirect a;
  fl_inj : forall bn bn', 0 <= bn < MAXFILE -> 0 <= bn' < MAXFILE -> fblk V a bn <> 0 ->
    fblk V a bn = fblk V a bn' -> bn = bn'
}.

(** What allocation for a file leaves alone: everything but the free map, the free
    blocks and the indirect block [ind]. *)
Record kept (start : Z) (sb : superblock) (V V' : image) (ind : Z) : Prop := {
  ke_used : forall b, 0 <= b < sb_size sb -> used sb V b -> used sb V' b;
  ke_same : forall n, ~ bitmap_block sb n -> (data_block start sb n -> used sb V n /\ n <> ind) -> V' n = V n
}.

Lemma free_set_upd sb V n d : ~ bitmap_block sb n -> free_set sb (upd V n d) = free_set sb V.
Proof.
  intros Hn. apply set_eq. intros b. rewrite !elem_free_set.
  split; intros [Hb Hu]; (split; [done|]); [rewrite used_upd in Hu by done|rewrite used_upd by done]; done.
Qed.

Section blocks.
Context {start : Z} {sb : superblock}.

Lemma data_nonzero n : data_block start sb n -> n <> 0.
Proof. intros (_ & [? _] & _). lia. Qed.

Lemma fblk_direct V a bn : bn < NDIRECT -> fblk V a bn = a !!! Z.to_nat bn.
Proof. intros H. unfold fblk. by destruct (Z.ltb_spec bn NDIRECT); [|lia]. Qed.
Lemma fblk_indirect V a bn : NDIRECT <= bn -> indirect a <> 0 ->
  fblk V a bn = ld32 (Z.to_nat (4 * (bn - NDIRECT))) (V (indirect a)).
Proof.
  intros H Hi. unfold fblk. destruct (Z.ltb_spec bn NDIRECT); [lia|].
  by destruct (Z.eqb_spec (indirect a) 0).
Qed.
Lemma fblk_none V a bn : NDIRECT <= bn -> indirect a = 0 -> fblk V a bn = 0.
Proof. intros H Hi. unfold fblk. destruct (Z.ltb_spec bn NDIRECT); [lia|]. by rewrite Hi. Qed.
Lemma fblk_ext V V' a bn : V (indirect a) = V' (indirect a) -> fblk V a bn = fblk V' a bn.
Proof. intros E. unfold fblk. by rewrite E. Qed.

Lemma kept_refl V ind : kept start sb V V ind.
Proof. by split. Qed.

Context {V : image} {a : list Z} (HV : volume start sb V) (Ha : file_ok start sb V a).

(** Block [r] was free. *)
Context (r : Z) (Hr : 0 <= r < sb_size sb) (Hfree : ~ used sb V r).

Lemma free_data : data_block start sb r.
Proof. by apply HV. Qed.
Lemma taken_same n : ~ bitmap_block sb n -> n <> r -> taken sb V r n = V n.
Proof.
  intros Hb Hn. unfold taken, mark. rewrite upd_ne by done. apply upd_ne. intros ->. by apply Hb, bitmap_of.
Qed.
Lemma taken_zero : taken sb V r r = zero_block.
Proof. apply upd_eq. Qed.
Lemma kept_taken ind : kept start sb V (taken sb V r) ind.
Proof.
  split.
  - intros b Hb Hu. apply (volume_taken HV r Hr Hfree); [done|by right].
  - intros n Hb Hd. apply taken_same; [done|]. intros ->. by destruct (Hd free_data).
Qed.
Lemma ind_not_r : indirect a <> 0 -> indirect a <> r.
Proof. intros Hi E. destruct (fl_ind _ _ _ _ Ha Hi) as [_ Hu]. by rewrite E in Hu. Qed.
Lemma taken_indirect : indirect a <> 0 -> taken sb V r (indirect a) = V (indirect a).
Proof. intros Hi. apply taken_same; [apply (fl_ind _ _ _ _ Ha Hi)|by apply ind_not_r]. Qed.
Lemma fblk_taken bn : fblk (taken sb V r) a bn = fblk V a bn.
Proof.
  destruct (decide (indirect a = 0)) as [E|E]; [|apply fblk_ext; by rewrite taken_indirect].
  unfold fblk. by rewrite E.
Qed.
Lemma fblk_not_r bn : 0 <= bn < MAXFILE -> fblk V a bn <> r.
Proof.
  intros Hbn E. assert (Hz : fblk V a bn <> 0) by (rewrite E; apply data_nonzero, free_data).
  destruct (fl_data _ _ _ _ Ha bn Hbn Hz) as (_ & Hu & _). by rewrite E in Hu.
Qed.

(** A file whose blocks moved from [fblk V a] to [g], with [r] new at [bn]. *)
Lemma file_ok_grow V' a' bn : length a' = 13%nat -> 0 <= bn < MAXFILE -> kept start sb (taken sb V r) V' (indirect a) ->
  indirect a' = indirect a -> fblk V a bn = 0 ->
  (forall bn', 0 <= bn' < MAXFILE -> fblk V' a' bn' = if decide (bn' = bn) then r else fblk V a bn') ->
  file_ok start sb V' a'.
Proof.
  intros Hl Hbn Hk Hi Hz Hf. assert (Hu : forall b, 0 <= b < sb_size sb -> b = r \/ used sb V b -> used sb V' b).
  { intros b Hb Hu. apply Hk; [done|]. by apply (volume_taken HV r Hr Hfree). }
  split; [done|..].
  - rewrite Hi. intros Hi0. destruct (fl_ind _ _ _ _ Ha Hi0) as [Hd Hu0]. split; [done|]. apply Hu; [apply Hd|by right].
  - intros bn' Hbn'. rewrite Hf by done. destruct (decide (bn' = bn)) as [->|Hne].
    + intros _. split_and!; [apply free_data|apply Hu; [done|by left]|]. rewrite Hi. intros E.
      apply ind_not_r; [|done]. rewrite <-E. apply data_nonzero, free_data.
    + intros Hz'. destruct (fl_data _ _ _ _ Ha bn' Hbn' Hz') as (H1 & H2 & H3). rewrite Hi. split_and!; try done.
      apply Hu; [apply H1|by right].
  - intros b1 b2 H1 H2. rewrite !Hf by done. destruct (decide (b1 = bn)) as [->|N1], (decide (b2 = bn)) as [->|N2]; try done.
    + intros _ E. by destruct (fblk_not_r b2 H2).
    + intros _ E. by destruct (fblk_not_r b1 H1).
    + by apply (fl_inj _ _ _ _ Ha).
Qed.
End blocks.

(** The blocks of a file, its indirect block included. *)
Definition owned (V : image) (a : list Z) (n : Z) : Prop :=
  n = indirect a \/ exists bn, 0 <= bn < MAXFILE /\ n = fblk V a bn.

(** From [V] to [V'] only free blocks, the free map and blocks of the file changed. *)
Definition frame (start : Z) (sb : superblock) (V : image) (a : list Z) (V' : image) : Prop :=
  forall n, ~ bitmap_block sb n -> (data_block start sb n -> used sb V n /\ ~ owned V a n) -> V' n = V n.

(** Block [bn] of the file was absent and is now the empty block [r]. *)
Record grown (start : Z) (sb : superblock) (V : image) (a : list Z) (V' : image) (a' : list Z) (bn r : Z) : Prop := {
  gr_vol : volume start sb V';
  gr_file : file_ok start sb V' a';
  gr_at : fblk V' a' bn = r;
  gr_nz : r <> 0;
  gr_zero : V' r = zero_block;
  gr_other : forall bn', 0 <= bn' < MAXFILE -> bn' <> bn -> fblk V' a' bn' = fblk V a bn';
  gr_content : forall bn', 0 <= bn' < MAXFILE -> fblk V a bn' <> 0 -> V' (fblk V a bn') = V (fblk V a bn');
  gr_used : forall b, 0 <= b < sb_size sb -> used sb V b -> used sb V' b;
  gr_frame : frame start sb V a V';
  gr_owned : forall n, owned V' a' n -> data_block start sb n -> owned V a n \/ ~ used sb V n;
  gr_left : (size (free_set sb V) <= size (free_set sb V') + 2)%nat
}.

Section grow.
Context {start : Z} {sb : superblock} {V : image} {a : list Z} (HV : volume start sb V) (Ha : file_ok start sb V a).
Context (r : Z) (Hr : 0 <= r < sb_size sb) (Hfree : ~ used sb V r).

Lemma free_after_take : (size (free_set sb V) <= size (free_set sb (taken sb V r)) + 1)%nat.
Proof.
  destruct (volume_taken HV r Hr Hfree) as (_ & _ & ->). rewrite size_difference, size_singleton; [lia|].
  apply singleton_subseteq_l, elem_free_set. done.
Qed.

(** The parts of [grown] that follow from the others. *)
Lemma grown_intro V' a' bn : 0 <= bn < MAXFILE -> volume start sb V' -> length a' = 13%nat -> indirect a' = indirect a ->
  fblk V a bn = 0 -> kept start sb (taken sb V r) V' (indirect a) -> V' r = zero_block ->
  (forall bn', 0 <= bn' < MAXFILE -> fblk V' a' bn' = if decide (bn' = bn) then r else fblk V a bn') ->
  free_set sb V' = free_set sb (taken sb V r) -> grown start sb V a V' a' bn r.
Proof.
  intros Hbn HV' Hl Hi Hz Hk Hzero Hf Hfs. pose proof (free_data HV r Hr Hfree) as Hrd.
  assert (Hsame : forall n, ~ bitmap_block sb n -> (data_block start sb n -> used sb V n /\ n <> indirect a) -> V' n = V n).
  { intros n Hn Hd. destruct (volume_taken HV r Hr Hfree) as (_ & Hu & _). rewrite (ke_same _ _ _ _ _ Hk n Hn).
    - by apply (ke_same _ _ _ _ _ (kept_taken HV r Hr Hfree (indirect a))).
    - intros Hd'. destruct (Hd Hd') as [Hu' Hi']. split; [|done]. apply Hu; [apply Hd'|by right]. }
  split; [done|by eapply (file_ok_grow HV Ha r Hr Hfree V' a' bn)|..].
  - rewrite Hf by done. by rewrite decide_True.
  - by eapply data_nonzero.
  - done.
  - intros bn' Hbn' Hne. rewrite Hf by done. by rewrite decide_False.
  - intros bn' Hbn' Hz'. destruct (fl_data _ _ _ _ Ha bn' Hbn' Hz') as (H1 & H2 & H3). apply Hsame; [apply H1|done].
  - intros b Hb Hu. apply Hk; [done|]. apply (kept_taken HV r Hr Hfree 0); done.
  - intros n Hn Hd. apply Hsame; [done|]. intros Hd'. destruct (Hd Hd') as [Hu Ho]. split; [done|].
    intros ->. apply Ho. by left.
  - intros n [->|(bn' & Hbn' & ->)] Hd; [left; left; congruence|]. rewrite Hf in * by done.
    destruct (decide (bn' = bn)); [by right|left; right; eauto].
  - rewrite Hfs. pose proof free_after_take. lia.
Qed.

Lemma insert_addr (i : nat) v (j : nat) : (i < 13)%nat -> <[i := v]> a !!! j = if decide (i = j) then v else a !!! j.
Proof.
  intros Hi. pose proof (fl_len _ _ _ _ Ha). case_decide as E.
  - subst. by rewrite list_lookup_total_insert_eq by lia.
  - by rewrite list_lookup_total_insert_ne.
Qed.

Lemma grow_direct bn : 0 <= bn < NDIRECT -> a !!! Z.to_nat bn = 0 ->
  grown start sb V a (taken sb V r) (<[Z.to_nat bn := r]> a) bn r.
Proof.
  intros Hbn Hz. assert (Hi : indirect (<[Z.to_nat bn := r]> a) = indirect a).
  { unfold indirect. rewrite insert_addr by (unfold NDIRECT in *; lia). rewrite decide_False; [done|]. unfold NDIRECT in *. lia. }
  apply grown_intro; try done.
  - unfold MAXFILE, NINDIRECT, BSIZE in *. change (512 / 4) with 128. lia.
  - apply (volume_taken HV r Hr Hfree).
  - rewrite length_insert. apply Ha.
  - by rewrite fblk_direct by lia.
  - apply taken_zero.
  - intros bn' Hbn'. destruct (decide (bn' < NDIRECT)) as [Hd|Hd].
    + rewrite !fblk_direct by done. rewrite insert_addr by (unfold NDIRECT in *; lia).
      destruct (decide (bn' = bn)) as [->|Hne]; [by rewrite decide_True|]. rewrite decide_False; [done|]. lia.
    + rewrite decide_False by lia. rewrite <-(fblk_taken Ha r Hr Hfree). unfold fblk. rewrite Hi.
      destruct (Z.ltb_spec bn' NDIRECT); [lia|done].
Qed.

Lemma grow_entry bn : NDIRECT <= bn < MAXFILE -> indirect a <> 0 -> fblk V a bn = 0 -> r < 2 ^ 32 ->
  grown start sb V a (upd (taken sb V r) (indirect a)
    (st32 (Z.to_nat (4 * (bn - NDIRECT))) r (V (indirect a)))) a bn r.
Proof.
  intros Hbn Hi Hz H32. set (off := Z.to_nat (4 * (bn - NDIRECT))). destruct (fl_ind _ _ _ _ Ha Hi) as [Hid Hiu].
  pose proof (ind_not_r Ha r Hfree Hi) as Hir. destruct (volume_taken HV r Hr Hfree) as (HV1 & Hu1 & Hf1).
  destruct (vo_img _ _ _ HV (indirect a)) as [Hlen Hby]; [apply Hid|].
  assert (Hoff : (off + 4 <= length (V (indirect a)))%nat).
  { rewrite Hlen. unfold off, MAXFILE, NINDIRECT, NDIRECT, BSIZE in *. change (512 / 4) with 128 in *. lia. }
  apply grown_intro; try done.
  - unfold NDIRECT in *; lia.
  - apply volume_upd; [done|destruct Hid as (_ & [? _] & _); lia|apply Hid|]. split; [by rewrite st32_length|].
    apply byte_list_splice; [apply le_bytes_byte|done].
  - apply Ha.
  - split; [intros b Hb Hu; apply used_upd; [apply Hid|done|done]|]. intros n Hn Hd. apply upd_ne. intros ->.
    by destruct (Hd Hid).
  - rewrite upd_ne by done. apply taken_zero.
  - intros bn' Hbn'. destruct (decide (bn' < NDIRECT)) as [Hd|Hd].
    { rewrite !fblk_direct by done. by rewrite decide_False by lia. }
    rewrite !fblk_indirect by (lia || done). rewrite upd_eq. destruct (decide (bn' = bn)) as [->|Hne].
    + rewrite ld32_st32 by done. apply u32_small. lia.
    + apply ld32_st32_other; [done|]. unfold off. lia.
  - apply free_set_upd, Hid.
Qed.

(** A new indirect block, all entries empty. *)
Section new_indirect.
Context (Hi : indirect a = 0).
Let a1 := <[Z.to_nat NDIRECT := r]> a.
Let V1 := taken sb V r.

Lemma new_indirect_at : indirect a1 = r.
Proof. unfold indirect, a1. rewrite insert_addr by (unfold NDIRECT; lia). by rewrite decide_True. Qed.
Lemma new_indirect_fblk bn : 0 <= bn < MAXFILE -> fblk V1 a1 bn = fblk V a bn.
Proof.
  intros Hbn. destruct (decide (bn < NDIRECT)) as [Hd|Hd].
  - rewrite !fblk_direct by done. unfold a1. rewrite insert_addr by (unfold NDIRECT; lia).
    rewrite decide_False; [done|]. unfold NDIRECT in *. lia.
  - assert (Hnz : r <> 0) by (eapply data_nonzero; by apply (free_data HV)).
    rewrite fblk_indirect by (rewrite ?new_indirect_at; lia). rewrite new_indirect_at, (fblk_none V a) by lia.
    unfold V1. rewrite taken_zero. unfold ld32, slice, zero_block. rewrite drop_replicate, take_replicate.
    generalize (4 `min` (Z.to_nat BSIZE - Z.to_nat (4 * (bn - NDIRECT))))%nat. intros k.
    induction k as [|k IH]; cbn; lia.
Qed.
Lemma new_indirect_file : file_ok start sb V1 a1.
Proof.
  destruct (volume_taken HV r Hr Hfree) as (_ & Hu & _). pose proof (free_data HV r Hr Hfree) as Hd. split.
  - unfold a1. rewrite length_insert. apply Ha.
  - rewrite new_indirect_at. intros _. split; [done|]. apply Hu; [done|by left].
  - intros bn Hbn. rewrite new_indirect_fblk, new_indirect_at by done. intros Hz.
    destruct (fl_data _ _ _ _ Ha bn Hbn Hz) as (H1 & H2 & _). split_and!; [done|apply Hu; [apply H1|by right]|].
    by apply (fblk_not_r HV Ha).
  - intros b1 b2 H1 H2. rewrite !new_indirect_fblk by done. by apply Ha.
Qed.

Lemma grow_both bn r2 V2 : NDIRECT <= bn < MAXFILE -> 0 <= r2 < sb_size sb -> ~ used sb V1 r2 ->
  (size (free_set sb V1) <= size (free_set sb V2) + 1)%nat ->
  grown start sb V1 a1 V2 a1 bn r2 -> grown start sb V a V2 a1 bn r2.
Proof.
  intros Hbn Hr2 Hf2 Hsz [G1 G2 G3 G4 G5 G6 G7 G8 G9 G10 G11].
  destruct (volume_taken HV r Hr Hfree) as (_ & Hu & _). pose proof (free_data HV r Hr Hfree) as Hd.
  pose proof (kept_taken HV r Hr Hfree 0) as [Ku Ks]. split; try done.
  - intros bn' Hbn' Hne. by rewrite G6, new_indirect_fblk.
  - intros bn' Hbn' Hz. rewrite <-new_indirect_fblk in Hz |- * by done. rewrite G7 by done.
    rewrite new_indirect_fblk in * by done. destruct (fl_data _ _ _ _ Ha bn' Hbn' Hz) as (H1 & H2 & _).
    apply taken_same; [done|apply H1|by apply (fblk_not_r HV Ha)].
  - intros b Hb Hub. apply G8; [done|]. by apply Ku.
  - intros n Hn Hk. assert (Hsame : V1 n = V n).
    { apply Ks; [done|]. intros Hdn. destruct (Hk Hdn) as [? Ho]. split; [done|]. by apply data_nonzero in Hdn. }
    rewrite <-Hsame. apply G9; [done|]. intros Hdn. destruct (Hk Hdn) as [Hun Ho].
    split; [apply Ku; [apply Hdn|done]|]. intros [E|(bn' & Hbn' & E)].
    + rewrite new_indirect_at in E. by subst.
    + apply Ho. right. exists bn'. split; [done|]. by rewrite new_indirect_fblk in E.
  - intros n Ho Hdn. destruct (G10 n Ho Hdn) as [[E|(bn' & Hbn' & E)]|Hn].
    + right. rewrite new_indirect_at in E. by subst.
    + left. right. exists bn'. split; [done|]. by rewrite new_indirect_fblk in E.
    + right. intros Hun. apply Hn. by apply Ku; [apply Hdn|].
  - pose proof free_after_take. unfold V1 in Hsz. lia.
Qed.
End new_indirect.
End grow.

(** * bmap *)

Lemma free_room (X : gset Z) n : (size X < n)%nat -> (size (X ∪ map_img (∅ : gmap nat Z)) < n)%nat.
Proof. by rewrite map_img_empty_L, (right_id_L ∅ (∪)). Qed.

Lemma no_held sb V : held_used sb V ∅.
Proof. intros i n. by rewrite lookup_empty. Qed.

Lemma size_union_1 (X : gset Z) n : (size ({[n]} ∪ X) <= S (size X))%nat.
Proof. rewrite size_union_alt, size_singleton. assert (size (X ∖ {[n]}) <= size X)%nat by (apply subseteq_size; set_solver). lia. Qed.

Lemma first_free_lt {start sb V} (HV : volume start sb V) x : first_free sb V x -> 0 <= x < sb_size sb /\ ~ used sb V x /\ x < 2 ^ 32.
Proof.
  intros (H1 & H2 & _). destruct (ge_size _ _ (vo_geo _ _ _ HV)). split_and!; try done; try lia.
  unfold FSSIZE in *. lia.
Qed.

Lemma size_union_3 (X : gset Z) x y z : (size ({[x]} ∪ ({[y]} ∪ ({[z]} ∪ X))) <= size X + 3)%nat.
Proof.
  pose proof (size_union_1 ({[y]} ∪ ({[z]} ∪ X)) x). pose proof (size_union_1 ({[z]} ∪ X) y). pose proof (size_union_1 X z). lia.
Qed.

Lemma free_nonempty sb V k : (S k <= size (free_set sb V))%nat -> free_set sb V ≠ ∅.
Proof. intros Hk E. rewrite E, size_empty in Hk. lia. Qed.

Section reading.
Context {B : Type} {IO : BlockIO B} {start : Z} {RD : BlockIORead B}.

Definition set_inode (ip : nat) (r : inode) (s : fs B) : fs B := set_inodes (<[ip := r]> (fs_inodes s)) s.

Lemma wp_ird {A} (f : inode -> A) ip r (Q : A -> fs B -> Prop) s : fs_inodes s !! ip = Some r -> Q (f r) s -> wp (ird f ip) Q s.
Proof. intros Hr HQ. unfold ird. eapply wp_deref; [by rewrite Hr|done]. Qed.
Lemma wp_iwr f ip r (Q : unit -> fs B -> Prop) s : fs_inodes s !! ip = Some r -> Q tt (set_inode ip (f r) s) -> wp (iwr f ip) Q s.
Proof. intros Hr HQ. unfold iwr. eapply wp_store; [by rewrite Hr|done]. Qed.
Lemma wp_get_addr ip r i (Q : Z -> fs B -> Prop) s : fs_inodes s !! ip = Some r -> (Z.to_nat i < length (i_addrs r))%nat ->
  Q (i_addrs r !!! Z.to_nat i) s -> wp (get_addr ip i) Q s.
Proof.
  intros Hr Hi HQ. unfold get_addr. eapply wp_deref; [|done]. rewrite Hr. cbn.
  by apply list_lookup_lookup_total_lt.
Qed.

Lemma fsok_inode s V D L held ip r : fsok s V D L held -> lk_locked (i_guard r) = 0 -> fsok (set_inode ip r s) V D L held.
Proof. intros [H1 H2 H3] Hr. split; [done|done|]. cbn. by apply Forall_insert. Qed.
Lemma fsok_guard s V D L held ip r : fsok s V D L held -> fs_inodes s !! ip = Some r -> lk_locked (i_guard r) = 0.
Proof. intros [_ _ H] Hr. by eapply Forall_lookup_1 in H. Qed.

Lemma same_inode s ip r t : fs_inodes s !! ip = Some r -> set_inode ip (set_iaddrs (i_addrs r) r) (set_io t s) = set_io t s.
Proof.
  intros Hip. unfold set_inode, set_inodes. cbn [fs_inodes set_io fs_io fs_sb fs_lk fs_wakes].
  rewrite list_insert_id; [done|]. rewrite Hip. by destruct r.
Qed.

(** A block that is there is found, and nothing changes. *)
Lemma bmap_mapped s V D L sb ip r bn (Q : Z -> fs B -> Prop) :
  fsok s V D L ∅ -> fs_sb s = sb -> fs_inodes s !! ip = Some r -> i_dev r = ROOTDEV -> file_ok start sb V (i_addrs r) ->
  0 <= bn < MAXFILE -> fblk V (i_addrs r) bn <> 0 -> (size L < NBUF)%nat ->
  (forall t, fsok (set_io t s) V D L ∅ -> Q (fblk V (i_addrs r) bn) (set_io t s)) -> wp (bmap ip bn) Q s.
Proof.
  intros H Hsb Hip Hdev Ha Hbn Hz Hs HQ. pose proof (fl_len _ _ _ _ Ha) as Hl. unfold bmap. wp_step. eapply wp_ird; [done|]. rewrite Hdev.
  destruct (Z.ltb_spec bn NDIRECT) as [Hd|Hd].
  - rewrite fblk_direct in * by done. wp_step. eapply wp_get_addr; [done|unfold NDIRECT in *; lia|].
    destruct (Z.eqb_spec (i_addrs r !!! Z.to_nat bn) 0); [done|]. wp_step.
    assert (E : s = set_io (fs_io s) s) by (by destruct s). rewrite E. apply HQ. by rewrite <-E.
  - cbn zeta. destruct (Z.ltb_spec (bn - NDIRECT) NINDIRECT) as [_|Hge]; [|unfold MAXFILE in *; lia].
    wp_step. eapply wp_get_addr; [done|unfold NDIRECT in *; lia|]. fold (indirect (i_addrs r)).
    assert (Hi : indirect (i_addrs r) <> 0) by (intros Ei; by rewrite fblk_none in Hz).
    rewrite fblk_indirect in * by done.
    destruct (Z.eqb_spec (indirect (i_addrs r)) 0); [done|]. do 2 wp_step.
    destruct (fl_ind _ _ _ _ Ha Hi) as [(Hr & [Hlog _] & _) _].
    unfold bmap_entry. eapply fetch_rule; [done|lia|intros i; by rewrite lookup_empty|by rewrite map_img_empty_L, (right_id_L ∅ (∪))|].
    intros b t Hb Hc Ht. cbn zeta. wp_step.
    destruct (Z.eqb_spec (ld32 (Z.to_nat (4 * (bn - NDIRECT))) (V (indirect (i_addrs r)))) 0); [done|]. do 2 wp_step.
    eapply done_rule; [done..|]. intros t2 H2. wp_step. by apply HQ.
Qed.
End reading.

Section code.
Context {B : Type} {IO : BlockIO B} {start : Z} {LW : BlockIOLaws B start}.
Section bmap.
Context (s : fs B) (V D : image) (L : gset Z) (sb : superblock) (ip : nat) (r : inode) (bn : Z).
Context (H : fsok s V D L ∅) (Hsb : fs_sb s = sb) (HV : volume start sb V) (Hip : fs_inodes s !! ip = Some r).
Context (Hdev : i_dev r = ROOTDEV) (Ha : file_ok start sb V (i_addrs r)) (Hbn : 0 <= bn < MAXFILE).




Lemma bmap_entry_alloc (Q : Z -> fs B -> Prop) : NDIRECT <= bn -> indirect (i_addrs r) <> 0 -> fblk V (i_addrs r) bn = 0 ->
  (0 < size (free_set sb V))%nat -> (size L + 2 <= LOGROOM)%nat ->
  (forall x t, first_free sb V x ->
    let V' := upd (taken sb V x) (indirect (i_addrs r)) (st32 (Z.to_nat (4 * (bn - NDIRECT))) x (V (indirect (i_addrs r)))) in
    fsok (set_io t s) V' D ({[indirect (i_addrs r)]} ∪ ({[x]} ∪ ({[BBLOCK x sb]} ∪ L))) ∅ -> Q x (set_io t s)) ->
  wp (bmap_entry ROOTDEV (indirect (i_addrs r)) (bn - NDIRECT)) Q s.
Proof.
  intros Hd Hi Hz Hf Hs HQ. destruct (fl_ind _ _ _ _ Ha Hi) as [Hid Hiu]. destruct Hid as (Hir & Hlog & Hib & _).
  rewrite fblk_indirect in Hz by done. unfold bmap_entry.
  eapply fetch_rule; [done|destruct Hlog; lia|intros i; by rewrite lookup_empty|apply free_room; unfold LOGROOM, NBUF in *; lia|].
  intros b t Hb Hc Ht. cbn zeta. rewrite Hz. cbn [Z.eqb]. do 2 wp_step.
  eapply (balloc_spec (set_io t s)); [done|done| | | |done|].
  - intros j n Hj. apply lookup_insert_Some in Hj as [[_ <-]|[_ Hj]]; [done|by rewrite lookup_empty in Hj].
  - rewrite map_img_insert_notin_L, map_img_empty_L, (right_id_L ∅ (∪)), (comm_L (∪)) by apply lookup_empty.
    pose proof (size_union_1 L (indirect (i_addrs r))). unfold LOGROOM in *. lia.
  - intros E. rewrite E, size_empty in Hf. lia.
  - intros x t2 Hx H2. destruct (first_free_lt HV x Hx) as (Hx1 & Hx2 & _). wp_step.
    eapply fdata_rule; [done|apply lookup_insert_eq|]. rewrite (taken_indirect Ha x Hx1 Hx2 Hi). wp_step.
    eapply fset_rule; [done|apply lookup_insert_eq|]. intros t3 H3. wp_step.
    eapply flog_write_rule; [done|apply lookup_insert_eq|done| |].
    { pose proof (size_union_1 ({[BBLOCK x sb]} ∪ L) x). pose proof (size_union_1 L (BBLOCK x sb)). lia. }
    intros t4 H4. do 2 wp_step. eapply done_rule; [done|apply lookup_empty|left; set_solver|].
    intros t5 H5. wp_step. by apply HQ.
Qed.


(** What [bmap] establishes when it allocates block [bn]. *)
Definition bmap_post (Q : Z -> fs B -> Prop) : Prop := forall x t a' V' L',
  grown start sb V (i_addrs r) V' a' bn x -> L ⊆ L' -> (size L' <= size L + 4)%nat -> x ∈ L' ->
  fsok (set_inode ip (set_iaddrs a' r) (set_io t s)) V' D L' ∅ -> Q x (set_inode ip (set_iaddrs a' r) (set_io t s)).


Lemma bmap_alloc_direct (Q : Z -> fs B -> Prop) : bn < NDIRECT -> fblk V (i_addrs r) bn = 0 ->
  (1 <= size (free_set sb V))%nat -> (size L + 4 <= LOGROOM)%nat -> bmap_post Q -> wp (bmap ip bn) Q s.
Proof.
  intros Hd Hz Hf Hs HQ. pose proof (fl_len _ _ _ _ Ha) as Hl. unfold bmap. wp_step. eapply wp_ird; [done|]. rewrite Hdev.
  destruct (Z.ltb_spec bn NDIRECT) as [_|?]; [|lia]. rewrite fblk_direct in Hz by done. wp_step.
  eapply wp_get_addr; [done|unfold NDIRECT in *; lia|]. rewrite Hz. cbn [Z.eqb]. wp_step.
  eapply (balloc_spec s V D L ∅); [done|done|apply no_held|apply free_room; lia|by eapply free_nonempty|done|].
  intros x t Hx Ht. destruct (first_free_lt HV x Hx) as (Hx1 & Hx2 & _). wp_step.
  eapply wp_iwr; [done|]. wp_step. eapply (HQ x t _ _ ({[x]} ∪ ({[BBLOCK x sb]} ∪ L))); [apply (grow_direct HV Ha x Hx1 Hx2); [lia|done]|set_solver| |set_solver|].
  - pose proof (size_union_1 ({[BBLOCK x sb]} ∪ L) x). pose proof (size_union_1 L (BBLOCK x sb)). lia.
  - apply fsok_inode; [done|]. by apply (fsok_guard _ _ _ _ _ _ _ H Hip).
Qed.

Lemma bmap_alloc_entry (Q : Z -> fs B -> Prop) : NDIRECT <= bn -> indirect (i_addrs r) <> 0 -> fblk V (i_addrs r) bn = 0 ->
  (1 <= size (free_set sb V))%nat -> (size L + 4 <= LOGROOM)%nat -> bmap_post Q -> wp (bmap ip bn) Q s.
Proof.
  intros Hd Hi Hz Hf Hs HQ. pose proof (fl_len _ _ _ _ Ha) as Hl. unfold bmap. wp_step. eapply wp_ird; [done|]. rewrite Hdev.
  destruct (Z.ltb_spec bn NDIRECT) as [?|_]; [lia|]. cbn zeta.
  destruct (Z.ltb_spec (bn - NDIRECT) NINDIRECT) as [_|Hge]; [|unfold MAXFILE in *; lia].
  wp_step. eapply wp_get_addr; [done|unfold NDIRECT in *; lia|]. fold (indirect (i_addrs r)).
  destruct (Z.eqb_spec (indirect (i_addrs r)) 0); [done|]. do 2 wp_step.
  eapply bmap_entry_alloc; [done..|lia|]. intros x t Hx V' Ht. destruct (first_free_lt HV x Hx) as (Hx1 & Hx2 & Hx3).
  rewrite <-(same_inode s ip r t Hip). eapply (HQ x t _ _ ({[indirect (i_addrs r)]} ∪ ({[x]} ∪ ({[BBLOCK x sb]} ∪ L)))); [apply (grow_entry HV Ha x Hx1 Hx2); [lia|done..]|set_solver| |set_solver|by rewrite same_inode].
  pose proof (size_union_3 L (indirect (i_addrs r)) x (BBLOCK x sb)). lia.
Qed.
End bmap.

Lemma bmap_alloc_both s V D L sb ip r bn (Q : Z -> fs B -> Prop) : fsok s V D L ∅ -> fs_sb s = sb ->
  volume start sb V -> fs_inodes s !! ip = Some r -> i_dev r = ROOTDEV -> file_ok start sb V (i_addrs r) ->
  NDIRECT <= bn < MAXFILE -> indirect (i_addrs r) = 0 -> (2 <= size (free_set sb V))%nat ->
  (size L + 4 <= LOGROOM)%nat -> bmap_post s V D L sb ip r bn Q -> wp (bmap ip bn) Q s.
Proof.
  intros H Hsb HV Hip Hdev Ha Hbn Hi Hf Hs HQ. pose proof (fl_len _ _ _ _ Ha) as Hl.
  unfold bmap. wp_step. eapply wp_ird; [done|]. rewrite Hdev.
  destruct (Z.ltb_spec bn NDIRECT) as [?|_]; [lia|]. cbn zeta.
  destruct (Z.ltb_spec (bn - NDIRECT) NINDIRECT) as [_|Hge]; [|unfold MAXFILE in *; lia].
  wp_step. eapply wp_get_addr; [done|unfold NDIRECT in *; lia|]. fold (indirect (i_addrs r)). rewrite Hi. cbn [Z.eqb]. do 2 wp_step.
  eapply (balloc_spec s V D L ∅); [done|done|apply no_held|apply free_room; lia|by eapply free_nonempty|done|].
  intros x t Hx Ht. destruct (first_free_lt HV x Hx) as (Hx1 & Hx2 & _). wp_step. eapply wp_iwr; [done|]. wp_step.
  set (r1 := set_addr NDIRECT x r). set (s1 := set_inode ip r1 (set_io t s)).
  assert (Hr1 : fs_inodes s1 !! ip = Some r1) by (cbn; apply list_lookup_insert_eq; by apply lookup_lt_Some in Hip).
  assert (Hat : indirect (i_addrs r1) = x) by (by apply (new_indirect_at Ha)).
  destruct (volume_taken HV x Hx1 Hx2) as (HV1 & _ & Hfs1). rewrite <-Hat.
  assert (Hsz1 : (size ({[x]} ∪ ({[BBLOCK x sb]} ∪ L)) <= size L + 2)%nat).
  { pose proof (size_union_1 ({[BBLOCK x sb]} ∪ L) x). pose proof (size_union_1 L (BBLOCK x sb)). lia. }
  assert (Hnz : x <> 0) by (eapply data_nonzero; by apply (free_data HV)).
  eapply (bmap_entry_alloc s1 (taken sb V x) D ({[x]} ∪ ({[BBLOCK x sb]} ∪ L)) sb ip r1 bn); [|done|done|done|done| | |lia|by rewrite Hat| | |lia|].
  - apply fsok_inode; [done|]. by apply (fsok_guard _ _ _ _ _ _ _ H Hip).
  - by apply (new_indirect_file HV Ha).
  - unfold NDIRECT in *; lia.
  - unfold r1. cbn [i_addrs set_addr set_iaddrs]. rewrite (new_indirect_fblk HV Ha) by (done || unfold NDIRECT in *; lia).
    apply fblk_none; [lia|done].
  - rewrite Hfs1, size_difference, size_singleton; [lia|]. apply singleton_subseteq_l, elem_free_set. done.
  - intros y t2 Hy V' H2. destruct (first_free_lt HV1 y Hy) as (Hy1 & Hy2 & Hy3).
    assert (Hg : grown start sb (taken sb V x) (i_addrs r1) V' (i_addrs r1) bn y).
    { apply (grow_entry HV1); [by apply (new_indirect_file HV Ha)|done|done|done|by rewrite Hat| |done].
      unfold r1. cbn [i_addrs set_addr set_iaddrs]. rewrite (new_indirect_fblk HV Ha) by (done || unfold NDIRECT in *; lia).
      apply fblk_none; [lia|done]. }
    apply (HQ y t2 (i_addrs r1) V' ({[indirect (i_addrs r1)]} ∪ ({[y]} ∪ ({[BBLOCK y sb]} ∪ ({[x]} ∪ ({[BBLOCK x sb]} ∪ L)))))).
    + apply (grow_both HV Ha x Hx1 Hx2 Hi bn y V'); [done|done|done| |exact Hg].
      unfold V'. rewrite free_set_upd by (rewrite Hat; by apply (free_data HV)). apply (free_after_take HV1); done.
    + set_solver.
    + rewrite Hat. pose proof (size_union_1 ({[y]} ∪ ({[BBLOCK y sb]} ∪ ({[x]} ∪ ({[BBLOCK x sb]} ∪ L)))) x).
      assert (E : {[x]} ∪ ({[y]} ∪ ({[BBLOCK y sb]} ∪ ({[x]} ∪ ({[BBLOCK x sb]} ∪ L)))) = {[y]} ∪ ({[BBLOCK y sb]} ∪ ({[x]} ∪ ({[BBLOCK x sb]} ∪ L)))) by set_solver.
      rewrite E. pose proof (size_union_1 ({[BBLOCK y sb]} ∪ ({[x]} ∪ ({[BBLOCK x sb]} ∪ L))) y).
      pose proof (size_union_1 ({[x]} ∪ ({[BBLOCK x sb]} ∪ L)) (BBLOCK y sb)). lia.
    + set_solver.
    + exact H2.
Qed.

Lemma bmap_alloc s V D L sb ip r bn (Q : Z -> fs B -> Prop) : fsok s V D L ∅ -> fs_sb s = sb ->
  volume start sb V -> fs_inodes s !! ip = Some r -> i_dev r = ROOTDEV -> file_ok start sb V (i_addrs r) ->
  0 <= bn < MAXFILE -> fblk V (i_addrs r) bn = 0 -> (2 <= size (free_set sb V))%nat ->
  (size L + 4 <= LOGROOM)%nat -> bmap_post s V D L sb ip r bn Q -> wp (bmap ip bn) Q s.
Proof.
  intros H Hsb HV Hip Hdev Ha Hbn Hz Hf Hs HQ. destruct (decide (bn < NDIRECT)).
  - eapply bmap_alloc_direct; [done..|lia|done|done].
  - destruct (decide (indirect (i_addrs r) = 0)); [eapply bmap_alloc_both; [done..|lia|done|done|done|done]|].
    eapply bmap_alloc_entry; [done..|lia|done|done|lia|done|done].
Qed.
End code.

(** * Bytes of a file *)

Definition fbyte (V : image) (a : list Z) (i : Z) : Z := V (fblk V a (i / BSIZE)) !!! Z.to_nat (i mod BSIZE).
(** The [n] bytes at offset [off]. *)
Definition content (V : image) (a : list Z) (off n : Z) : list Z := fbyte V a <$> seqZ off n.
(** Every block of the first [size] bytes is there. *)
Definition mapped (V : image) (a : list Z) (size : Z) : Prop :=
  forall bn, 0 <= bn -> bn * BSIZE < size -> fblk V a bn <> 0.

Lemma content_app V a off m k : 0 <= m -> 0 <= k -> content V a off (m + k) = content V a off m ++ content V a (off + m) k.
Proof. intros Hm Hk. unfold content. by rewrite seqZ_app, fmap_app by done. Qed.

Lemma in_block off j : 0 <= j -> off mod BSIZE + j < BSIZE -> (off + j) / BSIZE = off / BSIZE /\ (off + j) mod BSIZE = off mod BSIZE + j.
Proof.
  intros Hj Hb. pose proof (Z.div_mod off BSIZE ltac:(done)) as E. pose proof (Z.mod_pos_bound off BSIZE ltac:(done)).
  split; [symmetry; apply (Z.div_unique _ _ _ (off mod BSIZE + j)); lia|symmetry; apply (Z.mod_unique _ _ (off / BSIZE)); lia].
Qed.

Lemma content_block V a off m : 0 <= off -> 0 <= m -> off mod BSIZE + m <= BSIZE ->
  length (V (fblk V a (off / BSIZE))) = Z.to_nat BSIZE ->
  content V a off m = slice (Z.to_nat (off mod BSIZE)) (Z.to_nat m) (V (fblk V a (off / BSIZE))).
Proof.
  intros Ho Hm Hb Hl. pose proof (Z.mod_pos_bound off BSIZE ltac:(done)). apply list_eq. intros i.
  rewrite lookup_slice. unfold content. rewrite list_lookup_fmap. destruct (decide (i < Z.to_nat m)%nat) as [Hi|Hi].
  - rewrite lookup_seqZ_lt by lia. cbn [fmap option_fmap option_map].
    destruct (in_block off (Z.of_nat i) ltac:(lia) ltac:(lia)) as [E1 E2]. unfold fbyte. rewrite E1, E2.
    rewrite Z2Nat.inj_add, Nat2Z.id by lia. symmetry. apply list_lookup_lookup_total_lt. lia.
  - by rewrite lookup_seqZ_ge by lia.
Qed.

(** The part of a transfer that lies in its first block. *)
Lemma first_part off n k : 0 <= off -> 0 < n -> off mod BSIZE + n <= (k + 1) * BSIZE ->
  let m := Z.min n (BSIZE - off mod BSIZE) in
  0 < m <= n /\ off mod BSIZE + m <= BSIZE /\ (m = n \/ (off + m) mod BSIZE = 0 /\ n - m <= k * BSIZE /\ (off + m) / BSIZE = off / BSIZE + 1).
Proof.
  intros Ho Hn Hk m. pose proof (Z.mod_pos_bound off BSIZE ltac:(done)). pose proof (Z.div_mod off BSIZE ltac:(done)) as E.
  unfold m. split; [lia|]. split; [lia|]. destruct (Z.min_spec n (BSIZE - off mod BSIZE)) as [[Hlt ->]|[Hge ->]]; [by left|right].
  replace (off + (BSIZE - off mod BSIZE)) with ((off / BSIZE + 1) * BSIZE) by lia.
  rewrite Z.mod_mul, Z.div_mul by done. split_and!; [done|lia|done].
Qed.

Section readi.
Context {B : Type} {IO : BlockIO B} {start : Z} {RD : BlockIORead B}.
Context (sb : superblock) (V D : image) (L : gset Z) (ip : nat) (r : inode).
Context (HV : volume start sb V) (Hdev : i_dev r = ROOTDEV) (Ha : file_ok start sb V (i_addrs r)) (HL : (size L < NBUF)%nat).

Lemma set_io_id (s : fs B) : set_io (fs_io s) s = s.
Proof. by destruct s. Qed.

Lemma readi_loop_spec fuel s off n (Q : list Z -> fs B -> Prop) : fsok s V D L ∅ -> fs_sb s = sb ->
  fs_inodes s !! ip = Some r -> 0 <= off -> 0 <= n -> off + n <= MAXFILE * BSIZE -> mapped V (i_addrs r) (off + n) ->
  (0 < n -> off mod BSIZE + n <= Z.of_nat fuel * BSIZE) ->
  (forall t, fsok (set_io t s) V D L ∅ -> Q (content V (i_addrs r) off n) (set_io t s)) ->
  wp (readi_loop fuel ip off n) Q s.
Proof.
  revert s off n Q. induction fuel as [|fuel IH]; intros s off n Q H Hsb Hip Ho Hn Hmax Hm Hf HQ; cbn [readi_loop];
    pose proof (Z.mod_pos_bound off BSIZE ltac:(done)) as Hmod;
    (destruct (Z.leb_spec n 0) as [Hz|Hpos];
      [assert (n = 0) as -> by lia; wp_step; rewrite <-(set_io_id s); apply HQ; by rewrite set_io_id|]).
  { specialize (Hf Hpos). lia. }
  destruct (first_part off n (Z.of_nat fuel) Ho Hpos) as (Hm1 & Hm2 & Hm3); [lia|]. cbn zeta in *.
  set (m := Z.min n (BSIZE - off mod BSIZE)) in *. pose proof (Z.div_mod off BSIZE ltac:(done)) as Hdm.
  pose proof (Z.div_pos off BSIZE Ho ltac:(done)) as Hd0.
  assert (Hbn : 0 <= off / BSIZE < MAXFILE) by (split; [done|]; apply Z.div_lt_upper_bound; [done|lia]).
  assert (Hnz : fblk V (i_addrs r) (off / BSIZE) <> 0) by (apply Hm; [done|lia]).
  destruct (fl_data _ _ _ _ Ha _ Hbn Hnz) as ((_ & [Hlog _] & _) & _ & _).
  wp_step. eapply wp_ird; [done|]. rewrite Hdev. wp_step.
  eapply (bmap_mapped s V D L sb); [done..|]. intros t1 H1.
  eapply fetch_rule; [done|lia|intros i; by rewrite lookup_empty|by apply free_room|]. intros b t2 Hb Hc H2. cbn zeta. wp_step.
  eapply done_rule; [done..|]. intros t3 H3. wp_step.
  eapply (IH (set_io t3 s)); [done|done|done|lia|lia|lia|by replace (off + m + (n - m)) with (off + n) by lia| |].
  { intros Hlt. destruct Hm3 as [->|(E1 & E2 & _)]; [lia|]. rewrite E1; lia. }
  intros t4 H4. wp_step. rewrite <-content_block by (lia || apply HV, Ha; done).
  rewrite <-content_app by lia. replace (m + (n - m)) with n by lia. by apply HQ.
Qed.

Lemma io_fuel_enough off n : 0 <= n -> off mod BSIZE + n <= Z.of_nat (io_fuel n) * BSIZE.
Proof.
  clear. intros Hn. unfold io_fuel. pose proof (Z.mod_pos_bound off BSIZE ltac:(done)). pose proof (Z.div_pos n BSIZE Hn ltac:(done)).
  pose proof (Z.div_mod n BSIZE ltac:(done)). pose proof (Z.mod_pos_bound n BSIZE ltac:(done)). lia.
Qed.
End readi.

(** [readi] of a file (not a device), with the offset inside it, delivers its bytes up
    to the end. *)
Lemma readi_spec {B : Type} {IO : BlockIO B} {start : Z} {RD : BlockIORead B} devread
    sb s V D L ip r off n (Q : Z * list Z -> fs B -> Prop) :
  fsok s V D L ∅ -> fs_sb s = sb -> volume start sb V -> fs_inodes s !! ip = Some r -> i_dev r = ROOTDEV ->
  file_ok start sb V (i_addrs r) -> (size L < NBUF)%nat -> i_type r <> T_DEV -> i_size r <= MAXFILE * BSIZE ->
  mapped V (i_addrs r) (i_size r) -> 0 <= off <= i_size r -> 0 <= n -> off + n < 2 ^ 32 ->
  (forall t, let n' := Z.min n (i_size r - off) in
    fsok (set_io t s) V D L ∅ -> Q (n', content V (i_addrs r) off n') (set_io t s)) ->
  wp (readi devread ip off n) Q s.
Proof.
  intros H Hsb HV Hip Hdev Ha HL Ht Hmax Hm Ho Hn H32 HQ. unfold readi. wp_step. eapply wp_ird; [done|]. cbn [id].
  destruct (Z.eqb_spec (i_type r) T_DEV); [done|]. rewrite u32_small by lia.
  destruct (Z.ltb_spec (i_size r) off); [lia|]. destruct (Z.ltb_spec (off + n) off); [lia|]. cbn [orb].
  assert (E : (if i_size r <? off + n then i_size r - off else n) = Z.min n (i_size r - off)).
  { destruct (Z.ltb_spec (i_size r) (off + n)); lia. }
  rewrite E. set (n' := Z.min n (i_size r - off)) in *. wp_step.
  eapply (readi_loop_spec sb V D L ip r); [done..|lia|lia|lia| | |].
  - intros bn Hb Hlt. apply Hm; [done|lia].
  - intros _. apply io_fuel_enough. lia.
  - intros t Ht1. wp_step. rewrite s32_small by (unfold MAXFILE, NDIRECT, NINDIRECT, BSIZE in *; change (512 / 4) with 128 in *; lia).
    by apply HQ.
Qed.
