(* ===== verification/FsWrite.v ===== *)
(** [writei] of fs.c: what a write does to the bytes of the file, and to the rest of the
    disk. *)

From stdpp Require Import base tactics numbers option list gmap sets strings.
From Stdlib Require Import ZArith Lia.
From S2P Require Import Prelude ProcDefs Spinlock Block BlockFacts BioFacts Bytes Log LogFacts Fs FsLayout FsFacts FsData.

(** After [bmap]: block [bn] of the file is [x], whether it was there or is new. *)
Record located (start : Z) (sb : superblock) (V : image) (a : list Z) (V' : image) (a' : list Z) (bn x : Z) : Prop := {
  lc_vol : volume start sb V';
  lc_file : file_ok start sb V' a';
  lc_at : fblk V' a' bn = x;
  lc_nz : x <> 0;
  lc_other : forall bn', 0 <= bn' < MAXFILE -> bn' <> bn -> fblk V' a' bn' = fblk V a bn';
  lc_content : forall bn', 0 <= bn' < MAXFILE -> fblk V a bn' <> 0 -> fblk V' a' bn' = fblk V a bn' /\ V' (fblk V a bn') = V (fblk V a bn');
  lc_used : forall b, 0 <= b < sb_size sb -> used sb V b -> used sb V' b;
  lc_frame : frame start sb V a V';
  lc_owned : forall n, owned V' a' n -> data_block start sb n -> owned V a n \/ ~ used sb V n;
  lc_left : (size (free_set sb V) <= size (free_set sb V') + 2)%nat;
  lc_stay : fblk V a bn <> 0 -> a' = a
}.

Section located.
Context {start : Z} {sb : superblock} {V : image} {a : list Z}.
Lemma located_mapped bn : volume start sb V -> file_ok start sb V a -> fblk V a bn <> 0 -> located start sb V a V a bn (fblk V a bn).
Proof. intros HV Ha Hz. split; try done; [by left|lia]. Qed.
Lemma located_grown V' a' bn x : grown start sb V a V' a' bn x -> fblk V a bn = 0 -> located start sb V a V' a' bn x.
Proof.
  intros [] Hz. split; try done. intros bn' Hb Hz'. split; [|auto]. apply gr_other; [done|]. intros ->. done.
Qed.
End located.

(** A write of [n] bytes at [off] reaches block [bn]. *)
Definition touches (off : Z) (n : nat) (bn : Z) : Prop :=
  (0 < n)%nat /\ off < (bn + 1) * BSIZE /\ bn * BSIZE < off + Z.of_nat n.

(** The effect of writing [src] at offset [off] of a file. *)
Record written (start : Z) (sb : superblock) (V : image) (a : list Z) (off : Z) (src : list Z) (V' : image) (a' : list Z) : Prop := {
  wr_vol : volume start sb V';
  wr_file : file_ok start sb V' a';
  wr_new : forall j x, src !! j = Some x -> fbyte V' a' (off + Z.of_nat j) = x;
  wr_old : forall i, 0 <= i < MAXFILE * BSIZE -> fblk V a (i / BSIZE) <> 0 ->
    ~ (off <= i < off + Z.of_nat (length src)) -> fbyte V' a' i = fbyte V a i;
  wr_mapped : forall bn, 0 <= bn < MAXFILE ->
    fblk V a bn <> 0 \/ touches off (length src) bn -> fblk V' a' bn <> 0;
  wr_used : forall b, 0 <= b < sb_size sb -> used sb V b -> used sb V' b;
  wr_frame : frame start sb V a V';
  wr_owned : forall n, owned V' a' n -> data_block start sb n -> owned V a n \/ ~ used sb V n;
  wr_stay : (forall bn, 0 <= bn < MAXFILE -> touches off (length src) bn -> fblk V a bn <> 0) -> a' = a
}.

Section step.
Context {start : Z} {sb : superblock} {V : image} {a : list Z} {V1 : image} {a1 : list Z} {off x : Z} {bs : list Z}.
Context (Hoff : 0 <= off) (Hin : off mod BSIZE + Z.of_nat (length bs) <= BSIZE) (Hmax : off / BSIZE < MAXFILE) (Hbs : byte_list bs).
Context (Hne : bs <> []).
Context (Hloc : located start sb V a V1 a1 (off / BSIZE) x).
Let o := Z.to_nat (off mod BSIZE).
Let V2 := upd V1 x (splice o bs (V1 x)).

Lemma step_data : data_block start sb x /\ used sb V1 x /\ x <> indirect a1.
Proof.
  rewrite <-(lc_at _ _ _ _ _ _ _ _ Hloc). apply (lc_file _ _ _ _ _ _ _ _ Hloc); [|rewrite (lc_at _ _ _ _ _ _ _ _ Hloc); apply Hloc].
  split; [by apply Z.div_pos|done].
Qed.
Lemma step_fblk bn : fblk V2 a1 bn = fblk V1 a1 bn.
Proof. apply fblk_ext. unfold V2. apply upd_ne. intros E. by apply step_data. Qed.
Lemma step_room : (o + length bs <= length (V1 x))%nat.
Proof.
  destruct (vo_img _ _ _ (lc_vol _ _ _ _ _ _ _ _ Hloc) x) as [-> _]; [apply step_data|]. pose proof (Z.mod_pos_bound off BSIZE ltac:(done)). unfold o. lia.
Qed.
Lemma step_volume : volume start sb V2.
Proof.
  destruct step_data as ((_ & [Hl _] & Hb & _) & _ & _). destruct (vo_img _ _ _ (lc_vol _ _ _ _ _ _ _ _ Hloc) x) as [Hlen Hby]; [apply step_data|].
  apply volume_upd; [apply Hloc|lia|done|]. split; [by rewrite splice_length by apply step_room|by apply byte_list_splice].
Qed.
Lemma step_file : file_ok start sb V2 a1.
Proof.
  destruct step_data as (Hd & _ & _). destruct (lc_file _ _ _ _ _ _ _ _ Hloc) as [F1 F2 F3 F4].
  assert (Hu : forall n, data_block start sb n -> used sb V1 n -> used sb V2 n).
  { intros n Hn. apply used_upd; [apply Hd|apply Hn]. }
  split; [done|..].
  - intros Hi. destruct (F2 Hi). auto.
  - intros bn Hbn. rewrite step_fblk. intros Hz. destruct (F3 bn Hbn Hz) as (? & ? & ?). auto.
  - intros b1 b2 H1 H2. rewrite !step_fblk. by apply F4.
Qed.
(** Bytes of the block written, and of other blocks. *)
Lemma step_byte i : i / BSIZE = off / BSIZE -> fbyte V2 a1 i = splice o bs (V1 x) !!! Z.to_nat (i mod BSIZE).
Proof. intros E. unfold fbyte. rewrite step_fblk, E, (lc_at _ _ _ _ _ _ _ _ Hloc). unfold V2. by rewrite upd_eq. Qed.
Lemma step_byte_other i : 0 <= i < MAXFILE * BSIZE -> i / BSIZE <> off / BSIZE -> fblk V a (i / BSIZE) <> 0 ->
  fbyte V2 a1 i = fbyte V a i.
Proof.
  intros Hi Hne' Hz. assert (Hb : 0 <= i / BSIZE < MAXFILE) by (split; [apply Z.div_pos; lia || done|apply Z.div_lt_upper_bound; lia || done]).
  unfold fbyte. rewrite step_fblk, (lc_other _ _ _ _ _ _ _ _ Hloc) by done. unfold V2. rewrite upd_ne.
  - destruct (lc_content _ _ _ _ _ _ _ _ Hloc _ Hb Hz) as [_ ->]. done.
  - intros E. apply Hne'. apply (fl_inj _ _ _ _ (lc_file _ _ _ _ _ _ _ _ Hloc)); [done|split; [by apply Z.div_pos|done]|..].
    + by rewrite (lc_other _ _ _ _ _ _ _ _ Hloc).
    + by rewrite (lc_other _ _ _ _ _ _ _ _ Hloc), (lc_at _ _ _ _ _ _ _ _ Hloc).
Qed.

Lemma step_new j y : bs !! j = Some y -> fbyte V2 a1 (off + Z.of_nat j) = y.
Proof.
  intros Hj. pose proof (lookup_lt_Some _ _ _ Hj). destruct (in_block off (Z.of_nat j) ltac:(lia) ltac:(lia)) as [E1 E2].
  rewrite step_byte by done. rewrite E2. pose proof (Z.mod_pos_bound off BSIZE ltac:(done)). apply list_lookup_total_correct.
  rewrite lookup_splice by apply step_room. rewrite Z2Nat.inj_add, Nat2Z.id by lia. fold o.
  rewrite decide_True by lia. by replace (o + j - o)%nat with j by lia.
Qed.
Lemma step_old i : 0 <= i < MAXFILE * BSIZE -> fblk V a (i / BSIZE) <> 0 -> ~ (off <= i < off + Z.of_nat (length bs)) ->
  fbyte V2 a1 i = fbyte V a i.
Proof.
  intros Hi Hz Hout. destruct (decide (i / BSIZE = off / BSIZE)) as [E|E]; [|by apply step_byte_other].
  assert (Hb : 0 <= i / BSIZE < MAXFILE) by (split; [apply Z.div_pos; lia || done|congruence]).
  destruct (lc_content _ _ _ _ _ _ _ _ Hloc _ Hb Hz) as [Hc1 Hc2]. rewrite step_byte by done. unfold fbyte. rewrite <-Hc2, <-Hc1, E.
  rewrite (lc_at _ _ _ _ _ _ _ _ Hloc). pose proof (Z.mod_pos_bound off BSIZE ltac:(done)). pose proof (Z.mod_pos_bound i BSIZE ltac:(done)).
  pose proof (Z.div_mod off BSIZE ltac:(done)). pose proof (Z.div_mod i BSIZE ltac:(done)).
  rewrite !list_lookup_total_alt, lookup_splice by apply step_room. rewrite decide_False; [done|]. unfold o. intros ?.
  apply Hout. rewrite E in *. lia.
Qed.

Lemma step_used b : 0 <= b < sb_size sb -> used sb V b -> used sb V2 b.
Proof.
  intros Hb Hu. apply used_upd; [apply step_data|done|]. by apply (lc_used _ _ _ _ _ _ _ _ Hloc).
Qed.
Lemma step_x : owned V a x \/ ~ used sb V x.
Proof.
  apply (lc_owned _ _ _ _ _ _ _ _ Hloc); [|apply step_data]. right. exists (off / BSIZE).
  split; [split; [by apply Z.div_pos|done]|]. by rewrite (lc_at _ _ _ _ _ _ _ _ Hloc).
Qed.

Lemma step_written : written start sb V a off bs V2 a1.
Proof.
  split; [apply step_volume|apply step_file|apply step_new|apply step_old|..].
  - intros bn Hbn Hcase. rewrite step_fblk. destruct (decide (bn = off / BSIZE)) as [->|Hn].
    { rewrite (lc_at _ _ _ _ _ _ _ _ Hloc). apply Hloc. }
    rewrite (lc_other _ _ _ _ _ _ _ _ Hloc) by done. destruct Hcase as [Hz|(_ & H1 & H2)]; [done|]. destruct Hn.
    pose proof (Z.div_mod off BSIZE ltac:(done)). pose proof (Z.mod_pos_bound off BSIZE ltac:(done)).
    unfold BSIZE in *. lia.
  - apply step_used.
  - intros n Hn Hd. unfold V2. rewrite upd_ne; [by apply Hloc|]. intros ->.
    destruct (Hd (proj1 step_data)) as [Hu Ho]. by destruct step_x.
  - intros n [->|(bn & Hbn & ->)] Hd; (apply (lc_owned _ _ _ _ _ _ _ _ Hloc); [|done]); [by left|right].
    exists bn. by rewrite step_fblk.
  - intros Hall. apply Hloc, Hall; [split; [by apply Z.div_pos|done]|].
    pose proof (Z.div_mod off BSIZE ltac:(done)). pose proof (Z.mod_pos_bound off BSIZE ltac:(done)).
    unfold touches. destruct bs; [done|]. cbn [length]. lia.
Qed.
End step.

Section compose.
Context {start : Z} {sb : superblock} {V : image} {a : list Z}.

Lemma written_nil off : volume start sb V -> file_ok start sb V a -> written start sb V a off [] V a.
Proof.
  intros HV Ha. split; try done; [|by left]. intros bn Hbn [Hz|(H & _)]; [done|]. cbn in H. lia.
Qed.

Context {off : Z} {bs rest : list Z} {V2 V3 : image} {a2 a3 : list Z}.
Context (Ho : 0 <= off) (Hmax : off + Z.of_nat (length bs + length rest) <= MAXFILE * BSIZE).
Context (H1 : written start sb V a off bs V2 a2).
Context (H2 : written start sb V2 a2 (off + Z.of_nat (length bs)) rest V3 a3).

Lemma touched_in j : (j < length bs)%nat -> 0 <= (off + Z.of_nat j) / BSIZE < MAXFILE /\ touches off (length bs) ((off + Z.of_nat j) / BSIZE).
Proof.
  intros Hj. set (i := off + Z.of_nat j). pose proof (Z.div_mod i BSIZE ltac:(done)). pose proof (Z.mod_pos_bound i BSIZE ltac:(done)).
  split; [split; [apply Z.div_pos; lia || done|apply Z.div_lt_upper_bound; [done|lia]]|].
  unfold touches. split_and!; lia.
Qed.

Lemma written_app : written start sb V a off (bs ++ rest) V3 a3.
Proof.
  destruct H1 as [A1 A2 A3 A4 A5 A6 A7 A8 A9], H2 as [B1 B2 B3 B4 B5 B6 B7 B8 B9].
  split; [done|done|..].
  - intros j x Hj. apply lookup_app_Some in Hj as [Hj|[Hlt Hj]].
    + pose proof (lookup_lt_Some _ _ _ Hj) as Hlt. destruct (touched_in j Hlt) as [Hb Ht].
      rewrite B4; [by apply A3|lia|apply A5; [done|by right]|lia].
    + specialize (B3 _ _ Hj). replace (off + Z.of_nat (length bs) + Z.of_nat (j - length bs)) with (off + Z.of_nat j) in B3 by lia. done.
  - intros i Hi Hz Hout. rewrite length_app in Hout.
    assert (Hb : 0 <= i / BSIZE < MAXFILE) by (split; [apply Z.div_pos; lia || done|apply Z.div_lt_upper_bound; [done|lia]]).
    rewrite B4; [apply A4; [done|done|lia]|done|apply A5; [done|by left]|lia].
  - intros bn Hbn Hcase. apply B5; [done|]. destruct Hcase as [Hz|(T1 & T2 & T3)]; [left; apply A5; [done|by left]|].
    rewrite length_app in *. destruct (decide (bn * BSIZE < off + Z.of_nat (length bs) /\ (0 < length bs)%nat)) as [[T4 T5]|T4].
    + left. apply A5; [done|]. right. by split_and!.
    + right. unfold touches, BSIZE in *. lia.
  - intros b Hb Hu. by apply B6, A6.
  - intros n Hn Hd. rewrite <-(A7 n Hn Hd). apply B7; [done|]. intros Hdn. destruct (Hd Hdn) as [Hu Hno].
    split; [apply A6; [apply Hdn|done]|]. intros Ho2. by destruct (A8 n Ho2 Hdn).
  - intros n Ho3 Hdn. destruct (B8 n Ho3 Hdn) as [Ho2|Hnu]; [by apply A8|]. right. intros Hu. apply Hnu, A6; [apply Hdn|done].
  - intros Hall. assert (E : a2 = a).
    { apply A9. intros bn Hbn (T1 & T2 & T3). apply Hall; [done|]. unfold touches. rewrite length_app. lia. }
    rewrite <-E. apply B9. intros bn Hbn (T1 & T2 & T3). apply A5; [done|]. left. apply Hall; [done|].
    unfold touches. rewrite length_app. lia.
Qed.
End compose.

(** * The loop *)

Section writing.
Context {B : Type} {IO : BlockIO B} {start : Z} {LW : BlockIOLaws B start}.
Context (sb : superblock) (D : image) (ip : nat).

(** [bmap], either way. *)
Lemma bmap_located s V L r bn (Q : Z -> fs B -> Prop) : fsok s V D L ∅ -> fs_sb s = sb -> volume start sb V ->
  fs_inodes s !! ip = Some r -> i_dev r = ROOTDEV -> file_ok start sb V (i_addrs r) -> 0 <= bn < MAXFILE ->
  (2 <= size (free_set sb V))%nat -> (size L + 4 <= LOGROOM)%nat ->
  (forall x t a' V' L', located start sb V (i_addrs r) V' a' bn x -> L ⊆ L' -> (size ({[x]} ∪ L') <= size L + 4)%nat ->
    fsok (set_inode ip (set_iaddrs a' r) (set_io t s)) V' D L' ∅ -> Q x (set_inode ip (set_iaddrs a' r) (set_io t s))) ->
  wp (bmap ip bn) Q s.
Proof.
  intros H Hsb HV Hip Hdev Ha Hbn Hf HL HQ. destruct (decide (fblk V (i_addrs r) bn = 0)) as [Hz|Hz].
  - eapply bmap_alloc; [done..|]. intros x t a' V' L' Hg Hsub Hsz Hx Ht. eapply HQ; [by apply located_grown|done| |done].
    assert (E : {[x]} ∪ L' = L') by set_solver. by rewrite E.
  - eapply (bmap_mapped s V D L sb); [done..|unfold LOGROOM, NBUF in *; lia|]. intros t Ht.
    rewrite <-(same_inode s ip r t Hip). eapply (HQ _ t _ V L); [by apply located_mapped|done| |by rewrite same_inode].
    pose proof (size_union_1 L (fblk V (i_addrs r) bn)). lia.
Qed.

Lemma set_inode_again (s : fs B) t t' r r' : set_inode ip r' (set_io t' (set_inode ip r (set_io t s))) = set_inode ip r' (set_io t' s).
Proof. unfold set_inode, set_inodes, set_io. cbn [fs_io fs_sb fs_lk fs_inodes fs_wakes]. by rewrite list_insert_insert_eq. Qed.
Lemma set_inode_io (s : fs B) t r : set_io t (set_inode ip r s) = set_inode ip r (set_io t s).
Proof. done. Qed.

Lemma writei_loop_spec fuel k s V L r off src (Q : unit -> fs B -> Prop) : fsok s V D L ∅ -> fs_sb s = sb -> volume start sb V ->
  fs_inodes s !! ip = Some r -> i_dev r = ROOTDEV -> file_ok start sb V (i_addrs r) ->
  0 <= off -> off + Z.of_nat (length src) <= MAXFILE * BSIZE -> byte_list src ->
  (src <> [] -> off mod BSIZE + Z.of_nat (length src) <= Z.of_nat k * BSIZE) -> (k <= fuel)%nat ->
  (2 * k <= size (free_set sb V))%nat -> (size L + 4 * k <= LOGROOM)%nat ->
  (forall t a' V' L', written start sb V (i_addrs r) off src V' a' -> L ⊆ L' -> (size L' <= size L + 4 * k)%nat ->
    fsok (set_inode ip (set_iaddrs a' r) (set_io t s)) V' D L' ∅ -> Q tt (set_inode ip (set_iaddrs a' r) (set_io t s))) ->
  wp (writei_loop fuel ip off src) Q s.
Proof.
  revert fuel s V L r off src Q.
  induction k as [|k IH]; intros fuel s V L r off src Q H Hsb HV Hip Hdev Ha Ho Hmax Hby Hk Hfuel Hfree HL HQ;
    (destruct src as [|c src0] eqn:Esrc;
      [assert (writei_loop fuel ip off [] = mret tt) as -> by (by destruct fuel); wp_step;
       rewrite <-(set_io_id s), <-(same_inode s ip r (fs_io s) Hip);
       apply (HQ (fs_io s) (i_addrs r) V L); [by apply written_nil|done|lia|by rewrite same_inode, set_io_id]|rewrite <-Esrc in *]).
  { specialize (Hk ltac:(by subst)). pose proof (Z.mod_pos_bound off BSIZE ltac:(done)). subst. cbn [length] in Hk. lia. }
  destruct fuel as [|fuel]; [lia|]. assert (Hne : src <> []) by (by subst). specialize (Hk Hne).
  assert (Hpos : 0 < Z.of_nat (length src)) by (subst; cbn [length]; lia).
  destruct (first_part off (Z.of_nat (length src)) (Z.of_nat k) Ho Hpos) as (Hm1 & Hm2 & Hm3); [lia|]. cbn zeta in *.
  cbn [writei_loop]. rewrite Esrc. rewrite <-Esrc. set (m := Z.min (Z.of_nat (length src)) (BSIZE - off mod BSIZE)) in *.
  pose proof (Z.div_pos off BSIZE Ho ltac:(done)) as Hd0. pose proof (Z.div_mod off BSIZE ltac:(done)) as Hdm.
  pose proof (Z.mod_pos_bound off BSIZE ltac:(done)) as Hmod.
  assert (Hbn : 0 <= off / BSIZE < MAXFILE) by (split; [done|]; apply Z.div_lt_upper_bound; [done|lia]).
  assert (Hlen : length (take (Z.to_nat m) src) = Z.to_nat m) by (rewrite length_take; lia).
  wp_step. eapply wp_ird; [done|]. rewrite Hdev. wp_step.
  eapply (bmap_located s V L r); [done..|lia|lia|]. intros x t a' V' L' Hloc Hsub Hsz H1.
  assert (Hin : off mod BSIZE + Z.of_nat (length (take (Z.to_nat m) src)) <= BSIZE) by (rewrite Hlen; lia).
  destruct (step_data Ho (proj2 Hbn) Hloc) as ((Hxr & Hxl & _) & _ & _).
  assert (HsL : (size L' <= size L + 4)%nat) by (etrans; [apply (subseteq_size L' ({[x]} ∪ L')); set_solver|done]).
  eapply fetch_rule; [done|destruct Hxl; lia|intros i; by rewrite lookup_empty|apply free_room; unfold LOGROOM, NBUF in *; lia|].
  intros b t2 Hb _ H2. eapply put_rule; [done|done|done|lia|]. intros t3 H3.
  set (bs := take (Z.to_nat m) src) in *. assert (Hbs : byte_list bs) by (by apply Forall_take).
  assert (Hbne : bs <> []) by (intros E; rewrite E in Hlen; cbn in Hlen; lia).
  pose proof (step_written Ho Hin (proj2 Hbn) Hbs Hbne Hloc) as Hw.
  set (V2 := upd V' x (splice (Z.to_nat (off mod BSIZE)) bs (V' x))) in *.
  assert (Hfs : (2 * k <= size (free_set sb V2))%nat).
  { unfold V2. rewrite free_set_upd by apply (step_data Ho (proj2 Hbn) Hloc). pose proof (lc_left _ _ _ _ _ _ _ _ Hloc). lia. }
  assert (Hrest : length (drop (Z.to_nat m) src) = (length src - Z.to_nat m)%nat) by apply length_drop.
  eapply (IH fuel (set_inode ip (set_iaddrs a' r) (set_io t3 s)) V2 ({[x]} ∪ L') (set_iaddrs a' r));
    [exact H3|done|apply Hw| |done|apply Hw|lia|rewrite Hrest; lia|by apply Forall_drop| |lia|done|lia|].
  - cbn. apply list_lookup_insert_eq. by apply lookup_lt_Some in Hip.
  - intros Hrne. assert (m <> Z.of_nat (length src)) by (intros E; apply Hrne, drop_ge; lia).
    destruct Hm3 as [|(E1 & E2 & _)]; [done|]. rewrite E1, Hrest. lia.
  - intros t4 a4 V4 L4 Hw4 Hsub4 Hsz4 H4. rewrite set_inode_again in H4 |- *. apply (HQ t4 a4 V4 L4); [|set_solver|lia|exact H4].
    rewrite <-(take_drop (Z.to_nat m) src). eapply written_app; [done| |exact Hw|].
    + fold bs. rewrite Hlen, Hrest. lia.
    + fold bs. rewrite Hlen, Z2Nat.id by lia. exact Hw4.
Qed.
End writing.
