(* ===== verification/FsFile.v ===== *)
(** Files as byte sequences: [readi] and [writei] of fs.c refine the reading and the
    overwriting of a list of bytes, and a system call that writes is atomic. *)

From stdpp Require Import base tactics numbers option list gmap sets strings.
From Stdlib Require Import ZArith Lia.
From S2P Require Import Prelude ProcDefs Spinlock Block BlockFacts BioFacts Bytes Log LogFacts LogCrash LogTx Fs FsLayout FsFacts FsData FsWrite.

(** * A file and its bytes *)

Definition shorts_ok (r : inode) : Prop :=
  - 2 ^ 15 <= i_type r < 2 ^ 15 /\ - 2 ^ 15 <= i_major r < 2 ^ 15 /\ - 2 ^ 15 <= i_minor r < 2 ^ 15 /\ - 2 ^ 15 <= i_nlink r < 2 ^ 15.

(** The inode [r] in memory describes a file on [V], the same as its copy on disk. *)
Record file_at (start : Z) (sb : superblock) (V : image) (r : inode) : Prop := {
  fa_vol : volume start sb V;
  fa_file : file_ok start sb V (i_addrs r);
  fa_dev : i_dev r = ROOTDEV;
  fa_inum : 0 <= i_inum r < sb_ninodes sb;
  fa_type : i_type r <> T_DEV;
  fa_shorts : shorts_ok r;
  fa_size : 0 <= i_size r <= MAXFILE * BSIZE;
  fa_mapped : mapped V (i_addrs r) (i_size r);
  fa_sync : disk_inode sb V (i_inum r) = to_dinode r
}.
(** Its contents. *)
Definition file_bytes (V : image) (r : inode) : list Z := content V (i_addrs r) 0 (i_size r).

Lemma content_length V a off n : length (content V a off n) = Z.to_nat n.
Proof. unfold content. by rewrite length_fmap, length_seqZ. Qed.
Lemma content_lookup V a off n i : (i < Z.to_nat n)%nat -> content V a off n !! i = Some (fbyte V a (off + Z.of_nat i)).
Proof. intros Hi. unfold content. rewrite list_lookup_fmap, lookup_seqZ_lt by lia. done. Qed.

Lemma content_slice V r off n : 0 <= off -> 0 <= n -> off + n <= i_size r ->
  content V (i_addrs r) off n = slice (Z.to_nat off) (Z.to_nat n) (file_bytes V r).
Proof.
  intros Ho Hn Hs. apply list_eq. intros i. rewrite lookup_slice. destruct (decide (i < Z.to_nat n)%nat).
  - rewrite content_lookup by done. unfold file_bytes. rewrite content_lookup by lia. do 2 f_equal. lia.
  - apply lookup_ge_None. rewrite content_length. lia.
Qed.

Lemma max_file : MAXFILE * BSIZE = 71680.
Proof. done. Qed.

Lemma file_words {start sb V a} : volume start sb V -> file_ok start sb V a -> Forall (fun x => 0 <= x < 2 ^ 32) a.
Proof.
  intros HV Ha. destruct (ge_size _ _ (vo_geo _ _ _ HV)) as [_ Hsz]. apply Forall_lookup. intros i x Hi.
  pose proof (lookup_lt_Some _ _ _ Hi) as Hl. rewrite (fl_len _ _ _ _ Ha) in Hl. destruct (decide (x = 0)) as [->|Hx]; [lia|].
  apply list_lookup_total_correct in Hi. destruct (decide (i = 12%nat)) as [->|Hne].
  - change 12%nat with (Z.to_nat NDIRECT) in Hi. fold (indirect a) in Hi. subst x.
    destruct (fl_ind _ _ _ _ Ha Hx) as [(Hr & _) _]. unfold FSSIZE in *. lia.
  - assert (E : fblk V a (Z.of_nat i) = x) by (rewrite fblk_direct by (unfold NDIRECT; lia); by rewrite Nat2Z.id).
    rewrite <-E in Hx. destruct (fl_data _ _ _ _ Ha (Z.of_nat i)) as [(Hr & _) _]; [|done|].
    + unfold MAXFILE, NDIRECT, NINDIRECT. change (BSIZE / 4) with 128. lia.
    + rewrite E in Hr. unfold FSSIZE in *. lia.
Qed.

(** * Writing the inode back *)

Section put_inode.
Context {start : Z} {sb : superblock} {V : image} (HV : volume start sb V) (i : Z) (Hi : 0 <= i < sb_ninodes sb) (di : dinode).
Context (Hdi : length (di_addrs di) = 13%nat).
Let V' := put_inode sb V i di.

Lemma put_inode_data n : data_block start sb n -> V' n = V n.
Proof. intros (_ & _ & _ & Hn). apply upd_ne. intros ->. apply Hn. by exists i. Qed.
Lemma put_inode_fblk a bn : file_ok start sb V a -> fblk V' a bn = fblk V a bn.
Proof.
  intros Ha. destruct (decide (indirect a = 0)) as [E|E]; [unfold fblk; by rewrite E|]. apply fblk_ext.
  apply put_inode_data. by apply Ha.
Qed.
Lemma put_inode_file a : file_ok start sb V a -> file_ok start sb V' a.
Proof.
  intros Ha. assert (Hu : forall b, data_block start sb b -> used sb V b -> used sb V' b).
  { intros b Hb Hub. destruct (volume_put_inode sb V i di HV Hi Hdi) as [_ H]. apply H; [apply Hb|done]. }
  split; [apply Ha|..].
  - intros Hz. destruct (fl_ind _ _ _ _ Ha Hz). auto.
  - intros bn Hbn. rewrite put_inode_fblk by done. intros Hz. destruct (fl_data _ _ _ _ Ha bn Hbn Hz) as (?&?&?). auto.
  - intros b1 b2 H1 H2. rewrite !put_inode_fblk by done. by apply Ha.
Qed.
Lemma put_inode_byte a j : file_ok start sb V a -> 0 <= j < MAXFILE * BSIZE -> fblk V a (j / BSIZE) <> 0 -> fbyte V' a j = fbyte V a j.
Proof.
  intros Ha Hj Hz. unfold fbyte. rewrite put_inode_fblk by done. f_equal. apply put_inode_data. apply Ha; [|done].
  split; [apply Z.div_pos; lia || done|apply Z.div_lt_upper_bound; [done|lia]].
Qed.
End put_inode.

(** * The effect of a write *)

Section effect.
Context {start : Z} {sb : superblock} {V V1 : image} {r : inode} {a1 : list Z} {off : Z} {src : list Z}.
Context (Hf : file_at start sb V r) (Hoff : 0 <= off <= i_size r).
Context (Hmax : off + Z.of_nat (length src) <= MAXFILE * BSIZE) (Hw : written start sb V (i_addrs r) off src V1 a1).
Let n := Z.of_nat (length src).

Lemma block_of i : 0 <= i < MAXFILE * BSIZE -> 0 <= i / BSIZE < MAXFILE.
Proof. clear. intros Hi. split; [apply Z.div_pos; lia || done|apply Z.div_lt_upper_bound; [done|lia]]. Qed.
Lemma mapped_at U a sz i : mapped U a sz -> 0 <= i < sz -> fblk U a (i / BSIZE) <> 0.
Proof.
  clear. intros Hm Hi. pose proof (Z.div_mod i BSIZE ltac:(done)). pose proof (Z.mod_pos_bound i BSIZE ltac:(done)).
  apply Hm; [apply Z.div_pos; lia || done|lia].
Qed.

Lemma effect_mapped : mapped V1 a1 (Z.max (i_size r) (off + n)).
Proof.
  intros bn Hbn Hlt. pose proof (fa_size _ _ _ _ Hf) as Hs.
  apply (wr_mapped _ _ _ _ _ _ _ _ Hw); [unfold BSIZE, MAXFILE in *; lia|].
  destruct (decide (bn * BSIZE < i_size r)) as [Hin|Hin]; [left; by apply Hf|right].
  unfold touches. unfold n, BSIZE in *. split_and!; lia.
Qed.
Lemma effect_byte i : 0 <= i < Z.max (i_size r) (off + n) ->
  splice (Z.to_nat off) src (file_bytes V r) !! Z.to_nat i = Some (fbyte V1 a1 i).
Proof.
  intros Hi. pose proof (fa_size _ _ _ _ Hf) as Hs. assert (Hlen : length (file_bytes V r) = Z.to_nat (i_size r)) by apply content_length.
  assert (Hold : ~ (off <= i < off + n) -> 0 <= i < i_size r -> Some (fbyte V1 a1 i) = file_bytes V r !! Z.to_nat i).
  { intros Hout Hin. unfold file_bytes. rewrite content_lookup by lia.
    rewrite (wr_old _ _ _ _ _ _ _ _ Hw); [do 2 f_equal; lia|lia| |done]. by eapply mapped_at; [apply Hf|]. }
  unfold splice. destruct (decide (i < off)) as [H1|H1].
  - rewrite lookup_app_l by (rewrite length_take; lia). rewrite lookup_take, decide_True by lia. symmetry. apply Hold; lia.
  - rewrite lookup_app_r by (rewrite length_take; lia). rewrite length_take, Hlen. rewrite Nat.min_l by lia.
    destruct (decide (i < off + n)) as [H2|H2].
    + rewrite lookup_app_l by lia. destruct (lookup_lt_is_Some_2 src (Z.to_nat i - Z.to_nat off)) as [x Hx]; [lia|]. rewrite Hx.
      pose proof (wr_new _ _ _ _ _ _ _ _ Hw _ _ Hx) as E. rewrite <-E. do 2 f_equal. lia.
    + rewrite lookup_app_r by lia. rewrite lookup_drop. rewrite Hold by lia. f_equal. lia.
Qed.

(** The file after the write, whose new inode is [r']. *)
Lemma effect_bytes U r' : i_addrs r' = a1 -> i_size r' = Z.max (i_size r) (off + n) ->
  (forall i, 0 <= i < i_size r' -> fbyte U a1 i = fbyte V1 a1 i) ->
  file_bytes U r' = splice (Z.to_nat off) src (file_bytes V r).
Proof.
  intros Ea Es Hu. pose proof (fa_size _ _ _ _ Hf) as Hs. apply list_eq. intros i.
  destruct (decide (Z.of_nat i < i_size r')) as [Hi|Hi].
  - unfold file_bytes at 1. rewrite content_lookup by lia. rewrite Ea, Hu by lia. rewrite Z.add_0_l.
    rewrite <-effect_byte by lia. by rewrite Nat2Z.id.
  - rewrite !(proj2 (lookup_ge_None _ _)); [done| |]; unfold splice, file_bytes;
      rewrite ?length_app, ?length_take, ?length_drop, !content_length; lia.
Qed.

(** The inode blocks do not change. *)
Lemma effect_inodes i : 0 <= i < sb_ninodes sb -> disk_inode sb V1 i = disk_inode sb V i.
Proof.
  intros Hi. unfold disk_inode. rewrite (wr_frame _ _ _ _ _ _ _ _ Hw); [done|..].
  - intros Hb. eapply ge_apart; [apply Hf|done|]. by exists i.
  - intros (_ & _ & _ & Hd). destruct Hd. by exists i.
Qed.

(** A file that shares no block with the one written stays as it is. *)
Definition separate (U : image) (r1 r2 : inode) : Prop :=
  i_inum r1 <> i_inum r2 /\ forall m, data_block start sb m -> owned U (i_addrs r1) m -> ~ owned U (i_addrs r2) m.

Lemma effect_other r2 : file_at start sb V r2 -> separate V r r2 ->
  (forall bn, fblk V1 (i_addrs r2) bn = fblk V (i_addrs r2) bn) /\ file_at start sb V1 r2 /\ file_bytes V1 r2 = file_bytes V r2.
Proof.
  intros [G1 G2 G3 G4 G5 G6 G7 G8 G9] [_ Hsep].
  assert (Hkeep : forall m, data_block start sb m -> used sb V m -> owned V (i_addrs r2) m -> V1 m = V m).
  { intros m Hd Hu Ho. apply (wr_frame _ _ _ _ _ _ _ _ Hw); [apply Hd|]. intros _. split; [done|]. intros Ho1. by eapply Hsep. }
  assert (Hblk : forall bn, fblk V1 (i_addrs r2) bn = fblk V (i_addrs r2) bn).
  { intros bn. destruct (decide (indirect (i_addrs r2) = 0)) as [E|E]; [unfold fblk; by rewrite E|].
    apply fblk_ext. destruct (fl_ind _ _ _ _ G2 E). apply Hkeep; [done..|by left]. }
  assert (Hm : mapped V1 (i_addrs r2) (i_size r2)) by (intros bn; rewrite Hblk; apply G8).
  split; [done|]. split.
  - split; try done; [apply Hw| |by rewrite effect_inodes].
    split; [apply G2|..].
    + intros E. destruct (fl_ind _ _ _ _ G2 E) as [Hd Hu]. split; [done|]. apply Hw; [apply Hd|done].
    + intros bn Hbn. rewrite Hblk. intros E. destruct (fl_data _ _ _ _ G2 bn Hbn E) as (Hd & Hu & ?). split_and!; [done| |done].
      apply Hw; [apply Hd|done].
    + intros b1 b2 H1 H2. rewrite !Hblk. by apply G2.
  - apply list_fmap_ext. intros j i Hj. apply lookup_seqZ in Hj as [-> Hj]. unfold fbyte. rewrite Hblk. f_equal.
    assert (Hb : 0 <= (0 + Z.of_nat j) / BSIZE < MAXFILE) by (apply block_of; lia).
    assert (Hz : fblk V (i_addrs r2) ((0 + Z.of_nat j) / BSIZE) <> 0) by (eapply mapped_at; [done|lia]).
    destruct (fl_data _ _ _ _ G2 _ Hb Hz) as (Hd & Hu & _). apply Hkeep; [done..|]. right. by eexists.
Qed.
End effect.

Lemma put_inode_bytes {start sb V} i di r : file_at start sb V r -> 0 <= i < sb_ninodes sb -> length (di_addrs di) = 13%nat ->
  file_bytes (put_inode sb V i di) r = file_bytes V r.
Proof.
  intros [G1 G2 G3 G4 G5 G6 G7 G8 G9] Hi Hdi. apply list_fmap_ext. intros j x Hj. apply lookup_seqZ in Hj as [-> Hj].
  apply (put_inode_byte (start := start)); [done|done|done|lia|]. eapply mapped_at; [done|lia].
Qed.
Lemma put_inode_other {start sb V} i di r : file_at start sb V r -> 0 <= i < sb_ninodes sb -> dinode_ok di -> i <> i_inum r ->
  file_at start sb (put_inode sb V i di) r.
Proof.
  intros [G1 G2 G3 G4 G5 G6 G7 G8 G9] Hi Hdi Hne. pose proof Hdi as (_ & _ & _ & _ & _ & Hl & _). split; try done.
  - by apply volume_put_inode.
  - by apply put_inode_file.
  - intros bn Hbn Hs. rewrite (put_inode_fblk (start := start)) by done. by apply G8.
  - rewrite (disk_inode_put (start := start)) by done. by rewrite decide_False.
Qed.

Section write.
Context {B : Type} {IO : BlockIO B} {start : Z} {LW : BlockIOLaws B start}.
Context (sb : superblock) (D : image) (ip : nat) (devwrite : Z -> option (nat -> list Z -> Z -> M (fs B) Z)).

(** The result of a write: [r] became [r'], the rest of the disk is untouched. *)
Record write_effect (V : image) (r : inode) (off : Z) (src : list Z) (V' : image) (r' : inode) : Prop := {
  we_file : file_at start sb V' r';
  we_bytes : file_bytes V' r' = splice (Z.to_nat off) src (file_bytes V r);
  we_inode : exists a', r' = set_isize (Z.max (i_size r) (off + Z.of_nat (length src))) (set_iaddrs a' r);
  we_others : forall r2, file_at start sb V r2 -> separate (start := start) (sb := sb) V r r2 ->
    file_at start sb V' r2 /\ file_bytes V' r2 = file_bytes V r2
}.

Section one.
Context (V : image) (r : inode) (off : Z) (src : list Z) (V1 : image) (a1 : list Z).
Context (Hf : file_at start sb V r) (Hoff : 0 <= off <= i_size r).
Context (Hmax : off + Z.of_nat (length src) <= MAXFILE * BSIZE) (Hw : written start sb V (i_addrs r) off src V1 a1).

(** The write stays inside the file: the inode is as before. *)
Lemma effect_inside : ~ (0 < Z.of_nat (length src) /\ i_size r < off + Z.of_nat (length src)) ->
  a1 = i_addrs r /\ write_effect V r off src V1 (set_iaddrs a1 r).
Proof.
  intros Hin. assert (E : a1 = i_addrs r).
  { apply Hw. intros bn Hbn (T1 & T2 & T3). apply (fa_mapped _ _ _ _ Hf); [lia|]. lia. }
  split; [done|]. assert (Er : set_iaddrs a1 r = r) by (rewrite E; by destruct r).
  assert (Emax : Z.max (i_size r) (off + Z.of_nat (length src)) = i_size r) by lia.
  pose proof (effect_mapped Hf Hoff Hmax Hw) as Hm. rewrite Emax in Hm. pose proof Hf as [G1 G2 G3 G4 G5 G6 G7 G8 G9]. split.
  - rewrite Er. split; try done; [apply Hw|rewrite <-E; apply Hw|by rewrite <-E|]. by rewrite (effect_inodes Hf Hw).
  - eapply (effect_bytes Hf Hoff Hmax Hw); [done|by cbn; rewrite Emax|done].
  - exists a1. rewrite Emax. cbn. by rewrite Er; destruct r.
  - intros r2 H2 Hs. destruct (effect_other Hf Hw r2 H2 Hs) as (_ & ? & ?). done.
Qed.

(** The write extends the file. *)
Lemma effect_extend : i_size r < off + Z.of_nat (length src) ->
  let r' := set_isize (off + Z.of_nat (length src)) (set_iaddrs a1 r) in
  write_effect V r off src (put_inode sb V1 (i_inum r) (to_dinode r')) r'.
Proof.
  intros Hext r'. pose proof Hf as [G1 G2 G3 G4 G5 G6 G7 G8 G9].
  pose proof (wr_vol _ _ _ _ _ _ _ _ Hw) as HV1. pose proof (wr_file _ _ _ _ _ _ _ _ Hw) as Hf1.
  assert (Emax : Z.max (i_size r) (off + Z.of_nat (length src)) = off + Z.of_nat (length src)) by lia.
  pose proof (effect_mapped Hf Hoff Hmax Hw) as Hm. rewrite Emax in Hm. rewrite max_file in *.
  assert (Hdi : dinode_ok (to_dinode r')).
  { destruct G6 as (?&?&?&?). unfold dinode_ok. cbn. split_and!; try done; try lia; [apply Hf1|by eapply file_words]. }
  assert (Hl : length (di_addrs (to_dinode r')) = 13%nat) by apply Hf1. split.
  - split; try done.
    + by apply volume_put_inode.
    + by apply put_inode_file.
    + cbn. rewrite max_file. lia.
    + intros bn Hbn Hs. rewrite (put_inode_fblk (start := start)) by done. by apply Hm.
    + change (i_inum r') with (i_inum r). rewrite (disk_inode_put (start := start)) by done. by rewrite decide_True.
  - eapply (effect_bytes Hf Hoff ltac:(by rewrite max_file) Hw); [done|by cbn; rewrite Emax|].
    intros i Hi. cbn in Hi. apply (put_inode_byte (start := start)); [done|done|done|rewrite max_file; lia|]. by eapply mapped_at.
  - exists a1. by rewrite Emax.
  - intros r2 H2 Hs. destruct (effect_other Hf Hw r2 H2 Hs) as (_ & Hr2 & E2). split.
    + apply put_inode_other; [done|done|done|]. apply Hs.
    + rewrite (put_inode_bytes (start := start)); done.
Qed.
End one.

Lemma writei_spec s V L r off src (Q : Z -> fs B -> Prop) : fsok s V D L ∅ -> fs_sb s = sb ->
  fs_inodes s !! ip = Some r -> file_at start sb V r -> 0 <= off <= i_size r ->
  off + Z.of_nat (length src) <= MAXFILE * BSIZE -> byte_list src ->
  (2 * io_fuel (Z.of_nat (length src)) <= size (free_set sb V))%nat ->
  (size L + 4 * io_fuel (Z.of_nat (length src)) <= LOGROOM)%nat ->
  (forall t r' V' L', write_effect V r off src V' r' -> L ⊆ L' ->
    (size L' <= size L + 4 * io_fuel (Z.of_nat (length src)) + 1)%nat ->
    fsok (set_inode ip r' (set_io t s)) V' D L' ∅ -> Q (Z.of_nat (length src)) (set_inode ip r' (set_io t s))) ->
  wp (writei devwrite ip src off) Q s.
Proof.
  intros H Hsb Hip Hf Ho Hmax Hby Hfree HL HQ. set (n := Z.of_nat (length src)) in *. rewrite max_file in Hmax.
  unfold writei. fold n. wp_step. eapply wp_ird; [done|]. cbn [id]. cbn zeta.
  destruct (Z.eqb_spec (i_type r) T_DEV); [by destruct (fa_type _ _ _ _ Hf)|]. rewrite !u32_small by lia.
  destruct (Z.ltb_spec (i_size r) off); [lia|]. destruct (Z.ltb_spec (off + n) off); [lia|]. cbn [orb].
  rewrite max_file. destruct (Z.ltb_spec 71680 (off + n)); [lia|]. wp_step.
  eapply (writei_loop_spec sb D ip _ (io_fuel n) s V L r); [done|done|apply Hf|done|by eapply fa_dev|apply Hf|lia| |done| |done|done|done|].
  { by rewrite max_file. }
  { intros _. apply io_fuel_enough. lia. }
  intros t a1 V1 L1 Hw Hsub Hsz Hs1. assert (Hmax' : off + n <= MAXFILE * BSIZE) by (by rewrite max_file).
  set (s1 := set_inode ip (set_iaddrs a1 r) (set_io t s)) in *.
  assert (Hip1 : fs_inodes s1 !! ip = Some (set_iaddrs a1 r)) by (cbn; apply list_lookup_insert_eq; by apply lookup_lt_Some in Hip).
  wp_step. eapply wp_ird; [done|]. cbn [i_size set_iaddrs]. rewrite s32_small by lia.
  destruct ((0 <? n) && (i_size r <? off + n)) eqn:Eg.
  - apply andb_true_iff in Eg as [Eg1%Z.ltb_lt Eg2%Z.ltb_lt]. wp_step. wp_step. eapply wp_iwr; [done|].
    pose proof (effect_extend V r off src V1 a1 Hf Ho Hmax' Hw Eg2) as He. cbn zeta in He. fold n in He.
    set (r' := set_isize (off + n) (set_iaddrs a1 r)) in *.
    eapply (iupdate_spec _ V1 D L1 ∅ sb ip r'); [|done|apply Hw| |by eapply (fa_dev _ _ _ r)|by eapply (fa_inum _ _ _ r)|intros i; by rewrite lookup_empty| |].
    + apply fsok_inode; [done|]. by apply (fsok_guard _ _ _ _ _ _ _ H Hip).
    + cbn. apply list_lookup_insert_eq. rewrite length_insert. by apply lookup_lt_Some in Hip.
    + rewrite map_img_empty_L, (right_id_L ∅ (∪)). lia.
    + intros t2 Hs2. wp_step. unfold s1 in *. rewrite set_inode_io in *.
      change (set_io t2 (set_inode ip (set_iaddrs a1 r) (set_io t s))) with (set_inode ip (set_iaddrs a1 r) (set_io t2 s)) in *.
      assert (E : set_inode ip r' (set_inode ip (set_iaddrs a1 r) (set_io t2 s)) = set_inode ip r' (set_io t2 s)).
      { unfold set_inode, set_inodes. cbn [fs_io fs_sb fs_lk fs_inodes fs_wakes]. by rewrite list_insert_insert_eq. }
      rewrite E in *. eapply (HQ t2 r' _ ({[IBLOCK (i_inum r') sb]} ∪ L1)); [exact He|set_solver| |exact Hs2].
      pose proof (size_union_1 L1 (IBLOCK (i_inum r') sb)). lia.
  - do 3 wp_step. destruct (effect_inside V r off src V1 a1 Hf Ho Hmax' Hw) as [_ He].
    { fold n. intros [E1 E2]. apply Z.ltb_lt in E1, E2. by rewrite E1, E2 in Eg. }
    eapply (HQ t _ V1 L1); [exact He|done|lia|exact Hs1].
Qed.
End write.
