(* ===== verification/FsCache.v ===== *)
(** The inode cache of fs.c: [iget], [idup], [ilock], [iunlock] and the reference
    counts. *)

From stdpp Require Import base tactics numbers option list gmap sets strings.
From Stdlib Require Import ZArith Lia.
From S2P Require Import Prelude ProcDefs Spinlock Block BlockFacts BioFacts Bytes Log LogFacts Fs FsLayout FsFacts FsData.

Section cache.
Context {B : Type} {IO : BlockIO B} {start : Z} {RD : BlockIORead B}.
Context (me : nat) (pid : Z).

(** * Spin locks *)

Definition freed (l : spinlock) : spinlock := MkSpinlock 0 (lk_name l) None.

(** A lock operation that succeeds on the processor and the lock. *)
Lemma wp_spin (get : fs B -> option spinlock) put (m : M (cpu * spinlock) unit) s l k' l' (Q : unit -> fs B -> Prop) :
  get s = Some l -> m (io_cpu (fs_io s), l) = Ok (tt, (k', l')) ->
  Q tt (put l' (set_io (io_set_cpu k' (fs_io s)) s)) -> wp (spin get put m) Q s.
Proof.
  intros Hg Hm HQ. unfold spin. wp_step. eapply wp_deref; [done|]. wp_step. apply wp_on_io. apply wp_zoom.
  eapply wp_run; [by rewrite Hm|]. by apply wp_modify.
Qed.

(** A section under [icache.lock]. *)
Lemma wp_under_icache {A} (m : M (fs B) A) s V D L held (Q : A -> fs B -> Prop) : fsok s V D L held ->
  (let s1 := set_fslk (MkSpinlock 1 (lk_name (fs_lk s)) (Some me)) (set_io (io_set_cpu (entered (io_cpu (fs_io s))) (fs_io s)) s) in
    wp m (fun a s2 => exists rs w, s2 = set_fswakes w (set_inodes rs s1) /\
      (forall t, io_ok t V D L held -> Q a (set_fslk (freed (fs_lk s)) (set_fswakes w (set_inodes rs (set_io t s)))))) s1) ->
  wp (under_icache me m) Q s.
Proof.
  intros H Hm. pose proof (io_cpu_ok _ _ _ _ _ (fo_io _ _ _ _ _ H)) as Hk. unfold under_icache. cbn zeta. wp_step.
  eapply wp_spin; [done|by apply acquire_free; [|apply H]|]. wp_step.
  eapply wp_mono; [exact Hm|]. cbn beta zeta. intros a s2 (rs & w & -> & HQ). wp_step.
  eapply wp_spin; [done| |].
  { cbn [fs_lk set_fswakes set_inodes set_fslk fs_io set_io]. rewrite io_get_set.
    rewrite release_prefix; [|by apply entered_ok|destruct Hk; cbn; lia].
    unfold is_held. cbn. by rewrite bool_decide_eq_true_2. }
  wp_step. cbn [fs_io set_fswakes set_inodes set_fslk set_io]. rewrite io_set_set. eapply HQ.
  apply io_set_cpu_ok; [apply H|]. by apply left_entered_ok.
Qed.

Lemma alter_lookup (f : inode -> inode) (ip : nat) r (rs : list inode) : rs !! ip = Some r -> alter f ip rs = <[ip := f r]> rs.
Proof. clear. revert ip. induction rs as [|x rs IH]; intros [|ip] H; try done; cbn in *; [by simplify_eq|]. f_equal. by apply IH. Qed.

(** A section under the spin lock of an inode's sleep lock. *)
Lemma wp_under_iguard {A} (m : M (fs B) A) s V D L held ip r (Q : A -> fs B -> Prop) : fsok s V D L held ->
  fs_inodes s !! ip = Some r ->
  (let r1 := set_iguard (MkSpinlock 1 (lk_name (i_guard r)) (Some me)) r in
   let s1 := set_inode ip r1 (set_io (io_set_cpu (entered (io_cpu (fs_io s))) (fs_io s)) s) in
    wp m (fun a s2 => exists r2 w, s2 = set_fswakes w (set_inode ip r2 s1) /\ i_guard r2 = i_guard r1 /\
      (forall t, io_ok t V D L held -> Q a (set_fswakes w (set_inode ip (set_iguard (freed (i_guard r)) r2) (set_io t s))))) s1) ->
  wp (under_iguard me ip m) Q s.
Proof.
  intros H Hip Hm. pose proof (io_cpu_ok _ _ _ _ _ (fo_io _ _ _ _ _ H)) as Hk. pose proof (fsok_guard _ _ _ _ _ _ _ H Hip) as Hg.
  assert (Hlt : (ip < length (fs_inodes s))%nat) by (by apply lookup_lt_Some in Hip).
  unfold under_iguard. cbn zeta. wp_step. eapply wp_spin; [by rewrite Hip|by apply acquire_free|]. cbn [fs_inodes set_io].
  rewrite (alter_lookup _ _ r) by done. wp_step. eapply wp_mono; [exact Hm|]. cbn beta zeta. intros a s2 (r2 & w & -> & Hg2 & HQ).
  wp_step. eapply wp_spin.
  { cbn [fs_inodes set_fswakes set_inode set_inodes]. rewrite list_lookup_insert_eq by (rewrite length_insert; cbn; lia). done. }
  { rewrite Hg2. cbn [fs_io set_fswakes set_inodes set_inode set_io i_guard set_iguard]. rewrite io_get_set.
    rewrite release_prefix; [|by apply entered_ok|destruct Hk; cbn; lia].
    unfold is_held. cbn. by rewrite bool_decide_eq_true_2. }
  wp_step. cbn [fs_io set_fswakes set_inodes set_inode set_io fs_inodes]. rewrite io_set_set.
  rewrite (alter_lookup _ _ r2) by (rewrite list_lookup_insert_eq; [done|rewrite length_insert; lia]).
  rewrite !list_insert_insert_eq. eapply HQ. apply io_set_cpu_ok; [apply H|]. by apply left_entered_ok.
Qed.

(** * Sleep locks *)

(** [r'] is [r] but for its locks. *)
Definition same_inode_data (r r' : inode) : Prop := exists g l p, lk_locked g = 0 /\ r' = set_ilock l p (set_iguard g r).

(** The state after an operation on the lock of inode [ip]. *)
Definition lock_step (s s' : fs B) (ip : nat) (r' : inode) : Prop :=
  exists t w, s' = set_fswakes w (set_inode ip r' (set_io t s)).

Lemma fsok_step s V D L held ip r' t w : fsok s V D L held -> io_ok t V D L held -> lk_locked (i_guard r') = 0 ->
  fsok (set_fswakes w (set_inode ip r' (set_io t s))) V D L held.
Proof. intros [_ H1 H2] Ht Hr. split; [done|done|]. cbn. by apply Forall_insert. Qed.

Lemma iacquiresleep_spec s V D L held ip r (Q : unit -> fs B -> Prop) : fsok s V D L held -> fs_inodes s !! ip = Some r ->
  i_locked r = 0 ->
  (forall s' g, lk_locked g = 0 -> lock_step s s' ip (set_ilock 1 pid (set_iguard g r)) -> fsok s' V D L held -> Q tt s') ->
  wp (iacquiresleep me pid ip) Q s.
Proof.
  intros H Hip Hl HQ. assert (Hlt : (ip < length (fs_inodes s))%nat) by (by apply lookup_lt_Some in Hip).
  unfold iacquiresleep. eapply wp_under_iguard; [done..|]. cbn zeta. wp_step.
  eapply wp_ird; [cbn; by apply list_lookup_insert_eq|]. cbn [i_locked set_iguard]. rewrite Hl. cbn [Z.eqb].
  eapply wp_iwr; [cbn; by apply list_lookup_insert_eq|]. eexists _, (fs_wakes s). split; [done|]. split; [done|].
  intros t Ht. apply (HQ _ (freed (i_guard r))); [done| |].
  - by eexists _, _.
  - by apply fsok_step.
Qed.
Lemma ireleasesleep_spec s V D L held ip r (Q : unit -> fs B -> Prop) : fsok s V D L held -> fs_inodes s !! ip = Some r ->
  (forall s' g, lk_locked g = 0 -> lock_step s s' ip (set_ilock 0 0 (set_iguard g r)) -> fsok s' V D L held -> Q tt s') ->
  wp (ireleasesleep me ip) Q s.
Proof.
  intros H Hip HQ. assert (Hlt : (ip < length (fs_inodes s))%nat) by (by apply lookup_lt_Some in Hip).
  unfold ireleasesleep. eapply wp_under_iguard; [done..|]. cbn zeta. wp_step.
  eapply wp_iwr; [cbn; by apply list_lookup_insert_eq|]. wp_step. eexists _, _. split; [done|]. split; [done|].
  intros t Ht. apply (HQ _ (freed (i_guard r))); [done| |].
  - by eexists _, _.
  - by apply fsok_step.
Qed.
Lemma iholdingsleep_spec s V D L held ip r (Q : bool -> fs B -> Prop) : fsok s V D L held -> fs_inodes s !! ip = Some r ->
  (forall s' g, lk_locked g = 0 -> lock_step s s' ip (set_iguard g r) -> fsok s' V D L held ->
    Q (negb (i_locked r =? 0)) s') ->
  wp (iholdingsleep me ip) Q s.
Proof.
  intros H Hip HQ. assert (Hlt : (ip < length (fs_inodes s))%nat) by (by apply lookup_lt_Some in Hip).
  unfold iholdingsleep. eapply wp_under_iguard; [done..|]. cbn zeta. wp_step.
  eapply wp_ird; [cbn; by apply list_lookup_insert_eq|]. wp_step.
  exists (set_iguard (MkSpinlock 1 (lk_name (i_guard r)) (Some me)) r), (fs_wakes s). split.
  { unfold set_inode, set_inodes, set_fswakes. cbn [fs_io fs_sb fs_lk fs_inodes fs_wakes]. by rewrite list_insert_insert_eq. }
  split; [done|]. intros t Ht. apply (HQ _ (freed (i_guard r))); [done| |].
  - by eexists _, _.
  - by apply fsok_step.
Qed.

(** * ilock and iunlock *)

(** The inode that [ilock] leaves: read from disk if it was not valid. *)
Definition loaded (sb : superblock) (V : image) (r : inode) : inode :=
  if i_valid r =? 0 then set_ivalid 1 (of_dinode (disk_inode sb V (i_inum r)) r) else r.

Lemma step_lookup s s' ip r' : lock_step s s' ip r' -> (ip < length (fs_inodes s))%nat ->
  fs_inodes s' !! ip = Some r' /\ fs_sb s' = fs_sb s /\ fs_lk s' = fs_lk s /\ fs_inodes s' = <[ip := r']> (fs_inodes s).
Proof. clear. intros (t & w & ->) Hl. cbn. by rewrite list_lookup_insert_eq. Qed.
Lemma step_trans s s1 s2 ip r1 r2 : lock_step s s1 ip r1 -> lock_step s1 s2 ip r2 -> lock_step s s2 ip r2.
Proof.
  intros (t & w & ->) (t2 & w2 & ->). exists t2, w2. unfold set_inode, set_inodes, set_fswakes, set_io.
  cbn [fs_io fs_sb fs_lk fs_inodes fs_wakes]. by rewrite list_insert_insert_eq.
Qed.

Lemma ilock_spec s V D L held ip r (Q : unit -> fs B -> Prop) : fsok s V D L held -> volume start (fs_sb s) V ->
  fs_inodes s !! ip = Some r -> 1 <= i_ref r -> i_locked r = 0 -> i_dev r = ROOTDEV -> 0 <= i_inum r < sb_ninodes (fs_sb s) ->
  unheld held (IBLOCK (i_inum r) (fs_sb s)) -> (size (L ∪ map_img held) < NBUF)%nat ->
  (i_valid r = 0 -> di_type (disk_inode (fs_sb s) V (i_inum r)) <> 0) ->
  (forall s' g, lk_locked g = 0 -> lock_step s s' ip (loaded (fs_sb s) V (set_ilock 1 pid (set_iguard g r))) ->
    fsok s' V D L held -> Q tt s') ->
  wp (ilock me pid ip) Q s.
Proof.
  intros H HV Hip Href Hl Hdev Hin Hh Hsz Hty HQ.
  assert (Hlt : (ip < length (fs_inodes s))%nat) by (by apply lookup_lt_Some in Hip).
  unfold ilock. wp_step. eapply wp_ird; [done|]. wp_step. apply wp_panic_if; [apply Z.ltb_ge; lia|]. wp_step.
  eapply iacquiresleep_spec; [done..|]. intros s1 g Hg Hs1 H1. destruct (step_lookup _ _ _ _ Hs1 Hlt) as (Hip1 & Esb & _ & Ein).
  wp_step. eapply wp_ird; [done|]. cbn [id i_valid set_ilock set_iguard i_dev i_inum].
  specialize (HQ) as HQ'. unfold loaded in HQ'. cbn [i_valid set_ilock set_iguard i_inum] in HQ'.
  destruct (Z.eqb_spec (i_valid r) 0) as [Hv|Hv]; [|wp_step; by eapply HQ'].
  do 2 wp_step. rewrite Esb, Hdev. assert (Hib : inode_block (fs_sb s) (IBLOCK (i_inum r) (fs_sb s))) by (by exists (i_inum r)).
  destruct (ge_inodes _ _ (vo_geo _ _ _ HV) _ Hib) as [Hr _].
  eapply fetch_rule; [done|lia|done|done|]. intros b t Hb Hc H2. wp_step. eapply wp_iwr; [exact Hip1|]. wp_step.
  fold (disk_inode (fs_sb s) V (i_inum r)). set (di := disk_inode (fs_sb s) V (i_inum r)) in *.
  eapply done_rule; [apply fsok_inode; [exact H2|done]|done|done|]. intros t2 H3. wp_step.
  eapply wp_iwr; [cbn; apply list_lookup_insert_eq; by apply lookup_lt_Some in Hip1|]. wp_step.
  eapply wp_ird; [cbn; apply list_lookup_insert_eq; rewrite length_insert; by apply lookup_lt_Some in Hip1|].
  cbn [i_type set_ivalid of_dinode]. apply wp_panic_if; [apply Z.eqb_neq; by apply Hty|].
  apply (HQ' _ g Hg).
  - eapply step_trans; [exact Hs1|]. exists t2, (fs_wakes s1). unfold set_inode, set_inodes, set_fswakes, set_io.
    cbn [fs_io fs_sb fs_lk fs_inodes fs_wakes]. by rewrite list_insert_insert_eq.
  - by apply fsok_inode.
Qed.

Lemma iunlock_spec s V D L held ip r (Q : unit -> fs B -> Prop) : fsok s V D L held -> fs_inodes s !! ip = Some r ->
  1 <= i_ref r -> i_locked r <> 0 ->
  (forall s' g, lk_locked g = 0 -> lock_step s s' ip (set_ilock 0 0 (set_iguard g r)) -> fsok s' V D L held -> Q tt s') ->
  wp (iunlock me ip) Q s.
Proof.
  intros H Hip Href Hl HQ. assert (Hlt : (ip < length (fs_inodes s))%nat) by (by apply lookup_lt_Some in Hip).
  unfold iunlock. wp_step. eapply iholdingsleep_spec; [done..|]. intros s1 g Hg Hs1 H1.
  destruct (step_lookup _ _ _ _ Hs1 Hlt) as (Hip1 & _). wp_step. eapply wp_ird; [done|]. cbn [i_ref set_iguard]. wp_step.
  apply wp_panic_if. { apply orb_false_iff. split; [|apply Z.ltb_ge; lia]. by rewrite negb_involutive; apply Z.eqb_neq. }
  eapply ireleasesleep_spec; [done..|]. intros s2 g2 Hg2 Hs2 H2. apply (HQ _ g2 Hg2); [|done].
  eapply step_trans; [exact Hs1|exact Hs2].
Qed.

(** * References *)

(** No two entries in use hold the same inode. *)
Definition cache_ok (rs : list inode) : Prop :=
  forall i j ri rj, rs !! i = Some ri -> rs !! j = Some rj -> 0 < i_ref ri -> 0 < i_ref rj ->
    i_dev ri = i_dev rj -> i_inum ri = i_inum rj -> i = j.

(** What the scan of [iget] finds. *)
Lemma iget_scan_spec rs i dev inum empty :
  match iget_scan rs i dev inum empty with
  | inl ip => exists r, (i <= ip)%nat /\ rs !! (ip - i)%nat = Some r /\ 0 < i_ref r /\ i_dev r = dev /\ i_inum r = inum
  | inr o => (forall j r, rs !! j = Some r -> 0 < i_ref r -> ~ (i_dev r = dev /\ i_inum r = inum)) /\
      match empty with
      | Some e => o = Some e
      | None => match o with
                | Some e => exists r, (i <= e)%nat /\ rs !! (e - i)%nat = Some r /\ i_ref r = 0
                | None => forall j r, rs !! j = Some r -> i_ref r <> 0
                end
      end
  end.
Proof.
  clear. revert i empty. induction rs as [|r rs IH]; intros i empty; cbn [iget_scan].
  { split; [by intros j r|]. by destruct empty. }
  destruct ((0 <? i_ref r) && (i_dev r =? dev) && (i_inum r =? inum)) eqn:E.
  - apply andb_true_iff in E as [E Ei%Z.eqb_eq]. apply andb_true_iff in E as [Er%Z.ltb_lt Ed%Z.eqb_eq].
    exists r. rewrite Nat.sub_diag. by split_and!.
  - set (empty' := match empty with None => _ | _ => _ end). specialize (IH (S i) empty').
    destruct (iget_scan rs (S i) dev inum empty') as [ip|o].
    + destruct IH as (r' & Hle & Hr & Hrest). exists r'. split; [lia|]. split; [|done].
      by replace (ip - i)%nat with (S (ip - S i)) by lia.
    + destruct IH as [H1 H2]. split.
      * intros [|j] r' Hj Hpos; cbn in Hj; [|by eapply H1]. simplify_eq. intros [E1 E2].
        rewrite E1, E2, !Z.eqb_refl, !andb_true_r in E. apply Z.ltb_ge in E. lia.
      * destruct empty as [e|]; [done|]. cbn in empty'. subst empty'.
        destruct (Z.eqb_spec (i_ref r) 0) as [Hz|Hz].
        { subst o. exists r. by rewrite Nat.sub_diag. }
        destruct o as [e|].
        { destruct H2 as (r' & Hle & Hr & Hz'). exists r'. split; [lia|]. split; [|done].
          by replace (e - i)%nat with (S (e - S i)) by lia. }
        intros [|j] r' Hj; cbn in Hj; [by simplify_eq|by eapply H2].
Qed.

(** The entry for an inode before and after [iget]. *)
Definition got (dev inum : Z) (r r' : inode) : Prop :=
  (0 < i_ref r /\ i_dev r = dev /\ i_inum r = inum /\ r' = set_iref (s32 (i_ref r + 1)) r) \/
  (i_ref r = 0 /\ r' = set_ivalid 0 (set_iref 1 (set_ikey dev inum r))).

Lemma got_cache rs ip r r' dev inum : cache_ok rs -> rs !! ip = Some r -> got dev inum r r' -> i_ref r < 2 ^ 31 - 1 ->
  (i_ref r = 0 -> forall j rj, rs !! j = Some rj -> 0 < i_ref rj -> ~ (i_dev rj = dev /\ i_inum rj = inum)) ->
  cache_ok (<[ip := r']> rs).
Proof.
  clear. intros Hc Hip Hg Hmax Hfresh i j ri rj Hi Hj Pi Pj Ed Ei.
  destruct (decide (i = ip)) as [->|Ni], (decide (j = ip)) as [->|Nj]; [done|..].
  3: { rewrite list_lookup_insert_ne in Hi, Hj by done. by eapply Hc. }
  all: apply lookup_lt_Some in Hip as Hlt.
  - rewrite list_lookup_insert_eq in Hi by done. rewrite list_lookup_insert_ne in Hj by done. simplify_eq.
    destruct Hg as [(Hp & <- & <- & ->)|[Hz ->]]; cbn in *; [by eapply (Hc ip j r rj)|]. by destruct (Hfresh Hz j rj Hj Pj).
  - rewrite list_lookup_insert_ne in Hi by done. rewrite list_lookup_insert_eq in Hj by done. simplify_eq.
    destruct Hg as [(Hp & <- & <- & ->)|[Hz ->]]; cbn in *; [by eapply (Hc i ip ri r)|]. by destruct (Hfresh Hz i ri Hi Pi).
Qed.

Lemma iget_rule s V D L held dev inum (Q : nat -> fs B -> Prop) : fsok s V D L held ->
  (exists j r, fs_inodes s !! j = Some r /\ (i_ref r = 0 \/ (0 < i_ref r /\ i_dev r = dev /\ i_inum r = inum))) ->
  (forall ip r r' s', fs_inodes s !! ip = Some r -> got dev inum r r' ->
    (i_ref r = 0 -> forall j rj, fs_inodes s !! j = Some rj -> 0 < i_ref rj -> ~ (i_dev rj = dev /\ i_inum rj = inum)) ->
    fs_inodes s' = <[ip := r']> (fs_inodes s) -> fs_sb s' = fs_sb s -> fs_wakes s' = fs_wakes s -> fsok s' V D L held -> Q ip s') ->
  wp (iget me dev inum) Q s.
Proof.
  intros H Hroom HQ. unfold iget. eapply wp_under_icache; [done|]. cbn zeta. do 2 wp_step. cbn [fs_inodes set_fslk set_io].
  pose proof (iget_scan_spec (fs_inodes s) 0 dev inum None) as Hs.
  assert (Hstep : forall ip r r', fs_inodes s !! ip = Some r -> i_guard r' = i_guard r -> got dev inum r r' ->
    (i_ref r = 0 -> forall j rj, fs_inodes s !! j = Some rj -> 0 < i_ref rj -> ~ (i_dev rj = dev /\ i_inum rj = inum)) ->
    forall t, io_ok t V D L held ->
    Q ip (set_fslk (freed (fs_lk s)) (set_fswakes (fs_wakes s) (set_inodes (<[ip := r']> (fs_inodes s)) (set_io t s))))).
  { intros ip r r' Hr Hg Hgot Hf t Ht. eapply (HQ ip r r'); [done..|]. split; [done|done|]. cbn. apply Forall_insert; [apply H|].
    rewrite Hg. by apply (fsok_guard _ _ _ _ _ _ _ H Hr). }
  destruct (iget_scan (fs_inodes s) 0 dev inum None) as [ip|[ip|]].
  - destruct Hs as (r & _ & Hr & Hpos & Hd & Hi). rewrite Nat.sub_0_r in Hr. wp_step.
    eapply wp_iwr; [exact Hr|]. wp_step. exists (<[ip := set_iref (s32 (i_ref r + 1)) r]> (fs_inodes s)), (fs_wakes s).
    split; [reflexivity|]. eapply Hstep; [exact Hr|done|left; done|lia].
  - destruct Hs as [Hf (r & _ & Hr & Hz)]. rewrite Nat.sub_0_r in Hr. wp_step.
    eapply wp_iwr; [exact Hr|]. wp_step.
    exists (<[ip := set_ivalid 0 (set_iref 1 (set_ikey dev inum r))]> (fs_inodes s)), (fs_wakes s). split; [reflexivity|].
    eapply Hstep; [exact Hr|done|right; done|]. intros _. exact Hf.
  - destruct Hs as [Hf Hz]. destruct Hroom as (j & r & Hr & [Hz'|(Hp & Hk)]); [by destruct (Hz _ _ Hr)|by destruct (Hf _ _ Hr Hp)].
Qed.

End cache.
