(* ===== verification/FsPath.v ===== *)
(** Names: [skipelem] and [dirlookup] of fs.c against reference definitions. *)

From stdpp Require Import base tactics numbers option list gmap sets strings.
From Stdlib Require Import ZArith Lia.
From S2P Require Import Prelude ProcDefs Spinlock Block BlockFacts BioFacts CString Bytes Log LogFacts Fs FsLayout FsFacts FsData FsWrite FsFile FsCache.

(** * Path elements *)

(** The elements of a path: its maximal runs without a slash. *)
Fixpoint words (cs : list Z) : list (list Z) :=
  match cs with
  | [] => []
  | c :: cs =>
      if c =? SLASH then words cs
      else match cs with
           | [] => [[c]]
           | c2 :: _ => if c2 =? SLASH then [c] :: words cs
                        else match words cs with w :: ws => (c :: w) :: ws | [] => [[c]] end
           end
  end.

(** The name in a buffer of [DIRSIZ] bytes, which need not end in NUL. *)
Definition buf_name (b : list Z) : list Z := cstr (take DIRSIZ b ++ [0]).

Lemma skip_slashes_spec path : 0 ∈ path -> exists rest, skip_slashes path = Some rest /\ 0 ∈ rest /\
  words (cstr rest) = words (cstr path) /\ (forall c, head rest = Some c -> c <> SLASH).
Proof.
  induction path as [|c path IH]; intros H0; [by apply not_elem_of_nil in H0|]. cbn [skip_slashes].
  destruct (Z.eqb_spec c SLASH) as [->|Hc].
  - destruct IH as (rest & -> & H1 & H2 & H3); [set_solver|]. exists rest. split_and!; try done.
  - exists (c :: path). split_and!; try done. cbn. by intros c' [= <-].
Qed.

Lemma span_elem_spec path : 0 ∈ path -> exists e rest, span_elem path = Some (e, rest) /\ path = e ++ rest /\
  Forall (fun c => c <> SLASH /\ c <> 0) e /\ (head rest = Some SLASH \/ head rest = Some 0) /\ 0 ∈ rest.
Proof.
  induction path as [|c path IH]; intros H0; [by apply not_elem_of_nil in H0|]. cbn [span_elem].
  destruct (Z.eqb_spec c SLASH) as [->|Hc]; cbn [orb].
  { eexists [], _. split_and!; try done. by left. }
  destruct (Z.eqb_spec c 0) as [->|Hz].
  { eexists [], _. split_and!; try done. by right. }
  destruct IH as (e & rest & -> & -> & He & Hr & H1); [set_solver|].
  exists (c :: e), rest. split_and!; try done. by constructor.
Qed.

Lemma cstr_run e rest : Forall (fun c => c <> SLASH /\ c <> 0) e -> cstr (e ++ rest) = e ++ cstr rest.
Proof.
  induction 1 as [|c e [_ Hc] He IH]; cbn; [done|]. destruct (Z.eqb_spec c 0); [done|]. by rewrite IH.
Qed.
Lemma words_run e cs : e <> [] -> Forall (fun c => c <> SLASH /\ c <> 0) e ->
  (cs = [] \/ head cs = Some SLASH) -> words (e ++ cs) = e :: words cs.
Proof.
  intros Hne He Hcs. induction He as [|c e [Hc _] He IH]; [done|]. cbn [app words].
  destruct (Z.eqb_spec c SLASH); [done|]. destruct e as [|c2 e].
  - cbn. destruct cs as [|c2 cs]; [done|]. destruct Hcs as [|[= ->]]; [done|]. by rewrite Z.eqb_refl.
  - cbn [app] in *. apply Forall_cons in He as [[Hc2 _] _]. destruct (Z.eqb_spec c2 SLASH); [done|]. rewrite IH by done. done.
Qed.

Lemma copy_name_spec e name : Forall (fun c => c <> SLASH /\ c <> 0) e -> length name = DIRSIZ ->
  buf_name (copy_name e name) = take DIRSIZ e /\ length (copy_name e name) = DIRSIZ.
Proof.
  intros He Hn. unfold copy_name, buf_name, splice. destruct (Nat.leb_spec DIRSIZ (length e)) as [Hl|Hl].
  - rewrite take_0, length_take, Nat.min_l by done. cbn [app]. rewrite drop_ge, app_nil_r by (cbn; lia).
    rewrite take_take, Nat.min_id. split; [|by rewrite length_take, Nat.min_l].
    rewrite cstr_run by (by apply Forall_take). cbn. by rewrite app_nil_r.
  - rewrite take_0, length_app. cbn [app length]. split.
    + rewrite <-!app_assoc. rewrite take_app, (take_ge e) by lia. rewrite <-app_assoc, cstr_run by done.
      replace (DIRSIZ - length e)%nat with (S (DIRSIZ - length e - 1)) by lia. cbn. by rewrite app_nil_r.
    + rewrite !length_app, length_drop. cbn. lia.
Qed.

(** [skipelem] takes the first element off a path, cut to [DIRSIZ] characters, and
    returns no element exactly when there is none: iterating it enumerates the runs between
    slashes. *)
Theorem skipelem_words path name : 0 ∈ path -> length name = DIRSIZ ->
  match skipelem path name with
  | None => False
  | Some None => words (cstr path) = []
  | Some (Some (path', name')) => exists w, words (cstr path) = w :: words (cstr path') /\
      buf_name name' = take DIRSIZ w /\ length name' = DIRSIZ /\ 0 ∈ path' /\ (length path' < length path)%nat /\ head path' <> Some SLASH
  end.
Proof.
  intros H0 Hn. unfold skipelem. destruct (skip_slashes_spec path H0) as (p1 & E1 & Hp1 & Hw1 & Hh1). rewrite E1. cbn [mbind option_bind].
  destruct p1 as [|c p1]; [by apply not_elem_of_nil in Hp1|]. rewrite <-Hw1. destruct (Z.eqb_spec c 0) as [->|Hc]; [done|].
  destruct (span_elem_spec (c :: p1) Hp1) as (e & rest & E2 & Ee & He & Hr & Hrest). rewrite E2. cbn [mbind option_bind].
  destruct (skip_slashes_spec rest Hrest) as (p2 & E3 & Hp2 & Hw2 & Hh2). rewrite E3. cbn [mbind option_bind].
  destruct (copy_name_spec e name He Hn) as [Hb Hl].
  assert (Hne : e <> []).
  { intros ->. cbn in Ee. subst rest. cbn in Hr. destruct Hr as [[= ->]|[= ->]]; [by apply (Hh1 SLASH)|done]. }
  exists e. rewrite Ee, cstr_run by done. split_and!; try done.
  - rewrite Hw2. apply words_run; [done|done|]. destruct rest as [|x rest]; [by apply not_elem_of_nil in Hrest|].
    cbn in Hr |- *. destruct Hr as [[= ->]|[= ->]]; [by right|by left].
  - assert (Hlen : forall p q, skip_slashes p = Some q -> (length q <= length p)%nat).
    { clear. induction p as [|c p IH]; intros q; cbn; [done|]. destruct (c =? SLASH); [intros H%IH; lia|intros [= <-]; done]. }
    apply Hlen in E1, E3. rewrite Ee, length_app in E1. destruct e; [done|]. cbn in E1. lia.
  - intros E. by apply (Hh2 SLASH).
Qed.
Lemma skipelem_words_witness : match skipelem [47; 47; 97; 47; 98; 98; 0] (replicate 14 7) with
  | Some (Some (path', name')) => exists w, words (cstr [47; 47; 97; 47; 98; 98; 0]) = w :: words (cstr path') /\
      buf_name name' = take DIRSIZ w /\ length name' = DIRSIZ /\ 0 ∈ path' /\ (length path' < 7)%nat /\ head path' <> Some SLASH
  | _ => False end.
Proof. apply (skipelem_words [47; 47; 97; 47; 98; 98; 0] (replicate 14 7)); [set_solver|reflexivity]. Defined.

(** * Directories *)

(** A name argument: NUL-terminated, or a full buffer. *)
Definition name_ok (b : list Z) : Prop := bytes b /\ ((DIRSIZ <= length b)%nat \/ 0 ∈ b).

Lemma strncmp_names n p q : bytes p -> bytes q -> ((n <= length p)%nat \/ 0 ∈ p) -> ((n <= length q)%nat \/ 0 ∈ q) ->
  exists c, strncmp p q n = Some c /\ (c = 0 <-> cstr (take n p ++ [0]) = cstr (take n q ++ [0])).
Proof.
  revert p q. induction n as [|n IH]; intros p q Bp Bq Hp Hq; cbn [strncmp]; [by exists 0|].
  destruct p as [|a p]; [destruct Hp as [?|H%not_elem_of_nil]; [cbn in *; lia|done]|].
  destruct q as [|b q]; [destruct Hq as [?|H%not_elem_of_nil]; [cbn in *; lia|done]|].
  apply Forall_cons in Bp as [Ba Bp], Bq as [Bb Bq]. rewrite !u8_small by done. cbn [take app cstr].
  destruct (Z.eqb_spec a 0) as [->|Ha]; cbn [negb andb].
  - exists (0 - b). split; [done|]. destruct (Z.eqb_spec b 0) as [->|Hb]; [done|]. split; [lia|done].
  - destruct (Z.eqb_spec a b) as [->|Hab].
    + destruct (Z.eqb_spec b 0); [done|]. destruct (IH p q) as (c & -> & Hc); [done|done|cbn in Hp; set_solver by lia|cbn in Hq; set_solver by lia|].
      exists c. split; [done|]. rewrite Hc. split; [by intros ->|by intros [= ->]].
    + exists (a - b). split; [done|]. split; [lia|]. destruct (Z.eqb_spec b 0); [done|]. by intros [= ->].
Qed.

Section dir.
Context {B : Type} {IO : BlockIO B} {start : Z} {RD : BlockIORead B}.
Context (me : nat) (devread : Z -> option (nat -> Z -> M (fs B) (Z * list Z))).
Context (sb : superblock) (V D : image) (L : gset Z) (dp : nat) (r : inode).
Context (Hf : file_at start sb V r) (Hdir : i_type r = T_DIR) (Hsz16 : i_size r mod DIRENT_SIZE = 0) (HL : (size L < NBUF)%nat).

(** Entry [i] of the directory. *)
Definition dirent_at (i : nat) : list Z := slice (16 * i) 16 (file_bytes V r).
Definition nents : nat := Z.to_nat (i_size r / DIRENT_SIZE).
(** The first entry in use with the given name. *)
Definition entry_is (name : list Z) (i : nat) : bool :=
  negb (de_inum (dirent_at i) =? 0) && bool_decide (buf_name name = buf_name (de_name (dirent_at i))).
Fixpoint dir_find (name : list Z) (i k : nat) : option nat :=
  match k with O => None | S k => if entry_is name i then Some i else dir_find name (S i) k end.

Lemma dir_size : i_size r = 16 * Z.of_nat nents /\ i_size r <= 71680.
Proof.
  pose proof (fa_size _ _ _ _ Hf) as Hs. rewrite max_file in Hs. unfold nents, DIRENT_SIZE in *.
  pose proof (Z.div_mod (i_size r) 16 ltac:(done)). pose proof (Z.div_pos (i_size r) 16). lia.
Qed.

Lemma file_bytes_byte : byte_list (file_bytes V r).
Proof.
  apply Forall_lookup. intros i x Hi. pose proof (lookup_lt_Some _ _ _ Hi) as Hlt. unfold file_bytes in *.
  rewrite content_length in Hlt. rewrite content_lookup in Hi by done. injection Hi as <-. unfold fbyte.
  assert (Hb : 0 <= (0 + Z.of_nat i) / BSIZE < MAXFILE) by (apply block_of; pose proof (fa_size _ _ _ _ Hf); lia).
  assert (Hz : fblk V (i_addrs r) ((0 + Z.of_nat i) / BSIZE) <> 0) by (eapply mapped_at; [apply Hf|lia]).
  destruct (fl_data _ _ _ _ (fa_file _ _ _ _ Hf) _ Hb Hz) as ((_ & Hl & _) & _).
  destruct (vo_img _ _ _ (fa_vol _ _ _ _ Hf) _ Hl) as [Hlen Hby].
  pose proof (Z.mod_pos_bound (0 + Z.of_nat i) BSIZE ltac:(done)).
  destruct (lookup_lt_is_Some_2 (V (fblk V (i_addrs r) ((0 + Z.of_nat i) / BSIZE))) (Z.to_nat ((0 + Z.of_nat i) mod BSIZE))) as [y Hy]; [lia|].
  rewrite (list_lookup_total_correct _ _ _ Hy). by eapply Forall_lookup_1 in Hby.
Qed.

Lemma dirent_length i : (i < nents)%nat -> length (dirent_at i) = 16%nat /\ name_ok (de_name (dirent_at i)).
Proof.
  intros Hi. destruct dir_size as [Hs _]. assert (Hl : length (dirent_at i) = 16%nat).
  { unfold dirent_at. apply slice_length. unfold file_bytes. rewrite content_length. lia. }
  split; [done|]. unfold de_name. split; [apply byte_list_slice, byte_list_slice, file_bytes_byte|]. left.
  rewrite slice_length; [done|]. rewrite Hl. unfold DIRSIZ. lia.
Qed.

(** [dirlookup] finds the first entry in use with the name, and returns the inode
    it names; without one it returns null and changes nothing. *)
Lemma dirlookup_from_spec fuel name s i k (Q : option (nat * Z) -> fs B -> Prop) :
  fsok s V D L ∅ -> fs_sb s = sb -> fs_inodes s !! dp = Some r -> name_ok name ->
  (i + k = nents)%nat -> (k < fuel)%nat ->
  match dir_find name i k with
  | None => forall t, fsok (set_io t s) V D L ∅ -> Q None (set_io t s)
  | Some j => forall t, fsok (set_io t s) V D L ∅ ->
      wp (iget me ROOTDEV (de_inum (dirent_at j))) (fun ip s' => Q (Some (ip, 16 * Z.of_nat j)) s') (set_io t s)
  end -> wp (dirlookup_from me devread fuel dp name (16 * Z.of_nat i)) Q s.
Proof.
  revert s i k. induction fuel as [|fuel IH]; intros s i k H Hsb Hip Hn Hik Hk HQ; [lia|]. cbn [dirlookup_from]. wp_step.
  eapply wp_ird; [done|]. cbn [id]. destruct dir_size as [Hs Hmax].
  destruct (Z.ltb_spec (16 * Z.of_nat i) (i_size r)) as [Hlt|Hge].
  2: { assert (k = 0%nat) as -> by lia. cbn in HQ. wp_step. rewrite <-(set_io_id s). apply HQ. by rewrite set_io_id. }
  destruct k as [|k]; [lia|]. cbn [dir_find] in HQ. wp_step.
  eapply (readi_spec (start := start) devread sb s V D L dp r);
    [done|done|apply Hf|done|by eapply fa_dev|apply Hf|done|by eapply fa_type|rewrite max_file; lia|by eapply (fa_mapped _ _ _ _ Hf)|lia|done|unfold DIRENT_SIZE; lia|].
  intros t n' Ht. assert (En : n' = 16) by (unfold n', DIRENT_SIZE; lia). rewrite En. rewrite content_slice by lia.
  replace (Z.to_nat (16 * Z.of_nat i)) with (16 * i)%nat by lia. change (Z.to_nat 16) with 16%nat. fold (dirent_at i).
  wp_step. apply wp_panic_if; [done|].
  assert (Hnext : dir_find name i (S k) = dir_find name (S i) k ->
    wp (dirlookup_from me devread fuel dp name (16 * Z.of_nat i + DIRENT_SIZE)) Q (set_io t s)).
  { intros E. replace (16 * Z.of_nat i + DIRENT_SIZE) with (16 * Z.of_nat (S i)) by (unfold DIRENT_SIZE; lia).
    eapply (IH _ (S i) k); [done|done|done|done|lia|lia|]. cbn [dir_find] in E. unfold entry_is in E, HQ |- *. rewrite <-E.
    destruct (if negb (de_inum (dirent_at i) =? 0) && bool_decide (buf_name name = buf_name (de_name (dirent_at i))) then Some i else dir_find name (S i) k);
      intros t2 H2; apply HQ; exact H2. }
  destruct (Z.eqb_spec (de_inum (dirent_at i)) 0) as [Hz|Hz].
  - apply Hnext. cbn [dir_find]. unfold entry_is. by rewrite Hz.
  - destruct (dirent_length i) as [_ [Hb Hlen]]; [lia|]. destruct Hn as [Hnb Hnl].
    destruct (strncmp_names DIRSIZ name (de_name (dirent_at i)) Hnb Hb Hnl Hlen) as (c & Ec & Hc). fold (namecmp name (de_name (dirent_at i))) in Ec.
    wp_step. eapply wp_deref; [done|]. fold (buf_name name) (buf_name (de_name (dirent_at i))) in Hc.
    destruct (Z.eqb_spec c 0) as [->|Hc0].
    + unfold entry_is in HQ. rewrite (proj2 (Z.eqb_neq _ _) Hz), bool_decide_eq_true_2 in HQ by (by apply Hc). cbn in HQ.
      wp_step. rewrite (fa_dev _ _ _ _ Hf). eapply wp_mono; [by apply HQ|]. cbn beta. intros ip s' HQ'. by wp_step.
    + apply Hnext. cbn [dir_find]. unfold entry_is. rewrite bool_decide_eq_false_2, andb_false_r; [done|]. intros E. by apply Hc0, Hc.
Qed.

(** C36: [dirlookup] returns the inode of the first entry in use that has the name, with its
    offset, and null when there is none; it terminates within the entries of the
    directory. *)
Theorem dirlookup_finds name s : fsok s V D L ∅ -> fs_sb s = sb -> fs_inodes s !! dp = Some r -> name_ok name ->
  (exists e re, fs_inodes s !! e = Some re /\ i_ref re = 0) ->
  (forall j rj, fs_inodes s !! j = Some rj -> 0 <= i_ref rj < 2 ^ 31 - 1) ->
  wp (dirlookup me devread dp name) (fun res s' => fsok s' V D L ∅ /\
    match dir_find name 0 nents with
    | None => res = None /\ fs_inodes s' = fs_inodes s
    | Some j => exists ip r', res = Some (ip, 16 * Z.of_nat j) /\ fs_inodes s' = <[ip := r']> (fs_inodes s) /\
        i_dev r' = ROOTDEV /\ i_inum r' = de_inum (dirent_at j) /\ 0 < i_ref r'
    end) s.
Proof.
  intros H Hsb Hip Hn (e & re & He & Hre) Hrange. unfold dirlookup. wp_step. eapply wp_ird; [done|]. cbn [id]. wp_step.
  apply wp_panic_if; [by rewrite Hdir|]. destruct dir_size as [Hs _].
  assert (Hdiv : 0 <= i_size r / DIRENT_SIZE) by (apply Z.div_pos; [lia|done]).
  eapply (dirlookup_from_spec _ name s 0 nents); [done|done|done|done|lia|unfold dir_fuel, nents; lia|].
  destruct (dir_find name 0 nents) as [j|]; [|intros t Ht; done]. intros t Ht. eapply iget_rule; [done|exists e, re; auto|].
  intros ip r0 r' s' Hr0 Hgot _ Ein _ _ Hs'. split; [done|]. exists ip, r'. pose proof (Hrange _ _ Hr0) as Hrg. cbn in Ein. rewrite Ein.
  destruct Hgot as [(Hp & Hd & Hi & ->)|[Hz ->]]; cbn; [rewrite s32_small by lia|]; split_and!; done || lia.
Qed.
End dir.
