(* ===== verification/Mkfs.v ===== *)
(** mkfs.c: the program that builds the initial file-system image.

    The image file is a map from block numbers to blocks.  [xint] and [xshort] convert
    to the byte order of the image, which is that of the values here. *)

From stdpp Require Import base tactics numbers option list gmap strings.
From Stdlib Require Import ZArith Lia.
From S2P Require Import Prelude Block BioFacts CString Bytes Log Fs.

(** * State *)

Record mkstate := MkMk { mk_disk : image; mk_freeinode : Z; mk_freeblock : Z }.
Definition set_disk (v : image) (s : mkstate) := MkMk v (mk_freeinode s) (mk_freeblock s).
Definition set_freeinode (v : Z) (s : mkstate) := MkMk (mk_disk s) v (mk_freeblock s).
Definition set_freeblock (v : Z) (s : mkstate) := MkMk (mk_disk s) (mk_freeinode s) v.

Definition xint (x : Z) : Z := u32 x.
Definition xshort (x : Z) : Z := u16 x.

Definition NINODES : Z := 200.
Definition nbitmap : Z := FSSIZE / (BSIZE * 8) + 1.
Definition ninodeblocks : Z := NINODES / IPB + 1.
Definition nlog : Z := LOGSIZE.
Definition nmeta : Z := 2 + nlog + ninodeblocks + nbitmap.
Definition nblocks : Z := FSSIZE - nmeta.
Definition mk_sb : superblock :=
  MkSuperblock (xint FSSIZE) (xint nblocks) (xint NINODES) (xint nlog) (xint 2) (xint (2 + nlog)) (xint (2 + nlog + ninodeblocks)).
(** The super block as bytes. *)
Definition sb_bytes (sb : superblock) : list Z :=
  [sb_size sb; sb_nblocks sb; sb_ninodes sb; sb_nlog sb; sb_logstart sb; sb_inodestart sb; sb_bmapstart sb] ≫= le_bytes 4.

Definition zeroes : list Z := replicate (Z.to_nat BSIZE) 0.

(** * Sectors and inodes *)

Definition mkassert (b : bool) : M mkstate unit := panic_if (negb b) "assert".

Definition wsect (sec : Z) (buf : list Z) : M mkstate unit := modify (fun s => set_disk (upd (mk_disk s) sec buf) s).
Definition rsect (sec : Z) : M mkstate (list Z) := gets (fun s => mk_disk s sec).

Definition winode (inum : Z) (ip : dinode) : M mkstate unit :=
  let bn := IBLOCK inum mk_sb in
  buf ← rsect bn;
  wsect bn (store_dinode (dinode_off inum) ip buf).
Definition rinode (inum : Z) : M mkstate dinode :=
  buf ← rsect (IBLOCK inum mk_sb); mret (load_dinode (dinode_off inum) buf).

Definition ialloc (type : Z) : M mkstate Z :=
  inum ← gets mk_freeinode;
  modify (set_freeinode (u32 (inum + 1)));;
  winode inum (MkDinode (xshort type) 0 0 (xshort 1) (xint 0) (replicate 13 0));;
  mret inum.

(** [buf[i/8] = buf[i/8] | (0x1 << (i%8))] for the first [used] blocks. *)
Definition bitmap_buf (used : Z) : list Z := foldl (fun buf i => set_bit i buf) zeroes (seqZ 0 used).
Definition balloc (used : Z) : M mkstate unit :=
  mkassert (used <? BSIZE * 8);;
  wsect (sb_bmapstart mk_sb) (bitmap_buf used).

(** [freeblock++] *)
Definition take_block : M mkstate Z :=
  b ← gets mk_freeblock; modify (set_freeblock (u32 (b + 1)));; mret b.

(** * iappend *)

(** The block for position [fbn] of the file, and the inode with it. *)
Definition iappend_block (din : dinode) (fbn : Z) : M mkstate (Z * dinode) :=
  let setaddr i v := MkDinode (di_type din) (di_major din) (di_minor din) (di_nlink din) (di_size din) (<[Z.to_nat i := xint v]> (di_addrs din)) in
  if fbn <? NDIRECT then
    din ← (if xint (di_addrs din !!! Z.to_nat fbn) =? 0 then b ← take_block; mret (setaddr fbn b) else mret din);
    mret (xint (di_addrs din !!! Z.to_nat fbn), din)
  else
    din ← (if xint (di_addrs din !!! Z.to_nat NDIRECT) =? 0 then b ← take_block; mret (setaddr NDIRECT b) else mret din);
    let ind := xint (di_addrs din !!! Z.to_nat NDIRECT) in
    indirect ← rsect ind;
    let off := Z.to_nat (4 * (fbn - NDIRECT)) in
    indirect ← (if ld32 off indirect =? 0 then
                  b ← take_block;
                  let indirect := st32 off (xint b) indirect in
                  wsect ind indirect;; mret indirect
                else mret indirect);
    mret (xint (ld32 off indirect), din).

Fixpoint iappend_loop (fuel : nat) (din : dinode) (off : Z) (p : list Z) : M mkstate (dinode * Z) :=
  match p with
  | [] => mret (din, off)
  | _ =>
      match fuel with
      | O => fail EFuel
      | S fuel =>
          let fbn := off / BSIZE in
          mkassert (fbn <? MAXFILE);;
          '(x, din) ← iappend_block din fbn;
          let n1 := Z.min (Z.of_nat (length p)) ((fbn + 1) * BSIZE - off) in
          buf ← rsect x;
          wsect x (splice (Z.to_nat (off - fbn * BSIZE)) (take (Z.to_nat n1) p) buf);;
          iappend_loop fuel din (off + n1) (drop (Z.to_nat n1) p)
      end
  end.
Definition set_disize (v : Z) (din : dinode) : dinode :=
  MkDinode (di_type din) (di_major din) (di_minor din) (di_nlink din) v (di_addrs din).
Definition iappend (inum : Z) (p : list Z) : M mkstate unit :=
  din ← rinode inum;
  let off := xint (di_size din) in
  '(din, off) ← iappend_loop (io_fuel (Z.of_nat (length p))) din off p;
  winode inum (set_disize (xint off) din).

(** * main *)

Definition de_bytes (inum : Z) (name : list Z) : list Z := le_bytes 2 (xshort inum) ++ name.
(** [bzero(&de); strcpy(de.name, s)] for the two fixed names. *)
Definition dot : list Z := 46 :: replicate 13 0.
Definition dotdot : list Z := 46 :: 46 :: replicate 12 0.

(** The reads of a file in pieces of [BSIZE] bytes. *)
Fixpoint append_pieces (fuel : nat) (inum : Z) (bytes : list Z) : M mkstate unit :=
  match bytes with
  | [] => mret tt
  | _ =>
      match fuel with
      | O => fail EFuel
      | S fuel =>
          iappend inum (take (Z.to_nat BSIZE) bytes);;
          append_pieces fuel inum (drop (Z.to_nat BSIZE) bytes)
      end
  end.

(** One input file: its name on the command line (a C string) and its bytes. *)
Definition UNDERSCORE : Z := 95.
Definition add_file (rootino : Z) (f : list Z * list Z) : M mkstate unit :=
  let '(arg, bytes) := f in
  mkassert (forallb (fun c => negb (c =? SLASH)) (cstr arg));;
  let arg := match arg with c :: rest => if c =? UNDERSCORE then rest else arg | [] => arg end in
  inum ← ialloc T_FILE;
  name ← deref (fun _ => strncpy (replicate DIRSIZ 0) arg DIRSIZ);
  iappend rootino (de_bytes inum name);;
  append_pieces (S (length bytes)) inum bytes.

Definition mk_start : mkstate := MkMk (fun _ => zeroes) 1 nmeta.
Definition mkfs_main (files : list (list Z * list Z)) : M mkstate unit :=
  mkassert (BSIZE mod DINODE_SIZE =? 0);;
  mkassert (BSIZE mod DIRENT_SIZE =? 0);;
  wsect 1 (splice 0 (sb_bytes mk_sb) zeroes);;
  rootino ← ialloc T_DIR;
  mkassert (rootino =? ROOTINO);;
  iappend rootino (de_bytes rootino dot);;
  iappend rootino (de_bytes rootino dotdot);;
  for_each (add_file rootino) files;;
  din ← rinode rootino;
  let off := xint (di_size din) in
  winode rootino (set_disize (xint ((off / BSIZE + 1) * BSIZE)) din);;
  b ← gets mk_freeblock;
  balloc b.
Definition mkfs (files : list (list Z * list Z)) : outcome image :=
  match mkfs_main files mk_start with Ok (_, s) => Ok (mk_disk s) | Err e => Err e end.
