(* ===== verification/File.v ===== *)
(** Open files: file.c, and [pipealloc] of pipe.c.

    The state adds the file table, the pipes and the page allocator to the file
    system.  The transactions of log.c are the class [TxIO]. *)

From stdpp Require Import base tactics numbers option list gmap sets strings.
From Stdlib Require Import ZArith Lia.
From S2P Require Import Prelude ProcDefs Spinlock CString Memory Kalloc Pipe Block Bytes Log Fs.

(** [begin_op] and [end_op] *)
Class TxIO (B : Type) := { io_begin : M B unit; io_end : M B unit }.

(** * Data *)

Definition NFILE : nat := 100.

Inductive ftype := FD_NONE | FD_PIPE | FD_INODE.
#[global] Instance ftype_eq_dec : EqDecision ftype.
Proof. solve_decision. Defined.

(** [struct file]; [f_pipe] is the address of a pipe, [f_ip] the index of an inode. *)
Record file := MkFile {
  f_type : ftype;
  f_ref : Z; (* reference count *)
  f_readable : bool; f_writable : bool;
  f_pipe : Z; f_ip : nat;
  f_off : Z
}.
Definition set_ftype (v : ftype) (f : file) := MkFile v (f_ref f) (f_readable f) (f_writable f) (f_pipe f) (f_ip f) (f_off f).
Definition set_fref (v : Z) (f : file) := MkFile (f_type f) v (f_readable f) (f_writable f) (f_pipe f) (f_ip f) (f_off f).
Definition set_foff (v : Z) (f : file) := MkFile (f_type f) (f_ref f) (f_readable f) (f_writable f) (f_pipe f) (f_ip f) v.
Definition set_fpipe (rd wr : bool) (p : Z) (f : file) := MkFile FD_PIPE (f_ref f) rd wr p (f_ip f) (f_off f).
Definition set_finode (rd wr : bool) (ip : nat) (f : file) := MkFile FD_INODE (f_ref f) rd wr (f_pipe f) ip 0.
Definition zero_file : file := MkFile FD_NONE 0 false false 0 0 0.

(** The file system, [ftable], the pipes by address, the page allocator, and the
    wakeups and sleeps of the pipes. *)
Record fstate (B : Type) := MkFstate {
  fl_fs : fs B;
  fl_lock : spinlock;
  fl_file : list file;
  fl_pipes : gmap Z (pipe * spinlock);
  fl_kmem : kmem;
  fl_events : list (Z * pevent)
}.
Arguments MkFstate {B}. Arguments fl_fs {B}. Arguments fl_lock {B}. Arguments fl_file {B}.
Arguments fl_pipes {B}. Arguments fl_kmem {B}. Arguments fl_events {B}.

Section code.
Context {B : Type} `{!BlockIO B} `{!TxIO B}.
Local Abbreviation K := (M (fstate B)).

Definition set_fs (v : fs B) (s : fstate B) : fstate B := MkFstate v (fl_lock s) (fl_file s) (fl_pipes s) (fl_kmem s) (fl_events s).
Definition set_flock (v : spinlock) (s : fstate B) : fstate B := MkFstate (fl_fs s) v (fl_file s) (fl_pipes s) (fl_kmem s) (fl_events s).
Definition set_file (v : list file) (s : fstate B) : fstate B := MkFstate (fl_fs s) (fl_lock s) v (fl_pipes s) (fl_kmem s) (fl_events s).
Definition set_pipes (v : gmap Z (pipe * spinlock)) (s : fstate B) : fstate B := MkFstate (fl_fs s) (fl_lock s) (fl_file s) v (fl_kmem s) (fl_events s).
Definition set_kmem (v : kmem) (s : fstate B) : fstate B := MkFstate (fl_fs s) (fl_lock s) (fl_file s) (fl_pipes s) v (fl_events s).
Definition set_events (v : list (Z * pevent)) (s : fstate B) : fstate B := MkFstate (fl_fs s) (fl_lock s) (fl_file s) (fl_pipes s) (fl_kmem s) v.

Definition on_fs {A} (m : M (fs B) A) : K A := zoom fl_fs set_fs m.

(** The processor is the one of the block layer. *)
Definition the_cpu (s : fstate B) : cpu := io_cpu (fs_io (fl_fs s)).
Definition set_cpu (k : cpu) (s : fstate B) : fstate B := set_fs (set_io (io_set_cpu k (fs_io (fl_fs s))) (fl_fs s)) s.

Definition on_kmem {A} (m : M kmem A) : K A :=
  zoom (fun s => set_km_lock (the_cpu s, km_lock (fl_kmem s)) (fl_kmem s)) (fun k s => set_cpu (km_cpu k) (set_kmem k s)) m.

(** The code of a pipe, at its address. *)
Definition at_pipe {A} (p : Z) (m : M pst A) : K A := fun s =>
  match fl_pipes s !! p with
  | None => Err EFault
  | Some (pi, lk) =>
      match m (MkPst pi (the_cpu s) lk []) with
      | Ok (a, t) =>
          Ok (a, set_cpu (ps_cpu t) (set_events (fl_events s ++ ((fun e => (p, e)) <$> ps_log t))
                   (set_pipes (<[p := (ps_pipe t, ps_lock t)]> (fl_pipes s)) s)))
      | Err e => Err e
      end
  end.

Context (me : nat) (kend : Z) (pid : Z) (killed : bool).
Context (devread : Z -> option (nat -> Z -> M (fs B) (Z * list Z))) (devwrite : Z -> option (nat -> list Z -> Z -> M (fs B) Z)).

(** [f->x] and [f->x = v] *)
Definition frd {A} (g : file -> A) (f : nat) : K A := deref (fun s => g <$> fl_file s !! f).
Definition fwr (g : file -> file) (f : nat) : K unit :=
  store (fun s => match fl_file s !! f with
                  | Some r => Some (set_file (<[f := g r]> (fl_file s)) s)
                  | None => None
                  end).

Definition on_flock (m : M (cpu * spinlock) unit) : K unit :=
  zoom (fun s => (the_cpu s, fl_lock s)) (fun v s => set_flock v.2 (set_cpu v.1 s)) m.
Definition under_ftable {A} (m : K A) : K A := on_flock (acquire me);; a ← m; on_flock (release me);; mret a.

(** * file.c *)

Definition fileinit : K unit := modify (set_flock (initlock "ftable")).

(** The scan of [filealloc]. *)
Fixpoint free_file (fs : list file) (i : nat) : option nat :=
  match fs with
  | [] => None
  | f :: fs => if f_ref f =? 0 then Some i else free_file fs (S i)
  end.
Definition filealloc : K (option nat) :=
  under_ftable (
    fs ← gets fl_file;
    match free_file fs 0 with
    | Some f => fwr (set_fref 1) f;; mret (Some f)
    | None => mret None
    end).

Definition filedup (f : nat) : K nat :=
  under_ftable (
    r ← frd f_ref f;
    panic_if (r <? 1) "filedup";;
    fwr (set_fref (s32 (r + 1))) f);;
  mret f.

(** [pipeclose(p, writable)], with the [kfree] of a pipe closed at both ends. *)
Definition file_pipeclose (p : Z) (writable : bool) : K unit :=
  n ← gets (fun s => length (fl_events s));
  at_pipe p (pipeclose me writable);;
  ev ← gets (fun s => drop n (fl_events s));
  if bool_decide ((p, PvFree) ∈ ev) then
    modify (fun s => set_pipes (delete p (fl_pipes s)) s);; on_kmem (kfree me kend p)
  else mret tt.

Definition fbegin_op : K unit := on_fs (on_io io_begin).
Definition fend_op : K unit := on_fs (on_io io_end).

Definition fileclose (f : nat) : K unit :=
  last ← under_ftable (
    r ← frd f_ref f;
    panic_if (r <? 1) "fileclose";;
    fwr (set_fref (r - 1)) f;;
    if 0 <? r - 1 then mret None else
    ff ← frd id f;
    fwr (set_fref 0) f;;
    fwr (set_ftype FD_NONE) f;;
    mret (Some ff));
  match last with
  | None => mret tt
  | Some ff =>
      match f_type ff with
      | FD_PIPE => file_pipeclose (f_pipe ff) (f_writable ff)
      | FD_INODE => fbegin_op;; on_fs (iput me pid (f_ip ff));; fend_op
      | FD_NONE => mret tt
      end
  end.

Definition filestat (f : nat) : K (option stat) :=
  r ← frd id f;
  if bool_decide (f_type r = FD_INODE) then
    on_fs (ilock me pid (f_ip r));;
    st ← on_fs (stati (f_ip r));
    on_fs (iunlock me (f_ip r));;
    mret (Some st)
  else mret None.

(** The result and the bytes stored at [addr]; on a pipe the call may sleep. *)
Definition fileread (f : nat) (n : Z) : K (pres (Z * list Z) unit) :=
  r ← frd id f;
  if negb (f_readable r) then mret (PDone (-1, [])) else
  match f_type r with
  | FD_PIPE =>
      a ← at_pipe (f_pipe r) (piperead me killed n);
      mret (match a with
            | PDone None => PDone (-1, [])
            | PDone (Some bs) => PDone (Z.of_nat (length bs), bs)
            | PSleep u => PSleep u
            end)
  | FD_INODE =>
      on_fs (ilock me pid (f_ip r));;
      '(k, bs) ← on_fs (readi devread (f_ip r) (f_off r) (u32 n));
      (if 0 <? k then fwr (fun r => set_foff (u32 (f_off r + k)) r) f else mret tt);;
      on_fs (iunlock me (f_ip r));;
      mret (PDone (k, bs))
  | FD_NONE => fail (EPanic "fileread")
  end.

(** [((MAXOPBLOCKS-1-1-2) / 2) * 512] *)
Definition WRITE_MAX : Z := (MAXOPBLOCKS - 1 - 1 - 2) / 2 * 512.

(** One transaction of [filewrite]. *)
Definition filewrite_chunk (f : nat) (bs : list Z) : K Z :=
  ip ← frd f_ip f;
  fbegin_op;;
  on_fs (ilock me pid ip);;
  off ← frd f_off f;
  r ← on_fs (writei devwrite ip bs off);
  (if 0 <? r then fwr (fun x => set_foff (u32 (f_off x + r)) x) f else mret tt);;
  on_fs (iunlock me ip);;
  fend_op;;
  mret r.
(** The loop: [true] when all bytes were written. *)
Fixpoint filewrite_loop (fuel : nat) (f : nat) (rest : list Z) : K bool :=
  match rest with
  | [] => mret true
  | _ =>
      match fuel with
      | O => fail EFuel
      | S fuel =>
          let n1 := Z.min (Z.of_nat (length rest)) WRITE_MAX in
          r ← filewrite_chunk f (take (Z.to_nat n1) rest);
          if r <? 0 then mret false else
          panic_if (negb (r =? n1)) "short filewrite";;
          filewrite_loop fuel f (drop (Z.to_nat n1) rest)
      end
  end.
(** [bs] are the [n] bytes at [addr]. *)
Definition filewrite (f : nat) (bs : list Z) : K (pres Z (list Z)) :=
  r ← frd id f;
  if negb (f_writable r) then mret (PDone (-1)) else
  match f_type r with
  | FD_PIPE => at_pipe (f_pipe r) (pipewrite me killed (Z.of_nat (length bs)) bs)
  | FD_INODE =>
      ok ← filewrite_loop (S (length bs)) f bs;
      mret (PDone (if (ok : bool) then Z.of_nat (length bs) else -1))
  | FD_NONE => fail (EPanic "filewrite")
  end.

(** * pipealloc *)

(** [goto bad] *)
Definition pipealloc_bad (p : Z) (f0 f1 : option nat) : K (option (nat * nat)) :=
  (if p =? 0 then mret tt else on_kmem (kfree me kend p));;
  (match f0 with Some f => fileclose f | None => mret tt end);;
  (match f1 with Some f => fileclose f | None => mret tt end);;
  mret None.
(** The bytes of [p->data], after the lock, in a page just allocated. *)
Definition page_data (m : mem) (p : Z) : list Z := (fun i => m (p + 52 + i)) <$> seqZ 0 PIPESIZE.
(** The two files, read end first. *)
Definition pipealloc : K (option (nat * nat)) :=
  f0 ← filealloc;
  match f0 with
  | None => pipealloc_bad 0 None None
  | Some a =>
      f1 ← filealloc;
      match f1 with
      | None => pipealloc_bad 0 (Some a) None
      | Some b =>
          p ← on_kmem (kalloc me);
          if p =? 0 then pipealloc_bad 0 (Some a) (Some b) else
          modify (fun s => set_pipes (<[p := (pipe_init (page_data (km_mem (fl_kmem s)) p), initlock "pipe")]> (fl_pipes s)) s);;
          fwr (set_fpipe true false p) a;;
          fwr (set_fpipe false true p) b;;
          mret (Some (a, b))
      end
  end.
End code.
