(* ===== verification/FileWrite.v ===== *)
(** [filewrite] of file.c is a transaction of the log that overwrites the bytes of the
    file; reading it back, and crashing in the middle. *)

From stdpp Require Import base tactics numbers option list gmap sets strings.
From Stdlib Require Import ZArith Lia.
From S2P Require Import Prelude ProcDefs Spinlock CString Memory Kalloc Pipe Block BlockFacts BioFacts Bytes Log LogFacts LogCrash LogTx Fs FsLayout FsFacts FsData FsWrite FsFile FsCache File.

Section write.
Context (me : nat) (pid : Z) (sp : spins) (Hsp : spins_ok sp).
Context (kend : Z) (killed : bool).
Context (devread : Z -> option (nat -> Z -> M (fs lstate) (Z * list Z))) (devwrite : Z -> option (nat -> list Z -> Z -> M (fs lstate) Z)).

#[local] Instance IOi : BlockIO lstate := LogIO me pid.
#[export] Instance LogTxIO : TxIO lstate := { io_begin := Log.begin_op me; io_end := Log.end_op me pid }.

Context (start : Z).

(** Inside a transaction; between transactions. *)
Local Abbreviation txok h := (fsok (RD := @io_read _ _ _ (LogLaws me pid start h))).
Local Abbreviation rdok l h := (fsok (RD := IdleLaws me pid l h)).

(** Between system calls: nothing is held, the disk is [D]. *)
Record fs_idle (s : fs lstate) (sb : superblock) (D : image) (l : logrec) (h : list write) : Prop := {
  id_log : quiesced (fs_io s) D l h;
  id_start : lg_start l = start;
  id_size : lg_size l = LOGSIZE;
  id_sb : fs_sb s = sb;
  id_lk : lk_locked (fs_lk s) = 0;
  id_guards : Forall (fun r => lk_locked (i_guard r) = 0) (fs_inodes s)
}.

(** * Transactions *)

Lemma begin_rule s sb D l h (Q : unit -> fs lstate -> Prop) : fs_idle s sb D l h ->
  (forall t, txok h (set_io t s) D D ∅ ∅ -> Q tt (set_io t s)) -> wp (on_io io_begin) Q s.
Proof.
  intros [Hq Hst Hsz Hsb Hlk Hg] HQ. apply wp_on_io. eapply begin_op_spec; [done|]. intros t [H1 H2 H3 H4 H5 H6 H7].
  apply HQ. split; [|done|done]. pose proof (lk_log _ _ _ _ _ _ _ H1) as El. cbn [lg_start set_outstanding] in H7. rewrite Hst in H7.
  change (in_call start h t D D ∅ ∅). split; rewrite ?El; try done. by exists [].
Qed.

(** The log on disk is empty. *)
Definition log_clear (D : image) : Prop := header_n (D start) = 0 /\ length (D start) = Z.to_nat BSIZE /\ sb_ok start D.
Lemma idle_clear s sb D l h : fs_idle s sb D l h -> log_clear D.
Proof. intros [[] Hst _ _ _ _]. rewrite Hst in *. done. Qed.

Lemma end_rule s sb V D L h (Q : unit -> fs lstate -> Prop) : txok h s V D L ∅ ->
  fs_sb s = sb -> log_clear D ->
  (forall t D' l' ws, fs_idle (set_io t s) sb D' l' (h ++ ws) -> agree start D' V -> crash_atomic me pid sp start D V ws -> Q tt (set_io t s)) ->
  wp (on_io io_end) Q s.
Proof.
  intros [H Hlk Hg] Hsb (Hc1 & Hc2 & Hc3) HQ. apply wp_on_io. destruct H as [H1 H2 (bl & -> & Hlok & Hlg & Htx) H3 H4 H5 H6].
  eapply wp_mono; [eapply (end_op_spec me pid sp Hsp (fs_io s) V D bl (lt_log (fs_io s)) h)|].
  - split; try done. by rewrite H1.
  - destruct Htx as [_ _ _ Hl]. unfold LOGSIZE, MAXOPBLOCKS, NBUF in *. lia.
  - by rewrite H1.
  - by rewrite H1.
  - by rewrite H1.
  - cbn beta. rewrite H1, H2. intros [] t (ws & D' & l' & Hq & E1 & E2 & Hag & Hca). by apply (HQ t D' l' ws).
Qed.

(** * One transaction of filewrite *)

Lemma wp_on_fs {A} (m : M (fs lstate) A) (Q : A -> fstate lstate -> Prop) s :
  wp m (fun a t => Q a (set_fs t s)) (fl_fs s) -> wp (on_fs m) Q s.
Proof. intros H. unfold on_fs. by apply wp_zoom. Qed.
Lemma wp_frd {A} (g : file -> A) f x (Q : A -> fstate lstate -> Prop) s : fl_file s !! f = Some x -> Q (g x) s -> wp (frd g f) Q s.
Proof. intros Hx HQ. unfold frd. eapply wp_deref; [by rewrite Hx|done]. Qed.
Lemma wp_fwr g f x (Q : unit -> fstate lstate -> Prop) s : fl_file s !! f = Some x ->
  Q tt (set_file (<[f := g x]> (fl_file s)) s) -> wp (fwr g f) Q s.
Proof. intros Hx HQ. unfold fwr. eapply wp_store; [by rewrite Hx|done]. Qed.

(** An inode that can be locked and is, or will be loaded as, a file. *)
Record open_inode (sb : superblock) (D : image) (r : inode) : Prop := {
  oi_ref : 1 <= i_ref r;
  oi_free : i_locked r = 0;
  oi_file : file_at start sb D (loaded sb D r);
  oi_type : i_type (loaded sb D r) <> 0
}.

Lemma loaded_keeps sb D r g l p : loaded sb D (set_ilock l p (set_iguard g r)) = set_ilock l p (set_iguard g (loaded sb D r)).
Proof. unfold loaded. cbn [i_valid set_ilock set_iguard i_inum]. by destruct (i_valid r =? 0). Qed.
Lemma file_at_locks sb V r g l p : file_at start sb V (set_ilock l p (set_iguard g r)) <-> file_at start sb V r.
Proof. split; intros []; by split. Qed.
Lemma loaded_fields sb D r : i_dev (loaded sb D r) = i_dev r /\ i_inum (loaded sb D r) = i_inum r /\ i_ref (loaded sb D r) = i_ref r /\
  i_guard (loaded sb D r) = i_guard r /\ i_locked (loaded sb D r) = i_locked r.
Proof. unfold loaded. by destruct (i_valid r =? 0). Qed.

(** Locking an open inode. *)
Lemma ilock_open {RD : BlockIORead lstate} s sb D ip r (Q : unit -> fs lstate -> Prop) : fsok s D D ∅ ∅ -> fs_sb s = sb ->
  fs_inodes s !! ip = Some r -> open_inode sb D r ->
  (forall s' g, lk_locked g = 0 -> lock_step s s' ip (set_ilock 1 pid (set_iguard g (loaded sb D r))) -> fsok s' D D ∅ ∅ -> Q tt s') ->
  wp (ilock me pid ip) Q s.
Proof.
  intros H Hsb Hip [Hr Hl Hf Ht] HQ. destruct (loaded_fields sb D r) as (E1 & E2 & _). subst sb.
  eapply ilock_spec; [done|apply Hf|done|done|done| | |intros i; by rewrite lookup_empty| | |].
  - rewrite <-E1. by eapply fa_dev.
  - rewrite <-E2. by eapply fa_inum.
  - rewrite map_img_empty_L, (left_id_L ∅ (∪)), size_empty. unfold NBUF. lia.
  - intros Hv. unfold loaded in Ht. rewrite Hv in Ht. cbn in Ht. done.
  - intros s' g Hg. rewrite loaded_keeps. by apply HQ.
Qed.

(** Effects do not depend on the lock fields. *)
Lemma write_effect_locks sb D r off bs V' r' g l p :
  write_effect (start := start) sb D (set_ilock l p (set_iguard g r)) off bs V' r' ->
  exists r0, write_effect (start := start) sb D r off bs V' r0 /\ r' = set_ilock l p (set_iguard g r0).
Proof.
  intros [H1 H2 [a' Hr] H4]. exists (set_isize (Z.max (i_size r) (off + Z.of_nat (length bs))) (set_iaddrs a' r)). split; [|done].
  rewrite Hr in H1, H2. split; [|done|by exists a'|done].
  eapply (file_at_locks _ _ _ g l p). exact H1.
Qed.

(** The outcome of writing [bs] at the offset of file [f]: its inode [r] is now [r'], on disk image
    [V'], reached atomically. *)
Record wrote (s : fstate lstate) (f : nat) (x : file) (r : inode) (sb : superblock) (D : image) (h : list write) (bs : list Z)
    (s' : fstate lstate) (V' : image) (r' : inode) : Prop := {
  wo_effect : write_effect (start := start) sb D (loaded sb D r) (f_off x) bs V' r';
  wo_file : fl_file s' = <[f := set_foff (f_off x + Z.of_nat (length bs)) x]> (fl_file s);
  wo_inode : exists g, lk_locked g = 0 /\ fs_inodes (fl_fs s') = <[f_ip x := set_ilock 0 0 (set_iguard g r')]> (fs_inodes (fl_fs s));
  wo_disk : exists D' l' ws, fs_idle (fl_fs s') sb D' l' (h ++ ws) /\ agree start D' V' /\ crash_atomic me pid sp start D V' ws;
  wo_rest : fl_pipes s' = fl_pipes s /\ fl_kmem s' = fl_kmem s /\ fl_lock s' = fl_lock s
}.

Lemma filewrite_chunk_spec s f x r sb D l h bs : fs_idle (fl_fs s) sb D l h -> fl_file s !! f = Some x ->
  fs_inodes (fl_fs s) !! f_ip x = Some r -> open_inode sb D r -> 0 <= f_off x <= i_size (loaded sb D r) ->
  bs <> [] -> byte_list bs -> Z.of_nat (length bs) <= WRITE_MAX -> f_off x + Z.of_nat (length bs) <= MAXFILE * BSIZE ->
  (10 <= size (free_set sb D))%nat ->
  wp (filewrite_chunk me pid devwrite f bs) (fun n s' => n = Z.of_nat (length bs) /\ exists V' r', wrote s f x r sb D h bs s' V' r') s.
Proof.
  intros Hid Hx Hip Hopen Hoff Hne Hby Hlen Hmax Hfree. unfold filewrite_chunk. wp_step. eapply wp_frd; [done|]. wp_step.
  apply wp_on_fs. eapply begin_rule; [done|]. intros t1 H1. wp_step. apply wp_on_fs. cbn [fl_fs set_fs].
  eapply ilock_open; [exact H1|by apply Hid|done|done|]. intros s2 g Hg Hs2 H2.
  assert (Hlt : (f_ip x < length (fs_inodes (fl_fs s)))%nat) by (by apply lookup_lt_Some in Hip).
  destruct (step_lookup _ _ _ _ Hs2 Hlt) as (Hip2 & Esb2 & Elk2 & Ein2). cbn [fs_sb set_io fs_inodes] in Esb2, Ein2.
  wp_step. eapply wp_frd; [done|]. wp_step. apply wp_on_fs. cbn [fl_fs set_fs].
  set (rl := set_ilock 1 pid (set_iguard g (loaded sb D r))) in *.
  assert (Hfuel : (io_fuel (Z.of_nat (length bs)) <= 5)%nat).
  { unfold io_fuel. change WRITE_MAX with 1536 in Hlen. pose proof (Z.div_le_upper_bound (Z.of_nat (length bs)) BSIZE 3 ltac:(done) ltac:(unfold BSIZE; lia)). lia. }
  eapply (writei_spec (start := start) sb D (f_ip x) devwrite s2 D ∅ rl (f_off x) bs);
    [exact H2|by rewrite Esb2; apply Hid|done|by apply file_at_locks, Hopen|done|done|done|lia|rewrite size_empty; unfold LOGROOM; lia|].
  intros t3 r3 V3 L3 He _ Hsz3 H3. destruct (write_effect_locks _ _ _ _ _ _ _ _ _ _ He) as (r0 & He0 & Er3).
  assert (Hlt2 : (f_ip x < length (fs_inodes s2))%nat) by (rewrite Ein2, length_insert; done).
  wp_step. rewrite (proj2 (Z.ltb_lt 0 (Z.of_nat (length bs)))) by (destruct bs; [done|cbn; lia]).
  eapply wp_fwr; [done|]. wp_step. apply wp_on_fs. cbn [fl_fs set_fs set_file].
  eapply (iunlock_spec me); [exact H3|cbn; by apply list_lookup_insert_eq| | |].
  { rewrite Er3. cbn [i_ref set_ilock set_iguard]. destruct (we_inode _ _ _ _ _ _ _ He0) as [a' ->]. cbn.
    destruct (loaded_fields sb D r) as (_ & _ & -> & _). apply Hopen. }
  { rewrite Er3. done. }
  intros s4 g4 Hg4 Hs4 H4. destruct (step_lookup _ _ _ _ Hs4) as (Hip4 & Esb4 & Elk4 & Ein4); [cbn; by rewrite length_insert|].
  cbn [fs_inodes set_inode set_inodes set_io] in Ein4. rewrite Ein2, !list_insert_insert_eq in Ein4. rewrite Er3 in Ein4.
  wp_step. apply wp_on_fs. cbn [fl_fs set_fs set_file].
  eapply (end_rule _ sb); [exact H4|rewrite Esb4; cbn; rewrite Esb2; apply Hid|by eapply idle_clear|].
  intros t5 D5 l5 ws5 Hid5 Hag Hca. wp_step. split; [done|]. exists V3, r0. split.
  - exact He0.
  - cbn. rewrite u32_small; [done|]. rewrite max_file in Hmax. lia.
  - exists g4. split; [done|]. cbn. exact Ein4.
  - by exists D5, l5, ws5.
  - done.
Qed.

(** * Images that agree outside the log *)

Lemma agree_loggable V V' n : agree start V V' -> loggable start n -> V n = V' n.
Proof. intros H [_ Hn]. by apply H. Qed.

Section agree.
Context {sb : superblock} {V V' : image} (Hag : agree start V' V) (Hst : 1 < start).

Lemma agree_used b : volume start sb V -> 0 <= b < sb_size sb -> used sb V' b <-> used sb V b.
Proof.
  intros HV Hb. unfold used. rewrite (agree_loggable V' V); [done..|]. eapply ge_bitmap; [apply HV|by apply bitmap_of].
Qed.
Lemma agree_volume : volume start sb V -> volume start sb V'.
Proof.
  intros HV. split; [apply HV| | |].
  - intros n Hn. rewrite (agree_loggable V' V) by done. by apply HV.
  - rewrite Hag; [apply HV|]. unfold in_log. lia.
  - intros n Hn. rewrite agree_used by done. by apply HV.
Qed.
Lemma agree_fblk a bn : file_ok start sb V a -> fblk V' a bn = fblk V a bn.
Proof.
  intros Ha. destruct (decide (indirect a = 0)) as [E|E]; [unfold fblk; by rewrite E|]. apply fblk_ext.
  apply (agree_loggable V' V); [done|]. by apply Ha.
Qed.
Lemma agree_file r : file_at start sb V r -> file_at start sb V' r /\ file_bytes V' r = file_bytes V r.
Proof.
  intros [G1 G2 G3 G4 G5 G6 G7 G8 G9]. split.
  - split; try done; [by apply agree_volume| | |].
    + split; [apply G2|..].
      * intros E. destruct (fl_ind _ _ _ _ G2 E) as [Hd Hu]. split; [done|]. apply agree_used; [done|apply Hd|done].
      * intros bn Hbn. rewrite agree_fblk by done. intros E. destruct (fl_data _ _ _ _ G2 bn Hbn E) as (Hd & Hu & ?).
        split_and!; [done| |done]. apply agree_used; [done|apply Hd|done].
      * intros b1 b2 H1 H2. rewrite !agree_fblk by done. by apply G2.
    + intros bn Hbn Hlt. rewrite agree_fblk by done. by apply G8.
    + unfold disk_inode. rewrite (agree_loggable V' V); [done..|]. eapply ge_inodes; [apply G1|]. by exists (i_inum r).
  - apply list_fmap_ext. intros j i Hj. apply lookup_seqZ in Hj as [-> Hj]. unfold fbyte. rewrite agree_fblk by done. f_equal.
    apply (agree_loggable V' V); [done|]. apply G2; [apply block_of; lia|]. eapply mapped_at; [done|lia].
Qed.
End agree.

(** * filewrite *)

Lemma filewrite_loop_step fuel f bs : bs <> [] -> filewrite_loop me pid devwrite (S fuel) f bs =
  let n1 := Z.min (Z.of_nat (length bs)) WRITE_MAX in
  r ← filewrite_chunk me pid devwrite f (take (Z.to_nat n1) bs);
  if r <? 0 then mret false else
  panic_if (negb (r =? n1)) "short filewrite";;
  filewrite_loop me pid devwrite fuel f (drop (Z.to_nat n1) bs).
Proof. by destruct bs. Qed.

Lemma filewrite_spec s f x r sb D l h bs : fs_idle (fl_fs s) sb D l h -> fl_file s !! f = Some x ->
  f_type x = FD_INODE -> f_writable x = true ->
  fs_inodes (fl_fs s) !! f_ip x = Some r -> open_inode sb D r -> 0 <= f_off x <= i_size (loaded sb D r) ->
  bs <> [] -> byte_list bs -> Z.of_nat (length bs) <= WRITE_MAX -> f_off x + Z.of_nat (length bs) <= MAXFILE * BSIZE ->
  (10 <= size (free_set sb D))%nat ->
  wp (filewrite me pid killed devwrite f bs) (fun n s' => n = PDone (Z.of_nat (length bs)) /\ exists V' r', wrote s f x r sb D h bs s' V' r') s.
Proof.
  intros Hid Hx Hty Hwr Hip Hopen Hoff Hne Hby Hlen Hmax Hfree. unfold filewrite. wp_step. eapply wp_frd; [done|]. cbn [id].
  rewrite Hwr, Hty. cbn [negb]. wp_step. rewrite filewrite_loop_step by done. cbn zeta. rewrite Z.min_l by done.
  rewrite Nat2Z.id, take_ge, drop_ge by lia. wp_step.
  eapply wp_mono; [by eapply filewrite_chunk_spec|]. cbn beta. intros n s' [-> Hw].
  destruct (Z.ltb_spec (Z.of_nat (length bs)) 0); [lia|]. wp_step. rewrite Z.eqb_refl. apply wp_panic_if; [done|].
  replace (filewrite_loop me pid devwrite (length bs) f []) with (mret true : M (fstate lstate) bool) by (by destruct (length bs)).
  by do 2 wp_step.
Qed.

(** * fileread *)

Lemma idle_read s sb D l h : fs_idle s sb D l h -> rdok l h s D D ∅ ∅.
Proof. intros [Hq _ _ _ Hlk Hg]. split; [|done|done]. split; [done|]. apply Hq. Qed.
Lemma read_idle s s' sb D l h : fs_idle s sb D l h -> rdok l h s' D D ∅ ∅ -> fs_sb s' = sb -> fs_idle s' sb D l h.
Proof. intros [[] H1 H2 H3 H4 H5] [[_ Hl] Hlk Hg] Hsb. split; try done. Qed.

Lemma fileread_spec s f x r sb D l h n : fs_idle (fl_fs s) sb D l h -> fl_file s !! f = Some x ->
  f_type x = FD_INODE -> f_readable x = true -> fs_inodes (fl_fs s) !! f_ip x = Some r -> open_inode sb D r ->
  0 <= f_off x <= i_size (loaded sb D r) -> 0 <= n < 2 ^ 31 ->
  wp (fileread me pid killed devread f n) (fun a s' =>
    let k := Z.min n (i_size (loaded sb D r) - f_off x) in
    a = PDone (k, slice (Z.to_nat (f_off x)) (Z.to_nat k) (file_bytes D (loaded sb D r))) /\
    fl_file s' = <[f := set_foff (f_off x + k) x]> (fl_file s) /\
    (exists g, lk_locked g = 0 /\ fs_inodes (fl_fs s') = <[f_ip x := set_ilock 0 0 (set_iguard g (loaded sb D r))]> (fs_inodes (fl_fs s))) /\
    fs_idle (fl_fs s') sb D l h) s.
Proof.
  intros Hid Hx Hty Hrd Hip Hopen Hoff Hn. pose proof (oi_file _ _ _ Hopen) as Hf. pose proof (fa_size _ _ _ _ Hf) as Hsz.
  rewrite max_file in Hsz. destruct (loaded_fields sb D r) as (E1 & E2 & E3 & _).
  assert (Hlt : (f_ip x < length (fs_inodes (fl_fs s)))%nat) by (by apply lookup_lt_Some in Hip).
  pose proof (idle_read _ _ _ _ _ Hid) as H0. unfold fileread. wp_step. eapply wp_frd; [done|]. cbn [id].
  rewrite Hrd, Hty. cbn [negb]. wp_step. apply wp_on_fs.
  eapply ilock_open; [exact H0|apply Hid|done|done|]. intros s2 g Hg Hs2 H2.
  destruct (step_lookup _ _ _ _ Hs2 Hlt) as (Hip2 & Esb2 & Elk2 & Ein2). wp_step. apply wp_on_fs. cbn [fl_fs set_fs].
  set (rl := set_ilock 1 pid (set_iguard g (loaded sb D r))) in *. rewrite u32_small by lia.
  assert (Hfl : file_at start sb D rl) by (by apply file_at_locks).
  eapply (readi_spec (start := start) devread sb s2 D D ∅ _ rl);
    [exact H2|rewrite Esb2; apply Hid|apply Hfl|done|by eapply fa_dev|apply Hfl|rewrite size_empty; unfold NBUF; lia|by eapply fa_type|
     rewrite max_file; cbn; lia|by eapply (fa_mapped _ _ _ _ Hfl)|done|lia|lia|].
  intros t3 k H3. change (i_size rl) with (i_size (loaded sb D r)) in k. change (i_addrs rl) with (i_addrs (loaded sb D r)).
  rewrite content_slice by lia. wp_step.
  assert (Hfw : forall Q : unit -> fstate lstate -> Prop, Q tt (set_file (<[f := set_foff (f_off x + k) x]> (fl_file s)) (set_fs (set_io t3 s2) s)) ->
    wp (if 0 <? k then fwr (fun r => set_foff (u32 (f_off r + k)) r) f else mret tt) Q (set_fs (set_io t3 s2) s)).
  { intros Q HQ. destruct (Z.ltb_spec 0 k).
    - eapply wp_fwr; [done|]. rewrite u32_small by lia. done.
    - assert (Ek : k = 0) by lia. wp_step. rewrite Ek, Z.add_0_r in HQ. rewrite list_insert_id in HQ; [done|].
      rewrite Hx. by destruct x. }
  apply Hfw. wp_step. apply wp_on_fs. cbn [fl_fs set_fs set_file].
  eapply (iunlock_spec me); [exact H3|exact Hip2| |done|].
  { change (i_ref rl) with (i_ref (loaded sb D r)). rewrite E3. apply Hopen. }
  intros s4 g4 Hg4 Hs4 H4. destruct (step_lookup _ _ _ _ Hs4) as (Hip4 & Esb4 & Elk4 & Ein4); [cbn; by rewrite Ein2, length_insert|].
  cbn [fs_inodes set_io] in Ein4. rewrite Ein2, list_insert_insert_eq in Ein4. wp_step. cbn zeta. split_and!; try done.
  - by exists g4.
  - eapply read_idle; [done|exact H4|]. cbn. rewrite Esb4. cbn. rewrite Esb2. apply Hid.
Qed.

(** * Write, then read back *)

(** Closing the lock after a write leaves the inode open on the new disk. *)
Lemma reopened s f x r sb D h bs s' V' r' D' : open_inode sb D r -> 1 < start -> wrote s f x r sb D h bs s' V' r' -> agree start D' V' ->
  forall g, let r2 := set_ilock 0 0 (set_iguard g r') in
  open_inode sb D' r2 /\ loaded sb D' r2 = r2 /\
  file_bytes D' r2 = splice (Z.to_nat (f_off x)) bs (file_bytes D (loaded sb D r)) /\
  i_size r2 = Z.max (i_size (loaded sb D r)) (f_off x + Z.of_nat (length bs)).
Proof.
  intros [O1 O2 O3 O4] Hst [[W1 W2 [a' W3] W4] _ _ _ _] Hag g r2. destruct (loaded_fields sb D r) as (_ & _ & E3 & _).
  assert (Hv : i_valid (loaded sb D r) <> 0) by (unfold loaded; destruct (Z.eqb_spec (i_valid r) 0); done).
  assert (Hl : loaded sb D' r2 = r2).
  { unfold loaded, r2. rewrite W3. cbn [i_valid set_ilock set_iguard set_isize set_iaddrs].
    by destruct (Z.eqb_spec (i_valid (loaded sb D r)) 0). }
  destruct (agree_file Hag Hst r' W1) as [Hf Hb]. split_and!; [|done| |].
  - split; [unfold r2; rewrite W3; cbn; lia|done|rewrite Hl; by apply file_at_locks|]. rewrite Hl. unfold r2. by rewrite W3.
  - rewrite <-W2, <-Hb. done.
  - unfold r2. by rewrite W3.
Qed.

(** C13: Bytes written through one descriptor are read back through another one that is
    open on the same file at the same offset. *)
Theorem write_read_back s f x f2 y r sb D l h bs : fs_idle (fl_fs s) sb D l h -> fl_file s !! f = Some x -> fl_file s !! f2 = Some y ->
  f <> f2 -> f_type x = FD_INODE -> f_writable x = true -> f_type y = FD_INODE -> f_readable y = true ->
  f_ip y = f_ip x -> f_off y = f_off x -> fs_inodes (fl_fs s) !! f_ip x = Some r -> open_inode sb D r ->
  0 <= f_off x <= i_size (loaded sb D r) -> bs <> [] -> byte_list bs -> Z.of_nat (length bs) <= WRITE_MAX ->
  f_off x + Z.of_nat (length bs) <= MAXFILE * BSIZE -> (10 <= size (free_set sb D))%nat -> 1 < start ->
  wp (filewrite me pid killed devwrite f bs;; fileread me pid killed devread f2 (Z.of_nat (length bs)))
    (fun a s' => a = PDone (Z.of_nat (length bs), bs)) s.
Proof.
  intros Hid Hx Hy Hff Hty Hwr Hty2 Hrd Eip Eoff Hip Hopen Hoff Hne Hby Hlen Hmax Hfree Hst. wp_step.
  eapply wp_mono; [by eapply filewrite_spec|]. cbn beta. intros a s' (-> & V' & r' & Hw).
  pose proof Hw as [_ Hfile (g & Hg & Hin) (D' & l' & ws & Hid' & Hag & _) _].
  destruct (reopened _ _ _ _ _ _ _ _ _ _ _ _ Hopen Hst Hw Hag g) as (Hop & Hl & Hbytes & Hsize).
  assert (Hlt : (f_ip x < length (fs_inodes (fl_fs s)))%nat) by (by apply lookup_lt_Some in Hip).
  assert (Hlen0 : length (file_bytes D (loaded sb D r)) = Z.to_nat (i_size (loaded sb D r))) by apply content_length.
  eapply wp_mono.
  { eapply (fileread_spec s' f2 y); [exact Hid'|by rewrite Hfile, list_lookup_insert_ne|done|done|by rewrite Eip, Hin, list_lookup_insert_eq|exact Hop| |].
    - rewrite Hl, Eoff, Hsize. lia.
    - split; [lia|]. rewrite max_file in Hmax. lia. }
  cbn beta zeta. intros a s2 (-> & _). rewrite Hl, Hsize, Hbytes, Eoff. rewrite Z.min_l by lia. f_equal. f_equal.
  rewrite Nat2Z.id. apply slice_splice_same. lia.
Qed.

(** * Crashes *)

(** The inode as a fresh boot reads it. *)
Definition reread (sb : superblock) (R : image) (r : inode) : inode := of_dinode (disk_inode sb R (i_inum r)) r.

Lemma reread_file sb V r r1 : file_at start sb V r1 -> i_dev r = i_dev r1 -> i_inum r = i_inum r1 ->
  file_at start sb V (reread sb V r) /\ file_bytes V (reread sb V r) = file_bytes V r1.
Proof.
  intros [G1 G2 G3 G4 G5 G6 G7 G8 G9] Ed Ei. unfold reread. rewrite Ei, G9. split; [|done].
  split; try done; cbn; try congruence. by rewrite Ei, G9.
Qed.
Lemma agree_reread sb R V r r1 : 1 < start -> agree start R V -> file_at start sb V r1 -> i_dev r = i_dev r1 -> i_inum r = i_inum r1 ->
  file_at start sb R (reread sb R r) /\ file_bytes R (reread sb R r) = file_bytes V r1.
Proof.
  intros Hst Hag Hf Ed Ei. destruct (agree_file Hag Hst r1 Hf) as [HfR <-]. by apply reread_file.
Qed.

End write.
