(* ===== verification/FileDemo.v ===== *)
(** A small file system, as mkfs makes it, booted and with a file open: the states
    at which the theorems about files apply. *)

From stdpp Require Import base tactics numbers option list gmap sets strings.
From Stdlib Require Import ZArith Lia.
From S2P Require Import Prelude ProcDefs Spinlock CString Memory Kalloc Pipe Block BlockFacts BioFacts Bytes Log LogFacts LogCrash LogTx Fs FsLayout FsFacts FsData FsWrite FsFile FsCache File FileWrite FsPath Mkfs.

(** * The image *)

(** mkfs with one file, [hi], of three bytes. *)
Definition demo_files : list (list Z * list Z) := [([95; 104; 105; 0], [1; 2; 3])].

Definition demo_super : list Z := Eval vm_compute in splice 0 (sb_bytes mk_sb) zeroes.
Definition demo_bitmap : list Z := Eval vm_compute in bitmap_buf 61.
Definition demo_inode : dinode := MkDinode 2 0 0 1 3 (60 :: replicate 12 0).
Definition demo_inodes : list Z := Eval vm_compute in
  store_dinode (dinode_off 1) (MkDinode 1 0 0 1 512 (59 :: replicate 12 0)) (store_dinode (dinode_off 2) demo_inode zeroes).
Definition demo_root : list Z := Eval vm_compute in
  splice 0 (de_bytes 1 dot ++ de_bytes 1 dotdot ++ de_bytes 2 (104 :: 105 :: replicate 12 0)) zeroes.
Definition demo_data : list Z := Eval vm_compute in splice 0 [1; 2; 3] zeroes.
Definition demo_fs : image := fun n =>
  if n =? 1 then demo_super else if n =? 32 then demo_inodes else if n =? 58 then demo_bitmap
  else if n =? 59 then demo_root else if n =? 60 then demo_data else zeroes.

(** It is what mkfs writes. *)
Definition same_blocks (d : image) : bool := forallb (fun n => bool_decide (d n = demo_fs n)) (seqZ 0 FSSIZE).
Lemma demo_is_mkfs : match mkfs demo_files with Ok d => same_blocks d | Err _ => false end = true.
Proof. vm_compute. reflexivity. Qed.

Lemma demo_block_ok n : block_ok (demo_fs n).
Proof.
  assert (H : forall d, forallb (fun b => (0 <=? b) && (b <? 256)) d && (length d =? 512)%nat = true -> block_ok d).
  { intros d [Hd Hl]%andb_true_iff. split; [by apply Nat.eqb_eq in Hl|]. apply Forall_forall. intros b Hb.
    rewrite forallb_forall in Hd. apply list_elem_of_In, Hd in Hb. lia. }
  unfold demo_fs. repeat (destruct (_ =? _); [apply H; by vm_compute|]). apply H; by vm_compute.
Qed.

Lemma demo_BBLOCK b : 0 <= b < 2000 -> BBLOCK b mk_sb = 58.
Proof. intros Hb. unfold BBLOCK. change (sb_bmapstart mk_sb) with 58. rewrite Z.div_small by (unfold BPB, BSIZE; lia). done. Qed.
Lemma demo_bitmap_block n : bitmap_block mk_sb n -> n = 58.
Proof. intros (b & Hb & ->). by apply demo_BBLOCK. Qed.
Lemma demo_inode_block n : inode_block mk_sb n -> 32 <= n < 57.
Proof.
  intros (i & Hi & ->). change (sb_ninodes mk_sb) with 200 in Hi. unfold IBLOCK. change (sb_inodestart mk_sb) with 32. change IPB with 8.
  pose proof (Z.div_pos i 8). pose proof (Z.div_lt_upper_bound i 8 25). rewrite u32_small; lia.
Qed.
Lemma demo_loggable n : loggable 2 n <-> 32 <= n < 2000.
Proof. unfold loggable, in_log, LOGSIZE, MAXOPBLOCKS, FSSIZE. lia. Qed.
Lemma demo_data_block n : 59 <= n < 2000 -> data_block 2 mk_sb n.
Proof.
  intros Hn. split; [change (sb_size mk_sb) with 2000; lia|]. split; [apply demo_loggable; lia|]. split.
  - intros H%demo_bitmap_block. lia.
  - intros H%demo_inode_block. lia.
Qed.

Lemma demo_geometry : geometry 2 mk_sb.
Proof.
  split; try done.
  - intros n ->%demo_bitmap_block. by apply demo_loggable.
  - intros n Hn%demo_inode_block. apply demo_loggable. lia.
  - intros n ->%demo_bitmap_block H%demo_inode_block. lia.
Qed.

Lemma demo_used n : 0 <= n < 2000 -> used mk_sb demo_fs n <-> n < 61.
Proof.
  intros Hn. unfold used. rewrite demo_BBLOCK by done. change (demo_fs 58) with demo_bitmap.
  assert (H : forallb (fun n => Bool.eqb (bit_at (n mod BPB) demo_bitmap) (n <? 61)) (seqZ 0 2000) = true) by (vm_compute; reflexivity).
  rewrite forallb_forall in H. specialize (H n). rewrite <-list_elem_of_In, elem_of_seqZ in H. specialize (H ltac:(lia)).
  apply Bool.eqb_prop in H. rewrite H. apply Z.ltb_lt.
Qed.

Lemma demo_volume : volume 2 mk_sb demo_fs.
Proof.
  split; [apply demo_geometry|intros n _; apply demo_block_ok|by vm_compute|].
  intros n Hn Hu. change (sb_size mk_sb) with 2000 in Hn. rewrite demo_used in Hu by done. apply demo_data_block. lia.
Qed.
Lemma demo_free : (10 <= size (free_set mk_sb demo_fs))%nat.
Proof.
  transitivity (size (list_to_set (seqZ 100 10) : gset Z)).
  { rewrite size_list_to_set by apply NoDup_seqZ. by rewrite length_seqZ. }
  apply subseteq_size. intros n Hn. apply elem_of_list_to_set, elem_of_seqZ in Hn. apply elem_free_set.
  change (sb_size mk_sb) with 2000. split; [lia|]. rewrite demo_used; lia.
Qed.

(** * The file and the root directory, of one block each *)

Definition one_block (x : Z) : list Z := x :: replicate 12 0.
Definition demo_r : inode := MkInode 1 2 2 (initlock "sleep lock") 0 0 1 2 0 0 1 3 (one_block 60).
Definition demo_root_inode : inode := MkInode 1 1 1 (initlock "sleep lock") 0 0 1 1 0 0 1 512 (one_block 59).

Lemma one_block_fblk x bn : 0 <= bn -> fblk demo_fs (one_block x) bn = if bn =? 0 then x else 0.
Proof.
  intros Hb. unfold fblk. change (indirect (one_block x)) with 0. cbn [Z.eqb]. destruct (Z.ltb_spec bn NDIRECT) as [H|H].
  - unfold NDIRECT in H. assert (bn ∈ seqZ 0 12) as Hin by (apply elem_of_seqZ; lia). revert bn Hb H Hin.
    assert (H : Forall (fun bn => one_block x !!! Z.to_nat bn = if bn =? 0 then x else 0) (seqZ 0 12)) by (repeat constructor).
    rewrite Forall_forall in H. intros bn _ _. apply H.
  - destruct (Z.eqb_spec bn 0); [unfold NDIRECT in *; lia|done].
Qed.
Lemma one_block_ok x : 59 <= x < 61 -> file_ok 2 mk_sb demo_fs (one_block x).
Proof.
  intros Hx. split; [done|done|..].
  - intros bn Hbn. rewrite one_block_fblk by lia. destruct (bn =? 0); [|done]. intros _.
    split; [apply demo_data_block; lia|]. split; [|change (indirect (one_block x)) with 0; lia]. apply demo_used; lia.
  - intros b1 b2 H1 H2. rewrite !one_block_fblk by lia. destruct (Z.eqb_spec b1 0), (Z.eqb_spec b2 0); lia.
Qed.
Lemma one_block_mapped x size : 59 <= x < 61 -> size <= 512 -> mapped demo_fs (one_block x) size.
Proof.
  intros Hx Hs bn Hb Hlt. rewrite one_block_fblk by done. unfold BSIZE in Hlt. destruct (Z.eqb_spec bn 0); lia.
Qed.
Lemma demo_file_at : file_at 2 mk_sb demo_fs demo_r.
Proof. split; try done; [apply demo_volume|by apply one_block_ok|by apply one_block_mapped]. Qed.
Lemma demo_root_at : file_at 2 mk_sb demo_fs demo_root_inode.
Proof. split; try done; [apply demo_volume|by apply one_block_ok|by apply one_block_mapped]. Qed.

(** * The booted machine *)

Lemma demo_fs_boot : exists s D h l, boot_fs 0 1 (power_on demo_spins demo_fs) = Ok (tt, s) /\
  quiesced s D l h /\ lg_start l = 2 /\ lg_size l = LOGSIZE /\ agree 2 D demo_fs.
Proof.
  assert (Hsb : sb_ok 2 demo_fs) by (by vm_compute).
  assert (Hok : header_ok 2 demo_fs).
  { split; [done|]. change (header_n (demo_fs 2)) with 0. split; [unfold NBUF; lia|].
    change (header_blocks (demo_fs 2)) with (@nil Z). split; [done|constructor|constructor|done]. }
  destruct (proj1 (wp_ok _ _ _) (boot_quiesced 0 1 demo_spins demo_spins_ok 2 demo_fs Hsb Hok)) as ([] & s & E & D & l & h & Hq & Hst & Hsz & Hag).
  exists s, D, h, l. split; [exact E|]. split; [exact Hq|]. split; [exact Hst|]. split; [rewrite Hsz; by vm_compute|].
  rewrite meaning_empty in Hag by done. exact Hag.
Qed.

(** Two descriptors open on the file, at offset 1: one for writing, one for reading. *)
Definition demo_state (s : lstate) : fstate lstate :=
  MkFstate (MkFs s mk_sb (initlock "icache") [demo_r] []) (initlock "ftable")
    [MkFile FD_INODE 1 false true 0 0 1; MkFile FD_INODE 1 true false 0 0 1] ∅ demo_kmem [].

Lemma demo_idle s D l h : quiesced s D l h -> lg_start l = 2 -> lg_size l = LOGSIZE -> fs_idle 2 (fl_fs (demo_state s)) mk_sb D l h.
Proof. intros Hq Hst Hsz. split; try done. by repeat constructor. Qed.
Lemma demo_open D : agree 2 D demo_fs -> open_inode 2 mk_sb D demo_r.
Proof. intros Hag. split; [done|done| |done]. by apply (agree_file 2 Hag ltac:(lia) demo_r demo_file_at). Qed.
Lemma demo_agree_free D : agree 2 D demo_fs -> (10 <= size (free_set mk_sb D))%nat.
Proof.
  intros Hag. etrans; [apply demo_free|]. apply subseteq_size. intros n. rewrite !elem_free_set. intros [Hn Hu]. split; [done|].
  by rewrite (agree_used 2 Hag) by (done || apply demo_volume).
Qed.

Definition no_read : Z -> option (nat -> Z -> M (fs lstate) (Z * list Z)) := fun _ => None.
Definition no_write : Z -> option (nat -> list Z -> Z -> M (fs lstate) Z) := fun _ => None.

Lemma write_read_back_witness : exists s, boot_fs 0 1 (power_on demo_spins demo_fs) = Ok (tt, s) /\
  wp (filewrite (BlockIO0 := LogIO 0 1) (TxIO0 := LogTxIO 0 1) 0 1 false no_write 0 [7; 8];;
      fileread (BlockIO0 := LogIO 0 1) 0 1 false no_read 1 2) (fun a _ => a = PDone (2, [7; 8])) (demo_state s).
Proof.
  destruct demo_fs_boot as (s & D & h & l & E & Hq & Hst & Hsz & Hag). exists s. split; [exact E|].
  apply (write_read_back 0 1 demo_spins demo_spins_ok false no_read no_write 2 (demo_state s) 0 _ 1 _ demo_r mk_sb D l h [7; 8]
    (demo_idle s D l h Hq Hst Hsz) eq_refl eq_refl ltac:(done) eq_refl eq_refl eq_refl eq_refl eq_refl eq_refl eq_refl).
  - by apply demo_open.
  - cbn. lia.
  - done.
  - repeat constructor; lia.
  - done.
  - rewrite max_file. cbn. lia.
  - by apply demo_agree_free.
  - lia.
Defined.



(** * The root directory *)

(** The root inode and an unused cache entry. *)
Definition demo_root_state (s : lstate) : fs lstate :=
  MkFs s mk_sb (initlock "icache") [demo_root_inode; zero_inode] [].

Lemma dirlookup_finds_witness : exists s, boot_fs 0 1 (power_on demo_spins demo_fs) = Ok (tt, s) /\
  wp (dirlookup (BlockIO0 := LogIO 0 1) 0 no_read 0 [104; 105; 0]) (fun res _ => exists ip, res = Some (ip, 32)) (demo_root_state s).
Proof.
  destruct demo_fs_boot as (s & D & h & l & E & Hq & Hst & Hsz & Hag). exists s. split; [exact E|]. clear E.
  destruct (agree_file 2 Hag ltac:(lia) demo_root_inode demo_root_at) as [Hf Hb].
  eapply wp_mono.
  { apply (dirlookup_finds (start := 2) (RD := IdleLaws 0 1 l h) 0 no_read mk_sb D D ∅ 0 demo_root_inode Hf eq_refl eq_refl); [rewrite size_empty; unfold NBUF; lia| |reflexivity|reflexivity| | |].
    - split; [split; [done|]; apply Hq|done|by repeat constructor].
    - split; [repeat constructor; lia|]. right. do 2 apply list_elem_of_further. apply list_elem_of_here.
    - exists 1%nat, zero_inode. split; reflexivity.
    - intros [|[|j]] rj Hj; [injection Hj as <-; cbn; lia|injection Hj as <-; cbn; lia|done]. }
  cbn beta. intros res s' [_ Hres].
  assert (Hfind : dir_find D demo_root_inode [104; 105; 0] 0 (nents demo_root_inode) = Some 2%nat).
  { unfold dir_find. change (nents demo_root_inode) with 32%nat. unfold entry_is, dirent_at. rewrite Hb. vm_compute. reflexivity. }
  rewrite Hfind in Hres. destruct Hres as (ip & r' & -> & _). by exists ip.
Defined.

(** * A directory that ends at a block boundary *)

(** Thirty empty files: with its two own entries the root directory fills one block. *)
Definition thirty_files : list (list Z * list Z) := (fun i => ([97; 97 + i; 0], [])) <$> seqZ 0 30.
(** The root inode as mkfs wrote it, open for reading with the first block already read. *)
Definition root_open (d : image) (s : lstate) : fstate lstate :=
  MkFstate (MkFs s mk_sb (initlock "icache") [of_dinode (load_dinode (dinode_off 1) (d 32)) demo_root_inode] []) (initlock "ftable")
    [MkFile FD_INODE 1 true false 0 0 512] ∅ demo_kmem [].
Definition read_root_tail : outcome (pres (Z * list Z) unit) :=
  match mkfs thirty_files with
  | Err e => Err e
  | Ok d =>
      match boot_fs 0 1 (power_on demo_spins d) with
      | Err e => Err e
      | Ok (_, s) =>
          match fileread (BlockIO0 := LogIO 0 1) 0 1 false no_read 0 16 (root_open d s) with
          | Ok (a, _) => Ok a
          | Err e => Err e
          end
      end
  end.

(** mkfs rounds the size of the root directory up to the next block even when it ends
    at a block boundary; the size then covers a block that was never allocated, and reading
    it, outside a transaction, panics. *)
Theorem root_hole_panics : read_root_tail = Err (EPanic "log_write outside of trans").
Proof. vm_compute. reflexivity. Qed.
