(* ===== verification/Vm.v ===== *)
(** Page tables: vm.c.

    Page directories and page tables are pages of the kernel's byte memory, as the
    processor sees them; the state is that of the page allocator.  Messages to the console
    are left out.  A size returned as an [int] is the unsigned value its callers store. *)

From stdpp Require Import base tactics numbers option list gmap sets strings.
From Stdlib Require Import ZArith Lia.
From S2P Require Import Prelude ProcDefs Spinlock CString Kernel Memory Kalloc.

Definition NPDENTRIES : Z := 1024.

Section code.
(** The processor, [end], and [data], where the kernel's writable data starts. *)
Context (me : nat) (kend : Z) (kdata : Z).

(** [*p] and [*p = v] for 32-bit words. *)
Definition ldw (a : Z) : M kmem Z := gets (fun s => get32 (km_mem s) a).
Definition stw (a v : Z) : M kmem unit := modify (fun s => set_mem (put32 (km_mem s) a v) s).
Definition fill (a c n : Z) : M kmem unit := modify (fun s => set_mem (memset (km_mem s) a c n) s).
Definition copy (dst src n : Z) : M kmem unit := modify (fun s => set_mem (memmove (km_mem s) dst src n) s).

Definition present (e : Z) : bool := negb (Z.land e PTE_P =? 0).

(** The address of the entry, or 0. *)
Definition walkpgdir (pgdir va : Z) (alloc : bool) : M kmem Z :=
  let pde := u32 (pgdir + 4 * PDX va) in
  e ← ldw pde;
  if present e then mret (u32 (P2V (PTE_ADDR e) + 4 * PTX va))
  else if negb alloc then mret 0
  else
    pgtab ← kalloc me;
    if pgtab =? 0 then mret 0 else
    fill pgtab 0 PGSIZE;;
    stw pde (Z.lor (Z.lor (Z.lor (V2P pgtab) PTE_P) PTE_W) PTE_U);;
    mret (u32 (pgtab + 4 * PTX va)).

Fixpoint mappages_from (fuel : nat) (pgdir a last pa perm : Z) : M kmem Z :=
  match fuel with
  | O => fail EFuel
  | S fuel =>
      pte ← walkpgdir pgdir a true;
      if pte =? 0 then mret (-1) else
      e ← ldw pte;
      panic_if (present e) "remap";;
      stw pte (Z.lor (Z.lor pa perm) PTE_P);;
      if a =? last then mret 0
      else mappages_from fuel pgdir (u32 (a + PGSIZE)) last (u32 (pa + PGSIZE)) perm
  end.
(** The loop runs once per page from [a] to [last]. *)
Definition mappages (pgdir va size pa perm : Z) : M kmem Z :=
  let a := PGROUNDDOWN va in
  let last := PGROUNDDOWN (u32 (va + size - 1)) in
  mappages_from (S (Z.to_nat (u32 (last - a) / PGSIZE))) pgdir a last pa perm.

(** [kmap]: virtual address, physical start and end, permissions. *)
Definition kmap : list (Z * Z * Z * Z) :=
  [(KERNBASE, 0, EXTMEM, PTE_W);
   (KERNLINK, V2P KERNLINK, V2P kdata, 0);
   (kdata, V2P kdata, PHYSTOP, PTE_W);
   (DEVSPACE, DEVSPACE, 0, PTE_W)].

(** * Releasing *)

Fixpoint deallocuvm_from (fuel : nat) (pgdir a oldsz : Z) : M kmem unit :=
  match fuel with
  | O => fail EFuel
  | S fuel =>
      if a <? oldsz then
        pte ← walkpgdir pgdir a false;
        a ← (if pte =? 0 then mret (u32 (PGADDR (PDX a + 1) 0 0 - PGSIZE))
             else
               e ← ldw pte;
               (if present e then
                  let pa := PTE_ADDR e in
                  panic_if (pa =? 0) "kfree";;
                  kfree me kend (P2V pa);;
                  stw pte 0
                else mret tt);;
               mret a);
        deallocuvm_from fuel pgdir (u32 (a + PGSIZE)) oldsz
      else mret tt
  end.
Definition deallocuvm (pgdir oldsz newsz : Z) : M kmem Z :=
  if oldsz <=? newsz then mret oldsz else
  deallocuvm_from (S (Z.to_nat (oldsz / PGSIZE + 1))) pgdir (PGROUNDUP newsz) oldsz;;
  mret newsz.

Definition free_table (pgdir i : Z) : M kmem unit :=
  e ← ldw (u32 (pgdir + 4 * i));
  if present e then kfree me kend (P2V (PTE_ADDR e)) else mret tt.
Definition freevm (pgdir : Z) : M kmem unit :=
  panic_if (pgdir =? 0) "freevm: no pgdir";;
  deallocuvm pgdir KERNBASE 0;;
  for_each (free_table pgdir) (seqZ 0 NPDENTRIES);;
  kfree me kend pgdir.

(** * Creating *)

Fixpoint setupkvm_maps (pgdir : Z) (ks : list (Z * Z * Z * Z)) : M kmem Z :=
  match ks with
  | [] => mret pgdir
  | (virt, ps, pe, perm) :: ks =>
      r ← mappages pgdir virt (u32 (pe - ps)) ps perm;
      if r <? 0 then freevm pgdir;; mret 0 else setupkvm_maps pgdir ks
  end.
Definition setupkvm : M kmem Z :=
  pgdir ← kalloc me;
  if pgdir =? 0 then mret 0 else
  fill pgdir 0 PGSIZE;;
  panic_if (DEVSPACE <? P2V PHYSTOP) "PHYSTOP too high";;
  setupkvm_maps pgdir kmap.

(** [memmove] from a buffer given by its bytes. *)
Definition put_bytes (m : mem) (a : Z) (bs : list Z) : mem :=
  foldl (fun m x => mput m (a + x.1) x.2) m (imap (fun i b => (Z.of_nat i, b)) bs).

(** [init] are the [sz] bytes to load.  The result of [kalloc] is not tested: without a
    page the [memset] goes through the unmapped address 0. *)
Definition inituvm (pgdir : Z) (init : list Z) : M kmem unit :=
  panic_if (PGSIZE <=? Z.of_nat (length init)) "inituvm: more than a page";;
  mem ← kalloc me;
  if mem =? 0 then fail EFault else
  fill mem 0 PGSIZE;;
  mappages pgdir 0 PGSIZE (V2P mem) (Z.lor PTE_W PTE_U);;
  modify (fun s => set_mem (put_bytes (km_mem s) mem init) s).

(** The loop of [allocuvm]; [oldsz] and [newsz] are those of the call. *)
Fixpoint allocuvm_from (fuel : nat) (pgdir a oldsz newsz : Z) : M kmem Z :=
  match fuel with
  | O => fail EFuel
  | S fuel =>
      if a <? newsz then
        mem ← kalloc me;
        if mem =? 0 then deallocuvm pgdir newsz oldsz;; mret 0 else
        fill mem 0 PGSIZE;;
        r ← mappages pgdir a PGSIZE (V2P mem) (Z.lor PTE_W PTE_U);
        if r <? 0 then deallocuvm pgdir newsz oldsz;; kfree me kend mem;; mret 0
        else allocuvm_from fuel pgdir (u32 (a + PGSIZE)) oldsz newsz
      else mret newsz
  end.
Definition allocuvm (pgdir oldsz newsz : Z) : M kmem Z :=
  if KERNBASE <=? newsz then mret 0 else
  if newsz <? oldsz then mret oldsz else
  allocuvm_from (S (Z.to_nat (newsz / PGSIZE + 1))) pgdir (PGROUNDUP oldsz) oldsz newsz.

Definition clearpteu (pgdir uva : Z) : M kmem unit :=
  pte ← walkpgdir pgdir uva false;
  panic_if (pte =? 0) "clearpteu";;
  e ← ldw pte;
  stw pte (Z.land e (u32 (Z.lnot PTE_U))).

Fixpoint copyuvm_from (fuel : nat) (pgdir d i sz : Z) : M kmem Z :=
  match fuel with
  | O => fail EFuel
  | S fuel =>
      if i <? sz then
        pte ← walkpgdir pgdir i false;
        panic_if (pte =? 0) "copyuvm: pte should exist";;
        e ← ldw pte;
        panic_if (negb (present e)) "copyuvm: page not present";;
        mem ← kalloc me;
        if mem =? 0 then freevm d;; mret 0 else
        copy mem (P2V (PTE_ADDR e)) PGSIZE;;
        r ← mappages d i PGSIZE (V2P mem) (PTE_FLAGS e);
        if r <? 0 then freevm d;; mret 0
        else copyuvm_from fuel pgdir d (u32 (i + PGSIZE)) sz
      else mret d
  end.
Definition copyuvm (pgdir sz : Z) : M kmem Z :=
  d ← setupkvm;
  if d =? 0 then mret 0 else
  copyuvm_from (S (Z.to_nat (sz / PGSIZE + 1))) pgdir d 0 sz.

(** * Access to user memory *)

(** The null page is never mapped for the kernel: a load through 0 faults. *)
Definition uva2ka (pgdir uva : Z) : M kmem Z :=
  pte ← walkpgdir pgdir uva false;
  if pte =? 0 then fail EFault else
  e ← ldw pte;
  if negb (present e) then mret 0
  else if Z.land e PTE_U =? 0 then mret 0
  else mret (P2V (PTE_ADDR e)).

(** [buf] are the [len] bytes at [p]. *)
Fixpoint copyout_from (fuel : nat) (pgdir va : Z) (buf : list Z) : M kmem Z :=
  match buf with
  | [] => mret 0
  | _ =>
      match fuel with
      | O => fail EFuel
      | S fuel =>
          let va0 := PGROUNDDOWN va in
          pa0 ← uva2ka pgdir va0;
          if pa0 =? 0 then mret (-1) else
          let n := Z.min (PGSIZE - (va - va0)) (Z.of_nat (length buf)) in
          modify (fun s => set_mem (put_bytes (km_mem s) (pa0 + (va - va0)) (take (Z.to_nat n) buf)) s);;
          copyout_from fuel pgdir (u32 (va0 + PGSIZE)) (drop (Z.to_nat n) buf)
      end
  end.
Definition copyout (pgdir va : Z) (buf : list Z) : M kmem Z :=
  copyout_from (S (Z.to_nat (Z.of_nat (length buf) / PGSIZE + 1))) pgdir va buf.
End code.

(** [kvmalloc]: the kernel page table, and the physical address loaded into [cr3]. *)
Definition kvmalloc (me : nat) (kend kdata : Z) : M kmem (Z * Z) :=
  kpgdir ← setupkvm me kend kdata; mret (kpgdir, V2P kpgdir).
