(* ===== verification/VmFacts.v ===== *)
(** Page tables: the tree that a page directory spans, and what each routine of vm.c does
    to it.

    [dir m pgdir T] says that the directory at [pgdir] has the tables [T]; [pte m T n] is
    then the entry of virtual page [n].  Memory changes are tracked page by page. *)

From stdpp Require Import base tactics numbers option list gmap sets strings.
From Stdlib Require Import ZArith Lia.
From S2P Require Import Prelude ProcDefs Spinlock CString Kernel Memory Kalloc Vm.

(** * Entries *)

Lemma page_lor a f : a mod PGSIZE = 0 -> 0 <= f < PGSIZE -> Z.lor a f = a + f.
Proof.
  intros Ha Hf. assert (Hl : Z.land a f = 0).
  { rewrite (Z.div_mod a PGSIZE), Ha, Z.add_0_r, Z.mul_comm by done. change PGSIZE with (2 ^ 12) in *.
    rewrite <-Z.shiftl_mul_pow2 by lia. apply Z.bits_inj'. intros n Hn. rewrite Z.land_spec, Z.bits_0.
    destruct (Z.ltb_spec n 12).
    - by rewrite Z.shiftl_spec_low by lia.
    - rewrite <-(Z.mod_small f (2 ^ 12)) by lia. rewrite Z.mod_pow2_bits_high by lia. apply andb_false_r. }
  rewrite <-Z.lxor_lor by done. symmetry. by apply Z.add_nocarry_lxor.
Qed.

Lemma present_odd e : present e = Z.odd e.
Proof.
  unfold present. change PTE_P with (Z.ones 1). rewrite Z.land_ones by lia.
  change (2 ^ 1) with 2. rewrite Zmod_odd. by destruct (Z.odd e).
Qed.

(** The address and the flags of an entry made of them. *)
Lemma pte_split a f : a mod PGSIZE = 0 -> 0 <= a -> a + PGSIZE <= 2 ^ 32 -> 0 <= f < PGSIZE ->
  PTE_ADDR (a + f) = a /\ PTE_FLAGS (a + f) = f.
Proof.
  intros Ha H0 Hb Hf. assert (Hm : (a + f) mod PGSIZE = f) by (rewrite Zplus_mod, Ha, Z.add_0_l, Zmod_mod; by apply Z.mod_small).
  rewrite PTE_ADDR_spec, PTE_FLAGS_spec, Hm by lia. lia.
Qed.

Lemma page_odd a f : a mod PGSIZE = 0 -> Z.odd (a + f) = Z.odd f.
Proof.
  intros Ha. rewrite (Z.div_mod a PGSIZE), Ha, Z.add_0_r by done. change PGSIZE with (2 * 2048).
  rewrite <-Z.mul_assoc, Z.add_comm. by rewrite Z.odd_add_mul_2.
Qed.

(** Virtual page [n]. *)
Definition vpage (n : Z) : Z := n * PGSIZE.
Lemma vpage_index n : 0 <= n < 2 ^ 20 ->
  0 <= vpage n < 2 ^ 32 /\ PDX (vpage n) = n / 1024 /\ PTX (vpage n) = n mod 1024.
Proof.
  intros Hn. assert (Hv : 0 <= vpage n < 2 ^ 32) by (unfold vpage, PGSIZE; lia). split; [done|].
  destruct (PDX_spec (vpage n) Hv) as [-> _]. destruct (PTX_spec (vpage n)) as [-> _]. unfold vpage.
  rewrite Z.div_mul by done. split; [|done]. change (2 ^ 22) with (PGSIZE * 1024). rewrite <-Z.div_div by done. by rewrite Z.div_mul.
Qed.
Lemma page_index n : 0 <= n < 2 ^ 20 -> 0 <= n / 1024 < 1024 /\ 0 <= n mod 1024 < 1024.
Proof.
  intros Hn. split; [|by apply Z.mod_pos_bound]. split; [apply Z.div_pos; lia|apply Z.div_lt_upper_bound; lia].
Qed.

(** * Changes to memory *)

(** Memory changed only in the pages [W]. *)
Definition changed_in (W : list Z) (m m' : mem) : Prop := forall a, m' a <> m a -> exists v, v ∈ W /\ in_page v a.

Lemma changed_refl W m : changed_in W m m.
Proof. by intros a. Qed.
Lemma changed_trans W m m1 m2 : changed_in W m m1 -> changed_in W m1 m2 -> changed_in W m m2.
Proof. intros H1 H2 a Ha. destruct (decide (m1 a = m a)) as [E|]; [|by apply H1]. apply H2. by rewrite E. Qed.
Lemma changed_weaken V W m m' : changed_in V m m' -> (forall v, v ∈ V -> v ∈ W) -> changed_in W m m'.
Proof. intros H HV a Ha. destruct (H a Ha) as (v & Hv & Hin). eauto. Qed.

Lemma changed_put32 p m a v : in_page p a -> a + 4 <= p + PGSIZE -> changed_in [p] m (put32 m a v).
Proof.
  unfold in_page. intros Hp Ha b Hb. exists p. split; [by left|]. unfold in_page.
  destruct (decide (b < a \/ a + 4 <= b)); [by rewrite put32_other in Hb|lia].
Qed.
Lemma changed_fill p m c : changed_in [p] m (memset m p c PGSIZE).
Proof.
  intros b Hb. exists p. split; [by left|]. unfold in_page. rewrite memset_bytes in Hb by done.
  destruct (Z.leb_spec p b), (Z.ltb_spec b (p + PGSIZE)); cbn in Hb; done.
Qed.
Lemma changed_copy p m src : changed_in [p] m (memmove m p src PGSIZE).
Proof.
  intros b Hb. exists p. split; [by left|]. unfold in_page. rewrite memmove_bytes in Hb by done.
  destruct (Z.leb_spec p b), (Z.ltb_spec b (p + PGSIZE)); cbn in Hb; done.
Qed.
Lemma changed_free p m next : changed_in [p] m (freed_mem m p next).
Proof.
  intros b Hb. exists p. split; [by left|]. destruct (decide (in_page p b)) as [|Hn]; [done|].
  by rewrite (freed_other m p next b Hn) in Hb.
Qed.

Ltac all_pages := repeat first [apply Forall_nil_2 | apply Forall_cons_2; [assumption|]].

Section tables.
Context (me : nat) (kend : Z) (kend_high : KERNBASE < kend).
Local Abbreviation page_ok := (page_ok kend).
Local Abbreviation free_pages := (free_pages kend).

(** A page that is not among the changed ones is as it was. *)
Lemma changed_page W m m' p a : changed_in W m m' -> Forall page_ok W -> p mod PGSIZE = 0 -> p ∉ W -> in_page p a -> m' a = m a.
Proof using Type.
  intros Hc HW Hp Hn Ha. destruct (decide (m' a = m a)) as [|Hne]; [done|]. exfalso.
  destruct (Hc a Hne) as (v & Hv & Hin). rewrite Forall_forall in HW. destruct (HW v Hv) as [Hal _].
  apply Hn. by rewrite <-(page_disjoint v p a Hal Hp Hin Ha).
Qed.
Lemma changed_word W m m' p i : changed_in W m m' -> Forall page_ok W -> p mod PGSIZE = 0 -> p ∉ W -> 0 <= i < 1024 ->
  get32 m' (p + 4 * i) = get32 m (p + 4 * i).
Proof using Type.
  intros Hc HW Hp Hn Hi. apply get32_ext. intros b Hb. eapply changed_page; [done..|]. unfold in_page, PGSIZE. lia.
Qed.

(** * The tree *)

Definition tabs (T : gmap Z Z) : list Z := (map_to_list T).*2.
Definition pde_of (t : Z) : Z := V2P t + 7.
Record dir (m : mem) (pgdir : Z) (T : gmap Z Z) : Prop := {
  dr_tab : forall i t, T !! i = Some t -> 0 <= i < 1024;
  dr_pde : forall i, 0 <= i < 1024 -> get32 m (pgdir + 4 * i) = default 0 (pde_of <$> T !! i)
}.
Definition pte (m : mem) (T : gmap Z Z) (n : Z) : Z :=
  match T !! (n / 1024) with
  | Some t => get32 m (t + 4 * (n mod 1024))
  | None => 0
  end.

(** The state of the allocator around one page directory; [R] are the other pages in use. *)
Record vmst (s : kmem) (pgdir : Z) (T : gmap Z Z) (R xs : list Z) : Prop := {
  vm_free : free_pages s xs;
  vm_dir : dir (km_mem s) pgdir T;
  vm_nodup : NoDup (pgdir :: tabs T ++ R ++ xs);
  vm_pages : Forall page_ok (pgdir :: tabs T ++ R ++ xs)
}.

Lemma elem_tabs T t : t ∈ tabs T <-> exists i, T !! i = Some t.
Proof using Type.
  unfold tabs. rewrite list_elem_of_fmap. split.
  - intros ([i v] & -> & H%elem_of_map_to_list). by exists i.
  - intros (i & H). exists (i, t). split; [done|]. by apply elem_of_map_to_list.
Qed.
Lemma tabs_insert T i t : T !! i = None -> tabs (<[i := t]> T) ≡ₚ t :: tabs T.
Proof using Type. intros H. unfold tabs. by rewrite map_to_list_insert. Qed.
Lemma tabs_inj T i j t : NoDup (tabs T) -> T !! i = Some t -> T !! j = Some t -> i = j.
Proof using Type.
  intros Hnd Hi Hj. destruct (decide (i = j)) as [|Hne]; [done|]. exfalso.
  rewrite <-(insert_delete_id T i t Hi), tabs_insert in Hnd by apply lookup_delete_eq.
  apply NoDup_cons in Hnd as [Hn _]. apply Hn, elem_tabs. exists j. by rewrite lookup_delete_ne.
Qed.

Lemma page_ok_pde t : page_ok t -> present (pde_of t) = true /\ P2V (PTE_ADDR (pde_of t)) = t /\ 0 <= pde_of t < 2 ^ 32.
Proof using kend_high.
  intros Ht. pose proof (V2P_page kend kend_high t Ht) as E. destruct Ht as [Hal Hr]. unfold pde_of. rewrite E.
  assert (Ha : (t - KERNBASE) mod PGSIZE = 0) by (rewrite Zminus_mod, Hal; done).
  rewrite present_odd, page_odd by done. split; [done|].
  destruct (pte_split (t - KERNBASE) 7 Ha) as [-> _]; [unfold KERNBASE, PHYSTOP, PGSIZE in *; lia..|].
  unfold P2V. rewrite u32_small by (unfold KERNBASE, PHYSTOP in *; lia). unfold KERNBASE, PHYSTOP in *. lia.
Qed.

Lemma dir_ext W m m' pgdir T : dir m pgdir T -> changed_in W m m' -> Forall page_ok W -> pgdir mod PGSIZE = 0 -> pgdir ∉ W -> dir m' pgdir T.
Proof using Type. intros [H1 H2] Hc HW Hp Hn. split; [done|]. intros i Hi. rewrite (changed_word W m m' pgdir i) by done. by apply H2. Qed.
Lemma pte_ext W m m' T n : changed_in W m m' -> Forall page_ok W -> (forall t, t ∈ tabs T -> t mod PGSIZE = 0 /\ t ∉ W) -> pte m' T n = pte m T n.
Proof using Type.
  intros Hc HW HT. unfold pte. destruct (T !! (n / 1024)) as [t|] eqn:Et; [|done].
  destruct (HT t) as [? ?]; [apply elem_tabs; eauto|]. apply (changed_word W); try done. by apply Z.mod_pos_bound.
Qed.

(** Writes to pages that are not free leave the free list alone. *)
Lemma free_write W m' s xs : free_pages s xs -> changed_in W (km_mem s) m' -> byte_mem m' -> Forall page_ok W ->
  (forall v, v ∈ W -> v ∉ xs) -> free_pages (set_mem m' s) xs.
Proof using Type.
  intros [Hc Hn Hb Hk Hl] Hch Hm HW Hd. split; try done. apply (chain_ext kend (km_mem s)); [|done]. intros x a Hx Ha.
  pose proof (chain_pages _ _ _ _ Hc) as Hps. rewrite Forall_forall in Hps. destruct (Hps x Hx) as [Hal _].
  apply (changed_page W (km_mem s) m' x); try done; [intros ?; by eapply Hd|unfold in_page, PGSIZE; lia].
Qed.

Lemma vmst_parts s pgdir T R xs : vmst s pgdir T R xs ->
  page_ok pgdir /\ pgdir ∉ tabs T /\ pgdir ∉ R /\ pgdir ∉ xs /\ NoDup (tabs T) /\
  (forall t, t ∈ tabs T -> page_ok t /\ t ∉ R /\ t ∉ xs) /\ (forall r, r ∈ R -> page_ok r /\ r ∉ xs) /\ (forall x, x ∈ xs -> page_ok x).
Proof using Type.
  intros [_ _ Hn Hp]. rewrite Forall_forall in Hp. apply NoDup_cons in Hn as [Hn1 Hn2]. apply NoDup_app in Hn2 as (Ht & Htr & Hn3).
  apply NoDup_app in Hn3 as (Hr & Hrx & _). setoid_rewrite elem_of_cons in Hp. setoid_rewrite elem_of_app in Hp. setoid_rewrite elem_of_app in Hp.
  rewrite !elem_of_app in Hn1. split; [by apply Hp; left|]. split; [tauto|]. split; [tauto|]. split; [tauto|]. split; [done|].
  split; [|split]; [intros t H|intros r H|intros x H]; [|split; [|by apply Hrx]|]; try (apply Hp; tauto).
  specialize (Htr t H). rewrite elem_of_app in Htr. split; [apply Hp; tauto|tauto].
Qed.

(** Writes to the other pages. *)
Lemma vmst_write W m' s pgdir T R xs : vmst s pgdir T R xs -> changed_in W (km_mem s) m' -> byte_mem m' -> (forall v, v ∈ W -> v ∈ R) ->
  vmst (set_mem m' s) pgdir T R xs /\ forall n, pte m' T n = pte (km_mem s) T n.
Proof using Type.
  intros H Hc Hb HW. destruct (vmst_parts _ _ _ _ _ H) as (Hd & _ & Hdr & _ & _ & Ht & Hr & _). destruct H as [H1 H2 H3 H4].
  assert (HWp : Forall page_ok W) by (apply Forall_forall; intros v Hv; by apply Hr, HW).
  split; [split; try done|].
  - apply (free_write W); try done. intros v Hv. by apply Hr, HW.
  - apply (dir_ext W (km_mem s)); try done; [apply Hd|auto].
  - intros n. apply (pte_ext W); try done. intros t Hin. destruct (Ht t Hin) as ([? _] & Htr & _). split; [done|auto].
Qed.

Lemma vmst_byte s pgdir T R xs : vmst s pgdir T R xs -> byte_mem (km_mem s).
Proof using Type. intros [[]]. done. Qed.

(** * Walking *)

Lemma walk_look s pgdir T R xs n (Q : Z -> kmem -> Prop) : vmst s pgdir T R xs -> 0 <= n < 2 ^ 20 ->
  Q (match T !! (n / 1024) with Some t => t + 4 * (n mod 1024) | None => 0 end) s ->
  wp (walkpgdir me pgdir (vpage n) false) Q s.
Proof using kend_high.
  intros H Hn HQ. destruct (vmst_parts _ _ _ _ _ H) as (Hd & _ & _ & _ & _ & Ht & _). destruct (vpage_index n Hn) as (_ & E1 & E2).
  destruct (page_index n Hn) as [Hi Hj]. unfold walkpgdir. rewrite E1, E2.
  apply (page_range kend kend_high) in Hd as Hdr. rewrite (u32_small (pgdir + _)) by (unfold PGSIZE in *; lia).
  unfold ldw. do 2 wp_step. rewrite (dr_pde _ _ _ (vm_dir _ _ _ _ _ H)) by done.
  destruct (T !! (n / 1024)) as [t|] eqn:Et; cbn [fmap option_fmap option_map from_option id]; [|by apply wp_ret].
  destruct (Ht t) as [Hpt _]; [apply elem_tabs; eauto|]. destruct (page_ok_pde t Hpt) as (-> & -> & _).
  apply wp_ret. apply (page_range kend kend_high) in Hpt. by rewrite u32_small by (unfold PGSIZE in *; lia).
Qed.

(** A new table: the first free page, cleared, entered into the directory. *)
Lemma new_table s pgdir T R x xs i : vmst s pgdir T R (x :: xs) -> free_pages s (x :: xs) -> 0 <= i < 1024 -> T !! i = None ->
  forall s1, free_pages s1 xs -> km_mem s1 = km_mem s ->
  let m2 := put32 (memset (km_mem s) x 0 PGSIZE) (pgdir + 4 * i) (pde_of x) in
  vmst (set_mem m2 s1) pgdir (<[i := x]> T) R xs /\ changed_in [pgdir; x] (km_mem s) m2 /\
  forall n, pte m2 (<[i := x]> T) n = pte (km_mem s) T n.
Proof using kend_high.
  intros H Hf Hi Hnone s1 Hf1 Em m2. destruct (vmst_parts _ _ _ _ _ H) as (Hd & Hdt & Hdr & Hdx & Hnt & Ht & Hr & Hx).
  rewrite not_elem_of_cons in Hdx. destruct Hdx as [Hdx Hdxs]. assert (Hpx : page_ok x) by (apply Hx; by left).
  pose proof (page_range kend kend_high _ Hd) as Hdrange. pose proof (page_ok_pde x Hpx) as (_ & _ & Hpr).
  assert (Hc1 : changed_in [x] (km_mem s) (memset (km_mem s) x 0 PGSIZE)) by apply changed_fill.
  assert (Hc2 : changed_in [pgdir] (memset (km_mem s) x 0 PGSIZE) m2) by (apply changed_put32; unfold in_page, PGSIZE; lia).
  assert (Hc : changed_in [pgdir; x] (km_mem s) m2) by (eapply changed_trans; eapply changed_weaken; [exact Hc1| |exact Hc2|]; set_solver).
  assert (HW : Forall page_ok [pgdir; x]) by all_pages.
  assert (Hxxs : x ∉ xs) by (destruct Hf as [_ Hnd _ _ _]; by apply NoDup_cons in Hnd as [? _]).
  assert (Hb : byte_mem m2) by (apply byte_put32, byte_memset; [done|by eapply vmst_byte]).
  assert (Hperm : pgdir :: tabs (<[i := x]> T) ++ R ++ xs ≡ₚ pgdir :: tabs T ++ R ++ x :: xs) by (rewrite tabs_insert by done; solve_Permutation).
  split; [split|split; [done|]].
  - apply (free_write [pgdir; x]); try done; [by rewrite Em|]. intros v Hv. set_solver.
  - split.
    + intros j t. destruct (decide (j = i)) as [->|Hne]; [done|]. rewrite lookup_insert_ne by done. apply (dr_tab _ _ _ (vm_dir _ _ _ _ _ H)).
    + intros j Hj. cbn [km_mem set_mem]. destruct (decide (j = i)) as [->|Hne].
      * unfold m2. rewrite get32_put32, lookup_insert_eq. cbn. by apply u32_small.
      * unfold m2. rewrite get32_put32_other, lookup_insert_ne by lia. rewrite <-(dr_pde _ _ _ (vm_dir _ _ _ _ _ H)) by done.
        apply (changed_word [x]); [done|all_pages|apply Hd|set_solver|done].
  - rewrite Hperm. apply H.
  - rewrite Hperm. apply H.
  - intros n. unfold pte. destruct (decide (n / 1024 = i)) as [->|Hne].
    + rewrite lookup_insert_eq, Hnone. pose proof (Z.mod_pos_bound n 1024 ltac:(done)).
      rewrite (changed_word [pgdir] (memset (km_mem s) x 0 PGSIZE)); [|done|all_pages|apply Hpx|set_solver|done].
      unfold get32. rewrite !memset_bytes by done. unfold PGSIZE.
      rewrite !(proj2 (Z.leb_le _ _)), !(proj2 (Z.ltb_lt _ _)) by lia. done.
    + rewrite lookup_insert_ne by done. destruct (T !! (n / 1024)) as [t|] eqn:Et; [|done].
      destruct (Ht t) as ([Hal ?] & Htr & Htx); [apply elem_tabs; eauto|].
      apply (changed_word [pgdir; x]); [done|done|done| |by apply Z.mod_pos_bound].
      rewrite !not_elem_of_cons. split_and!; [|set_solver|set_solver]. intros ->. apply Hdt, elem_tabs. eauto.
Qed.

(** The tables of the directory grew by pages off the free list. *)
Definition grew (T : gmap Z Z) (xs : list Z) (T' : gmap Z Z) (xs' : list Z) : Prop := T ⊆ T' /\ tabs T' ++ xs' ≡ₚ tabs T ++ xs.
Lemma grew_refl T xs : grew T xs T xs.
Proof using Type. done. Qed.
Lemma grew_trans T xs T1 xs1 T2 xs2 : grew T xs T1 xs1 -> grew T1 xs1 T2 xs2 -> grew T xs T2 xs2.
Proof using Type. intros [? E1] [? E2]. split; [by etrans|by rewrite E2]. Qed.

(** New tables only for the directory entries from [lo] to [hi]. *)
Definition tabs_within (lo hi : Z) (T T' : gmap Z Z) : Prop := forall i, is_Some (T' !! i) -> is_Some (T !! i) \/ lo <= i <= hi.
Lemma tabs_within_trans lo hi lo1 hi1 T T1 T2 : tabs_within lo1 hi1 T T1 -> tabs_within lo1 hi1 T1 T2 -> lo <= lo1 -> hi1 <= hi -> tabs_within lo hi T T2.
Proof using Type. intros H1 H2 ? ? i [H|?]%H2; [apply H1 in H as [?|?]|]; [by left|right; lia..]. Qed.
Lemma tabs_within_weaken lo hi lo1 hi1 T T1 : tabs_within lo1 hi1 T T1 -> lo <= lo1 -> hi1 <= hi -> tabs_within lo hi T T1.
Proof using Type. intros H1 ? ? i [?|?]%H1; [by left|right; lia]. Qed.
(** They are as many at most. *)
Lemma tabs_within_length lo hi T T' : tabs_within lo hi T T' -> lo <= hi -> (length (tabs T') <= length (tabs T) + Z.to_nat (hi - lo + 1))%nat.
Proof using Type.
  clear kend_high. intros H Hle. unfold tabs. rewrite !length_fmap, !length_map_to_list, <-!size_dom. rewrite <-(length_seqZ lo (hi - lo + 1)).
  rewrite <-(size_list_to_set (C := gset Z) (seqZ lo (hi - lo + 1))) by apply NoDup_seqZ. etrans; [apply (subseteq_size (dom T') (dom T ∪ list_to_set (seqZ lo (hi - lo + 1))))|
    rewrite size_union_alt; apply Nat.add_le_mono_l, subseteq_size; set_solver].
  intros i Hi. apply elem_of_dom, H in Hi as [Hi|Hi]; apply elem_of_union; [left; by apply elem_of_dom|right].
  apply elem_of_list_to_set, elem_of_seqZ. lia.
Qed.

Lemma walk_alloc s pgdir T R xs n (Q : Z -> kmem -> Prop) : vmst s pgdir T R xs -> 0 <= n < 2 ^ 20 ->
  (forall s', vmst s' pgdir T R xs -> km_mem s' = km_mem s -> xs = [] -> Q 0 s') ->
  (forall s' T' xs' t, vmst s' pgdir T' R xs' -> T' !! (n / 1024) = Some t -> grew T xs T' xs' -> tabs_within (n / 1024) (n / 1024) T T' ->
    changed_in (pgdir :: tabs T') (km_mem s) (km_mem s') -> (forall k, pte (km_mem s') T' k = pte (km_mem s) T k) ->
    Q (t + 4 * (n mod 1024)) s') ->
  wp (walkpgdir me pgdir (vpage n) true) Q s.
Proof using kend_high.
  intros H Hn Hnull HQ. destruct (vmst_parts _ _ _ _ _ H) as (Hd & _ & _ & _ & _ & Ht & _ & Hx). destruct (vpage_index n Hn) as (_ & E1 & E2).
  destruct (page_index n Hn) as [Hi Hj]. unfold walkpgdir. rewrite E1, E2.
  apply (page_range kend kend_high) in Hd as Hdr. rewrite (u32_small (pgdir + _)) by (unfold PGSIZE in *; lia).
  unfold ldw. do 2 wp_step. rewrite (dr_pde _ _ _ (vm_dir _ _ _ _ _ H)) by done.
  destruct (T !! (n / 1024)) as [t|] eqn:Et; cbn [fmap option_fmap option_map from_option id].
  - destruct (Ht t) as [Hpt _]; [apply elem_tabs; eauto|]. destruct (page_ok_pde t Hpt) as (-> & -> & _).
    apply wp_ret. apply (page_range kend kend_high) in Hpt. rewrite u32_small by (unfold PGSIZE in *; lia).
    eapply HQ; [done|done|apply grew_refl|by intros ? ?; left|apply changed_refl|done].
  - change (present 0) with false. cbn [negb]. wp_step. eapply wp_mono; [apply (kalloc_spec me kend kend_high s xs), H|]. cbn beta.
    intros r s1 (Em & _ & Hr). destruct xs as [|x xs].
    + destruct Hr as [-> Hf]. apply wp_ret. apply Hnull; try done. destruct H as [_ G2 G3 G4]. split; try done. by rewrite Em.
    + destruct Hr as [-> Hf]. assert (Hpx : page_ok x) by (apply Hx; by left). pose proof (page_nonzero kend kend_high x Hpx).
      destruct (Z.eqb_spec x 0); [done|]. unfold fill, stw. wp_steps. cbn [km_mem set_mem]. rewrite Em.
      apply (page_range kend kend_high) in Hpx as Hxr. rewrite u32_small by (unfold PGSIZE in *; lia).
      assert (Hv : Z.lor (Z.lor (Z.lor (V2P x) PTE_P) PTE_W) PTE_U = pde_of x).
      { rewrite <-!Z.lor_assoc. unfold pde_of. rewrite <-page_lor; [done| |done]. rewrite (V2P_page kend kend_high x Hpx).
        rewrite Zminus_mod. destruct Hpx as [-> _]. done. }
      rewrite Hv. destruct (new_table s pgdir T R x xs (n / 1024) H (vm_free _ _ _ _ _ H) Hi Et s1 Hf Em) as (Hv2 & Hc2 & Hp2).
      eapply (HQ _ (<[n / 1024 := x]> T) xs x); [exact Hv2|apply lookup_insert_eq| | |eapply changed_weaken; [exact Hc2|]|exact Hp2].
      * split; [by apply insert_subseteq|]. rewrite tabs_insert by done. solve_Permutation.
      * intros i Hin. destruct (decide (i = n / 1024)) as [->|Hne]; [right; lia|left]. by rewrite lookup_insert_ne in Hin by done.
      * intros v Hv'. rewrite !elem_of_cons in Hv'. destruct Hv' as [->|[->|?%not_elem_of_nil]]; [by left|right|done].
        apply elem_tabs. exists (n / 1024). apply lookup_insert_eq.
Qed.

(** * Entering a mapping *)

Lemma set_pte s pgdir T R xs n t v : vmst s pgdir T R xs -> 0 <= n < 2 ^ 20 -> T !! (n / 1024) = Some t ->
  let m' := put32 (km_mem s) (t + 4 * (n mod 1024)) v in
  vmst (set_mem m' s) pgdir T R xs /\ changed_in (tabs T) (km_mem s) m' /\
  forall q, pte m' T q = if decide (q = n) then u32 v else pte (km_mem s) T q.
Proof using kend_high.
  intros H Hn Et m'. destruct (vmst_parts _ _ _ _ _ H) as (Hd & Hdt & _ & _ & Hnt & Ht & _).
  assert (Hin : t ∈ tabs T) by (apply elem_tabs; eauto). destruct (Ht t Hin) as (Hpt & Htr & Htx). destruct (page_index n Hn) as [_ Hj].
  assert (Hc : changed_in [t] (km_mem s) m') by (apply changed_put32; unfold in_page, PGSIZE; lia).
  assert (HW : Forall page_ok [t]) by all_pages. assert (Hdt' : pgdir ∉ [t]) by set_solver. split; [|split].
  - destruct H as [H1 H2 H3 H4]. split; try done.
    + apply (free_write [t]); try done; [by apply byte_put32, H1|set_solver].
    + apply (dir_ext [t] (km_mem s)); try done. apply Hd.
  - eapply changed_weaken; [exact Hc|set_solver].
  - intros q. unfold pte. destruct (T !! (q / 1024)) as [t2|] eqn:E2.
    + destruct (decide (q = n)) as [->|Hne]; [rewrite Et in E2; injection E2 as ->; apply get32_put32|].
      destruct (decide (t2 = t)) as [->|Htt].
      * unfold m'. apply get32_put32_other. pose proof (tabs_inj T _ _ t Hnt Et E2) as Hi.
        pose proof (Z.div_mod q 1024 ltac:(done)). pose proof (Z.div_mod n 1024 ltac:(done)). lia.
      * apply (changed_word [t]); try done; [|set_solver|by apply Z.mod_pos_bound]. destruct (Ht t2) as [[? _] _]; [apply elem_tabs; eauto|done].
    + destruct (decide (q = n)) as [->|]; [by rewrite Et in E2|done].
Qed.

Lemma lor_present f : 0 <= f < PGSIZE -> 0 <= Z.lor f PTE_P < PGSIZE /\ Z.odd (Z.lor f PTE_P) = true.
Proof using Type.
  intros Hf. split; [|by rewrite <-Z.bit0_odd, Z.lor_spec, orb_true_r]. change PTE_P with 1. change PGSIZE with (2 ^ 12) in *.
  assert (0 <= Z.lor f 1) by (apply Z.lor_nonneg; lia). split; [done|]. destruct (decide (Z.lor f 1 = 0)) as [->|]; [done|].
  apply Z.log2_lt_pow2; [lia|]. rewrite Z.log2_lor by lia. apply Z.max_lub_lt; [|done].
  destruct (decide (f = 0)) as [->|]; [done|]. apply Z.log2_lt_pow2; lia.
Qed.

(** [k] pages from virtual page [n] on; when the memory for tables runs out the first [j] are
    mapped. *)
Lemma mappages_from_spec k s pgdir T R xs n pa perm : (0 < k)%nat -> vmst s pgdir T R xs -> 0 <= n -> n + Z.of_nat k <= 2 ^ 20 ->
  pa mod PGSIZE = 0 -> 0 <= pa -> pa + Z.of_nat k * PGSIZE <= 2 ^ 32 -> 0 <= perm < PGSIZE ->
  (forall q, n <= q < n + Z.of_nat k -> pte (km_mem s) T q = 0) ->
  wp (mappages_from me k pgdir (vpage n) (vpage (n + Z.of_nat k - 1)) pa perm) (fun r s' => exists T' xs' j, 0 <= j <= Z.of_nat k /\
    vmst s' pgdir T' R xs' /\ grew T xs T' xs' /\ tabs_within (n / 1024) ((n + Z.of_nat k - 1) / 1024) T T' /\
    changed_in (pgdir :: tabs T') (km_mem s) (km_mem s') /\ r = (if decide (j = Z.of_nat k) then 0 else -1) /\ (j < Z.of_nat k -> xs' = []) /\
    forall q, pte (km_mem s') T' q = if decide (n <= q < n + j) then pa + (q - n) * PGSIZE + Z.lor perm PTE_P else pte (km_mem s) T q) s.
Proof using kend_high.
  intros Hk. revert s T xs n pa. induction k as [|k IH]; [lia|]. intros s T xs n pa H H0 Hn Hal Hpa Hpb Hperm Hfree. cbn [mappages_from]. wp_step.
  destruct (lor_present perm Hperm) as [Hlr Hlo]. apply (walk_alloc s pgdir T R xs n); [done|lia| |].
  { intros s' H' Em ->. rewrite Z.eqb_refl. wp_step. exists T, [], 0. rewrite Em. split_and!; [lia|lia|done|apply grew_refl|by intros ? ?; left|apply changed_refl| |done|].
    - by destruct (decide _); [lia|].
    - intros q. by destruct (decide _); [lia|]. }
  intros s1 T1 xs1 t H1 Et G1 W1 C1 P1. destruct (vmst_parts _ _ _ _ _ H1) as (_ & _ & _ & _ & _ & Ht1 & _).
  destruct (Ht1 t) as [Hpt _]; [apply elem_tabs; eauto|]. destruct (page_index n) as [_ Hj]; [lia|].
  destruct (Hpt) as [_ Htr]. destruct (Z.eqb_spec (t + 4 * (n mod 1024)) 0); [unfold KERNBASE in *; lia|]. unfold ldw. do 2 wp_step.
  assert (E0 : get32 (km_mem s1) (t + 4 * (n mod 1024)) = 0).
  { pose proof (P1 n) as E. unfold pte in E at 1. rewrite Et in E. rewrite E. apply Hfree. lia. }
  rewrite E0. wp_step. apply wp_panic_if; [done|]. cbn beta. unfold stw. do 2 wp_step.
  rewrite <-Z.lor_assoc, (page_lor pa (Z.lor perm PTE_P) Hal Hlr). destruct (set_pte s1 pgdir T1 R xs1 n t (pa + Z.lor perm PTE_P) H1 ltac:(lia) Et) as (HV2 & C2 & P2).
  rewrite u32_small in P2 by (unfold PGSIZE in *; lia).
  assert (C12 : changed_in (pgdir :: tabs T1) (km_mem s) (put32 (km_mem s1) (t + 4 * (n mod 1024)) (pa + Z.lor perm PTE_P))).
  { eapply changed_trans; [exact C1|]. eapply changed_weaken; [exact C2|]. intros. by right. }
  set (s2 := set_mem _ s1) in *. destruct k as [|k].
  - replace (n + Z.of_nat 1 - 1) with n by lia. rewrite Z.eqb_refl. wp_step. exists T1, xs1, 1. split_and!; try done.
    intros q. change (km_mem s2) with (put32 (km_mem s1) (t + 4 * (n mod 1024)) (pa + Z.lor perm PTE_P)). rewrite P2, P1.
    destruct (decide (q = n)) as [->|]; [rewrite decide_True by lia; lia|by rewrite decide_False by lia].
  - destruct (Z.eqb_spec (vpage n) (vpage (n + Z.of_nat (S (S k)) - 1))); [unfold vpage, PGSIZE in *; lia|].
    replace (u32 (vpage n + PGSIZE)) with (vpage (n + 1)) by (rewrite u32_small; unfold vpage, PGSIZE in *; lia).
    rewrite (u32_small (pa + PGSIZE)) by (unfold PGSIZE in *; lia).
    replace (n + Z.of_nat (S (S k)) - 1) with (n + 1 + Z.of_nat (S k) - 1) by lia.
    eapply wp_mono; [apply (IH ltac:(lia) s2 T1 xs1 (n + 1) (pa + PGSIZE)); try done; try (unfold PGSIZE in *; lia)|].
    + by rewrite Zplus_mod, Hal.
    + intros q Hq. change (km_mem s2) with (put32 (km_mem s1) (t + 4 * (n mod 1024)) (pa + Z.lor perm PTE_P)).
      rewrite P2, decide_False, P1 by lia. apply Hfree. lia.
    + cbn beta. intros r s3 (T3 & xs3 & j & Hjr & H3 & G3 & W3 & C3 & Hr & Hx & P3). exists T3, xs3, (j + 1). split_and!; [lia|lia|done|by eapply grew_trans| | | | |].
      * apply (tabs_within_trans _ _ (n / 1024) ((n + 1 + Z.of_nat (S k) - 1) / 1024) T T1 T3); [|eapply tabs_within_weaken; [exact W3|..]|..]; [eapply tabs_within_weaken; [exact W1|..]|..];
          try lia; apply Z.div_le_mono; lia.
      * eapply changed_trans; [eapply changed_weaken; [exact C12|]|exact C3]. intros v [->|Hv]%elem_of_cons; [by left|right].
        apply elem_tabs in Hv as (i & Hi). apply elem_tabs. exists i. by apply (lookup_weaken T1 T3), G3.
      * rewrite Hr. destruct (decide (j = _)), (decide (j + 1 = _)); lia.
      * intros. apply Hx. lia.
      * intros q. rewrite P3. change (km_mem s2) with (put32 (km_mem s1) (t + 4 * (n mod 1024)) (pa + Z.lor perm PTE_P)).
        destruct (decide (n + 1 <= q < n + 1 + j)); [rewrite decide_True by lia; unfold PGSIZE; lia|]. rewrite P2, P1.
        destruct (decide (q = n)) as [->|]; [rewrite decide_True by lia; lia|by rewrite decide_False by lia].
Qed.

Lemma vpage_aligned n : vpage n mod PGSIZE = 0.
Proof using Type. unfold vpage. by apply Z.mod_mul. Qed.
Lemma rounddown_vpage n b : 0 <= n < 2 ^ 20 -> 0 <= b < PGSIZE -> PGROUNDDOWN (vpage n + b) = vpage n.
Proof using Type.
  intros Hn Hb. unfold PGROUNDDOWN. rewrite land_pgmask by (unfold vpage, PGSIZE in *; lia).
  rewrite Zplus_mod, vpage_aligned, Z.add_0_l, Zmod_mod, (Z.mod_small b) by done. lia.
Qed.

(** [mappages] of [k] whole pages. *)
Lemma mappages_pages k pgdir n pa perm : (0 < k)%nat -> 0 <= n -> n + Z.of_nat k <= 2 ^ 20 ->
  mappages me pgdir (vpage n) (u32 (vpage (Z.of_nat k))) pa perm = mappages_from me k pgdir (vpage n) (vpage (n + Z.of_nat k - 1)) pa perm.
Proof using Type.
  intros Hk Hn Hb. unfold mappages. assert (El : PGROUNDDOWN (u32 (vpage n + u32 (vpage (Z.of_nat k)) - 1)) = vpage (n + Z.of_nat k - 1)).
  { replace (vpage n + u32 (vpage (Z.of_nat k)) - 1) with (u32 (vpage (Z.of_nat k)) + (vpage n - 1)) by lia. rewrite u32_add_l.
    replace (vpage (Z.of_nat k) + (vpage n - 1)) with (vpage (n + Z.of_nat k - 1) + (PGSIZE - 1)) by (unfold vpage, PGSIZE; lia).
    rewrite u32_small by (unfold vpage, PGSIZE; lia). apply rounddown_vpage; [lia|done]. }
  rewrite El. pose proof (rounddown_vpage n 0 ltac:(lia) ltac:(done)) as Er. rewrite Z.add_0_r in Er. rewrite Er. f_equal.
  rewrite u32_small by (unfold vpage, PGSIZE; lia).
  replace (vpage (n + Z.of_nat k - 1) - vpage n) with ((Z.of_nat k - 1) * PGSIZE) by (unfold vpage; lia). rewrite Z.div_mul by done. lia.
Qed.

(** The same tree with the other pages and the free pages exchanged or written. *)
Lemma vmst_trade W s s' pgdir T R xs R' xs' : vmst s pgdir T R xs -> free_pages s' xs' -> R ++ xs ≡ₚ R' ++ xs' ->
  changed_in W (km_mem s) (km_mem s') -> (forall v, v ∈ W -> v ∈ R ++ xs) ->
  vmst s' pgdir T R' xs' /\ forall n, pte (km_mem s') T n = pte (km_mem s) T n.
Proof using Type.
  intros H Hf Hp Hc HW. destruct (vmst_parts _ _ _ _ _ H) as (Hd & _ & Hdr & Hdx & _ & Ht & Hr & Hx). destruct H as [H1 H2 H3 H4].
  assert (HWp : Forall page_ok W) by (apply Forall_forall; intros v [Hv|Hv]%HW%elem_of_app; [by apply Hr|by apply Hx]).
  split; [split; try done|].
  - apply (dir_ext W (km_mem s)); try done; [apply Hd|]. by intros [?|?]%HW%elem_of_app.
  - by rewrite <-Hp.
  - by rewrite <-Hp.
  - intros n. apply (pte_ext W); try done. intros t Hin. destruct (Ht t Hin) as ([? _] & Htr & Htx). split; [done|]. by intros [?|?]%HW%elem_of_app.
Qed.

(** A directory has at most 1024 tables. *)
Lemma tabs_bound s pgdir T R xs : vmst s pgdir T R xs -> (length (tabs T) <= Z.to_nat NPDENTRIES)%nat.
Proof using Type.
  clear kend_high. intros H. unfold tabs. rewrite length_fmap, length_map_to_list, <-size_dom, <-(length_seqZ 0 NPDENTRIES), <-(size_list_to_set (C := gset Z)) by apply NoDup_seqZ.
  apply subseteq_size. intros i [t Ht]%elem_of_dom. apply elem_of_list_to_set, elem_of_seqZ. apply (dr_tab _ _ _ (vm_dir _ _ _ _ _ H) i t Ht).
Qed.
End tables.
