(* ===== verification/VmSpace.v ===== *)
(** User address spaces: which page holds each user page, and the specifications of the
    routines of vm.c that grow, shrink, free and copy one. *)

From stdpp Require Import base tactics numbers option list gmap sets strings.
From Stdlib Require Import ZArith Lia.
From S2P Require Import Prelude ProcDefs Spinlock CString Kernel Memory Kalloc Vm VmFacts.

(** The virtual pages below [KERNBASE]. *)
Definition UPAGES : Z := 2 ^ 19.
(** The pages that [sz] bytes need. *)
Definition pgs (sz : Z) : Z := (sz + PGSIZE - 1) / PGSIZE.

Lemma pgs_spec n sz : vpage n < sz <-> n < pgs sz.
Proof.
  unfold vpage, pgs. pose proof (Z.div_mod (sz + PGSIZE - 1) PGSIZE ltac:(done)). pose proof (Z.mod_pos_bound (sz + PGSIZE - 1) PGSIZE ltac:(done)).
  unfold PGSIZE in *. lia.
Qed.
Lemma pgs_range sz : 0 <= sz <= KERNBASE -> 0 <= pgs sz <= UPAGES.
Proof.
  intros. unfold pgs, UPAGES. split; [apply Z.div_pos; unfold PGSIZE; lia|].
  apply Z.lt_succ_r, Z.div_lt_upper_bound; unfold PGSIZE, KERNBASE in *; lia.
Qed.
Lemma pgs_mono a b : a <= b -> pgs a <= pgs b.
Proof. intros. apply Z.div_le_mono; [done|lia]. Qed.
Lemma roundup_pgs sz : 0 <= sz <= KERNBASE -> PGROUNDUP sz = vpage (pgs sz).
Proof.
  intros H. unfold PGROUNDUP. rewrite u32_small by (unfold KERNBASE, PGSIZE in *; lia).
  rewrite land_pgmask by (unfold KERNBASE, PGSIZE in *; lia). unfold vpage, pgs. rewrite Z.mod_eq by done. lia.
Qed.

Section space.
Context (me : nat) (kend : Z) (kend_high : KERNBASE < kend).
Local Abbreviation page_ok := (page_ok kend).
Local Abbreviation free_pages := (free_pages kend).
Local Abbreviation vmst := (vmst kend).

(** [U] gives the page and the flags of each user page. *)
Definition frames (U : gmap Z (Z * Z)) : list Z := (fun x => x.2.1) <$> map_to_list U.
Definition upte (pf : Z * Z) : Z := V2P pf.1 + pf.2.
Record space (s : kmem) (pgdir : Z) (T : gmap Z Z) (U : gmap Z (Z * Z)) (R xs : list Z) : Prop := {
  sp_st : vmst s pgdir T (frames U ++ R) xs;
  sp_dom : forall n pf, U !! n = Some pf -> 0 <= n < UPAGES /\ 0 <= pf.2 < PGSIZE /\ Z.odd pf.2 = true;
  sp_pte : forall n, 0 <= n < UPAGES -> pte (km_mem s) T n = default 0 (upte <$> U !! n)
}.
(** The entries of the kernel part are the same. *)
Definition same_kernel (m : mem) (T : gmap Z Z) (m' : mem) (T' : gmap Z Z) : Prop :=
  forall n, UPAGES <= n < 2 ^ 20 -> pte m' T' n = pte m T n.

Lemma elem_frames U p : p ∈ frames U <-> exists n f, U !! n = Some (p, f).
Proof using Type.
  unfold frames. rewrite list_elem_of_fmap. split.
  - intros ([n [q f]] & -> & H%elem_of_map_to_list). by exists n, f.
  - intros (n & f & H). exists (n, (p, f)). split; [done|]. by apply elem_of_map_to_list.
Qed.
Lemma frames_insert U n p f : U !! n = None -> frames (<[n := (p, f)]> U) ≡ₚ p :: frames U.
Proof using Type. intros H. unfold frames. by rewrite map_to_list_insert. Qed.
Lemma frames_delete U n p f : U !! n = Some (p, f) -> frames U ≡ₚ p :: frames (delete n U).
Proof using Type. intros H. rewrite <-(frames_insert (delete n U) n p f) by apply lookup_delete_eq. by rewrite insert_delete_id. Qed.

Lemma space_frame s pgdir T U R xs n p f : space s pgdir T U R xs -> U !! n = Some (p, f) ->
  page_ok p /\ p ∉ xs /\ p ∉ R /\ p <> pgdir /\ p ∉ tabs T.
Proof using kend_high.
  intros H Hn. destruct (vmst_parts _ _ _ _ _ _ (sp_st _ _ _ _ _ _ H)) as (_ & _ & Hd & _ & _ & Ht & Hr & _).
  assert (Hin : p ∈ frames U) by (apply elem_frames; eauto). destruct (Hr p) as [Hp Hx]; [set_solver|].
  split_and!; try done.
  - destruct (sp_st _ _ _ _ _ _ H) as [_ _ Hnd _]. apply NoDup_cons in Hnd as [_ Hnd]. apply NoDup_app in Hnd as (_ & _ & Hnd).
    rewrite <-(assoc_L (++)) in Hnd. apply NoDup_app in Hnd as (_ & Hnd & _). intros HR. apply (Hnd p Hin). set_solver.
  - intros ->. set_solver.
  - intros Hpt. destruct (Ht p Hpt) as (_ & Hn' & _). set_solver.
Qed.

(** A user entry is present and names its page. *)
Lemma upte_facts p f : page_ok p -> 0 <= f < PGSIZE -> Z.odd f = true ->
  present (upte (p, f)) = true /\ PTE_ADDR (upte (p, f)) = V2P p /\ PTE_FLAGS (upte (p, f)) = f /\
  V2P p <> 0 /\ P2V (V2P p) = p /\ V2P p mod PGSIZE = 0 /\ 0 <= V2P p /\ V2P p + PGSIZE <= 2 ^ 32 /\ 0 <= upte (p, f) < 2 ^ 32.
Proof using kend_high.
  intros Hp Hf Ho. pose proof (V2P_page kend kend_high p Hp) as E. destruct Hp as [Hal Hr]. unfold upte. cbn [fst snd]. rewrite E.
  assert (Ha : (p - KERNBASE) mod PGSIZE = 0) by (rewrite Zminus_mod, Hal; done).
  destruct (pte_split (p - KERNBASE) f Ha) as [E1 E2]; [unfold KERNBASE, PHYSTOP, PGSIZE in *; lia..|]. rewrite E1, E2, present_odd, page_odd by done.
  split_and!; try done; try (unfold KERNBASE, PHYSTOP, PGSIZE in *; lia).
  unfold P2V. rewrite u32_small by (unfold KERNBASE, PHYSTOP in *; lia). lia.
Qed.

(** A page that is mapped has a table. *)
Lemma mapped_table s pgdir T U R xs n pf : space s pgdir T U R xs -> U !! n = Some pf -> is_Some (T !! (n / 1024)).
Proof using kend_high.
  destruct pf as [p f]. intros H Hn. destruct (sp_dom _ _ _ _ _ _ H n _ Hn) as (Hnr & Hf & Ho). destruct (space_frame _ _ _ _ _ _ _ _ _ H Hn) as (Hp & _).
  destruct (upte_facts p f Hp Hf Ho) as (Hpr & _). pose proof (sp_pte _ _ _ _ _ _ H n Hnr) as Ep. unfold pte in Ep. rewrite Hn in Ep. cbn in Ep.
  destruct (T !! (n / 1024)); [done|]. by rewrite <-Ep in Hpr.
Qed.

(** * Shrinking *)

(** The page of one user page goes back to the allocator. *)
Lemma unmap_page s pgdir T U R xs n p f t s1 next : space s pgdir T U R xs -> U !! n = Some (p, f) -> T !! (n / 1024) = Some t ->
  free_pages s1 (p :: xs) -> km_mem s1 = freed_mem (km_mem s) p next ->
  let s2 := set_mem (put32 (km_mem s1) (t + 4 * (n mod 1024)) 0) s1 in
  space s2 pgdir T (delete n U) R (p :: xs) /\ changed_in (tabs T ++ [p]) (km_mem s) (km_mem s2) /\
  same_kernel (km_mem s) T (km_mem s2) T.
Proof using kend_high.
  intros H Hn Et Hf Em s2. destruct (sp_dom _ _ _ _ _ _ H n (p, f) Hn) as [Hnr _].
  assert (Hp : p ∈ frames U) by (apply elem_frames; eauto).
  assert (C1 : changed_in [p] (km_mem s) (km_mem s1)) by (rewrite Em; apply changed_free).
  destruct (vmst_trade kend [p] s s1 pgdir T (frames U ++ R) xs (frames (delete n U) ++ R) (p :: xs)) as [H1 P1]; try done.
  { apply (sp_st _ _ _ _ _ _ H). }
  { rewrite (frames_delete U n p f) by done. solve_Permutation. }
  { set_solver. }
  destruct (set_pte kend kend_high s1 pgdir T _ _ n t 0 H1) as (H2 & C2 & P2); [unfold UPAGES in *; lia|done|]. split; [split|split].
  - exact H2.
  - intros k pf [? Hk]%lookup_delete_Some. by apply (sp_dom _ _ _ _ _ _ H).
  - intros k Hk. change (km_mem s2) with (put32 (km_mem s1) (t + 4 * (n mod 1024)) 0). rewrite P2, P1. destruct (decide (k = n)) as [->|Hne].
    + by rewrite lookup_delete_eq.
    + rewrite lookup_delete_ne by done. by apply (sp_pte _ _ _ _ _ _ H).
  - eapply changed_trans; eapply changed_weaken; [exact C1| |exact C2|]; set_solver.
  - intros k Hk. change (km_mem s2) with (put32 (km_mem s1) (t + 4 * (n mod 1024)) 0). rewrite P2, P1. destruct (decide (k = n)); [lia|done].
Qed.

(** [U] without the pages from [lo] up to [hi]. *)
Definition cut (lo hi : Z) (U U' : gmap Z (Z * Z)) : Prop := forall q, U' !! q = if decide (lo <= q < hi) then None else U !! q.

Lemma cut_frames lo hi U U' p : cut lo hi U U' -> p ∈ frames U' -> p ∈ frames U.
Proof using Type. intros Hc (n & f & Hn)%elem_frames. rewrite Hc in Hn. destruct (decide _); [done|]. apply elem_frames. eauto. Qed.

(** The directory index after the one of page [n]. *)
Lemma next_table n : 0 <= n < UPAGES -> u32 (u32 (PGADDR (PDX (vpage n) + 1) 0 0 - PGSIZE) + PGSIZE) = vpage ((n / 1024 + 1) * 1024).
Proof using Type.
  intros Hn. assert (Hn' : 0 <= n < 2 ^ 20) by (unfold UPAGES in *; lia). destruct (vpage_index n Hn') as (_ & -> & _).
  assert (0 <= n / 1024 < 512) by (split; [apply Z.div_pos; lia|apply Z.div_lt_upper_bound; unfold UPAGES in *; lia]).
  rewrite u32_add_l. unfold PGADDR. rewrite Z.shiftl_0_l, !Z.lor_0_r, Z.shiftl_mul_pow2 by lia.
  rewrite (u32_small (_ * _)) by lia. rewrite Z.sub_add. rewrite u32_small by lia. unfold vpage, PGSIZE. lia.
Qed.

(** Without a table there is nothing to release up to the next one. *)
Lemma no_table_cut s pgdir T U R xs n lo hi U' : space s pgdir T U R xs -> T !! (n / 1024) = None -> lo = (n / 1024 + 1) * 1024 ->
  cut lo hi U U' -> cut n hi U U'.
Proof using kend_high.
  intros H Et -> Hc q. rewrite Hc. pose proof (Z.div_mod n 1024 ltac:(done)) as Hdm. pose proof (Z.mod_pos_bound n 1024 ltac:(done)).
  destruct (decide (_ <= q < _)); [by rewrite decide_True by lia|]. destruct (decide (n <= q < hi)); [|done].
  destruct (U !! q) as [pf|] eqn:Eq; [exfalso|done]. destruct (mapped_table _ _ _ _ _ _ q pf H Eq) as [t Et'].
  assert (Eqn : q / 1024 = n / 1024) by (symmetry; apply (Z.div_unique_pos _ _ _ (q - 1024 * (n / 1024))); lia).
  by rewrite Eqn, Et in Et'.
Qed.

(** What releasing the pages from [lo] to [hi] does: they are free, and memory changed only
    in the tables and in pages that are free now. *)
Definition released (lo hi pgdir : Z) (T : gmap Z Z) (U : gmap Z (Z * Z)) (R xs : list Z) (s s' : kmem) : Prop :=
  exists U' xs', space s' pgdir T U' R xs' /\ cut lo hi U U' /\ frames U' ++ xs' ≡ₚ frames U ++ xs /\ xs ⊆ xs' /\
    changed_in (tabs T ++ xs') (km_mem s) (km_mem s') /\ same_kernel (km_mem s) T (km_mem s') T.

Lemma released_page s pgdir T U R xs n hi p f s1 s2 : U !! n = Some (p, f) -> n < hi -> changed_in (tabs T ++ [p]) (km_mem s) (km_mem s1) ->
  same_kernel (km_mem s) T (km_mem s1) T -> released (n + 1) hi pgdir T (delete n U) R (p :: xs) s1 s2 -> released n hi pgdir T U R xs s s2.
Proof using kend_high.
  intros En Hhi C1 K1 (U' & xs' & H3 & Hc & Hperm & Hsub & C3 & K3). exists U', xs'. split_and!; [done| | | | |].
  - intros q. rewrite Hc. destruct (decide (q = n)) as [->|Hne]; [rewrite lookup_delete_eq, (decide_True (P := n <= n < _)) by lia; by destruct (decide _)|].
    rewrite lookup_delete_ne by done. destruct (decide (n + 1 <= q < _)), (decide (n <= q < _)); lia || done.
  - rewrite Hperm, (frames_delete U n p f En). solve_Permutation.
  - set_solver.
  - eapply changed_trans; [|exact C3]. eapply changed_weaken; [exact C1|]. set_solver.
  - intros k Hk. by rewrite (K3 k Hk), (K1 k Hk).
Qed.

Lemma deallocuvm_from_spec fuel pgdir oldsz R T : oldsz <= KERNBASE -> forall n s U xs, space s pgdir T U R xs -> 0 <= n ->
  pgs oldsz - n < Z.of_nat fuel -> 0 < Z.of_nat fuel ->
  wp (deallocuvm_from me kend fuel pgdir (vpage n) oldsz) (fun _ => released n (pgs oldsz) pgdir T U R xs s) s.
Proof using kend_high.
  intros Hold. induction fuel as [|fuel IH]; intros n s U xs H Hn Hf H0; [lia|]. cbn [deallocuvm_from]. pose proof (pgs_spec n oldsz) as Hp.
  destruct (Z.ltb_spec (vpage n) oldsz) as [Hlt|Hge].
  2:{ wp_step. exists U, xs. split_and!; try done; [|apply changed_refl]. intros q. by destruct (decide _); [lia|]. }
  assert (Hnu : 0 <= n < UPAGES) by (unfold vpage, UPAGES, KERNBASE, PGSIZE in *; lia).
  wp_step. eapply (walk_look me kend kend_high); [exact (sp_st _ _ _ _ _ _ H)|unfold UPAGES in *; lia|].
  pose proof (sp_pte _ _ _ _ _ _ H n Hnu) as Epte. unfold pte in Epte. destruct (T !! (n / 1024)) as [t|] eqn:Et.
  2:{ change (0 =? 0) with true. do 2 wp_step. rewrite next_table by done.
      pose proof (Z.div_mod n 1024 ltac:(done)). pose proof (Z.mod_pos_bound n 1024 ltac:(done)).
      eapply wp_mono; [apply (IH _ s U xs H); lia|]. cbn beta. intros _ s' (U' & xs' & ? & Hc & ?). exists U', xs'. split; [done|]. split; [by eapply no_table_cut|done]. }
  destruct (vmst_parts _ _ _ _ _ _ (sp_st _ _ _ _ _ _ H)) as (_ & _ & _ & _ & _ & Ht & _). destruct (Ht t) as [Hpt _]; [apply elem_tabs; eauto|].
  destruct (page_index n) as [_ Hj]; [unfold UPAGES in *; lia|]. pose proof Hpt as [_ Htr].
  destruct (Z.eqb_spec (t + 4 * (n mod 1024)) 0); [unfold KERNBASE in *; lia|].
  assert (Hnext : u32 (vpage n + PGSIZE) = vpage (n + 1)) by (rewrite u32_small; unfold vpage, UPAGES, PGSIZE in *; lia).
  unfold ldw. do 3 wp_step. rewrite Epte. destruct (U !! n) as [[p f]|] eqn:En; cbn [fmap option_fmap option_map from_option id].
  - destruct (space_frame _ _ _ _ _ _ _ _ _ H En) as (Hpo & Hpx & _).
    destruct (sp_dom _ _ _ _ _ _ H n _ En) as (_ & Hfr & Hfo). destruct (upte_facts p f Hpo Hfr Hfo) as (-> & -> & _ & Hnz & -> & _).
    do 2 wp_step. apply wp_panic_if; [by apply Z.eqb_neq|]. cbn beta. wp_step.
    eapply wp_mono; [apply (kfree_spec me kend kend_high p s xs (vm_free _ _ _ _ _ _ (sp_st _ _ _ _ _ _ H)) Hpo Hpx)|].
    cbn beta. intros [] s1 (Hf1 & _ & Em1). unfold stw. do 2 wp_step.
    destruct (unmap_page s pgdir T U R xs n p f t s1 _ H En Et Hf1 Em1) as (H2 & C2 & K2). rewrite Hnext.
    eapply wp_mono; [apply (IH (n + 1) _ (delete n U) (p :: xs) H2); lia|]. cbn beta. intros _ s'. apply (released_page s _ _ _ _ _ _ _ p f); [done|lia|exact C2|exact K2].
  - change (present 0) with false. wp_steps. rewrite Hnext.
    eapply wp_mono; [apply (IH (n + 1) s U xs H); lia|]. cbn beta. intros _ s' (U' & xs' & H3 & Hc & Hrest). exists U', xs'. split; [done|]. split; [|done].
    intros q. rewrite Hc. destruct (decide (q = n)) as [->|Hne]; [rewrite En; by destruct (decide _), (decide _)|].
    destruct (decide (n + 1 <= q < _)), (decide (n <= q < _)); lia || done.
Qed.

Lemma deallocuvm_spec s pgdir T U R xs oldsz newsz : space s pgdir T U R xs -> 0 <= newsz -> 0 <= oldsz <= KERNBASE ->
  wp (deallocuvm me kend pgdir oldsz newsz) (fun r s' => r = Z.min oldsz newsz /\ released (pgs newsz) (pgs oldsz) pgdir T U R xs s s') s.
Proof using kend_high.
  intros H Hnew Hold. unfold deallocuvm. destruct (Z.leb_spec oldsz newsz) as [Hle|Hlt].
  - wp_step. split; [lia|]. exists U, xs. split_and!; try done; [|apply changed_refl]. intros q. pose proof (pgs_mono _ _ Hle). by destruct (decide _); [lia|].
  - wp_step. rewrite roundup_pgs by lia. pose proof (pgs_range newsz ltac:(lia)). pose proof (Z.div_pos oldsz PGSIZE ltac:(lia) ltac:(done)).
    assert (pgs oldsz <= oldsz / PGSIZE + 1).
    { unfold pgs. replace (oldsz + PGSIZE - 1) with (oldsz - 1 + 1 * PGSIZE) by lia. rewrite Z.div_add by done.
      pose proof (Z.div_le_mono (oldsz - 1) oldsz PGSIZE ltac:(done) ltac:(lia)). lia. }
    eapply wp_mono; [apply (deallocuvm_from_spec _ pgdir oldsz R T ltac:(lia) _ s U xs H); lia|]. cbn beta. intros _ s' Hr. wp_step. split; [lia|done].
Qed.

(** * Freeing *)

(** The tables at index [i] and above. *)
Lemma free_tables k : forall i s T pgdir ys, i + Z.of_nat k = NPDENTRIES -> 0 <= i -> free_pages s ys ->
  (forall j t, T !! j = Some t -> i <= j < NPDENTRIES) ->
  (forall j, i <= j < NPDENTRIES -> get32 (km_mem s) (pgdir + 4 * j) = default 0 (pde_of <$> T !! j)) ->
  NoDup (pgdir :: tabs T ++ ys) -> Forall page_ok (pgdir :: tabs T) ->
  wp (for_each (free_table me kend pgdir) (seqZ i (Z.of_nat k))) (fun _ s' => exists ys', free_pages s' ys' /\ ys' ≡ₚ tabs T ++ ys /\
    changed_in (tabs T) (km_mem s) (km_mem s')) s.
Proof using kend_high.
  induction k as [|k IH]; intros i s T pgdir ys Hik Hi Hf Hdom Hpde Hnd Hok.
  - change (seqZ i (Z.of_nat 0)) with (@nil Z). cbn [for_each]. wp_step. exists ys. assert (T = ∅) as ->.
    { apply map_empty. intros j. destruct (T !! j) as [t|] eqn:E; [|done]. destruct (Hdom j t E). lia. }
    split_and!; [done|done|apply changed_refl].
  - rewrite seqZ_cons by lia. replace (Z.pred (Z.of_nat (S k))) with (Z.of_nat k) by lia. cbn [for_each]. wp_step. unfold free_table, ldw. do 2 wp_step.
    apply Forall_cons in Hok as Hok'. destruct Hok' as [Hpd Hpt]. pose proof (page_range kend kend_high pgdir Hpd).
    rewrite u32_small by (unfold NPDENTRIES, PGSIZE in *; lia). rewrite Hpde by lia. destruct (T !! i) as [t|] eqn:Ei; cbn [fmap option_fmap option_map from_option id].
    + assert (Eperm : tabs T ≡ₚ t :: tabs (delete i T)) by (rewrite <-(tabs_insert (delete i T) i t) by apply lookup_delete_eq; by rewrite insert_delete_id).
      rewrite Eperm in Hnd, Hpt. apply Forall_cons in Hpt as [Hto Hpt]. destruct (page_ok_pde kend kend_high t Hto) as (-> & -> & _).
      apply NoDup_cons in Hnd as [Hn1 Hnd]. cbn in Hn1, Hnd. apply NoDup_cons in Hnd as [Hn2 Hnd].
      eapply wp_mono; [apply (kfree_spec me kend kend_high t s ys Hf Hto); set_solver|]. cbn beta. intros [] s1 (Hf1 & _ & Em).
      assert (C1 : changed_in [t] (km_mem s) (km_mem s1)) by (rewrite Em; apply changed_free).
      eapply wp_mono; [apply (IH (i + 1) s1 (delete i T) pgdir (t :: ys)); try done; try lia|].
      * intros j t' [? Hj]%lookup_delete_Some. destruct (Hdom j t' Hj). lia.
      * intros j Hj. rewrite lookup_delete_ne by lia. rewrite <-Hpde by lia.
        apply (changed_word kend [t]); [done|all_pages|apply Hpd|set_solver|unfold NPDENTRIES in *; lia].
      * assert (Hp : pgdir :: tabs (delete i T) ++ t :: ys ≡ₚ pgdir :: t :: tabs (delete i T) ++ ys) by solve_Permutation.
        rewrite Hp. by repeat apply NoDup_cons_2.
      * by apply Forall_cons_2.
      * cbn beta. intros _ s2 (ys' & Hf2 & Hperm & C2). exists ys'. split; [done|]. split; [rewrite Hperm, Eperm; solve_Permutation|].
        eapply changed_trans; eapply changed_weaken; [exact C1| |exact C2|]; intros v; rewrite Eperm; set_solver.
    + apply wp_ret. eapply wp_mono; [apply (IH (i + 1) s T pgdir ys); try done; try lia|done].
      * intros j t Hj. destruct (Hdom j t Hj). split; [|done]. destruct (decide (i = j)) as [->|]; [by rewrite Ei in Hj|lia].
      * intros j Hj. apply Hpde. lia.
Qed.

Lemma frames_empty U : (forall q, U !! q = None) -> frames U = [].
Proof using Type. intros H. assert (U = ∅) as -> by by apply map_empty. done. Qed.

(** [freevm] gives back exactly the pages of the address space. *)
Lemma freevm_spec s pgdir T U R xs : space s pgdir T U R xs ->
  wp (freevm me kend pgdir) (fun _ s' => exists xs', free_pages s' xs' /\ xs' ≡ₚ pgdir :: tabs T ++ frames U ++ xs /\
    changed_in xs' (km_mem s) (km_mem s')) s.
Proof using kend_high.
  intros H. destruct (vmst_parts _ _ _ _ _ _ (sp_st _ _ _ _ _ _ H)) as (Hd & _). unfold freevm. wp_step.
  apply wp_panic_if; [apply Z.eqb_neq; by eapply page_nonzero|]. cbn beta. wp_step.
  eapply wp_mono; [apply (deallocuvm_spec s pgdir T U R xs KERNBASE 0 H); unfold KERNBASE; lia|]. cbn beta.
  intros _ s1 (_ & U1 & xs1 & H1 & Hcut & Hp1 & Hsub & C1 & _). assert (E1 : frames U1 = []).
  { apply frames_empty. intros q. rewrite Hcut. destruct (decide _) as [|Hn]; [done|]. destruct (U !! q) as [pf|] eqn:Eq; [|done].
    destruct (sp_dom _ _ _ _ _ _ H q pf Eq) as [Hq _]. exfalso. apply Hn. exact Hq. }
  rewrite E1 in Hp1. destruct (sp_st _ _ _ _ _ _ H1) as [F1 D1 N1 P1]. rewrite E1 in N1, P1. cbn [app] in *. wp_step.
  assert (NoDup (pgdir :: tabs T ++ xs1)) as Hnd.
  { apply (sublist_NoDup _ (pgdir :: tabs T ++ R ++ xs1)); [done|]. apply sublist_skip, sublist_app; [done|]. by apply sublist_inserts_l. }
  eapply wp_mono; [apply (free_tables 1024 0 s1 T pgdir xs1); try done|].
  - intros j t Hj. by apply (dr_tab _ _ _ D1 j t).
  - intros j Hj. by apply (dr_pde _ _ _ D1).
  - rewrite Forall_forall in *. intros v Hv. apply P1. set_solver.
  - cbn beta. intros _ s2 (ys & F2 & Hp2 & C2).
    eapply wp_mono; [apply (kfree_spec me kend kend_high pgdir s2 ys F2 Hd)|].
    { rewrite Hp2. by apply NoDup_cons in Hnd as [? _]. }
    cbn beta. intros _ s3 (F3 & _ & Em3). exists (pgdir :: ys). split; [done|]. split; [rewrite Hp2, Hp1; solve_Permutation|].
    eapply changed_trans; [eapply changed_weaken; [exact C1|]|eapply changed_trans; [eapply changed_weaken; [exact C2|]|]].
    + intros v Hv. right. by rewrite Hp2.
    + intros v Hv. right. rewrite Hp2. set_solver.
    + rewrite Em3. eapply changed_weaken; [apply changed_free|]. intros v ->%list_elem_of_singleton. by left.
Qed.

(** * Growing *)

(** Pages move between the free list and the pages held by the caller, and the caller's
    pages and the frames are written. *)
Lemma space_trade W s s' pgdir T U R xs R' xs' : space s pgdir T U R xs -> free_pages s' xs' -> R ++ xs ≡ₚ R' ++ xs' ->
  changed_in W (km_mem s) (km_mem s') -> (forall v, v ∈ W -> v ∈ frames U ++ R ++ xs) ->
  space s' pgdir T U R' xs' /\ forall n, pte (km_mem s') T n = pte (km_mem s) T n.
Proof using Type.
  intros [H1 H2 H3] Hf Hp Hc HW.
  destruct (vmst_trade kend W s s' pgdir T (frames U ++ R) xs (frames U ++ R') xs') as [H' P']; try done.
  { by rewrite <-!(assoc_L (++)), Hp. }
  { intros v Hv. rewrite <-(assoc_L (++)). by apply HW. }
  split; [|done]. split; [done|done|]. intros n Hn. rewrite P'. by apply H3.
Qed.

Lemma space_write W m' s pgdir T U R xs : space s pgdir T U R xs -> changed_in W (km_mem s) m' -> byte_mem m' ->
  (forall v, v ∈ W -> v ∈ frames U ++ R) -> space (set_mem m' s) pgdir T U R xs /\ forall n, pte m' T n = pte (km_mem s) T n.
Proof using Type.
  intros [H1 H2 H3] Hc Hb HW. destruct (vmst_write kend W m' s pgdir T (frames U ++ R) xs H1 Hc Hb HW) as [H' P'].
  split; [|done]. split; [done|done|]. intros n Hn. cbn [km_mem set_mem]. rewrite P'. by apply H3.
Qed.

Lemma space_byte s pgdir T U R xs : space s pgdir T U R xs -> byte_mem (km_mem s).
Proof using Type. intros [[[]]]. done. Qed.

(** [kalloc], for the caller. *)
Lemma take_page s pgdir T U R xs (Q : Z -> kmem -> Prop) : space s pgdir T U R xs ->
  (forall s', xs = [] -> space s' pgdir T U R [] -> km_mem s' = km_mem s -> Q 0 s') ->
  (forall s' x ys, xs = x :: ys -> page_ok x -> x <> 0 -> space s' pgdir T U (x :: R) ys -> km_mem s' = km_mem s -> Q x s') ->
  wp (kalloc me) Q s.
Proof using kend_high.
  intros H Hnone Hsome. eapply wp_mono; [apply (kalloc_spec me kend kend_high s xs), (vm_free _ _ _ _ _ _ (sp_st _ _ _ _ _ _ H))|]. cbn beta.
  intros r s' (Em & _ & Hr). destruct xs as [|x xs]; destruct Hr as [-> Hf].
  - apply Hnone; try done. eapply (space_trade []); [done|done|done|rewrite Em; apply changed_refl|set_solver].
  - destruct (vmst_parts _ _ _ _ _ _ (sp_st _ _ _ _ _ _ H)) as (_ & _ & _ & _ & _ & _ & _ & Hx).
    assert (Hpx : page_ok x) by (apply Hx; by left). eapply Hsome; try done; [by eapply page_nonzero|].
    eapply (space_trade []); [done|done|solve_Permutation|rewrite Em; apply changed_refl|set_solver].
Qed.

(** One user page. *)
Lemma map_page s pgdir T U R xs n p f : space s pgdir T U (p :: R) xs -> 0 <= n < UPAGES -> U !! n = None -> 0 <= f < PGSIZE ->
  wp (mappages me pgdir (vpage n) PGSIZE (V2P p) f) (fun r s' => exists T' xs', grew T xs T' xs' /\
    changed_in (pgdir :: tabs T') (km_mem s) (km_mem s') /\ same_kernel (km_mem s) T (km_mem s') T' /\ (r = -1 -> (length xs <= 1)%nat) /\
    ((r = 0 /\ space s' pgdir T' (<[n := (p, Z.lor f PTE_P)]> U) R xs') \/ (r = -1 /\ xs' = [] /\ space s' pgdir T' U (p :: R) xs'))) s.
Proof using kend_high.
  intros H Hn Hnone Hf. destruct (vmst_parts _ _ _ _ _ _ (sp_st _ _ _ _ _ _ H)) as (_ & _ & _ & _ & _ & _ & HR & _).
  destruct (HR p) as [Hp _]; [set_solver|]. destruct (lor_present f Hf) as [Hl Ho]. destruct (upte_facts p _ Hp Hl Ho) as (_ & _ & _ & _ & _ & Hal & H0 & Hb & _).
  change PGSIZE with (u32 (vpage (Z.of_nat 1))) at 1. rewrite mappages_pages by (unfold UPAGES in *; lia).
  eapply wp_mono; [apply (mappages_from_spec me kend kend_high 1 s pgdir T (frames U ++ p :: R) xs n (V2P p) f); try done; try (unfold UPAGES in *; lia)|].
  { apply H. }
  { intros q Hq. rewrite (sp_pte _ _ _ _ _ _ H) by lia. replace q with n by lia. by rewrite Hnone. }
  cbn beta. intros r s' (T' & xs' & j & Hj & H' & G & W & C & -> & Hx & P). exists T', xs'. split; [done|]. split; [done|]. split.
  { intros k Hk. rewrite P. destruct (decide _); [lia|done]. }
  split.
  { destruct (decide (j = Z.of_nat 1)); [done|]. intros _. rewrite Hx in G by lia. destruct G as [_ G%Permutation_length].
    apply tabs_within_length in W; [|apply Z.div_le_mono; lia]. replace (n + Z.of_nat 1 - 1) with n in W by lia. rewrite !length_app in G. cbn [length] in *. lia. }
  destruct (decide (j = Z.of_nat 1)) as [->|]; [left|right].
  - split; [done|]. split.
    + destruct H' as [A1 A2 A3 A4].
      assert (Hperm : pgdir :: tabs T' ++ (frames (<[n:=(p, Z.lor f PTE_P)]> U) ++ R) ++ xs' ≡ₚ pgdir :: tabs T' ++ (frames U ++ p :: R) ++ xs').
      { rewrite frames_insert by done. solve_Permutation. }
      split; [done|done|by rewrite Hperm|by rewrite Hperm].
    + intros k pf. destruct (decide (k = n)) as [->|Hne]; [rewrite lookup_insert_eq; by intros [= <-]|].
      rewrite lookup_insert_ne by done. apply (sp_dom _ _ _ _ _ _ H).
    + intros k Hk. rewrite P. destruct (decide (k = n)) as [->|Hne].
      * rewrite decide_True, lookup_insert_eq by lia. cbn. unfold upte. cbn. lia.
      * rewrite decide_False, lookup_insert_ne by lia. by apply (sp_pte _ _ _ _ _ _ H).
  - assert (j = 0) as -> by lia. split; [done|]. split; [apply Hx; lia|]. split; [done|apply (sp_dom _ _ _ _ _ _ H)|].
    intros k Hk. rewrite P, decide_False by lia. by apply (sp_pte _ _ _ _ _ _ H).
Qed.

(** [kfree] of a page of the caller. *)
Lemma drop_page s pgdir T U R xs p : space s pgdir T U (p :: R) xs ->
  wp (kfree me kend p) (fun _ s' => space s' pgdir T U R (p :: xs) /\ changed_in [p] (km_mem s) (km_mem s') /\ same_kernel (km_mem s) T (km_mem s') T) s.
Proof using kend_high.
  intros H. destruct (vmst_parts _ _ _ _ _ _ (sp_st _ _ _ _ _ _ H)) as (_ & _ & _ & _ & _ & _ & HR & _). destruct (HR p) as [Hp Hx]; [set_solver|].
  eapply wp_mono; [apply (kfree_spec me kend kend_high p s xs (vm_free _ _ _ _ _ _ (sp_st _ _ _ _ _ _ H)) Hp Hx)|]. cbn beta. intros _ s' (Hf & _ & Em).
  assert (C : changed_in [p] (km_mem s) (km_mem s')) by (rewrite Em; apply changed_free).
  destruct (space_trade [p] s s' pgdir T U (p :: R) xs R (p :: xs)) as [H' P']; try done; [solve_Permutation|set_solver|].
  split; [done|]. split; [done|]. intros k Hk. apply P'.
Qed.
End space.
