(* ===== verification/VmCopy.v ===== *)
(** Growing and copying address spaces, and writing into one: [allocuvm], [setupkvm],
    [copyuvm] and [copyout]. *)

From stdpp Require Import base tactics numbers option list gmap sets strings.
From Stdlib Require Import ZArith Lia.
From S2P Require Import Prelude ProcDefs Spinlock CString Kernel Memory Kalloc Vm VmFacts VmSpace.

Section copy.
Context (me : nat) (kend : Z) (kend_high : KERNBASE < kend).
Local Abbreviation page_ok := (page_ok kend).
Local Abbreviation free_pages := (free_pages kend).
Local Abbreviation space := (space kend).

Definition zeroed (m : mem) (p : Z) : Prop := forall a, in_page p a -> m a = 0.

Lemma zeroed_fill m p : zeroed (memset m p 0 PGSIZE) p.
Proof using Type.
  intros a [Ha Hb]. rewrite memset_bytes by done. by rewrite (proj2 (Z.leb_le _ _)), (proj2 (Z.ltb_lt _ _)) by lia.
Qed.

(** * allocuvm *)

(** User pages from [lo] to [hi] are new, zero and writable; the others are as they were. *)
Definition extended (lo hi : Z) (m : mem) (U U' : gmap Z (Z * Z)) : Prop := forall q,
  if decide (lo <= q < hi) then exists p, U' !! q = Some (p, 7) /\ zeroed m p else U' !! q = U !! q.

(** Growing changes the user pages from [U] to [U'] and accounts for all pages. *)
Definition regrown (pgdir : Z) (T : gmap Z Z) (U : gmap Z (Z * Z)) (R xs : list Z) (s s' : kmem) (P : gmap Z (Z * Z) -> Prop) (W : list Z) : Prop :=
  exists T' U' xs', space s' pgdir T' U' R xs' /\ T ⊆ T' /\ tabs T' ++ frames U' ++ xs' ≡ₚ tabs T ++ frames U ++ xs /\
    same_kernel (km_mem s) T (km_mem s') T' /\ P U' /\ changed_in W (km_mem s) (km_mem s').
(** Success: memory changed only in tables and pages that were free. *)
Definition grown_to (n hi pgdir : Z) (T : gmap Z Z) (U : gmap Z (Z * Z)) (R xs : list Z) (s s' : kmem) : Prop :=
  regrown pgdir T U R xs s s' (extended n hi (km_mem s') U) (pgdir :: tabs T ++ xs).
(** Failure: the pages from [lo] to [hi] are gone. *)
Definition undone (lo hi : Z) (W : list Z) (pgdir : Z) (T : gmap Z Z) (U : gmap Z (Z * Z)) (R xs : list Z) (s s' : kmem) : Prop :=
  regrown pgdir T U R xs s s' (cut lo hi U) W.

(** The failure exits of [allocuvm]. *)
Lemma alloc_undo s s1 pgdir T T1 U R xs xs1 lo hi oldsz newsz W : space s1 pgdir T1 U R xs1 -> T ⊆ T1 -> tabs T1 ++ xs1 ≡ₚ tabs T ++ xs ->
  same_kernel (km_mem s) T (km_mem s1) T1 -> changed_in W (km_mem s) (km_mem s1) ->
  lo = pgs oldsz -> hi = pgs newsz -> 0 <= oldsz -> 0 <= newsz <= KERNBASE ->
  (forall v, v ∈ tabs T ++ xs -> v ∈ W) -> (forall q p f, lo <= q < hi -> U !! q = Some (p, f) -> p ∈ W) ->
  wp (deallocuvm me kend pgdir newsz oldsz) (fun _ s' => undone lo hi W pgdir T U R xs s s') s1.
Proof using kend_high.
  intros H1 HT Hp K C -> -> Ho Hn HW HU. eapply wp_mono; [apply (deallocuvm_spec me kend kend_high s1 pgdir T1 U R xs1 newsz oldsz H1); lia|]. cbn beta.
  intros r s2 (_ & U2 & xs2 & H2 & Hcut & Hp2 & Hsub & C2 & K2). exists T1, U2, xs2. split; [done|]. split; [done|]. split; [|split].
  - rewrite Hp2. rewrite (Permutation_app_comm (frames U) xs), (Permutation_app_comm (frames U) xs1), !(assoc_L (++)), Hp. done.
  - intros k Hk. by rewrite (K2 k Hk), (K k Hk).
  - split; [done|]. eapply changed_trans; [exact C|]. eapply changed_weaken; [exact C2|].
    assert (HW1 : forall v, v ∈ tabs T1 ++ xs1 -> v ∈ W) by (intros v Hv; apply HW; by rewrite <-Hp).
    intros v [Hv|Hv]%elem_of_app; [apply HW1; set_solver|]. destruct (decide (v ∈ xs1)) as [Hx|Hx]; [apply HW1; set_solver|].
    assert (Hin : v ∈ frames U ++ xs1) by (rewrite <-Hp2; set_solver). apply elem_of_app in Hin as [Hin|]; [|done].
    apply elem_frames in Hin as (q & f & Hq). destruct (decide (pgs oldsz <= q < pgs newsz)) as [Hr|Hr]; [by eapply HU|exfalso].
    assert (v ∈ frames U2) by (apply elem_frames; exists q, f; by rewrite Hcut, decide_False).
    destruct (sp_st _ _ _ _ _ _ _ H2) as [_ _ Hnd _]. apply NoDup_cons in Hnd as [_ Hnd]. apply NoDup_app in Hnd as (_ & _ & Hnd).
    apply NoDup_app in Hnd as (_ & Hnd & _). apply (Hnd v); set_solver.
Qed.

(** A page that the caller holds is in no table, not free and in no frame. *)
Lemma held_page s pgdir T U p R xs : space s pgdir T U (p :: R) xs -> page_ok p /\ p <> pgdir /\ p ∉ tabs T /\ p ∉ xs /\ p ∉ frames U.
Proof using Type.
  clear kend_high. intros H. destruct (vmst_parts _ _ _ _ _ _ (sp_st _ _ _ _ _ _ _ H)) as (_ & _ & Hd & _ & _ & Ht & HR & _).
  destruct (HR p) as [Hp Hx]; [set_solver|]. split_and!; try done; [set_solver| |].
  - intros Hin. destruct (Ht p Hin) as (_ & Hn & _). set_solver.
  - destruct (sp_st _ _ _ _ _ _ _ H) as [_ _ Hnd _]. apply NoDup_cons in Hnd as [_ Hnd]. apply NoDup_app in Hnd as (_ & _ & Hnd).
    rewrite <-(assoc_L (++)) in Hnd. apply NoDup_app in Hnd as (_ & Hnd & _). intros Hin. apply (Hnd p Hin). set_solver.
Qed.

Lemma undone_drop lo hi W pgdir T U R p xs s s1 : p ∈ W -> undone lo hi W pgdir T U (p :: R) xs s s1 ->
  wp (kfree me kend p) (fun _ s' => undone lo hi W pgdir T U R (p :: xs) s s') s1.
Proof using kend_high.
  intros Hp (T' & U' & xs' & H & HT & Hperm & K & Hcut & C). eapply wp_mono; [apply (drop_page me kend kend_high s1 pgdir T' U' R xs' p H)|]. cbn beta.
  intros _ s2 (H2 & C2 & K2). exists T', U', (p :: xs'). split_and!; try done.
  - assert (E : tabs T' ++ frames U' ++ p :: xs' ≡ₚ p :: tabs T' ++ frames U' ++ xs') by solve_Permutation. rewrite E, Hperm. solve_Permutation.
  - intros k Hk. by rewrite (K2 k Hk), (K k Hk).
  - eapply changed_trans; [exact C|]. eapply changed_weaken; [exact C2|]. by intros v ->%list_elem_of_singleton.
Qed.

(** Weakening a suffix of the loop to the whole of it, after one page was added. *)
Lemma regrown_step pgdir T U R xs s T1 U1 xs1 s1 s2 P P' W W' : T ⊆ T1 -> tabs T1 ++ frames U1 ++ xs1 ≡ₚ tabs T ++ frames U ++ xs ->
  same_kernel (km_mem s) T (km_mem s1) T1 -> changed_in W' (km_mem s) (km_mem s1) -> (forall v, v ∈ W -> v ∈ W') -> (forall V, P V -> P' V) ->
  regrown pgdir T1 U1 R xs1 s1 s2 P W -> regrown pgdir T U R xs s s2 P' W'.
Proof using Type.
  intros HT Hp K C HW HP (T2 & U2 & xs2 & H2 & HT2 & Hp2 & K2 & HU2 & C2). exists T2, U2, xs2. split_and!; [done|by etrans|by rewrite Hp2| |auto|].
  - intros k Hk. by rewrite (K2 k Hk), (K k Hk).
  - eapply changed_trans; [exact C|]. by eapply changed_weaken.
Qed.

(** Page [x] was added at [n] and the loop went on from there. *)
Lemma grown_step n hi pgdir T U R xs s T3 x xs3 s3 s4 : n < hi -> let U3 := <[n := (x, 7)]> U in space s3 pgdir T3 U3 R xs3 -> zeroed (km_mem s3) x ->
  T ⊆ T3 -> tabs T3 ++ frames U3 ++ xs3 ≡ₚ tabs T ++ frames U ++ xs -> same_kernel (km_mem s) T (km_mem s3) T3 ->
  changed_in (pgdir :: tabs T ++ xs) (km_mem s) (km_mem s3) -> (forall v, v ∈ tabs T3 ++ xs3 -> v ∈ tabs T ++ xs) ->
  grown_to (n + 1) hi pgdir T3 U3 R xs3 s3 s4 -> grown_to n hi pgdir T U R xs s s4.
Proof using kend_high.
  intros Hhi U3 H3 Hz HT Hperm K C Hsub (T4 & U4 & xs4 & H4 & HT4 & Hp4 & K4 & E4 & C4).
  eapply (regrown_step pgdir T U R xs s T3 U3 xs3 s3 s4 (extended n hi (km_mem s4) U) _ (pgdir :: tabs T3 ++ xs3)); try done.
  { intros v [->|Hv]%elem_of_cons; [by left|]. right. by apply Hsub. }
  exists T4, U4, xs4. split_and!; try done. intros q. specialize (E4 q). destruct (decide (q = n)) as [->|Hne].
  - rewrite decide_True by lia. rewrite decide_False in E4 by lia. exists x. rewrite E4. split; [apply lookup_insert_eq|]. intros a Ha.
    destruct (space_frame kend kend_high _ _ _ _ _ _ n x 7 H3) as ([Hal _] & Hx3 & _ & Hxd & Hxt); [apply lookup_insert_eq|].
    rewrite (changed_page kend (pgdir :: tabs T3 ++ xs3) (km_mem s3) (km_mem s4) x a); try done; [by apply Hz| |set_solver].
    destruct (sp_st _ _ _ _ _ _ _ H3) as [_ _ _ Hall]. rewrite Forall_forall in *. intros v Hv. apply Hall. set_solver.
  - unfold U3 in E4. rewrite lookup_insert_ne in E4 by done. destruct (decide (n + 1 <= q < hi)), (decide (n <= q < hi)); try lia; done.
Qed.

Lemma allocuvm_from_spec fuel pgdir oldsz newsz R W lo hi : lo = pgs oldsz -> hi = pgs newsz -> 0 <= oldsz -> 0 <= newsz < KERNBASE ->
  forall n s T U xs, space s pgdir T U R xs -> lo <= n -> hi - n < Z.of_nat fuel -> 0 < Z.of_nat fuel ->
  (forall q, n <= q < hi -> U !! q = None) -> (forall v, v ∈ pgdir :: tabs T ++ xs -> v ∈ W) ->
  (forall q p f, lo <= q < hi -> U !! q = Some (p, f) -> p ∈ W) ->
  wp (allocuvm_from me kend fuel pgdir (vpage n) oldsz newsz) (fun r s' =>
    (r = newsz /\ grown_to n hi pgdir T U R xs s s') \/
    (r = 0 /\ undone lo hi W pgdir T U R xs s s' /\ Z.of_nat (length (tabs T) + length xs) <= NPDENTRIES + (hi - n))) s.
Proof using kend_high.
  intros Hlo Hhi Ho Hnew. assert (H0lo : 0 <= lo) by (subst lo; unfold pgs; apply Z.div_pos; unfold PGSIZE; lia).
  induction fuel as [|fuel IH]; intros n s T U xs H Hn Hf H0 Hfree HW HU; [lia|]. cbn [allocuvm_from].
  pose proof (pgs_spec n newsz) as Hpg. destruct (Z.ltb_spec (vpage n) newsz) as [Hlt|Hge].
  2:{ wp_step. left. split; [done|]. exists T, U, xs. split_and!; try done; [|apply changed_refl]. intros q. by destruct (decide _); [lia|]. }
  assert (Hnu : 0 <= n < UPAGES) by (unfold vpage, UPAGES, KERNBASE, PGSIZE in *; lia).
  wp_step. eapply (take_page me kend kend_high); [exact H| |].
  { intros s1 -> H1 Em. rewrite Z.eqb_refl. wp_step.
    eapply wp_mono; [eapply (alloc_undo s s1 pgdir T T U R [] [] lo hi oldsz newsz W); try done; try lia|].
    - intros k Hk. by rewrite Em.
    - rewrite Em. apply changed_refl.
    - intros v Hv. apply HW. by right.
    - cbn beta. intros _ s2 Hu. wp_step. right. pose proof (tabs_bound _ _ _ _ _ _ (sp_st _ _ _ _ _ _ _ H)). split_and!; [done|done|]. cbn [length]. unfold NPDENTRIES in *. lia. }
  intros s1 x ys -> Hpx Hx0 H1 Em. rewrite (proj2 (Z.eqb_neq _ _) Hx0). unfold fill. do 3 wp_step. rewrite Em.
  destruct (space_write kend [x] (memset (km_mem s) x 0 PGSIZE) s1 pgdir T U (x :: R) ys H1) as [H2 P2];
    [rewrite Em; apply changed_fill|apply byte_memset; [done|by eapply space_byte]|set_solver|].
  assert (HWx : forall v, v ∈ tabs T ++ x :: ys -> v ∈ W) by (intros v Hv; apply HW; by right). assert (HxW : x ∈ W) by (apply HWx; set_solver).
  set (s2 := set_mem (memset (km_mem s) x 0 PGSIZE) s1) in *.
  eapply wp_mono; [eapply (map_page me kend kend_high s2 pgdir T U R ys n x (Z.lor PTE_W PTE_U) H2 Hnu (Hfree n ltac:(lia)))|]; [done|]. cbn beta.
  intros r s3 (T3 & xs3 & [G1 G2] & C3 & K3 & _ & Hr).
  assert (K : same_kernel (km_mem s) T (km_mem s3) T3) by (intros k Hk; rewrite (K3 k Hk), <-Em; apply P2).
  assert (Htabs : forall v, v ∈ tabs T3 ++ xs3 -> v ∈ tabs T ++ ys) by (intros v; by rewrite G2).
  assert (C : changed_in (pgdir :: tabs T ++ x :: ys) (km_mem s) (km_mem s3)).
  { eapply changed_trans; eapply changed_weaken; [apply changed_fill| |exact C3|]; [set_solver|]. intros v [->|Hv]%elem_of_cons; [by left|]. specialize (Htabs v). set_solver. }
  destruct Hr as [[-> H3]|(-> & -> & H3)].
  - change (0 <? 0) with false. replace (u32 (vpage n + PGSIZE)) with (vpage (n + 1)) by (rewrite u32_small; unfold vpage, UPAGES, PGSIZE in *; lia).
    change (Z.lor (Z.lor PTE_W PTE_U) PTE_P) with 7 in H3. set (U3 := <[n := (x, 7)]> U) in *.
    assert (Hperm : tabs T3 ++ frames U3 ++ xs3 ≡ₚ tabs T ++ frames U ++ x :: ys).
    { unfold U3. rewrite frames_insert by (apply Hfree; lia). trans (x :: frames U ++ tabs T3 ++ xs3); [solve_Permutation|]. rewrite G2. solve_Permutation. }
    destruct (space_frame kend kend_high _ _ _ _ _ _ n x 7 H3) as (_ & Hx3 & _ & Hxd & Hxt); [apply lookup_insert_eq|].
    assert (Hz : zeroed (km_mem s3) x).
    { intros a Ha. rewrite (changed_page kend (pgdir :: tabs T3) (km_mem s2) (km_mem s3) x a); try done; [by apply zeroed_fill| |apply Hpx|set_solver].
      destruct (sp_st _ _ _ _ _ _ _ H3) as [_ _ _ Hall]. rewrite Forall_forall in *. intros v Hv. apply Hall. set_solver. }
    eapply wp_mono; [apply (IH (n + 1) s3 T3 U3 xs3 H3); try lia|].
    + intros q Hq. unfold U3. rewrite lookup_insert_ne by lia. apply Hfree. lia.
    + intros v [->|Hv]%elem_of_cons; [apply HW; by left|]. specialize (Htabs v Hv). apply HWx. set_solver.
    + intros q p f Hq. unfold U3. destruct (decide (q = n)) as [->|]; [rewrite lookup_insert_eq; by intros [= <- _]|]. rewrite lookup_insert_ne by done. by apply HU.
    + assert (Hlen : length (tabs T3 ++ xs3) = length (tabs T ++ ys)) by (by rewrite G2). rewrite !length_app in Hlen.
      cbn beta. intros r s4 [[-> Hg]|(-> & Hu & Hl)]; [left; split; [done|]|right; split_and!; [done| |cbn [length]; lia]].
      * eapply (grown_step n hi pgdir T U R (x :: ys) s T3 x xs3 s3 s4); try done; [lia|]. intros v Hv. specialize (Htabs v Hv). set_solver.
      * eapply (regrown_step pgdir T U R (x :: ys) s T3 U3 xs3 s3 s4 (cut lo hi U3) _ W); [exact G1|exact Hperm|exact K|by eapply changed_weaken|done| |exact Hu].
        intros V HV q. rewrite HV. unfold U3. destruct (decide (lo <= q < hi)); [done|]. by rewrite lookup_insert_ne by lia.
  - change (-1 <? 0) with true. cbv iota. wp_step.
    eapply wp_mono; [eapply (alloc_undo s s3 pgdir T T3 U (x :: R) ys [] lo hi oldsz newsz W); try done; try lia; [by eapply changed_weaken|]|].
    + intros v Hv. apply HWx. set_solver.
    + cbn beta. intros _ s4 Hu. wp_step. eapply wp_mono; [by apply (undone_drop lo hi W pgdir T U R x ys s s4)|]. cbn beta. intros _ s5 Hu5. wp_step. right. split_and!; [done|done|].
      pose proof (tabs_bound _ _ _ _ _ _ (sp_st _ _ _ _ _ _ _ H3)). assert (Hlen : length (tabs T3 ++ []) = length (tabs T ++ ys)) by (by rewrite G2).
      rewrite !length_app in Hlen. cbn [length] in *. unfold NPDENTRIES in *. lia.
Qed.

Lemma allocuvm_spec s pgdir T U R xs oldsz newsz : space s pgdir T U R xs -> 0 <= oldsz <= newsz -> newsz < KERNBASE ->
  (forall q, pgs oldsz <= q -> U !! q = None) ->
  wp (allocuvm me kend pgdir oldsz newsz) (fun r s' =>
    (r = newsz /\ grown_to (pgs oldsz) (pgs newsz) pgdir T U R xs s s') \/
    (r = 0 /\ regrown pgdir T U R xs s s' (fun U' => U' = U) (pgdir :: tabs T ++ xs) /\ Z.of_nat (length xs) <= NPDENTRIES + pgs newsz)) s.
Proof using kend_high.
  intros H Ho Hn Hfree. unfold allocuvm. destruct (Z.leb_spec KERNBASE newsz); [lia|]. destruct (Z.ltb_spec newsz oldsz); [lia|].
  rewrite roundup_pgs by lia. pose proof (pgs_range oldsz ltac:(lia)). pose proof (Z.div_pos newsz PGSIZE ltac:(lia) ltac:(done)).
  assert (pgs newsz <= newsz / PGSIZE + 1).
  { unfold pgs. replace (newsz + PGSIZE - 1) with (newsz - 1 + 1 * PGSIZE) by lia. rewrite Z.div_add by done.
    pose proof (Z.div_le_mono (newsz - 1) newsz PGSIZE ltac:(done) ltac:(lia)). lia. }
  eapply wp_mono; [apply (allocuvm_from_spec _ pgdir oldsz newsz R (pgdir :: tabs T ++ xs) (pgs oldsz) (pgs newsz)); try done; try lia|].
  - intros q Hq. apply Hfree. lia.
  - intros q p f Hq. by rewrite Hfree by lia.
  - cbn beta. intros r s' [?|(-> & Hu & Hl)]; [by left|right]. split; [done|]. destruct Hu as (T' & U' & xs' & A1 & A2 & A3 & A4 & A5 & A6). split; [|lia].
    exists T', U', xs'. split_and!; try done. apply map_eq. intros q. rewrite A5. destruct (decide _); [symmetry; apply Hfree; lia|done].
Qed.

(** * setupkvm *)

(** The entries of [kmap], in pages. *)
Definition e_lo (e : Z * Z * Z * Z) : Z := e.1.1.1 / PGSIZE.
Definition e_len (e : Z * Z * Z * Z) : Z := u32 (e.1.2 - e.1.1.2) / PGSIZE.
Definition e_pte (e : Z * Z * Z * Z) (q : Z) : Z := e.1.1.2 + (q - e_lo e) * PGSIZE + Z.lor e.2 PTE_P.
Record kentry_ok (e : Z * Z * Z * Z) : Prop := {
  ke_virt : e.1.1.1 mod PGSIZE = 0;
  ke_size : u32 (e.1.2 - e.1.1.2) mod PGSIZE = 0;
  ke_phys : e.1.1.2 mod PGSIZE = 0 /\ 0 <= e.1.1.2 /\ e.1.1.2 + e_len e * PGSIZE <= 2 ^ 32;
  ke_range : 0 < e_len e /\ UPAGES <= e_lo e /\ e_lo e + e_len e <= 2 ^ 20;
  ke_perm : 0 <= e.2 < PGSIZE
}.
Fixpoint kpte (ks : list (Z * Z * Z * Z)) (q : Z) : Z :=
  match ks with
  | [] => 0
  | e :: ks => if decide (e_lo e <= q < e_lo e + e_len e) then e_pte e q else kpte ks q
  end.
(** In order of their addresses, from [b] on. *)
Fixpoint kmap_from (b : Z) (ks : list (Z * Z * Z * Z)) : Prop :=
  match ks with
  | [] => True
  | e :: ks => kentry_ok e /\ b <= e_lo e /\ kmap_from (e_lo e + e_len e) ks
  end.
(** The page tables that the entries need, at most. *)
Fixpoint ktabs (ks : list (Z * Z * Z * Z)) : Z :=
  match ks with
  | [] => 0
  | e :: ks => (e_lo e + e_len e - 1) / 1024 - e_lo e / 1024 + 1 + ktabs ks
  end.
Lemma ktabs_nonneg b ks : kmap_from b ks -> 0 <= ktabs ks.
Proof using Type.
  revert b. induction ks as [|e ks IH]; intros b; cbn; [done|]. intros (He & _ & Hks%IH). destruct (ke_range e He) as (? & _ & _).
  pose proof (Z.div_le_mono (e_lo e) (e_lo e + e_len e - 1) 1024). lia.
Qed.
Lemma kpte_below b ks q : kmap_from b ks -> q < b -> kpte ks q = 0.
Proof using Type.
  clear kend_high. revert b. induction ks as [|e ks IH]; intros b; cbn; [done|]. intros (He & Hb & Hks) Hq. destruct (ke_range e He) as (? & _ & _).
  rewrite decide_False by lia. eapply IH; [done|lia].
Qed.

Lemma setupkvm_maps_spec ks : forall b s pgdir T R xs, kmap_from b ks -> UPAGES <= b -> space s pgdir T ∅ R xs ->
  (forall q, b <= q < 2 ^ 20 -> pte (km_mem s) T q = 0) ->
  wp (setupkvm_maps me kend pgdir ks) (fun r s' => changed_in (pgdir :: tabs T ++ xs) (km_mem s) (km_mem s') /\
    ((r = 0 /\ (exists xs', free_pages s' xs' /\ xs' ≡ₚ pgdir :: tabs T ++ xs) /\ Z.of_nat (length xs) <= ktabs ks) \/
     (r = pgdir /\ exists T' xs', space s' pgdir T' ∅ R xs' /\ tabs T' ++ xs' ≡ₚ tabs T ++ xs /\
        forall q, 0 <= q < 2 ^ 20 -> pte (km_mem s') T' q = if decide (q < b) then pte (km_mem s) T q else kpte ks q))) s.
Proof using kend_high.
  induction ks as [|e ks IH]; intros b s pgdir T R xs Hks Hb H Hz; cbn [setupkvm_maps].
  - wp_step. split; [apply changed_refl|]. right. split; [done|]. exists T, xs. split_and!; try done. intros q Hq.
    destruct (decide (q < b)); [done|]. cbn. apply Hz. lia.
  - cbn [kmap_from] in Hks. destruct Hks as (He & Hbe & Hks). destruct e as [[[virt ps] pe] perm]. pose proof He as [E1 E2 (E3 & E4 & E5) (E6 & E7 & E8) E9]. cbn [fst snd] in *.
    set (e := (virt, ps, pe, perm)) in *. wp_step.
    assert (Ev : virt = vpage (e_lo e)) by (unfold vpage, e_lo; cbn [fst snd e]; rewrite (Z.div_mod virt PGSIZE) at 1 by done; lia).
    assert (Es : u32 (pe - ps) = u32 (vpage (Z.of_nat (Z.to_nat (e_len e))))).
    { rewrite Z2Nat.id by lia. unfold vpage. assert (Es : u32 (pe - ps) = e_len e * PGSIZE) by (unfold e_len; cbn [fst snd e]; rewrite (Z.div_mod (u32 _) PGSIZE) at 1 by done; lia).
      rewrite <-Es. symmetry. apply u32_u32. }
    rewrite Ev, Es, mappages_pages by (unfold UPAGES in *; lia).
    eapply wp_mono; [apply (mappages_from_spec me kend kend_high _ s pgdir T (frames ∅ ++ R) xs (e_lo e) ps perm); try done; try (unfold UPAGES in *; lia)|].
    { apply H. }
    { intros q Hq. apply Hz. lia. }
    cbn beta. rewrite Z2Nat.id by lia. intros r s1 (T1 & xs1 & j & Hj & H1 & [G1 G2] & W1 & C1 & -> & Hx & P1).
    assert (Hdiv : e_lo e / 1024 <= (e_lo e + e_len e - 1) / 1024) by (apply Z.div_le_mono; lia). apply tabs_within_length in W1; [|done]. pose proof (ktabs_nonneg _ _ Hks) as Hkt. cbn [ktabs].
    assert (HS : space s1 pgdir T1 ∅ R xs1).
    { split; [done|by intros ? ? ?|]. intros n Hn. rewrite P1, decide_False by (unfold UPAGES in *; lia). apply (sp_pte _ _ _ _ _ _ _ H n Hn). }
    assert (C : changed_in (pgdir :: tabs T ++ xs) (km_mem s) (km_mem s1)).
    { eapply changed_weaken; [exact C1|]. intros v [->|Hv]%elem_of_cons; [by left|right]. rewrite <-G2. set_solver. }
    destruct (decide (j = e_len e)) as [->|Hne].
    + change (0 <? 0) with false. eapply wp_mono; [apply (IH (e_lo e + e_len e) s1 pgdir T1 R xs1); try done; [lia|]|].
      { intros q Hq. rewrite P1, decide_False by lia. apply Hz. lia. }
      cbn beta. intros r s2 [C2 Hr]. split.
      { eapply changed_trans; [exact C|]. eapply changed_weaken; [exact C2|]. intros v. by rewrite G2. }
      assert (Hlen : length (tabs T1 ++ xs1) = length (tabs T ++ xs)) by (by rewrite G2). rewrite !length_app in Hlen.
      destruct Hr as [(-> & (xs' & Hf & Hp) & Hl)|[-> (T' & xs' & H2 & Hp & P2)]]; [left|right]; (split; [done|]).
      * split; [|lia]. exists xs'. split; [done|]. by rewrite Hp, G2.
      * exists T', xs'. split; [done|]. split; [by rewrite Hp|]. intros q Hq. rewrite P2 by done. rewrite P1. cbn [kpte].
        destruct (decide (q < e_lo e + e_len e)), (decide (q < b)), (decide (e_lo e <= q < e_lo e + e_len e)); try lia; try done.
        rewrite (kpte_below (e_lo e + e_len e) ks q) by (done || lia). apply Hz. lia.
    + change (-1 <? 0) with true. cbv iota. wp_step. eapply wp_mono; [apply (freevm_spec me kend kend_high s1 pgdir T1 ∅ R xs1 HS)|]. cbn beta.
      intros _ s2 (xs' & Hf & Hp & C2). wp_step. change (frames ∅) with (@nil Z) in Hp. cbn [app] in Hp. rewrite G2 in Hp. split.
      * eapply changed_trans; [exact C|]. eapply changed_weaken; [exact C2|]. intros v. by rewrite Hp.
      * left. split; [done|]. split; [by exists xs'|].
        assert (xs1 = []) as -> by (apply Hx; lia). assert (Hlen : length (tabs T1 ++ []) = length (tabs T ++ xs)) by (by rewrite G2).
        rewrite !length_app in Hlen. cbn [length] in *. lia.
Qed.
End copy.
