(* ===== verification/VmFork.v ===== *)
(** Address spaces of processes: every page table has the same kernel part, [copyuvm] gives
    a child a private copy of its parent's memory, and [allocuvm] and [copyout] touch only the
    space they are given. *)

From stdpp Require Import base tactics numbers option list gmap sets strings.
From Stdlib Require Import ZArith Lia.
From S2P Require Import Prelude ProcDefs Spinlock CString Kernel Memory Kalloc Vm VmFacts VmSpace VmCopy.

Section vm.
Context (me : nat) (kend kdata : Z) (kend_high : KERNBASE < kend).
(** The linker script aligns [data] to a page, inside the memory that the kernel maps. *)
Context (kdata_page : kdata mod PGSIZE = 0) (kdata_range : KERNLINK < kdata < KERNBASE + PHYSTOP).
Local Abbreviation page_ok := (page_ok kend).
Local Abbreviation free_pages := (free_pages kend).
Local Abbreviation space := (space kend).

(** The kernel part of every page table, by virtual page: the first 1 MB and everything from [data]
    to [PHYSTOP] writable, the kernel's text read-only, the devices at their own addresses. *)
Definition kernel_pte (q : Z) : Z :=
  if decide (UPAGES <= q < KERNLINK / PGSIZE) then vpage (q - UPAGES) + Z.lor PTE_W PTE_P
  else if decide (KERNLINK / PGSIZE <= q < kdata / PGSIZE) then vpage (q - UPAGES) + PTE_P
  else if decide (kdata / PGSIZE <= q < (KERNBASE + PHYSTOP) / PGSIZE) then vpage (q - UPAGES) + Z.lor PTE_W PTE_P
  else if decide (DEVSPACE / PGSIZE <= q < 2 ^ 20) then vpage q + Z.lor PTE_W PTE_P
  else 0.

Lemma V2P_kdata : V2P kdata = kdata - KERNBASE.
Proof using kdata_range. unfold V2P. apply u32_small. pose proof kdata_range as Hr. unfold KERNLINK, KERNBASE, EXTMEM, PHYSTOP in *. lia. Qed.

Lemma kmap_ok : kmap_from UPAGES (kmap kdata) /\ ktabs (kmap kdata) <= 66 /\
  forall q, 0 <= q < 2 ^ 20 -> UPAGES <= q -> kpte (kmap kdata) q = kernel_pte q.
Proof using kdata_page kdata_range.
  assert (Hd : kdata = PGSIZE * (kdata / PGSIZE)) by (pose proof (Z.div_mod kdata PGSIZE ltac:(done)); lia).
  remember (kdata / PGSIZE) as k eqn:Ek. assert (Hk : 0x80100 < k < 0x8E000).
  { clear Ek. pose proof kdata_range as Hr. unfold KERNLINK, KERNBASE, EXTMEM, PHYSTOP in Hr. unfold PGSIZE in Hd. lia. }
  assert (E : kmap kdata = [(vpage UPAGES, 0, vpage 256, PTE_W); (vpage 0x80100, vpage 256, vpage (k - UPAGES), 0);
    (vpage k, vpage (k - UPAGES), vpage 0xE000, PTE_W); (vpage 0xFE000, vpage 0xFE000, 0, PTE_W)]).
  { unfold kmap. rewrite V2P_kdata. replace (kdata - KERNBASE) with (vpage (k - UPAGES)) by (rewrite Hd; unfold vpage, UPAGES, KERNBASE, PGSIZE; lia).
    assert (Ekd : kdata = vpage k) by (rewrite Hd; unfold vpage; lia). rewrite !Ekd. reflexivity. }
  assert (Hlo : forall n a b c, e_lo (vpage n, a, b, c) = n) by (intros; unfold e_lo, vpage; cbn; by rewrite Z.div_mul).
  assert (Hlen : forall v a b c, 0 <= b - a < 2 ^ 20 -> e_len (v, vpage a, vpage b, c) = b - a).
  { intros v a b c Hab. unfold e_len. cbn. replace (vpage b - vpage a) with ((b - a) * PGSIZE) by (unfold vpage; lia).
    rewrite u32_small by (unfold PGSIZE; lia). by rewrite Z.div_mul. }
  pose proof (Hlen (vpage UPAGES) 0 256 PTE_W ltac:(lia)) as L1. change (vpage 0) with 0 in L1.
  pose proof (Hlen (vpage 0x80100) 256 (k - UPAGES) 0 ltac:(unfold UPAGES; lia)) as L2.
  pose proof (Hlen (vpage k) (k - UPAGES) 0xE000 PTE_W ltac:(unfold UPAGES; lia)) as L3.
  assert (L4 : e_len (vpage 0xFE000, vpage 0xFE000, 0, PTE_W) = 0x2000) by reflexivity.
  assert (Hsz : forall a b, 0 <= b - a < 2 ^ 20 -> u32 (vpage b - vpage a) mod PGSIZE = 0).
  { intros a b Hab. replace (vpage b - vpage a) with ((b - a) * PGSIZE) by (unfold vpage; lia).
    rewrite u32_small by (unfold PGSIZE; lia). by apply Z.mod_mul. }
  rewrite E. split; [|split].
  - cbn [kmap_from]. rewrite !Hlo, L1, L2, L3.
    split_and!; try done; try (unfold UPAGES; lia); split; cbn [fst snd]; rewrite ?Hlo, ?L1, ?L2, ?L3, ?L4; try apply vpage_aligned; try done;
      try (unfold vpage, UPAGES, PGSIZE; lia); try (split_and!; [apply vpage_aligned|unfold vpage, UPAGES, PGSIZE; lia..]).
    + apply (Hsz 256 (k - UPAGES)). unfold UPAGES. lia.
    + apply (Hsz (k - UPAGES) 0xE000). unfold UPAGES. lia.
  - cbn [ktabs]. rewrite !Hlo, L1, L2, L3, L4. pose proof (Z.div_le_mono (k - 1) k 1024 ltac:(lia) ltac:(lia)).
    replace (0x80100 + (k - UPAGES - 256) - 1) with (k - 1) by (unfold UPAGES; lia).
    replace (k + (0xE000 - (k - UPAGES)) - 1) with (0x8E000 - 1) by (unfold UPAGES; lia).
    change ((UPAGES + (256 - 0) - 1) / 1024) with 512. change (UPAGES / 1024) with 512. change (0x80100 / 1024) with 512.
    change ((0x8E000 - 1) / 1024) with 567. change ((0xFE000 + 0x2000 - 1) / 1024) with 1023. change (0xFE000 / 1024) with 1016. lia.
  - intros q Hq Hu. cbn [kpte]. unfold e_pte. cbn [fst snd]. rewrite !Hlo, L1, L2, L3, L4. unfold kernel_pte. rewrite <-Ek.
    change (KERNLINK / PGSIZE) with 0x80100. change ((KERNBASE + PHYSTOP) / PGSIZE) with 0x8E000. change (DEVSPACE / PGSIZE) with 0xFE000.
    change UPAGES with 0x80000. change (Z.lor 0 PTE_P) with PTE_P. unfold vpage.
    repeat (destruct (decide _)); try lia.
Qed.

(** An empty directory in a cleared page. *)
Lemma empty_space s s1 R x ys : free_pages s (x :: ys) -> free_pages s1 ys -> km_mem s1 = km_mem s -> NoDup (R ++ x :: ys) -> Forall page_ok (R ++ x :: ys) ->
  space (set_mem (memset (km_mem s1) x 0 PGSIZE) s1) x ∅ ∅ R ys.
Proof using Type.
  clear kend_high kdata_page kdata_range. intros Hf Hf1 Em Hnd Hok. assert (Hp : x :: tabs ∅ ++ (frames ∅ ++ R) ++ ys ≡ₚ R ++ x :: ys) by (cbn; solve_Permutation).
  assert (Hx : page_ok x) by (rewrite Forall_forall in Hok; apply Hok; set_solver). split; [split| |].
  - apply (free_write kend [x]); [done|apply changed_fill|apply byte_memset; [done|apply Hf1]|all_pages|].
    intros v ->%list_elem_of_singleton. destruct Hf as [_ Hn _ _ _]. by apply NoDup_cons in Hn as [? _].
  - split; [by intros ? ?|]. intros i Hi. rewrite lookup_empty. cbn [fmap option_fmap option_map from_option km_mem set_mem].
    unfold get32. rewrite !memset_bytes by done. unfold PGSIZE. rewrite !(proj2 (Z.leb_le _ _)), !(proj2 (Z.ltb_lt _ _)) by lia. done.
  - by rewrite Hp.
  - by rewrite Hp.
  - by intros ? ?.
  - intros n Hn. unfold pte. by rewrite !lookup_empty.
Qed.

Lemma setupkvm_spec s R xs : free_pages s xs -> NoDup (R ++ xs) -> Forall page_ok (R ++ xs) ->
  wp (setupkvm me kend kdata) (fun r s' => changed_in xs (km_mem s) (km_mem s') /\
    ((r = 0 /\ (exists xs', free_pages s' xs' /\ xs' ≡ₚ xs) /\ Z.of_nat (length xs) <= 67) \/
     (exists T xs', space s' r T ∅ R xs' /\ r :: tabs T ++ xs' ≡ₚ xs /\ forall q, UPAGES <= q < 2 ^ 20 -> pte (km_mem s') T q = kernel_pte q))) s.
Proof using kend_high kdata_page kdata_range.
  intros Hf Hnd Hok. unfold setupkvm. wp_step. eapply wp_mono; [apply (kalloc_spec me kend kend_high s xs Hf)|]. cbn beta.
  intros r s1 (Em & _ & Hr). destruct xs as [|x ys]; destruct Hr as [-> Hf1].
  { rewrite Z.eqb_refl. wp_step. split; [rewrite Em; apply changed_refl|]. left. split; [done|]. split; [by exists []|done]. }
  assert (Hx : page_ok x) by (rewrite Forall_forall in Hok; apply Hok; set_solver).
  destruct (Z.eqb_spec x 0) as [->|_]; [by destruct (page_nonzero kend kend_high 0 Hx)|]. unfold fill. do 3 wp_step. apply wp_panic_if; [done|]. cbn beta.
  pose proof (empty_space s s1 R x ys Hf Hf1 Em Hnd Hok) as H2. destruct kmap_ok as (Hk & Hkt & Hkp). rewrite Em in H2 |- *. set (s2 := set_mem _ s1) in *.
  eapply wp_mono; [apply (setupkvm_maps_spec me kend kend_high (kmap kdata) UPAGES s2 x ∅ R ys Hk ltac:(done) H2)|].
  { intros q Hq. unfold pte. by rewrite lookup_empty. }
  cbn beta. intros r s3 [C3 Hr]. change (tabs ∅) with (@nil Z) in *. cbn [app] in *. split.
  { eapply changed_trans; [|exact C3]. eapply changed_weaken; [apply changed_fill|]. intros v ->%list_elem_of_singleton. by left. }
  destruct Hr as [(-> & Hr & Hl)|[-> (T & xs' & H3 & Hp & P3)]]; [left; split_and!; [done|done|cbn [length] in *; lia]|right]. exists T, xs'. split; [done|]. split; [by rewrite Hp|].
  intros q Hq. rewrite P3 by (unfold UPAGES in *; lia). rewrite decide_False by lia. apply Hkp; unfold UPAGES in *; lia.
Qed.

(** * copyuvm *)

Lemma lor_odd f : Z.odd f = true -> Z.lor f PTE_P = f.
Proof using Type.
  clear kend_high kdata_page kdata_range. intros Hf. apply Z.bits_inj'. intros n Hn. rewrite Z.lor_spec. destruct (decide (n = 0)) as [->|].
  - by rewrite (Z.bit0_odd f), Hf.
  - change PTE_P with (2 ^ 0). by rewrite Z.pow2_bits_false, orb_false_r by lia.
Qed.

(** The pages below [n] are copies; the child has no others. *)
Definition copy_of (m : mem) (n : Z) (U Ud : gmap Z (Z * Z)) : Prop := forall q,
  if decide (0 <= q < n) then exists p p' f, U !! q = Some (p, f) /\ Ud !! q = Some (p', f) /\ forall b, 0 <= b < PGSIZE -> m (p' + b) = m (p + b)
  else Ud !! q = None.

(** While another space is built from the free pages, a space stays as it is. *)
Lemma other_space s0 s pgdir T U R xs0 d Td Ud xs : space s0 pgdir T U R xs0 -> changed_in xs0 (km_mem s0) (km_mem s) ->
  space s d Td Ud (pgdir :: tabs T ++ frames U ++ R) xs -> space s pgdir T U (d :: tabs Td ++ frames Ud ++ R) xs.
Proof using Type.
  clear kend_high kdata_page kdata_range. intros H0 C H. destruct (vmst_parts _ _ _ _ _ _ (sp_st _ _ _ _ _ _ _ H0)) as (Hd & _ & _ & Hdx & _ & Ht & _ & Hx).
  assert (HW : Forall page_ok xs0) by (apply Forall_forall; exact Hx). destruct (sp_st _ _ _ _ _ _ _ H) as [F _ N P].
  assert (Hp : pgdir :: tabs T ++ (frames U ++ d :: tabs Td ++ frames Ud ++ R) ++ xs ≡ₚ d :: tabs Td ++ (frames Ud ++ pgdir :: tabs T ++ frames U ++ R) ++ xs) by solve_Permutation.
  split; [split| |].
  - done.
  - apply (dir_ext kend xs0 (km_mem s0)); try done; [apply (sp_st _ _ _ _ _ _ _ H0)|apply Hd].
  - by rewrite Hp.
  - by rewrite Hp.
  - apply (sp_dom _ _ _ _ _ _ _ H0).
  - intros n Hn. rewrite (pte_ext kend xs0 (km_mem s0) (km_mem s) T n C HW); [by apply (sp_pte _ _ _ _ _ _ _ H0)|].
    intros t Hin. destruct (Ht t Hin) as ([? _] & _ & ?). done.
Qed.

(** A frame that is in none of the changed pages keeps its contents. *)
Lemma kept_frame W m m' p b : changed_in W m m' -> Forall page_ok W -> page_ok p -> p ∉ W -> 0 <= b < PGSIZE -> m' (p + b) = m (p + b).
Proof using Type. clear kend_high kdata_page kdata_range. intros C HW [Hp _] Hn Hb. apply (changed_page kend W m m' p); try done. unfold in_page. lia. Qed.

(** One more page copied, into [x]. *)
Lemma copy_of_step s s2 s3 d Td Ud T3 R x ys xs3 n p f U : copy_of (km_mem s) n U Ud -> 0 <= n -> U !! n = Some (p, f) ->
  (forall q p f, U !! q = Some (p, f) -> forall b, 0 <= b < PGSIZE -> km_mem s3 (p + b) = km_mem s (p + b)) ->
  space s d Td Ud R (x :: ys) -> page_ok x -> changed_in [x] (km_mem s) (km_mem s2) -> (forall b, 0 <= b < PGSIZE -> km_mem s2 (x + b) = km_mem s (p + b)) ->
  changed_in (d :: tabs T3) (km_mem s2) (km_mem s3) -> space s3 d T3 (<[n := (x, f)]> Ud) R xs3 -> copy_of (km_mem s3) (n + 1) U (<[n := (x, f)]> Ud).
Proof using kend_high.
  clear kdata_page kdata_range. intros Hc Hn Hu Hkeep H Hx C2 E2 C3 H3 q. specialize (Hc q).
  assert (HW : Forall page_ok (d :: tabs T3)).
  { destruct (sp_st _ _ _ _ _ _ _ H3) as [_ _ _ Hall]. rewrite Forall_forall in *. intros v Hv. apply Hall. set_solver. }
  destruct (decide (q = n)) as [->|Hne].
  - rewrite decide_True by lia. exists p, x, f. split; [done|]. split; [apply lookup_insert_eq|]. intros b Hb. rewrite (Hkeep n p f Hu b Hb), <-E2 by done.
    destruct (space_frame kend kend_high _ _ _ _ _ _ n x f H3) as (_ & _ & _ & Hd & Ht); [apply lookup_insert_eq|].
    eapply kept_frame; [exact C3|done|done|set_solver|done].
  - rewrite lookup_insert_ne by done. destruct (decide (0 <= q < n)).
    + rewrite decide_True by lia. destruct Hc as (p1 & p2 & f1 & E1 & E3 & Hb1). exists p1, p2, f1. split; [done|]. split; [done|]. intros b Hb.
      rewrite (Hkeep q p1 f1 E1 b Hb), <-Hb1 by done. destruct (space_frame kend kend_high _ _ _ _ _ _ q p2 f1 H E3) as (Hp2 & Hx2 & _).
      destruct (space_frame kend kend_high _ _ _ _ _ _ q p2 f1 H3) as (_ & _ & _ & Hd & Ht); [by rewrite lookup_insert_ne|].
      trans (km_mem s2 (p2 + b)); [eapply kept_frame; [exact C3|done|done|set_solver|done]|eapply kept_frame; [exact C2|all_pages|done|set_solver|done]].
    + by rewrite decide_False by lia.
Qed.

(** The result of [copyuvm]: a copy made of free pages, or none.  On one failure path a page is
    lost. *)
Definition copied (s0 : kmem) (xs0 : list Z) (sz pgdir : Z) (T : gmap Z Z) (U : gmap Z (Z * Z)) (R : list Z) (K : Z -> Z) (r : Z) (s' : kmem) : Prop :=
  changed_in xs0 (km_mem s0) (km_mem s') /\
  ((r = 0 /\ (exists xs' lost, free_pages s' xs' /\ xs' ++ lost ≡ₚ xs0 /\ (length lost <= 1)%nat) /\ Z.of_nat (length xs0) <= 1 + NPDENTRIES + pgs sz) \/
   (exists Td Ud xs', space s' r Td Ud (pgdir :: tabs T ++ frames U ++ R) xs' /\ r :: tabs Td ++ frames Ud ++ xs' ≡ₚ xs0 /\
      copy_of (km_mem s') (pgs sz) U Ud /\ forall q, UPAGES <= q < 2 ^ 20 -> pte (km_mem s') Td q = K q)).

(** Giving up the child frees its pages. *)
Lemma copy_gives_up s0 s xs0 sz pgdir T U R K d Td Ud Rd xs lost : changed_in xs0 (km_mem s0) (km_mem s) -> space s d Td Ud Rd xs ->
  (d :: tabs Td ++ frames Ud ++ xs) ++ lost ≡ₚ xs0 -> (length lost <= 1)%nat -> Z.of_nat (length xs0) <= 1 + NPDENTRIES + pgs sz ->
  wp (freevm me kend d;; mret 0) (copied s0 xs0 sz pgdir T U R K) s.
Proof using kend_high.
  clear kdata_page kdata_range. intros C H Hp Hl Hb. wp_step. eapply wp_mono; [apply (freevm_spec me kend kend_high s d Td Ud Rd xs H)|]. cbn beta.
  intros _ s' (xs' & Hf & Hp' & C'). wp_step. assert (Hp2 : xs' ++ lost ≡ₚ xs0) by (by rewrite Hp'). split.
  - eapply changed_trans; [exact C|]. eapply changed_weaken; [exact C'|]. intros v Hv. rewrite <-Hp2. set_solver.
  - left. split; [done|]. split; [by exists xs', lost|done].
Qed.

(** The pages that a partial copy uses. *)
Lemma copy_count m n U Ud s d Td Rd xs1 xs lost : copy_of m n U Ud -> space s d Td Ud Rd xs1 -> 0 <= n -> d :: tabs Td ++ frames Ud ++ xs ≡ₚ lost ->
  Z.of_nat (length lost) <= 1 + NPDENTRIES + n + Z.of_nat (length xs).
Proof using Type.
  clear kend_high kdata_page kdata_range. intros Hc H Hn Hp. rewrite <-Hp. cbn [length]. rewrite !length_app.
  pose proof (tabs_bound _ _ _ _ _ _ (sp_st _ _ _ _ _ _ _ H)) as Hb. assert ((length (frames Ud) <= Z.to_nat n)%nat); [|unfold NPDENTRIES in *; lia].
  unfold frames. rewrite length_fmap, length_map_to_list, <-size_dom, <-(length_seqZ 0 n), <-(size_list_to_set (C := gset Z)) by apply NoDup_seqZ.
  apply subseteq_size. intros i [pf Hi]%elem_of_dom. apply elem_of_list_to_set, elem_of_seqZ. specialize (Hc i). destruct (decide (0 <= i < n)); [lia|]. by rewrite Hc in Hi.
Qed.

Lemma copyuvm_from_spec s0 xs0 sz pgdir T U R d K : space s0 pgdir T U R xs0 -> 0 <= sz <= KERNBASE -> (forall q, 0 <= q < pgs sz -> is_Some (U !! q)) ->
  forall fuel n s Td Ud xs, 0 <= n <= pgs sz -> pgs sz - n < Z.of_nat fuel -> changed_in xs0 (km_mem s0) (km_mem s) ->
  space s d Td Ud (pgdir :: tabs T ++ frames U ++ R) xs -> d :: tabs Td ++ frames Ud ++ xs ≡ₚ xs0 -> copy_of (km_mem s) n U Ud ->
  (forall q, UPAGES <= q < 2 ^ 20 -> pte (km_mem s) Td q = K q) ->
  wp (copyuvm_from me kend fuel pgdir d (vpage n) sz) (copied s0 xs0 sz pgdir T U R K) s.
Proof using kend_high.
  clear kdata_page kdata_range. intros H0 Hsz HU. induction fuel as [|fuel IH]; intros n s Td Ud xs Hn Hf C H Hp Hc HK; [lia|]. cbn [copyuvm_from].
  pose proof (pgs_spec n sz) as Hpg. destruct (Z.ltb_spec (vpage n) sz) as [Hlt|Hge].
  2:{ wp_step. split; [done|right]. exists Td, Ud, xs. assert (n = pgs sz) as <- by lia. done. }
  assert (Hnu : 0 <= n < UPAGES) by (unfold vpage, UPAGES, KERNBASE, PGSIZE in *; lia).
  pose proof (other_space s0 s pgdir T U R xs0 d Td Ud xs H0 C H) as HP. destruct (HU n) as [[p f] Eu]; [lia|].
  destruct (space_frame kend kend_high _ _ _ _ _ _ n p f HP Eu) as (Hpo & _). destruct (sp_dom _ _ _ _ _ _ _ HP n _ Eu) as (_ & Hfr & Hfo).
  destruct (upte_facts kend kend_high p f Hpo Hfr Hfo) as (Epr & Ead & Efl & _ & Eva & _). pose proof (sp_pte _ _ _ _ _ _ _ HP n Hnu) as Epte. unfold pte in Epte. rewrite Eu in Epte.
  cbn [fmap option_fmap option_map from_option id] in Epte. wp_step. eapply (walk_look me kend kend_high); [exact (sp_st _ _ _ _ _ _ _ HP)|unfold UPAGES in *; lia|].
  destruct (T !! (n / 1024)) as [t|] eqn:Et; [|by rewrite <-Epte in Epr].
  destruct (vmst_parts _ _ _ _ _ _ (sp_st _ _ _ _ _ _ _ HP)) as (_ & _ & _ & _ & _ & Ht & _). destruct (Ht t) as [[_ Htr] _]; [apply elem_tabs; eauto|].
  destruct (page_index n) as [_ Hj]; [unfold UPAGES in *; lia|]. wp_step. apply wp_panic_if; [apply Z.eqb_neq; unfold KERNBASE in *; lia|]. cbn beta.
  unfold ldw. do 3 wp_step. rewrite Epte, Epr, Ead, Efl, Eva. apply wp_panic_if; [done|]. cbn beta. wp_step.
  eapply (take_page me kend kend_high); [exact H| |].
  { intros s1 -> H1 Em. rewrite Z.eqb_refl. eapply (copy_gives_up s0 s1 xs0 _ _ _ _ _ _ d Td Ud _ [] []); [by rewrite Em|done|by rewrite app_nil_r|cbn; lia|].
    pose proof (copy_count _ _ _ _ _ _ _ _ _ _ _ Hc H (proj1 Hn) Hp) as Hl. cbn [length] in Hl. lia. }
  intros s1 x ys -> Hpx Hx0 H1 Em. rewrite (proj2 (Z.eqb_neq _ _) Hx0). unfold copy. do 3 wp_step. rewrite Em.
  destruct (space_write kend [x] (memmove (km_mem s) x p PGSIZE) s1 d Td Ud (x :: pgdir :: tabs T ++ frames U ++ R) ys H1) as [H2 P2];
    [rewrite Em; apply changed_copy|apply byte_memmove; [done|by eapply space_byte]|set_solver|].
  set (s2 := set_mem (memmove (km_mem s) x p PGSIZE) s1) in *.
  assert (Hxs0 : forall v, v ∈ d :: tabs Td ++ x :: ys -> v ∈ xs0) by (intros v Hv; rewrite <-Hp; set_solver).
  eapply wp_mono; [eapply (map_page me kend kend_high s2 d Td Ud _ ys n x f H2 Hnu); [|done]|].
  { specialize (Hc n). by rewrite decide_False in Hc by lia. }
  cbn beta. intros r s3 (T3 & xs3 & [G1 G2] & C3 & K3 & _ & Hr). rewrite (lor_odd f Hfo) in Hr.
  assert (C03 : changed_in xs0 (km_mem s0) (km_mem s3)).
  { eapply changed_trans; [exact C|]. eapply changed_trans; eapply changed_weaken; [apply changed_copy| |exact C3|].
    - intros v ->%list_elem_of_singleton. apply Hxs0. set_solver.
    - intros v [->|Hv]%elem_of_cons; apply Hxs0; [by left|]. assert (Hv' : v ∈ tabs Td ++ ys) by (rewrite <-G2; set_solver). set_solver. }
  destruct Hr as [[-> H3]|(-> & -> & H3)].
  - change (0 <? 0) with false. replace (u32 (vpage n + PGSIZE)) with (vpage (n + 1)) by (rewrite u32_small; unfold vpage, UPAGES, PGSIZE in *; lia).
    apply (IH (n + 1) s3 T3 (<[n := (x, f)]> Ud) xs3); try done; try lia.
    + specialize (Hc n). rewrite decide_False in Hc by lia. rewrite frames_insert by done. rewrite <-Hp.
      trans (d :: x :: frames Ud ++ tabs T3 ++ xs3); [solve_Permutation|]. rewrite G2. solve_Permutation.
    + eapply (copy_of_step s s2 s3 d Td Ud T3 _ x ys xs3 n p f U); try done; [lia| |apply changed_copy|].
      * intros q p1 f1 E1 b Hb. destruct (space_frame kend kend_high _ _ _ _ _ _ q p1 f1 H0 E1) as (Hp1 & Hx1 & _).
        destruct (vmst_parts _ _ _ _ _ _ (sp_st _ _ _ _ _ _ _ H0)) as (_ & _ & _ & _ & _ & _ & _ & Hx).
        assert (HW : Forall page_ok xs0) by (apply Forall_forall; exact Hx).
        rewrite (kept_frame xs0 (km_mem s0) (km_mem s3)), (kept_frame xs0 (km_mem s0) (km_mem s)) by done. done.
      * intros b Hb. unfold s2. cbn [km_mem set_mem]. rewrite memmove_bytes by done.
        rewrite (proj2 (Z.leb_le _ _)), (proj2 (Z.ltb_lt _ _)) by lia. cbn. f_equal. lia.
    + intros q Hq. rewrite (K3 q Hq), <-(HK q Hq), <-Em. apply P2.
  - change (-1 <? 0) with true. eapply (copy_gives_up s0 s3 xs0 _ _ _ _ _ _ d T3 Ud _ [] [x]); [done|exact H3| |done|].
    2:{ assert (Hp3 : d :: tabs T3 ++ frames Ud ++ [x] ≡ₚ xs0) by (rewrite <-Hp; trans (d :: x :: frames Ud ++ tabs T3 ++ []); [solve_Permutation|]; rewrite G2; solve_Permutation).
        pose proof (copy_count _ _ _ _ _ _ _ _ _ _ _ Hc H3 (proj1 Hn) Hp3) as Hl. cbn [length] in Hl. lia. }
    rewrite <-Hp. trans (d :: x :: frames Ud ++ tabs T3 ++ []); [solve_Permutation|]. rewrite G2. solve_Permutation.
Qed.

(** * What a process sees *)

(** The byte at user address [va]. *)
Definition ubyte (m : mem) (U : gmap Z (Z * Z)) (va : Z) : option Z := (fun pf => m (pf.1 + va mod PGSIZE)) <$> U !! (va / PGSIZE).

(** Changes to pages that were free, or belong to others, are not seen. *)
Lemma ubyte_kept W s pgdir T U R xs m' va : space s pgdir T U R xs -> changed_in W (km_mem s) m' -> Forall page_ok W -> (forall v, v ∈ W -> v ∉ frames U) ->
  ubyte m' U va = ubyte (km_mem s) U va.
Proof using Type.
  clear kend_high kdata_page kdata_range. intros H C HW Hd. unfold ubyte. destruct (U !! (va / PGSIZE)) as [[p f]|] eqn:E; [|done]. cbn. f_equal.
  assert (Hin : p ∈ frames U) by (apply elem_frames; eauto). destruct (vmst_parts _ _ _ _ _ _ (sp_st _ _ _ _ _ _ _ H)) as (_ & _ & _ & _ & _ & _ & HR & _).
  destruct (HR p) as [Hp _]; [set_solver|]. eapply kept_frame; [exact C|done|done|intros ?; by eapply Hd|by apply Z.mod_pos_bound].
Qed.

Lemma space_disjoint s pgdir T U R xs : space s pgdir T U R xs -> forall v, v ∈ R \/ v ∈ xs -> v ∉ frames U.
Proof using Type.
  clear kend_high kdata_page kdata_range. intros H v Hv Hin. destruct (sp_st _ _ _ _ _ _ _ H) as [_ _ Hnd _]. apply NoDup_cons in Hnd as [_ Hnd]. apply NoDup_app in Hnd as (_ & _ & Hnd).
  rewrite <-(assoc_L (++)) in Hnd. apply NoDup_app in Hnd as (_ & Hnd & _). apply (Hnd v Hin), elem_of_app. exact Hv.
Qed.

Lemma free_all_ok s pgdir T U R xs : space s pgdir T U R xs -> Forall page_ok xs.
Proof using Type.
  clear kend_high kdata_page kdata_range. intros H. destruct (vmst_parts _ _ _ _ _ _ (sp_st _ _ _ _ _ _ _ H)) as (_ & _ & _ & _ & _ & _ & _ & Hx). by apply Forall_forall.
Qed.

Lemma copy_of_bytes m n U Ud va : copy_of m n U Ud -> 0 <= va < vpage n -> ubyte m Ud va = ubyte m U va /\ is_Some (ubyte m U va).
Proof using Type.
  clear kend_high kdata_page kdata_range. intros Hc Hva. specialize (Hc (va / PGSIZE)). pose proof (Z.div_pos va PGSIZE ltac:(lia) ltac:(done)).
  assert (va / PGSIZE < n) by (apply Z.div_lt_upper_bound; [done|unfold vpage in *; lia]).
  rewrite decide_True in Hc by lia. destruct Hc as (p & p' & f & E & E' & Hb). unfold ubyte. rewrite E, E'. cbn.
  rewrite Hb by (by apply Z.mod_pos_bound). done.
Qed.

(** [copyuvm]: see below. *)
Lemma copyuvm_spec s pgdir T U R xs sz : space s pgdir T U R xs -> 0 <= sz <= KERNBASE -> (forall q, 0 <= q < pgs sz -> is_Some (U !! q)) ->
  wp (copyuvm me kend kdata pgdir sz) (fun d s' => (forall va, ubyte (km_mem s') U va = ubyte (km_mem s) U va) /\
    ((d = 0 /\ exists xs' lost, space s' pgdir T U (lost ++ R) xs' /\ xs' ++ lost ≡ₚ xs /\ (length lost <= 1)%nat /\
        Z.of_nat (length xs) <= 1 + NPDENTRIES + pgs sz) \/
     (exists Td Ud xs', space s' d Td Ud (pgdir :: tabs T ++ frames U ++ R) xs' /\ space s' pgdir T U (d :: tabs Td ++ frames Ud ++ R) xs' /\
        d :: tabs Td ++ frames Ud ++ xs' ≡ₚ xs /\ (forall v, v ∈ frames Ud -> v ∉ frames U) /\
        (forall va, 0 <= va < vpage (pgs sz) -> ubyte (km_mem s') Ud va = ubyte (km_mem s) U va /\ snd <$> Ud !! (va / PGSIZE) = snd <$> U !! (va / PGSIZE)) /\
        (forall q, pgs sz <= q -> Ud !! q = None) /\
        forall q, UPAGES <= q < 2 ^ 20 -> pte (km_mem s') Td q = kernel_pte q))) s.
Proof using kend_high kdata_page kdata_range.
  intros H Hsz HU. pose proof (free_all_ok _ _ _ _ _ _ H) as HW. pose proof (sp_st _ _ _ _ _ _ _ H) as [F _ N P].
  assert (Hp : pgdir :: tabs T ++ (frames U ++ R) ++ xs = (pgdir :: tabs T ++ frames U ++ R) ++ xs) by (cbn; by rewrite <-!(assoc_L (++))).
  rewrite Hp in N, P. unfold copyuvm. wp_step. eapply wp_mono; [apply (setupkvm_spec s _ xs F N P)|]. cbn beta. intros d s1 [C1 Hr].
  assert (Hub : forall m', changed_in xs (km_mem s) m' -> forall va, ubyte m' U va = ubyte (km_mem s) U va).
  { intros m' C va. eapply (ubyte_kept xs); [exact H|done|done|]. intros v Hv. eapply space_disjoint; [exact H|by right]. }
  assert (Hfail : forall s' xs' lost, changed_in xs (km_mem s) (km_mem s') -> free_pages s' xs' -> xs' ++ lost ≡ₚ xs -> space s' pgdir T U (lost ++ R) xs').
  { intros s' xs' lost C' F' Hp'. eapply (space_trade kend xs s s'); [exact H|done| |done|set_solver]. rewrite <-Hp'. solve_Permutation. }
  pose proof (pgs_range sz Hsz) as Hpr. destruct Hr as [(-> & (xs' & F' & Hp') & Hl)|(Td & xs' & H1 & Hp' & K1)].
  { rewrite Z.eqb_refl. wp_step. split; [by apply Hub|]. left. split; [done|]. exists xs', []. rewrite app_nil_r. split_and!; [|done|cbn; lia|unfold NPDENTRIES; lia].
    apply Hfail; try done. by rewrite app_nil_r. }
  destruct (vmst_parts _ _ _ _ _ _ (sp_st _ _ _ _ _ _ _ H1)) as (Hd & _). destruct (Z.eqb_spec d 0) as [->|_]; [by destruct (page_nonzero kend kend_high 0 Hd)|].
  pose proof (Z.div_pos sz PGSIZE ltac:(lia) ltac:(done)). assert (pgs sz <= sz / PGSIZE + 1).
  { unfold pgs. replace (sz + PGSIZE - 1) with (sz - 1 + 1 * PGSIZE) by lia. rewrite Z.div_add by done.
    pose proof (Z.div_le_mono (sz - 1) sz PGSIZE ltac:(done) ltac:(lia)). lia. }
  eapply wp_mono; [apply (copyuvm_from_spec s xs sz pgdir T U R d kernel_pte H Hsz HU _ 0 s1 Td ∅ xs'); try done; try lia|].
  { intros q. destruct (decide _); [lia|done]. }
  intros r s2 [C2 Hr]. split; [by apply Hub|]. destruct Hr as [(-> & (xs2 & lost & F2 & Hp2 & Hl) & Hb)|(T2 & U2 & xs2 & HS2 & Hp2 & Hc & K2)].
  { left. split; [done|]. exists xs2, lost. split_and!; [by apply Hfail|done|done|done]. }
  right. exists T2, U2, xs2. split; [done|]. split; [by eapply other_space|]. split; [done|]. split; [|split; [|split; [|done]]].
  - intros v Hv Hv'. eapply (space_disjoint s2 r T2 U2); [exact HS2|left|exact Hv]. set_solver.
  - intros va Hva. destruct (copy_of_bytes _ _ _ _ va Hc Hva) as [-> _]. split; [by apply Hub|]. specialize (Hc (va / PGSIZE)).
    pose proof (Z.div_pos va PGSIZE ltac:(lia) ltac:(done)). assert (va / PGSIZE < pgs sz) by (apply Z.div_lt_upper_bound; [done|unfold vpage in *; lia]).
    rewrite decide_True in Hc by lia. destruct Hc as (p & p' & f & -> & -> & _). done.
  - intros q Hq. specialize (Hc q). by rewrite decide_False in Hc by lia.
Qed.

(** C9: [copyuvm] on the address space of a parent that has all its pages: it returns, and the parent's
    memory, page table and bytes are as before.  A child gets exactly the parent's bytes in pages
    of its own, taken from the free pages, with the same flags, no page beyond the parent's size, and the
    kernel part that every page table has.  Without a child, all pages are free again but
    possibly one, and there were not enough of them for the child and its tables. *)
Theorem copyuvm_isolated s pgdir T U R xs sz : space s pgdir T U R xs -> 0 <= sz <= KERNBASE -> (forall q, 0 <= q < pgs sz -> is_Some (U !! q)) ->
  wp (copyuvm me kend kdata pgdir sz) (fun d s' => (forall va, ubyte (km_mem s') U va = ubyte (km_mem s) U va) /\
    ((d = 0 /\ exists xs' lost, space s' pgdir T U (lost ++ R) xs' /\ xs' ++ lost ≡ₚ xs /\ (length lost <= 1)%nat /\
        Z.of_nat (length xs) <= 1 + NPDENTRIES + pgs sz) \/
     (exists Td Ud xs', space s' d Td Ud (pgdir :: tabs T ++ frames U ++ R) xs' /\ space s' pgdir T U (d :: tabs Td ++ frames Ud ++ R) xs' /\
        d :: tabs Td ++ frames Ud ++ xs' ≡ₚ xs /\ (forall v, v ∈ frames Ud -> v ∉ frames U) /\
        (forall va, 0 <= va < vpage (pgs sz) -> ubyte (km_mem s') Ud va = ubyte (km_mem s) U va /\ snd <$> Ud !! (va / PGSIZE) = snd <$> U !! (va / PGSIZE)) /\
        (forall q, pgs sz <= q -> Ud !! q = None) /\
        forall q, UPAGES <= q < 2 ^ 20 -> pte (km_mem s') Td q = kernel_pte q))) s.
Proof using kend_high kdata_page kdata_range. apply copyuvm_spec. Qed.
End vm.
