(* ===== verification/VmUser.v ===== *)
(** What user processes see of the routines of vm.c: [uva2ka] and [copyout] write into one
    address space, [allocuvm] and [deallocuvm] grow and shrink it, [freevm] ends it. *)

From stdpp Require Import base tactics numbers option list gmap sets strings.
From Stdlib Require Import ZArith Lia.
From S2P Require Import Prelude ProcDefs Spinlock CString Kernel Memory Kalloc Bytes Vm VmFacts VmSpace VmCopy VmFork.

(** * Bytes in memory *)

Lemma put_bytes_at m a bs b : put_bytes m a bs b = if decide (a <= b < a + Z.of_nat (length bs)) then default 0 (bs !! Z.to_nat (b - a)) else m b.
Proof.
  unfold put_bytes. induction bs as [|x bs IH] using rev_ind; [by rewrite decide_False by (cbn; lia)|].
  rewrite imap_app, foldl_app, length_app. cbn [imap foldl fst snd length]. unfold compose. rewrite Nat.add_0_r. unfold mput at 1.
  destruct (Z.eqb_spec b (a + Z.of_nat (length bs))) as [->|Hne].
  - rewrite decide_True by lia. replace (Z.to_nat (a + Z.of_nat (length bs) - a)) with (length bs) by lia. by rewrite list_lookup_middle.
  - rewrite IH. destruct (decide (a <= b < a + Z.of_nat (length bs))).
    + rewrite decide_True by lia. by rewrite lookup_app_l by lia.
    + by rewrite decide_False by lia.
Qed.

Lemma byte_put_bytes m a bs : byte_mem m -> byte_list bs -> byte_mem (put_bytes m a bs).
Proof.
  intros Hm Hb b. rewrite put_bytes_at. destruct (decide _) as [Hd|]; [|done]. destruct (bs !! Z.to_nat (b - a)) as [x|] eqn:E; [|done].
  cbn. unfold byte_list in Hb. rewrite Forall_forall in Hb. apply Hb. by eapply list_elem_of_lookup_2.
Qed.

Lemma changed_put_bytes p m o bs : 0 <= o -> o + Z.of_nat (length bs) <= PGSIZE -> changed_in [p] m (put_bytes m (p + o) bs).
Proof.
  intros Ho Hb a Ha. exists p. split; [by left|]. rewrite put_bytes_at in Ha. destruct (decide _) as [Hd|]; [|done]. unfold in_page. lia.
Qed.

(** * User access *)

(** The page is mapped for the user. *)
Definition accessible (U : gmap Z (Z * Z)) (n : Z) : bool :=
  match U !! n with Some pf => negb (Z.land pf.2 PTE_U =? 0) | None => false end.

Section user.
Context (me : nat) (kend : Z) (kend_high : KERNBASE < kend).
Local Abbreviation page_ok := (page_ok kend).
Local Abbreviation space := (space kend).

Lemma land_user p f : page_ok p -> 0 <= f < PGSIZE -> Z.land (upte (p, f)) PTE_U = Z.land f PTE_U.
Proof using kend_high.
  intros Hp Hf. pose proof (V2P_page kend kend_high p Hp) as E. destruct Hp as [Hal _]. unfold upte. cbn. rewrite E.
  assert (Ha : (p - KERNBASE) mod PGSIZE = 0) by (rewrite Zminus_mod, Hal; done). rewrite <-page_lor, Z.land_lor_distr_l by done.
  assert (Z.land (p - KERNBASE) PTE_U = 0) as ->; [|done]. rewrite (Z.div_mod (p - KERNBASE) PGSIZE), Ha, Z.add_0_r, Z.mul_comm by done.
  change PGSIZE with (2 ^ 12). rewrite <-Z.shiftl_mul_pow2 by lia. apply Z.bits_inj'. intros n Hn. rewrite Z.land_spec, Z.bits_0. change PTE_U with (2 ^ 2).
  destruct (decide (n = 2)) as [->|]; [by rewrite Z.shiftl_spec_low|]. by rewrite Z.pow2_bits_false, andb_false_r by lia.
Qed.

(** [uva2ka] of a page below a table that exists: the page, if the user may use it. *)
Lemma uva2ka_spec s pgdir T U R xs n : space s pgdir T U R xs -> 0 <= n < UPAGES -> is_Some (T !! (n / 1024)) ->
  wp (uva2ka me pgdir (vpage n)) (fun r s' => s' = s /\
    r = match U !! n with Some pf => if accessible U n then pf.1 else 0 | None => 0 end) s.
Proof using kend_high.
  intros H Hn [t Et]. unfold uva2ka. wp_step. eapply (walk_look me kend kend_high); [exact (sp_st _ _ _ _ _ _ _ H)|unfold UPAGES in *; lia|].
  rewrite Et. destruct (vmst_parts _ _ _ _ _ _ (sp_st _ _ _ _ _ _ _ H)) as (_ & _ & _ & _ & _ & Ht & _). destruct (Ht t) as [[_ Htr] _]; [apply elem_tabs; eauto|].
  destruct (page_index n) as [_ Hj]; [unfold UPAGES in *; lia|]. rewrite (proj2 (Z.eqb_neq _ 0)) by (unfold KERNBASE in *; lia).
  unfold ldw. do 2 wp_step. pose proof (sp_pte _ _ _ _ _ _ _ H n Hn) as E. unfold pte in E. rewrite Et in E. rewrite E. unfold accessible.
  destruct (U !! n) as [[p f]|] eqn:Eu; cbn [fmap option_fmap option_map from_option id fst snd]; [|by apply wp_ret].
  destruct (space_frame kend kend_high _ _ _ _ _ _ n p f H Eu) as (Hp & _). destruct (sp_dom _ _ _ _ _ _ _ H n _ Eu) as (_ & Hf & Ho).
  destruct (upte_facts kend kend_high p f Hp Hf Ho) as (-> & -> & _ & _ & -> & _). rewrite (land_user p f Hp Hf). cbn [negb].
  destruct (Z.land f PTE_U =? 0); by apply wp_ret.
Qed.

Lemma frames_inj U i j p f g : NoDup (frames U) -> U !! i = Some (p, f) -> U !! j = Some (p, g) -> i = j.
Proof using Type.
  clear kend_high. intros Hnd Hi Hj. destruct (decide (i = j)) as [|Hne]; [done|]. exfalso. rewrite (frames_delete U i p f Hi) in Hnd.
  apply NoDup_cons in Hnd as [Hn _]. apply Hn, elem_frames. exists j, g. by rewrite lookup_delete_ne.
Qed.
Lemma space_nodup s pgdir T U R xs : space s pgdir T U R xs -> NoDup (frames U).
Proof using Type.
  clear kend_high. intros H. destruct (sp_st _ _ _ _ _ _ _ H) as [_ _ Hnd _]. apply NoDup_cons in Hnd as [_ Hnd]. apply NoDup_app in Hnd as (_ & _ & Hnd).
  rewrite <-(assoc_L (++)) in Hnd. by apply NoDup_app in Hnd as (? & _ & _).
Qed.

(** The user's view with the bytes [bs] at [va]. *)
Definition uwrite (va : Z) (bs : list Z) (v : Z -> option Z) (a : Z) : option Z :=
  if decide (va <= a < va + Z.of_nat (length bs)) then bs !! Z.to_nat (a - va) else v a.

(** A write within the page at [n]. *)
Lemma ubyte_write s pgdir T U R xs n p f o bs : space s pgdir T U R xs -> U !! n = Some (p, f) -> 0 <= o -> o + Z.of_nat (length bs) <= PGSIZE ->
  forall a, ubyte (put_bytes (km_mem s) (p + o) bs) U a = uwrite (vpage n + o) bs (ubyte (km_mem s) U) a.
Proof using kend_high.
  intros H Hn Ho Hb a. unfold uwrite, ubyte. pose proof (Z.div_mod a PGSIZE ltac:(done)) as Hdm. pose proof (Z.mod_pos_bound a PGSIZE ltac:(done)) as Hm.
  destruct (decide (a / PGSIZE = n)) as [<-|Hne].
  - rewrite Hn. cbn. rewrite put_bytes_at. unfold vpage. destruct (decide (p + o <= _ < _)), (decide (_ <= a < _)); try lia; [|done].
    replace (p + a mod PGSIZE - (p + o)) with (a - (a / PGSIZE * PGSIZE + o)) by lia.
    destruct (lookup_lt_is_Some_2 bs (Z.to_nat (a - (a / PGSIZE * PGSIZE + o)))) as [x ->]; [lia|done].
  - rewrite decide_False by (unfold vpage, PGSIZE in *; lia). destruct (U !! (a / PGSIZE)) as [[p2 f2]|] eqn:E2; [|done]. cbn. f_equal.
    destruct (space_frame kend kend_high _ _ _ _ _ _ n p f H Hn) as (Hp & _). destruct (space_frame kend kend_high _ _ _ _ _ _ _ p2 f2 H E2) as (Hp2 & _).
    eapply (kept_frame kend [p]); [by apply changed_put_bytes|all_pages|done| |done].
    intros ->%list_elem_of_singleton. apply Hne. eapply frames_inj; [by eapply space_nodup|exact E2|exact Hn].
Qed.

Lemma uwrite_app va bs1 bs2 v a : uwrite (va + Z.of_nat (length bs1)) bs2 (uwrite va bs1 v) a = uwrite va (bs1 ++ bs2) v a.
Proof using Type.
  clear kend_high. unfold uwrite. rewrite length_app. destruct (decide (va + _ <= a < _)).
  - rewrite decide_True by lia. rewrite lookup_app_r by lia. f_equal. lia.
  - destruct (decide (va <= a < _)); [|by rewrite decide_False by lia]. rewrite decide_True by lia. by rewrite lookup_app_l by lia.
Qed.

(** What [copyout] may do: write a prefix of the bytes, all of them unless it meets a page that
    the user may not use. *)
Definition copied_out (s : kmem) (pgdir : Z) (T : gmap Z Z) (U : gmap Z (Z * Z)) (R xs : list Z) (va : Z) (buf : list Z) (r : Z) (s' : kmem) : Prop :=
  exists k, (k <= length buf)%nat /\ space s' pgdir T U R xs /\ changed_in (frames U) (km_mem s) (km_mem s') /\
    (forall a, ubyte (km_mem s') U a = uwrite va (take k buf) (ubyte (km_mem s) U) a) /\
    ((r = 0 /\ k = length buf) \/ (r = -1 /\ (k < length buf)%nat /\ accessible U ((va + Z.of_nat k) / PGSIZE) = false)).

Lemma copyout_from_spec pgdir T U R xs : forall fuel va buf s, space s pgdir T U R xs -> 0 <= va -> va + Z.of_nat (length buf) <= KERNBASE -> byte_list buf ->
  (forall n, va / PGSIZE <= n < pgs (va + Z.of_nat (length buf)) -> is_Some (T !! (n / 1024))) ->
  va mod PGSIZE + Z.of_nat (length buf) <= Z.of_nat fuel * PGSIZE ->
  wp (copyout_from me fuel pgdir va buf) (copied_out s pgdir T U R xs va buf) s.
Proof using kend_high.
  induction fuel as [|fuel IH]; intros va buf s H Hva Hend Hby HT Hfuel;
    pose proof (Z.div_mod va PGSIZE ltac:(done)) as Hdm; pose proof (Z.mod_pos_bound va PGSIZE ltac:(done)) as Hm;
    (destruct buf as [|b buf]; [apply wp_ret; exists 0%nat; split_and!; [done|done|apply changed_refl| |by left]; intros a; unfold uwrite; by rewrite decide_False by (cbn; lia)|]).
  { cbn [length] in *. lia. }
  cbn [copyout_from]. set (bs := b :: buf) in *. assert (Hlen : (0 < length bs)%nat) by (cbn; lia). set (n := va / PGSIZE) in *. set (o := va mod PGSIZE) in *.
  assert (Hn : 0 <= n < UPAGES) by (split; [by apply Z.div_pos|unfold UPAGES, KERNBASE, PGSIZE in *; lia]).
  assert (E0 : PGROUNDDOWN va = vpage n) by (replace va with (vpage n + o) by (unfold vpage; lia); apply rounddown_vpage; [unfold UPAGES in *; lia|done]).
  assert (Evo : va - vpage n = o) by (unfold vpage; lia).
  rewrite E0, Evo. wp_step. eapply wp_mono; [apply (uva2ka_spec s pgdir T U R xs n H Hn)|].
  { apply HT. split; [done|]. apply pgs_spec. unfold vpage. lia. }
  cbn beta. intros r s' [-> ->]. destruct (accessible U n) eqn:Eacc.
  2:{ assert (match U !! n with Some _ => 0 | None => 0 end = 0) as -> by by destruct (U !! n). rewrite Z.eqb_refl. wp_step. exists 0%nat.
      split_and!; [lia|done|apply changed_refl| |right; split_and!; [done|lia|by rewrite Z.add_0_r]].
      intros a. unfold uwrite. by rewrite decide_False by (cbn; lia). }
  pose proof Eacc as Eacc'. unfold accessible in Eacc'. destruct (U !! n) as [[p f]|] eqn:Eu; [clear Eacc'|done]. cbn [fst].
  destruct (space_frame kend kend_high _ _ _ _ _ _ n p f H Eu) as (Hp & _). rewrite (proj2 (Z.eqb_neq _ _) (page_nonzero kend kend_high p Hp)). wp_step.
  set (c := Z.min (PGSIZE - o) (Z.of_nat (length bs))). assert (Hc : 0 < c <= Z.of_nat (length bs)) by (unfold c; lia).
  assert (Hlt : length (take (Z.to_nat c) bs) = Z.to_nat c) by (rewrite length_take; lia).
  assert (Hin : p ∈ frames U) by (apply elem_frames; eauto).
  assert (C1 : changed_in [p] (km_mem s) (put_bytes (km_mem s) (p + o) (take (Z.to_nat c) bs))) by (apply changed_put_bytes; [lia|rewrite Hlt; unfold c; lia]).
  destruct (space_write kend [p] (put_bytes (km_mem s) (p + o) (take (Z.to_nat c) bs)) s pgdir T U R xs H C1) as [H1 _];
    [apply byte_put_bytes; [by eapply space_byte|by apply Forall_take]|set_solver|].
  assert (V1 : forall a, ubyte (put_bytes (km_mem s) (p + o) (take (Z.to_nat c) bs)) U a = uwrite va (take (Z.to_nat c) bs) (ubyte (km_mem s) U) a).
  { intros a. rewrite (ubyte_write s pgdir T U R xs n p f o _ H Eu) by (rewrite ?Hlt; unfold c; lia). by replace (vpage n + o) with va by lia. }
  wp_step. set (s1 := set_mem _ s) in *.
  assert (Hnext : u32 (vpage n + PGSIZE) = vpage (n + 1)) by (rewrite u32_small; unfold vpage, UPAGES, PGSIZE in *; lia). rewrite Hnext.
  destruct (decide (c = Z.of_nat (length bs))) as [Ec|Ec].
  { rewrite drop_ge by lia. assert (Hd : copyout_from me fuel pgdir (vpage (n + 1)) [] = mret 0) by by destruct fuel. rewrite Hd. wp_step. exists (length bs).
    split_and!; [done|done| | |by left]; [eapply changed_weaken; [exact C1|]; set_solver|]. intros a. rewrite firstn_all. etrans; [apply V1|]. by rewrite take_ge by lia. }
  assert (Evc : va + c = vpage (n + 1)) by (unfold c, vpage in *; lia). assert (Hld : length (drop (Z.to_nat c) bs) = (length bs - Z.to_nat c)%nat) by apply length_drop.
  eapply wp_mono; [apply (IH (vpage (n + 1)) (drop (Z.to_nat c) bs) s1 H1)|].
  - unfold vpage, PGSIZE. lia.
  - rewrite Hld. lia.
  - by apply Forall_drop.
  - intros q Hq. apply HT. rewrite Hld in Hq. replace (vpage (n + 1) + Z.of_nat (length bs - Z.to_nat c)) with (va + Z.of_nat (length bs)) in Hq by lia.
    unfold vpage in Hq at 1. rewrite Z.div_mul in Hq by done. lia.
  - rewrite vpage_aligned, Hld. unfold c, PGSIZE in *. lia.
  - intros r s2 (k & Hk & H2 & C2 & V2 & Hr). rewrite Hld in Hk, Hr. exists (Z.to_nat c + k)%nat. split; [lia|]. split; [done|]. split; [|split].
    + eapply changed_trans; [eapply changed_weaken; [exact C1|]; set_solver|exact C2].
    + intros a. rewrite V2. replace (take (Z.to_nat c + k) bs) with (take (Z.to_nat c) bs ++ take k (drop (Z.to_nat c) bs)) by (by rewrite take_take_drop).
      rewrite <-uwrite_app, Hlt. replace (va + Z.of_nat (Z.to_nat c)) with (vpage (n + 1)) by lia. unfold uwrite at 1 2. destruct (decide _); [done|]. apply V1.
    + destruct Hr as [[-> ->]|(-> & Hk2 & Ha)]; [left; split; [done|lia]|right]. split_and!; [done|lia|].
      replace (va + Z.of_nat (Z.to_nat c + k)) with (vpage (n + 1) + Z.of_nat k) by lia. done.
Qed.

Lemma copyout_ok s pgdir T U R xs va buf : space s pgdir T U R xs -> 0 <= va -> va + Z.of_nat (length buf) <= KERNBASE -> byte_list buf ->
  (forall n, va / PGSIZE <= n < pgs (va + Z.of_nat (length buf)) -> is_Some (T !! (n / 1024))) ->
  wp (copyout me pgdir va buf) (copied_out s pgdir T U R xs va buf) s.
Proof using kend_high.
  intros H Hva Hend Hby HT. unfold copyout. apply copyout_from_spec; try done.
  pose proof (Z.div_mod (Z.of_nat (length buf)) PGSIZE ltac:(done)). pose proof (Z.mod_pos_bound (Z.of_nat (length buf)) PGSIZE ltac:(done)).
  pose proof (Z.mod_pos_bound va PGSIZE ltac:(done)). pose proof (Z.div_pos (Z.of_nat (length buf)) PGSIZE ltac:(lia) ltac:(done)). unfold PGSIZE in *. lia.
Qed.

(** [inituvm] of an empty address space: page 0 holds the program and zeros behind it. *)
Lemma inituvm_spec s pgdir T R xs init : space s pgdir T ∅ R xs -> Z.of_nat (length init) < PGSIZE -> byte_list init -> (3 <= length xs)%nat ->
  wp (inituvm me pgdir init) (fun _ s' => exists T' p xs', space s' pgdir T' {[0 := (p, 7)]} R xs' /\ tabs T' ++ p :: xs' ≡ₚ tabs T ++ xs /\
    changed_in (pgdir :: tabs T ++ xs) (km_mem s) (km_mem s') /\ same_kernel (km_mem s) T (km_mem s') T' /\
    forall va, 0 <= va < PGSIZE -> ubyte (km_mem s') {[0 := (p, 7)]} va = Some (default 0 (init !! Z.to_nat va))) s.
Proof using kend_high.
  intros H Hl Hb Hx. unfold inituvm. apply wp_bind, wp_panic_if; [by apply Z.leb_gt|]. apply wp_bind. eapply (take_page me kend kend_high); [exact H| |].
  { intros s1 -> . cbn in Hx. lia. }
  intros s1 p ys -> Hp Hp0 H1 Em. rewrite (proj2 (Z.eqb_neq p 0) Hp0). unfold fill. apply wp_bind, wp_modify, wp_bind.
  destruct (space_write kend [p] (memset (km_mem s1) p 0 PGSIZE) s1 pgdir T ∅ (p :: R) ys H1) as [H2 P2];
    [apply changed_fill|apply byte_memset; [done|by eapply space_byte]|set_solver|].
  set (s2 := set_mem _ s1) in *. change 0 with (vpage 0) at 1.
  eapply wp_mono; [apply (map_page me kend kend_high s2 pgdir T ∅ R ys 0 p (Z.lor PTE_W PTE_U) H2); done|]. cbn beta.
  intros r s3 (T3 & xs3 & [G1 G2] & C3 & K3 & Hfew & [[-> H3]|(-> & _)]); [|cbn in Hx; specialize (Hfew eq_refl); lia].
  change (Z.lor (Z.lor PTE_W PTE_U) PTE_P) with 7 in H3. rewrite insert_empty in H3. apply wp_modify.
  destruct (held_page kend _ _ _ _ _ _ _ H1) as (_ & Hpd & Hpt & Hpy & _).
  assert (Hp3 : p ∉ pgdir :: tabs T3). { assert (Hin : forall v, v ∈ tabs T3 -> v ∈ tabs T ++ ys) by (intros v Hv; rewrite <-G2; set_solver). set_solver. }
  assert (Hz : forall b, 0 <= b < PGSIZE -> km_mem s3 (p + b) = 0).
  { intros b Hb0. rewrite (kept_frame kend (pgdir :: tabs T3) (km_mem s2) (km_mem s3) p b C3); [|destruct (vmst_parts _ _ _ _ _ _ (sp_st _ _ _ _ _ _ _ H3)) as (? & _ & _ & _ & _ & Ht & _)| | |]; try done.
    - apply zeroed_fill. unfold in_page. lia.
    - apply Forall_cons. split; [done|]. apply Forall_forall. intros v Hv. by apply Ht. }
  pose proof (changed_put_bytes p (km_mem s3) 0 init ltac:(lia) ltac:(lia)) as C4. rewrite Z.add_0_r in C4.
  destruct (space_write kend [p] (put_bytes (km_mem s3) p init) s3 pgdir T3 {[0 := (p, 7)]} R xs3 H3 C4) as [H4 P4].
  { apply byte_put_bytes; [by eapply space_byte|done]. }
  { intros v ->%list_elem_of_singleton. apply elem_of_app. left. apply elem_frames. exists 0, 7. apply lookup_singleton_eq. }
  exists T3, p, xs3. split; [exact H4|]. split.
  { trans (p :: tabs T3 ++ xs3); [solve_Permutation|]. rewrite G2. solve_Permutation. }
  split.
  { cbn [km_mem set_mem]. rewrite <-Em. eapply changed_trans; [eapply changed_weaken; [apply (changed_fill p)|]|].
    { intros v ->%list_elem_of_singleton. set_solver. }
    eapply changed_trans; [eapply changed_weaken; [exact C3|]|].
    { intros v [->|Hv]%elem_of_cons; [by left|]. assert (Hin : v ∈ tabs T ++ ys) by (rewrite <-G2; set_solver). set_solver. }
    eapply changed_weaken; [exact C4|]. intros v ->%list_elem_of_singleton. set_solver. }
  split.
  { intros n Hn. cbn [km_mem set_mem]. rewrite P4, (K3 n Hn), <-Em. apply P2. }
  intros va Hva. unfold ubyte. rewrite Z.div_small, lookup_singleton_eq, Z.mod_small by done. cbn. f_equal.
  rewrite put_bytes_at. destruct (decide _); [by replace (p + va - p) with va by lia|]. rewrite Hz by done.
  rewrite lookup_ge_None_2; [done|lia].
Qed.


(** * Growing, shrinking, ending *)

Lemma ubyte_same_pages m m' U U' va : U' !! (va / PGSIZE) = U !! (va / PGSIZE) -> ubyte m' U va = ubyte m U va -> ubyte m' U' va = ubyte m U va.
Proof using Type. clear kend_high. unfold ubyte. by intros ->. Qed.

(** The bytes of a space do not change when only its tables and free pages do. *)
Lemma ubyte_regrown s pgdir T U R xs m' va : space s pgdir T U R xs -> changed_in (pgdir :: tabs T ++ xs) (km_mem s) m' -> ubyte m' U va = ubyte (km_mem s) U va.
Proof using Type.
  clear kend_high. intros H C. destruct (vmst_parts _ _ _ _ _ _ (sp_st _ _ _ _ _ _ _ H)) as (Hd & _ & HdR & _ & _ & Ht & _ & Hx).
  eapply (ubyte_kept kend); [exact H|exact C| |].
  - apply Forall_cons_2; [done|]. apply Forall_app_2; apply Forall_forall; [intros t Hin; by apply Ht|done].
  - intros v [->|[Hv|Hv]%elem_of_app]%elem_of_cons; [set_solver| |by eapply space_disjoint; [exact H|right]].
    destruct (Ht v Hv) as (_ & Hn & _). set_solver.
Qed.

Lemma old_page va n : 0 <= va < vpage n -> 0 <= va / PGSIZE < n.
Proof using Type. clear kend_high. intros H. split; [apply Z.div_pos; [lia|done]|]. apply Z.div_lt_upper_bound; [done|unfold vpage in *; lia]. Qed.

(** [allocuvm] to a larger size below the kernel: it returns, the process keeps its pages and
    bytes, and all pages are accounted for.  On success every new byte is zero and may be used, and there
    is nothing beyond; it fails only when memory is short, and then the process has what
    it had. *)
Theorem allocuvm_grows s pgdir T U R xs oldsz newsz : space s pgdir T U R xs -> 0 <= oldsz <= newsz -> newsz < KERNBASE ->
  (forall q, pgs oldsz <= q -> U !! q = None) ->
  wp (allocuvm me kend pgdir oldsz newsz) (fun r s' => exists T' U' xs', space s' pgdir T' U' R xs' /\
    tabs T' ++ frames U' ++ xs' ≡ₚ tabs T ++ frames U ++ xs /\ (forall q, q < pgs oldsz -> U' !! q = U !! q) /\
    (forall va, 0 <= va < vpage (pgs oldsz) -> ubyte (km_mem s') U' va = ubyte (km_mem s) U va) /\
    ((r = newsz /\ (forall va, vpage (pgs oldsz) <= va < vpage (pgs newsz) -> ubyte (km_mem s') U' va = Some 0 /\ accessible U' (va / PGSIZE) = true) /\
        (forall q, pgs newsz <= q -> U' !! q = None)) \/
     (r = 0 /\ U' = U /\ Z.of_nat (length xs) <= NPDENTRIES + pgs newsz))) s.
Proof using kend_high.
  intros H Ho Hn Hfree. eapply wp_mono; [by apply (allocuvm_spec me kend kend_high s pgdir T U R xs oldsz newsz)|]. cbn beta.
  intros r s' [[-> (T' & U' & xs' & H' & HT & Hp & _ & E & C)]|(-> & (T' & U' & xs' & H' & HT & Hp & _ & -> & C) & Hl)]; exists T', U', xs' || exists T', U, xs'.
  - assert (Hold : forall q, q < pgs oldsz -> U' !! q = U !! q) by (intros q Hq; specialize (E q); by rewrite decide_False in E by lia).
    pose proof (pgs_mono _ _ (proj2 Ho)). split_and!; try done.
    + intros va Hva. apply ubyte_same_pages; [apply Hold; by apply old_page|by eapply ubyte_regrown].
    + left. split; [done|]. split.
      * intros va Hva. pose proof (pgs_range oldsz ltac:(lia)). destruct (old_page va (pgs newsz)) as [_ Hu]; [unfold vpage, PGSIZE in *; lia|].
        assert (Hl : pgs oldsz <= va / PGSIZE) by (apply Z.div_le_lower_bound; [done|unfold vpage in *; lia]).
        specialize (E (va / PGSIZE)). rewrite decide_True in E by lia. destruct E as (p & Ep & Hz). unfold accessible, ubyte. rewrite Ep. split; [|done].
        cbn. f_equal. apply Hz. pose proof (Z.mod_pos_bound va PGSIZE ltac:(done)). unfold in_page. lia.
      * intros q Hq. specialize (E q). rewrite decide_False in E by lia. rewrite E. apply Hfree. lia.
  - split_and!; try done; [|by right]. intros va Hva. by eapply ubyte_regrown.
Qed.

(** Growing a process and shrinking it back leaves the pages and bytes it had, whether or not there
    was memory to grow; no page is lost. *)
Theorem grow_then_shrink s pgdir T U R xs oldsz newsz : space s pgdir T U R xs -> 0 <= oldsz <= newsz -> newsz < KERNBASE ->
  (forall q, pgs oldsz <= q -> U !! q = None) ->
  wp (allocuvm me kend pgdir oldsz newsz;; deallocuvm me kend pgdir newsz oldsz) (fun r s' => r = oldsz /\ exists T' xs', space s' pgdir T' U R xs' /\
    tabs T' ++ xs' ≡ₚ tabs T ++ xs /\ forall va, ubyte (km_mem s') U va = ubyte (km_mem s) U va) s.
Proof using kend_high.
  intros H Ho Hn Hfree. wp_step. eapply wp_mono; [by apply (allocuvm_spec me kend kend_high s pgdir T U R xs oldsz newsz)|]. cbn beta. intros r s1 Hr.
  assert (exists T1 U1 xs1, space s1 pgdir T1 U1 R xs1 /\ tabs T1 ++ frames U1 ++ xs1 ≡ₚ tabs T ++ frames U ++ xs /\
    (forall U', cut (pgs oldsz) (pgs newsz) U1 U' -> U' = U) /\ changed_in (pgdir :: tabs T ++ xs) (km_mem s) (km_mem s1)) as (T1 & U1 & xs1 & H1 & Hp1 & Hcut & C1).
  { destruct Hr as [[-> (T' & U' & xs' & H' & HT & Hp & _ & E & C)]|(-> & (T' & U' & xs' & H' & HT & Hp & _ & -> & C) & _)].
    - exists T', U', xs'. split_and!; try done. intros V HV. apply map_eq. intros q. rewrite HV. specialize (E q).
      destruct (decide _); [symmetry; apply Hfree; lia|done].
    - exists T', U, xs'. split_and!; try done. intros V HV. apply map_eq. intros q. rewrite HV. destruct (decide _); [symmetry; apply Hfree; lia|done]. }
  eapply wp_mono; [apply (deallocuvm_spec me kend kend_high s1 pgdir T1 U1 R xs1 newsz oldsz H1); lia|]. cbn beta.
  intros r2 s2 (-> & U2 & xs2 & H2 & HU2 & Hp2 & _ & C2 & _). split; [lia|]. apply Hcut in HU2 as ->. exists T1, xs2. split; [done|].
  assert (Hp : tabs T1 ++ xs2 ≡ₚ tabs T ++ xs).
  { apply (Permutation_app_inv_l (frames U)). trans (tabs T1 ++ frames U ++ xs2); [solve_Permutation|]. rewrite Hp2, Hp1. solve_Permutation. }
  split; [done|]. intros va. eapply ubyte_regrown; [exact H|]. eapply changed_trans; [exact C1|]. eapply changed_weaken; [exact C2|].
  intros v. rewrite Hp. intros Hv. by right.
Qed.
End user.

(** C28: The life of an address space: made, grown to [sz] bytes and freed, it gives back every page it
    took, even when memory runs out on the way. *)
Theorem address_space_returned me kend kdata (kend_high : KERNBASE < kend) (kdata_page : kdata mod PGSIZE = 0) (kdata_range : KERNLINK < kdata < KERNBASE + PHYSTOP)
  s R xs sz : free_pages kend s xs -> NoDup (R ++ xs) -> Forall (page_ok kend) (R ++ xs) -> 0 <= sz < KERNBASE ->
  wp (d ← setupkvm me kend kdata; if d =? 0 then mret tt else allocuvm me kend d 0 sz;; freevm me kend d) (fun _ s' =>
    exists xs', free_pages kend s' xs' /\ xs' ≡ₚ xs) s.
Proof.
  intros Hf Hnd Hok Hsz. wp_step. eapply wp_mono; [by apply (setupkvm_spec me kend kdata kend_high kdata_page kdata_range s R xs)|]. cbn beta.
  intros d s1 [_ [(-> & Hr & _)|(T & xs1 & H1 & Hp1 & _)]]; [by apply wp_ret|].
  destruct (vmst_parts _ _ _ _ _ _ (sp_st _ _ _ _ _ _ _ H1)) as (Hd & _). destruct (Z.eqb_spec d 0) as [->|_]; [by destruct (page_nonzero kend kend_high 0 Hd)|]. wp_step.
  eapply wp_mono; [apply (allocuvm_spec me kend kend_high s1 d T ∅ R xs1 0 sz H1); [lia|lia|done]|]. cbn beta. intros r s2 Hr.
  assert (exists T2 U2 xs2, space kend s2 d T2 U2 R xs2 /\ tabs T2 ++ frames U2 ++ xs2 ≡ₚ tabs T ++ xs1) as (T2 & U2 & xs2 & H2 & Hp2).
  { destruct Hr as [[-> (T' & U' & xs' & H' & HT & Hp & _)]|(-> & (T' & U' & xs' & H' & HT & Hp & _) & _)]; by exists T', U', xs'. }
  eapply wp_mono; [apply (freevm_spec me kend kend_high s2 d T2 U2 R xs2 H2)|]. cbn beta. intros _ s3 (xs3 & Hf3 & Hp3 & _).
  exists xs3. split; [done|]. by rewrite Hp3, Hp2.
Qed.

(** A machine that has booted and made one process of two pages: the theorems about
    address spaces at work. *)

Definition demo_data : Z := KERNLINK + 0x8000.

Lemma wp_result {S A} (m : M S A) (Q : A -> S -> Prop) s a s' : wp m Q s -> m s = Ok (a, s') -> Q a s'.
Proof. unfold wp. intros H E. by rewrite E in H. Qed.

(** Boot leaves many free pages. *)
Lemma many_pages xs : (forall v, v ∈ xs <-> page_ok demo_end v) -> 5000 <= Z.of_nat (length xs).
Proof.
  intros Hall. set (f := fun i => LOWMEM + i * PGSIZE).
  assert (Hsub : f <$> seqZ 0 5000 ⊆+ xs).
  { apply NoDup_submseteq; [apply NoDup_fmap_2; [intros i j; unfold f, PGSIZE; lia|apply NoDup_seqZ]|].
    intros v (i & -> & Hi)%list_elem_of_fmap. apply elem_of_seqZ in Hi. apply Hall. unfold f. split.
    - rewrite Z.mod_add by done. reflexivity.
    - change LOWMEM with 0x80400000. unfold demo_end, KERNLINK, KERNBASE, EXTMEM, PHYSTOP, PGSIZE. lia. }
  apply submseteq_length in Hsub. rewrite length_fmap, length_seqZ in Hsub. lia.
Qed.

Lemma demo_free_pages : exists xs, free_pages demo_end demo_init xs /\ Forall (page_ok demo_end) xs /\ 5000 <= Z.of_nat (length xs).
Proof.
  destruct (wp_result _ _ _ _ _ (kinit_all_spec 0 demo_end eq_refl ltac:(done) demo_kmem demo_start) demo_init_ok) as (xs & Hf & Hall). exists xs.
  split; [exact Hf|]. split; [apply Forall_forall; intros v Hv; by apply Hall|exact (many_pages xs Hall)].
Qed.

(** The process: two pages of memory and nothing else. *)
Record demo_process (s : kmem) (pgdir : Z) (T : gmap Z Z) (U : gmap Z (Z * Z)) (xs : list Z) : Prop := {
  dp_space : space demo_end s pgdir T U [] xs;
  dp_pages : forall q, 0 <= q < 2 -> accessible U q = true;
  dp_end : forall q, 2 <= q -> U !! q = None;
  dp_zero : forall va, 0 <= va < 8192 -> ubyte (km_mem s) U va = Some 0;
  dp_room : 3000 <= Z.of_nat (length xs)
}.

Lemma process_made s0 xs : free_pages demo_end s0 xs -> Forall (page_ok demo_end) xs -> 5000 <= Z.of_nat (length xs) ->
  exists s pgdir T U xs, demo_process s pgdir T U xs.
Proof.
  intros Hf Hok Hlen. pose proof Hf as [_ Hnd _ _ _].
  pose proof (setupkvm_spec 0 demo_end demo_data eq_refl eq_refl ltac:(done) s0 [] xs Hf Hnd Hok) as H1. apply wp_ok in H1 as (d & s1 & _ & _ & H1).
  destruct H1 as [(_ & _ & Hl)|(T & xs1 & H1 & Hp1 & _)]; [unfold NPDENTRIES in *; lia|].
  pose proof (tabs_bound _ _ _ _ _ _ (sp_st _ _ _ _ _ _ _ H1)) as Ht1. apply Permutation_length in Hp1. cbn [length] in Hp1. rewrite length_app in Hp1.
  pose proof (allocuvm_spec 0 demo_end eq_refl s1 d T ∅ [] xs1 0 8192 H1 ltac:(lia) ltac:(done) ltac:(done)) as H2. apply wp_ok in H2 as (r & s2 & _ & Hr).
  change (pgs 8192) with 2 in Hr. change (pgs 0) with 0 in Hr. change NPDENTRIES with 1024 in *. destruct Hr as [(-> & Hg)|(_ & _ & Hl)]; [|lia].
  destruct Hg as (T2 & U2 & xs2 & H2 & _ & Hp2 & _ & E & _). exists s2, d, T2, U2, xs2.
  assert (Hend : forall q, 2 <= q -> U2 !! q = None) by (intros q Hq; specialize (E q); by rewrite decide_False in E by lia). split.
  - exact H2.
  - intros q Hq. specialize (E q). rewrite decide_True in E by lia. destruct E as (p & Ep & _). unfold accessible. by rewrite Ep.
  - exact Hend.
  - intros va Hva. destruct (old_page va 2) as [Hq1 Hq2]; [exact Hva|]. specialize (E (va / PGSIZE)). rewrite decide_True in E by lia.
    destruct E as (p & Ep & Hz). unfold ubyte. rewrite Ep. cbn. f_equal. apply Hz. pose proof (Z.mod_pos_bound va PGSIZE ltac:(done)). unfold in_page. lia.
  - pose proof (tabs_bound _ _ _ _ _ _ (sp_st _ _ _ _ _ _ _ H2)) as Ht2. change NPDENTRIES with 1024 in *.
    assert (Hu : (length (frames U2) <= 2)%nat).
    { unfold frames. rewrite length_fmap, length_map_to_list, <-size_dom. change 2%nat with (length (seqZ 0 2)). rewrite <-(size_list_to_set (C := gset Z)) by apply NoDup_seqZ.
      apply subseteq_size. intros i [pf Hi]%elem_of_dom. apply elem_of_list_to_set, elem_of_seqZ. destruct (sp_dom _ _ _ _ _ _ _ H2 i pf Hi) as [[? _] _].
      split; [done|]. destruct (decide (2 <= i)) as [Hge|]; [by rewrite (Hend i Hge) in Hi|lia]. }
    apply Permutation_length in Hp2. rewrite !length_app in Hp2. change (length (frames ∅)) with 0%nat in Hp2. lia.
Qed.

Lemma demo_process_made : exists s pgdir T U xs, demo_process s pgdir T U xs.
Proof. destruct demo_free_pages as (xs & Hf & Hok & Hlen). exact (process_made _ xs Hf Hok Hlen). Qed.

Lemma demo_present s pgdir T U xs : demo_process s pgdir T U xs -> forall q, 0 <= q < 2 -> is_Some (U !! q).
Proof. intros H q Hq. pose proof (dp_pages _ _ _ _ _ H q Hq) as Ha. unfold accessible in Ha. by destruct (U !! q). Qed.

(** The child's first byte is the parent's. *)
Lemma copyuvm_isolated_witness : exists s pgdir, wp (copyuvm 0 demo_end demo_data pgdir 8192) (fun d s' => d <> 0 /\
  exists Ud, ubyte (km_mem s') Ud 4097 = Some 0) s.
Proof.
  destruct demo_process_made as (s & d & T & U & xs & H). exists s, d.
  eapply wp_mono; [apply (copyuvm_isolated 0 demo_end demo_data eq_refl eq_refl ltac:(done) s d T U [] xs 8192 (dp_space _ _ _ _ _ H) ltac:(done) (demo_present _ _ _ _ _ H))|].
  cbn beta. intros c s' [_ Hr]. pose proof (dp_room _ _ _ _ _ H). change (pgs 8192) with 2 in Hr. change NPDENTRIES with 1024 in Hr.
  destruct Hr as [(_ & xs' & lost & _ & _ & _ & Hl)|(Td & Ud & xs' & Hs & _ & _ & _ & Hb & _)]; [lia|]. split.
  - destruct (vmst_parts _ _ _ _ _ _ (sp_st _ _ _ _ _ _ _ Hs)) as (Hd & _). by apply (page_nonzero demo_end eq_refl).
  - exists Ud. destruct (Hb 4097) as [-> _]; [done|]. by apply (dp_zero _ _ _ _ _ H).
Defined.

Lemma demo_table s pgdir T U xs : demo_process s pgdir T U xs -> is_Some (T !! 0).
Proof.
  intros H. destruct (demo_present _ _ _ _ _ H 0 ltac:(lia)) as [pf E].
  exact (mapped_table demo_end eq_refl _ _ _ _ _ _ 0 pf (dp_space _ _ _ _ _ H) E).
Qed.


Lemma allocuvm_grows_witness : exists s pgdir, wp (allocuvm 0 demo_end pgdir 8192 20000) (fun r _ => r = 20000) s.
Proof.
  destruct demo_process_made as (s & d & T & U & xs & H). exists s, d.
  eapply wp_mono; [apply (allocuvm_grows 0 demo_end eq_refl s d T U [] xs 8192 20000 (dp_space _ _ _ _ _ H)); [lia|done|exact (dp_end _ _ _ _ _ H)]|].
  cbn beta. intros r s' (T' & U' & xs' & _ & _ & _ & _ & [[-> _]|(_ & _ & Hl)]); [done|]. pose proof (dp_room _ _ _ _ _ H).
  change (pgs 20000) with 5 in Hl. change NPDENTRIES with 1024 in Hl. lia.
Defined.

Lemma grow_then_shrink_witness : exists s pgdir, wp (allocuvm 0 demo_end pgdir 8192 20000;; deallocuvm 0 demo_end pgdir 20000 8192) (fun r _ => r = 8192) s.
Proof.
  destruct demo_process_made as (s & d & T & U & xs & H). exists s, d.
  eapply wp_mono; [apply (grow_then_shrink 0 demo_end eq_refl s d T U [] xs 8192 20000 (dp_space _ _ _ _ _ H)); [lia|done|exact (dp_end _ _ _ _ _ H)]|].
  cbn beta. by intros r s' [-> _].
Defined.

Lemma address_space_returned_witness : exists xs, wp (d ← setupkvm 0 demo_end demo_data; if d =? 0 then mret tt else allocuvm 0 demo_end d 0 8192;; freevm 0 demo_end d)
  (fun _ s' => exists xs', free_pages demo_end s' xs' /\ xs' ≡ₚ xs) demo_init.
Proof.
  destruct demo_free_pages as (xs & Hf & Hok & _). exists xs. pose proof Hf as [_ Hnd _ _ _].
  exact (address_space_returned 0 demo_end demo_data eq_refl eq_refl ltac:(done) demo_init [] xs 8192 Hf Hnd Hok ltac:(done)).
Defined.
