(* ===== verification/Syscall.v ===== *)
(** System-call arguments and dispatch: syscall.c.

    The kernel runs a system call on the page table of the calling process, so user memory is
    what the processor's address translation makes of the byte memory.  A load or store
    that the translation does not allow is a fault. *)

From stdpp Require Import base tactics numbers option list gmap sets strings.
From Stdlib Require Import ZArith Lia.
From S2P Require Import Prelude ProcDefs Spinlock CString Kernel Memory Kalloc Vm VmFacts VmSpace VmFork VmUser.

(** * Address translation *)

(** The entry for [va], if its table is present. *)
Definition hw_pte (m : mem) (pgdir va : Z) : option Z :=
  let pde := get32 m (u32 (pgdir + 4 * PDX va)) in
  if present pde then Some (get32 m (u32 (P2V (PTE_ADDR pde) + 4 * PTX va))) else None.
(** The address in the kernel's map of physical memory of the byte at [va]; supervisor mode. *)
Definition hw_walk (m : mem) (pgdir va : Z) : option Z :=
  e ← hw_pte m pgdir va;
  if present e then Some (u32 (P2V (PTE_ADDR e) + va mod PGSIZE)) else None.
(** Stores also need the page to be writable. *)
Definition hw_walk_w (m : mem) (pgdir va : Z) : option Z :=
  e ← hw_pte m pgdir va;
  if present e && negb (Z.land e PTE_W =? 0) then Some (u32 (P2V (PTE_ADDR e) + va mod PGSIZE)) else None.

(** The byte at user address [a] of process [p]. *)
Definition uload (m : mem) (p : proc) (a : Z) : outcome Z :=
  match p_pgdir p with
  | Some pgdir => match hw_walk m pgdir a with Some ka => Ok (m ka) | None => Err EFault end
  | None => Err EFault
  end.
Definition uload32 (m : mem) (p : proc) (a : Z) : outcome Z :=
  b0 ← uload m p a; b1 ← uload m p (u32 (a + 1)); b2 ← uload m p (u32 (a + 2)); b3 ← uload m p (u32 (a + 3));
  mret (b0 + 256 * (b1 + 256 * (b2 + 256 * b3))).
(** Bytes to user memory, from [a] on. *)
Fixpoint ustore (p : proc) (a : Z) (bs : list Z) (m : mem) : outcome mem :=
  match bs with
  | [] => Ok m
  | b :: bs =>
      match p_pgdir p ≫= fun pgdir => hw_walk_w m pgdir a with
      | Some ka => ustore p (u32 (a + 1)) bs (mput m ka b)
      | None => Err EFault
      end
  end.
Fixpoint uload_bytes (m : mem) (p : proc) (a : Z) (n : nat) : outcome (list Z) :=
  match n with
  | O => Ok []
  | S n => b ← uload m p a; bs ← uload_bytes m p (u32 (a + 1)) n; mret (b :: bs)
  end.

(** * Arguments

    The results are [None] for -1, and the value stored through the pointer argument
    otherwise. *)
Section args.
Context (m : mem) (p : proc).

Definition fetchint (addr : Z) : outcome (option Z) :=
  if (p_sz p <=? addr) || (p_sz p <? u32 (addr + 4)) then Ok None else
  v ← uload32 m p addr; mret (Some (s32 v)).

(** The loop, [k] bytes past the start. *)
Fixpoint fetchstr_from (fuel : nat) (s ep k : Z) : outcome (option Z) :=
  match fuel with
  | O => Err EFuel
  | S fuel =>
      if s <? ep then
        c ← uload m p s;
        if c =? 0 then Ok (Some k) else fetchstr_from fuel (u32 (s + 1)) ep (k + 1)
      else Ok None
  end.
(** The length; the pointer is [addr] itself. *)
Definition fetchstr (addr : Z) : outcome (option Z) :=
  if p_sz p <=? addr then Ok None else fetchstr_from (S (Z.to_nat (p_sz p - addr))) addr (p_sz p) 0.

Definition argint (n : Z) : outcome (option Z) := fetchint (u32 (tf_esp (p_tf p) + 4 + 4 * n)).

Definition argptr (n size : Z) : outcome (option Z) :=
  i ← argint n;
  match i with
  | None => Ok None
  | Some i =>
      if (size <? 0) || (p_sz p <=? u32 i) || (p_sz p <? u32 (u32 i + size)) then Ok None else Ok (Some (u32 i))
  end.

(** The address and the length of the string. *)
Definition argstr (n : Z) : outcome (option (Z * Z)) :=
  i ← argint n;
  match i with
  | None => Ok None
  | Some addr => len ← fetchstr (u32 addr); Ok (option_map (pair (u32 addr)) len)
  end.
End args.

(** * Dispatch *)

Inductive sysname :=
  | Sys_fork | Sys_exit | Sys_wait | Sys_pipe | Sys_read | Sys_kill | Sys_exec | Sys_fstat | Sys_chdir | Sys_dup | Sys_getpid
  | Sys_sbrk | Sys_sleep | Sys_uptime | Sys_open | Sys_write | Sys_mknod | Sys_unlink | Sys_link | Sys_mkdir | Sys_close
  | Sys_halt | Sys_date | Sys_getuid | Sys_getgid | Sys_getppid | Sys_setuid | Sys_setgid | Sys_getprocs
  | Sys_setpriority | Sys_getpriority.
#[global] Instance sysname_eq_dec : EqDecision sysname.
Proof. solve_decision. Defined.

(** The numbers of syscall.h. *)
Definition sys_number (c : sysname) : Z :=
  match c with
  | Sys_fork => 1 | Sys_exit => 2 | Sys_wait => 3 | Sys_pipe => 4 | Sys_read => 5 | Sys_kill => 6 | Sys_exec => 7 | Sys_fstat => 8
  | Sys_chdir => 9 | Sys_dup => 10 | Sys_getpid => 11 | Sys_sbrk => 12 | Sys_sleep => 13 | Sys_uptime => 14 | Sys_open => 15
  | Sys_write => 16 | Sys_mknod => 17 | Sys_unlink => 18 | Sys_link => 19 | Sys_mkdir => 20 | Sys_close => 21 | Sys_halt => 22
  | Sys_date => 23 | Sys_getuid => 24 | Sys_getgid => 25 | Sys_getppid => 26 | Sys_setuid => 27 | Sys_setgid => 28
  | Sys_getprocs => 29 | Sys_setpriority => 30 | Sys_getpriority => 31
  end.
(** [syscalls[]]; index 0 is a null pointer. *)
Definition syscalls : list (option sysname) :=
  None :: (Some <$> [Sys_fork; Sys_exit; Sys_wait; Sys_pipe; Sys_read; Sys_kill; Sys_exec; Sys_fstat; Sys_chdir; Sys_dup; Sys_getpid;
    Sys_sbrk; Sys_sleep; Sys_uptime; Sys_open; Sys_write; Sys_mknod; Sys_unlink; Sys_link; Sys_mkdir; Sys_close;
    Sys_halt; Sys_date; Sys_getuid; Sys_getgid; Sys_getppid; Sys_setuid; Sys_setgid; Sys_getprocs; Sys_setpriority; Sys_getpriority]).

(** The call that number [num] selects; [None] is an unknown system call. *)
Definition sys_select (num : Z) : option sysname :=
  if (0 <? num) && (num <? Z.of_nat (length syscalls)) then default None (syscalls !! Z.to_nat num) else None.

(** [syscall], in a state with the trap frame of the current process; [call] runs one system
    call and returns its result. *)
Definition syscall {S} (get_tf : M S trapframe) (set_eax : Z -> M S unit) (call : sysname -> M S Z) : M S unit :=
  tf ← get_tf;
  match sys_select (s32 (tf_eax tf)) with
  | Some c => r ← call c; set_eax (u32 r)
  | None => set_eax (u32 (-1))
  end.

(** System-call arguments: the checks of syscall.c keep every access of the kernel inside the
    memory of the calling process. *)

(** The process at a system call: its address space holds all of its [p_sz] bytes. *)
Record user_ok (kend : Z) (s : kmem) (p : proc) (U : gmap Z (Z * Z)) : Prop := {
  uo_space : exists pgdir T R xs, p_pgdir p = Some pgdir /\ space kend s pgdir T U R xs;
  uo_size : 0 <= p_sz p <= KERNBASE;
  uo_pages : forall q, 0 <= q < pgs (p_sz p) -> is_Some (U !! q)
}.

Lemma old_page_index va : 0 <= va < KERNBASE -> 0 <= va / PGSIZE < UPAGES /\ PDX va = va / PGSIZE / 1024 /\ PTX va = va / PGSIZE mod 1024.
Proof.
  intros H. assert (Hn : 0 <= va / PGSIZE < UPAGES) by (split; [apply Z.div_pos; [lia|done]|apply Z.div_lt_upper_bound; unfold UPAGES, KERNBASE, PGSIZE in *; lia]).
  split; [done|]. destruct (PDX_spec va) as [-> _]; [unfold KERNBASE in *; lia|]. destruct (PTX_spec va) as [-> _]. split; [|done].
  change (2 ^ 22) with (PGSIZE * 1024). by rewrite Z.div_div.
Qed.

Section facts.
Context (kend : Z) (kend_high : KERNBASE < kend).

(** The processor sees what the address space says. *)
Lemma hw_walk_space s pgdir T U R xs va : space kend s pgdir T U R xs -> 0 <= va < KERNBASE ->
  hw_walk (km_mem s) pgdir va = (fun pf => pf.1 + va mod PGSIZE) <$> U !! (va / PGSIZE).
Proof using kend_high.
  intros H Hva. destruct (old_page_index va Hva) as (Hn & Ed & Et).
  destruct (vmst_parts _ _ _ _ _ _ (sp_st _ _ _ _ _ _ _ H)) as (Hd & _ & _ & _ & _ & Ht & _). pose proof (page_range kend kend_high _ Hd) as Hdr.
  destruct (page_index (va / PGSIZE)) as [Hi Hj]; [unfold UPAGES in *; lia|]. unfold hw_walk, hw_pte. rewrite Ed, Et.
  rewrite (u32_small (pgdir + _)) by (unfold PGSIZE in *; lia). rewrite (dr_pde _ _ _ (vm_dir _ _ _ _ _ _ (sp_st _ _ _ _ _ _ _ H))) by done.
  pose proof (sp_pte _ _ _ _ _ _ _ H _ Hn) as Ep. unfold pte in Ep. destruct (T !! (va / PGSIZE / 1024)) as [t|] eqn:E; cbn [fmap option_fmap option_map from_option id].
  - destruct (Ht t) as [Hpt _]; [apply elem_tabs; eauto|]. destruct (page_ok_pde kend kend_high t Hpt) as (-> & -> & _). pose proof (page_range kend kend_high _ Hpt) as Htr.
    rewrite (u32_small (t + _)) by (unfold PGSIZE in *; lia). cbn. rewrite Ep. destruct (U !! (va / PGSIZE)) as [[p f]|] eqn:Eu; cbn [fmap option_fmap option_map from_option id]; [|done].
    destruct (space_frame kend kend_high _ _ _ _ _ _ _ p f H Eu) as (Hp & _). destruct (sp_dom _ _ _ _ _ _ _ H _ _ Eu) as (_ & Hf & Ho).
    destruct (upte_facts kend kend_high p f Hp Hf Ho) as (-> & -> & _ & _ & -> & _). cbn. f_equal. apply u32_small.
    pose proof (page_range kend kend_high _ Hp). pose proof (Z.mod_pos_bound va PGSIZE ltac:(done)). lia.
  - cbn. destruct (U !! (va / PGSIZE)) as [[p f]|] eqn:Eu; [exfalso|done]. cbn in Ep.
    destruct (space_frame kend kend_high _ _ _ _ _ _ _ p f H Eu) as (Hp & _). destruct (sp_dom _ _ _ _ _ _ _ H _ _ Eu) as (_ & Hf & Ho).
    destruct (upte_facts kend kend_high p f Hp Hf Ho) as (Hpr & _). by rewrite <-Ep in Hpr.
Qed.

Lemma uload_ok s p U a : user_ok kend s p U -> 0 <= a < p_sz p -> exists b, ubyte (km_mem s) U a = Some b /\ uload (km_mem s) p a = Ok b.
Proof using kend_high.
  intros [(pgdir & T & R & xs & Epg & Hs) Hsz Hpg] Ha. unfold uload. rewrite Epg, (hw_walk_space s pgdir T U R xs a Hs) by lia.
  destruct (Hpg (a / PGSIZE)) as [[q f] Eq]; [split; [apply Z.div_pos; [lia|done]|]|].
  - apply pgs_spec. unfold vpage. pose proof (Z.div_mod a PGSIZE ltac:(done)). pose proof (Z.mod_pos_bound a PGSIZE ltac:(done)). lia.
  - exists (km_mem s (q + a mod PGSIZE)). unfold ubyte. by rewrite Eq.
Qed.

(** The word at [a], as the process sees it. *)
Definition uword (v : Z -> option Z) (a : Z) : option Z :=
  b0 ← v a; b1 ← v (a + 1); b2 ← v (a + 2); b3 ← v (a + 3); Some (b0 + 256 * (b1 + 256 * (b2 + 256 * b3))).

Lemma fetchint_ok s p U addr : user_ok kend s p U -> 0 <= addr < 2 ^ 32 ->
  fetchint (km_mem s) p addr = Ok (if decide (addr + 4 <= p_sz p) then s32 <$> uword (ubyte (km_mem s) U) addr else None).
Proof using kend_high.
  intros H Ha. pose proof (uo_size _ _ _ _ H) as Hsz. unfold fetchint. unfold KERNBASE in *. destruct (Z.leb_spec (p_sz p) addr); cbn [orb].
  { by rewrite decide_False by lia. }
  rewrite u32_small by lia. destruct (Z.ltb_spec (p_sz p) (addr + 4)); [by rewrite decide_False by lia|]. rewrite decide_True by lia. unfold uload32, uword.
  rewrite !u32_small by lia.
  destruct (uload_ok s p U addr H ltac:(lia)) as (b0 & -> & ->). destruct (uload_ok s p U (addr + 1) H ltac:(lia)) as (b1 & -> & ->).
  destruct (uload_ok s p U (addr + 2) H ltac:(lia)) as (b2 & -> & ->). destruct (uload_ok s p U (addr + 3) H ltac:(lia)) as (b3 & -> & ->). done.
Qed.

(** [k] is the length of the string at [a]. *)
Definition ustring_at (v : Z -> option Z) (a k : Z) : Prop :=
  0 <= k /\ v (a + k) = Some 0 /\ forall i, 0 <= i < k -> exists c, v (a + i) = Some c /\ c <> 0.

Lemma fetchstr_from_ok s p U a : user_ok kend s p U -> forall fuel k, 0 <= a -> 0 <= k -> p_sz p - (a + k) < Z.of_nat fuel -> a + k <= p_sz p ->
  (forall i, 0 <= i < k -> exists c, ubyte (km_mem s) U (a + i) = Some c /\ c <> 0) ->
  exists r, fetchstr_from (km_mem s) p fuel (a + k) (p_sz p) k = Ok r /\
    match r with
    | Some n => a + n < p_sz p /\ ustring_at (ubyte (km_mem s) U) a n
    | None => forall i, 0 <= i < p_sz p - a -> exists c, ubyte (km_mem s) U (a + i) = Some c /\ c <> 0
    end.
Proof using kend_high.
  intros H. pose proof (uo_size _ _ _ _ H) as Hsz. unfold KERNBASE in Hsz. induction fuel as [|fuel IH]; intros k Ha Hk Hf Hend Hnz; [lia|]. cbn [fetchstr_from].
  destruct (Z.ltb_spec (a + k) (p_sz p)) as [Hlt|Hge].
  2:{ exists None. split; [done|]. intros i Hi. apply Hnz. lia. }
  destruct (uload_ok s p U (a + k) H ltac:(lia)) as (c & Eb & ->). cbn. destruct (Z.eqb_spec c 0) as [->|Hc].
  - exists (Some k). done.
  - rewrite u32_small by lia. rewrite <-Z.add_assoc. apply IH; try lia. intros i Hi. destruct (decide (i = k)) as [->|]; [by exists c|apply Hnz; lia].
Qed.

Lemma fetchstr_ok s p U a : user_ok kend s p U -> 0 <= a -> exists r, fetchstr (km_mem s) p a = Ok r /\
  match r with
  | Some n => a + n < p_sz p /\ ustring_at (ubyte (km_mem s) U) a n
  | None => p_sz p <= a \/ forall i, 0 <= i < p_sz p - a -> exists c, ubyte (km_mem s) U (a + i) = Some c /\ c <> 0
  end.
Proof using kend_high.
  intros H Ha. unfold fetchstr. destruct (Z.leb_spec (p_sz p) a); [exists None; split; [done|by left]|].
  destruct (fetchstr_from_ok s p U a H (S (Z.to_nat (p_sz p - a))) 0) as (r & E & Hr); try lia. rewrite Z.add_0_r in E.
  exists r. split; [done|]. destruct r; [done|by right].
Qed.

(** C21: A system call reads its arguments without a fault, whatever the stack pointer and the arguments are.
    Argument [n] is the word above the return address if it lies inside the process.  [argptr] accepts a pointer
    exactly when the whole block lies in the memory of the process; [argstr] accepts one exactly when a string that ends
    inside the process starts there, and returns its length. *)
Theorem syscall_args_checked s p U n size : user_ok kend s p U -> - 2 ^ 31 <= size < 2 ^ 31 ->
  let addr := u32 (tf_esp (p_tf p) + 4 + 4 * n) in
  let arg := if decide (addr + 4 <= p_sz p) then s32 <$> uword (ubyte (km_mem s) U) addr else None in
  argint (km_mem s) p n = Ok arg /\
  argptr (km_mem s) p n size = Ok (i ← arg; if decide (0 <= size /\ u32 i < p_sz p /\ u32 i + size <= p_sz p) then Some (u32 i) else None) /\
  exists r, argstr (km_mem s) p n = Ok r /\
    match r with
    | Some (a, k) => u32 <$> arg = Some a /\ a + k < p_sz p /\ ustring_at (ubyte (km_mem s) U) a k
    | None => forall i, arg = Some i -> p_sz p <= u32 i \/ forall j, 0 <= j < p_sz p - u32 i -> exists c, ubyte (km_mem s) U (u32 i + j) = Some c /\ c <> 0
    end.
Proof using kend_high.
  intros H Hsize addr arg. pose proof (uo_size _ _ _ _ H) as Hsz. unfold KERNBASE in Hsz.
  assert (Ei : argint (km_mem s) p n = Ok arg) by (apply fetchint_ok; [done|apply u32_range]). split; [done|]. unfold argptr, argstr. rewrite Ei. cbn.
  destruct arg as [i|]; [|split; [done|]; by exists None]. cbn. pose proof (u32_range i) as Hi. split.
  - destruct (Z.ltb_spec size 0); [by rewrite decide_False by lia|]. destruct (Z.leb_spec (p_sz p) (u32 i)); [by rewrite decide_False by lia|].
    rewrite (u32_small (u32 i + size)) by lia. destruct (Z.ltb_spec (p_sz p) (u32 i + size)); [by rewrite decide_False by lia|by rewrite decide_True by lia].
  - destruct (fetchstr_ok s p U (u32 i) H ltac:(lia)) as (r & -> & Hr). cbn. exists (option_map (pair (u32 i)) r). split; [done|].
    destruct r as [k|]; cbn; [by destruct Hr|]. intros j [= <-]. done.
Qed.
End facts.

(** * An example *)

(** A process of two pages whose stack pointer is 4088: its first argument is across the border of
    the pages, and is 0. *)
Definition demo_caller (pgdir : Z) : proc := set_p_tf (set_tf_esp 4088 zero_tf) (set_p_pgdir (Some pgdir) (set_p_sz 8192 zero_proc)).

Lemma syscall_args_checked_witness : exists s pgdir, argint (km_mem s) (demo_caller pgdir) 0 = Ok (Some 0) /\
  argptr (km_mem s) (demo_caller pgdir) 0 8193 = Ok None.
Proof.
  destruct demo_process_made as (s & d & T & U & xs & H). exists s, d.
  assert (Hu : user_ok demo_end s (demo_caller d) U).
  { split; [|done|exact (demo_present _ _ _ _ _ H)]. exists d, T, [], xs. split; [done|]. apply H. }
  destruct (syscall_args_checked demo_end eq_refl s (demo_caller d) U 0 8193 Hu ltac:(lia)) as (-> & -> & _). cbn [tf_esp p_tf demo_caller set_p_tf set_tf_esp p_sz set_p_pgdir set_p_sz].
  change (u32 (4088 + 4 + 4 * 0)) with 4092. rewrite decide_True by done. unfold uword.
  rewrite !(dp_zero _ _ _ _ _ H) by lia. cbn. done.
Defined.
