(* ===== verification/Sysfile.v ===== *)
(** System calls on files: sysfile.c.

    The state is the file layer with the page allocator's memory, and the process that makes the call.
    A call that has to wait for a pipe ends its step with [PSleep]. *)

From stdpp Require Import base tactics numbers option list gmap sets strings.
From Stdlib Require Import ZArith Lia.
From S2P Require Import Prelude User ProcDefs Spinlock CString Kernel Memory Kalloc Pipe Block Bytes Log Fs File Vm Syscall.

Definition STAT_SIZE : Z := 20.

Record sys (B : Type) := MkSys { sy_f : fstate B; sy_p : proc }.
Arguments MkSys {B}. Arguments sy_f {B}. Arguments sy_p {B}.

Section code.
Context {B : Type} `{!BlockIO B} `{!TxIO B}.
Local Abbreviation S := (M (sys B)).
(** The processor, [end], the device table, and the bytes that [char name[DIRSIZ]] on the stack
    starts with. *)
Context (me : nat) (kend : Z).
Context (devread : Z -> option (nat -> Z -> M (fs B) (Z * list Z))) (devwrite : Z -> option (nat -> list Z -> Z -> M (fs B) Z)).
Context (junk : list Z).

Definition set_sy_f (v : fstate B) (s : sys B) : sys B := MkSys v (sy_p s).
Definition set_sy_p (f : proc -> proc) (s : sys B) : sys B := MkSys (sy_f s) (f (sy_p s)).
Definition sy_mem (s : sys B) : mem := km_mem (fl_kmem (sy_f s)).
Definition set_sy_mem (m : mem) (s : sys B) : sys B := set_sy_f (set_kmem (set_mem m (fl_kmem (sy_f s))) (sy_f s)) s.

Definition on_f {A} (m : M (fstate B) A) : S A := zoom sy_f set_sy_f m.
Definition on_i {A} (m : M (fs B) A) : S A := on_f (on_fs m).
(** Something that only reads user memory and the process. *)
Definition arg {A} (f : mem -> proc -> outcome A) : S A := fun s =>
  match f (sy_mem s) (sy_p s) with Ok a => Ok (a, s) | Err e => Err e end.
(** Bytes to user memory. *)
Definition uput (a : Z) (bs : list Z) : S unit := fun s =>
  match ustore (sy_p s) a bs (sy_mem s) with Ok m => Ok (tt, set_sy_mem m s) | Err e => Err e end.
(** The current process and its fields. *)
Definition my {A} (f : proc -> A) : S A := gets (fun s => f (sy_p s)).
Definition my_set (f : proc -> proc) : S unit := modify (set_sy_p f).
(** The string that [argstr] accepted, with its NUL. *)
Definition ustring (al : Z * Z) : S (list Z) := arg (fun m p => uload_bytes m p al.1 (Datatypes.S (Z.to_nat al.2))).

Definition begin_call : S unit := on_f fbegin_op.
Definition end_call : S unit := on_f fend_op.
(** The operations of fs.c on behalf of this process. *)
Definition s_ilock (ip : nat) : S unit := pid ← my p_pid; on_i (ilock me pid ip).
Definition s_iunlock (ip : nat) : S unit := on_i (iunlock me ip).
Definition s_iput (ip : nat) : S unit := pid ← my p_pid; on_i (iput me pid ip).
Definition s_iunlockput (ip : nat) : S unit := pid ← my p_pid; on_i (iunlockput me pid ip).
Definition s_cwd : S nat := deref (fun s => p_cwd (sy_p s)).
(** The directory that a path starts from; the root for a path that begins with a slash. *)
Definition s_base (path : list Z) : S nat := c ← deref (fun _ => head path); if c =? SLASH then mret 0%nat else s_cwd.
Definition s_namei (path : list Z) : S (option nat) :=
  pid ← my p_pid; cwd ← s_base path; on_i (namei me pid cwd devread path).
Definition s_nameiparent (path : list Z) : S (option (nat * list Z)) :=
  pid ← my p_pid; cwd ← s_base path; on_i (nameiparent me pid cwd devread path junk).
Definition s_dirlookup (dp : nat) (name : list Z) : S (option (nat * Z)) := on_i (dirlookup me devread dp name).
Definition s_dirlink (dp : nat) (name : list Z) (inum : Z) : S Z :=
  pid ← my p_pid; on_i (dirlink me pid devread devwrite dp name inum).
Definition s_fileclose (f : nat) : S unit := pid ← my p_pid; on_f (fileclose me kend pid f).

(** * Descriptors *)

(** The descriptor and its file, or -1. *)
Definition argfd (n : Z) : S (option (Z * nat)) :=
  fd ← arg (fun m p => argint m p n);
  match fd with
  | None => mret None
  | Some fd =>
      if (fd <? 0) || (Z.of_nat NOFILE <=? fd) then mret None else
      f ← deref (fun s => p_ofile (sy_p s) !! Z.to_nat fd);
      mret (pair fd <$> f)
  end.

(** The first null entry. *)
Fixpoint free_fd (fs : list (option nat)) (i : nat) : option nat :=
  match fs with
  | [] => None
  | None :: _ => Some i
  | Some _ :: fs => free_fd fs (Datatypes.S i)
  end.
Definition set_fd (fd : nat) (v : option nat) : S unit := my_set (fun p => set_p_ofile (<[fd := v]> (p_ofile p)) p).
Definition fdalloc (f : nat) : S (option nat) :=
  fs ← my p_ofile;
  match free_fd fs 0 with
  | Some fd => set_fd fd (Some f);; mret (Some fd)
  | None => mret None
  end.

Definition sys_dup : S Z :=
  a ← argfd 0;
  match a with
  | None => mret (-1)
  | Some (_, f) =>
      fd ← fdalloc f;
      match fd with
      | None => mret (-1)
      | Some fd => on_f (filedup me f);; mret (Z.of_nat fd)
      end
  end.

(** The three arguments of read and write: the file, the address and the count. *)
Definition rw_args : S (option (nat * Z * Z)) :=
  a ← argfd 0;
  match a with
  | None => mret None
  | Some (_, f) =>
      n ← arg (fun m p => argint m p 2);
      match n with
      | None => mret None
      | Some n =>
          q ← arg (fun m p => argptr m p 1 n);
          mret ((fun q => (f, q, n)) <$> q)
      end
  end.
Definition sys_read : S (pres Z unit) :=
  a ← rw_args;
  match a with
  | None => mret (PDone (-1))
  | Some (f, q, n) =>
      pid ← my p_pid; killed ← my (fun p => negb (p_killed p =? 0));
      r ← on_f (fileread me pid killed devread f n);
      match r with
      | PSleep u => mret (PSleep u)
      | PDone (k, bs) => uput q bs;; mret (PDone k)
      end
  end.
Definition sys_write : S (pres Z (list Z)) :=
  a ← rw_args;
  match a with
  | None => mret (PDone (-1))
  | Some (f, q, n) =>
      pid ← my p_pid; killed ← my (fun p => negb (p_killed p =? 0));
      bs ← arg (fun m p => uload_bytes m p q (Z.to_nat n));
      on_f (filewrite me pid killed devwrite f bs)
  end.

Definition sys_close : S Z :=
  a ← argfd 0;
  match a with
  | None => mret (-1)
  | Some (fd, f) => set_fd (Z.to_nat fd) None;; s_fileclose f;; mret 0
  end.

(** [*st = ...]: the fields at their offsets. *)
Definition put_stat (a : Z) (st : stat) : S unit :=
  uput a (le_bytes 2 (u16 (st_type st)));; uput (u32 (a + 4)) (le_bytes 4 (u32 (st_dev st)));;
  uput (u32 (a + 8)) (le_bytes 4 (st_ino st));; uput (u32 (a + 12)) (le_bytes 2 (u16 (st_nlink st)));;
  uput (u32 (a + 16)) (le_bytes 4 (st_size st)).
Definition sys_fstat : S Z :=
  a ← argfd 0;
  match a with
  | None => mret (-1)
  | Some (_, f) =>
      q ← arg (fun m p => argptr m p 1 STAT_SIZE);
      match q with
      | None => mret (-1)
      | Some q =>
          pid ← my p_pid;
          st ← on_f (filestat me pid f);
          match st with
          | None => mret (-1)
          | Some st => put_stat q st;; mret 0
          end
      end
  end.

(** * Names *)

Definition add_link (d : Z) (ip : nat) : S unit := on_i (iwr (fun r => set_inlink (s16 (i_nlink r + d)) r) ip);; on_i (iupdate ip).

(** [goto bad] of [sys_link]. *)
Definition link_bad (ip : nat) : S Z := s_ilock ip;; add_link (-1) ip;; s_iunlockput ip;; end_call;; mret (-1).
Definition sys_link : S Z :=
  old ← arg (fun m p => argstr m p 0);
  match old with
  | None => mret (-1)
  | Some old =>
      new ← arg (fun m p => argstr m p 1);
      match new with
      | None => mret (-1)
      | Some new =>
          begin_call;;
          path ← ustring old;
          ip ← s_namei path;
          match ip with
          | None => end_call;; mret (-1)
          | Some ip =>
              s_ilock ip;;
              t ← on_i (ird i_type ip);
              if t =? T_DIR then s_iunlockput ip;; end_call;; mret (-1) else
              add_link 1 ip;;
              s_iunlock ip;;
              path ← ustring new;
              dp ← s_nameiparent path;
              match dp with
              | None => link_bad ip
              | Some (dp, name) =>
                  s_ilock dp;;
                  d1 ← on_i (ird i_dev dp); r ← on_i (ird id ip);
                  bad ← (if negb (d1 =? i_dev r) then mret true
                         else k ← s_dirlink dp name (i_inum r); mret (k <? 0));
                  if (bad : bool) then s_iunlockput dp;; link_bad ip else
                  s_iunlockput dp;; s_iput ip;; end_call;; mret 0
              end
          end
      end
  end.

(** The scan of [isdirempty]. *)
Fixpoint isdirempty_from (fuel : nat) (dp : nat) (off : Z) : S bool :=
  match fuel with
  | O => fail EFuel
  | Datatypes.S fuel =>
      size ← on_i (ird i_size dp);
      if off <? size then
        '(n, de) ← on_i (readi devread dp off DIRENT_SIZE);
        panic_if (negb (n =? DIRENT_SIZE)) "isdirempty: readi";;
        if de_inum de =? 0 then isdirempty_from fuel dp (off + DIRENT_SIZE) else mret false
      else mret true
  end.
Definition isdirempty (dp : nat) : S bool :=
  size ← on_i (ird i_size dp); isdirempty_from (dir_fuel size) dp (2 * DIRENT_SIZE).

Definition DOT : list Z := [46; 0].
Definition DOTDOT : list Z := [46; 46; 0].
(** [namecmp(s, t) == 0] *)
Definition same_name (s t : list Z) : S bool := c ← deref (fun _ => namecmp s t); mret (c =? 0).

Definition unlink_bad (dp : nat) : S Z := s_iunlockput dp;; end_call;; mret (-1).
Definition sys_unlink : S Z :=
  a ← arg (fun m p => argstr m p 0);
  match a with
  | None => mret (-1)
  | Some a =>
      begin_call;;
      path ← ustring a;
      dp ← s_nameiparent path;
      match dp with
      | None => end_call;; mret (-1)
      | Some (dp, name) =>
          s_ilock dp;;
          d ← same_name name DOT;
          dd ← (if (d : bool) then mret true else same_name name DOTDOT);
          if (dd : bool) then unlink_bad dp else
          hit ← s_dirlookup dp name;
          match hit with
          | None => unlink_bad dp
          | Some (ip, off) =>
              s_ilock ip;;
              r ← on_i (ird id ip);
              panic_if (i_nlink r <? 1) "unlink: nlink < 1";;
              full ← (if i_type r =? T_DIR then e ← isdirempty ip; mret (negb e) else mret false);
              if (full : bool) then s_iunlockput ip;; unlink_bad dp else
              w ← on_i (writei devwrite dp (replicate (Z.to_nat DIRENT_SIZE) 0) off);
              panic_if (negb (w =? DIRENT_SIZE)) "unlink: writei";;
              t ← on_i (ird i_type ip);
              (if t =? T_DIR then add_link (-1) dp else mret tt);;
              s_iunlockput dp;;
              add_link (-1) ip;;
              s_iunlockput ip;;
              end_call;;
              mret 0
          end
      end
  end.

(** The inode, locked; [ialloc] itself panics when there is none left. *)
Definition create (path : list Z) (type major minor : Z) : S (option nat) :=
  dp ← s_nameiparent path;
  match dp with
  | None => mret None
  | Some (dp, name) =>
      s_ilock dp;;
      hit ← s_dirlookup dp name;
      match hit with
      | Some (ip, _) =>
          s_iunlockput dp;;
          s_ilock ip;;
          t ← on_i (ird i_type ip);
          if (type =? T_FILE) && (t =? T_FILE) then mret (Some ip) else
          s_iunlockput ip;; mret None
      | None =>
          dev ← on_i (ird i_dev dp);
          ip ← on_i (ialloc me dev type);
          s_ilock ip;;
          on_i (iwr (set_inodev (s16 major) (s16 minor)) ip);;
          on_i (iwr (set_inlink 1) ip);;
          on_i (iupdate ip);;
          inum ← on_i (ird i_inum ip);
          (if type =? T_DIR then
             add_link 1 dp;;
             k ← s_dirlink ip DOT inum;
             panic_if (k <? 0) "create dots";;
             dinum ← on_i (ird i_inum dp);
             k ← s_dirlink ip DOTDOT dinum;
             panic_if (k <? 0) "create dots"
           else mret tt);;
          k ← s_dirlink dp name inum;
          panic_if (k <? 0) "create: dirlink";;
          s_iunlockput dp;;
          mret (Some ip)
      end
  end.

(** The inode that [open] opens, locked. *)
Definition open_inode (path : list Z) (omode : Z) : S (option nat) :=
  if negb (Z.land omode O_CREATE =? 0) then create path T_FILE 0 0 else
  ip ← s_namei path;
  match ip with
  | None => mret None
  | Some ip =>
      s_ilock ip;;
      t ← on_i (ird i_type ip);
      if (t =? T_DIR) && negb (omode =? O_RDONLY) then s_iunlockput ip;; mret None else mret (Some ip)
  end.
Definition sys_open : S Z :=
  a ← arg (fun m p => argstr m p 0);
  match a with
  | None => mret (-1)
  | Some a =>
      o ← arg (fun m p => argint m p 1);
      match o with
      | None => mret (-1)
      | Some omode =>
          begin_call;;
          path ← ustring a;
          ip ← open_inode path omode;
          match ip with
          | None => end_call;; mret (-1)
          | Some ip =>
              f ← on_f (filealloc me);
              fd ← (match f with Some f => fdalloc f | None => mret None end);
              match f, fd with
              | Some f, Some fd =>
                  s_iunlock ip;;
                  end_call;;
                  let wronly := negb (Z.land omode O_WRONLY =? 0) in
                  on_f (fwr (set_finode (negb wronly) (wronly || negb (Z.land omode O_RDWR =? 0)) ip) f);;
                  mret (Z.of_nat fd)
              | _, _ =>
                  (match f with Some f => s_fileclose f | None => mret tt end);;
                  s_iunlockput ip;; end_call;; mret (-1)
              end
          end
      end
  end.

(** The end of [sys_mkdir] and [sys_mknod]. *)
Definition made (ip : option nat) : S Z :=
  match ip with
  | None => end_call;; mret (-1)
  | Some ip => s_iunlockput ip;; end_call;; mret 0
  end.
Definition sys_mkdir : S Z :=
  begin_call;;
  a ← arg (fun m p => argstr m p 0);
  match a with
  | None => made None
  | Some a => path ← ustring a; ip ← create path T_DIR 0 0; made ip
  end.
Definition sys_mknod : S Z :=
  begin_call;;
  a ← arg (fun m p => argstr m p 0);
  match a with
  | None => made None
  | Some a =>
      major ← arg (fun m p => argint m p 1);
      match major with
      | None => made None
      | Some major =>
          minor ← arg (fun m p => argint m p 2);
          match minor with
          | None => made None
          | Some minor => path ← ustring a; ip ← create path T_DEV major minor; made ip
          end
      end
  end.

Definition sys_chdir : S Z :=
  begin_call;;
  a ← arg (fun m p => argstr m p 0);
  ip ← (match a with None => mret None | Some a => path ← ustring a; s_namei path end);
  match ip with
  | None => end_call;; mret (-1)
  | Some ip =>
      s_ilock ip;;
      t ← on_i (ird i_type ip);
      if negb (t =? T_DIR) then s_iunlockput ip;; end_call;; mret (-1) else
      s_iunlock ip;;
      cwd ← s_cwd;
      s_iput cwd;;
      end_call;;
      my_set (set_p_cwd (Some ip));;
      mret 0
  end.

Definition sys_pipe : S Z :=
  q ← arg (fun m p => argptr m p 0 8);
  match q with
  | None => mret (-1)
  | Some q =>
      pid ← my p_pid;
      fs ← on_f (pipealloc me kend pid);
      match fs with
      | None => mret (-1)
      | Some (rf, wf) =>
          fd0 ← fdalloc rf;
          fd1 ← (match fd0 with Some _ => fdalloc wf | None => mret None end);
          match fd0, fd1 with
          | Some fd0, Some fd1 =>
              uput q (le_bytes 4 (Z.of_nat fd0));; uput (u32 (q + 4)) (le_bytes 4 (Z.of_nat fd1));; mret 0
          | _, _ =>
              (match fd0 with Some fd0 => set_fd fd0 None | None => mret tt end);;
              s_fileclose rf;; s_fileclose wf;; mret (-1)
          end
      end
  end.
End code.
