(* ===== verification/Exec.v ===== *)
(** Running a program: exec.c, [loaduvm] of vm.c and [sys_exec] of sysfile.c. *)

From stdpp Require Import base tactics numbers option list gmap sets strings.
From Stdlib Require Import ZArith Lia.
From S2P Require Import Prelude ProcDefs Spinlock CString Kernel Memory Kalloc Pipe Block Bytes Log Fs File Vm VmFacts VmSpace VmFork VmUser Syscall Sysfile.

(** * elf.h *)

Definition ELF_MAGIC : Z := 0x464C457F.
Definition ELF_PROG_LOAD : Z := 1.
Record elfhdr := MkElf { eh_magic : Z; eh_entry : Z; eh_phoff : Z; eh_phnum : Z }.
Record proghdr := MkPh { ph_type : Z; ph_off : Z; ph_vaddr : Z; ph_filesz : Z; ph_memsz : Z }.
Definition ELFHDR_SIZE : Z := 52.
Definition PROGHDR_SIZE : Z := 32.
(** The fields that [exec] uses, at their offsets. *)
Definition decode_elf (b : list Z) : elfhdr := MkElf (ld32 0 b) (ld32 24 b) (ld32 28 b) (ld16 44 b).
Definition decode_ph (b : list Z) : proghdr := MkPh (ld32 0 b) (ld32 4 b) (ld32 8 b) (ld32 16 b) (ld32 20 b).

Definition MAXARG : nat := 32.

(** * The stack of a new program *)

(** Push the argument strings, each with its NUL: the stack pointer and the addresses of the
    strings, or [None] for [goto bad]. *)
Fixpoint exec_args (me : nat) (pgdir sp : Z) (argv : list (list Z)) (us : list Z) : M kmem (option (Z * list Z)) :=
  match argv with
  | [] => mret (Some (sp, us))
  | s :: argv =>
      if (MAXARG <=? length us)%nat then mret None else
      let sp := Z.land (u32 (sp - Z.of_nat (length s))) (u32 (Z.lnot 3)) in
      r ← copyout me pgdir sp s;
      if r <? 0 then mret None else exec_args me pgdir sp argv (us ++ [sp])
  end.
(** The words that go below them. *)
Definition ustack_words (sp : Z) (us : list Z) : list Z :=
  let argc := Z.of_nat (length us) in [0xffffffff; argc; u32 (sp - (argc + 1) * 4)] ++ us ++ [0].
(** The stack pointer that the program starts with. *)
Definition exec_push (me : nat) (pgdir sp : Z) (argv : list (list Z)) : M kmem (option Z) :=
  a ← exec_args me pgdir sp argv [];
  match a with
  | None => mret None
  | Some (sp, us) =>
      let ws := ustack_words sp us in
      let sp := u32 (sp - 4 * Z.of_nat (length ws)) in
      r ← copyout me pgdir sp (mjoin (le_bytes 4 <$> ws));
      mret (if r <? 0 then None else Some sp)
  end.

Section code.
Context {B : Type} `{!BlockIO B} `{!TxIO B}.
Local Abbreviation S := (M (sys B)).
Context (me : nat) (kend kdata : Z).
Context (devread : Z -> option (nat -> Z -> M (fs B) (Z * list Z))).

(** The routines of vm.c on the memory of this state. *)
Definition on_vm {A} (m : M kmem A) : S A := on_f (on_kmem m).

(** * loaduvm *)

Fixpoint loaduvm_from (fuel : nat) (pgdir addr : Z) (ip : nat) (offset i sz : Z) : S Z :=
  match fuel with
  | O => fail EFuel
  | Datatypes.S fuel =>
      if i <? sz then
        pte ← on_vm (walkpgdir me pgdir (u32 (addr + i)) false);
        panic_if (pte =? 0) "loaduvm: address should exist";;
        e ← on_vm (ldw pte);
        let pa := PTE_ADDR e in
        let n := if sz - i <? PGSIZE then sz - i else PGSIZE in
        '(k, bs) ← on_i (readi devread ip (u32 (offset + i)) n);
        on_vm (modify (fun s => set_mem (put_bytes (km_mem s) (P2V pa) bs) s));;
        if negb (u32 k =? n) then mret (-1)
        else loaduvm_from fuel pgdir addr ip offset (u32 (i + PGSIZE)) sz
      else mret 0
  end.
Definition loaduvm (pgdir addr : Z) (ip : nat) (offset sz : Z) : S Z :=
  panic_if (negb (addr mod PGSIZE =? 0)) "loaduvm: addr must be page aligned";;
  loaduvm_from (Datatypes.S (Z.to_nat (sz / PGSIZE + 1))) pgdir addr ip offset 0 sz.

(** * exec *)

(** [bad]: a null [pgdir] is 0, a null [ip] is [None]. *)
Definition exec_bad (pgdir : Z) (ip : option nat) : S Z :=
  (if pgdir =? 0 then mret tt else on_vm (freevm me kend pgdir));;
  match ip with
  | Some ip => s_iunlockput me ip;; end_call;; mret (-1)
  | None => mret (-1)
  end.

(** The program headers: the size of the image, or [None] for [goto bad]. *)
Fixpoint exec_load (n : nat) (pgdir : Z) (ip : nat) (off sz : Z) : S (option Z) :=
  match n with
  | O => mret (Some sz)
  | Datatypes.S n =>
      '(k, bs) ← on_i (readi devread ip (u32 off) PROGHDR_SIZE);
      if negb (k =? PROGHDR_SIZE) then mret None else
      let ph := decode_ph bs in
      if negb (ph_type ph =? ELF_PROG_LOAD) then exec_load n pgdir ip (s32 (off + PROGHDR_SIZE)) sz else
      if ph_memsz ph <? ph_filesz ph then mret None else
      if u32 (ph_vaddr ph + ph_memsz ph) <? ph_vaddr ph then mret None else
      sz ← on_vm (allocuvm me kend pgdir sz (u32 (ph_vaddr ph + ph_memsz ph)));
      if sz =? 0 then mret None else
      if negb (ph_vaddr ph mod PGSIZE =? 0) then mret None else
      r ← loaduvm pgdir (ph_vaddr ph) ip (ph_off ph) (ph_filesz ph);
      if r <? 0 then mret None else exec_load n pgdir ip (s32 (off + PROGHDR_SIZE)) sz
  end.

(** What follows the last slash. *)
Fixpoint last_elem (path last : list Z) : list Z :=
  match path with
  | [] => last
  | c :: path => if c =? 0 then last else last_elem path (if c =? SLASH then path else last)
  end.

(** The new image is complete: it becomes the memory of the process. *)
Definition exec_commit (path : list Z) (pgdir sz sp entry : Z) : S Z :=
  name ← my p_name;
  name ← deref (fun _ => safestrcpy name (last_elem path path) 16);
  my_set (set_p_name name);;
  oldpgdir ← my p_pgdir;
  my_set (set_p_pgdir (Some pgdir));;
  my_set (set_p_sz sz);;
  my_set (fun p => set_p_tf (set_tf_esp sp (set_tf_eip entry (p_tf p))) p);;
  kstack ← my p_kstack;
  panic_if (bool_decide (kstack = None)) "switchuvm: no kstack";;
  on_vm (freevm me kend (default 0 oldpgdir));;
  mret 0.

(** From the two pages of the stack on. *)
Definition exec_stack (path : list Z) (argv : list (list Z)) (pgdir sz entry : Z) : S Z :=
  let sz := PGROUNDUP sz in
  sz ← on_vm (allocuvm me kend pgdir sz (u32 (sz + 2 * PGSIZE)));
  if sz =? 0 then exec_bad pgdir None else
  on_vm (clearpteu me pgdir (u32 (sz - 2 * PGSIZE)));;
  sp ← on_vm (exec_push me pgdir sz argv);
  match sp with
  | None => exec_bad pgdir None
  | Some sp => exec_commit path pgdir sz sp entry
  end.

(** [path] and the strings of [argv] with their NULs. *)
Definition exec (path : list Z) (argv : list (list Z)) : S Z :=
  begin_call;;
  ip ← s_namei me devread path;
  match ip with
  | None => end_call;; mret (-1)
  | Some ip =>
      s_ilock me ip;;
      '(k, bs) ← on_i (readi devread ip 0 ELFHDR_SIZE);
      let elf := decode_elf bs in
      if negb (k =? ELFHDR_SIZE) || negb (eh_magic elf =? ELF_MAGIC) then exec_bad 0 (Some ip) else
      pgdir ← on_vm (setupkvm me kend kdata);
      if pgdir =? 0 then exec_bad 0 (Some ip) else
      sz ← exec_load (Z.to_nat (eh_phnum elf)) pgdir ip (s32 (eh_phoff elf)) 0;
      match sz with
      | None => exec_bad pgdir (Some ip)
      | Some sz =>
          s_iunlockput me ip;;
          end_call;;
          exec_stack path argv pgdir sz (eh_entry elf)
      end
  end.

(** * sys_exec *)

(** The argument vector; [None] is -1. *)
Fixpoint exec_argv (fuel : nat) (uargv : Z) (i : Z) : S (option (list (list Z))) :=
  match fuel with
  | O => mret None
  | Datatypes.S fuel =>
      uarg ← arg (fun m p => fetchint m p (u32 (uargv + 4 * i)));
      match uarg with
      | None => mret None
      | Some 0 => mret (Some [])
      | Some uarg =>
          len ← arg (fun m p => fetchstr m p (u32 uarg));
          match len with
          | None => mret None
          | Some len =>
              s ← ustring (u32 uarg, len);
              rest ← exec_argv fuel uargv (i + 1);
              mret (cons s <$> rest)
          end
      end
  end.
Definition sys_exec : S Z :=
  path ← arg (fun m p => argstr m p 0);
  match path with
  | None => mret (-1)
  | Some path =>
      uargv ← arg (fun m p => argint m p 1);
      match uargv with
      | None => mret (-1)
      | Some uargv =>
          argv ← exec_argv MAXARG (u32 uargv) 0;
          match argv with
          | None => mret (-1)
          | Some argv => path ← ustring path; exec path argv
          end
      end
  end.
End code.

(** The stack that [exec] builds for a new program. *)

(** * Bytes of a view of memory *)

Definition holds (v : Z -> option Z) (a : Z) (bs : list Z) : Prop := forall i b, bs !! i = Some b -> v (a + Z.of_nat i) = Some b.

Lemma holds_write a bs v : holds (uwrite a bs v) a bs.
Proof.
  intros i b Hi. apply lookup_lt_Some in Hi as Hl. unfold uwrite. rewrite decide_True by lia.
  by replace (Z.to_nat (a + Z.of_nat i - a)) with i by lia.
Qed.
(** Bytes outside of [lo .. hi) are the same. *)
Definition same_outside (lo hi : Z) (v v' : Z -> option Z) : Prop := forall a, a < lo \/ hi <= a -> v' a = v a.
Lemma holds_outside lo hi v v' a bs : same_outside lo hi v v' -> hi <= a -> holds v a bs -> holds v' a bs.
Proof. intros Hs Ha Hh i b Hi. rewrite Hs by lia. by apply Hh. Qed.

(** Words stored as bytes. *)
Lemma words_cons x ws : mjoin (le_bytes 4 <$> x :: ws) = le_bytes 4 x ++ mjoin (le_bytes 4 <$> ws).
Proof. done. Qed.
Lemma words_lookup ws j w k : ws !! j = Some w -> (k < 4)%nat -> mjoin (le_bytes 4 <$> ws) !! (4 * j + k)%nat = le_bytes 4 w !! k.
Proof.
  revert j. induction ws as [|x ws IH]; intros j Hj Hk; [done|]. rewrite words_cons. destruct j as [|j].
  - injection Hj as ->. rewrite lookup_app_l by (rewrite le_bytes_length; lia). f_equal; lia.
  - rewrite lookup_app_r by (rewrite le_bytes_length; lia). rewrite le_bytes_length, <-(IH j Hj Hk). f_equal; lia.
Qed.
Lemma words_length ws : length (mjoin (le_bytes 4 <$> ws)) = (4 * length ws)%nat.
Proof. induction ws as [|x ws IH]; [done|]. rewrite words_cons, length_app, IH, le_bytes_length. cbn. lia. Qed.
Lemma words_byte ws : byte_list (mjoin (le_bytes 4 <$> ws)).
Proof. induction ws as [|x ws IH]; [constructor|]. rewrite words_cons. apply Forall_app_2; [apply le_bytes_byte|exact IH]. Qed.

Lemma holds_words v a ws j w : holds v a (mjoin (le_bytes 4 <$> ws)) -> ws !! j = Some w -> 0 <= w < 2 ^ 32 -> uword v (a + 4 * Z.of_nat j) = Some w.
Proof.
  intros Hh Hj Hw. assert (E : forall k b, (k < 4)%nat -> le_bytes 4 w !! k = Some b -> v (a + 4 * Z.of_nat j + Z.of_nat k) = Some b).
  { intros k b Hk Hb. replace (a + 4 * Z.of_nat j + Z.of_nat k) with (a + Z.of_nat (4 * j + k)) by lia. apply Hh. by rewrite (words_lookup ws j w k). }
  unfold uword. pose proof (E 0%nat _ ltac:(lia) eq_refl) as E0. rewrite Z.add_0_r in E0. rewrite E0.
  pose proof (E 1%nat _ ltac:(lia) eq_refl) as E1. pose proof (E 2%nat _ ltac:(lia) eq_refl) as E2. pose proof (E 3%nat _ ltac:(lia) eq_refl) as E3.
  change (Z.of_nat 1) with 1 in E1. change (Z.of_nat 2) with 2 in E2. change (Z.of_nat 3) with 3 in E3. rewrite E1, E2, E3. cbn. f_equal.
  pose proof (le_value_bytes 4 w) as Ev. rewrite (Z.mod_small w) in Ev by (cbn; lia). cbn [le_bytes le_value] in Ev. lia.
Qed.

Section stack.
Context (me : nat) (kend : Z) (kend_high : KERNBASE < kend).
Local Abbreviation space := (space kend).

(** [copyout] within one page that the user may use. *)
Lemma copyout_page s pgdir T U R xs n sp bs : space s pgdir T U R xs -> 0 <= n < UPAGES -> accessible U n = true -> byte_list bs ->
  vpage n <= sp -> sp + Z.of_nat (length bs) <= vpage (n + 1) ->
  wp (copyout me pgdir sp bs) (fun r s' => r = 0 /\ space s' pgdir T U R xs /\
    forall a, ubyte (km_mem s') U a = uwrite sp bs (ubyte (km_mem s) U) a) s.
Proof using kend_high.
  intros H Hn Hacc Hby Hlo Hhi. assert (Hk : vpage (n + 1) <= KERNBASE) by (unfold vpage, UPAGES, KERNBASE, PGSIZE in *; lia).
  assert (Hpage : forall k, 0 <= k < Z.of_nat (length bs) -> (sp + k) / PGSIZE = n).
  { intros k Hk'. symmetry. apply (Z.div_unique_pos _ _ _ (sp + k - vpage n)); unfold vpage, PGSIZE in *; lia. }
  assert (Hus : is_Some (U !! n)) by (unfold accessible in Hacc; by destruct (U !! n)). destruct Hus as [pf Epf].
  eapply wp_mono; [apply (copyout_ok me kend kend_high s pgdir T U R xs sp bs H); try done; [unfold vpage, PGSIZE in *; lia|lia|]|].
  - intros q [Hq1 Hq2%pgs_spec]. assert (n <= sp / PGSIZE) by (apply Z.div_le_lower_bound; [done|unfold vpage in *; lia]).
    assert (q = n) as -> by (unfold vpage, PGSIZE in *; lia). by eapply mapped_table.
  - intros r s' (k & Hk2 & Hs & _ & V & Hr). destruct Hr as [[-> ->]|(_ & Hlt & Ha)].
    + split; [done|]. split; [done|]. intros a. rewrite V. by rewrite firstn_all.
    + exfalso. rewrite Hpage in Ha by lia. by rewrite Hacc in Ha.
Qed.

(** The room that the strings take, with alignment. *)
Fixpoint args_room (argv : list (list Z)) : Z :=
  match argv with [] => 0 | s :: argv => Z.of_nat (length s) + 3 + args_room argv end.
Lemma args_room_pos argv : 0 <= args_room argv.
Proof using Type. clear kend_high. induction argv; cbn; lia. Qed.

(** Where the strings went: string [i] at address [i], between [lo] and [hi]. *)
Definition placed (v : Z -> option Z) (lo hi : Z) (argv : list (list Z)) (us : list Z) : Prop :=
  length us = length argv /\ forall i a str, us !! i = Some a -> argv !! i = Some str -> lo <= a /\ a + Z.of_nat (length str) <= hi /\ holds v a str.

Lemma placed_cons v v1 v2 lo sp hi a str argv us : holds v1 a str -> sp <= a -> lo <= sp -> a + Z.of_nat (length str) <= hi -> same_outside lo sp v1 v2 -> v = v2 ->
  placed v2 lo sp argv us -> placed v lo hi (str :: argv) (a :: us).
Proof using Type.
  clear kend_high. intros Hh Hsp Hlo Hhi Hs -> [Hl Hp]. split; [cbn; by f_equal|]. intros [|i] a' str' Ha Hstr; cbn in *.
  - injection Ha as <-. injection Hstr as <-. split_and!; [lia|done|]. eapply holds_outside; [exact Hs|done|done].
  - destruct (Hp i a' str' Ha Hstr) as (? & ? & ?). split_and!; [done|lia|done].
Qed.

Lemma exec_args_spec pgdir T U R xs n : 0 <= n < UPAGES -> accessible U n = true -> forall argv sp us s, space s pgdir T U R xs -> Forall byte_list argv ->
  (length us + length argv <= MAXARG)%nat -> vpage n <= sp - args_room argv -> sp <= vpage (n + 1) ->
  wp (exec_args me pgdir sp argv us) (fun r s' => exists sp' us', r = Some (sp', us ++ us') /\ space s' pgdir T U R xs /\ sp - args_room argv <= sp' <= sp /\
    (sp mod 4 = 0 -> sp' mod 4 = 0) /\ same_outside sp' sp (ubyte (km_mem s) U) (ubyte (km_mem s') U) /\
    placed (ubyte (km_mem s') U) sp' sp argv us') s.
Proof using kend_high.
  intros Hn Hacc. induction argv as [|str argv IH]; intros sp us s H Hby Hmax Hlo Hhi; cbn [exec_args args_room] in *.
  - wp_step. exists sp, []. rewrite app_nil_r. split_and!; try done; lia.
  - cbn [length] in Hmax. apply Forall_cons in Hby as [Hstr Hby]. destruct (Nat.leb_spec MAXARG (length us)); [lia|].
    pose proof (args_room_pos argv). assert (0 <= vpage n /\ vpage (n + 1) <= KERNBASE) by (unfold vpage, UPAGES, KERNBASE, PGSIZE in *; lia). unfold KERNBASE in *.
    rewrite u32_small by lia. rewrite land_word by lia. remember (sp - Z.of_nat (length str)) as x eqn:Ex. pose proof (Z.mod_pos_bound x 4 ltac:(lia)).
    remember (x - x mod 4) as sp1 eqn:Es1. assert (Hal : sp1 mod 4 = 0) by (rewrite Es1, Zminus_mod, Zmod_mod, Z.sub_diag; done). wp_step.
    eapply wp_mono; [apply (copyout_page s pgdir T U R xs n sp1 str H Hn Hacc Hstr); lia|]. cbn beta. intros r s1 (-> & HS1 & V1).
    change (0 <? 0) with false. eapply wp_mono; [apply (IH sp1 (us ++ [sp1]) s1 HS1 Hby)|].
    + rewrite length_app. cbn. lia.
    + lia.
    + lia.
    + cbn beta. intros r s2 (sp2 & us2 & -> & HS2 & Hr & Hm & Hs & Hp). exists sp2, (sp1 :: us2). rewrite <-(assoc_L (++)). split_and!; try done; [lia..|by intros _; apply Hm| |].
      * intros a Ha. rewrite Hs by lia. rewrite V1. unfold uwrite. by rewrite decide_False by lia.
      * eapply (placed_cons _ (ubyte (km_mem s1) U) _ sp2 sp1); [|done|lia|lia|exact Hs|done|exact Hp].
        intros i b Hi. rewrite V1. by apply holds_write.
Qed.

Lemma ustack_length sp us : length (ustack_words sp us) = (length us + 4)%nat.
Proof using Type. clear kend_high. unfold ustack_words. rewrite !length_app. cbn. lia. Qed.

(** C24: A program started by [exec] finds its arguments where the calling convention puts them.  When the strings
    and the vector fit into the stack page, pushing them succeeds; the stack pointer is aligned and points to a
    return address, the count, a pointer to the vector, the vector itself and a null pointer; entry [i]
    of the vector points to string [i]; no other byte of the program changes. *)
Theorem exec_push_layout s pgdir T U R xs n argv : space s pgdir T U R xs -> 0 <= n < UPAGES -> accessible U n = true -> Forall byte_list argv ->
  (length argv <= MAXARG)%nat -> args_room argv + 4 * (Z.of_nat (length argv) + 4) <= PGSIZE ->
  wp (exec_push me pgdir (vpage (n + 1)) argv) (fun r s' => exists sp us, let v := ubyte (km_mem s') U in
    r = Some sp /\ vpage n <= sp /\ sp mod 4 = 0 /\ space s' pgdir T U R xs /\ same_outside sp (vpage (n + 1)) (ubyte (km_mem s) U) v /\
    uword v sp = Some 0xffffffff /\ uword v (sp + 4) = Some (Z.of_nat (length argv)) /\ uword v (sp + 8) = Some (sp + 12) /\
    (forall i a, us !! i = Some a -> uword v (sp + 12 + 4 * Z.of_nat i) = Some a) /\ uword v (sp + 12 + 4 * Z.of_nat (length argv)) = Some 0 /\
    placed v sp (vpage (n + 1)) argv us) s.
Proof using kend_high.
  intros H Hn Hacc Hby Hmax Hroom. pose proof (args_room_pos argv) as Hpos.
  assert (Hv : 0 <= vpage n /\ vpage (n + 1) = vpage n + PGSIZE /\ vpage (n + 1) < 2 ^ 32) by (unfold vpage, UPAGES, PGSIZE in *; lia).
  unfold exec_push. wp_step. eapply wp_mono; [apply (exec_args_spec pgdir T U R xs n Hn Hacc argv (vpage (n + 1)) [] s H Hby); cbn; lia|]. cbn beta.
  intros r s1 (sp1 & us & -> & H1 & Hr & Hm & Hs & [Hlen Hp]). cbn [app]. rewrite ustack_length, Hlen. set (ws := ustack_words sp1 us).
  assert (Hal : sp1 mod 4 = 0) by (apply Hm; unfold vpage, PGSIZE; rewrite (Z.mul_comm (n + 1)); change 4096 with (4 * 1024); rewrite <-Z.mul_assoc, Z.mul_comm; by apply Z.mod_mul).
  rewrite u32_small by lia. set (sp := sp1 - 4 * Z.of_nat (length argv + 4)).
  assert (Hws : forall w, w ∈ ws -> 0 <= w < 2 ^ 32).
  { intros w Hw. unfold ws, ustack_words in Hw. rewrite !elem_of_app, !elem_of_cons in Hw. destruct Hw as [[->|[->|[->|Hw]]]|[Hw|[->|Hw]]]; try lia; try by apply not_elem_of_nil in Hw.
    - apply u32_range.
    - apply list_elem_of_lookup in Hw as [i Hi]. destruct (lookup_lt_is_Some_2 argv i) as [str Hstr]; [apply lookup_lt_Some in Hi; lia|].
      destruct (Hp i w str Hi Hstr) as (? & ? & _). lia. }
  wp_step. eapply wp_mono; [apply (copyout_page s1 pgdir T U R xs n sp (mjoin (le_bytes 4 <$> ws)) H1 Hn Hacc (words_byte ws)); rewrite ?words_length; unfold ws, sp; rewrite ?ustack_length; lia|].
  cbn beta. intros r s2 (-> & H2 & V2). wp_step. change (0 <? 0) with false. exists sp, us. cbn zeta.
  assert (Hh : holds (ubyte (km_mem s2) U) sp (mjoin (le_bytes 4 <$> ws))) by (intros i b Hi; rewrite V2; by apply holds_write).
  assert (Hout : same_outside sp sp1 (ubyte (km_mem s1) U) (ubyte (km_mem s2) U)).
  { intros a Ha. rewrite V2. unfold uwrite. rewrite decide_False; [done|]. rewrite words_length. unfold ws, sp in *. rewrite ustack_length. lia. }
  assert (Hw : forall j w, ws !! j = Some w -> uword (ubyte (km_mem s2) U) (sp + 4 * Z.of_nat j) = Some w).
  { intros j w Hj. eapply holds_words; [exact Hh|exact Hj|]. apply Hws. by eapply list_elem_of_lookup_2. }
  split_and!; try done.
  - unfold sp. lia.
  - unfold sp. rewrite Zminus_mod, Hal, Z.mul_comm, Z.mod_mul by done. done.
  - intros a Ha. rewrite Hout by (unfold sp in *; lia). apply Hs. unfold sp in *. lia.
  - specialize (Hw 0%nat _ eq_refl). by rewrite Z.add_0_r in Hw.
  - rewrite <-Hlen. exact (Hw 1%nat _ eq_refl).
  - replace (sp + 12) with (u32 (sp1 - (Z.of_nat (length us) + 1) * 4)) by (rewrite u32_small; unfold sp; lia). exact (Hw 2%nat _ eq_refl).
  - intros i a Hi. replace (sp + 12 + 4 * Z.of_nat i) with (sp + 4 * Z.of_nat (3 + i)) by lia. apply Hw. unfold ws, ustack_words. cbn. apply lookup_app_l_Some. exact Hi.
  - replace (sp + 12 + 4 * Z.of_nat (length argv)) with (sp + 4 * Z.of_nat (3 + length us)) by lia. apply Hw. change ((us ++ [0]) !! length us = Some 0). by apply list_lookup_middle.
  - split; [done|]. intros i a str Hi Hstr. destruct (Hp i a str Hi Hstr) as (? & ? & Hh'). split_and!; [unfold sp; lia|done|]. eapply holds_outside; [exact Hout|done|done].
Qed.
End stack.

(** * An example *)

(** The program ["a" "bc"] on the upper of the two pages of the example process. *)
Lemma exec_push_layout_witness : exists s pgdir U, wp (exec_push 0 pgdir 8192 [[97; 0]; [98; 99; 0]]) (fun r s' => exists sp,
  r = Some sp /\ uword (ubyte (km_mem s') U) (sp + 4) = Some 2) s.
Proof.
  destruct demo_process_made as (s & d & T & U & xs & H). exists s, d, U. change 8192 with (vpage (1 + 1)).
  eapply wp_mono; [apply (exec_push_layout 0 demo_end eq_refl s d T U [] xs 1 [[97; 0]; [98; 99; 0]] (dp_space _ _ _ _ _ H)); [done|by apply (dp_pages _ _ _ _ _ H)| |cbn; unfold MAXARG; lia|done]|].
  - repeat constructor; lia.
  - cbn beta zeta. intros r s' (sp & us & -> & _ & _ & _ & _ & _ & Hc & _). by exists sp.
Defined.
