(* ===== verification/Bootmain.v ===== *)
(** The boot loader: bootmain.c.

    The state is physical memory, the registers of the disk controller as last written, and how often
    its status was read.  [dsk a] is the byte at position [a] of the boot disk and [status n] what the
    [n]-th read of the status gives. *)

From stdpp Require Import base tactics numbers option list strings.
From Stdlib Require Import ZArith Lia Sorted.
From S2P Require Import Prelude CString Bytes Memory Exec.

Definition SECTSIZE : Z := 512.
(** Where the ELF header is read to. *)
Definition scratch : Z := 0x10000.

Record bstate := MkB { b_mem : mem; b_regs : Z -> Z; b_polls : nat }.

Section boot.
Context (dsk : Z -> Z) (status : nat -> Z).

Definition boot_outb (port v : Z) : M bstate unit :=
  modify (fun s => MkB (b_mem s) (fun p => if p =? port then u8 v else b_regs s p) (b_polls s)).

Fixpoint waitdisk (fuel : nat) : M bstate unit :=
  match fuel with
  | O => fail EFuel
  | S fuel =>
      n ← gets b_polls;
      modify (fun s => MkB (b_mem s) (b_regs s) (S n));;
      if Z.land (status n) 0xC0 =? 0x40 then mret tt else waitdisk fuel
  end.

(** The sector that the registers select. *)
Definition lba (r : Z -> Z) : Z :=
  r 0x1F3 + 2 ^ 8 * r 0x1F4 + 2 ^ 16 * r 0x1F5 + 2 ^ 24 * Z.land (r 0x1F6) 0xF.
(** [insl(0x1F0, dst, SECTSIZE/4)] takes that sector from the disk. *)
Definition insl (dst : Z) : M bstate unit :=
  modify (fun s => MkB (fun a => if (dst <=? a) && (a <? dst + SECTSIZE) then dsk (SECTSIZE * lba (b_regs s) + (a - dst)) else b_mem s a)
    (b_regs s) (b_polls s)).

Definition readsect (fuel : nat) (dst offset : Z) : M bstate unit :=
  waitdisk fuel;;
  boot_outb 0x1F2 1;;
  boot_outb 0x1F3 offset;;
  boot_outb 0x1F4 (Z.shiftr offset 8);;
  boot_outb 0x1F5 (Z.shiftr offset 16);;
  boot_outb 0x1F6 (Z.lor (Z.shiftr offset 24) 0xE0);;
  boot_outb 0x1F7 0x20;;
  waitdisk fuel;;
  insl dst.

(** [n] bounds the sectors. *)
Fixpoint readseg_loop (fuel n : nat) (pa epa offset : Z) : M bstate unit :=
  if epa <=? pa then mret tt else
  match n with
  | O => fail EFuel
  | S n => readsect fuel pa offset;; readseg_loop fuel n (u32 (pa + SECTSIZE)) epa (u32 (offset + 1))
  end.
Definition readseg (fuel : nat) (pa count offset : Z) : M bstate unit :=
  let epa := u32 (pa + count) in
  let pa := u32 (pa - offset mod SECTSIZE) in
  let offset := u32 (offset / SECTSIZE + 1) in
  readseg_loop fuel (Z.to_nat (count / SECTSIZE + 2)) pa epa offset.

(** A word and a half word of a structure in memory. *)
Definition word (a : Z) : M bstate Z := gets (fun s => get32 (b_mem s) a).
Definition half (a : Z) : M bstate Z := gets (fun s => b_mem s a + 256 * b_mem s (a + 1)).

Definition load_segment (fuel : nat) (off pa filesz memsz : Z) : M bstate unit :=
  readseg fuel pa filesz off;;
  if filesz <? memsz then
    modify (fun s => MkB (stosb (b_mem s) (u32 (pa + filesz)) 0 (Z.to_nat (memsz - filesz))) (b_regs s) (b_polls s))
  else mret tt.
Fixpoint load_segments (fuel n : nat) (ph : Z) : M bstate unit :=
  match n with
  | O => mret tt
  | S n =>
      off ← word (ph + 4);
      pa ← word (ph + 12);
      filesz ← word (ph + 16);
      memsz ← word (ph + 20);
      load_segment fuel off pa filesz memsz;;
      load_segments fuel n (u32 (ph + PROGHDR_SIZE))
  end.
(** Where the kernel is entered, or nothing when the disk does not hold one. *)
Definition bootmain (fuel : nat) : M bstate (option Z) :=
  readseg fuel scratch 4096 0;;
  magic ← word scratch;
  if negb (magic =? ELF_MAGIC) then mret None else
  phoff ← word (scratch + 28);
  phnum ← half (scratch + 44);
  load_segments fuel (Z.to_nat phnum) (u32 (scratch + phoff));;
  entry ← word (scratch + 24);
  mret (Some entry).

(** * Reading *)

Context (fuel : nat) (Hready : forall n, exists k, (k < fuel)%nat /\ Z.land (status (n + k)) 0xC0 = 0x40).

Lemma waitdisk_ends : forall f s, (exists k, (k < f)%nat /\ Z.land (status (b_polls s + k)) 0xC0 = 0x40) ->
  wp (waitdisk f) (fun _ s' => b_mem s' = b_mem s /\ b_regs s' = b_regs s) s.
Proof.
  induction f as [|f IH]; intros s (k & Hk & Hs); [lia|]. cbn [waitdisk]. wp_steps.
  destruct (_ =? 0x40) eqn:E; [by apply wp_ret|]. eapply wp_mono; [apply IH|by cbn].
  destruct k as [|k]; [rewrite Nat.add_0_r in Hs; rewrite Hs in E; done|]. exists k. split; [lia|]. cbn.
  by replace (S (b_polls s + k)) with (b_polls s + S k)%nat by lia.
Qed.

(** The registers name the sector. *)
Lemma high_bits x : 0 <= x < 16 -> Z.land (u8 (Z.lor x 0xE0)) 0xF = x.
Proof.
  intros Hx. assert (H : forallb (fun x => Z.land (u8 (Z.lor x 0xE0)) 0xF =? x) (seqZ 0 16) = true) by (vm_compute; reflexivity).
  rewrite forallb_forall in H. apply Z.eqb_eq, H. apply list_elem_of_In, elem_of_seqZ. lia.
Qed.
Lemma split_bytes o : 0 <= o < 2 ^ 28 -> u8 o + 2 ^ 8 * u8 (Z.shiftr o 8) + 2 ^ 16 * u8 (Z.shiftr o 16) + 2 ^ 24 * Z.shiftr o 24 = o.
Proof.
  intros Ho. rewrite !Z.shiftr_div_pow2 by lia. unfold u8. change (2 ^ 16) with (2 ^ 8 * 2 ^ 8). change (2 ^ 24) with (2 ^ 8 * 2 ^ 8 * 2 ^ 8).
  rewrite <-!Z.div_div by lia. pose proof (Z.div_mod o (2 ^ 8) ltac:(lia)). pose proof (Z.div_mod (o / 2 ^ 8) (2 ^ 8) ltac:(lia)).
  pose proof (Z.div_mod (o / 2 ^ 8 / 2 ^ 8) (2 ^ 8) ltac:(lia)). lia.
Qed.
(** Memory with the bytes of the disk from [d] on at [a..e). *)
Definition filled (m : mem) (a e d : Z) : mem := fun x => if (a <=? x) && (x <? e) then dsk (d + (x - a)) else m x.
Lemma readsect_runs dst o s : 0 <= o < 2 ^ 28 ->
  wp (readsect fuel dst o) (fun _ s' => forall x, b_mem s' x = filled (b_mem s) dst (dst + SECTSIZE) (SECTSIZE * o) x) s.
Proof.
  intros Ho. unfold readsect. apply wp_bind. eapply wp_mono; [apply waitdisk_ends, Hready|]. cbn beta. intros [] s1 [H1 H2].
  unfold boot_outb at 1 2 3 4 5 6. wp_steps. eapply wp_mono; [apply waitdisk_ends, Hready|]. cbn beta. intros [] s2 [H3 H4].
  unfold insl. apply wp_modify. cbn [b_mem]. intros x. rewrite H3, H4. cbn [b_mem b_regs]. rewrite H1. unfold filled, lba.
  cbn [Z.eqb Pos.eqb]. rewrite high_bits, split_bytes; [done..|]. rewrite Z.shiftr_div_pow2 by lia.
  split; [apply Z.div_pos; lia|apply Z.div_lt_upper_bound; lia].
Qed.

Lemma readseg_loop_runs n : forall pa epa o s, 0 <= pa < epa + SECTSIZE -> epa + SECTSIZE < 2 ^ 32 -> 0 <= o -> o + Z.of_nat n < 2 ^ 28 ->
  epa - pa <= SECTSIZE * Z.of_nat n ->
  wp (readseg_loop fuel n pa epa o) (fun _ s' => exists e, pa <= e /\ epa <= e < epa + SECTSIZE /\
    forall x, b_mem s' x = filled (b_mem s) pa e (SECTSIZE * o) x) s.
Proof.
  unfold SECTSIZE. induction n as [|n IH]; intros pa epa o s Hpa Hepa Ho Hon Hn; cbn [readseg_loop].
  - rewrite (proj2 (Z.leb_le _ _)) by lia. apply wp_ret. exists pa. split_and!; [lia..|]. intros x. unfold filled.
    destruct (Z.leb_spec pa x), (Z.ltb_spec x pa); done || lia.
  - destruct (Z.leb_spec epa pa) as [Hle|Hlt].
    { apply wp_ret. exists pa. split_and!; [lia..|]. intros x. unfold filled. destruct (Z.leb_spec pa x), (Z.ltb_spec x pa); done || lia. }
    apply wp_bind. eapply wp_mono; [apply readsect_runs; lia|]. cbn beta. intros [] s1 H1. unfold SECTSIZE in *.
    rewrite !u32_small by lia. eapply wp_mono; [apply IH; lia|]. cbn beta. intros [] s2 (e & He1 & He2 & H2).
    exists e. split; [lia|]. split; [done|]. intros x. rewrite H2. unfold filled. rewrite H1. unfold filled.
    destruct (Z.leb_spec (pa + 512) x), (Z.ltb_spec x e), (Z.leb_spec pa x), (Z.ltb_spec x (pa + 512)); cbn [andb]; try done; try lia.
    f_equal. lia.
Qed.
(** The file from sector 1 on. *)
Definition file (a : Z) : Z := dsk (SECTSIZE + a).
Lemma readseg_runs pa count off s : 0 <= off < 2 ^ 32 -> 0 <= count -> off mod SECTSIZE <= pa -> pa + count + SECTSIZE < 2 ^ 32 ->
  wp (readseg fuel pa count off) (fun _ s' => exists e, pa + count <= e /\
    forall x, b_mem s' x = if (pa - off mod SECTSIZE <=? x) && (x <? e) then file (off + (x - pa)) else b_mem s x) s.
Proof.
  unfold SECTSIZE. intros Ho Hc Hpa Hlim. unfold readseg, SECTSIZE. pose proof (Z.mod_pos_bound off 512 ltac:(lia)).
  pose proof (Z.div_mod off 512 ltac:(lia)). pose proof (Z.div_mod count 512 ltac:(lia)). pose proof (Z.mod_pos_bound count 512 ltac:(lia)).
  assert (0 <= off / 512) by (apply Z.div_pos; lia). assert (0 <= count / 512) by (apply Z.div_pos; lia).
  rewrite !u32_small by lia. eapply wp_mono; [apply readseg_loop_runs; unfold SECTSIZE; lia|]. unfold SECTSIZE. cbn beta.
  intros [] s' (e & He1 & He2 & H'). exists e. split; [lia|]. intros x. rewrite H'. unfold filled.
  destruct (_ && _); [|done]. unfold file, SECTSIZE. f_equal. lia.
Qed.

(** * Loading *)

Record segment := MkSeg { sg_off : Z; sg_pa : Z; sg_filesz : Z; sg_memsz : Z }.
Definition seg_at (h : Z) : segment :=
  MkSeg (get32 file (h + 4)) (get32 file (h + 12)) (get32 file (h + 16)) (get32 file (h + 20)).
Fixpoint segs (n : nat) (h : Z) : list segment :=
  match n with O => [] | S n => seg_at h :: segs n (h + PROGHDR_SIZE) end.
(** What a segment takes up, and the first byte that loading it writes. *)
Definition sg_end (g : segment) : Z := sg_pa g + Z.max (sg_filesz g) (sg_memsz g).
Definition sg_start (g : segment) : Z := sg_pa g - sg_off g mod SECTSIZE.
Definition loaded (m : mem) (g : segment) : Prop :=
  forall i, 0 <= i < Z.max (sg_filesz g) (sg_memsz g) -> m (sg_pa g + i) = if i <? sg_filesz g then file (sg_off g + i) else 0.
(** Above the scratch page and not too high. *)
Definition seg_fits (g : segment) : Prop := scratch + 4096 <= sg_start g /\ sg_end g + SECTSIZE < 2 ^ 32.
Definition header_kept (m : mem) : Prop := forall x, 0 <= x < 4096 -> m (scratch + x) = file x.

Context (Hbyte : forall a, 0 <= dsk a < 256).
Lemma file_word_range a : 0 <= get32 file a < 2 ^ 32.
Proof.
  unfold get32, file. pose proof (Hbyte (SECTSIZE + a)). pose proof (Hbyte (SECTSIZE + (a + 1))).
  pose proof (Hbyte (SECTSIZE + (a + 2))). pose proof (Hbyte (SECTSIZE + (a + 3))). lia.
Qed.
Lemma header_word m h : header_kept m -> 0 <= h -> h + 4 <= 4096 -> get32 m (scratch + h) = get32 file h.
Proof. intros H H0 H4. unfold get32. rewrite <-!Z.add_assoc, !H by lia. done. Qed.

Lemma load_segment_runs h s : let g := seg_at h in seg_fits g ->
  wp (load_segment fuel (sg_off g) (sg_pa g) (sg_filesz g) (sg_memsz g)) (fun _ s' => loaded (b_mem s') g /\ forall x, x < sg_start g -> b_mem s' x = b_mem s x) s.
Proof.
  intros g [Hlo Hhi]. unfold sg_start, sg_end, scratch, SECTSIZE in *.
  pose proof (file_word_range (h + 4) : 0 <= sg_off g < 2 ^ 32). pose proof (file_word_range (h + 12) : 0 <= sg_pa g < 2 ^ 32).
  pose proof (file_word_range (h + 16) : 0 <= sg_filesz g < 2 ^ 32). pose proof (file_word_range (h + 20) : 0 <= sg_memsz g < 2 ^ 32).
  pose proof (Z.mod_pos_bound (sg_off g) 512 ltac:(lia)). clearbody g. unfold load_segment. apply wp_bind.
  eapply wp_mono; [apply readseg_runs; unfold SECTSIZE; lia|]. unfold SECTSIZE. cbn beta. intros [] s1 (e & He & Hm).
  destruct (Z.ltb_spec (sg_filesz g) (sg_memsz g)) as [Hlt|Hge].
  - apply wp_modify. cbn [b_mem]. rewrite u32_small by lia. split.
    + intros i Hi. rewrite stosb_spec, Hm. destruct (Z.ltb_spec i (sg_filesz g)).
      * rewrite (proj2 (Z.leb_gt _ _)) by lia. cbn [andb]. rewrite (proj2 (Z.leb_le _ _)), (proj2 (Z.ltb_lt _ _)) by lia. cbn [andb]. f_equal. lia.
      * rewrite (proj2 (Z.leb_le _ _)), (proj2 (Z.ltb_lt _ _)) by lia. done.
    + intros x Hx. rewrite stosb_spec, Hm. rewrite !(proj2 (Z.leb_gt _ x)) by lia. done.
  - apply wp_ret. split.
    + intros i Hi. rewrite Hm. rewrite (proj2 (Z.leb_le _ _)), (proj2 (Z.ltb_lt _ _)) by lia. cbn [andb].
      rewrite (proj2 (Z.ltb_lt _ _)) by lia. f_equal. lia.
    + intros x Hx. rewrite Hm. by rewrite (proj2 (Z.leb_gt _ x)) by lia.
Qed.

(** Each segment starts where the ones before it have ended. *)
Definition in_order (gs : list segment) : Prop := StronglySorted (fun g g' => sg_end g <= sg_start g') gs.
Lemma load_segments_run n : forall h done s, 0 <= h -> h + PROGHDR_SIZE * Z.of_nat n <= 4096 -> Forall seg_fits (segs n h) ->
  in_order (segs n h) -> (forall g g', g ∈ done -> g' ∈ segs n h -> sg_end g <= sg_start g') ->
  header_kept (b_mem s) -> Forall (loaded (b_mem s)) done ->
  wp (load_segments fuel n (scratch + h)) (fun _ s' => header_kept (b_mem s') /\ Forall (loaded (b_mem s')) (done ++ segs n h)) s.
Proof.
  unfold PROGHDR_SIZE. induction n as [|n IH]; intros h dn s Hh Hlim Hfit Hord Hdn Hhd Hl; cbn [load_segments segs].
  { apply wp_ret. by rewrite app_nil_r. }
  cbn [segs] in *. apply Forall_cons in Hfit as [Hg Hfit]. apply StronglySorted_inv in Hord as [Hord Hgt]. unfold word. wp_steps.
  rewrite <-!Z.add_assoc, !header_word by (done || lia). eapply wp_mono; [by apply (load_segment_runs h)|].
  cbn beta. intros [] s1 [H1 H2]. unfold PROGHDR_SIZE in *. rewrite u32_small by (unfold scratch; lia). rewrite <-?Z.add_assoc.
  eapply wp_mono; [apply (IH (h + 32) (dn ++ [seg_at h]))|]; [lia..|done|done| | | |].
  - intros g g' [Hin| ->%list_elem_of_singleton]%elem_of_app Hg'; [apply Hdn; [done|by right]|]. rewrite Forall_forall in Hgt. by apply Hgt.
  - destruct Hg as [Hg _]. intros x Hx. rewrite H2 by (unfold scratch in *; lia). by apply Hhd.
  - apply Forall_app. split; [|by apply Forall_singleton]. rewrite Forall_forall in Hl |- *. intros g Hin i Hi.
    specialize (Hdn g (seg_at h) Hin ltac:(by left)). unfold sg_end in Hdn. rewrite H2 by lia. by apply Hl.
  - cbn beta. intros [] s2 [H3 H4]. split; [done|]. by rewrite <-app_assoc in H4.
Qed.

End boot.

(** A kernel of two segments, the second with zeroes behind it. *)
Definition demo_image : list Z :=
  le_bytes 4 ELF_MAGIC ++ replicate 20 0 ++ le_bytes 4 0x10000C ++ le_bytes 4 52 ++ replicate 12 0 ++ le_bytes 2 2 ++ replicate 6 0 ++
  flat_map (le_bytes 4) [1; 0x1000; 0x80100000; 0x100000; 0x520; 0x520; 5; 0x1000] ++
  flat_map (le_bytes 4) [1; 0x1540; 0x80100800; 0x100800; 0x30; 0x90; 6; 0x1000].
Definition demo_disk (a : Z) : Z :=
  if (512 <=? a) && (a <? 512 + 116) then default 0 (demo_image !! Z.to_nat (a - 512)) else (a * 7) mod 256.
Lemma demo_image_bytes : Forall (fun b => 0 <= b < 256) demo_image.
Proof.
  assert (H : forallb (fun b => (0 <=? b) && (b <? 256)) demo_image = true) by (vm_compute; reflexivity).
  apply Forall_forall. intros b Hb. rewrite forallb_forall in H. specialize (H b ltac:(by apply list_elem_of_In)). lia.
Qed.
Lemma demo_disk_bytes a : 0 <= demo_disk a < 256.
Proof.
  unfold demo_disk. destruct (_ && _); [|apply Z.mod_pos_bound; lia]. destruct (demo_image !! _) as [b|] eqn:E; cbn; [|lia].
  pose proof demo_image_bytes as H. rewrite Forall_lookup in H. by eapply H.
Qed.
