(* ===== verification/Printf.v ===== *)
(** Formatted output: [printint] and [cprintf] of console.c, and [printint] and [printf] of
    printf.c.

    The functions give the characters in the order in which they are handed to [consputc] or
    [putc].  The variable arguments are the words behind the format on the stack; [str p] is the
    C string at the pointer [p].  [None] is a write past the end of [char buf[16]] or a read
    past the last argument. *)

From stdpp Require Import base tactics numbers option list sets strings.
From Stdlib Require Import ZArith Lia Ascii.
From S2P Require Import Prelude CString User.

(** C escapes in a format. *)
Fixpoint esc (s : string) : string :=
  match s with
  | String "\" (String "t" s) => String "009" (esc s)
  | String "\" (String "n" s) => String "010" (esc s)
  | String c s => String c (esc s)
  | "" => ""
  end.

Definition lower_digits : list Z := chars "0123456789abcdef".
Definition upper_digits : list Z := chars "0123456789ABCDEF".

(** [do buf[i++] = digits[x % base]; while((x /= base) != 0);] with [room] bytes of [buf]
    left; the digits in the order they are stored. *)
Fixpoint store_digits (digits : list Z) (room : nat) (x base : Z) : option (list Z) :=
  match room with
  | O => None
  | S room =>
      d ← digits !! Z.to_nat (x mod base);
      if x / base =? 0 then Some [d] else cons d <$> store_digits digits room (x / base) base
  end.

Definition printint_buf : nat := 16.

(** Both versions of [printint], which differ in the table of digits. *)
Definition print_int (digits : list Z) (xx base : Z) (sign : bool) : option (list Z) :=
  let neg := sign && (xx <? 0) in
  let x := u32 (if neg then - xx else xx) in
  buf ← store_digits digits printint_buf x base;
  if neg then (if (length buf <? printint_buf)%nat then Some (ch "-" :: reverse buf) else None)
  else Some (reverse buf).
Definition cons_printint (xx base : Z) (sign : bool) : option (list Z) := print_int lower_digits xx base sign.
Definition printint (xx base : Z) (sgn : bool) : option (list Z) := print_int upper_digits xx base sgn.

Section format.
Context (str : Z -> list Z).
Definition string_arg (p : Z) : list Z := if p =? 0 then chars "(null)" else str p.

(** The loop of [cprintf] over the format, a list of characters without its NUL. *)
Fixpoint cprintf_chars (fmt : list Z) (argp : list Z) {struct fmt} : option (list Z) :=
  match fmt with
  | [] => Some []
  | c :: fmt =>
      if negb (c =? ch "%") then cons c <$> cprintf_chars fmt argp else
      match fmt with
      | [] => Some []
      | c :: fmt =>
          if c =? ch "d" then
            match argp with
            | [] => None
            | a :: argp => out ← cons_printint (s32 a) 10 true; app out <$> cprintf_chars fmt argp
            end
          else if (c =? ch "x") || (c =? ch "p") then
            match argp with
            | [] => None
            | a :: argp => out ← cons_printint (s32 a) 16 false; app out <$> cprintf_chars fmt argp
            end
          else if c =? ch "s" then
            match argp with
            | [] => None
            | a :: argp => app (string_arg a) <$> cprintf_chars fmt argp
            end
          else if c =? ch "%" then cons (ch "%") <$> cprintf_chars fmt argp
          else app [ch "%"; c] <$> cprintf_chars fmt argp
      end
  end.

(** The loop of [printf]; [pct] says that [state] is ['%']. *)
Fixpoint printf_chars (pct : bool) (fmt : list Z) (ap : list Z) : option (list Z) :=
  match fmt with
  | [] => Some []
  | c :: fmt =>
      if negb pct then
        if c =? ch "%" then printf_chars true fmt ap else cons c <$> printf_chars false fmt ap
      else if c =? ch "d" then
        match ap with
        | [] => None
        | a :: ap => out ← printint (s32 a) 10 true; app out <$> printf_chars false fmt ap
        end
      else if (c =? ch "x") || (c =? ch "p") then
        match ap with
        | [] => None
        | a :: ap => out ← printint (s32 a) 16 false; app out <$> printf_chars false fmt ap
        end
      else if c =? ch "s" then
        match ap with
        | [] => None
        | a :: ap => app (string_arg a) <$> printf_chars false fmt ap
        end
      else if c =? ch "c" then
        match ap with
        | [] => None
        | a :: ap => cons (u8 a) <$> printf_chars false fmt ap
        end
      else if c =? ch "%" then cons c <$> printf_chars false fmt ap
      else app [ch "%"; c] <$> printf_chars false fmt ap
  end.
Definition printf (fmt : string) (ap : list Z) : option (list Z) := printf_chars false (chars fmt) ap.
Definition cprintf (fmt : string) (argp : list Z) : option (list Z) := cprintf_chars (chars fmt) argp.
End format.

(** * Numbers print as their digits *)

(** The value of digits stored lowest first. *)
Fixpoint digits_value (base : Z) (ds : list Z) : Z :=
  match ds with [] => 0 | d :: ds => d + base * digits_value base ds end.

(** The character of the digit [v]. *)
Definition digit_char (digits : list Z) (v : Z) : Z := digits !!! Z.to_nat v.

(** The loop stores the digits of [x], lowest first, without leading zeros, if there is room. *)
Lemma store_digits_spec digits base : 2 <= base <= Z.of_nat (length digits) ->
  forall room x, 0 <= x < base ^ Z.of_nat room -> (0 < room)%nat ->
  exists ds, store_digits digits room x base = Some (digit_char digits <$> ds) /\
    digits_value base ds = x /\ Forall (fun d => 0 <= d < base) ds /\ (0 < length ds <= room)%nat /\
    (last ds = Some 0 -> x = 0).
Proof.
  intros Hb. induction room as [|room IH]; intros x Hx Hr; [lia|]. cbn [store_digits].
  pose proof (Z.mod_pos_bound x base ltac:(lia)) as Hm. pose proof (Z.div_mod x base ltac:(lia)) as Hdm.
  rewrite (list_lookup_lookup_total_lt digits (Z.to_nat (x mod base))) by lia. cbn [mbind option_bind].
  destruct (Z.eqb_spec (x / base) 0) as [H0|H0].
  - exists [x mod base]. cbn. split_and!; [done|nia|by rewrite Forall_singleton|lia|lia|]. intros [= Hz]. nia.
  - assert (Hx' : 0 < x / base) by (pose proof (Z.div_pos x base); lia).
    destruct room as [|room]; [cbn in Hx; assert (x / base = 0) by (apply Z.div_small; lia); lia|].
    destruct (IH (x / base)) as (ds & -> & Hv & Hd & Hl & Hlast); [|lia|].
    { split; [lia|]. apply Z.div_lt_upper_bound; [lia|].
      rewrite (Nat2Z.inj_succ (S room)), Z.pow_succ_r in Hx by lia. lia. }
    exists (x mod base :: ds). cbn. split_and!; [done|nia|by constructor|lia|lia|].
    destruct ds as [|d ds]; [cbn in Hl; lia|]. intros Hz. apply Hlast in Hz. lia.
Qed.

Definition horner (base n : Z) (ds : list Z) : Z := foldl (fun n d => n * base + d) n ds.
Lemma horner_reverse base n ds :
  horner base n (reverse ds) = n * base ^ Z.of_nat (length ds) + digits_value base ds.
Proof.
  induction ds as [|d ds IH].
  - cbn. lia.
  - rewrite reverse_cons. unfold horner in *. rewrite foldl_app, IH. cbn [foldl digits_value length].
    rewrite Nat2Z.inj_succ, Z.pow_succ_r by lia. lia.
Qed.

(** Wrapping an intermediate result of Horner's rule does not change the wrapped value. *)
Lemma s32_congr a b : u32 a = u32 b -> s32 a = s32 b.
Proof. intros H. by rewrite <-(s32_u32 a), <-(s32_u32 b), H. Qed.
Lemma u32_mul_add a b c d : u32 a = u32 b -> u32 (a * c + d) = u32 (b * c + d).
Proof.
  unfold u32. intros H. by rewrite <-(Zplus_mod_idemp_l (a * c)), <-(Zmult_mod_idemp_l a), H,
    Zmult_mod_idemp_l, Zplus_mod_idemp_l.
Qed.
Lemma horner_congr base ds a b : u32 a = u32 b -> u32 (horner base a ds) = u32 (horner base b ds).
Proof.
  revert a b. induction ds as [|d ds IH]; intros a b H; [done|]. apply IH. by apply u32_mul_add.
Qed.

(** [atoi] and [atoo] read digits back, modulo the width of an [int]. *)
Lemma ato_digits_spec base ds r n : base <= 10 -> Forall (fun d => 0 <= d < base) ds ->
  u32 (ato_digits base (((fun d => 48 + d) <$> ds) ++ 0 :: r) n) = u32 (horner base n ds).
Proof.
  intros Hb Hds. revert n. induction Hds as [|d ds Hd Hds IH]; intros n; cbn [ato_digits fmap list_fmap app].
  - done.
  - destruct (Z.leb_spec 48 (48 + d)), (Z.ltb_spec (48 + d) (48 + base)); cbn [andb]; [|lia..].
    rewrite IH. apply (horner_congr base ds). rewrite u32_s32. f_equal. lia.
Qed.

(** The characters of the decimal digits, in both tables. *)
Lemma decimal_chars digits ds : take 10 digits = chars "0123456789" -> Forall (fun d => 0 <= d < 10) ds ->
  digit_char digits <$> ds = (fun d => 48 + d) <$> ds.
Proof.
  intros Ht Hds. apply list_fmap_ext. intros i d Hd.
  assert (Hr : 0 <= d < 10) by by apply (Forall_lookup_1 _ _ _ _ Hds Hd).
  unfold digit_char. apply list_lookup_total_correct.
  rewrite <-(lookup_take_lt digits 10), Ht by lia.
  assert (d ∈ seqZ 0 10) as Hin by (apply elem_of_seqZ; lia).
  vm_compute in Hin. repeat (apply elem_of_cons in Hin as [->|Hin]; [done|]). by apply elem_of_nil in Hin.
Qed.

Lemma store_digits_more digits base k room x ds :
  store_digits digits room x base = Some ds -> store_digits digits (room + k) x base = Some ds.
Proof.
  revert x ds. induction room as [|room IH]; intros x ds; cbn; [done|].
  destruct (digits !! Z.to_nat (x mod base)) as [d|]; cbn; [|done]. destruct (x / base =? 0); [done|].
  intros (ds' & H & ->)%fmap_Some. by rewrite (IH _ _ H).
Qed.

(** The digits of a number and, in front of them, its sign: what [printint] prints.  The number
    never needs more than 11 of the 16 bytes of [buf]. *)
Lemma print_int_spec digits xx base sign : base = 10 \/ base = 16 -> length digits = 16%nat ->
  exists ds, let neg := sign && (xx <? 0) in
    print_int digits xx base sign =
      Some ((if neg then [ch "-"] else []) ++ (digit_char digits <$> reverse ds)) /\
    digits_value base ds = u32 (if neg then - xx else xx) /\
    Forall (fun d => 0 <= d < base) ds /\ (0 < length ds <= 10)%nat.
Proof.
  intros Hbase Hlen. cbn zeta. unfold print_int.
  set (neg := sign && (xx <? 0)). pose proof (u32_range (if neg then - xx else xx)) as Hx.
  set (x := u32 _) in *.
  destruct (store_digits_spec digits base ltac:(lia) 10 x) as (ds & Hst & Hv & Hd & Hl & _); [|lia|].
  { destruct Hbase as [-> | ->]; lia. }
  exists ds. change printint_buf with (10 + 6)%nat. rewrite (store_digits_more _ _ 6 _ _ _ Hst).
  cbn [mbind option_bind]. rewrite length_fmap, (proj2 (Nat.ltb_lt (length ds) (10 + 6))) by lia.
  rewrite fmap_reverse. by destruct neg.
Qed.

(** Printing in decimal and reading back: any [int], [INT_MIN] included. *)
Lemma print_int_atoi digits xx r : length digits = 16%nat -> take 10 digits = chars "0123456789" ->
  - 2 ^ 31 <= xx < 2 ^ 31 ->
  exists out, print_int digits xx 10 true = Some out /\ (length out <= 11)%nat /\ atoi (out ++ 0 :: r) = xx.
Proof.
  intros Hlen Htake Hxx.
  destruct (print_int_spec digits xx 10 true) as (ds & Hp & Hv & Hd & Hl); [auto|done|]. cbn [andb] in *.
  eexists; split; [exact Hp|]. split.
  { rewrite length_app, length_fmap, length_reverse. destruct (xx <? 0); cbn; lia. }
  assert (Hd' : Forall (fun d => 0 <= d < 10) (reverse ds)) by by apply Forall_reverse.
  rewrite (decimal_chars digits (reverse ds)) by done.
  assert (Hval : u32 (ato_digits 10 (((fun d => 48 + d) <$> reverse ds) ++ 0 :: r) 0) = u32 (if xx <? 0 then - xx else xx)).
  { rewrite ato_digits_spec, horner_reverse, Hv, Z.mul_0_l, Z.add_0_l, u32_u32 by (done || lia). done. }
  transitivity (s32 xx); [|apply s32_small; lia]. unfold atoi, ato.
  destruct (Z.ltb_spec xx 0) as [Hneg|Hpos].
  - change (s32 (-1 * ato_digits 10 (((fun d => 48 + d) <$> reverse ds) ++ 0 :: r) 0) = s32 xx).
    apply s32_congr. apply (u32_mul_add _ _ (-1) 0) in Hval.
    replace (-1 * _) with (ato_digits 10 (((fun d => 48 + d) <$> reverse ds) ++ 0 :: r) 0 * -1 + 0) by lia.
    rewrite Hval. f_equal. lia.
  - destruct (reverse ds) as [|d ds'] eqn:Hrev.
    { apply (f_equal length) in Hrev. rewrite length_reverse in Hrev. cbn in Hrev. lia. }
    apply Forall_cons in Hd' as [Hd0 _]. cbn [app fmap list_fmap skip_spaces] in *.
    rewrite (proj2 (Z.eqb_neq (48 + d) 32)), (proj2 (Z.eqb_neq (48 + d) 45)), (proj2 (Z.eqb_neq (48 + d) 43)) by lia.
    cbn [orb]. apply s32_congr. by rewrite Z.mul_1_l, Hval.
Qed.

(** printing an [int] in decimal with the user library and reading the text back with [atoi]
    gives the same [int], for all 2^32 of them; the text has at most 11 characters, so the loop
    stays inside [char buf[16]]. *)
Theorem printint_atoi (xx : Z) (rest : list Z) : - 2 ^ 31 <= xx < 2 ^ 31 ->
  exists out, printint xx 10 true = Some out /\ (length out <= 11)%nat /\ atoi (out ++ 0 :: rest) = xx.
Proof. by apply print_int_atoi. Qed.

Lemma printint_atoi_witness : exists out, printint (- 2 ^ 31) 10 true = Some out /\
  (length out <= 11)%nat /\ atoi (out ++ 0 :: []) = - 2 ^ 31.
Proof. apply printint_atoi. lia. Defined.
