(* ===== verification/Umalloc.v ===== *)
(** The user-level memory allocator: umalloc.c.

    A [Header] is 8 bytes, and pointers to headers count bytes.  The state holds the headers by
    address, the static [base] and [freep], and the end of the process's memory, which [sbrk]
    moves; whether the kernel grants a request is decided by [sbrk_ok]. *)

From stdpp Require Import base tactics numbers option list sets.
From Stdlib Require Import ZArith Lia.
From S2P Require Import Prelude.

Definition HSIZE : Z := 8.

Record header := MkHeader { h_ptr : Z; h_size : Z }.

Record heap := MkHeap { hp_mem : Z -> header; hp_freep : Z; hp_brk : Z }.

Definition set_ptr (a v : Z) (h : heap) : heap :=
  MkHeap (fun b => if b =? a then MkHeader v (h_size (hp_mem h a)) else hp_mem h b) (hp_freep h) (hp_brk h).
Definition set_size (a v : Z) (h : heap) : heap :=
  MkHeap (fun b => if b =? a then MkHeader (h_ptr (hp_mem h a)) v else hp_mem h b) (hp_freep h) (hp_brk h).
Definition set_freep (v : Z) (h : heap) : heap := MkHeap (hp_mem h) v (hp_brk h).
Definition set_brk (v : Z) (h : heap) : heap := MkHeap (hp_mem h) (hp_freep h) v.

Section umalloc.
(** The address of the static [base], and whether the kernel grants [n] bytes at [brk]. *)
Context (base : Z) (sbrk_ok : Z -> Z -> bool).
Local Abbreviation H := (M heap).

Definition ptr (a : Z) : H Z := gets (fun h => h_ptr (hp_mem h a)).
Definition size (a : Z) : H Z := gets (fun h => h_size (hp_mem h a)).

(** [sbrk(n)]: the old end of memory, or -1. *)
Definition sbrk (n : Z) : H Z :=
  brk ← gets hp_brk;
  if sbrk_ok brk n then modify (set_brk (brk + n));; mret brk else mret (-1).

(** The search loop of [free]: the free block behind which [bp] belongs. *)
Fixpoint free_find (fuel : nat) (bp p : Z) : H Z :=
  match fuel with
  | O => fail EFuel
  | S fuel =>
      q ← ptr p;
      if (p <? bp) && (bp <? q) then mret p
      else if (q <=? p) && ((p <? bp) || (bp <? q)) then mret p
      else free_find fuel bp q
  end.

(** The first half of [free]: [bp] takes over the free block above it if that one is adjacent. *)
Definition join_upper (bp p : Z) : H unit :=
  sz ← size bp;
  q ← ptr p;
  if bp + HSIZE * sz =? q then
    qs ← size q;
    modify (set_size bp (u32 (sz + qs)));;
    qp ← ptr q;
    modify (set_ptr bp qp)
  else modify (set_ptr bp q).
(** The second half: the free block [p] takes over [bp] if that one is adjacent. *)
Definition join_lower (bp p : Z) : H unit :=
  psz ← size p;
  if p + HSIZE * psz =? bp then
    sz ← size bp;
    modify (set_size p (u32 (psz + sz)));;
    n ← ptr bp;
    modify (set_ptr p n)
  else modify (set_ptr p bp).

Definition free (fuel : nat) (ap : Z) : H unit :=
  let bp := ap - HSIZE in
  fp ← gets hp_freep;
  p ← free_find fuel bp fp;
  join_upper bp p;;
  join_lower bp p;;
  modify (set_freep p).

(** A null pointer on failure, else [freep]. *)
Definition morecore (fuel : nat) (nu : Z) : H Z :=
  let nu := if nu <? 4096 then 4096 else nu in
  p ← sbrk (s32 (nu * HSIZE));
  if p =? -1 then mret 0 else
  modify (set_size p nu);;
  free fuel (p + HSIZE);;
  gets hp_freep.

(** The loop of [malloc]. *)
Fixpoint malloc_loop (fuel : nat) (nunits prevp p : Z) : H Z :=
  match fuel with
  | O => fail EFuel
  | S fuel' =>
      sz ← size p;
      if nunits <=? sz then
        p ← (if sz =? nunits then
               n ← ptr p;
               modify (set_ptr prevp n);;
               mret p
             else
               modify (set_size p (sz - nunits));;
               let p := p + HSIZE * (sz - nunits) in
               modify (set_size p nunits);;
               mret p);
        modify (set_freep prevp);;
        mret (p + HSIZE)
      else
      fp ← gets hp_freep;
      if p =? fp then
        p ← morecore fuel nunits;
        if p =? 0 then mret 0 else
        n ← ptr p;
        malloc_loop fuel' nunits p n
      else
      n ← ptr p;
      malloc_loop fuel' nunits p n
  end.

Definition nunits_of (nbytes : Z) : Z := u32 (nbytes + HSIZE - 1) / HSIZE + 1.

Definition malloc (fuel : nat) (nbytes : Z) : H Z :=
  let nunits := nunits_of nbytes in
  fp ← gets hp_freep;
  prevp ← (if fp =? 0 then
             modify (set_freep base);;
             modify (set_ptr base base);;
             modify (set_size base 0);;
             mret base
           else mret fp);
  p ← ptr prevp;
  malloc_loop fuel nunits prevp p.
End umalloc.
