(* ===== verification/UmallocFacts.v ===== *)
(** The user-level allocator hands out disjoint blocks: umalloc.c. *)

From stdpp Require Import base tactics numbers option list sets.
From Stdlib Require Import ZArith Lia.
From S2P Require Import Prelude Umalloc.

(** * Blocks and what they cover *)

(** A header's address and its size in headers. *)
Abbreviation block := (Z * Z)%type.

Definition ind (b : block) (x : Z) : nat := if (b.1 <=? x) && (x <? b.1 + HSIZE * b.2) then 1 else 0.
(** The number of blocks that the byte [x] lies in. *)
Fixpoint cover (l : list block) (x : Z) : nat :=
  match l with [] => 0 | b :: l => ind b x + cover l x end.

Ltac ind_lia := unfold ind, HSIZE in *; cbn [fst snd] in *;
  repeat match goal with
         | |- context [?a <=? ?b] => destruct (Z.leb_spec a b)
         | |- context [?a <? ?b] => destruct (Z.ltb_spec a b)
         | H : context [?a <=? ?b] |- _ => destruct (Z.leb_spec a b)
         | H : context [?a <? ?b] |- _ => destruct (Z.ltb_spec a b)
         end; cbn [andb] in *; try lia.

Lemma cover_app l k x : cover (l ++ k) x = (cover l x + cover k x)%nat.
Proof. induction l as [|b l IH]; cbn; [done|]. lia. Qed.
Lemma cover_perm l k x : l ≡ₚ k -> cover l x = cover k x.
Proof. induction 1; cbn; lia. Qed.
Lemma cover_in l b x : b ∈ l -> b.1 <= x < b.1 + HSIZE * b.2 -> (0 < cover l x)%nat.
Proof.
  intros (l1 & l2 & ->)%list_elem_of_split Hx. rewrite cover_app. cbn.
  assert (ind b x = 1%nat) by ind_lia. lia.
Qed.
(** Two neighbours make one block. *)
Lemma ind_merge a s t x : 0 <= s -> 0 <= t -> ind (a, s + t) x = (ind (a, s) x + ind (a + HSIZE * s, t)%Z x)%nat.
Proof. intros Hs Ht. ind_lia. Qed.

(** * The ring of free blocks *)

(** The last node on the way from [x] along [l], and the end of its block. *)
Fixpoint lastn (x : Z) (l : list block) : Z := match l with [] => x | (a, _) :: l => lastn a l end.
Fixpoint endn (e : Z) (l : list block) : Z := match l with [] => e | (a, s) :: l => endn (a + HSIZE * s) l end.

(** The links and sizes from [x] along [l]. *)
Fixpoint path (m : Z -> header) (x : Z) (l : list block) : Prop :=
  match l with
  | [] => True
  | (a, s) :: l => h_ptr (m x) = a /\ h_size (m a) = s /\ path m a l
  end.
(** Blocks in ascending order, with a gap in front of each. *)
Fixpoint apart (e : Z) (l : list block) : Prop :=
  match l with
  | [] => True
  | (a, s) :: l => e < a /\ 0 < s /\ apart (a + HSIZE * s) l
  end.

Lemma lastn_app x l k : lastn x (l ++ k) = lastn (lastn x l) k.
Proof. revert x. induction l as [|[a s] l IH]; intros x; cbn; auto. Qed.
Lemma endn_app e l k : endn e (l ++ k) = endn (endn e l) k.
Proof. revert e. induction l as [|[a s] l IH]; intros e; cbn; auto. Qed.
Lemma path_app m x l k : path m x (l ++ k) <-> path m x l /\ path m (lastn x l) k.
Proof. revert x. induction l as [|[a s] l IH]; intros x; cbn; [tauto|]. rewrite IH. tauto. Qed.
Lemma apart_app e l k : apart e (l ++ k) <-> apart e l /\ apart (endn e l) k.
Proof. revert e. induction l as [|[a s] l IH]; intros e; cbn; [tauto|]. rewrite IH. tauto. Qed.
Lemma lastn_in x l : lastn x l = x \/ lastn x l ∈ l.*1.
Proof. revert x. induction l as [|[a s] l IH]; intros x; cbn; [auto|]. destruct (IH a) as [->|]; set_solver. Qed.

Lemma apart_above e l b : apart e l -> b ∈ l -> e < b.1 /\ 0 < b.2.
Proof.
  revert e. induction l as [|[a s] l IH]; intros e; [by intros _ ?%elem_of_nil|].
  cbn. intros (He & Hs & Hl) [->|Hin]%elem_of_cons; [done|].
  destruct (IH _ Hl Hin). unfold HSIZE in *. cbn in *. lia.
Qed.
Lemma apart_weaken e e' l : e' <= e -> apart e l -> apart e' l.
Proof. destruct l as [|[a s] l]; cbn; [done|]. intros ? (? & ? & ?). split_and!; [lia|done..]. Qed.
Lemma apart_endn e l : apart e l -> e <= endn e l.
Proof.
  revert e. induction l as [|[a s] l IH]; intros e; cbn; [lia|]. intros (He & Hs & Hl).
  specialize (IH _ Hl). unfold HSIZE in *. lia.
Qed.
Lemma lastn_endn e x l : apart e l -> x <= e -> lastn x l <= endn e l.
Proof.
  revert e x. induction l as [|[a s] l IH]; intros e x; cbn; [done|]. intros (He & Hs & Hl) Hx.
  apply IH; [done|]. unfold HSIZE. lia.
Qed.
(** Behind a node, seen from that node. *)
Lemma apart_from e l k : apart e (l ++ k) -> apart (lastn e l) k.
Proof.
  rewrite apart_app. intros [Hl Hk]. eapply apart_weaken; [|exact Hk]. by apply lastn_endn.
Qed.
Lemma apart_nodes e l a : apart e l -> a ∈ l.*1 -> e < a.
Proof. intros Hl (b & -> & Hb)%list_elem_of_fmap. by apply (apart_above e l b). Qed.

(** A node of the ring splits it. *)
Lemma node_split x l v : v = x \/ v ∈ l.*1 -> exists l1 l2, l = l1 ++ l2 /\ lastn x l1 = v.
Proof.
  revert x. induction l as [|[a s] l IH]; intros x [->|Hin]; [by exists [], []|set_solver|by exists [], ((a, s) :: l)|].
  cbn in Hin. apply elem_of_cons in Hin. destruct (IH a Hin) as (l1 & l2 & -> & Hv). by exists ((a, s) :: l1), l2.
Qed.

(** Changing the heap away from the nodes, and the pointer of the last one, keeps a path. *)
Lemma path_frame m m' x l : apart x l -> (forall a, a ∈ l.*1 -> h_size (m' a) = h_size (m a)) ->
  (forall a, a ∈ x :: l.*1 -> a <> lastn x l -> h_ptr (m' a) = h_ptr (m a)) ->
  path m x l -> path m' x l.
Proof.
  revert x. induction l as [|[a s] l IH]; intros x Hap Hs Hp; [done|]. cbn in *.
  destruct Hap as (Hx & Hsz & Hap). intros (<- & <- & Hpath).
  assert (Hne : x <> lastn (h_ptr (m x)) l).
  { pose proof (lastn_in (h_ptr (m x)) l) as [->|Hin]; [lia|].
    apply apart_nodes with (a := lastn (h_ptr (m x)) l) in Hap; [|done]. unfold HSIZE in *. lia. }
  rewrite (Hp x) by (done || set_solver). split_and!; [done|apply Hs; set_solver|].
  apply IH; [|set_solver..|done]. eapply apart_weaken; [|exact Hap]. unfold HSIZE. lia.
Qed.

Section umalloc.
Context (base : Z).

(** * The invariant

    [L] are the free blocks in the order of their addresses, [A] those handed out. *)
Record heap_ok (h : heap) (L A : list block) : Prop := {
  ok_path : path (hp_mem h) base L;
  ok_ring : h_ptr (hp_mem h (lastn base L)) = base;
  ok_base : h_size (hp_mem h base) = 0;
  ok_apart : apart base L;
  ok_freep : hp_freep h = base \/ hp_freep h ∈ L.*1;
  ok_used : Forall (fun b => h_size (hp_mem h b.1) = b.2 /\ 0 < b.2) A;
  ok_disjoint : forall x, (cover (L ++ A) x <= 1)%nat;
  ok_bounds : Forall (fun b => base < b.1 /\ b.1 + HSIZE * b.2 <= hp_brk h) (L ++ A);
  ok_limits : 0 < base < hp_brk h /\ hp_brk h <= 2 ^ 31;
}.

Lemma ok_perm h L A A' : A ≡ₚ A' -> heap_ok h L A -> heap_ok h L A'.
Proof.
  intros HP []. split; try done.
  - by rewrite <-HP.
  - intros x. rewrite cover_app, <-(cover_perm A A'), <-cover_app by done. done.
  - by rewrite <-HP.
Qed.

(** Distinct blocks do not overlap. *)
Lemma blocks_disjoint l1 b l2 c l3 : (forall x, (cover (l1 ++ b :: l2 ++ c :: l3) x <= 1)%nat) ->
  0 < b.2 -> 0 < c.2 -> b.1 < c.1 -> b.1 + HSIZE * b.2 <= c.1.
Proof.
  intros Hc Hb Hc' Hlt. specialize (Hc c.1). rewrite cover_app in Hc. cbn in Hc. rewrite cover_app in Hc. cbn in Hc.
  assert (ind c c.1 = 1%nat) by ind_lia. destruct (Z.le_gt_cases (b.1 + HSIZE * b.2) c.1); [done|].
  assert (ind b c.1 = 1%nat) by ind_lia. lia.
Qed.

(** * The search of [free] *)

Lemma find_below m bp x l h fuel : hp_mem h = m -> path m x l -> apart x l -> x < bp ->
  Forall (fun b => b.1 < bp) l ->
  (bp < h_ptr (m (lastn x l)) \/ h_ptr (m (lastn x l)) <= lastn x l) -> (length l < fuel)%nat ->
  free_find fuel bp x h = Ok (lastn x l, h).
Proof.
  intros Hm. revert x fuel. induction l as [|[a s] l IH]; intros x fuel Hp Hap Hx Hl Hn Hf;
    (destruct fuel as [|fuel]; [cbn in Hf; lia|]); cbn [free_find]; unfold ptr; run_monad; rewrite Hm.
  - cbn in Hn. destruct (Z.ltb_spec x bp); [|lia]. cbn [andb orb].
    destruct (Z.ltb_spec bp (h_ptr (m x))); [done|]. destruct (Z.leb_spec (h_ptr (m x)) x); [done|lia].
  - cbn in Hp, Hap, Hn, Hf. destruct Hp as (-> & Hs & Hp), Hap as (Hxa & Hsz & Hap).
    apply Forall_cons in Hl as [Ha Hl]. cbn in Ha.
    destruct (Z.ltb_spec bp a); [lia|]. rewrite andb_false_r. destruct (Z.leb_spec a x); [lia|]. cbn [andb].
    apply IH; try done; [|lia]. eapply apart_weaken; [|exact Hap]. unfold HSIZE. lia.
Qed.

Lemma find_above m bp x l h fuel : hp_mem h = m -> path m x l -> apart x l -> bp < x -> base < bp ->
  h_ptr (m (lastn x l)) = base ->
  free_find (length l + 1 + fuel) bp x h = free_find fuel bp base h.
Proof.
  intros Hm. revert x. induction l as [|[a s] l IH]; intros x Hp Hap Hx Hb Hn.
  - cbn in Hn |- *. unfold ptr. run_monad. rewrite Hm, Hn.
    destruct (Z.ltb_spec x bp); [lia|]. destruct (Z.ltb_spec bp base); [lia|]. cbn. by rewrite andb_false_r.
  - cbn in Hp, Hap, Hn. destruct Hp as (Ha & Hs & Hp), Hap as (Hxa & Hsz & Hap).
    cbn [length Nat.add free_find]. unfold ptr. run_monad. rewrite Hm, Ha.
    destruct (Z.ltb_spec x bp); [lia|]. destruct (Z.leb_spec a x); [lia|]. cbn [andb].
    apply IH; try done; [|lia]. eapply apart_weaken; [|exact Hap]. unfold HSIZE. lia.
Qed.

(** The free blocks below and above an address outside them. *)
Lemma split_below e L bp : apart e L -> bp ∉ L.*1 ->
  exists L1 L2, L = L1 ++ L2 /\ Forall (fun b => b.1 < bp) L1 /\ Forall (fun b => bp < b.1) L2.
Proof.
  revert e. induction L as [|[a s] L IH]; intros e Hap Hbp; [by exists [], []|]. cbn in *.
  destruct Hap as (He & Hs & Hap). destruct (decide (a < bp)).
  - destruct (IH _ Hap) as (L1 & L2 & -> & H1 & H2); [set_solver|].
    exists ((a, s) :: L1), L2. split_and!; try done. by constructor.
  - exists [], ((a, s) :: L). split_and!; try done. constructor; [cbn; set_solver by lia|].
    apply Forall_forall. intros b Hb. destruct (apart_above _ _ _ Hap Hb). unfold HSIZE in *. lia.
Qed.

Lemma free_find_spec h L A L1 L2 bp fuel : heap_ok h L A -> base < bp -> L = L1 ++ L2 ->
  Forall (fun b => b.1 < bp) L1 -> Forall (fun b => bp < b.1) L2 -> (2 * length L + 2 <= fuel)%nat ->
  free_find fuel bp (hp_freep h) h = Ok (lastn base L1, h).
Proof.
  intros [] Hb -> H1 H2 Hf. rewrite path_app in ok_path0. rewrite apart_app in ok_apart0.
  rewrite lastn_app in ok_ring0. destruct ok_path0 as [Hp1 Hp2], ok_apart0 as [Ha1 Ha2].
  assert (Hnext : bp < h_ptr (hp_mem h (lastn base L1)) \/ h_ptr (hp_mem h (lastn base L1)) <= lastn base L1).
  { destruct L2 as [|[a s] L2]; cbn in *.
    - right. rewrite ok_ring0. destruct (lastn_in base L1) as [->|Hin]; [lia|].
      apply (apart_nodes base) in Hin; [lia|done].
    - left. destruct Hp2 as (-> & _). by apply Forall_cons in H2 as [? _]. }
  rewrite length_app in Hf. destruct (node_split base (L1 ++ L2) (hp_freep h) ok_freep0) as (La & Lb & Heq & Hfp).
  apply app_eq_inv in Heq as [(k & -> & ->)|(k & -> & ->)].
  - rewrite <-Hfp, lastn_app. rewrite length_app in Hf. apply Forall_app in H1 as [HLa Hk].
    rewrite lastn_app in Hnext. apply (find_below (hp_mem h)); try done.
    + by apply path_app in Hp1 as [_ ?].
    + by apply apart_from.
    + destruct (lastn_in base La) as [->|Hin]; [done|].
      apply list_elem_of_fmap in Hin as (b & -> & Hin). rewrite Forall_forall in HLa. by apply HLa.
    + lia.
  - rewrite <-Hfp, lastn_app. destruct k as [|[a s] k].
    { apply (find_below (hp_mem h) bp (lastn base L1) []); try done; [|cbn; lia].
      destruct (lastn_in base L1) as [->|Hin]; [done|].
      apply list_elem_of_fmap in Hin as (b & -> & Hin). rewrite Forall_forall in H1. by apply H1. }
    assert (Hx : bp < lastn (lastn base L1) ((a, s) :: k)).
    { cbn. rewrite Forall_forall in H2. pose proof (H2 (a, s) ltac:(set_solver)) as Ha. cbn in Ha.
      destruct (lastn_in a k) as [->|Hin]; [done|].
      apply list_elem_of_fmap in Hin as (b & -> & Hin). apply H2. set_solver. }
    assert (Ha3 : apart base (L1 ++ ((a, s) :: k) ++ Lb)) by by rewrite apart_app.
    rewrite app_assoc in Ha3. apply apart_from in Ha3. rewrite lastn_app in Ha3.
    apply path_app in Hp2 as [_ Hp2]. rewrite lastn_app in ok_ring0.
    replace fuel with (length Lb + 1 + (fuel - length Lb - 1))%nat
      by (rewrite length_app in Hf; lia).
    rewrite (find_above (hp_mem h)); try done. apply (find_below (hp_mem h)); try done.
    rewrite length_app in Hf. lia.
Qed.

(** * Joining a block to its neighbours *)

(** The way from [x] along [l] and back to [base]. *)
Definition closed (m : Z -> header) (x : Z) (l : list block) : Prop :=
  path m x l /\ h_ptr (m (lastn x l)) = base.

Lemma closed_app m x l k : closed m x (l ++ k) <-> path m x l /\ closed m (lastn x l) k.
Proof. unfold closed. rewrite path_app, lastn_app. tauto. Qed.
Lemma closed_cons m x a s l : closed m x ((a, s) :: l) <-> h_ptr (m x) = a /\ h_size (m a) = s /\ closed m a l.
Proof. unfold closed. cbn. tauto. Qed.
(** Another node takes the place of [x] by taking over its pointer. *)
Lemma closed_swap m m' x y l : h_ptr (m' y) = h_ptr (m x) -> (forall a, a ∈ l.*1 -> m' a = m a) ->
  closed m x l -> closed m' y l.
Proof.
  revert x y. induction l as [|[a s] l IH]; intros x y Hp Hm.
  - unfold closed. cbn. intros [_ H]. by rewrite Hp.
  - rewrite !closed_cons. intros (H1 & H2 & H3). rewrite Hp. rewrite (Hm a) by set_solver. split_and!; try done.
    eapply IH; [|set_solver|exact H3]. rewrite (Hm a); [done|set_solver].
Qed.

Ltac heap_cases := unfold set_ptr, set_size, set_freep, set_brk; cbn [hp_mem hp_freep hp_brk h_ptr h_size];
  repeat match goal with
         | |- context [?a =? ?a] => rewrite (Z.eqb_refl a); cbn [h_ptr h_size]
         | |- context [?a =? ?b] => rewrite (proj2 (Z.eqb_neq a b)) by (done || lia); cbn [h_ptr h_size]
         end.

Lemma join_upper_spec h bp p s L2 B : p <> bp -> base < bp -> 0 < s -> h_size (hp_mem h bp) = s ->
  closed (hp_mem h) p L2 -> apart (bp + HSIZE * s - 1) L2 -> 0 <= bp -> B <= 2 ^ 31 ->
  Forall (fun b => b.1 + HSIZE * b.2 <= B) ((bp, s) :: L2) ->
  wp (join_upper bp p) (fun _ h1 => exists s' L2',
    (forall a, a <> bp -> hp_mem h1 a = hp_mem h a) /\ hp_freep h1 = hp_freep h /\ hp_brk h1 = hp_brk h /\
    h_size (hp_mem h1 bp) = s' /\ closed (hp_mem h1) bp L2' /\ apart (bp - 1) ((bp, s') :: L2') /\
    (forall x, cover ((bp, s') :: L2') x = cover ((bp, s) :: L2) x) /\
    Forall (fun b => b.1 + HSIZE * b.2 <= B) ((bp, s') :: L2') /\ (length L2' <= length L2)%nat) h.
Proof.
  intros Hne Hb Hs0 Hs Hc Hap H0 HB Hbd. unfold join_upper, size, ptr. wp_steps. rewrite Hs.
  assert (Hnodes : forall a, a ∈ L2.*1 -> a <> bp).
  { intros a Ha ->. apply (apart_nodes _ _ _ Hap) in Ha. unfold HSIZE in *. lia. }
  destruct (Z.eqb_spec (bp + HSIZE * s) (h_ptr (hp_mem h p))) as [Heq|Hneq].
  - destruct L2 as [|[q qs] L2].
    { destruct Hc as [_ Hc]. cbn in Hc. rewrite Hc in Heq. unfold HSIZE in *. lia. }
    apply closed_cons in Hc as (Hq & Hqs & Hc). rewrite Hq in Heq |- *. destruct Heq.
    assert (Hqn : bp + HSIZE * s <> bp) by (unfold HSIZE; lia).
    cbn [apart] in Hap. destruct Hap as (_ & Hqs0 & Hap). apply Forall_cons in Hbd as [Hbd1 Hbd].
    apply Forall_cons in Hbd as [Hbd2 Hbd]. cbn in Hbd1, Hbd2.
    wp_steps. rewrite Hqs. exists (s + qs), L2.
    assert (Hu : u32 (s + qs) = s + qs) by (apply u32_small; unfold HSIZE in *; lia).
    heap_cases. rewrite Hu. cbn [apart cover]. split_and!; try done.
    + intros a Ha. heap_cases. done.
    + eapply closed_swap; [| |exact Hc]; heap_cases; [done|]. intros a Ha.
      assert (a <> bp) by (apply Hnodes; set_solver). by heap_cases.
    + lia.
    + lia.
    + by replace (bp + HSIZE * (s + qs)) with (bp + HSIZE * s + HSIZE * qs) by (unfold HSIZE; lia).
    + intros x. rewrite ind_merge by lia. lia.
    + constructor; [cbn|done]. unfold HSIZE in *. lia.
    + cbn. lia.
  - wp_steps. exists s, L2. heap_cases. cbn [apart cover]. split_and!; try done.
    + intros a Ha. by heap_cases.
    + eapply closed_swap; [| |exact Hc]; heap_cases; [done|]. intros a Ha. pose proof (Hnodes a Ha). by heap_cases.
    + lia.
    + destruct L2 as [|[q qs] L2]; [done|]. cbn in Hap |- *. apply closed_cons in Hc as (Hq & _).
      rewrite Hq in Hneq. destruct Hap as (? & ? & ?). split_and!; try done. lia.
Qed.

Lemma join_lower_spec h bp s L1 L2 B : path (hp_mem h) base L1 -> apart base L1 -> h_size (hp_mem h base) = 0 ->
  h_size (hp_mem h bp) = s -> closed (hp_mem h) bp L2 -> apart (bp - 1) ((bp, s) :: L2) ->
  base < bp -> endn base L1 <= bp -> 0 <= base -> B <= 2 ^ 31 ->
  Forall (fun b => b.1 + HSIZE * b.2 <= B) (L1 ++ (bp, s) :: L2) ->
  wp (join_lower bp (lastn base L1)) (fun _ h1 => exists L,
    (forall a, a <> lastn base L1 -> hp_mem h1 a = hp_mem h a) /\ hp_freep h1 = hp_freep h /\ hp_brk h1 = hp_brk h /\
    h_size (hp_mem h1 base) = 0 /\ closed (hp_mem h1) base L /\ apart base L /\
    (lastn base L1 = base \/ lastn base L1 ∈ L.*1) /\
    (forall x, cover L x = cover (L1 ++ (bp, s) :: L2) x) /\
    Forall (fun b => b.1 + HSIZE * b.2 <= B) L /\ (length L <= length L1 + S (length L2))%nat) h.
Proof.
  intros Hp Hap Hb0 Hs Hc Hap2 Hb He H0 HB Hbd. cbn [apart] in Hap2. destruct Hap2 as (_ & Hs0 & Hap2).
  assert (Hab : forall a, a ∈ L2.*1 -> bp < a).
  { intros a Ha. apply (apart_nodes _ _ _ Hap2) in Ha. unfold HSIZE in *. lia. }
  assert (Hlast : lastn base L1 < bp).
  { destruct L1 as [|[a t] L1] using rev_ind; [done|]. rewrite lastn_app. cbn.
    rewrite apart_app in Hap. rewrite endn_app in He. cbn in Hap, He. unfold HSIZE in *. lia. }
  unfold join_lower, size, ptr. wp_steps.
  destruct (Z.eqb_spec (lastn base L1 + HSIZE * h_size (hp_mem h (lastn base L1))) bp) as [Heq|Hneq].
  - destruct L1 as [|[p ps] L1 _] using rev_ind.
    { cbn [lastn] in Heq. rewrite Hb0 in Heq. unfold HSIZE in *. lia. }
    rewrite lastn_app in *. cbn [lastn] in *. apply path_app in Hp as [Hp Hpl]. cbn in Hpl.
    destruct Hpl as (Hpp & Hps & _). apply apart_app in Hap as [Hap Hapl]. cbn [apart] in Hapl.
    rewrite Hps in Heq |- *. wp_steps. rewrite Hs.
    apply Forall_app in Hbd as [Hbd1 Hbd2]. apply Forall_app in Hbd1 as [Hbd1 _].
    apply Forall_cons in Hbd2 as [Hbd2 Hbd3]. cbn in Hbd2.
    pose proof (apart_endn _ _ Hap) as Hen. destruct Hapl as (Hapl & Hps0 & _).
    assert (Hu : u32 (ps + s) = ps + s) by (apply u32_small; unfold HSIZE in *; lia).
    pose proof (lastn_endn base base L1 Hap ltac:(lia)) as Hle.
    assert (Hlow : forall a, a ∈ base :: L1.*1 -> a <> p).
    { intros a [->|Ha]%elem_of_cons; [lia|]. apply list_elem_of_fmap in Ha as (b & -> & Ha).
      apply list_elem_of_split in Ha as (k1 & k2 & ->). rewrite endn_app in Hapl. cbn in Hapl.
      apply apart_app in Hap as [_ Hap]. cbn in Hap. destruct b as [a t]. cbn in *. destruct Hap as (_ & Ht & Hap).
      apply apart_endn in Hap. unfold HSIZE in *. lia. }
    exists (L1 ++ (p, ps + s) :: L2). heap_cases. rewrite Hu. split_and!; try done.
    + intros a Ha. by heap_cases.
    + apply closed_app. split.
      * eapply path_frame; [done| | |exact Hp]; intros a Ha; [|intros _];
          assert (a <> p) by (apply Hlow; set_solver); by heap_cases.
      * apply closed_cons. assert (Hl : lastn base L1 <> p) by (apply Hlow; destruct (lastn_in base L1) as [->|]; set_solver).
        heap_cases. split_and!; try done. eapply closed_swap; [| |exact Hc]; heap_cases; [done|].
        intros a Ha. specialize (Hab a Ha). by heap_cases.
    + apply apart_app. split; [done|]. cbn [apart]. split_and!; [done|lia|].
      by replace (p + HSIZE * (ps + s)) with (bp + HSIZE * s) by (unfold HSIZE in *; lia).
    + right. rewrite fmap_app. cbn. set_solver.
    + intros x. rewrite <-app_assoc, !cover_app. cbn [cover app]. rewrite ind_merge, Heq by lia. lia.
    + apply Forall_app. split; [done|]. constructor; [cbn; unfold HSIZE in *; lia|done].
    + rewrite !length_app. cbn. lia.
  - wp_steps. exists (L1 ++ (bp, s) :: L2). heap_cases. split_and!; try done.
    + intros a Ha. by heap_cases.
    + destruct (Z.eqb_spec base (lastn base L1)) as [<-|]; done.
    + apply closed_app. split.
      * eapply path_frame; [done| | |exact Hp]; intros a Ha.
        -- destruct (Z.eqb_spec a (lastn base L1)) as [->|]; done.
        -- intros Hne. by heap_cases.
      * apply closed_cons. heap_cases. split_and!; try done. eapply closed_swap; [| |exact Hc]; heap_cases; [done|].
        intros a Ha. specialize (Hab a Ha). by heap_cases.
    + apply apart_app. split; [done|]. cbn [apart]. split_and!; try done.
      destruct L1 as [|[p ps] L1 _] using rev_ind; [done|]. rewrite lastn_app, endn_app in *. cbn [lastn endn] in *.
      apply path_app in Hp as [_ (_ & Hps & _)]. rewrite Hps in Hneq. lia.
    + destruct (lastn_in base L1); [by left|right]. rewrite fmap_app. set_solver.
    + rewrite length_app. cbn. lia.
Qed.

(** * [free] *)

(** Headers of blocks that are not the same are not at the same address. *)
Lemma header_apart L A b c x : (forall x, (cover (L ++ c :: A) x <= 1)%nat) -> b ∈ L ++ A -> 0 < b.2 -> 0 < c.2 ->
  b.1 = x -> c.1 <= x < c.1 + HSIZE * c.2 -> False.
Proof.
  intros Hc Hin Hb Hc0 Hx Hcx. specialize (Hc x). rewrite cover_app in Hc. cbn in Hc.
  pose proof (cover_in (L ++ A) b x Hin) as Hi. rewrite cover_app in Hi.
  assert (ind c x = 1%nat) by ind_lia. unfold HSIZE in *. lia.
Qed.

(** The block in hand lies between the free blocks below and those above it. *)
Lemma block_between L1 L2 A bp s e : (forall x, (cover ((L1 ++ L2) ++ (bp, s) :: A) x <= 1)%nat) ->
  apart e (L1 ++ L2) -> 0 < s -> e < bp -> Forall (fun b => b.1 < bp) L1 -> Forall (fun b => bp < b.1) L2 ->
  endn e L1 <= bp /\ apart (bp + HSIZE * s - 1) L2.
Proof.
  intros Hc Hap Hs He H1 H2. apply apart_app in Hap as [Ha1 Ha2]. split.
  - destruct L1 as [|[a t] L1 _] using rev_ind; [cbn; lia|]. rewrite endn_app. cbn [endn].
    apply apart_app in Ha1 as [_ (_ & Ht & _)]. apply Forall_app in H1 as [_ H1].
    apply Forall_cons in H1 as [Ha _]. cbn in Ha. rewrite <-!app_assoc in Hc.
    by apply (blocks_disjoint L1 (a, t) L2 (bp, s) A).
  - destruct L2 as [|[a t] L2]; [done|]. apply Forall_cons in H2 as [Ha _]. cbn in Ha, Ha2 |- *.
    destruct Ha2 as (_ & Ht & Ha2). split_and!; try done.
    assert (bp + HSIZE * s <= a); [|unfold HSIZE in *; lia].
    apply (blocks_disjoint [] (bp, s) (L1 ++ A) (a, t) L2); try done. intros x.
    rewrite <-(cover_perm ((L1 ++ (a, t) :: L2) ++ (bp, s) :: A)); [apply Hc|]. cbn.
    rewrite <-!app_assoc. cbn. solve_Permutation.
Qed.

Lemma free_spec h L A bp s fuel : heap_ok h L ((bp, s) :: A) -> (2 * length L + 2 <= fuel)%nat ->
  wp (free fuel (bp + HSIZE)) (fun _ h' => exists L', heap_ok h' L' A /\ hp_brk h' = hp_brk h /\
    (length L' <= S (length L))%nat /\ forall x, cover L' x = (cover L x + ind (bp, s) x)%nat) h.
Proof.
  intros Hok Hf. pose proof Hok as []. apply Forall_cons in ok_used0 as [[Hs Hs0] Hused]. cbn in Hs, Hs0.
  assert (Hbp : base < bp /\ bp + HSIZE * s <= hp_brk h).
  { rewrite Forall_forall in ok_bounds0. apply (ok_bounds0 (bp, s)). set_solver. }
  assert (Hself : bp <= bp < bp + HSIZE * s) by (unfold HSIZE; lia).
  assert (Hnode : bp ∉ L.*1).
  { intros (b & Hb & Hin)%list_elem_of_fmap. destruct (apart_above _ _ _ ok_apart0 Hin).
    apply (header_apart L A b (bp, s) bp); try done; set_solver. }
  destruct (split_below base L bp ok_apart0 Hnode) as (L1 & L2 & HL & H1 & H2).
  unfold free. replace (bp + HSIZE - HSIZE) with bp by lia. wp_steps.
  eapply wp_run; [eapply free_find_spec; [exact Hok|lia|exact HL|done|done|done]|]. cbn beta.
  subst L. destruct (block_between L1 L2 A bp s base) as [Hend Hap2]; try done; [lia|].
  pose proof ok_apart0 as Hap. rewrite apart_app in Hap. destruct Hap as [Ha1 _].
  apply path_app in ok_path0 as [Hp1 Hp2]. rewrite lastn_app in ok_ring0.
  set (p := lastn base L1) in *.
  assert (Hp : p = base \/ p ∈ L1.*1) by apply lastn_in.
  assert (Hpb : p < bp).
  { destruct Hp as [->|(b & -> & Hin)%list_elem_of_fmap]; [lia|]. rewrite Forall_forall in H1. by apply H1. }
  assert (Hends : Forall (fun b => b.1 + HSIZE * b.2 <= hp_brk h) (L1 ++ L2)).
  { apply Forall_app in ok_bounds0 as [Hb _]. eapply Forall_impl; [exact Hb|]. by intros b [_ ?]. }
  apply Forall_app in Hends as [Hend1 Hend2].
  apply wp_bind. eapply wp_mono; [apply (join_upper_spec h bp p s L2 (hp_brk h)); try done; try lia|].
  { by constructor; [cbn; lia|]. }
  cbn beta. intros _ h1 (s' & L2' & Hm1 & Hfp1 & Hbrk1 & Hs' & Hc1 & Hap1 & Hcov1 & Hbd1 & Hlen1).
  assert (Hlow : forall a, a ∈ base :: L1.*1 -> a <> bp) by set_solver by lia.
  apply wp_bind. eapply wp_mono; [apply (join_lower_spec h1 bp s' L1 L2' (hp_brk h)); try done; try lia|].
  { eapply path_frame; [done| | |exact Hp1]; intros a Ha; [|intros _]; rewrite Hm1; try done; apply Hlow; set_solver. }
  { rewrite Hm1; [done|]. apply Hlow. set_solver. }
  { by apply Forall_app. }
  cbn beta. intros _ h2 (L & Hm2 & Hfp2 & Hbrk2 & Hb2 & [Hc2 Hr2] & Hap3 & HpL & Hcov2 & Hbd2 & Hlen2). fold p in Hm2, HpL.
  assert (Hcov : forall x, cover L x = (cover (L1 ++ L2) x + ind (bp, s) x)%nat).
  { intros x. rewrite Hcov2, !cover_app, Hcov1. cbn. lia. }
  wp_steps. exists L. split_and!; [|cbn; congruence|rewrite length_app; lia|exact Hcov]. split; cbn; try done.
  - apply Forall_forall. intros b Hb. rewrite Forall_forall in Hused. destruct (Hused b Hb) as [Hsz Hb0].
    split; [|done]. rewrite Hm2, Hm1; [done| |].
    + intros Heq. apply (header_apart (L1 ++ L2) A b (bp, s) bp); try done. set_solver.
    + intros Heq. rewrite Forall_forall in ok_bounds0. destruct Hp as [Hp|Hp].
      { destruct (ok_bounds0 b); [set_solver|]. lia. }
      apply list_elem_of_fmap in Hp as (c & Hpc & (k1 & k2 & Hk)%list_elem_of_split).
      assert (Hc : 0 < c.2) by (apply (apart_above base (L1 ++ L2)); [done|set_solver]).
      apply (header_apart k1 (k2 ++ L2 ++ (bp, s) :: A) b c p); [|set_solver|done|done|done|rewrite Hpc; unfold HSIZE; lia].
      intros x. specialize (ok_disjoint0 x). rewrite Hk in ok_disjoint0. rewrite <-!app_assoc in ok_disjoint0. done.
  - intros x. specialize (ok_disjoint0 x). rewrite !cover_app in *. cbn in ok_disjoint0. rewrite Hcov, cover_app. lia.
  - apply Forall_app. split.
    + apply Forall_forall. intros b Hb. split; [by apply (apart_above base L)|].
      rewrite Forall_forall in Hbd2. rewrite Hbrk2, Hbrk1. by apply Hbd2.
    + apply Forall_app in ok_bounds0 as [_ Hb]. apply Forall_cons in Hb as [_ Hb]. by rewrite Hbrk2, Hbrk1.
  - by rewrite Hbrk2, Hbrk1.
Qed.

(** * Taking a block *)

Lemma apart_unique e l1 a s l2 k1 t k2 : apart e (l1 ++ (a, s) :: l2) ->
  l1 ++ (a, s) :: l2 = k1 ++ (a, t) :: k2 -> l1 = k1.
Proof.
  revert e k1. induction l1 as [|[b u] l1 IH]; intros e [|[c v] k1] Hap Heq; cbn in *; try done.
  - injection Heq as <- <- Heq. exfalso. destruct Hap as (_ & Hs & Hap). rewrite Heq in Hap.
    assert (a + HSIZE * s < a); [|unfold HSIZE in *; lia].
    apply (apart_nodes _ _ _ Hap). rewrite fmap_app. cbn. set_solver.
  - injection Heq as -> -> Heq. exfalso. destruct Hap as (_ & Hs & Hap).
    assert (a + HSIZE * t < a); [|unfold HSIZE in *; lia].
    apply (apart_nodes _ _ _ Hap). rewrite fmap_app. cbn. set_solver.
  - injection Heq as -> -> Heq. destruct Hap as (_ & _ & Hap). f_equal. by eapply IH.
Qed.

(** The node before a free block. *)
Lemma pred_unique m L1 p s L2 x : path m base (L1 ++ (p, s) :: L2) -> h_ptr (m (lastn base (L1 ++ (p, s) :: L2))) = base ->
  apart base (L1 ++ (p, s) :: L2) -> x = base \/ x ∈ (L1 ++ (p, s) :: L2).*1 -> h_ptr (m x) = p -> x = lastn base L1.
Proof.
  intros Hp Hr Hap Hx Hxp. destruct (node_split base _ x Hx) as (k1 & k2 & Heq & Hk). rewrite Heq in Hp, Hr.
  apply path_app in Hp as [_ Hp]. rewrite Hk in Hp. destruct k2 as [|[a t] k2].
  - rewrite app_nil_r, Hk, Hxp in Hr. exfalso. subst p.
    apply apart_app in Hap as [Ha [Hb _]]. pose proof (apart_endn _ _ Ha). lia.
  - cbn in Hp. destruct Hp as (Ha & _). assert (a = p) as -> by congruence. rewrite <-Hk. f_equal.
    symmetry. by eapply apart_unique.
Qed.

(** What remains of the invariant when the free blocks cover less and one more block is handed out. *)
Lemma taken_ok h h' L L' A b : heap_ok h L A -> hp_brk h' = hp_brk h ->
  closed (hp_mem h') base L' -> h_size (hp_mem h' base) = 0 -> apart base L' ->
  (hp_freep h' = base \/ hp_freep h' ∈ L'.*1) -> h_size (hp_mem h' b.1) = b.2 -> 0 < b.2 ->
  (forall c, c ∈ A -> hp_mem h' c.1 = hp_mem h c.1) ->
  (forall x, cover L x = (cover L' x + ind b x)%nat) ->
  Forall (fun c => base < c.1 /\ c.1 + HSIZE * c.2 <= hp_brk h) (b :: L') -> heap_ok h' L' (b :: A).
Proof.
  intros [] Hbrk [Hp Hr] Hb Hap Hfp Hbs Hb0 Hm Hcov Hbd. split; try done.
  - constructor; [done|]. apply Forall_forall. intros c Hc. rewrite Hm by done.
    rewrite Forall_forall in ok_used0. by apply ok_used0.
  - intros x. specialize (ok_disjoint0 x). rewrite !cover_app in *. cbn. rewrite Hcov in ok_disjoint0. lia.
  - rewrite Hbrk. apply Forall_cons in Hbd as [Hbd1 Hbd2]. apply Forall_app in ok_bounds0 as [_ Hbd3].
    apply Forall_app. split; [done|]. by constructor.
  - by rewrite Hbrk.
Qed.

(** A header that lies in a free block is not the header of a block in use. *)
Lemma used_elsewhere h L A b c x : heap_ok h L A -> b ∈ L -> c ∈ A -> b.1 <= x < b.1 + HSIZE * b.2 -> c.1 <> x.
Proof.
  intros [] Hb Hc Hx Heq. specialize (ok_disjoint0 x). rewrite cover_app in ok_disjoint0.
  rewrite Forall_forall in ok_used0. destruct (ok_used0 c Hc) as [_ Hc0].
  pose proof (cover_in L b x Hb Hx). pose proof (cover_in A c x Hc) as Hcv. unfold HSIZE in *. lia.
Qed.
Lemma base_unused h L A c : heap_ok h L A -> c ∈ A -> c.1 <> base.
Proof.
  intros [] Hc Heq. rewrite Forall_forall in ok_bounds0. destruct (ok_bounds0 c); [set_solver|]. lia.
Qed.

(** The body of the loop of [malloc] when [p] is large enough. *)
Lemma take_spec sbrk_ok h L1 p sz L2 A prevp nunits fuel : heap_ok h (L1 ++ (p, sz) :: L2) A ->
  (prevp = base \/ prevp ∈ (L1 ++ (p, sz) :: L2).*1) -> h_ptr (hp_mem h prevp) = p -> 0 < nunits <= sz ->
  wp (malloc_loop sbrk_ok (S fuel) nunits prevp p) (fun r h' => exists L',
    heap_ok h' L' ((r - HSIZE, nunits) :: A) /\ hp_brk h' = hp_brk h /\ base + HSIZE < r /\
    forall x, cover (L1 ++ (p, sz) :: L2) x = (cover L' x + ind ((r - HSIZE)%Z, nunits) x)%nat) h.
Proof.
  intros Hok Hprev Hpp Hn. pose proof Hok as [Hp Hr Hb0 Hap _ _ _ Hbd _].
  pose proof (pred_unique _ _ _ _ _ _ Hp Hr Hap Hprev Hpp) as Hpred.
  assert (Hc : closed (hp_mem h) base (L1 ++ (p, sz) :: L2)) by done.
  apply closed_app in Hc as [Hp1 Hc]. apply closed_cons in Hc as (_ & Hsz & Hc2).
  apply apart_app in Hap as [Ha1 Ha2]. cbn [apart] in Ha2. destruct Ha2 as (Hep & _ & Ha2).
  assert (Hbp : base < p) by (pose proof (apart_endn _ _ Ha1); lia).
  apply Forall_app in Hbd as [Hbd _]. apply Forall_app in Hbd as [Hbd1 Hbd2].
  apply Forall_cons in Hbd2 as [[_ Hbdp] Hbd2]. cbn in Hbdp.
  assert (Hin : (p, sz) ∈ L1 ++ (p, sz) :: L2) by set_solver.
  assert (Hprevp : prevp < p).
  { subst prevp. pose proof (lastn_endn base base L1 Ha1 ltac:(lia)). lia. }
  assert (Habove : forall a, a ∈ L2.*1 -> p + HSIZE * sz < a) by (intros a; by apply apart_nodes).
  assert (Hbelow : forall a, a ∈ base :: L1.*1 -> a < p).
  { intros a [->|Ha]%elem_of_cons; [done|]. apply list_elem_of_fmap in Ha as (b & -> & Hb).
    apply list_elem_of_split in Hb as (k1 & k2 & ->). destruct b as [a t]. cbn.
    apply apart_app in Ha1 as [Hk1 Ha1]. rewrite endn_app in Hep. cbn in Ha1, Hep.
    destruct Ha1 as (_ & Ht & Ha1). apply apart_endn in Ha1. unfold HSIZE in *. lia. }
  cbn [malloc_loop]. unfold size, ptr. wp_steps. rewrite Hsz. destruct (Z.leb_spec nunits sz); [|lia].
  destruct (Z.eqb_spec sz nunits) as [->|Hne].
  - wp_steps. replace (p + HSIZE - HSIZE) with p by lia. exists (L1 ++ L2). split_and!; [|done|lia|].
    2:{ intros x. rewrite !cover_app. cbn. lia. }
    eapply taken_ok; [exact Hok|done|..]; cbn [hp_mem hp_freep set_freep fst snd].
    + apply closed_app. split.
      * eapply path_frame; [done| | |exact Hp1]; intros a Ha; [|rewrite <-Hpred; intros Hne]; unfold set_ptr; cbn.
        -- by destruct (Z.eqb_spec a prevp) as [->|].
        -- by rewrite (proj2 (Z.eqb_neq _ _)).
      * rewrite <-Hpred. eapply closed_swap; [| |exact Hc2]; heap_cases; [done|].
        intros a Ha. specialize (Habove a Ha). unfold HSIZE in *. by heap_cases.
    + unfold set_ptr. cbn. by destruct (Z.eqb_spec base prevp) as [->|].
    + apply apart_app. split; [done|]. eapply apart_weaken; [|exact Ha2]. unfold HSIZE in *. lia.
    + rewrite Hpred. destruct (lastn_in base L1); [by left|right]. rewrite fmap_app. set_solver.
    + by heap_cases.
    + lia.
    + intros c Hcin. destruct Hprev as [->|Hprev].
      * pose proof (base_unused _ _ _ _ Hok Hcin). by heap_cases.
      * apply list_elem_of_fmap in Hprev as (b & Hb & Hbin).
        assert (c.1 <> prevp); [|by heap_cases]. eapply (used_elsewhere _ _ _ b c); [exact Hok|done|done|].
        destruct Hok as [_ _ _ Hok _ _ _ _ _]. destruct (apart_above _ _ _ Hok Hbin). rewrite Hb. unfold HSIZE. lia.
    + intros x. rewrite !cover_app. cbn. lia.
    + constructor; [cbn; lia|]. by apply Forall_app.
  - wp_steps. set (p' := p + HSIZE * (sz - nunits)).
    assert (Hp' : p < p' < p + HSIZE * sz) by (subst p'; unfold HSIZE; lia).
    replace (p' + HSIZE - HSIZE) with p' by lia. exists (L1 ++ (p, sz - nunits) :: L2).
    assert (Hcov : forall x, cover (L1 ++ (p, sz) :: L2) x = (cover (L1 ++ (p, (sz - nunits)%Z) :: L2) x + ind (p', nunits) x)%nat).
    { intros x. rewrite !cover_app. cbn [cover].
      replace (ind (p, sz) x) with (ind (p, (sz - nunits) + nunits) x) by (do 2 f_equal; lia).
      rewrite ind_merge by lia. fold p'. lia. }
    split_and!; [|done|lia|exact Hcov].
    eapply taken_ok; [exact Hok|done|..]; cbn [hp_mem hp_freep set_freep fst snd].
    + apply closed_app. split.
      * eapply path_frame; [done| | |exact Hp1]; intros a Ha; [|intros _];
          assert (a < p) by (apply Hbelow; set_solver); by heap_cases.
      * apply closed_cons. assert (lastn base L1 < p) by (rewrite <-Hpred; done). heap_cases.
        split_and!; [congruence|done|]. eapply closed_swap; [| |exact Hc2]; heap_cases; [done|].
        intros a Ha. specialize (Habove a Ha). unfold HSIZE in *. by heap_cases.
    + by heap_cases.
    + apply apart_app. split; [done|]. cbn [apart]. split_and!; [done|lia|].
      eapply apart_weaken; [|exact Ha2]. unfold HSIZE in *. lia.
    + rewrite !fmap_app in *. cbn in *. done.
    + by heap_cases.
    + lia.
    + intros c Hcin. assert (c.1 <> p) by (eapply used_elsewhere; [exact Hok|exact Hin|done|cbn; lia]).
      assert (c.1 <> p') by (eapply used_elsewhere; [exact Hok|exact Hin|done|cbn; lia]). by heap_cases.
    + exact Hcov.
    + constructor; [cbn; unfold HSIZE in *; lia|]. apply Forall_app. split; [done|].
      constructor; [cbn; unfold HSIZE in *; lia|done].
Qed.
End umalloc.
