(* ===== verification/UmallocTheorems.v ===== *)
(** [malloc] finds a block or grows the heap, and [free] gives it back: the theorems about
    umalloc.c. *)

From stdpp Require Import base tactics numbers option list sets.
From Stdlib Require Import ZArith Lia.
From S2P Require Import Prelude Umalloc UmallocFacts.

Section umalloc.
Context (base : Z) (sbrk_ok : Z -> Z -> bool).
Notation heap_ok := (heap_ok base).

(** * Going round the ring *)

(** From the node [fp] the ring leads through all other nodes back to [fp]. *)
Lemma ring_way h L A : heap_ok h L A -> exists W sf, let fp := hp_freep h in
  path (hp_mem h) fp (W ++ [(fp, sf)]) /\ fp ∉ W.*1 /\ (base, 0) :: L ≡ₚ W ++ [(fp, sf)].
Proof.
  intros [Hp Hr Hb0 Hap Hfp _ _ _ _]. cbn zeta. set (fp := hp_freep h) in *. set (N := (base, 0) :: L).
  assert (HN : path (hp_mem h) (lastn base L) N) by done.
  assert (Hlast : forall x, lastn x N = lastn base L) by done.
  assert (Hnd : forall N1 s N2, N = N1 ++ (fp, s) :: N2 -> fp ∉ N1.*1 /\ fp ∉ N2.*1).
  { intros N1 s N2 HNe. assert (Hnd : NoDup N.*1); [|rewrite HNe, fmap_app in Hnd; cbn in Hnd;
      apply NoDup_app in Hnd as (_ & Hd & Hnd2); apply NoDup_cons in Hnd2 as [? _]; set_solver].
    subst N. cbn. apply NoDup_cons. split; [intros Hin; apply (apart_nodes _ _ _ Hap) in Hin; lia|].
    clear -Hap. revert Hap. generalize base as e. induction L as [|[a s] L IH]; intros e; cbn; [constructor|].
    intros (He & Hs & Hap). apply NoDup_cons. split; [|by eapply IH].
    intros Hin. apply (apart_nodes _ _ _ Hap) in Hin. unfold HSIZE in *. lia. }
  assert (exists N1 sf N2, N = N1 ++ (fp, sf) :: N2) as (N1 & sf & N2 & HNe).
  { destruct Hfp as [->|(b & Hb & Hin)%list_elem_of_fmap]; [by exists [], 0, L|].
    apply list_elem_of_split in Hin as (k1 & k2 & ->). destruct b as [a s]. cbn in Hb. subst a.
    by exists ((base, 0) :: k1), s, k2. }
  destruct (Hnd _ _ _ HNe) as [Hn1 Hn2].
  exists (N2 ++ N1), sf. rewrite HNe in HN, Hlast |- *.
  apply path_app in HN as [HN1 HN2]. cbn in HN2. destruct HN2 as (Hq & Hsf & HN2).
  assert (Hend : lastn fp N2 = lastn base L) by (specialize (Hlast base); by rewrite lastn_app in Hlast).
  split_and!.
  - rewrite <-app_assoc, path_app, Hend. split; [done|]. rewrite path_app. split; [done|]. cbn. auto.
  - rewrite fmap_app. set_solver.
  - rewrite <-app_assoc. solve_Permutation.
Qed.

(** The search passes over the blocks that are too small. *)
Lemma search_ring h fp nunits W sf : hp_freep h = fp -> fp ∉ W.*1 -> forall prevp fuel,
  path (hp_mem h) prevp (W ++ [(fp, sf)]) -> (length W < fuel)%nat ->
  (exists W1 p s W2 fuel', W ++ [(fp, sf)] = W1 ++ (p, s) :: W2 /\ nunits <= s /\
     malloc_loop sbrk_ok fuel nunits prevp (h_ptr (hp_mem h prevp)) h =
     malloc_loop sbrk_ok (S fuel') nunits (lastn prevp W1) p h) \/
  (Forall (fun b => b.2 < nunits) (W ++ [(fp, sf)]) /\ exists prevp',
     malloc_loop sbrk_ok fuel nunits prevp (h_ptr (hp_mem h prevp)) h =
     malloc_loop sbrk_ok (fuel - length W) nunits prevp' fp h).
Proof.
  intros Hfp. induction W as [|[p s] W IH]; intros Hnin prevp fuel Hp Hf; cbn in Hp.
  - destruct Hp as (Hq & Hs & _). rewrite Hq. destruct fuel as [|fuel]; [cbn in Hf; lia|].
    destruct (Z.le_gt_cases nunits sf).
    + left. by exists [], fp, sf, [], fuel.
    + right. split; [by repeat constructor|]. exists prevp. by rewrite Nat.sub_0_r.
  - destruct Hp as (Hq & Hs & Hp). destruct fuel as [|fuel]; [cbn in Hf; lia|]. rewrite Hq.
    destruct (Z.le_gt_cases nunits s) as [Hle|Hgt].
    + left. by exists [], p, s, (W ++ [(fp, sf)]), fuel.
    + assert (Hstep : malloc_loop sbrk_ok (S fuel) nunits prevp p h =
                      malloc_loop sbrk_ok fuel nunits p (h_ptr (hp_mem h p)) h).
      { cbn [malloc_loop]. unfold size, ptr. run_monad. rewrite Hs.
        destruct (Z.leb_spec nunits s); [lia|]. rewrite Hfp, (proj2 (Z.eqb_neq p fp)) by (cbn in Hnin; set_solver). done. }
      rewrite Hstep. cbn in Hnin, Hf. destruct (IH ltac:(set_solver) p fuel Hp ltac:(lia)) as
        [(W1 & p' & s' & W2 & f' & HW & Hle & Heq)|(Hall & prevp' & Heq)].
      * left. exists ((p, s) :: W1), p', s', W2, f'. cbn. by rewrite HW.
      * right. split; [by constructor|]. exists prevp'. done.
Qed.

(** * Growing the heap *)

(** Bytes covered without a gap lie in one free block. *)
Lemma one_block e L a n : apart e L -> 0 < n -> (forall x, a <= x < a + HSIZE * n -> (0 < cover L x)%nat) ->
  exists b, b ∈ L /\ n <= b.2.
Proof.
  intros Hap Hn Hcov. revert e Hap. induction L as [|[c t] L IH]; intros e Hap.
  { specialize (Hcov a). unfold HSIZE in Hcov. cbn in Hcov. lia. }
  cbn in Hap. destruct Hap as (He & Ht & Hap).
  assert (Habove : forall x, x <= c + HSIZE * t -> cover L x = 0%nat).
  { intros x Hx. clear -Hap Hx. revert Hap Hx. generalize (c + HSIZE * t) as e. induction L as [|[d u] L IH]; intros e Hap Hx; [done|].
    cbn in Hap |- *. destruct Hap as (? & ? & Hap). rewrite (IH (d + HSIZE * u)); [|done|unfold HSIZE; lia]. ind_lia. }
  destruct (decide (n <= t)); [exists (c, t); set_solver|].
  destruct (decide (a < c + HSIZE * t)) as [Hlt|Hge].
  - exfalso. destruct (decide (a < c)).
    + specialize (Hcov a ltac:(unfold HSIZE in *; lia)). cbn in Hcov. rewrite Habove in Hcov by lia. ind_lia.
    + specialize (Hcov (c + HSIZE * t) ltac:(unfold HSIZE in *; lia)). cbn in Hcov. rewrite Habove in Hcov by lia. ind_lia.
  - destruct (IH ltac:(intros x Hx; specialize (Hcov x Hx); cbn in Hcov; revert Hcov; ind_lia) _ Hap) as (b & Hb & Hnb).
    exists b. set_solver.
Qed.

Hypothesis sbrk_limit : forall b n, sbrk_ok b n = true -> b + n <= 2 ^ 31.

Lemma morecore_spec h L A nunits fuel : heap_ok h L A -> 0 < nunits < 2 ^ 28 -> (2 * length L + 2 <= fuel)%nat ->
  wp (morecore sbrk_ok fuel nunits) (fun p h' =>
    (p = 0 /\ h' = h /\ exists n, sbrk_ok (hp_brk h) n = false) \/
    (p = hp_freep h' /\ exists L' nu, heap_ok h' L' A /\ nunits <= nu /\ hp_brk h' = hp_brk h + HSIZE * nu /\
       (length L' <= S (length L))%nat /\ forall x, cover L' x = (cover L x + ind (hp_brk h, nu) x)%nat)) h.
Proof.
  intros Hok Hn Hf. unfold morecore, sbrk. set (nu := if nunits <? 4096 then 4096 else nunits).
  assert (Hnu : nunits <= nu < 2 ^ 28 /\ 0 < nu) by (subst nu; destruct (Z.ltb_spec nunits 4096); lia).
  rewrite (s32_small (nu * HSIZE)) by (unfold HSIZE; lia). clearbody nu. wp_steps.
  pose proof Hok as [Hp Hr Hb0 Hap Hfp Hus Hdis Hbd Hlim].
  destruct (sbrk_ok (hp_brk h) (nu * HSIZE)) eqn:Hs.
  2:{ wp_steps. left. eauto. }
  pose proof (sbrk_limit _ _ Hs) as Hl. wp_steps. rewrite (proj2 (Z.eqb_neq (hp_brk h) (-1))) by lia. wp_steps.
  assert (Hbelow : forall b, b ∈ L ++ A -> b.1 <> hp_brk h).
  { intros b Hb Heq. rewrite Forall_forall in Hbd. pose proof (Hbd b Hb). apply elem_of_app in Hb as [Hb|Hb].
    - destruct (apart_above _ _ _ Hap Hb). unfold HSIZE in *. lia.
    - rewrite Forall_forall in Hus. destruct (Hus b Hb). unfold HSIZE in *. lia. }
  assert (Hnode : forall a, a = base \/ a ∈ L.*1 -> a <> hp_brk h).
  { intros a [->|(b & -> & Hb)%list_elem_of_fmap]; [lia|]. apply Hbelow. set_solver. }
  eapply wp_mono; [apply (free_spec base _ L A (hp_brk h) nu); [|done]|].
  - assert (Hm : forall a, a <> hp_brk h -> hp_mem (set_size (hp_brk h) nu (set_brk (hp_brk h + nu * HSIZE) h)) a = hp_mem h a).
    { intros a Ha. unfold set_size. cbn. by rewrite (proj2 (Z.eqb_neq _ _)). }
    split; try done.
    + eapply path_frame; [done| | |exact Hp]; intros a Ha; [|intros _]; rewrite Hm; try done; apply Hnode; set_solver.
    + rewrite Hm; [done|]. apply Hnode, lastn_in.
    + rewrite Hm; [done|]. apply Hnode. by left.
    + constructor; [split; [cbn; by rewrite Z.eqb_refl|cbn; lia]|]. apply Forall_forall. intros b Hb.
      rewrite Hm by (apply Hbelow; set_solver). rewrite Forall_forall in Hus. by apply Hus.
    + intros x. rewrite cover_app. cbn. specialize (Hdis x). rewrite cover_app in Hdis.
      destruct (decide (cover L x + cover A x = 0)%nat) as [H0|H0]; [unfold ind; destruct (_ && _); lia|].
      assert (Hx : x < hp_brk h).
      { assert (Hcx : (0 < cover (L ++ A) x)%nat) by (rewrite cover_app; lia).
        clear -Hbd Hcx. induction (L ++ A) as [|b l IH]; [cbn in Hcx; lia|]. apply Forall_cons in Hbd as [Hb Hbd].
        cbn in Hcx. destruct (decide (0 < cover l x)%nat); [by apply IH|]. assert (0 < ind b x)%nat by lia. ind_lia. }
      assert (ind (hp_brk h, nu) x = 0%nat) by ind_lia. lia.
    + cbn. apply Forall_app in Hbd as [Hb1 Hb2]. apply Forall_app. split; [|constructor];
        [| cbn; unfold HSIZE in *; lia|]; (eapply Forall_impl; [eassumption|]; cbn; intros b Hb; unfold HSIZE in *; lia).
    + cbn. unfold HSIZE in *. lia.
  - cbn beta. intros _ h' (L' & Hok' & Hbrk & Hlen & Hcov). wp_steps. right. split; [done|]. exists L', nu.
    split_and!; [done|lia|rewrite Hbrk; cbn; lia|done|done].
Qed.

(** * [malloc] *)

(** A block of [n] headers has been taken for the pointer [r] out of the bytes in [F]. *)
Definition taken (F : Z -> nat) (A : list block) (n r : Z) (h' : heap) : Prop :=
  exists L', heap_ok h' L' ((r - HSIZE, n) :: A) /\ base + HSIZE < r /\
    forall x, F x = (cover L' x + ind ((r - HSIZE)%Z, n) x)%nat.

(** A round of the ring from [freep] finds a block, or shows that all are too small. *)
Lemma search_spec h L A nunits fuel : heap_ok h L A -> 0 < nunits -> (length L + 1 <= fuel)%nat ->
  let loop := malloc_loop sbrk_ok fuel nunits (hp_freep h) (h_ptr (hp_mem h (hp_freep h))) in
  wp loop (fun r h' => taken (cover L) A nunits r h' /\ hp_brk h' = hp_brk h) h \/
  (Forall (fun b => b.2 < nunits) L /\ h_size (hp_mem h (hp_freep h)) < nunits /\ exists prevp,
     loop h = malloc_loop sbrk_ok (fuel - length L) nunits prevp (hp_freep h) h).
Proof.
  intros Hok Hn Hf. destruct (ring_way h L A Hok) as (W & sf & Hpath & Hnin & HP). cbn zeta in *.
  assert (HlenW : length W = length L).
  { apply Permutation_length in HP. rewrite length_app in HP. cbn in HP. lia. }
  destruct (search_ring h _ nunits W sf eq_refl Hnin (hp_freep h) fuel Hpath) as
    [(W1 & p & s & W2 & f' & HW & Hle & Heq)|(Hall & prevp' & Heq)]; [lia| |].
  - left. eapply wp_same; [exact Heq|].
    assert (HpL : (p, s) ∈ L).
    { assert (Hin : (p, s) ∈ (base, 0) :: L) by (rewrite HP, HW; set_solver).
      apply elem_of_cons in Hin as [Hin|]; [injection Hin as -> ->; lia|done]. }
    assert (Hprev : lastn (hp_freep h) W1 = base \/ lastn (hp_freep h) W1 ∈ L.*1).
    { destruct (lastn_in (hp_freep h) W1) as [->|Hin]; [by destruct Hok|].
      assert (Hin' : lastn (hp_freep h) W1 ∈ ((base, 0) :: L).*1).
      { rewrite HP, HW, fmap_app. set_solver. }
      cbn in Hin'. by apply elem_of_cons in Hin'. }
    rewrite HW in Hpath. apply path_app in Hpath as [_ Hpath]. cbn in Hpath. destruct Hpath as (Hpp & _ & _).
    apply list_elem_of_split in HpL as (L1 & L2 & ->).
    eapply wp_mono; [apply (take_spec base sbrk_ok h L1 p s L2 A); [done|done|done|lia]|].
    cbn beta. intros r h' (L' & Hok' & Hbrk & Hr & Hcov). split; [|done]. by exists L'.
  - right. assert (Hall' : Forall (fun b => b.2 < nunits) ((base, 0) :: L)) by by rewrite HP.
    apply Forall_cons in Hall' as [_ HallL]. split; [done|]. split; [|exists prevp'; by rewrite <-HlenW].
    apply Forall_app in Hall as [_ Hsf]. apply Forall_cons in Hsf as [Hsf _]. cbn in Hsf.
    apply path_app in Hpath as [_ Hpath]. cbn in Hpath. destruct Hpath as (_ & -> & _). done.
Qed.

Lemma malloc_loop_spec h L A nunits fuel : heap_ok h L A -> 0 < nunits < 2 ^ 28 -> (4 * length L + 8 <= fuel)%nat ->
  wp (malloc_loop sbrk_ok fuel nunits (hp_freep h) (h_ptr (hp_mem h (hp_freep h)))) (fun r h' =>
    (r = 0 /\ h' = h /\ exists n, sbrk_ok (hp_brk h) n = false) \/
    (taken (cover L) A nunits r h' /\ hp_brk h' = hp_brk h) \/
    (exists nu, 0 < nu /\ taken (fun x => cover L x + ind (hp_brk h, nu) x)%nat A nunits r h' /\
       hp_brk h' = hp_brk h + HSIZE * nu)) h.
Proof.
  intros Hok Hn Hf. destruct (search_spec h L A nunits fuel) as [Hfound|(Hall & Hsf & prevp & Heq)]; [done|lia|lia|..].
  { eapply wp_mono; [exact Hfound|]. cbn beta. intros r h' H. right. by left. }
  eapply wp_same; [exact Heq|]. destruct (fuel - length L)%nat as [|f] eqn:Ef; [lia|].
  cbn [malloc_loop]. unfold size, ptr. wp_steps. destruct (Z.leb_spec nunits (h_size (hp_mem h (hp_freep h)))); [lia|].
  wp_steps. rewrite Z.eqb_refl. apply wp_bind.
  eapply wp_mono; [apply (morecore_spec h L A nunits); [done|done|lia]|]. cbn beta.
  intros p h1 [(-> & -> & Hs)|(-> & L1 & nu & Hok1 & Hnu & Hbrk & Hlen & Hcov)].
  { rewrite Z.eqb_refl. wp_steps. by left. }
  assert (Hfp : 0 < hp_freep h1).
  { pose proof Hok1 as [_ _ _ Hap1 Hfp1 _ _ _ Hl1]. destruct Hfp1 as [->|Hin]; [lia|].
    apply (apart_nodes _ _ _ Hap1) in Hin. lia. }
  rewrite (proj2 (Z.eqb_neq _ _)) by lia. wp_steps.
  destruct (search_spec h1 L1 A nunits f) as [Hfound|(Hall1 & _)]; [done|lia|lia|..].
  - eapply wp_mono; [exact Hfound|]. cbn beta. intros r h' [(L' & Hok' & Hr & Hcov') Hbrk']. right. right. exists nu.
    split_and!; [lia| |congruence]. exists L'. split_and!; [done|done|]. intros x. by rewrite <-Hcov, Hcov'.
  - exfalso. destruct (one_block base L1 (hp_brk h) nu) as (b & Hb & Hge); [by destruct Hok1|lia| |].
    + intros x Hx. rewrite Hcov. assert (ind (hp_brk h, nu) x = 1%nat) by ind_lia. lia.
    + rewrite Forall_forall in Hall1. specialize (Hall1 b Hb). cbn in Hall1. lia.
Qed.

(** A heap on which [malloc] may be called: initialised, or as the program starts. *)
Definition heap_ready (h : heap) (L A : list block) : Prop :=
  heap_ok h L A \/ (hp_freep h = 0 /\ L = [] /\ A = [] /\ 0 < base < hp_brk h /\ hp_brk h <= 2 ^ 31).

Lemma heap_start h : 0 < base < hp_brk h -> hp_brk h <= 2 ^ 31 ->
  heap_ok (set_size base 0 (set_ptr base base (set_freep base h))) [] [].
Proof.
  intros Hb Hl. split; cbn; try done; [by rewrite !Z.eqb_refl..|by left|lia].
Qed.

Lemma nunits_range n : 0 <= n <= 2 ^ 31 - 24 -> 0 < nunits_of n < 2 ^ 28 /\ n <= HSIZE * (nunits_of n - 1).
Proof.
  intros Hn. unfold nunits_of, HSIZE. rewrite u32_small by lia.
  pose proof (Z.div_mod (n + 8 - 1) 8). pose proof (Z.mod_pos_bound (n + 8 - 1) 8). lia.
Qed.

Lemma malloc_spec h L A nbytes fuel : heap_ready h L A -> 0 <= nbytes <= 2 ^ 31 - 24 -> (4 * length L + 8 <= fuel)%nat ->
  wp (malloc base sbrk_ok fuel nbytes) (fun r h' =>
    (r = 0 /\ heap_ok h' L A /\ hp_brk h' = hp_brk h /\ exists n, sbrk_ok (hp_brk h) n = false) \/
    (taken (cover L) A (nunits_of nbytes) r h' /\ hp_brk h' = hp_brk h) \/
    (exists nu, 0 < nu /\ taken (fun x => cover L x + ind (hp_brk h, nu) x)%nat A (nunits_of nbytes) r h' /\
       hp_brk h' = hp_brk h + HSIZE * nu)) h.
Proof.
  intros Hr Hn Hf. destruct (nunits_range nbytes Hn) as [Hnu _].
  assert (Hgo : forall h0, heap_ok h0 L A -> hp_brk h0 = hp_brk h ->
    wp (malloc_loop sbrk_ok fuel (nunits_of nbytes) (hp_freep h0) (h_ptr (hp_mem h0 (hp_freep h0)))) (fun r h' =>
      (r = 0 /\ heap_ok h' L A /\ hp_brk h' = hp_brk h /\ exists n, sbrk_ok (hp_brk h) n = false) \/
      (taken (cover L) A (nunits_of nbytes) r h' /\ hp_brk h' = hp_brk h) \/
      (exists nu, 0 < nu /\ taken (fun x => cover L x + ind (hp_brk h, nu) x)%nat A (nunits_of nbytes) r h' /\
         hp_brk h' = hp_brk h + HSIZE * nu)) h0).
  { intros h0 Hok Hbrk. eapply wp_mono; [apply (malloc_loop_spec h0 L A); [done|lia|done]|]. cbn beta.
    rewrite Hbrk. intros r h' [(-> & -> & Hs)|[Ht|Ht]]; auto. }
  unfold malloc, ptr. destruct Hr as [Hok|(Hfp & -> & -> & Hb & Hl)].
  - assert (Hfp : 0 < hp_freep h).
    { pose proof Hok as [_ _ _ Hap Hfp _ _ _ Hl]. destruct Hfp as [->|Hin]; [lia|].
      apply (apart_nodes _ _ _ Hap) in Hin. lia. }
    wp_steps. rewrite (proj2 (Z.eqb_neq _ _)) by lia. wp_steps. by apply Hgo.
  - wp_steps. rewrite Hfp. cbn [Z.eqb]. wp_steps.
    apply (Hgo (set_size base 0 (set_ptr base base (set_freep base h)))); [by apply heap_start|done].
Qed.

(** Blocks in use do not meet the new one. *)
Lemma fresh_block h L A a n b : heap_ok h L ((a, n) :: A) -> b ∈ A ->
  a + HSIZE * n <= b.1 \/ b.1 + HSIZE * b.2 <= a.
Proof.
  intros [_ _ _ _ _ Hus Hdis _ _] Hb. apply Forall_cons in Hus as [[_ Hn] Hus]. cbn in Hn.
  rewrite Forall_forall in Hus. destruct (Hus b Hb) as [_ Hb0].
  destruct (Z.le_gt_cases (a + HSIZE * n) b.1) as [|H1]; [by left|].
  destruct (Z.le_gt_cases (b.1 + HSIZE * b.2) a) as [|H2]; [by right|]. exfalso.
  pose (x := Z.max a b.1). specialize (Hdis x). rewrite cover_app in Hdis. cbn in Hdis.
  pose proof (cover_in A b x Hb ltac:(subst x; unfold HSIZE in *; lia)).
  assert (ind (a, n) x = 1%nat) by (subst x; ind_lia). lia.
Qed.


(** C32: [free] ends and takes the block back: its bytes are free again, all other bytes are as
    they were, neighbouring free blocks are joined into one, and every other block keeps its
    header.  The invariant of the ring holds again. *)
Theorem free_returns (h : heap) (L A : list block) (ap n : Z) (fuel : nat) :
  heap_ok h L ((ap - HSIZE, n) :: A) -> (2 * length L + 2 <= fuel)%nat ->
  wp (free fuel ap) (fun _ h' => exists L', heap_ok h' L' A /\
    forall x, cover L' x = (cover L x + ind ((ap - HSIZE)%Z, n) x)%nat) h.
Proof.
  intros Hok Hf. replace ap with (ap - HSIZE + HSIZE) at 1 by lia.
  eapply wp_mono; [by apply (free_spec base h L A)|]. cbn beta. intros _ h' (L' & H & _ & _ & Hc). eauto.
Qed.

End umalloc.

(** * A program's first calls *)

(** [base] in the data segment, the heap behind it, and a kernel that grants what fits. *)
Definition demo_base : Z := 0x2000.
Definition demo_grant (b n : Z) : bool := b + n <=? 2 ^ 31.
Definition demo_heap : heap := MkHeap (fun _ => MkHeader 0 0) 0 0x4000.

Lemma demo_grant_limit b n : demo_grant b n = true -> b + n <= 2 ^ 31.
Proof. apply Z.leb_le. Qed.
Lemma demo_heap_ready : heap_ready demo_base demo_heap [] [].
Proof. right. cbn. unfold demo_base. split_and!; try done; lia. Qed.


(** The heap after [malloc(100)], with its one block in use. *)
Lemma demo_heap_used : exists h L r n, heap_ok demo_base h L [(r - HSIZE, n)].
Proof.
  pose proof (malloc_spec demo_base demo_grant demo_grant_limit demo_heap [] [] 100 8 demo_heap_ready
    ltac:(lia) ltac:(cbn; lia)) as Hm.
  apply wp_ok in Hm as (r & h' & Hrun & [(Hr & _)|[[(L' & Hok & _) _]|(nu & _ & (L' & Hok & _) & _)]]); [|by eauto 6..].
  subst r. vm_compute in Hrun. discriminate Hrun.
Qed.

Lemma free_returns_witness : exists h L r n, heap_ok demo_base h L [(r - HSIZE, n)] /\
  wp (free (2 * length L + 2) r) (fun _ h' => exists L', heap_ok demo_base h' L' [] /\
    forall x, cover L' x = (cover L x + ind ((r - HSIZE)%Z, n) x)%nat) h.
Proof.
  destruct demo_heap_used as (h & L & r & n & Hok). exists h, L, r, n. split; [exact Hok|].
  apply (free_returns demo_base h L [] r n (2 * length L + 2) Hok). reflexivity.
Defined.

(** * Requests that overflow *)

(** A request for nearly 2^32 bytes is rounded to a block of one header, with no byte to use. *)
Lemma malloc_wraps : nunits_of (2 ^ 32 - 1) = 1.
Proof. by vm_compute. Qed.
(** A request for 2^31 bytes makes [morecore] pass a negative number to [sbrk]. *)
Lemma morecore_shrinks : s32 (nunits_of (2 ^ 31) * HSIZE) < 0.
Proof. by vm_compute. Qed.
