(* ===== verification/Console.v ===== *)
(** The console: screen, serial line and line input of console.c, [uartputc] of uart.c.

    Characters go to the serial port, here the list of bytes sent, and to the CGA screen, here
    its memory and the position that its cursor registers hold.  [sleep] ends a step of
    [consoleread], which releases the lock; the rest of the call is a value.  Calls into the
    process table and the file system are events. *)

From stdpp Require Import base tactics numbers option list sets strings.
From Stdlib Require Import ZArith Lia Ascii.
From S2P Require Import Prelude ProcDefs Spinlock User Printf Pipe.

Definition BACKSPACE : Z := 0x100.
Definition INPUT_BUF : Z := 128.
(** [C(x)]: Control-x. *)
Definition Ctl (x : ascii) : Z := ch x - ch "@".

(** [struct input]. *)
Record input := MkInput { in_buf : list Z; in_r : Z; in_w : Z; in_e : Z }.
Definition set_in_buf (v : list Z) (i : input) : input := MkInput v (in_r i) (in_w i) (in_e i).
Definition set_in_r (v : Z) (i : input) : input := MkInput (in_buf i) v (in_w i) (in_e i).
Definition set_in_w (v : Z) (i : input) : input := MkInput (in_buf i) (in_r i) v (in_e i).
Definition set_in_e (v : Z) (i : input) : input := MkInput (in_buf i) (in_r i) (in_w i) v.

Inductive cevent :=
  | CvWakeup                   (* wakeup(&input.r) *)
  | CvSleep                    (* sleep(&input.r, &cons.lock) *)
  | CvIunlock | CvIlock        (* of the inode of a read or write *)
  | CvOutw (port v : Z)        (* outw(port, v) *)
  | CvDevsw (major : Z)        (* the calls of a device in devsw *)
  | CvIoapicenable (irq cpu : Z)
  | CvProcdump | CvRunnabledump | CvUnuseddump | CvSleepdump | CvZombiedump.

Record cons := MkCons {
  co_in : input;
  co_cpu : cpu;
  co_lock : spinlock;
  co_locking : bool;
  co_panicked : bool;
  co_crt : Z -> Z;        (* CGA memory, by cell *)
  co_pos : Z;             (* cursor registers 14 and 15 *)
  co_uart : bool;         (* is there a uart? *)
  co_sent : list Z;       (* bytes sent on it *)
  co_log : list cevent
}.
Definition set_co_in (v : input) (s : cons) : cons :=
  MkCons v (co_cpu s) (co_lock s) (co_locking s) (co_panicked s) (co_crt s) (co_pos s) (co_uart s) (co_sent s) (co_log s).
Definition set_co_lock (v : cpu * spinlock) (s : cons) : cons :=
  MkCons (co_in s) v.1 v.2 (co_locking s) (co_panicked s) (co_crt s) (co_pos s) (co_uart s) (co_sent s) (co_log s).
Definition set_co_crt (v : Z -> Z) (s : cons) : cons :=
  MkCons (co_in s) (co_cpu s) (co_lock s) (co_locking s) (co_panicked s) v (co_pos s) (co_uart s) (co_sent s) (co_log s).
Definition set_co_pos (v : Z) (s : cons) : cons :=
  MkCons (co_in s) (co_cpu s) (co_lock s) (co_locking s) (co_panicked s) (co_crt s) v (co_uart s) (co_sent s) (co_log s).
Definition set_co_sent (v : list Z) (s : cons) : cons :=
  MkCons (co_in s) (co_cpu s) (co_lock s) (co_locking s) (co_panicked s) (co_crt s) (co_pos s) (co_uart s) v (co_log s).
Definition set_co_log (v : list cevent) (s : cons) : cons :=
  MkCons (co_in s) (co_cpu s) (co_lock s) (co_locking s) (co_panicked s) (co_crt s) (co_pos s) (co_uart s) (co_sent s) v.

Definition set_co_uart (v : bool) (s : cons) : cons :=
  MkCons (co_in s) (co_cpu s) (co_lock s) (co_locking s) (co_panicked s) (co_crt s) (co_pos s) v (co_sent s) (co_log s).
Definition set_co_locking (v : bool) (s : cons) : cons :=
  MkCons (co_in s) (co_cpu s) (co_lock s) v (co_panicked s) (co_crt s) (co_pos s) (co_uart s) (co_sent s) (co_log s).
Definition set_co_panicked (v : bool) (s : cons) : cons :=
  MkCons (co_in s) (co_cpu s) (co_lock s) (co_locking s) v (co_crt s) (co_pos s) (co_uart s) (co_sent s) (co_log s).

Local Abbreviation C := (M cons).
Definition clog (e : cevent) : C unit := modify (fun s => set_co_log (co_log s ++ [e]) s).
Definition on_clock (m : M (cpu * spinlock) unit) : C unit := zoom (fun s => (co_cpu s, co_lock s)) set_co_lock m.
Definition on_in (f : input -> input) : C unit := modify (fun s => set_co_in (f (co_in s)) s).

(** * Output *)

(** [uartputc]: the wait for the transmitter gives up after 128 polls and sends in any case. *)
Definition uartputc (c : Z) : C unit :=
  u ← gets co_uart;
  if (u : bool) then modify (fun s => set_co_sent (co_sent s ++ [u8 c]) s) else mret tt.

Definition crt_put (a v : Z) : C unit :=
  modify (fun s => set_co_crt (fun b => if b =? a then v else co_crt s b) s).
(** [memmove(crt, crt+80, sizeof(crt[0])*23*80)] and [memset(crt+pos, 0, ...)]. *)
Definition crt_scroll : C unit :=
  modify (fun s => set_co_crt (fun b => if (0 <=? b) && (b <? 23 * 80) then co_crt s (b + 80) else co_crt s b) s).
Definition crt_clear (pos n : Z) : C unit :=
  modify (fun s => set_co_crt (fun b => if (pos <=? b) && (b <? pos + n) then 0 else co_crt s b) s).

(** [cgaputc]: where the cursor goes, then the scrolling and the cursor. *)
Definition cga_advance (c pos : Z) : C Z :=
  if c =? 10 then mret (pos + (80 - pos mod 80))
  else if c =? BACKSPACE then mret (if 0 <? pos then pos - 1 else pos)
  else crt_put pos (Z.lor (Z.land c 0xff) 0x0700);; mret (pos + 1).
Definition cga_place (pos : Z) : C unit :=
  panic_if ((pos <? 0) || (25 * 80 <? pos)) "pos under/overflow";;
  pos ← (if 24 <=? pos / 80 then
           crt_scroll;;
           let pos := pos - 80 in
           crt_clear pos (24 * 80 - pos);;
           mret pos
         else mret pos);
  modify (set_co_pos pos);;
  crt_put pos (Z.lor 32 0x0700).
Definition cgaputc (c : Z) : C unit :=
  pos ← gets co_pos;
  pos ← cga_advance c pos;
  cga_place pos.

Definition consputc (c : Z) : C unit :=
  p ← gets co_panicked;
  if (p : bool) then fail ESpin else
  (if c =? BACKSPACE then uartputc 8;; uartputc 32;; uartputc 8 else uartputc c);;
  cgaputc c.

(** [cprintf] with the C strings of its arguments given by [str]. *)
Definition cons_cprintf (me : nat) (str : Z -> list Z) (fmt : string) (argp : list Z) : C unit :=
  locking ← gets co_locking;
  (if (locking : bool) then on_clock (acquire me) else mret tt);;
  out ← deref (fun _ => cprintf str fmt argp);
  for_each consputc out;;
  (if (locking : bool) then on_clock (release me) else mret tt).

(** [cprintf] of a format without string arguments. *)
Definition cons_say (me : nat) (fmt : string) (argp : list Z) : C unit := cons_cprintf me (fun _ => []) (esc fmt) argp.

(** [do_shutdown]: the message and the port that turns QEMU off. *)
Definition do_shutdown (me : nat) : C unit :=
  cons_say me "\nShutting down ...\n" [];; clog (CvOutw 0x604 0x2000).

(** Of sysproc.c. *)
Definition sys_halt (me : nat) : C Z := do_shutdown me;; mret 0.

(** [panic] up to its endless loop; [lapicid] is that of the processor.  The message is itself a format. *)
Definition panic_report (me : nat) (lapicid : Z) (msg : string) (pcs : list Z) : C unit :=
  modify (fun s => set_co_lock (set_c_if false (co_cpu s), co_lock s) s);;
  modify (set_co_locking false);;
  cons_say me "lapicid %d: panic: " [lapicid];;
  cons_say me msg [];;
  cons_say me "\n" [];;
  for_each (fun pc => cons_say me " %p" [pc]) pcs;;
  modify (set_co_panicked true).
(** [mem] is the memory of the stacks and [v] the address of the argument. *)
Definition panic (me : nat) (lapicid : Z) (mem : Z -> Z) (v : Z) (msg : string) : C unit :=
  panic_report me lapicid msg (getcallerpcs mem v);;
  fail ESpin.

(** * Input *)

(** What the characters seen by one call of [consoleintr] ask for afterwards. *)
Record wants := MkWants { wt_proc : bool; wt_run : bool; wt_unused : bool; wt_sleep : bool; wt_zombie : bool; wt_halt : bool }.
Definition no_wants : wants := MkWants false false false false false false.

(** The loop of Control-U; the fuel is the size of the buffer. *)
Fixpoint kill_line (fuel : nat) : C unit :=
  match fuel with
  | O => fail EFuel
  | S fuel =>
      i ← gets co_in;
      if negb (in_e i =? in_w i) &&
         negb (in_buf i !!! Z.to_nat (u32 (in_e i - 1) mod INPUT_BUF) =? 10) then
        on_in (set_in_e (u32 (in_e i - 1)));;
        consputc BACKSPACE;;
        kill_line fuel
      else mret tt
  end.

(** The [switch] on one character. *)
Definition consoleintr_char (c : Z) (d : wants) : C wants :=
  if c =? Ctl "P" then mret (MkWants true (wt_run d) (wt_unused d) (wt_sleep d) (wt_zombie d) (wt_halt d))
  else if c =? Ctl "R" then mret (MkWants (wt_proc d) true (wt_unused d) (wt_sleep d) (wt_zombie d) (wt_halt d))
  else if c =? Ctl "F" then mret (MkWants (wt_proc d) (wt_run d) true (wt_sleep d) (wt_zombie d) (wt_halt d))
  else if c =? Ctl "S" then mret (MkWants (wt_proc d) (wt_run d) (wt_unused d) true (wt_zombie d) (wt_halt d))
  else if c =? Ctl "Z" then mret (MkWants (wt_proc d) (wt_run d) (wt_unused d) (wt_sleep d) true (wt_halt d))
  else if c =? Ctl "D" then mret (MkWants (wt_proc d) (wt_run d) (wt_unused d) (wt_sleep d) (wt_zombie d) true)
  else if c =? Ctl "U" then kill_line (S (Z.to_nat INPUT_BUF));; mret d
  else if (c =? Ctl "H") || (c =? 0x7f) then
    i ← gets co_in;
    (if negb (in_e i =? in_w i) then on_in (set_in_e (u32 (in_e i - 1)));; consputc BACKSPACE else mret tt);;
    mret d
  else
    i ← gets co_in;
    (if negb (c =? 0) && (u32 (in_e i - in_r i) <? INPUT_BUF) then
       let c := if c =? 13 then 10 else c in
       on_in (fun i => set_in_e (u32 (in_e i + 1)) (set_in_buf (<[Z.to_nat (in_e i mod INPUT_BUF) := u8 c]> (in_buf i)) i));;
       consputc c;;
       i ← gets co_in;
       (if (c =? 10) || (c =? Ctl "D") || (in_e i =? u32 (in_r i + INPUT_BUF)) then
          on_in (fun i => set_in_w (in_e i) i);;
          clog CvWakeup
        else mret tt)
     else mret tt);;
    mret d.

(** [while((c = getc()) >= 0)]: [cs] are the characters before the first negative one. *)
Fixpoint consoleintr_chars (cs : list Z) (d : wants) : C wants :=
  match cs with
  | [] => mret d
  | c :: cs => d ← consoleintr_char c d; consoleintr_chars cs d
  end.
Definition when (b : bool) (m : C unit) : C unit := if b then m else mret tt.
Definition consoleintr (me : nat) (cs : list Z) : C unit :=
  on_clock (acquire me);;
  d ← consoleintr_chars cs no_wants;
  on_clock (release me);;
  when (wt_halt d) (do_shutdown me);;
  when (wt_proc d) (clog CvProcdump);;
  when (wt_run d) (clog CvRunnabledump);;
  when (wt_unused d) (clog CvUnuseddump);;
  when (wt_sleep d) (clog CvSleepdump);;
  when (wt_zombie d) (clog CvZombiedump).

(** * Reading and writing *)

Section device.
(** The processor, and [myproc()->killed]. *)
Context (me : nat) (killed : bool).

(** The loop of [consoleread] with [n] of [target] bytes left: the bytes stored at [dst] in this
    step, and what the call returns or the number of bytes still wanted when it sleeps. *)
Fixpoint consoleread_loop (fuel : nat) (target n : Z) : C (list Z * pres Z Z) :=
  match fuel with
  | O => fail EFuel
  | S fuel =>
      if n <=? 0 then on_clock (release me);; clog CvIlock;; mret ([], PDone (target - n)) else
      i ← gets co_in;
      if in_r i =? in_w i then
        if killed then on_clock (release me);; clog CvIlock;; mret ([], PDone (-1))
        else clog CvSleep;; on_clock (release me);; mret ([], PSleep n)
      else
      let c := in_buf i !!! Z.to_nat (in_r i mod INPUT_BUF) in
      on_in (set_in_r (u32 (in_r i + 1)));;
      if c =? Ctl "D" then
        (if n <? target then on_in (fun i => set_in_r (u32 (in_r i - 1)) i) else mret tt);;
        on_clock (release me);; clog CvIlock;; mret ([], PDone (target - n))
      else if c =? 10 then
        on_clock (release me);; clog CvIlock;; mret ([c], PDone (target - (n - 1)))
      else
        '(bs, r) ← consoleread_loop fuel target (n - 1);
        mret (c :: bs, r)
  end.
(** Entering the call, and coming back from its [sleep]; no more than the buffer can be read in
    one step. *)
Definition consoleread_more (target n : Z) : C (list Z * pres Z Z) :=
  on_clock (acquire me);; consoleread_loop (S (S (Z.to_nat INPUT_BUF))) target n.
Definition consoleread (n : Z) : C (list Z * pres Z Z) :=
  clog CvIunlock;; consoleread_more n n.

Definition consolewrite (bytes : list Z) : C Z :=
  clog CvIunlock;;
  on_clock (acquire me);;
  for_each (fun b => consputc (Z.land b 0xff)) bytes;;
  on_clock (release me);;
  clog CvIlock;;
  mret (Z.of_nat (length bytes)).
End device.

Definition CONSOLE : Z := 1.
Definition consoleinit : C unit :=
  modify (fun s => set_co_lock (co_cpu s, initlock "console") s);;
  clog (CvDevsw CONSOLE);;
  modify (set_co_locking true);;
  clog (CvIoapicenable 1 (* IRQ_KBD *) 0).
