(* ===== verification/ConsoleFacts.v ===== *)
(** The console delivers the lines that were typed, as they were edited: console.c. *)

From stdpp Require Import base tactics numbers option list sets strings.
From Stdlib Require Import ZArith Lia Ascii.
From S2P Require Import Prelude ProcDefs Spinlock User Printf Pipe Console.

(** * The screen *)

(** The cursor is on one of the first 24 lines. *)
Definition on_screen (s : cons) : Prop := 0 <= co_pos s < 24 * 80.

(** Output changes the screen and the serial line and nothing else. *)
Definition only_output (s s' : cons) : Prop :=
  co_in s' = co_in s /\ co_cpu s' = co_cpu s /\ co_lock s' = co_lock s /\ co_locking s' = co_locking s /\
  co_panicked s' = co_panicked s /\ co_uart s' = co_uart s /\ co_log s' = co_log s.
Definition only_screen (s s' : cons) : Prop := only_output s s' /\ co_sent s' = co_sent s.

#[global] Instance only_output_preorder : PreOrder only_output.
Proof. split; [done|]. unfold only_output. intros s1 s2 s3 ? ?. intuition congruence. Qed.
#[global] Instance only_screen_preorder : PreOrder only_screen.
Proof. split; [done|]. intros s1 s2 s3 [? E1] [? E2]. split; [by etrans|congruence]. Qed.

Lemma cga_place_spec pos s : 0 <= pos <= 24 * 80 ->
  wp (cga_place pos) (fun _ s' => only_screen s s' /\ on_screen s') s.
Proof.
  intros Hpos. unfold cga_place. apply wp_bind, wp_panic_if.
  { destruct (Z.ltb_spec pos 0), (Z.ltb_spec (25 * 80) pos); done || lia. }
  pose proof (Z.div_mod pos 80 ltac:(lia)). pose proof (Z.mod_pos_bound pos 80 ltac:(lia)).
  cbn beta. unfold crt_scroll, crt_clear, crt_put, on_screen.
  destruct (Z.leb_spec 24 (pos / 80)); wp_steps; (split; [done|cbn; lia]).
Qed.
Lemma cgaputc_spec c s : on_screen s -> wp (cgaputc c) (fun _ s' => only_screen s s' /\ on_screen s') s.
Proof.
  intros Hs. unfold cgaputc. wp_steps.
  eapply (wp_mono _ (fun pos s' => only_screen s s' /\ 0 <= pos <= 24 * 80)).
  - unfold cga_advance, crt_put. unfold on_screen in Hs.
    pose proof (Z.mod_pos_bound (co_pos s) 80 ltac:(lia)). pose proof (Z.div_mod (co_pos s) 80 ltac:(lia)).
    destruct (c =? 10); [wp_steps; split; [done|lia]|].
    destruct (c =? BACKSPACE); wp_steps; (split; [done|]); [destruct (Z.ltb_spec 0 (co_pos s)); lia|lia].
  - cbn beta. intros pos s1 [Ho Hpos]. eapply wp_mono; [by apply cga_place_spec|]. cbn beta.
    intros _ s2 [Ho2 Hs2]. split; [by etrans|done].
Qed.

(** What the serial line gets for a character. *)
Definition serial (s : cons) (c : Z) : list Z :=
  if co_uart s then u8 <$> (if c =? BACKSPACE then [8; 32; 8] else [c]) else [].
(** The characters [out] and nothing else were printed. *)
Definition printed (s : cons) (out : list Z) (s' : cons) : Prop :=
  only_output s s' /\ on_screen s' /\ co_sent s' = co_sent s ++ (out ≫= serial s).
Lemma printed_app s s1 s2 out1 out2 : printed s out1 s1 -> printed s1 out2 s2 -> printed s (out1 ++ out2) s2.
Proof.
  intros (H1 & _ & E1) (H2 & Hs & E2). split; [by etrans|]. split; [done|].
  rewrite E2, E1, bind_app, app_assoc. f_equal. unfold serial. by destruct H1 as (_ & _ & _ & _ & _ & -> & _).
Qed.

(** The screen never overflows, and output never panics. *)
Lemma consputc_spec c s : on_screen s -> co_panicked s = false -> wp (consputc c) (fun _ s' => printed s [c] s') s.
Proof.
  intros Hs Hp. unfold consputc, uartputc. wp_steps. rewrite Hp.
  assert (Hput : forall s1, only_output s s1 -> co_pos s1 = co_pos s -> co_sent s1 = co_sent s ++ serial s c ->
    wp (cgaputc c) (fun _ s' => printed s [c] s') s1).
  { intros s1 Ho Hpos Hsent. eapply wp_mono; [apply cgaputc_spec; unfold on_screen; by rewrite Hpos|]. cbn beta.
    intros _ s' [[H1 H2] H3]. split; [by etrans|]. split; [done|]. cbn. rewrite app_nil_r. congruence. }
  unfold serial in *. destruct (c =? BACKSPACE); destruct (co_uart s) eqn:Eu;
    repeat (wp_step; cbn beta; try (cbn; rewrite Eu)); apply Hput; try done; cbn; by rewrite <-?app_assoc, ?app_nil_r.
Qed.
Lemma puts_spec out s : on_screen s -> co_panicked s = false -> wp (for_each consputc out) (fun _ s' => printed s out s') s.
Proof.
  revert s. induction out as [|c out IH]; intros s Hs Hp; cbn [for_each].
  { apply wp_ret. split; [done|]. split; [done|]. cbn. by rewrite app_nil_r. }
  apply wp_bind. eapply wp_mono; [by apply consputc_spec|]. cbn beta. intros _ s1 H1.
  eapply wp_mono; [apply IH; [apply H1|]|].
  { destruct H1 as ((_ & _ & _ & _ & -> & _) & _). done. }
  cbn beta. intros _ s2 H2. by apply (printed_app s s1 s2 [c] out).
Qed.

(** * The ring of input characters *)

Definition ring (buf : list Z) (r : Z) (n : nat) : list Z :=
  (fun k => buf !!! Z.to_nat ((r + Z.of_nat k) mod INPUT_BUF)) <$> seq 0 n.

Lemma ring_length buf r n : length (ring buf r n) = n.
Proof. unfold ring. by rewrite length_fmap, length_seq. Qed.
Lemma ring_snoc buf r n : ring buf r (S n) = ring buf r n ++ [buf !!! Z.to_nat ((r + Z.of_nat n) mod INPUT_BUF)].
Proof. unfold ring. rewrite seq_S, fmap_app. done. Qed.
Lemma u32_mod_buf z : u32 z mod INPUT_BUF = z mod INPUT_BUF.
Proof. unfold u32, INPUT_BUF. symmetry. apply Znumtheory.Zmod_div_mod; [lia..|]. by exists (2 ^ 25). Qed.
Lemma ring_cons buf r n : ring buf r (S n) = buf !!! Z.to_nat (r mod INPUT_BUF) :: ring buf (u32 (r + 1)) n.
Proof.
  unfold ring. cbn [seq fmap list_fmap]. rewrite Z.add_0_r. f_equal. rewrite <-fmap_S_seq, <-list_fmap_compose.
  apply list_fmap_ext. intros i k _. cbn. do 2 f_equal.
  rewrite <-(u32_mod_buf (u32 (r + 1) + Z.of_nat k)), u32_add_l, u32_mod_buf. f_equal. lia.
Qed.
Lemma ring_mod buf r n : ring buf (u32 r) n = ring buf r n.
Proof.
  unfold ring. apply list_fmap_ext. intros i k _. cbn. do 2 f_equal.
  by rewrite <-(u32_mod_buf (u32 r + Z.of_nat k)), u32_add_l, u32_mod_buf.
Qed.
(** Storing behind the last character. *)
Lemma ring_put buf r n v : Z.of_nat (length buf) = INPUT_BUF -> Z.of_nat n < INPUT_BUF ->
  ring (<[Z.to_nat (u32 (r + Z.of_nat n) mod INPUT_BUF) := v]> buf) r (S n) = ring buf r n ++ [v].
Proof.
  intros Hl Hn. rewrite u32_mod_buf, ring_snoc. unfold INPUT_BUF in *.
  pose proof (Z.mod_pos_bound (r + Z.of_nat n) 128 ltac:(lia)).
  rewrite list_lookup_total_insert_eq by lia. f_equal. unfold ring, INPUT_BUF.
  apply list_fmap_ext. intros i k Hk. apply list_lookup_total_insert_ne.
  apply lookup_seq in Hk as [-> Hk]. cbn. intros Heq.
  apply Z2Nat.inj in Heq; [|apply Z.mod_pos_bound; lia..].
  assert (Hd : (r + Z.of_nat n - (r + Z.of_nat i)) mod 128 = 0) by (rewrite Zminus_mod, Heq, Z.sub_diag; done).
  rewrite (Z.mod_small (r + Z.of_nat n - (r + Z.of_nat i))) in Hd; lia.
Qed.

(** The committed characters [Q] and those still being edited [E]. *)
Record in_rep (i : input) (Q E : list Z) : Prop := {
  ir_len : Z.of_nat (length (in_buf i)) = INPUT_BUF;
  ir_r : 0 <= in_r i < 2 ^ 32;
  ir_w : in_w i = u32 (in_r i + Z.of_nat (length Q));
  ir_e : in_e i = u32 (in_r i + Z.of_nat (length Q) + Z.of_nat (length E));
  ir_fit : Z.of_nat (length Q) + Z.of_nat (length E) <= INPUT_BUF;
  ir_data : Q ++ E = ring (in_buf i) (in_r i) (length Q + length E);
  ir_line : 10 ∉ E
}.

Lemma u32_eq a b : 0 <= b - a < 2 ^ 32 -> u32 a = u32 b -> a = b.
Proof.
  intros Hr Heq. unfold u32 in Heq. assert (Hd : (b - a) mod 2 ^ 32 = 0) by (rewrite Zminus_mod, Heq, Z.sub_diag; done).
  rewrite Z.mod_small in Hd; lia.
Qed.

Lemma rep_edit_empty i Q E : in_rep i Q E -> (in_e i =? in_w i) = bool_decide (E = []).
Proof.
  intros [Hl Hr Hw He Hf _ _]. rewrite Hw, He. destruct E as [|c E].
  - cbn. by rewrite Z.add_0_r, Z.eqb_refl.
  - rewrite bool_decide_false by done. apply Z.eqb_neq. intros Heq. symmetry in Heq.
    apply u32_eq in Heq; cbn [length] in *; unfold INPUT_BUF in *; lia.
Qed.
Lemma rep_empty i Q E : in_rep i Q E -> (in_r i =? in_w i) = bool_decide (Q = []).
Proof.
  intros [Hl Hr Hw He Hf _ _]. rewrite Hw, <-(u32_small (in_r i)) at 1 by done. destruct Q as [|c Q].
  - cbn. by rewrite Z.add_0_r, Z.eqb_refl.
  - rewrite bool_decide_false by done. apply Z.eqb_neq. intros Heq.
    apply u32_eq in Heq; cbn [length] in *; unfold INPUT_BUF in *; lia.
Qed.
Lemma rep_count i Q E : in_rep i Q E -> u32 (in_e i - in_r i) = Z.of_nat (length Q + length E).
Proof.
  intros [Hl Hr Hw He Hf _ _]. rewrite He, u32_sub_l.
  replace (_ - in_r i) with (Z.of_nat (length Q + length E)) by lia. apply u32_small. unfold INPUT_BUF in *. lia.
Qed.

(** Dropping the last character being edited. *)
Lemma rep_back i Q E c : in_rep i Q (E ++ [c]) -> in_rep (set_in_e (u32 (in_e i - 1)) i) Q E /\
  in_buf i !!! Z.to_nat (u32 (in_e i - 1) mod INPUT_BUF) = c.
Proof.
  intros [Hl Hr Hw He Hf Hd Hn]. rewrite length_app in *. cbn [length] in *.
  replace (length Q + (length E + 1))%nat with (S (length Q + length E)) in Hd by lia.
  rewrite ring_snoc, app_assoc in Hd. apply app_inj_tail in Hd as [Hd ->].
  assert (Heq : u32 (in_e i - 1) = u32 (in_r i + Z.of_nat (length Q) + Z.of_nat (length E))).
  { rewrite He, u32_sub_l. f_equal. lia. }
  rewrite Heq. split.
  - split; cbn; try done; [lia|set_solver].
  - rewrite u32_mod_buf. do 3 f_equal. lia.
Qed.

(** Adding a character to those being edited, and committing them. *)
Lemma rep_put i Q E v : in_rep i Q E -> Z.of_nat (length Q) + Z.of_nat (length E) < INPUT_BUF -> v <> 10 ->
  in_rep (set_in_e (u32 (in_e i + 1)) (set_in_buf (<[Z.to_nat (in_e i mod INPUT_BUF) := v]> (in_buf i)) i)) Q (E ++ [v]).
Proof.
  intros [Hl Hr Hw He Hf Hd Hn] Hlt Hv. split; cbn; try done.
  - by rewrite length_insert.
  - rewrite He, u32_add_l, length_app. cbn. f_equal. lia.
  - rewrite length_app. cbn. lia.
  - rewrite length_app, Nat.add_assoc, Nat.add_comm. cbn [length Nat.add].
    rewrite He, <-Z.add_assoc, <-Nat2Z.inj_add, ring_put by (done || lia). by rewrite app_assoc, Hd.
  - set_solver.
Qed.
Lemma rep_commit i Q E v : in_rep i Q E -> Z.of_nat (length Q) + Z.of_nat (length E) < INPUT_BUF ->
  let e := u32 (in_e i + 1) in
  in_rep (set_in_w e (set_in_e e (set_in_buf (<[Z.to_nat (in_e i mod INPUT_BUF) := v]> (in_buf i)) i))) (Q ++ E ++ [v]) [].
Proof.
  intros [Hl Hr Hw He Hf Hd Hn] Hlt e. subst e. split; cbn; try done.
  - by rewrite length_insert.
  - rewrite He, u32_add_l, !length_app. cbn. f_equal. lia.
  - rewrite He, u32_add_l, !length_app. cbn. f_equal. lia.
  - rewrite !length_app. cbn. lia.
  - rewrite app_nil_r, !length_app, Nat.add_0_r, Nat.add_assoc, (Nat.add_comm _ 1). cbn [length Nat.add].
    rewrite He, <-Z.add_assoc, <-Nat2Z.inj_add, ring_put by (done || lia). by rewrite app_assoc, Hd.
  - set_solver.
Qed.
(** Reading the first committed character. *)
Lemma rep_take i c Q E : in_rep i (c :: Q) E ->
  in_buf i !!! Z.to_nat (in_r i mod INPUT_BUF) = c /\ in_rep (set_in_r (u32 (in_r i + 1)) i) Q E.
Proof.
  intros [Hl Hr Hw He Hf Hd Hn]. cbn [length Nat.add] in *. rewrite ring_cons in Hd. cbn in Hd. injection Hd as -> Hd.
  split; [done|]. split; cbn; try done; [apply u32_range| | |lia].
  - rewrite Hw, u32_add_l. f_equal. lia.
  - rewrite He. replace (u32 (in_r i + 1) + Z.of_nat (length Q) + Z.of_nat (length E))
      with (u32 (in_r i + 1) + (Z.of_nat (length Q) + Z.of_nat (length E))) by lia.
    rewrite u32_add_l. f_equal. lia.
Qed.
(** Putting it back. *)
Lemma rep_untake i c Q E : in_rep i (c :: Q) E ->
  set_in_r (u32 (in_r (set_in_r (u32 (in_r i + 1)) i) - 1)) (set_in_r (u32 (in_r i + 1)) i) = i.
Proof.
  intros [_ Hr _ _ _ _ _]. destruct i as [b r w e]. unfold set_in_r. cbn in *. f_equal.
  rewrite u32_sub_l. replace (r + 1 - 1) with r by lia. by apply u32_small.
Qed.

(** * The line discipline *)

(** What a terminal does with a character: control characters edit the current line; a newline,
    or a full buffer, commits it. *)
Definition tty_char (c : Z) (s : list Z * list Z) : list Z * list Z :=
  let '(Q, E) := s in
  if bool_decide (c ∈ [Ctl "P"; Ctl "R"; Ctl "F"; Ctl "S"; Ctl "Z"; Ctl "D"]) then (Q, E)
  else if c =? Ctl "U" then (Q, [])
  else if (c =? Ctl "H") || (c =? 0x7f) then (Q, removelast E)
  else if negb (c =? 0) && (Z.of_nat (length Q + length E) <? INPUT_BUF) then
    let c := if c =? 13 then 10 else c in
    if (c =? 10) || (Z.of_nat (length Q + length E) + 1 =? INPUT_BUF) then (Q ++ E ++ [c], [])
    else (Q, E ++ [c])
  else (Q, E).
Definition tty_chars (cs : list Z) (s : list Z * list Z) : list Z * list Z := foldl (fun s c => tty_char c s) s cs.

(** What a reader that wants [n] of [target] bytes takes from the committed characters. *)
Fixpoint tty_read (killed : bool) (target n : Z) (Q : list Z) : list Z * pres Z Z * list Z :=
  if n <=? 0 then ([], PDone (target - n), Q) else
  match Q with
  | [] => ([], if killed then PDone (-1) else PSleep n, [])
  | c :: Q' =>
      if c =? Ctl "D" then ([], PDone (target - n), if n <? target then Q else Q')
      else if c =? 10 then ([c], PDone (target - (n - 1)), Q')
      else let '(bs, r, Q'') := tty_read killed target (n - 1) Q' in (c :: bs, r, Q'')
  end.

(** * Steps of the console *)

Section facts.
Context (me : nat).

(** Nobody holds the lock; [Q] is committed and [E] being edited. *)
Record cready (s : cons) (Q E : list Z) : Prop := {
  cr_cpu : cpu_ok (co_cpu s);
  cr_lock : lk_locked (co_lock s) = 0;
  cr_panic : co_panicked s = false;
  cr_screen : on_screen s;
  cr_in : in_rep (co_in s) Q E
}.
(** Processor [me], in state [k] before, holds the lock. *)
Record cinside (k : cpu) (s : cons) (Q E : list Z) : Prop := {
  cn_ok : cpu_ok k;
  cn_cpu : co_cpu s = entered k;
  cn_lock : exists l, co_lock s = MkSpinlock 1 l (Some me);
  cn_panic : co_panicked s = false;
  cn_screen : on_screen s;
  cn_in : in_rep (co_in s) Q E
}.

Lemma wp_cacquire s Q E (P : unit -> cons -> Prop) : cready s Q E ->
  (forall s', cinside (co_cpu s) s' Q E -> P tt s') -> wp (on_clock (acquire me)) P s.
Proof.
  intros [] HP. apply wp_zoom. eapply wp_run; [by apply acquire_free|]. apply HP. split; cbn; eauto.
Qed.
Lemma wp_crelease k s Q E (P : unit -> cons -> Prop) : cinside k s Q E ->
  (forall s', cready s' Q E -> P tt s') -> wp (on_clock (release me)) P s.
Proof.
  intros [Hk Hc [l Hl] ???] HP. apply wp_zoom. rewrite Hc, Hl. eapply wp_run.
  - rewrite release_prefix; [|by apply entered_ok|destruct Hk; cbn; lia].
    unfold is_held. cbn. by rewrite bool_decide_eq_true_2.
  - apply HP. split; cbn; try done. destruct Hk as [Hn Hi]. split; cbn; [lia|].
    intros ?. destruct (Z.eqb_spec (c_ncli k + 1) 1); [lia|done].
Qed.
Lemma cinside_input k s Q E i Q' E' : cinside k s Q E -> in_rep i Q' E' -> cinside k (set_co_in i s) Q' E'.
Proof. intros [] ?. by split. Qed.
Lemma wp_consputc k s Q E c (P : unit -> cons -> Prop) : cinside k s Q E ->
  (forall s', cinside k s' Q E -> co_in s' = co_in s -> P tt s') -> wp (consputc c) P s.
Proof.
  intros [] HP. eapply wp_mono; [by apply consputc_spec|]. cbn beta.
  intros [] s' ((Hin & Hcpu & Hlk & _ & Hpan & _) & Hs & _). apply HP; [|done].
  split; try done; try congruence. rewrite Hlk. done.
Qed.

Lemma kill_line_spec k s Q E fuel : cinside k s Q E -> (length E < fuel)%nat ->
  wp (kill_line fuel) (fun _ s' => cinside k s' Q []) s.
Proof.
  revert s E. induction fuel as [|fuel IH]; intros s E Hs Hf; [lia|]. cbn [kill_line]. wp_steps.
  pose proof (cn_in _ _ _ _ Hs) as Hin. rewrite (rep_edit_empty _ _ _ Hin).
  destruct E as [|c E _] using rev_ind; [by apply wp_ret|].
  rewrite bool_decide_false by (by destruct E). destruct (rep_back _ _ _ _ Hin) as [Hb Hc].
  rewrite Hc. assert (Hc10 : c <> 10) by (pose proof (ir_line _ _ _ Hin); set_solver).
  rewrite (proj2 (Z.eqb_neq c 10) Hc10). cbn [negb andb]. unfold on_in. wp_steps.
  eapply wp_consputc; [by eapply cinside_input|]. intros s' Hs' _. apply (IH _ E); [done|].
  rewrite length_app in Hf. cbn in Hf. lia.
Qed.

Lemma removelast_snoc (E : list Z) c : removelast (E ++ [c]) = E.
Proof. apply removelast_last. Qed.

(** The end of the default case, after the echo: the character is in the ring. *)
Definition typed_in (c : Z) (i : input) : input :=
  set_in_e (u32 (in_e i + 1)) (set_in_buf (<[Z.to_nat (in_e i mod INPUT_BUF) := c]> (in_buf i)) i).
Definition tty_put (c : Z) (Q E : list Z) : list Z * list Z :=
  if (c =? 10) || (Z.of_nat (length Q + length E) + 1 =? INPUT_BUF) then (Q ++ E ++ [c], []) else (Q, E ++ [c]).
Lemma ring_full i Q E c : in_rep i Q E -> Z.of_nat (length Q + length E) < INPUT_BUF ->
  (in_e (typed_in c i) =? u32 (in_r (typed_in c i) + INPUT_BUF)) = (Z.of_nat (length Q + length E) + 1 =? INPUT_BUF).
Proof.
  intros [Hl Hr Hw He Hf _ _] Hlt. cbn. rewrite He, u32_add_l. unfold INPUT_BUF in *.
  destruct (Z.eqb_spec (Z.of_nat (length Q + length E) + 1) 128) as [Heq|Hne].
  - apply Z.eqb_eq. f_equal. lia.
  - apply Z.eqb_neq. intros Heq. apply u32_eq in Heq; lia.
Qed.
Lemma typed_spec k s Q E c s0 : cinside k s Q E -> Z.of_nat (length Q + length E) < INPUT_BUF ->
  only_output (set_co_in (typed_in c (co_in s)) s) s0 -> on_screen s0 ->
  wp (i ← gets co_in;
      (if (c =? 10) || (in_e i =? u32 (in_r i + INPUT_BUF)) then
         on_in (fun i => set_in_w (in_e i) i);; clog CvWakeup else mret tt))
    (fun _ s' => cinside k s' (tty_put c Q E).1 (tty_put c Q E).2) s0.
Proof.
  intros [Hk Hkc Hkl Hkp Hks Hin] Hlt (Hi0 & Hcpu & Hlk & _ & Hpan & _) Hs0.
  cbn [co_in co_cpu co_lock co_panicked set_co_in] in Hi0, Hcpu, Hlk, Hpan. unfold on_in, clog, tty_put. wp_steps.
  rewrite Hi0, (ring_full _ Q E) by done.
  destruct ((c =? 10) || (Z.of_nat (length Q + length E) + 1 =? INPUT_BUF)) eqn:Hcm; wp_steps; cbn [fst snd];
    (split; cbn; [done|congruence|by rewrite Hlk|congruence|done|rewrite Hi0]).
  - apply rep_commit; [done|lia].
  - apply orb_false_iff in Hcm as [Hn%Z.eqb_neq _]. apply rep_put; [done|lia|done].
Qed.

Lemma consoleintr_char_spec k s Q E c d : cinside k s Q E -> 0 <= c < 256 ->
  wp (consoleintr_char c d) (fun _ s' => cinside k s' (tty_char c (Q, E)).1 (tty_char c (Q, E)).2) s.
Proof.
  intros Hs Hc. unfold consoleintr_char, tty_char. pose proof (cn_in _ _ _ _ Hs) as Hin.
  destruct (bool_decide_reflect (c ∈ [Ctl "P"; Ctl "R"; Ctl "F"; Ctl "S"; Ctl "Z"; Ctl "D"])) as [Hctl|Hctl].
  { repeat (apply elem_of_cons in Hctl as [->|Hctl]; [by apply wp_ret|]). by apply elem_of_nil in Hctl. }
  rewrite !not_elem_of_cons in Hctl. destruct Hctl as (HP & HR & HF & HS & HZ & HD & _).
  rewrite (proj2 (Z.eqb_neq _ _) HP), (proj2 (Z.eqb_neq _ _) HR), (proj2 (Z.eqb_neq _ _) HF),
    (proj2 (Z.eqb_neq _ _) HS), (proj2 (Z.eqb_neq _ _) HZ), (proj2 (Z.eqb_neq _ _) HD).
  destruct (c =? Ctl "U").
  { apply wp_bind. eapply wp_mono; [apply (kill_line_spec k s Q E); [done|]|].
    - pose proof (ir_fit _ _ _ Hin). unfold INPUT_BUF in *. lia.
    - cbn beta. intros _ s' Hs'. by apply wp_ret. }
  destruct ((c =? Ctl "H") || (c =? 0x7f)).
  { wp_steps. rewrite (rep_edit_empty _ _ _ Hin). cbn [fst snd].
    destruct E as [|x E _] using rev_ind; [by apply wp_ret|].
    rewrite bool_decide_false by (by destruct E). rewrite removelast_snoc. cbn [negb]. unfold on_in. wp_steps.
    destruct (rep_back _ _ _ _ Hin) as [Hb _].
    eapply wp_consputc; [by eapply cinside_input|]. intros s' Hs' _. by apply wp_ret. }
  wp_steps. rewrite (rep_count _ _ _ Hin). destruct (c =? 0); cbn [negb andb]; [by apply wp_ret|].
  destruct (Z.ltb_spec (Z.of_nat (length Q + length E)) INPUT_BUF) as [Hlt|]; [|by apply wp_ret].
  set (c' := if c =? 13 then 10 else c). fold (tty_put c' Q E).
  assert (Hc' : 0 <= c' < 256 /\ (c' =? Ctl "D") = false).
  { subst c'. split; [destruct (c =? 13); lia|]. destruct (c =? 13); [done|by apply Z.eqb_neq]. }
  clearbody c'. destruct Hc' as [Hc' ->]. rewrite (u8_small c') by done. unfold on_in at 1.
  rewrite orb_false_r. apply wp_bind, wp_modify, wp_bind. eapply wp_mono; [apply consputc_spec; by destruct Hs|].
  cbn beta. intros _ s0 (Ho & Hs0 & _). eapply wp_mono; [by apply (typed_spec k s Q E c' s0)|].
  cbn beta. intros _ s' Hs'. by apply wp_ret.
Qed.

Lemma consoleintr_chars_spec cs k s Q E d : cinside k s Q E -> Forall (fun c => 0 <= c < 256) cs ->
  wp (consoleintr_chars cs d) (fun _ s' => cinside k s' (tty_chars cs (Q, E)).1 (tty_chars cs (Q, E)).2) s.
Proof.
  intros Hs Hcs. revert s Q E d Hs. induction Hcs as [|c cs Hc Hcs IH]; intros s Q E d Hs; cbn [consoleintr_chars]; [by apply wp_ret|].
  change (tty_chars (c :: cs) (Q, E)) with (tty_chars cs (tty_char c (Q, E))).
  apply wp_bind. eapply wp_mono; [by apply (consoleintr_char_spec k s Q E c d)|]. cbn beta. intros d' s' Hs'.
  destruct (tty_char c (Q, E)) as [Q' E']. by apply IH.
Qed.

(** A message of the kernel leaves the input alone. *)
Lemma say_spec fmt args out s Q E : cready s Q E -> cprintf (fun _ => []) (esc fmt) args = Some out ->
  wp (cons_say me fmt args) (fun _ s' => cready s' Q E) s.
Proof.
  intros Hs Hout. unfold cons_say, cons_cprintf. wp_steps. destruct (co_locking s).
  - eapply wp_cacquire; [exact Hs|]. intros s1 H1. apply wp_bind. eapply wp_deref; [exact Hout|]. apply wp_bind.
    eapply wp_mono; [apply puts_spec; by destruct H1|]. cbn beta.
    intros _ s2 ((Hin & Hcpu & Hlk & _ & Hpan & _) & Hs2 & _). eapply (wp_crelease (co_cpu s)); [|done].
    destruct H1. split; try done; try congruence. by rewrite Hlk.
  - wp_steps. eapply wp_mono; [apply puts_spec; by destruct Hs|]. cbn beta.
    intros _ s2 ((Hin & Hcpu & Hlk & _ & Hpan & _) & Hs2 & _). apply wp_ret. destruct Hs. split; congruence || done.
Qed.

(** Typing: one interrupt with its characters. *)
Lemma consoleintr_spec cs s Q E : cready s Q E -> Forall (fun c => 0 <= c < 256) cs ->
  wp (consoleintr me cs) (fun _ s' => cready s' (tty_chars cs (Q, E)).1 (tty_chars cs (Q, E)).2) s.
Proof.
  intros Hs Hcs. unfold consoleintr. apply wp_bind. eapply wp_cacquire; [exact Hs|]. intros s1 H1.
  apply wp_bind. eapply wp_mono; [by apply (consoleintr_chars_spec cs (co_cpu s) s1 Q E)|]. cbn beta. intros d s2 H2.
  apply wp_bind. eapply wp_crelease; [exact H2|]. intros s3 H3.
  assert (Hw : forall b e s, cready s (tty_chars cs (Q, E)).1 (tty_chars cs (Q, E)).2 ->
    wp (when b (clog e)) (fun _ s' => cready s' (tty_chars cs (Q, E)).1 (tty_chars cs (Q, E)).2) s).
  { intros b e s' []. unfold when, clog. destruct b; wp_steps; by split. }
  apply wp_bind. eapply (wp_mono _ (fun _ s' => cready s' (tty_chars cs (Q, E)).1 (tty_chars cs (Q, E)).2)).
  { unfold when. destruct (wt_halt d); [|by apply wp_ret]. apply wp_bind. eapply wp_mono; [by eapply say_spec|].
    cbn beta. intros _ s4 []. unfold clog. wp_steps. by split. }
  clear dependent s3. cbn beta. intros _ s3 H3.
  repeat (apply wp_bind; eapply wp_mono; [by apply Hw|]; clear dependent s3; cbn beta; intros _ s3 H3). by apply Hw.
Qed.

(** Reading. *)
Lemma consoleread_loop_spec killed fuel target n k s Q E : cinside k s Q E -> (length Q < fuel)%nat ->
  wp (consoleread_loop me killed fuel target n) (fun r s' =>
    r = (tty_read killed target n Q).1 /\ cready s' (tty_read killed target n Q).2 E) s.
Proof.
  assert (Hdone : forall k s Q E (bs : list Z) (r : pres Z Z), cinside k s Q E ->
    wp (on_clock (release me);; clog CvIlock;; mret (bs, r)) (fun r' s' => r' = (bs, r) /\ cready s' Q E) s).
  { intros k0 s0 Q0 E0 bs r H0. apply wp_bind. eapply wp_crelease; [exact H0|]. intros s1 [].
    unfold clog. wp_steps. split; [done|]. by split. }
  revert n s Q. induction fuel as [|fuel IH]; intros n s Q Hs Hf; [lia|]. cbn [consoleread_loop].
  destruct Q as [|c Q]; cbn [tty_read]; destruct (n <=? 0); try by apply Hdone with (1 := Hs).
  - wp_steps. rewrite (rep_empty _ _ _ (cn_in _ _ _ _ Hs)). cbn. destruct killed; [by apply (Hdone k s [] E)|].
    unfold clog. wp_steps. eapply (wp_crelease k _ [] E); [by destruct Hs; split|]. intros s1 H1. by apply wp_ret.
  - wp_steps. pose proof (cn_in _ _ _ _ Hs) as Hin. rewrite (rep_empty _ _ _ Hin). cbn [bool_decide].
    rewrite bool_decide_false by done. destruct (rep_take _ _ _ _ Hin) as [Hc Ht]. rewrite Hc.
    unfold on_in. wp_steps. set (s1 := set_co_in _ s).
    assert (H1 : cinside k s1 Q E) by (by eapply cinside_input).
    destruct (c =? Ctl "D").
    { destruct (n <? target); apply wp_bind; [apply wp_modify|by apply wp_ret, (Hdone k s1 Q E)].
      apply (Hdone k _ (c :: Q) E). subst s1. cbn [co_in set_co_in]. rewrite (rep_untake _ _ _ _ Hin).
      by destruct Hs. }
    destruct (c =? 10); [by apply (Hdone k s1 Q E)|].
    apply wp_bind. eapply wp_mono; [apply (IH (n - 1) s1 Q H1)|].
    { cbn in Hf. lia. }
    cbn beta. intros [bs r] s2 [Hr H2]. wp_steps. destruct (tty_read killed target (n - 1) Q) as [[bs' r'] Q'].
    cbn in *. split; [congruence|done].
Qed.

Lemma in_rep_room i Q E : in_rep i Q E -> (length Q <= Z.to_nat INPUT_BUF)%nat.
Proof. intros []. unfold INPUT_BUF in *. lia. Qed.
Lemma consoleread_more_spec killed target n s Q E : cready s Q E ->
  wp (consoleread_more me killed target n) (fun r s' =>
    r = (tty_read killed target n Q).1 /\ cready s' (tty_read killed target n Q).2 E) s.
Proof.
  intros Hs. unfold consoleread_more. apply wp_bind. eapply wp_cacquire; [exact Hs|]. intros s1 H1.
  eapply consoleread_loop_spec; [exact H1|]. pose proof (in_rep_room _ _ _ (cr_in _ _ _ Hs)). lia.
Qed.
Lemma consolewrite_spec bytes s Q E : cready s Q E ->
  wp (consolewrite me bytes) (fun r s' => r = Z.of_nat (length bytes) /\ cready s' Q E) s.
Proof.
  intros Hs. unfold consolewrite, clog. wp_steps. eapply (wp_cacquire _ Q E); [by destruct Hs; split|].
  intros s1 H1. apply wp_bind.
  revert H1. generalize (co_cpu (set_co_log (co_log s ++ [CvIunlock]) s)). intros k H1.
  assert (Hall : forall bs s, cinside k s Q E -> wp (for_each (fun b => consputc (Z.land b 0xff)) bs) (fun _ s' => cinside k s' Q E) s).
  { induction bs as [|b bs IH]; intros s2 H2; cbn [for_each]; [by apply wp_ret|].
    apply wp_bind. eapply wp_consputc; [exact H2|]. intros s3 H3 _. by apply IH. }
  eapply wp_mono; [by apply Hall|]. cbn beta. intros _ s2 H2. apply wp_bind. eapply wp_crelease; [exact H2|].
  intros s3 []. wp_steps. split; [done|]. by split.
Qed.

(** * Histories *)

(** What happens at the console: an interrupt with its characters, a read that begins, one that
    comes back from its [sleep] with [n] of [target] bytes left, a write. *)
Inductive cop :=
  | CoType (cs : list Z)
  | CoRead (killed : bool) (n : Z)
  | CoWake (killed : bool) (target n : Z)
  | CoWrite (bytes : list Z).
Definition typed_bytes (o : cop) : Prop :=
  match o with CoType cs => Forall (fun c => 0 <= c < 256) cs | _ => True end.

(** What a read gives: its bytes, and its result or what it still waits for. *)
Definition cons_op (o : cop) : M cons (option (list Z * pres Z Z)) :=
  match o with
  | CoType cs => consoleintr me cs;; mret None
  | CoRead killed n => r ← consoleread me killed n; mret (Some r)
  | CoWake killed target n => r ← consoleread_more me killed target n; mret (Some r)
  | CoWrite bytes => _ ← consolewrite me bytes; mret None
  end.
Fixpoint cons_ops (os : list cop) : M cons (list (list Z * pres Z Z)) :=
  match os with
  | [] => mret []
  | o :: os => r ← cons_op o; rs ← cons_ops os; mret (option_list r ++ rs)
  end.

(** The terminal: committed characters, and those of the line being edited. *)
Definition tty_op (o : cop) (s : list Z * list Z) : option (list Z * pres Z Z) * (list Z * list Z) :=
  match o with
  | CoType cs => (None, tty_chars cs s)
  | CoRead killed n => let '(r, Q) := tty_read killed n n s.1 in (Some r, (Q, s.2))
  | CoWake killed target n => let '(r, Q) := tty_read killed target n s.1 in (Some r, (Q, s.2))
  | CoWrite _ => (None, s)
  end.
Fixpoint tty_ops (os : list cop) (s : list Z * list Z) : list (list Z * pres Z Z) * (list Z * list Z) :=
  match os with
  | [] => ([], s)
  | o :: os => let '(r, s1) := tty_op o s in let '(rs, s2) := tty_ops os s1 in (option_list r ++ rs, s2)
  end.

Lemma cons_op_spec o s t : cready s t.1 t.2 -> typed_bytes o ->
  wp (cons_op o) (fun r s' => r = (tty_op o t).1 /\ cready s' (tty_op o t).2.1 (tty_op o t).2.2) s.
Proof.
  destruct t as [Q E]. intros Hs Ho. destruct o as [cs|killed n|killed target n|bytes]; cbn in *.
  - apply wp_bind. eapply wp_mono; [by apply (consoleintr_spec cs s Q E)|]. cbn beta. intros _ s' H. by apply wp_ret.
  - unfold consoleread, clog. apply wp_bind, wp_bind, wp_modify. eapply wp_mono.
    { apply (consoleread_more_spec killed n n _ Q E). by destruct Hs; split. }
    cbn beta. intros r s' [-> H]. apply wp_ret. by destruct (tty_read killed n n Q).
  - apply wp_bind. eapply wp_mono; [by apply (consoleread_more_spec killed target n _ Q E)|].
    cbn beta. intros r s' [-> H]. apply wp_ret. by destruct (tty_read killed target n Q).
  - apply wp_bind. eapply wp_mono; [by apply (consolewrite_spec bytes s Q E)|]. cbn beta. intros r s' [_ H]. by apply wp_ret.
Qed.

(** C18: whatever is typed, read and written, in any order, the console behaves as the terminal:
    every read gets exactly the bytes of the committed lines, as edited, in order, or waits; the
    input ring never overwrites what was not read, the cursor stays on the screen, the lock is
    free again after each call, and no call panics. *)
Theorem console_is_terminal os s t : cready s t.1 t.2 -> Forall typed_bytes os ->
  wp (cons_ops os) (fun rs s' => rs = (tty_ops os t).1 /\ cready s' (tty_ops os t).2.1 (tty_ops os t).2.2) s.
Proof.
  intros Hs Hos. revert s t Hs. induction Hos as [|o os Ho Hos IH]; intros s t Hs; cbn [cons_ops tty_ops]; [by apply wp_ret|].
  apply wp_bind. eapply wp_mono; [by apply (cons_op_spec o s t)|]. cbn beta. intros r s1 [Hr H1].
  destruct (tty_op o t) as [r' t1]. apply wp_bind. eapply wp_mono; [by apply (IH s1 t1)|]. cbn beta.
  intros rs s2 [Hrs H2]. apply wp_ret. destruct (tty_ops os t1) as [rs' t2]. cbn in *. by subst.
Qed.

(** * Panic *)

(** A number as [%d] or [%p] prints it. *)
Definition shown (base : Z) (sign : bool) (v : Z) : list Z := default [] (cons_printint (s32 v) base sign).
Lemma shown_some base sign v : base = 10 \/ base = 16 -> cons_printint (s32 v) base sign = Some (shown base sign v).
Proof.
  intros Hb. unfold shown. destruct (print_int_spec lower_digits (s32 v) base sign Hb eq_refl) as (ds & H & _).
  unfold cons_printint. by rewrite H.
Qed.

(** Without the lock, as in [panic]. *)
Lemma say_unlocked fmt args out s : cprintf (fun _ => []) (esc fmt) args = Some out -> on_screen s -> co_panicked s = false ->
  co_locking s = false -> wp (cons_say me fmt args) (fun _ s' => printed s out s' /\ co_panicked s' = false /\ co_locking s' = false) s.
Proof.
  intros Hout Hs Hp Hl. unfold cons_say, cons_cprintf. wp_steps. rewrite Hl. wp_steps.
  eapply wp_mono; [by apply puts_spec|]. cbn beta. intros _ s' H. apply wp_ret. split; [done|].
  destruct H as ((_ & _ & _ & -> & -> & _) & _). done.
Qed.
Lemma say_pcs pcs s : on_screen s -> co_panicked s = false -> co_locking s = false ->
  wp (for_each (fun pc => cons_say me " %p" [pc]) pcs) (fun _ s' => printed s (pcs ≫= fun pc => 32 :: shown 16 false pc) s') s.
Proof.
  revert s. induction pcs as [|pc pcs IH]; intros s Hs Hp Hl; cbn [for_each].
  { apply wp_ret. split; [done|]. split; [done|]. cbn. by rewrite app_nil_r. }
  apply wp_bind. eapply wp_mono; [apply (say_unlocked " %p" [pc] (32 :: shown 16 false pc)); try done|].
  { change (Datatypes.cons 32 <$> (out ← cons_printint (s32 pc) 16 false; app out <$> Some []) = Some (32 :: shown 16 false pc)).
    rewrite shown_some by auto. cbn. by rewrite app_nil_r. }
  cbn beta. intros _ s1 (H1 & Hp1 & Hl1). eapply wp_mono; [apply IH; [apply H1|done..]|].
  cbn beta. intros _ s2 H2. by apply (printed_app s s1).
Qed.

(** What [panic] prints. *)
Definition panic_text (lapicid : Z) (text pcs : list Z) : list Z :=
  chars "lapicid " ++ shown 10 true lapicid ++ chars ": panic: " ++ text ++ [10] ++ (pcs ≫= fun pc => 32 :: shown 16 false pc).

Lemma panic_report_spec lapicid msg text pcs s : cprintf (fun _ => []) (esc msg) [] = Some text -> on_screen s -> co_panicked s = false ->
  wp (panic_report me lapicid msg pcs) (fun _ s' => co_panicked s' = true /\ c_if (co_cpu s') = false /\ on_screen s' /\
    co_in s' = co_in s /\ co_sent s' = co_sent s ++ (panic_text lapicid text pcs ≫= serial s)) s.
Proof.
  intros Ht Hs Hp. unfold panic_report. wp_steps. set (s0 := set_co_locking false _).
  eapply wp_mono; [apply (say_unlocked "lapicid %d: panic: " [lapicid] (chars "lapicid " ++ shown 10 true lapicid ++ chars ": panic: ")); try done|].
  { change (foldr (fun c o => Datatypes.cons c <$> o) (out ← cons_printint (s32 lapicid) 10 true; app out <$> Some (chars ": panic: ")) (chars "lapicid ") =
      Some (chars "lapicid " ++ shown 10 true lapicid ++ chars ": panic: ")). by rewrite shown_some by auto. }
  cbn beta. intros _ s1 (H1 & Hp1 & Hl1). apply wp_bind.
  eapply wp_mono; [apply (say_unlocked msg [] text); try done; apply H1|]. cbn beta. intros _ s2 (H2 & Hp2 & Hl2). apply wp_bind.
  eapply wp_mono; [apply (say_unlocked "\n" [] [10]); try done; apply H2|]. cbn beta. intros _ s3 (H3 & Hp3 & Hl3). apply wp_bind.
  eapply wp_mono; [apply say_pcs; try done; apply H3|]. cbn beta. intros _ s4 H4. apply wp_modify.
  pose proof (printed_app _ _ _ _ _ H1 (printed_app _ _ _ _ _ H2 (printed_app _ _ _ _ _ H3 H4))) as ((Hi & Hc & _) & Hscr & Hsent).
  split; [done|]. split; [cbn; by rewrite Hc|]. split; [done|]. split; [done|]. cbn [co_sent set_co_panicked]. rewrite Hsent.
  unfold panic_text. by rewrite <-!app_assoc.
Qed.

(** A panic is reported and freezes the machine: the text goes to the screen and the serial line whoever holds the lock of the
    console, interrupts go off, the processor never comes back, and every processor that prints from then on stops. *)
Theorem panic_freezes lapicid mem v msg text s : cprintf (fun _ => []) (esc msg) [] = Some text -> on_screen s -> co_panicked s = false ->
  panic me lapicid mem v msg s = Err ESpin /\
  exists s', panic_report me lapicid msg (getcallerpcs mem v) s = Ok (tt, s') /\ c_if (co_cpu s') = false /\
    co_sent s' = co_sent s ++ (panic_text lapicid text (getcallerpcs mem v) ≫= serial s) /\ forall c, consputc c s' = Err ESpin.
Proof.
  intros Ht Hs Hp. pose proof (panic_report_spec lapicid msg text (getcallerpcs mem v) s Ht Hs Hp) as H.
  unfold panic, wp, mbind, M_bind in *. destruct (panic_report _ _ _ _ s) as [[[] s']|]; [|done].
  destruct H as (Hp' & Hif & _ & _ & Hsent). split; [done|]. exists s'. split_and!; [done..|].
  intros c. unfold consputc, mbind, M_bind, gets. by rewrite Hp'.
Qed.
End facts.

(** A reader comes first and waits; then [ab], a backspace, [c] and a newline are typed. *)
Definition after {S A} (m : M S A) (s : S) : S := match m s with Ok (_, s') => s' | Err _ => s end.
Definition boot_console : cons :=
  after consoleinit (MkCons (MkInput (replicate 128 0) 0 0 0) (MkCpu 0 0 false false None 0 0) (initlock "") false false
    (fun _ => 0) 0 true [] []).
Definition typing : list cop :=
  [CoRead false 10; CoType (chars "ab"); CoWrite (chars "$ "); CoType [8; ch "c"; 13]; CoWake false 10 10].
Lemma boot_console_ready : cready boot_console [] [].
Proof. split; cbn; try done; split; cbn; done || set_solver. Qed.
Lemma console_is_terminal_witness :
  wp (cons_ops 0 typing) (fun rs _ => rs = [([], PSleep 10); (chars "ac" ++ [10], PDone 3)]) boot_console.
Proof.
  eapply wp_mono; [apply (console_is_terminal 0 typing boot_console ([], []))|].
  - exact boot_console_ready.
  - repeat constructor; cbn; done || lia.
  - intros rs s' [-> _]. reflexivity.
Defined.
