(* ===== verification/Kbd.v ===== *)
(** Input devices: the keyboard of kbd.c and kbd.h, and the serial port of uart.c.

    The keyboard controller holds the bytes that the keyboard has sent; its status port says
    whether there is one and its data port takes it out.  The theorem relates the scan codes, however they
    fall into interrupts, to the keys that are pressed and released. *)

From stdpp Require Import base tactics numbers option list sets strings.
From Stdlib Require Import ZArith Lia Ascii.
From S2P Require Import Prelude Spinlock User Console.

(** * Keyboard *)

Definition KBSTATP : Z := 0x64.
Definition KBS_DIB : Z := 0x01.
Definition KBDATAP : Z := 0x60.
Definition NO : Z := 0.
Definition SHIFT : Z := Z.shiftl 1 0.
Definition CTL : Z := Z.shiftl 1 1.
Definition ALT : Z := Z.shiftl 1 2.
Definition CAPSLOCK : Z := Z.shiftl 1 3.
Definition NUMLOCK : Z := Z.shiftl 1 4.
Definition SCROLLLOCK : Z := Z.shiftl 1 5.
Definition E0ESC : Z := Z.shiftl 1 6.
Definition KEY_HOME : Z := 0xE0.
Definition KEY_END : Z := 0xE1.
Definition KEY_UP : Z := 0xE2.
Definition KEY_DN : Z := 0xE3.
Definition KEY_LF : Z := 0xE4.
Definition KEY_RT : Z := 0xE5.
Definition KEY_PGUP : Z := 0xE6.
Definition KEY_PGDN : Z := 0xE7.
Definition KEY_INS : Z := 0xE8.
Definition KEY_DEL : Z := 0xE9.

(** A table of 256 bytes: the first ones in order, the designated ones, zero elsewhere. *)
Definition table256 (first : list Z) (designated : list (Z * Z)) : list Z :=
  foldl (fun t '(i, v) => <[Z.to_nat i := u8 v]> t) (first ++ replicate (256 - length first) 0) designated.

Definition shiftcode : list Z :=
  table256 [] [(0x1D, CTL); (0x2A, SHIFT); (0x36, SHIFT); (0x38, ALT); (0x9D, CTL); (0xB8, ALT)].
Definition togglecode : list Z := table256 [] [(0x3A, CAPSLOCK); (0x45, NUMLOCK); (0x46, SCROLLLOCK)].

(** The keys after an E0, which the three maps share but for Enter and Divide. *)
Definition extended (enter div : Z) : list (Z * Z) :=
  [(0x9C, enter); (0xB5, div); (0xC8, KEY_UP); (0xD0, KEY_DN); (0xC9, KEY_PGUP); (0xD1, KEY_PGDN); (0xCB, KEY_LF); (0xCD, KEY_RT);
   (0x97, KEY_HOME); (0xCF, KEY_END); (0xD2, KEY_INS); (0xD3, KEY_DEL)].
Definition normalmap : list Z :=
  table256
    ([NO; 0x1B] ++ chars "1234567890-=" ++ [8; 9] ++ chars "qwertyuiop[]" ++ [10; NO] ++ chars "asdfghjkl;'`" ++ [NO] ++ chars "\zxcvbnm,./" ++
     [NO; ch "*"; NO; ch " "] ++ replicate 13 NO ++ chars "789-456+1230." ++ [NO; NO; NO; NO])
    (extended 10 (ch "/")).
Definition shiftmap : list Z :=
  table256
    ([NO; 27] ++ chars "!@#$%^&*()_+" ++ [8; 9] ++ chars "QWERTYUIOP{}" ++ [10; NO] ++ chars "ASDFGHJKL:" ++ [34; ch "~"; NO] ++ chars "|ZXCVBNM<>?" ++
     [NO; ch "*"; NO; ch " "] ++ replicate 13 NO ++ chars "789-456+1230." ++ [NO; NO; NO; NO])
    (extended 10 (ch "/")).
Definition ctlmap : list Z :=
  table256
    (replicate 16 NO ++ (Ctl <$> ["Q"; "W"; "E"; "R"; "T"; "Y"; "U"; "I"; "O"; "P"])%char ++ [NO; NO; 13; NO] ++
     (Ctl <$> ["A"; "S"; "D"; "F"; "G"; "H"; "J"; "K"; "L"])%char ++ [NO; NO; NO; NO] ++ (Ctl <$> ["\"; "Z"; "X"; "C"; "V"; "B"; "N"; "M"])%char ++
     [NO; NO; u8 (Ctl "/"); NO; NO])
    (extended 13 (Ctl "/")).
Definition charcode : list (list Z) := [normalmap; shiftmap; ctlmap; ctlmap].

(** The static [shift], and the controller. *)
Record kbd := MkKbd { kb_shift : Z; kb_bytes : list Z }.
Definition set_shift (v : Z) (k : kbd) : kbd := MkKbd v (kb_bytes k).
Definition inb_status : M kbd Z := gets (fun k => if bool_decide (kb_bytes k = []) then 0 else KBS_DIB).
Definition inb_data : M kbd Z :=
  d ← deref (fun k => head (kb_bytes k));
  modify (fun k => MkKbd (kb_shift k) (tail (kb_bytes k)));;
  mret d.
Definition at_code (t : list Z) (data : Z) : M kbd Z := deref (fun _ => t !! Z.to_nat data).

Definition swap_case (c : Z) : Z :=
  if (ch "a" <=? c) && (c <=? ch "z") then c + (ch "A" - ch "a")
  else if (ch "A" <=? c) && (c <=? ch "Z") then c + (ch "a" - ch "A") else c.
(** A key press: [data] is the code with the escape folded in. *)
Definition key_pressed (data : Z) : M kbd Z :=
  s ← at_code shiftcode data;
  modify (fun k => set_shift (Z.lor (kb_shift k) s) k);;
  t ← at_code togglecode data;
  modify (fun k => set_shift (Z.lxor (kb_shift k) t) k);;
  shift ← gets kb_shift;
  map ← deref (fun _ => charcode !! Z.to_nat (Z.land shift (Z.lor CTL SHIFT)));
  c ← at_code map data;
  mret (if Z.land shift CAPSLOCK =? 0 then c else swap_case c).
Definition kbdgetc : M kbd Z :=
  st ← inb_status;
  if Z.land st KBS_DIB =? 0 then mret (-1) else
  data ← inb_data;
  shift ← gets kb_shift;
  if data =? 0xE0 then modify (set_shift (Z.lor shift E0ESC));; mret 0
  else if negb (Z.land data 0x80 =? 0) then
    let data := if Z.land shift E0ESC =? 0 then Z.land data 0x7F else data in
    s ← at_code shiftcode data;
    modify (set_shift (Z.land shift (Z.lnot (Z.lor s E0ESC))));;
    mret 0
  else if negb (Z.land shift E0ESC =? 0) then
    modify (set_shift (Z.land shift (Z.lnot E0ESC)));;
    key_pressed (Z.lor data 0x80)
  else key_pressed data.

(** What [consoleintr] gets from [kbdgetc], up to the first negative result. *)
Fixpoint drain (fuel : nat) : M kbd (list Z) :=
  match fuel with
  | O => fail EFuel
  | S fuel => c ← kbdgetc; if c <? 0 then mret [] else cs ← drain fuel; mret (c :: cs)
  end.
Definition kbdintr (me : nat) : M (kbd * cons) unit :=
  n ← gets (fun s => length (kb_bytes s.1));
  cs ← zoom fst (fun k s => (k, s.2)) (drain (S n));
  zoom snd (fun c s => (s.1, c)) (consoleintr me cs).

(** * Serial port *)

Definition COM1 : Z := 0x3f8.
(** The writes of [uartinit], by port, and whether there is a port; [status] is what it reads. *)
Definition uartinit (status : Z) : list (Z * Z) * bool * list Z :=
  ([(COM1 + 2, 0); (COM1 + 3, 0x80); (COM1 + 0, 115200 / 9600); (COM1 + 1, 0); (COM1 + 3, 0x03); (COM1 + 4, 0); (COM1 + 1, 0x01)],
   negb (status =? 0xFF), if status =? 0xFF then [] else chars "xv6..." ++ [10]).
(** The bytes that wait in the receiver. *)
Definition uartgetc (uart : bool) : M (list Z) Z :=
  if negb uart then mret (-1) else
  r ← gets (fun r => r);
  match r with
  | [] => mret (-1)
  | b :: r => modify (fun _ => r);; mret b
  end.
Fixpoint uart_drain (fuel : nat) (uart : bool) : M (list Z) (list Z) :=
  match fuel with
  | O => fail EFuel
  | S fuel => c ← uartgetc uart; if c <? 0 then mret [] else cs ← uart_drain fuel uart; mret (c :: cs)
  end.
Definition uartintr (me : nat) : M (list Z * cons) unit :=
  n ← gets (fun s => length s.1);
  u ← gets (fun s => co_uart s.2);
  cs ← zoom fst (fun k s => (k, s.2)) (uart_drain (S n) u);
  zoom snd (fun c s => (s.1, c)) (consoleintr me cs).

(** * The keyboard as its user sees it *)

(** The modifiers that are down and the locks that are on. *)
Record mods := MkMods { m_shift : bool; m_ctl : bool; m_alt : bool; m_caps : bool; m_num : bool; m_scroll : bool }.
(** A key by its number on the keyboard: 0 to 127, with 128 added for the keys that send an E0 first. *)
Inductive kevent := Press (k : Z) | Release (k : Z).
Definition kev_key (e : kevent) : Z := match e with Press k | Release k => k end.

Inductive role := RShift | RCtl | RAlt | RCaps | RNum | RScroll | RPlain.
Definition role_of (k : Z) : role :=
  if (k =? 0x2A) || (k =? 0x36) then RShift
  else if (k =? 0x1D) || (k =? 0x9D) then RCtl
  else if (k =? 0x38) || (k =? 0xB8) then RAlt
  else if k =? 0x3A then RCaps else if k =? 0x45 then RNum else if k =? 0x46 then RScroll else RPlain.

Definition press (k : Z) (m : mods) : mods :=
  match role_of k with
  | RShift => MkMods true (m_ctl m) (m_alt m) (m_caps m) (m_num m) (m_scroll m)
  | RCtl => MkMods (m_shift m) true (m_alt m) (m_caps m) (m_num m) (m_scroll m)
  | RAlt => MkMods (m_shift m) (m_ctl m) true (m_caps m) (m_num m) (m_scroll m)
  | RCaps => MkMods (m_shift m) (m_ctl m) (m_alt m) (negb (m_caps m)) (m_num m) (m_scroll m)
  | RNum => MkMods (m_shift m) (m_ctl m) (m_alt m) (m_caps m) (negb (m_num m)) (m_scroll m)
  | RScroll => MkMods (m_shift m) (m_ctl m) (m_alt m) (m_caps m) (m_num m) (negb (m_scroll m))
  | RPlain => m
  end.
Definition unpress (k : Z) (m : mods) : mods :=
  match role_of k with
  | RShift => MkMods false (m_ctl m) (m_alt m) (m_caps m) (m_num m) (m_scroll m)
  | RCtl => MkMods (m_shift m) false (m_alt m) (m_caps m) (m_num m) (m_scroll m)
  | RAlt => MkMods (m_shift m) (m_ctl m) false (m_caps m) (m_num m) (m_scroll m)
  | _ => m
  end.
(** The character of a key under the modifiers; none is 0. *)
Definition key_char (m : mods) (k : Z) : Z :=
  let c := (if m_ctl m then ctlmap else if m_shift m then shiftmap else normalmap) !!! Z.to_nat k in
  if m_caps m then swap_case c else c.
Definition kstep (e : kevent) (m : mods) : Z * mods :=
  match e with
  | Press k => let m := press k m in (key_char m k, m)
  | Release k => (0, unpress k m)
  end.
Fixpoint typed (es : list kevent) (m : mods) : list Z * mods :=
  match es with
  | [] => ([], m)
  | e :: es => let '(c, m) := kstep e m in let '(cs, m) := typed es m in (c :: cs, m)
  end.

(** The bytes that the keyboard sends. *)
Definition scan (e : kevent) : list Z :=
  match e with
  | Press k => if k <? 128 then [k] else [0xE0; k - 128]
  | Release k => if k <? 128 then [k + 128] else [0xE0; k]
  end.
(** No key has a code whose release would look like the escape. *)
Definition real_key (e : kevent) : Prop := 0 <= kev_key e < 256 /\ kev_key e mod 128 <> 0x60.

Definition bit (b : bool) (v : Z) : Z := if b then v else 0.
Definition encode (m : mods) : Z :=
  bit (m_shift m) SHIFT + bit (m_ctl m) CTL + bit (m_alt m) ALT + bit (m_caps m) CAPSLOCK + bit (m_num m) NUMLOCK + bit (m_scroll m) SCROLLLOCK.

(** * One byte at a time *)

Definition kbyte (shift b : Z) : option (Z * Z) :=
  match kbdgetc (MkKbd shift [b]) with Ok (c, k) => Some (c, kb_shift k) | Err _ => None end.
Fixpoint kbytes (shift : Z) (bs : list Z) : option (list Z * Z) :=
  match bs with
  | [] => Some ([], shift)
  | b :: bs =>
      match kbyte shift b with
      | Some (c, shift) => match kbytes shift bs with Some (cs, shift) => Some (c :: cs, shift) | None => None end
      | None => None
      end
  end.

Lemma key_pressed_bytes d sh bs bs' : 
  key_pressed d (MkKbd sh bs) = match key_pressed d (MkKbd sh bs') with Ok (c, k) => Ok (c, MkKbd (kb_shift k) bs) | Err e => Err e end.
Proof.
  unfold key_pressed, at_code, mbind, M_bind, deref, modify, gets. destruct (shiftcode !! _); [|done]. destruct (togglecode !! _); [|done].
  cbn. destruct (_ !! _); [|done]. by destruct (_ !! _).
Qed.
Lemma kbdgetc_byte sh b bs : 
  kbdgetc (MkKbd sh (b :: bs)) = match kbdgetc (MkKbd sh [b]) with Ok (c, k) => Ok (c, MkKbd (kb_shift k) bs) | Err e => Err e end.
Proof.
  unfold kbdgetc, inb_status, inb_data, mbind, M_bind, gets, deref, modify, at_code. cbn -[Z.eqb Z.land Z.lor shiftcode key_pressed]. change (Z.land KBS_DIB KBS_DIB =? 0) with false.
  cbn -[Z.eqb Z.land Z.lor shiftcode key_pressed]. destruct (b =? 0xE0); [done|]. destruct (Z.land b 0x80 =? 0); cbn -[Z.eqb Z.land Z.lor shiftcode key_pressed]; cycle 1.
  { destruct (Z.land sh E0ESC =? 0); unfold deref; match goal with |- context [shiftcode !! ?n] => by destruct (shiftcode !! n) end. }
  destruct (negb (Z.land sh E0ESC =? 0)); apply key_pressed_bytes.
Qed.

Lemma drain_bytes sh bs cs sh' fuel : kbytes sh bs = Some (cs, sh') -> Forall (fun c => 0 <= c) cs -> (length bs < fuel)%nat ->
  drain fuel (MkKbd sh bs) = Ok (cs, MkKbd sh' []).
Proof.
  revert sh cs fuel. induction bs as [|b bs IH]; intros sh cs fuel H Hc Hf; (destruct fuel as [|fuel]; [cbn in Hf; lia|]); cbn in H.
  - by injection H as <- <-.
  - unfold kbyte in H. cbn [drain]. unfold mbind at 1, M_bind at 1. rewrite kbdgetc_byte.
    destruct (kbdgetc (MkKbd sh [b])) as [[c k]|]; [|done]. destruct (kbytes (kb_shift k) bs) as [[cs1 sh1]|] eqn:E; [|done].
    injection H as <- <-. apply Forall_cons in Hc as [Hc Hcs]. destruct (Z.ltb_spec c 0); [lia|].
    unfold mbind, M_bind. rewrite (IH _ _ fuel E Hcs); [done|]. cbn in Hf. lia.
Qed.

Lemma kbytes_app sh bs bs' : kbytes sh (bs ++ bs') =
  match kbytes sh bs with
  | Some (cs, sh1) => match kbytes sh1 bs' with Some (cs', sh2) => Some (cs ++ cs', sh2) | None => None end
  | None => None
  end.
Proof.
  revert sh. induction bs as [|b bs IH]; intros sh; cbn; [by destruct (kbytes sh bs') as [[]|]|].
  destruct (kbyte sh b) as [[c sh1]|]; [|done]. rewrite IH. destruct (kbytes sh1 bs) as [[cs sh2]|]; [|done].
  by destruct (kbytes sh2 bs') as [[]|].
Qed.

(** The characters among the codes. *)
Definition visible (cs : list Z) : list Z := filter (fun c => c <> 0) cs.

(** ** All keys under all modifiers *)

Definition all_bools : list bool := [true; false].
Definition all_mods : list mods :=
  a ← all_bools; b ← all_bools; c ← all_bools; d ← all_bools; e ← all_bools; f ← all_bools; [MkMods a b c d e f].

Lemma all_mods_elem m : In m all_mods.
Proof. destruct m as [[] [] [] [] [] []]; vm_compute; tauto. Qed.

Definition agrees (m : mods) (e : kevent) : bool :=
  let '(c, m') := kstep e m in
  match kbytes (encode m) (scan e) with
  | Some (cs, sh) => bool_decide (visible cs = visible [c]) && (sh =? encode m') && forallb (fun c => (0 <=? c) && (c <? 256)) cs
  | None => false
  end.
Definition all_keys : list Z := filter (fun k => k mod 128 <> 0x60) (seqZ 0 256).
Lemma every_key_agrees : forallb (fun m => forallb (fun k => agrees m (Press k) && agrees m (Release k)) all_keys) all_mods = true.
Proof. vm_compute. reflexivity. Qed.

Lemma key_agrees m e : real_key e -> agrees m e = true.
Proof.
  intros [Hr Hm]. pose proof every_key_agrees as H. rewrite forallb_forall in H. specialize (H m (all_mods_elem m)).
  rewrite forallb_forall in H. specialize (H (kev_key e)). rewrite andb_true_iff in H.
  destruct H as [H1 H2]; [|by destruct e]. apply list_elem_of_In, list_elem_of_filter. split; [done|]. apply elem_of_seqZ. lia.
Qed.
Lemma visible_app cs cs' : visible (cs ++ cs') = visible cs ++ visible cs'.
Proof. apply filter_app. Qed.

(** The codes of a sequence of events. *)
Lemma typed_codes es m : Forall real_key es -> exists cs,
  kbytes (encode m) (concat (scan <$> es)) = Some (cs, encode (typed es m).2) /\
  visible cs = visible (typed es m).1 /\ Forall (fun c => 0 <= c < 256) cs.
Proof.
  revert m. induction es as [|e es IH]; intros m Hr; [by exists []|]. apply Forall_cons in Hr as [He Hr].
  pose proof (key_agrees m e He) as Ha. unfold agrees in Ha. cbn [typed fmap list_fmap concat]. rewrite kbytes_app.
  destruct (kstep e m) as [c m']. destruct (kbytes (encode m) (scan e)) as [[cs sh]|]; [|done].
  apply andb_true_iff in Ha as [[Hv%bool_decide_eq_true ->%Z.eqb_eq]%andb_true_iff Hb].
  destruct (IH m' Hr) as (cs' & -> & Hv' & Hb'). destruct (typed es m') as [cs1 m1]. cbn [fst snd] in *.
  exists (cs ++ cs'). split; [done|]. split.
  - change (c :: cs1) with ([c] ++ cs1). rewrite !visible_app. congruence.
  - apply Forall_app. split; [|done]. rewrite forallb_forall in Hb. apply Forall_forall. intros x Hx%list_elem_of_In.
    specialize (Hb x Hx). lia.
Qed.

(** ** The console behind it *)

(** A code that is no character leaves the console alone. *)
Lemma consoleintr_zero d s : consoleintr_char 0 d s = Ok (d, s).
Proof. reflexivity. Qed.
Lemma consoleintr_visible me cs s : consoleintr me cs s = consoleintr me (visible cs) s.
Proof.
  unfold consoleintr. assert (H : forall cs d s, consoleintr_chars cs d s = consoleintr_chars (visible cs) d s).
  { clear. intros cs. induction cs as [|c cs IH]; intros d s; [done|]. unfold visible. rewrite filter_cons. case_decide as Hc.
    - cbn [consoleintr_chars]. unfold mbind, M_bind. destruct (consoleintr_char c d s) as [[d1 s1]|]; [|done]. apply IH.
    - assert (c = 0) as -> by lia. cbn [consoleintr_chars]. unfold mbind, M_bind. rewrite consoleintr_zero. apply IH. }
  unfold mbind, M_bind. destruct (on_clock (acquire me) s) as [[[] s1]|]; [|done]. by rewrite H.
Qed.

(** An interrupt of the keyboard: bytes arrive and the handler runs. *)
Definition key_interrupt (me : nat) (bs : list Z) : M (kbd * cons) unit :=
  modify (fun s => (MkKbd (kb_shift s.1) (kb_bytes s.1 ++ bs), s.2));; kbdintr me.

Lemma key_interrupt_codes me bs sh cs sh' s : kbytes sh bs = Some (cs, sh') -> Forall (fun c => 0 <= c) cs ->
  key_interrupt me bs (MkKbd sh [], s) =
  match consoleintr me (visible cs) s with Ok (_, s') => Ok (tt, (MkKbd sh' [], s')) | Err e => Err e end.
Proof.
  intros Hb Hc. unfold key_interrupt, kbdintr, mbind, M_bind, modify, gets, zoom. cbn [fst snd kb_shift kb_bytes app].
  rewrite (drain_bytes _ _ _ _ _ Hb Hc) by lia. cbn [fst snd]. rewrite consoleintr_visible. by destruct (consoleintr me (visible cs) s) as [[[] s']|].
Qed.

Lemma interrupts_codes me chunks sh cs sh' s : kbytes sh (concat chunks) = Some (cs, sh') -> Forall (fun c => 0 <= c) cs ->
  exists texts, length texts = length chunks /\ concat texts = visible cs /\
    for_each (key_interrupt me) chunks (MkKbd sh [], s) =
    match for_each (consoleintr me) texts s with Ok (_, s') => Ok (tt, (MkKbd sh' [], s')) | Err e => Err e end.
Proof.
  revert sh cs s. induction chunks as [|bs chunks IH]; intros sh cs s Hb Hc; cbn [concat] in Hb.
  - injection Hb as <- <-. by exists [].
  - rewrite kbytes_app in Hb. destruct (kbytes sh bs) as [[cs1 sh1]|] eqn:E1; [|done].
    destruct (kbytes sh1 (concat chunks)) as [[cs2 sh2]|] eqn:E2; [|done]. injection Hb as <- <-.
    apply Forall_app in Hc as [Hc1 Hc2]. cbn [for_each]. unfold mbind, M_bind. rewrite (key_interrupt_codes _ _ _ _ _ _ E1 Hc1).
    destruct (consoleintr me (visible cs1) s) as [[[] s1]|e] eqn:Es.
    + destruct (IH sh1 cs2 s1 E2 Hc2) as (texts & Hl & Ht & Hrun). exists (visible cs1 :: texts).
      split; [cbn; lia|]. split; [cbn; by rewrite visible_app, Ht|]. cbn [for_each]. unfold mbind, M_bind. by rewrite Es.
    + destruct (IH sh1 cs2 s E2 Hc2) as (texts & Hl & Ht & _). exists (visible cs1 :: texts).
      split; [cbn; lia|]. split; [cbn; by rewrite visible_app, Ht|]. cbn [for_each]. unfold mbind, M_bind. by rewrite Es.
Qed.

(** C19: the keyboard driver types what is typed.  Whatever keys are pressed and released, whatever modifiers are down, and
    however the scan codes fall into interrupts, also between an escape and its code, the driver never reads outside its
    tables, and the console gets exactly the characters of the keys under the modifiers and locks at that moment,
    in order; the driver's state stays that of the modifiers. *)
Theorem kbd_types me es m chunks (s : cons) : Forall real_key es -> concat chunks = concat (scan <$> es) ->
  exists texts, length texts = length chunks /\ concat texts = visible (typed es m).1 /\
    for_each (key_interrupt me) chunks (MkKbd (encode m) [], s) =
    match for_each (consoleintr me) texts s with
    | Ok (_, s') => Ok (tt, (MkKbd (encode (typed es m).2) [], s'))
    | Err e => Err e
    end.
Proof.
  intros Hr Hb. destruct (typed_codes es m Hr) as (cs & Hk & Hv & Hc). rewrite <-Hb in Hk. rewrite <-Hv.
  eapply interrupts_codes; [exact Hk|]. eapply Forall_impl; [exact Hc|]. cbn. lia.
Qed.

(** The letters: small, capital with either Shift or Caps Lock, and the control characters. *)
Definition letter_keys : list (Z * Z) :=
  zip (seqZ 0x10 10 ++ seqZ 0x1E 9 ++ seqZ 0x2C 7) (chars "qwertyuiopasdfghjklzxcvbnm").
Lemma letters m : Forall (fun '(k, c) => key_char m k = if m_ctl m then c - 96 else if xorb (m_shift m) (m_caps m) then c - 32 else c) letter_keys.
Proof. destruct m as [[] [] a [] n s]; repeat constructor. Qed.

(** Shift down, h, Shift up, i, Enter, in three interrupts. *)
Definition hi_keys : list kevent :=
  [Press 0x2A; Press 0x23; Release 0x23; Release 0x2A; Press 0x17; Release 0x17; Press 0x1C; Release 0x1C].
Definition hi_chunks : list (list Z) := [[0x2A; 0x23]; [0xA3; 0xAA; 0x17; 0x97]; [0x1C; 0x9C]].
Definition quiet_cons : cons :=
  MkCons (MkInput (replicate 128 0) 0 0 0) (MkCpu 0 0 false true None 0 0) (initlock "console") true false (fun _ => 0) 0 true [] [].
Lemma kbd_types_witness : exists texts, length texts = 3%nat /\ concat texts = chars "Hi" ++ [10] /\
  for_each (key_interrupt 0) hi_chunks (MkKbd 0 [], quiet_cons) =
  match for_each (consoleintr 0) texts quiet_cons with Ok (_, s') => Ok (tt, (MkKbd 0 [], s')) | Err e => Err e end.
Proof.
  assert (Hr : Forall real_key hi_keys) by (repeat constructor; discriminate).
  destruct (kbd_types 0 hi_keys (MkMods false false false false false false) hi_chunks quiet_cons Hr eq_refl) as (texts & H1 & H2 & H3).
  exists texts. split; [exact H1|]. split; [exact H2|exact H3].
Defined.
