(* ===== verification/ForkMemory.v ===== *)
(** The services that proc.c uses, by the allocator, the page tables and the file layer: the
    instance of the class [Services] that stands for the code. *)

From stdpp Require Import base tactics numbers option list gmap sets strings.
From Stdlib Require Import ZArith Lia.
From S2P Require Import Prelude ProcDefs StateLists PtableRep Spinlock CString Kernel Proc ProcFacts ProcLife KernelFacts SchedFacts System SystemFacts Boot ProcTheorems Fork Memory Kalloc Pipe Block Bytes Log Fs FsLayout FsCache File FileWrite Vm VmFacts VmSpace VmCopy VmFork.

Section services.
(** The processor; the linker's [end], [data] and the program [initcode]; the process that makes
    the calls.  A service takes the processor from the block layer's state and puts it back
    there. *)
Context (me : nat) (kend kdata : Z) (initcode : list Z) (pid : Z).
Context (devread : Z -> option (nat -> Z -> M (fs lstate) (Z * list Z))).
#[local] Instance services_io : BlockIO lstate := LogIO me pid.
#[local] Instance services_tx : TxIO lstate := LogTxIO me pid.

(** A null pointer is [None]. *)
Definition nullable (m : M kmem Z) : M (fstate lstate) (option Z) :=
  p ← on_kmem m; mret (if p =? 0 then None else Some p).

#[local] Instance kernel_services : Services (fstate lstate) := {|
  sv_kalloc := nullable (kalloc me);
  sv_kfree := fun p => on_kmem (kfree me kend p);
  sv_setupkvm := nullable (setupkvm me kend kdata);
  sv_inituvm := fun d => on_kmem (inituvm me d initcode);
  sv_allocuvm := fun d old new => on_kmem (allocuvm me kend d old new);
  sv_deallocuvm := fun d old new => on_kmem (deallocuvm me kend d old new);
  sv_copyuvm := fun d sz => nullable (copyuvm me kend kdata d sz);
  sv_freevm := fun d => on_kmem (freevm me kend d);
  sv_filedup := fun f => filedup me f;; mret tt;
  sv_fileclose := fun f => fileclose me kend pid f;
  sv_namei_root := on_fs (namei me pid 0%nat devread [SLASH; 0]);
  sv_idup := fun ip => on_fs (idup me ip);; mret tt;
  sv_iput := fun ip => on_fs (iput me pid ip);
  sv_begin_op := fbegin_op;
  sv_end_op := fend_op;
  sv_iinit_initlog := on_fs (iinit ROOTDEV);; on_fs (on_io (initlog me pid ROOTDEV))
|}.
End services.

(** [fork] and [wait] with the allocator, the page tables and the file layer in place: the child is
    a copy of the parent down to the bytes of its memory, and reaping it gives the pages back. *)

Section fork.
Context (me : nat) (kend kdata : Z) (kend_high : KERNBASE < kend).
Context (kdata_page : kdata mod PGSIZE = 0) (kdata_range : KERNLINK < kdata < KERNBASE + PHYSTOP).
Context (initcode : list Z) (pid : Z).
Context (devread : Z -> option (nat -> Z -> M (fs lstate) (Z * list Z))).
#[local] Instance fork_io : BlockIO lstate := LogIO me pid.
#[local] Instance fork_svc : Services (fstate lstate) := kernel_services me kend kdata initcode pid devread.
Local Abbreviation X := (fstate lstate).
Local Abbreviation space := (VmSpace.space kend).
Implicit Types x : X.

(** * The parts of the state *)

(** What the allocator sees: its memory, with this processor. *)
Definition kview x : kmem := set_km_lock (the_cpu x, km_lock (fl_kmem x)) (fl_kmem x).
Definition kput (k : kmem) x : X := set_cpu (km_cpu k) (set_kmem k x).

Lemma kview_kput k x : kview (kput k x) = k.
Proof. by destruct k. Qed.
Lemma wp_kmem {A} (m : M kmem A) x (Q : A -> X -> Prop) :
  wp m (fun a k => Q a (kput k x)) (kview x) -> wp (on_kmem m) Q x.
Proof. intros H. by apply wp_zoom. Qed.

(** Nobody is inside the file table or the inode cache. *)
Record quiet x : Prop := {
  qt_cpu : cpu_ok (the_cpu x);
  qt_files : lk_locked (fl_lock x) = 0;
  qt_inodes : lk_locked (fs_lk (fl_fs x)) = 0
}.
(** Files and inodes as in [x]. *)
Definition same_files x x' : Prop := fl_file x' = fl_file x /\ fs_inodes (fl_fs x') = fs_inodes (fl_fs x).

Lemma quiet_kput k x : quiet x -> cpu_ok (km_cpu k) -> quiet (kput k x) /\ same_files x (kput k x).
Proof. intros [] ?. split; by split. Qed.
Lemma space_cpu_ok k pd T U R xs : space k pd T U R xs -> cpu_ok (km_cpu k).
Proof. intros [[[]]]. done. Qed.
(** The processor's nesting is not part of an address space. *)
Lemma space_of_kmem x x' pd T U R xs : fl_kmem x' = fl_kmem x -> cpu_ok (the_cpu x') ->
  space (kview x) pd T U R xs -> space (kview x') pd T U R xs.
Proof. intros Hk Hc [[[] ???] ??]. unfold kview in *. rewrite Hk. by split; [split; [split|..]|..]. Qed.

(** * References *)

Lemma entered_left k : cpu_ok k -> cpu_ok (left_cpu (entered k)).
Proof.
  intros [Hn Hi]. split; cbn; [lia|]. intros ?. destruct (Z.eqb_spec (c_ncli k + 1) 1); [lia|done].
Qed.
Lemma release_entered (k : cpu) (l : spinlock) : cpu_ok k ->
  release me (entered k, MkSpinlock 1 (lk_name l) (Some me)) = Ok (tt, (left_cpu (entered k), freed l)).
Proof.
  intros Hk. rewrite release_prefix; [|by apply entered_ok|destruct Hk; cbn; lia].
  unfold is_held. cbn. by rewrite bool_decide_eq_true_2.
Qed.

Lemma filedup_spec f r x : quiet x -> fl_file x !! f = Some r -> 1 <= f_ref r < 2 ^ 31 - 1 ->
  wp (filedup me f) (fun _ x' => quiet x' /\ fl_kmem x' = fl_kmem x /\ fs_inodes (fl_fs x') = fs_inodes (fl_fs x) /\
    fl_file x' = <[f := set_fref (f_ref r + 1) r]> (fl_file x)) x.
Proof.
  intros [Hc Hf Hi] Hr Hn. unfold filedup, under_ftable, on_flock. wp_steps.
  eapply wp_run; [by apply acquire_free|]. wp_steps. unfold frd, fwr. wp_steps.
  eapply wp_deref; [cbn; by rewrite Hr|]. wp_steps. apply wp_panic_if; [apply Z.ltb_ge; lia|].
  eapply wp_store; [cbn; by rewrite Hr|]. wp_steps. cbn [fl_lock set_file set_flock].
  eapply wp_run; [by apply release_entered|]. wp_steps.
  split; [|split_and!; try done].
  - split; cbn; [by apply entered_left|done|done].
  - cbn. rewrite s32_small by lia. done.
Qed.

Lemma idup_spec ip r x : quiet x -> fs_inodes (fl_fs x) !! ip = Some r -> - 2 ^ 31 <= i_ref r < 2 ^ 31 - 1 ->
  wp (on_fs (idup me ip)) (fun _ x' => quiet x' /\ fl_kmem x' = fl_kmem x /\ fl_file x' = fl_file x /\
    fs_inodes (fl_fs x') = <[ip := set_iref (i_ref r + 1) r]> (fs_inodes (fl_fs x))) x.
Proof.
  intros [Hc Hf Hi] Hr Hn. unfold on_fs. wp_steps. unfold idup, under_icache, iwr. cbn zeta. wp_steps.
  eapply wp_spin; [done|by apply acquire_free|]. wp_steps. eapply wp_store; [cbn; by rewrite Hr|]. wp_steps.
  eapply wp_spin; [done|by apply release_entered|]. wp_steps.
  split; [|split_and!; try done].
  - split; cbn; [by apply entered_left|done|done].
  - cbn. by rewrite s32_small by lia.
Qed.

(** How often [f] is among the open files of a process. *)
Definition uses (f : nat) (fs : list (option nat)) : nat := length (filter (fun o => o = Some f) fs).
(** Every file of the process is in use, and its count has room. *)
Definition files_ok (files : list file) (fs : list (option nat)) : Prop :=
  forall f, Some f ∈ fs -> exists r, files !! f = Some r /\ 1 <= f_ref r /\ f_ref r + Z.of_nat (length fs) < 2 ^ 31.

Lemma uses_cons f o fs : uses f (o :: fs) = ((if decide (o = Some f) then 1 else 0) + uses f fs)%nat.
Proof. unfold uses. rewrite filter_cons. by destruct (decide _). Qed.
Lemma files_ok_cons o fs files files' : files_ok files (o :: fs) ->
  (forall g r, files !! g = Some r -> exists k, files' !! g = Some (set_fref (f_ref r + k) r) /\ 0 <= k <= 1) ->
  files_ok files' fs.
Proof.
  intros Hok Hb f Hf. destruct (Hok f) as (r & Hr & H1 & H2); [by right|]. destruct (Hb _ _ Hr) as (k & Hk & ?).
  eexists. split; [exact Hk|]. cbn [length] in *. cbn. lia.
Qed.

Lemma dup_ext_spec fs x : quiet x -> files_ok (fl_file x) fs ->
  wp (dup_ext fs) (fun _ x' => quiet x' /\ fl_kmem x' = fl_kmem x /\ fs_inodes (fl_fs x') = fs_inodes (fl_fs x) /\
    forall f r, fl_file x !! f = Some r -> fl_file x' !! f = Some (set_fref (f_ref r + Z.of_nat (uses f fs)) r)) x.
Proof.
  revert x. unfold dup_ext. induction fs as [|o fs IH]; intros x Hq Hok; cbn [for_each].
  { apply wp_ret. split_and!; try done. intros f r Hr. rewrite Hr. cbn. rewrite Z.add_0_r. by destruct r. }
  apply wp_bind. destruct o as [f|].
  - destruct (Hok f) as (r & Hr & H1 & H2); [by left|]. cbn [length] in H2. cbn [sv_filedup fork_svc kernel_services].
    apply wp_bind. eapply wp_mono; [apply (filedup_spec f r x); try done; lia|]. cbn beta.
    intros _ x1 (Hq1 & Hk1 & Hi1 & Hf1). apply wp_ret.
    assert (Hb : forall g rg, fl_file x !! g = Some rg ->
      fl_file x1 !! g = Some (set_fref (f_ref rg + if decide (Some f = Some g) then 1 else 0) rg)).
    { intros g rg Hg. rewrite Hf1. destruct (decide (Some f = Some g)) as [[= <-]|Hne].
      - rewrite list_lookup_insert_eq by (by eapply lookup_lt_Some). congruence.
      - rewrite list_lookup_insert_ne by congruence. rewrite Hg, Z.add_0_r. by destruct rg. }
    eapply wp_mono; [apply (IH x1 Hq1)|].
    + eapply files_ok_cons; [exact Hok|]. intros g rg Hg. eexists. split; [by apply Hb|]. destruct (decide _); lia.
    + cbn beta. intros _ x2 (Hq2 & Hk2 & Hi2 & Hf2). split_and!; [done|congruence|congruence|].
      intros g rg Hg. rewrite (Hf2 _ _ (Hb _ _ Hg)), uses_cons. unfold set_fref. cbn. f_equal. f_equal. destruct (decide _); lia.
  - apply wp_ret. eapply wp_mono; [apply (IH x Hq)|].
    + intros f Hf. destruct (Hok f) as (r & ? & ? & ?); [by right|]. exists r. cbn [length] in *. split_and!; done || lia.
    + cbn beta. intros _ x2 (Hq2 & Hk2 & Hi2 & Hf2). by split_and!.
Qed.

(** * What the services do for [fork] *)

(** The user memory of the parent as it was. *)
Definition memory_kept (U : gmap Z (Z * Z)) x x' : Prop :=
  forall va, ubyte (km_mem (kview x')) U va = ubyte (km_mem (kview x)) U va.

(** Out of memory: the parent is as it was, every page is free again but possibly one, and there
    were too few of them for the child. *)
Definition forked_nothing (sz pd : Z) (T : gmap Z Z) (U : gmap Z (Z * Z)) (R xs : list Z) x x' : Prop :=
  memory_kept U x x' /\ same_files x x' /\ quiet x' /\
  exists xs' lost, space (kview x') pd T U (lost ++ R) xs' /\ xs' ++ lost ≡ₚ xs /\ (length lost <= 1)%nat /\
    Z.of_nat (length xs) <= 2 + NPDENTRIES + pgs sz.

(** A child with kernel stack [ks] and page directory [d]: pages of its own, all taken from the
    free pages, with the bytes and flags of the parent's; one more reference for every
    descriptor and for the directory. *)
Definition forked (sz pd : Z) (T : gmap Z Z) (U : gmap Z (Z * Z)) (R xs : list Z) (ofile : list (option nat))
    (cwd : nat) x (ks d : Z) x' : Prop :=
  memory_kept U x x' /\ quiet x' /\
  (exists Td Ud xs',
    space (kview x') d Td Ud (pd :: tabs T ++ frames U ++ ks :: R) xs' /\
    space (kview x') pd T U (d :: tabs Td ++ frames Ud ++ ks :: R) xs' /\
    ks :: d :: tabs Td ++ frames Ud ++ xs' ≡ₚ xs /\
    (forall va, 0 <= va < vpage (pgs sz) ->
       ubyte (km_mem (kview x')) Ud va = ubyte (km_mem (kview x)) U va /\ snd <$> Ud !! (va / PGSIZE) = snd <$> U !! (va / PGSIZE)) /\
    (forall q, pgs sz <= q -> Ud !! q = None) /\
    (forall q, UPAGES <= q < 2 ^ 20 -> pte (km_mem (kview x')) Td q = kernel_pte kdata q)) /\
  (forall f r, fl_file x !! f = Some r -> fl_file x' !! f = Some (set_fref (f_ref r + Z.of_nat (uses f ofile)) r)) /\
  (forall r, fs_inodes (fl_fs x) !! cwd = Some r ->
    fs_inodes (fl_fs x') = <[cwd := set_iref (i_ref r + 1) r]> (fs_inodes (fl_fs x))).

Lemma space_reorder k pd T U R R' xs : space k pd T U R xs -> R ≡ₚ R' -> space k pd T U R' xs.
Proof.
  intros H HR. eapply (space_trade kend []); [exact H|apply (sp_st _ _ _ _ _ _ _ H)|by rewrite HR|apply changed_refl|set_solver].
Qed.
Lemma wp_nullable (m : M kmem Z) x (Q : option Z -> X -> Prop) :
  wp m (fun p k => Q (if p =? 0 then None else Some p) (kput k x)) (kview x) -> wp (nullable me pid m) Q x.
Proof. intros H. unfold nullable. apply wp_bind, wp_kmem. eapply wp_mono; [exact H|]. cbn beta. intros p k HQ. by apply wp_ret. Qed.
Lemma memory_kept_changed k pd T U R xs W m' : space k pd T U R xs -> changed_in W (km_mem k) m' ->
  (forall v, v ∈ W -> v ∈ R) -> forall va, ubyte m' U va = ubyte (km_mem k) U va.
Proof.
  intros H HW HR va. eapply (ubyte_kept kend W); [exact H|exact HW| |].
  - apply Forall_forall. intros v Hv. destruct (vmst_parts _ _ _ _ _ _ (sp_st _ _ _ _ _ _ _ H)) as (_ & _ & _ & _ & _ & _ & Hp & _).
    apply Hp. set_solver.
  - intros v Hv. eapply space_disjoint; [exact H|left; by apply HR].
Qed.

(** The stack is given back when there is no child. *)
Lemma fork_gives_up x k pd T U R xs ys xs' ks lost sz : quiet x -> xs = ks :: ys ->
  (forall va, ubyte (km_mem k) U va = ubyte (km_mem (kview x)) U va) ->
  space k pd T U (lost ++ ks :: R) xs' -> xs' ++ lost ≡ₚ ys -> (length lost <= 1)%nat ->
  Z.of_nat (length ys) <= 1 + NPDENTRIES + pgs sz ->
  wp (on_kmem (kfree me kend ks)) (fun _ => forked_nothing sz pd T U R xs x) (kput k x).
Proof.
  intros Hq -> Hm H Hp Hl Hn. apply wp_kmem. rewrite kview_kput.
  assert (H' : space k pd T U (ks :: lost ++ R) xs') by (eapply space_reorder; [exact H|solve_Permutation]).
  eapply wp_mono; [by apply (drop_page me kend kend_high k pd T U (lost ++ R) xs')|]. cbn beta. intros _ k' (H2 & C & _).
  destruct (quiet_kput k' x Hq (space_cpu_ok _ _ _ _ _ _ H2)) as [Hq2 Hs2].
  change (kput k' (kput k x)) with (kput k' x). split; [|split; [done|split; [done|]]].
  - intros va. rewrite kview_kput, <-Hm. eapply memory_kept_changed; [exact H'|exact C|set_solver].
  - rewrite kview_kput. exists (ks :: xs'), lost. split_and!; [done|by rewrite <-Hp|done|]. cbn [length]. lia.
Qed.

Lemma services_fork x pd T U R xs sz ofile cwd ri :
  quiet x -> space (kview x) pd T U R xs -> 0 <= sz <= KERNBASE -> (forall q, 0 <= q < pgs sz -> is_Some (U !! q)) ->
  files_ok (fl_file x) ofile -> fs_inodes (fl_fs x) !! cwd = Some ri -> - 2 ^ 31 <= i_ref ri < 2 ^ 31 - 1 ->
  fork_services x pd sz ofile cwd (forked_nothing sz pd T U R xs x) (forked sz pd T U R xs ofile cwd x).
Proof.
  intros Hq H Hsz HU Hf Hri Href. unfold fork_services. cbn [sv_kalloc fork_svc kernel_services].
  apply wp_nullable. eapply (take_page me kend kend_high); [exact H| |].
  { intros k Hxs Hk Hm. destruct (quiet_kput k x Hq (space_cpu_ok _ _ _ _ _ _ Hk)) as [Hq1 Hs1]. cbn [Z.eqb].
    split; [|split; [done|split; [done|]]].
    - intros va. by rewrite kview_kput, Hm.
    - rewrite kview_kput. exists [], []. subst xs. split_and!; [done|done|cbn; lia|]. pose proof (pgs_range sz Hsz). cbn. unfold NPDENTRIES. lia. }
  intros k ks ys Hxs Hks Hks0 Hk Hm. rewrite (proj2 (Z.eqb_neq ks 0) Hks0). cbn [sv_copyuvm fork_svc kernel_services].
  apply wp_nullable. rewrite kview_kput.
  eapply wp_mono; [by apply (copyuvm_spec me kend kdata kend_high kdata_page kdata_range k pd T U (ks :: R) ys sz)|].
  cbn beta. intros d k2 [Hm2 Hd]. rewrite Hm in Hm2. change (kput k2 (kput k x)) with (kput k2 x).
  destruct Hd as [(-> & xs' & lost & H2 & Hp & Hl & Hn)|(Td & Ud & xs' & Hd & Hpd & Hp & _ & Hcopy & Hend & Hker)].
  { cbn [Z.eqb sv_kfree fork_svc kernel_services]. by eapply fork_gives_up. }
  destruct (vmst_parts _ _ _ _ _ _ (sp_st _ _ _ _ _ _ _ Hd)) as (Hdp & _).
  rewrite (proj2 (Z.eqb_neq d 0)) by (by eapply page_nonzero).
  destruct (quiet_kput k2 x Hq (space_cpu_ok _ _ _ _ _ _ Hd)) as [Hq2 [Hf2 Hi2]].
  eapply wp_mono; [apply (dup_ext_spec ofile (kput k2 x) Hq2); by rewrite Hf2|]. cbn beta.
  intros _ x3 (Hq3 & Hk3 & Hi3 & Hf3). cbn [sv_idup fork_svc kernel_services]. apply wp_bind.
  eapply wp_mono; [apply (idup_spec cwd ri x3 Hq3); [by rewrite Hi3, Hi2|done]|]. cbn beta.
  intros _ x4 (Hq4 & Hk4 & Hf4 & Hi4). apply wp_ret.
  assert (Hv : forall pd T U R xs, space k2 pd T U R xs -> space (kview x4) pd T U R xs).
  { intros. eapply (space_of_kmem (kput k2 x)); [congruence|apply Hq4|by rewrite kview_kput]. }
  assert (Hmem : km_mem (kview x4) = km_mem k2) by (unfold kview; cbn; by rewrite Hk4, Hk3).
  split; [intros va; by rewrite Hmem|]. split; [done|]. rewrite Hmem. split; [|split].
  - exists Td, Ud, xs'. split; [by apply Hv|]. split; [by apply Hv|]. split; [by rewrite Hxs, <-Hp|]. rewrite Hm in Hcopy. done.
  - intros f r Hr. rewrite Hf4. by apply Hf3.
  - intros r Hr. rewrite Hi4, Hi3, Hi2. congruence.
Qed.

(** * The whole call *)

(** C8: [fork] with the real allocator, page tables and files.  It ends.  It returns -1, with every
    process in use, the parent's memory and all files as they were, when the process table is full
    or there is not memory enough for the child; otherwise the first free slot becomes a runnable
    copy of the caller with the next pid: its registers but for [eax], its size, name, identity,
    descriptors and directory, each with one more reference, and, in pages of its own, every byte
    of its memory. *)
Theorem fork_duplicates_process (forkret_addr : Z) (s : kstate X) c n cur r P L off pd cwd ri T U R xs :
  cpu_at s c n (Some cur) -> lock_free s PTLOCK -> table (pt s) P L off ->
  cur ∈ L (LState RUNNING) -> P !! cur = Some r -> Forall arrays_ok P -> 0 ∈ p_name r ->
  p_pgdir r = Some pd -> p_cwd r = Some cwd -> quiet (ext s) ->
  space (kview (ext s)) pd T U R xs -> 0 <= p_sz r <= KERNBASE -> (forall q, 0 <= q < pgs (p_sz r) -> is_Some (U !! q)) ->
  files_ok (fl_file (ext s)) (p_ofile r) ->
  fs_inodes (fl_fs (ext s)) !! cwd = Some ri -> 1 <= i_ref ri < 2 ^ 31 - 1 ->
  wp (fork forkret_addr c) (fork_post c n cur r P L off
    (forked_nothing (p_sz r) pd T U R xs (ext s)) (forked (p_sz r) pd T U R xs (p_ofile r) cwd (ext s)) s) s.
Proof.
  intros Hc Hl H Hin Hr Harr Hnz Hpd Hcwd Hq Hsp Hsz HU Hf Hri Href.
  eapply fork_spec; try done. eapply services_fork; try done. lia.
Qed.

(** * [wait] *)

(** A zombie with kernel stack [ks] and the address space at [pd]: every page of it is free
    again, and nothing is written in the pages [R] of the others. *)
Definition child_freed (pd ks : Z) (T : gmap Z Z) (U : gmap Z (Z * Z)) (R xs : list Z) x x' : Prop :=
  same_files x x' /\
  (exists xs', free_pages kend (kview x') xs' /\ xs' ≡ₚ ks :: pd :: tabs T ++ frames U ++ xs) /\
  forall p a, p ∈ R -> in_page p a -> km_mem (kview x') a = km_mem (kview x) a.

Lemma services_wait x pd ks T U R xs : space (kview x) pd T U (ks :: R) xs ->
  wp (sv_kfree ks) (fun _ x1 => wp (sv_freevm pd) (fun _ => child_freed pd ks T U R xs x) x1) x.
Proof.
  intros H. destruct (vmst_parts _ _ _ _ _ _ (sp_st _ _ _ _ _ _ _ H)) as (_ & _ & _ & _ & _ & _ & HR & _).
  cbn [sv_kfree sv_freevm fork_svc kernel_services]. apply wp_kmem.
  eapply wp_mono; [by apply (drop_page me kend kend_high _ pd T U R xs)|]. cbn beta. intros _ k1 (H1 & C1 & _).
  apply wp_kmem. rewrite kview_kput.
  eapply wp_mono; [by apply (freevm_spec me kend kend_high k1 pd T U R (ks :: xs))|]. cbn beta. intros _ k2 (xs' & Hf & Hp & C2).
  change (kput k2 (kput k1 x)) with (kput k2 x). assert (Hp' : xs' ≡ₚ ks :: pd :: tabs T ++ frames U ++ xs).
  { rewrite Hp. solve_Permutation. }
  split; [done|]. split; [exists xs'; by rewrite kview_kput|]. intros p a Hin Ha. rewrite kview_kput.
  assert (C : changed_in xs' (km_mem (kview x)) (km_mem k2)).
  { eapply changed_trans; [eapply changed_weaken; [exact C1|]|exact C2]. intros v ->%list_elem_of_singleton. rewrite Hp'. by left. }
  destruct (decide (km_mem k2 a = km_mem (kview x) a)) as [|Hne]; [done|]. destruct (C a Hne) as (v & Hv & Hva).
  assert (Hok : forall q, q ∈ pd :: tabs T ++ (frames U ++ ks :: R) ++ xs -> page_ok kend q).
  { intros q Hq. pose proof (vm_pages _ _ _ _ _ _ (sp_st _ _ _ _ _ _ _ H)) as Hall. rewrite Forall_forall in Hall. by apply Hall. }
  assert (Hx : xs' ++ R ≡ₚ pd :: tabs T ++ (frames U ++ ks :: R) ++ xs) by (rewrite Hp'; solve_Permutation).
  assert (v = p) as -> by (eapply page_disjoint; [apply Hok; rewrite <-Hx; set_solver|apply Hok; rewrite <-Hx; set_solver|exact Hva|exact Ha]).
  pose proof (vm_nodup _ _ _ _ _ _ (sp_st _ _ _ _ _ _ _ H)) as Hnd. rewrite <-Hx in Hnd. apply NoDup_app in Hnd as (_ & Hnd & _).
  by destruct (Hnd p Hv).
Qed.

(** C34: [wait] in a process with a zombie child returns the pid of the first one in list order and
    takes back everything it had: its slot, cleared, is on the free list, its kernel stack, page
    directory, page tables and memory are free pages again, each exactly once, no page of anyone
    else is touched, and the open files are as they were. *)
Theorem wait_frees_child (swtch_out : nat -> K X unit) m (s : kstate X) c cur z r P L off ks pd T U R xs :
  cpu_at s c 0 (Some cur) -> lock_free s PTLOCK -> table (pt s) P L off ->
  scan_result P L cur = Return z -> P !! z = Some r -> p_kstack r = Some ks -> p_pgdir r = Some pd ->
  space (kview (ext s)) pd T U (ks :: R) xs ->
  p_parent r = Some cur /\ p_state r = ZOMBIE /\
  wp (wait swtch_out (S m) c) (fun v s' => v = s32 (p_pid r) /\ child_freed pd ks T U R xs (ext s) (ext s') /\
    cpu_at s' c 0 (Some cur) /\ lock_free s' PTLOCK /\
    table (pt s') (<[z := reaped_slot r]> P) (lmove L z (LState ZOMBIE) (LState UNUSED)) off) s.
Proof. intros Hc Hl H Hscan Hr Hks Hpd Hsp. eapply wait_spec; try done. by apply services_wait. Qed.
End fork.
