(* ===== verification/ForkDemo.v ===== *)
(** A machine on which [fork] makes a child of the first process: two pages of memory, two open
    files. *)

From stdpp Require Import base tactics numbers option list gmap sets strings.
From Stdlib Require Import ZArith Lia.
From S2P Require Import Prelude ProcDefs StateLists PtableRep Spinlock CString Kernel Proc ProcFacts ProcLife KernelFacts SchedFacts System SystemFacts Boot ProcTheorems Fork ProcExamples Memory Kalloc Pipe Block Bytes Log Fs FsLayout FsCache File FileWrite FileDemo Vm VmFacts VmSpace VmCopy VmFork VmUser ForkMemory.

(** The first process with the address space at [d], two descriptors and a directory. *)
Definition equip (d : Z) (r : proc) : proc :=
  set_p_ofile (<[0%nat := Some 1%nat]> (<[1%nat := Some 0%nat]> (replicate NOFILE None)))
    (set_p_cwd (Some 0%nat) (set_p_sz 8192 (set_p_pgdir (Some d) r))).
Definition with_ext {X Y} (x : Y) (t : ptable) (s : kstate X) : kstate Y :=
  MkKstate t (PromoteAtTime s) (locks s) (cpus s) (nextpid s) (initproc s) (ticks s) (kpgdir s) (fsready s) x.

Lemma running_table d : exists t, table t (alter (equip d) 0%nat (pcbs (pt st_running))) (lists_of (pt st_running)) ∅.
Proof.
  assert (H : wp (wr (equip d) 0) (fun _ t => table t (alter (equip d) 0%nat (pcbs (pt st_running))) (lists_of (pt st_running)) ∅) (pt st_running)).
  { eapply table_wr_on; [apply table_of; by vm_compute|by vm_compute; lia|done|done| |done].
    intros r Hr. split; [|done]. by destruct r. }
  destruct (proj1 (wp_ok _ _ _) H) as ([] & t & _ & Ht). by exists t.
Qed.

Lemma equip_name d r : p_name (equip d r) = p_name r.
Proof. reflexivity. Qed.
Lemma equip_pgdir d r : p_pgdir (equip d r) = Some d.
Proof. reflexivity. Qed.
Lemma equip_cwd d r : p_cwd (equip d r) = Some 0%nat.
Proof. reflexivity. Qed.
Lemma equip_sz d r : 0 <= p_sz (equip d r) <= KERNBASE.
Proof. done. Qed.
Lemma ext_with {X Y} (x : Y) t (s : kstate X) : ext (with_ext x t s) = x.
Proof. reflexivity. Qed.
Lemma demo_ready l k : cpu_ok (km_cpu k) -> quiet 0 1 (kput 0 1 k (FileDemo.demo_state l)).
Proof. intros Hk. by split. Qed.
Lemma demo_open_files d l k r : files_ok (fl_file (kput 0 1 k (FileDemo.demo_state l))) (p_ofile (equip d r)).
Proof.
  intros f Hf. change (p_ofile (equip d r)) with (Some 1%nat :: Some 0%nat :: replicate 14 (@None nat)) in *.
  apply elem_of_cons in Hf as [[= ->]|[[= ->]|Hf%elem_of_replicate]%elem_of_cons]; [..|by destruct Hf];
    eexists; (split; [reflexivity|]); done.
Qed.
Lemma equip_size d r : p_sz (equip d r) = 8192.
Proof. reflexivity. Qed.
Lemma running_unused : lists_of (pt st_running) (LState UNUSED) <> [].
Proof. vm_compute. discriminate. Qed.
Lemma demo_next {X} (x : X) t : s32 (nextpid (with_ext x t st_running)) = 2.
Proof. vm_compute. reflexivity. Qed.
Lemma running_slot : pcbs (pt st_running) !! 0%nat = Some (slot st_running 0).
Proof. vm_compute. reflexivity. Qed.
Lemma running_arrays d : Forall arrays_ok (alter (equip d) 0%nat (pcbs (pt st_running))).
Proof.
  assert (Hn : forallb (fun r => bool_decide (arrays_ok r)) (pcbs (pt st_running)) = true) by (vm_compute; reflexivity).
  apply Forall_alter.
  - apply Forall_lookup. intros i r Hr.
    exact (proj1 (bool_decide_eq_true _) (forallb_elem _ _ _ Hn (list_elem_of_lookup_2 _ _ _ Hr))).
  - intros r _ [Hr _]. split; [exact Hr|reflexivity].
Qed.
Lemma demo_data_range : KERNLINK < demo_data < KERNBASE + PHYSTOP.
Proof. done. Qed.

Lemma fork_duplicates_process_witness : exists (s : kstate (fstate lstate)),
  wp (fork (Services0 := fork_svc 0 demo_end demo_data [] 1 no_read) 0x80103000 0) (fun v s' => v = 2 /\
    (exists U, ubyte (km_mem (kview 0 1 (ext s'))) U 4097 = Some 0) /\
    fl_file (ext s') !! 1%nat = Some (MkFile FD_INODE 2 true false 0 0 1)) s.
Proof.
  destruct demo_process_made as (k & d & T & U & xs & H). destruct demo_fs_boot as (l & _).
  destruct (running_table d) as (t & Ht).
  pose (x := kput 0 1 k (FileDemo.demo_state l)). exists (with_ext x t st_running).
  eapply wp_mono.
  - apply (fork_duplicates_process 0 demo_end demo_data eq_refl eq_refl demo_data_range [] 1 no_read 0x80103000 (with_ext x t st_running) 0 0 0
      (equip d (slot st_running 0)) (alter (equip d) 0%nat (pcbs (pt st_running))) (lists_of (pt st_running)) ∅ d 0 demo_r T U [] xs).
    + concrete.
    + concrete.
    + exact Ht.
    + apply (bool_decide_unpack _). vm_compute. exact I.
    + apply lookup_alter_Some, running_slot.
    + apply running_arrays.
    + rewrite equip_name. apply (bool_decide_unpack _). vm_compute. exact I.
    + apply equip_pgdir.
    + apply equip_cwd.
    + rewrite ext_with. apply demo_ready, (space_cpu_ok demo_end _ _ _ _ _ _ (dp_space _ _ _ _ _ H)).
    + rewrite ext_with. unfold x. rewrite kview_kput. exact (dp_space _ _ _ _ _ H).
    + apply equip_sz.
    + exact (demo_present _ _ _ _ _ H).
    + rewrite ext_with. apply demo_open_files.
    + rewrite ext_with. reflexivity.
    + cbn. lia.
  - intros v s' (_ & _ & P' & L' & _ & _ & Hres). rewrite ext_with in Hres.
    rewrite (equip_size d) in Hres. unfold forked_nothing, forked, memory_kept in Hres. unfold x in Hres.
    rewrite kview_kput in Hres. pose proof (dp_room _ _ _ _ _ H). change (pgs 8192) with 2 in Hres. change NPDENTRIES with 1024 in Hres.
    destruct Hres as [(_ & [[Hnone _]|(_ & _ & _ & _ & _ & _ & _ & _ & Hlen)] & _)|(np & rn & ks & d' & _ & -> & _ & _ & Hd & _)];
      [by destruct (running_unused Hnone)|lia|].
    destruct Hd as (_ & _ & (Td & Ud & xs' & _ & _ & _ & Hb & _) & Hf & _). split; [apply demo_next|]. split.
    + exists Ud. destruct (Hb 4097) as [-> _]; [done|]. by apply (dp_zero _ _ _ _ _ H).
    + exact (Hf 1%nat _ eq_refl).
Defined.

(** The child has ended; its stack is the first page that was free. *)
Definition buried (ks d : Z) (r : proc) : proc := set_p_kstack (Some ks) (set_p_pgdir (Some d) r).
Lemma zombie_table ks d : exists t, table t (alter (buried ks d) 1%nat (pcbs (pt st_zombie))) (lists_of (pt st_zombie)) ∅.
Proof.
  assert (H : wp (wr (buried ks d) 1) (fun _ t => table t (alter (buried ks d) 1%nat (pcbs (pt st_zombie))) (lists_of (pt st_zombie)) ∅) (pt st_zombie)).
  { eapply table_wr_on; [apply table_of; by vm_compute|by vm_compute; lia|done|done| |done].
    intros r Hr. split; [|done]. by destruct r. }
  destruct (proj1 (wp_ok _ _ _) H) as ([] & t & _ & Ht). by exists t.
Qed.
Lemma zombie_slot : pcbs (pt st_zombie) !! 1%nat = Some (slot st_zombie 1).
Proof. vm_compute. reflexivity. Qed.
Lemma buried_kstack ks d r : p_kstack (buried ks d r) = Some ks.
Proof. reflexivity. Qed.
Lemma buried_pgdir ks d r : p_pgdir (buried ks d r) = Some d.
Proof. reflexivity. Qed.
Lemma buried_pid ks d r : p_pid (buried ks d r) = p_pid r.
Proof. reflexivity. Qed.
Lemma zombie_found ks d : scan_result (alter (buried ks d) 1%nat (pcbs (pt st_zombie))) (lists_of (pt st_zombie)) 0 = Return 1%nat.
Proof. vm_compute. reflexivity. Qed.
Lemma with_stack k d T U xs : demo_process k d T U xs -> exists k' ks ys, xs = ks :: ys /\ space demo_end k' d T U [ks] ys.
Proof.
  intros H. pose proof (dp_room _ _ _ _ _ H) as Hroom.
  assert (Hw : wp (kalloc 0) (fun ks k' => exists ys, xs = ks :: ys /\ space demo_end k' d T U [ks] ys) k).
  { eapply (take_page 0 demo_end eq_refl); [exact (dp_space _ _ _ _ _ H)| |].
    - intros k' -> _ _. cbn in Hroom. lia.
    - intros k' ks ys -> _ _ Hk _. by exists ys. }
  destruct (proj1 (wp_ok _ _ _) Hw) as (ks & k' & _ & ys & Hx & Hk). by exists k', ks, ys.
Qed.

Lemma wait_frees_child_witness : exists (s : kstate (fstate lstate)) xs,
  wp (wait (Services0 := fork_svc 0 demo_end demo_data [] 1 no_read) (fun _ => fail ESpin) 1 0) (fun v s' =>
    v = s32 (p_pid (slot st_zombie 1)) /\ exists xs', free_pages demo_end (kview 0 1 (ext s')) xs' /\ xs ⊆+ xs' /\ 3000 <= Z.of_nat (length xs)) s.
Proof.
  destruct demo_process_made as (k0 & d & T & U & xs & H). destruct demo_fs_boot as (l & _).
  destruct (with_stack _ _ _ _ _ H) as (k & ks & ys & Hxs & Hk). destruct (zombie_table ks d) as (t & Ht).
  pose (x := kput 0 1 k (FileDemo.demo_state l)). exists (with_ext x t st_zombie), xs.
  eapply wp_mono.
  - apply (wait_frees_child 0 demo_end demo_data eq_refl eq_refl demo_data_range [] 1 no_read (fun _ => fail ESpin) 0 (with_ext x t st_zombie) 0 0 1
      (buried ks d (slot st_zombie 1)) (alter (buried ks d) 1%nat (pcbs (pt st_zombie))) (lists_of (pt st_zombie)) ∅ ks d T U [] ys).
    + concrete.
    + concrete.
    + exact Ht.
    + apply zombie_found.
    + apply lookup_alter_Some, zombie_slot.
    + apply buried_kstack.
    + apply buried_pgdir.
    + rewrite ext_with. unfold x. rewrite kview_kput. exact Hk.
  - intros v s' (-> & (_ & (xs' & Hf & Hp) & _) & _). rewrite buried_pid. split; [reflexivity|].
    exists xs'. split; [exact Hf|].
    split; [|exact (dp_room _ _ _ _ _ H)]. rewrite Hp, Hxs. apply submseteq_skip. apply submseteq_cons.
    rewrite app_assoc. apply submseteq_inserts_l. reflexivity.
Defined.
