(* ===== verification/ProcInfo.v ===== *)
(** Reports on the process table: [getprocs], and the listings that control characters on the
    console ask for, of proc.c.

    A listing is the text that its calls of [cprintf] print, in order.  [ticks] has one value
    during a call. *)

From stdpp Require Import base tactics numbers option list gmap sets strings.
From Stdlib Require Import ZArith Lia Ascii.
From S2P Require Import Prelude ProcDefs StateLists PtableRep Spinlock CString User Kernel Proc ProcFacts Boot ProcExamples Printf.

(** [cprintf(fmt, args)]; a string argument is the pointer 1, to [s]. *)
Definition cput_s (s : list Z) (fmt : string) (args : list Z) : M ptable (list Z) :=
  deref (fun _ => cprintf (fun _ => s) (esc fmt) args).
Definition cput (fmt : string) (args : list Z) : M ptable (list Z) := cput_s [] fmt args.

(** * procdump *)

(** The two times of a line: seconds and milliseconds. *)
Definition dump_time (sec mill : Z) : M ptable (list Z) :=
  if mill <? 10 then cput "%d.00%d\t" [sec; mill]
  else if (10 <=? mill) && (mill <? 100) then cput "%d.0%d\t" [sec; mill]
  else cput "%d.%d\t" [sec; mill].
(** [p->parent ? p->parent->pid : p->pid] *)
Definition parent_pid (p : nat) : M ptable Z :=
  par ← rd p_parent p;
  match par with None => rd p_pid p | Some q => rd p_pid q end.

Definition procdumpP4 (now : Z) (p : nat) (state_string : list Z) : M ptable (list Z) :=
  name ← rd p_name p;
  len ← deref (fun _ => strlen name);
  let spacer := 13 - len in
  start ← rd p_start_ticks p;
  let t_ticks := s32 (u32 (now - start)) in
  c_ticks ← s32 <$> rd p_cpu_ticks_total p;
  pid ← rd p_pid p;
  o1 ← cput_s (cstr name) "%d\t%s" [pid; 1];
  let o2 := replicate (Z.to_nat spacer) 32 in
  ppid ← s32 <$> parent_pid p;
  uid ← rd p_uid p;
  gid ← rd p_gid p;
  prio ← rd p_priority p;
  o3 ← cput "%d\t\t%d\t%d\t%d\t" [uid; gid; ppid; prio];
  o4 ← dump_time (t_ticks ÷ 1000) (Z.rem t_ticks 1000);
  o5 ← dump_time (c_ticks ÷ 1000) (Z.rem c_ticks 1000);
  sz ← rd p_sz p;
  o6 ← cput_s state_string "%s\t%d\t" [1; sz];
  mret (o1 ++ o2 ++ o3 ++ o4 ++ o5 ++ o6).

Section procdump.
(** Kernel memory, for the stacks of sleeping processes. *)
Context (mem : Z -> Z) (now : Z).

(** [for(i=0; i<10 && pc[i] != 0; i++) cprintf(" %p", pc[i])] *)
Fixpoint dump_pcs (pc : list Z) : M ptable (list Z) :=
  match pc with
  | [] => mret []
  | a :: pc => if a =? 0 then mret [] else o ← cput " %p" [a]; os ← dump_pcs pc; mret (o ++ os)
  end.
(** The body of the loop. *)
Definition procdump_slot (p : nat) : M ptable (list Z) :=
  st ← rd p_state p;
  if bool_decide (st = UNUSED) then mret [] else
  o1 ← procdumpP4 now p (chars (states st));
  o2 ← (if bool_decide (st = SLEEPING) then
          cx ← rd p_context p;
          dump_pcs (getcallerpcs mem (u32 (ctx_ebp cx + 8)))
        else mret []);
  mret (o1 ++ o2 ++ [10]).
Fixpoint procdump_from (ps : list nat) : M ptable (list Z) :=
  match ps with
  | [] => mret []
  | p :: ps => o ← procdump_slot p; os ← procdump_from ps; mret (o ++ os)
  end.
Definition procdump : M ptable (list Z) :=
  hd ← cput "\nPID\tName         UID\tGID\tPPID\tPrio\tElapsed\tCPU\tState\tSize\t PCs\n" [];
  body ← procdump_from (seq 0 NPROC);
  tl ← cput "$ " [];
  mret (hd ++ body ++ tl).
End procdump.

(** * The lists *)

(** [while(p){ show(p); if(p->next != NULL) cprintf("->"); p = p->next; }] *)
Definition dump_chain (show : nat -> M ptable (list Z)) (hd : option nat) : M ptable (list Z) :=
  r ← while_list NPROC (fun out p =>
    o ← show p;
    nx ← rd p_next p;
    arrow ← (if bool_decide (nx = None) then mret [] else cput "->" []);
    mret (Continue (A := unit) (out ++ o ++ arrow))) [] hd;
  match r with Return _ => mret [] | Continue out => mret out end.

(** [runnabledump] of project 4, [unuseddump], [sleepdump] and [zombiedump]; the lock is held
    from the first look at the table to the last. *)
Fixpoint dump_ready (idx : list nat) : M ptable (list Z) :=
  match idx with
  | [] => mret []
  | i :: idx =>
      hd ← rd_ptrs q_head (LReady i);
      o1 ← cput "%d: " [Z.of_nat i];
      o2 ← dump_chain (fun p =>
             pid ← rd p_pid p; budget ← rd p_budget p; cput "(%d, %d)" [pid; budget]) hd;
      o3 ← cput "\n" [];
      os ← dump_ready idx;
      mret (o1 ++ o2 ++ o3 ++ os)
  end.
Definition runnabledump : M ptable (list Z) :=
  o1 ← cput "Ready List Processes:\n" [];
  o2 ← dump_ready (reverse (seq 0 (S MAXPRIO)));
  o3 ← cput "\n" [];
  o4 ← cput "$ " [];
  mret (o1 ++ o2 ++ o3 ++ o4).

Definition unuseddump : M ptable (list Z) :=
  hd ← rd_ptrs q_head (LState UNUSED);
  r ← while_list NPROC (fun u p => mret (Continue (A := unit) (s32 (u + 1)))) 0 hd;
  o1 ← cput "Free List Size: %d Processes\n" [match r with Return _ => 0 | Continue u => u end];
  o2 ← cput "$ " [];
  mret (o1 ++ o2).

(** The common shape of the other two. *)
Definition dump_state (title : string) (st : procstate) (show : nat -> M ptable (list Z)) : M ptable (list Z) :=
  o1 ← cput title [];
  hd ← rd_ptrs q_head (LState st);
  o2 ← (if bool_decide (hd = None) then mret [] else cput "\n " []);
  o3 ← dump_chain show hd;
  o4 ← cput "\n" [];
  o5 ← cput "$ " [];
  mret (o1 ++ o2 ++ o3 ++ o4 ++ o5).
Definition sleepdump : M ptable (list Z) :=
  dump_state "Sleep List Processes:" SLEEPING (fun p => pid ← rd p_pid p; cput "%d" [pid]).
Definition zombiedump : M ptable (list Z) :=
  dump_state "Zombie List Processes:" ZOMBIE (fun p =>
    ppid ← s32 <$> parent_pid p; pid ← rd p_pid p; cput "(%d, %d)" [pid; ppid]).

(** * getprocs *)

Definition STRMAX : Z := 32.
(** [struct uproc] *)
Record uproc := MkUproc {
  u_pid : Z; u_uid : Z; u_gid : Z; u_ppid : Z; u_priority : Z; u_elapsed_ticks : Z;
  u_CPU_total_ticks : Z; u_state : list Z; u_size : Z; u_name : list Z
}.

(** A row of the table, over what the memory held. *)
Definition fill_row (now : Z) (p : nat) (old : uproc) : M ptable uproc :=
  pid ← rd p_pid p;
  uid ← rd p_uid p;
  gid ← rd p_gid p;
  ppid ← parent_pid p;
  prio ← rd p_priority p;
  start ← rd p_start_ticks p;
  total ← rd p_cpu_ticks_total p;
  st ← rd p_state p;
  state ← deref (fun _ => safestrcpy (u_state old) (chars (states st) ++ [0]) STRMAX);
  sz ← rd p_sz p;
  nm ← rd p_name p;
  name ← deref (fun _ => safestrcpy (u_name old) nm STRMAX);
  mret (MkUproc pid uid gid ppid (u32 prio) (u32 (now - start)) total state sz name).

Definition reported (st : procstate) : bool := bool_decide (st ∈ [RUNNABLE; SLEEPING; RUNNING; ZOMBIE]).

(** [getprocs] under the lock: [table] are the rows of memory from the caller's pointer on, as far
    as that memory goes.  The result is the count and the rows. *)
Fixpoint getprocs_from (now max : Z) (ps : list nat) (num : nat) (table : list uproc) : M ptable (Z * list uproc) :=
  match ps with
  | [] => mret (Z.of_nat num, table)
  | p :: ps =>
      st ← rd p_state p;
      '(num, table) ← (if reported st then
                         old ← deref (fun _ => table !! num);
                         row ← fill_row now p old;
                         mret (S num, <[num := row]> table)
                       else mret (num, table));
      if Z.of_nat num =? max then mret (Z.of_nat num, table) else
      getprocs_from now max ps num table
  end.
Definition getprocs_body (now max : Z) (table : list uproc) : M ptable (Z * list uproc) :=
  getprocs_from now max (seq 0 NPROC) 0 table.

Section kernel.
Context {X : Type} `{!Services X}.
Definition getprocs (c : nat) (max : Z) (table : list uproc) : K X (Z * list uproc) :=
  now ← gets ticks; with_ptable c (getprocs_body now max table).
End kernel.

(** What [getprocs] and the listings report is what the process table holds. *)

(** * getprocs *)

(** A process table whose parents are slots of it and whose names end. *)
Definition reportable (P : list proc) : Prop :=
  Forall (fun r => 0 ∈ p_name r /\ forall q, p_parent r = Some q -> is_Some (P !! q)) P.
Definition ppid_in (P : list proc) (r : proc) : Z :=
  match p_parent r with None => p_pid r | Some q => from_option p_pid 0 (P !! q) end.

(** The row of a process. *)
Record row_of (now : Z) (P : list proc) (r : proc) (u : uproc) : Prop := {
  ro_pid : u_pid u = p_pid r;
  ro_uid : u_uid u = p_uid r;
  ro_gid : u_gid u = p_gid r;
  ro_ppid : u_ppid u = ppid_in P r;
  ro_priority : u_priority u = u32 (p_priority r);
  ro_elapsed : u_elapsed_ticks u = u32 (now - p_start_ticks r);
  ro_total : u_CPU_total_ticks u = p_cpu_ticks_total r;
  ro_state : cstr (u_state u) = chars (states (p_state r));
  ro_size : u_size u = p_sz r;
  ro_name : cstr (u_name u) = take 31 (cstr (p_name r))
}.
Definition row_room (u : uproc) : Prop := length (u_state u) = 32%nat /\ length (u_name u) = 32%nat.

Section getprocs.
Context (now : Z) (t : ptable) (P : list proc) (L : lists) (off : gset nat).
Context (Ht : table t P L off) (HP : reportable P).

Lemma reportable_at p r : P !! p = Some r -> 0 ∈ p_name r /\ forall q, p_parent r = Some q -> is_Some (P !! q).
Proof. intros Hr. unfold reportable in HP. rewrite Forall_lookup in HP. eauto. Qed.

Lemma parent_pid_spec p r (Q : Z -> ptable -> Prop) : P !! p = Some r -> Q (ppid_in P r) t -> wp (parent_pid p) Q t.
Proof.
  intros Hr HQ. unfold parent_pid, ppid_in in *. apply wp_bind. eapply table_rd; [done..|].
  destruct (p_parent r) as [q|] eqn:Hq; [|by eapply table_rd].
  destruct (proj2 (reportable_at p r Hr) q Hq) as [rq Hrq]. rewrite Hrq in HQ. by eapply table_rd.
Qed.

Lemma fill_row_spec p r old : P !! p = Some r -> row_room old ->
  wp (fill_row now p old) (fun u t' => t' = t /\ row_of now P r u /\ row_room u) t.
Proof.
  intros Hr [Hs Hn]. unfold fill_row. destruct (reportable_at p r Hr) as [Hz _].
  do 3 (apply wp_bind; eapply table_rd; [done..|]). apply wp_bind. eapply parent_pid_spec; [done|].
  do 4 (apply wp_bind; eapply table_rd; [done..|]).
  destruct (safestrcpy_cstr (u_state old) (chars (states (p_state r)) ++ [0]) STRMAX) as (s & Es & Hls & _ & Hcs & _);
    [set_solver|unfold STRMAX; lia|].
  apply wp_bind. eapply wp_deref; [exact Es|]. apply wp_bind. eapply table_rd; [done..|]. apply wp_bind. eapply table_rd; [done..|].
  destruct (safestrcpy_cstr (u_name old) (p_name r) STRMAX Hz) as (nm & En & Hln & _ & Hcn & _); [unfold STRMAX; lia|].
  apply wp_bind. eapply wp_deref; [exact En|]. apply wp_ret. split; [done|]. split; [|split; cbn; congruence].
  split; cbn; try done. rewrite Hcs. destruct (p_state r); reflexivity.
Qed.

Lemma getprocs_from_spec max m k num tbl acc : (k + m = NPROC)%nat -> Z.of_nat num < max -> max <= Z.of_nat (length tbl) ->
  Forall row_room tbl -> Forall2 (row_of now P) acc (take num tbl) ->
  wp (getprocs_from now max (seq k m) num tbl) (fun r t' => t' = t /\
    let rest := filter (fun r => reported (p_state r) = true) (drop k P) in
    let n := Nat.min (Z.to_nat max) (num + length rest) in
    r.1 = Z.of_nat n /\ length r.2 = length tbl /\ drop n r.2 = drop n tbl /\
    Forall2 (row_of now P) (acc ++ take (n - num) rest) (take n r.2)) t.
Proof.
  pose proof (rep_procs_len _ _ _ _ _ (proj1 Ht)) as Hlen.
  assert (HlenP : length P = NPROC) by (rewrite <-(rep_pcbs _ _ _ _ _ (proj1 Ht)), pcbs_length; done).
  revert k num tbl acc. induction m as [|m IH]; intros k num tbl acc Hk Hnum Hmax Hroom Hacc; cbn [seq getprocs_from].
  { apply wp_ret. rewrite drop_ge by lia. cbn. split; [done|]. rewrite Nat.add_0_r, Nat.min_r by lia.
    split_and!; try done. by rewrite Nat.sub_diag, app_nil_r. }
  destruct (lookup_lt_is_Some_2 P k) as [r Hr]; [lia|]. apply wp_bind. eapply table_rd; [done..|].
  rewrite (drop_S _ _ _ Hr). destruct (reported (p_state r)) eqn:Hrep.
  - rewrite filter_cons_True by done. destruct (lookup_lt_is_Some_2 tbl num) as [old Hold]; [lia|].
    apply wp_bind, wp_bind. eapply wp_deref; [exact Hold|]. apply wp_bind. rewrite Forall_lookup in Hroom.
    eapply wp_mono; [by eapply fill_row_spec; [exact Hr|eauto]|]. cbn beta. intros u t' (-> & Hu & Hru). apply wp_ret. cbn beta iota.
    assert (Hlt : (num < length tbl)%nat) by lia.
    assert (Hacc' : Forall2 (row_of now P) (acc ++ [r]) (take (S num) (<[num := u]> tbl))).
    { rewrite (take_S_r _ _ u) by (by apply list_lookup_insert_eq). rewrite take_insert_ge by lia. by apply Forall2_app; [|constructor]. }
    destruct (Z.eqb_spec (Z.of_nat (S num)) max) as [He|Hne].
    + apply wp_ret. cbn [length]. rewrite Nat.min_l by lia. replace (Z.to_nat max) with (S num) by lia. cbn.
      replace (S num - num)%nat with 1%nat by lia. cbn. split_and!; try done; [by rewrite length_insert|].
      by rewrite drop_insert_lt by lia.
    + eapply wp_mono; [apply (IH (S k) (S num) _ (acc ++ [r])); try done; [lia|lia|by rewrite length_insert|]|].
      { by apply Forall_insert; [apply Forall_lookup|]. }
      cbn beta zeta. intros [n tbl'] t' (-> & Hn & Hl & Hd & Hall). cbn [length] in *. cbn in Hn, Hl, Hd, Hall |- *.
      rewrite Nat.add_succ_r. cbn [Nat.add] in Hn, Hd, Hall. split; [done|]. split; [done|]. rewrite length_insert in Hl. split; [done|].
      split; [rewrite Hd; apply drop_insert_lt; lia|].
      match type of Hall with Forall2 _ (_ ++ take (?a - _) _) _ => replace (a - num)%nat with (S (a - S num)) by lia end.
      rewrite <-app_assoc in Hall. exact Hall.
  - rewrite filter_cons_False by (by rewrite Hrep). apply wp_bind, wp_ret. cbn beta iota.
    destruct (Z.eqb_spec (Z.of_nat num) max); [lia|]. apply (IH (S k) num tbl acc); try done. lia.
Qed.

(** [getprocs] with room for at least one row ends, leaves the process table as it was, and
    fills the first rows with the processes in use, in slot order: as many as there are, at most
    [max], and no memory past the [max] rows.  A row has the process's numbers, its parent's pid or
    its own, and its state and name as strings. *)
Theorem getprocs_reports max tbl : 1 <= max <= Z.of_nat (length tbl) -> Forall row_room tbl ->
  wp (getprocs_body now max tbl) (fun r t' => t' = t /\
    let used := filter (fun r => reported (p_state r) = true) P in
    let n := Nat.min (Z.to_nat max) (length used) in
    r.1 = Z.of_nat n /\ length r.2 = length tbl /\ drop n r.2 = drop n tbl /\
    Forall2 (row_of now P) (take n used) (take n r.2)) t.
Proof.
  intros Hmax Hroom. eapply wp_mono; [apply (getprocs_from_spec max NPROC 0 0 tbl []); try done; lia|].
  cbn beta zeta. rewrite drop_0. cbn [app Nat.add]. intros [n tbl'] t' (-> & Hn & Hl & Hd & Hall). rewrite Nat.sub_0_r in Hall. done.
Qed.
End getprocs.

Definition blank_row : uproc := MkUproc 0 0 0 0 0 0 0 (replicate 32 0) 0 (replicate 32 0).
Lemma family_reportable : reportable (pcbs (pt st_family)).
Proof.
  assert (Hn : forallb (fun r => bool_decide (0 ∈ p_name r) &&
    match p_parent r with None => true | Some q => bool_decide (is_Some (pcbs (pt st_family) !! q)) end) (pcbs (pt st_family)) = true)
    by (vm_compute; reflexivity).
  apply Forall_lookup. intros i r Hr. pose proof (forallb_elem _ _ _ Hn (list_elem_of_lookup_2 _ _ _ Hr)) as H.
  apply andb_true_iff in H as [H1%bool_decide_eq_true H2]. split; [exact H1|]. intros q Hq. rewrite Hq in H2. by apply bool_decide_eq_true in H2.
Qed.
(** Of the two processes in use, one row. *)
Lemma getprocs_reports_witness :
  wp (getprocs_body 10 1 [blank_row; blank_row]) (fun r _ => r.1 = 1 /\ r.2 !! 1%nat = Some blank_row) (pt st_family).
Proof.
  eapply wp_mono.
  - apply (getprocs_reports 10 (pt st_family) (pcbs (pt st_family)) (lists_of (pt st_family)) ∅).
    + concrete.
    + exact family_reportable.
    + cbn. lia.
    + repeat constructor.
  - cbn beta zeta. intros [n tbl] t'. replace (length _) with 2%nat by (vm_compute; reflexivity). cbn [Nat.min].
    change (Z.to_nat 1) with 1%nat. cbn [Nat.min fst snd]. intros (_ & -> & _ & Hd & _). split; [reflexivity|].
    change (Some blank_row) with (drop 1 [blank_row; blank_row] !! 0%nat). rewrite <-Hd. by rewrite lookup_drop.
Defined.

(** With [max] 0 the test of the count comes after the first row: when slot 0 is in use, no call
    with [max] 0 stops before it has reported every process, whatever room there is. *)
Lemma getprocs_zero_overruns : getprocs_body 10 0 [] (pt st_family) = Err EFault /\
  exists r, getprocs_body 10 0 [blank_row; blank_row] (pt st_family) = Ok (2, r, pt st_family).
Proof. split; [vm_compute; reflexivity|]. eexists. vm_compute. reflexivity. Qed.

(** * The listings *)

(** Shown with arrows between. *)
Fixpoint arrows (xs : list (list Z)) : list Z :=
  match xs with [] => [] | [x] => x | x :: xs => x ++ chars "->" ++ arrows xs end.
Definition decimal (x : Z) : list Z := default [] (cons_printint (s32 x) 10 true).

#[local] Arguments cons_printint : simpl never.
#[local] Arguments decimal : simpl never.
Lemma decimal_total x : cons_printint (s32 x) 10 true = Some (decimal x).
Proof.
  unfold decimal, cons_printint. destruct (print_int_spec lower_digits (s32 x) 10 true) as (ds & -> & _); [by left|done|done].
Qed.

Section chains.
Context (t : ptable) (P : list proc) (L : lists) (off : gset nat) (Ht : table t P L off).

Lemma dump_chain_spec (show : nat -> M ptable (list Z)) (text : nat -> list Z) l : valid_lid l ->
  (forall p r, P !! p = Some r -> wp (show p) (fun o t' => o = text p /\ t' = t) t) ->
  wp (dump_chain show (list.head (L l))) (fun o t' => o = arrows (text <$> L l) /\ t' = t) t.
Proof.
  intros Hl Hshow. pose proof (rep_list _ _ _ _ _ (proj1 Ht) l Hl) as (Hp & Hs & Hlt).
  pose proof (rep_len_le _ _ _ _ _ l (proj1 Ht)) as Hlen.
  rewrite <-hd_or_head. unfold dump_chain. apply wp_bind.
  eapply (wp_while_list _ (fun todo out t' => t' = t /\ (exists dn, L l = dn ++ todo) /\ out ++ arrows (text <$> todo) = arrows (text <$> L l)));
    [| |by split; [|split; [by exists []|]]|done].
  - intros q todo out t' (-> & (dn & Hdn) & Hout).
    assert (Hq : q ∈ L l) by (rewrite Hdn, elem_of_app, elem_of_cons; tauto).
    apply (rep_home _ _ _ _ _ (proj1 Ht)) in Hq as Hr. destruct Hr as [_ (r & Hr & _)].
    assert (Hnx : nxt t q = hd_or None todo) by (rewrite Hdn in Hs; apply seg_app in Hs as [_ [Hs _]]; done).
    rewrite Forall_forall in Hlt. apply wp_bind. eapply wp_mono; [by eapply Hshow|]. cbn beta. intros o t' [-> ->].
    apply wp_bind, wp_rd_next; [by apply Hlt|]. rewrite Hnx. apply wp_bind.
    assert (Hend : forall o, out ++ text q ++ o ++ arrows (text <$> todo) = arrows (text <$> L l) ->
      exists todo', (t = t /\ (exists dn, L l = dn ++ todo') /\ (out ++ text q ++ o) ++ arrows (text <$> todo') = arrows (text <$> L l)) /\
        (length todo' <= length todo)%nat /\ (q < length (procs t))%nat /\ nxt t q = hd_or None todo').
    { intros o Ho. exists todo. split_and!; try done; [exists (dn ++ [q]); by rewrite <-app_assoc|by rewrite <-!app_assoc|by apply Hlt]. }
    destruct todo as [|q' todo]; cbn [hd_or].
    + rewrite bool_decide_true by done. apply wp_ret, wp_ret. apply Hend. cbn in *. by rewrite app_nil_r.
    + rewrite bool_decide_false by done. eapply wp_deref; [reflexivity|]. apply wp_ret. apply Hend. exact Hout.
  - intros out t' (-> & _ & Hout). cbn in Hout. rewrite app_nil_r in Hout. by apply wp_ret.
Qed.

(** The line of a ready list. *)
Definition show_ready (p : nat) : list Z :=
  match P !! p with
  | Some r => chars "(" ++ decimal (p_pid r) ++ chars ", " ++ decimal (p_budget r) ++ chars ")"
  | None => []
  end.
Definition ready_line (i : nat) : list Z := decimal (Z.of_nat i) ++ chars ": " ++ arrows (show_ready <$> L (LReady i)) ++ [10].

Lemma dump_ready_spec idx : Forall (fun i => (i <= MAXPRIO)%nat) idx ->
  wp (dump_ready idx) (fun o t' => o = concat (ready_line <$> idx) /\ t' = t) t.
Proof.
  induction 1 as [|i idx Hi Hidx IH]; cbn [dump_ready]; [by apply wp_ret|].
  assert (H : wp (dump_chain (fun p => pid ← rd p_pid p; budget ← rd p_budget p; cput "(%d, %d)" [pid; budget]) (list.head (L (LReady i))))
    (fun o t' => o = arrows (show_ready <$> L (LReady i)) /\ t' = t) t).
  { apply dump_chain_spec; [exact Hi|]. intros p r Hr. apply wp_bind. eapply table_rd; [done..|]. apply wp_bind. eapply table_rd; [done..|].
    eapply wp_deref; [|done]. unfold show_ready. rewrite Hr. cbn. rewrite !decimal_total. reflexivity. }
  pose proof (rep_list _ _ _ _ _ (proj1 Ht) (LReady i) Hi) as (Hp & _).
  apply wp_bind. eapply wp_rd_ptrs; [done|]. cbn [q_head]. apply wp_bind. eapply wp_deref; [cbn; by rewrite decimal_total|].
  apply wp_bind. eapply wp_mono; [exact H|]. cbn beta. intros o t' [-> ->]. apply wp_bind. eapply wp_deref; [reflexivity|].
  apply wp_bind. eapply wp_mono; [exact IH|]. cbn beta. intros os t' [-> ->]. apply wp_ret. split; [|done].
  cbn. unfold ready_line. by rewrite <-!app_assoc.
Qed.

(** Control-R shows the ready lists: from the highest priority down, one line per list, the
    processes in the order in which they will run, each with its budget. *)
Theorem runnabledump_shows : wp runnabledump (fun o t' => t' = t /\
  o = chars "Ready List Processes:" ++ [10] ++ concat (ready_line <$> reverse (seq 0 (S MAXPRIO))) ++ [10] ++ chars "$ ") t.
Proof.
  unfold runnabledump. apply wp_bind. eapply wp_deref; [reflexivity|]. apply wp_bind.
  eapply wp_mono; [apply dump_ready_spec; by vm_compute; repeat constructor|]. cbn beta. intros o t' [-> ->].
  do 2 (apply wp_bind; eapply wp_deref; [reflexivity|]). by apply wp_ret.
Qed.

Lemma free_text u : cprintf (fun _ => []) (esc "Free List Size: %d Processes\n") [u] =
  Some (chars "Free List Size: " ++ decimal u ++ chars " Processes" ++ [10]).
Proof. lazy -[cons_printint decimal s32]. rewrite decimal_total. reflexivity. Qed.
(** Control-F counts the free slots. *)
Theorem unuseddump_counts : wp unuseddump (fun o t' => t' = t /\
  o = chars "Free List Size: " ++ decimal (Z.of_nat (length (L (LState UNUSED)))) ++ chars " Processes" ++ [10] ++ chars "$ ") t.
Proof.
  pose proof (rep_list _ _ _ _ _ (proj1 Ht) (LState UNUSED) I) as (Hp & Hs & Hlt).
  pose proof (rep_len_le _ _ _ _ _ (LState UNUSED) (proj1 Ht)) as Hlen.
  unfold unuseddump. apply wp_bind. eapply wp_rd_ptrs; [done|]. cbn [q_head]. rewrite <-hd_or_head. apply wp_bind.
  eapply (wp_while_list _ (fun todo u t' => t' = t /\ exists dn, L (LState UNUSED) = dn ++ todo /\ u = Z.of_nat (length dn)));
    [| |by split; [|exists []]|done].
  - intros q todo u t' (-> & dn & Hdn & ->). apply wp_ret. exists todo.
    rewrite Forall_forall in Hlt. split_and!; try done.
    + exists (dn ++ [q]). rewrite <-app_assoc, length_app. split; [done|]. rewrite Hdn, length_app in Hlen. unfold NPROC in Hlen.
      cbn in *. rewrite s32_small by lia. lia.
    + apply Hlt. rewrite Hdn. set_solver.
    + rewrite Hdn in Hs. apply seg_app in Hs as [_ [Hs _]]. done.
  - intros u t' (-> & dn & Hdn & ->). rewrite app_nil_r in Hdn. rewrite Hdn. apply wp_bind. eapply wp_deref; [apply free_text|].
    apply wp_bind. eapply wp_deref; [reflexivity|]. apply wp_ret. split; [done|]. by rewrite <-!app_assoc.
Qed.
End chains.
