(* ===== verification/Cmos.v ===== *)
(** The real-time clock: [cmos_read], [fill_rtcdate] and [cmostime] of lapic.c.

    The clock runs by itself: [cmos n reg] is what the [n]-th read of the data port gives when
    register [reg] is selected.  The state is the number of reads so far. *)

From stdpp Require Import base tactics numbers option list.
From Stdlib Require Import ZArith Lia.
From S2P Require Import Prelude.

Definition CMOS_STATA : Z := 0x0a.
Definition CMOS_STATB : Z := 0x0b.
Definition CMOS_UIP : Z := Z.shiftl 1 7.
Definition SECS : Z := 0x00.
Definition MINS : Z := 0x02.
Definition HOURS : Z := 0x04.
Definition DAY : Z := 0x07.
Definition MONTH : Z := 0x08.
Definition YEAR : Z := 0x09.

(** [struct rtcdate] *)
Record rtcdate := MkRtcdate { r_second : Z; r_minute : Z; r_hour : Z; r_day : Z; r_month : Z; r_year : Z }.
#[global] Instance rtcdate_eq_dec : EqDecision rtcdate.
Proof. solve_decision. Defined.

Section clock.
Context (cmos : nat -> Z -> Z).

Definition cmos_read (reg : Z) : M nat Z :=
  n ← gets (fun n => n); modify S;; mret (cmos n reg).

Definition fill_rtcdate : M nat rtcdate :=
  second ← cmos_read SECS;
  minute ← cmos_read MINS;
  hour ← cmos_read HOURS;
  day ← cmos_read DAY;
  month ← cmos_read MONTH;
  year ← cmos_read YEAR;
  mret (MkRtcdate second minute hour day month year).

(** [CONV(x)] *)
Definition conv (x : Z) : Z := u32 (Z.shiftr x 4 * 10) + Z.land x 0xf.
Definition conv_date (r : rtcdate) : rtcdate :=
  MkRtcdate (conv (r_second r)) (conv (r_minute r)) (conv (r_hour r)) (conv (r_day r)) (conv (r_month r)) (conv (r_year r)).

(** The loop: [t1], once it has been read twice. *)
Fixpoint cmostime_loop (fuel : nat) : M nat rtcdate :=
  match fuel with
  | O => fail EFuel
  | S fuel =>
      t1 ← fill_rtcdate;
      a ← cmos_read CMOS_STATA;
      if negb (Z.land a CMOS_UIP =? 0) then cmostime_loop fuel else
      t2 ← fill_rtcdate;
      if decide (t1 = t2) then mret t1 else cmostime_loop fuel
  end.
Definition cmostime (fuel : nat) : M nat rtcdate :=
  sb ← cmos_read CMOS_STATB;
  let bcd := Z.land sb (Z.shiftl 1 2) =? 0 in
  t1 ← cmostime_loop fuel;
  let t1 := if bcd then conv_date t1 else t1 in
  mret (MkRtcdate (r_second t1) (r_minute t1) (r_hour t1) (r_day t1) (r_month t1) (u32 (r_year t1 + 2000))).

(** * What it returns *)

(** The date that six reads from the [n]-th on give. *)
Definition date_at (n : nat) : rtcdate :=
  MkRtcdate (cmos n SECS) (cmos (n + 1) MINS) (cmos (n + 2) HOURS) (cmos (n + 3) DAY) (cmos (n + 4) MONTH) (cmos (n + 5) YEAR).
(** Two readings around a check that no update is in progress. *)
Definition settled (n : nat) : Prop :=
  Z.land (cmos (n + 6) CMOS_STATA) CMOS_UIP = 0 /\ date_at (n + 7) = date_at n.

Lemma fill_rtcdate_run n : fill_rtcdate n = Ok (date_at n, n + 6)%nat.
Proof.
  unfold fill_rtcdate, cmos_read, date_at. run_monad.
  repeat f_equal; lia.
Qed.
#[local] Instance settled_dec n : Decision (settled n).
Proof. unfold settled. apply _. Defined.

(** From the [n]-th read on the clock does not change and no update is in progress. *)
Definition still (n : nat) : Prop :=
  forall k reg, (n <= k)%nat -> cmos k reg = cmos n reg /\ Z.land (cmos k CMOS_STATA) CMOS_UIP = 0.

Lemma still_settled n k : still n -> (n <= k)%nat -> settled k.
Proof.
  intros H Hk. split; [by apply (H (k + 6)%nat 0); lia|]. unfold date_at.
  assert (He : forall i j reg, cmos (k + i) reg = cmos (k + j) reg).
  { intros i j reg. rewrite (proj1 (H (k + i)%nat reg ltac:(lia))). by rewrite (proj1 (H (k + j)%nat reg ltac:(lia))). }
  rewrite <-!Nat.add_assoc. pose proof (He 7%nat 0%nat SECS) as H0. rewrite Nat.add_0_r in H0.
  f_equal; done || apply He.
Qed.

Lemma cmostime_loop_spec fuel n m : still m -> (m - n < fuel)%nat ->
  wp (cmostime_loop fuel) (fun t n' => exists k, (n <= k)%nat /\ settled k /\ t = date_at k /\ n' = (k + 13)%nat) n.
Proof.
  intros Hst. revert n. induction fuel as [|fuel IH]; intros n Hf; [lia|]. cbn [cmostime_loop].
  apply wp_bind. eapply wp_run; [apply fill_rtcdate_run|]. unfold cmos_read at 1. wp_steps.
  destruct (Z.eqb_spec (Z.land (cmos (n + 6) CMOS_STATA) CMOS_UIP) 0) as [Hu|Hu]; cbn [negb].
  - apply wp_bind. eapply wp_run; [apply fill_rtcdate_run|]. replace (S (n + 6)) with (n + 7)%nat by lia.
    destruct (decide (date_at n = date_at (n + 7))) as [He|Hne].
    + apply wp_ret. exists n. split; [done|]. split; [by split|]. split; [done|lia].
    + assert (n < m)%nat. { destruct (decide (n < m)%nat); [done|]. destruct (still_settled m n Hst ltac:(lia)) as [_ ?]. congruence. }
      eapply wp_mono; [apply IH; lia|]. cbn beta. intros t n' (k & Hk & ?). exists k. split; [lia|done].
  - assert (n < m)%nat. { destruct (decide (n < m)%nat); [done|]. by destruct (still_settled m n Hst ltac:(lia)). }
    eapply wp_mono; [apply IH; lia|]. cbn beta. intros t n' (k & Hk & ?). exists k. split; [lia|done].
Qed.

(** A number below 100 in binary-coded decimal. *)
Definition bcd_of (v : Z) : Z := v / 10 * 16 + v mod 10.
Lemma conv_bcd v : 0 <= v < 100 -> conv (bcd_of v) = v.
Proof.
  intros Hv. unfold conv, bcd_of. pose proof (Z.mod_pos_bound v 10 ltac:(lia)). pose proof (Z.div_mod v 10 ltac:(lia)).
  assert (0 <= v / 10 < 10) by (split; [apply Z.div_pos; lia|apply Z.div_lt_upper_bound; lia]).
  change 0xf with (Z.ones 4). rewrite Z.land_ones, Z.shiftr_div_pow2 by lia. change (2 ^ 4) with 16.
  rewrite Z.div_add_l, (Z.div_small (v mod 10)), Z.add_0_r by lia.
  rewrite (Z.add_comm (_ * 16)), Z.mod_add, Z.mod_small by lia. rewrite u32_small by lia. lia.
Qed.
Definition bcd_date (r : rtcdate) : rtcdate :=
  MkRtcdate (bcd_of (r_second r)) (bcd_of (r_minute r)) (bcd_of (r_hour r)) (bcd_of (r_day r)) (bcd_of (r_month r)) (bcd_of (r_year r)).
Definition date_ok (r : rtcdate) : Prop :=
  0 <= r_second r < 100 /\ 0 <= r_minute r < 100 /\ 0 <= r_hour r < 100 /\ 0 <= r_day r < 100 /\ 0 <= r_month r < 100 /\ 0 <= r_year r < 100.
Lemma conv_bcd_date r : date_ok r -> conv_date (bcd_date r) = r.
Proof. intros (? & ? & ? & ? & ? & ?). destruct r. unfold conv_date, bcd_date. cbn in *. by rewrite !conv_bcd. Qed.

End clock.

(** A clock that shows 23:59:59 until its third read, then the new year of 2020, in binary-coded decimal. *)
Definition demo_clock (n : nat) (reg : Z) : Z :=
  if reg =? CMOS_STATA then 0 else if reg =? CMOS_STATB then 2 else
  if (n <? 3)%nat then (if reg =? SECS then 0x59 else if reg =? MINS then 0x59 else if reg =? HOURS then 0x23 else
                        if reg =? DAY then 0x31 else if reg =? MONTH then 0x12 else 0x19)
  else if reg =? DAY then 1 else if reg =? MONTH then 1 else if reg =? YEAR then 0x20 else 0.
Lemma demo_clock_still : still demo_clock 3.
Proof.
  intros k reg Hk. unfold demo_clock. destruct (Nat.ltb_spec k 3); [lia|]. split; [done|]. done.
Qed.
