(* ===== verification/Uprog.v ===== *)
(** User programs as trees of system calls.

    A program runs on its own until it makes a system call, and goes on with what the call
    returns; [fork] goes on twice, with 0 in the child.  The calls are those of user.h; buffers
    that a call fills are part of what it returns. *)

From stdpp Require Import base tactics numbers option list strings.
From Stdlib Require Import ZArith Lia Ascii.
From S2P Require Import Prelude User Printf Fs ProcInfo Cmos.

(** The result type of a call is that of the C function, -1 being [None] where the call fills a
    buffer: [read] gives the bytes, [pipe] the two descriptors, [fstat], [date] and [getprocs] the
    structures. *)
Inductive scall : Type -> Type :=
  | Fork : scall Z
  | Exit : scall Empty_set
  | Wait : scall Z
  | Pipe : scall (option (Z * Z))
  | Write (fd : Z) (bytes : list Z) : scall Z
  | Read (fd n : Z) : scall (option (list Z))
  | Close (fd : Z) : scall Z
  | Kill (pid : Z) : scall Z
  | Exec (path : list Z) (argv : list (list Z)) : scall Z
  | Open (path : list Z) (mode : Z) : scall Z
  | Mknod (path : list Z) (major minor : Z) : scall Z
  | Unlink (path : list Z) : scall Z
  | Link (old new : list Z) : scall Z
  | Mkdir (path : list Z) : scall Z
  | Chdir (path : list Z) : scall Z
  | Dup (fd : Z) : scall Z
  | Sleep (n : Z) : scall Z
  | Uptime : scall Z
  | Halt : scall Z
  | Getuid : scall Z
  | Getgid : scall Z
  | Setuid (u : Z) : scall Z
  | Setgid (g : Z) : scall Z
  | Getpid : scall Z
  | Getppid : scall Z
  | Sbrk (n : Z) : scall Z
  | Setpriority (pid prio : Z) : scall Z
  | Getpriority (pid : Z) : scall Z
  | Fstat (fd : Z) : scall (option stat)
  | Date : scall (option rtcdate)
  | Getprocs (max : Z) : scall (option (list uproc)).

Inductive prog (A : Type) : Type :=
  | Ret (a : A)
  | Vis {R : Type} (c : scall R) (k : R -> prog A)
  | Crash (e : err).
Arguments Ret {A}. Arguments Vis {A R}. Arguments Crash {A}.

#[global] Instance prog_ret : MRet prog := @Ret.
Fixpoint prog_then {A B} (f : A -> prog B) (p : prog A) : prog B :=
  match p with
  | Ret a => f a
  | Vis c k => Vis c (fun r => prog_then f (k r))
  | Crash e => Crash e
  end.
#[global] Instance prog_bind : MBind prog := @prog_then.

Definition call {R} (c : scall R) : prog R := Vis c Ret.
(** [exit()] does not return. *)
Definition exit {A} : prog A := Vis Exit (fun r => match r with end).

(** [putc] of every character. *)
Fixpoint putcs (fd : Z) (s : list Z) : prog unit :=
  match s with
  | [] => mret tt
  | c :: s => call (Write fd [c]);; putcs fd s
  end.
(** [printf(fd, fmt, ...)] with string arguments given by the C strings in [str]. *)
Definition uprintf (str : Z -> list Z) (fd : Z) (fmt : string) (ap : list Z) : prog unit :=
  match printf str fmt ap with
  | Some out => putcs fd out
  | None => Crash EFault
  end.
(** With no string argument, and with one. *)
Definition say (fd : Z) (fmt : string) : prog unit := uprintf (fun _ => []) fd fmt [].
Definition say_int (fd : Z) (fmt : string) (x : Z) : prog unit := uprintf (fun _ => []) fd fmt [x].
Definition say_str (fd : Z) (fmt : string) (s : list Z) : prog unit := uprintf (fun _ => s) fd fmt [1].

(** A string that ends in a newline. *)
Definition nl (s : string) : string := s +:+ String "010" "".
(** Any arguments: string [i] is found at the address [i + 1]. *)
Inductive parg := PInt (x : Z) | PStr (s : list Z).
Definition arg_word (i : nat) (a : parg) : Z := match a with PInt x => x | PStr _ => Z.of_nat i + 1 end.
Definition arg_string (args : list parg) (p : Z) : list Z :=
  match args !! Z.to_nat (p - 1) with Some (PStr s) => s | _ => [] end.
Definition sayf (fd : Z) (fmt : string) (args : list parg) : prog unit :=
  uprintf (arg_string args) fd fmt (imap arg_word args).

(** [gets(buf, max)] with [n] characters of room before the terminator: the characters read. *)
Fixpoint gets_from (n : nat) : prog (list Z) :=
  match n with
  | O => mret []
  | S n =>
      r ← call (Read 0 1);
      match r with
      | Some (c :: _) => if (c =? 10) || (c =? 13) then mret [c] else s ← gets_from n; mret (c :: s)
      | _ => mret []
      end
  end.
Definition ugets (max : nat) : prog (list Z) := gets_from (max - 1).

(** * Filters: programs run on an input

    The input is the sequence of what successive reads find, so that a file is one piece and a
    pipe or a terminal several; a read takes at most what is asked for from the first piece, and
    nothing is left at the end of file.  The result is what is written to descriptor [out], the
    value returned ([None] after [exit]) and the rest of the input.  A crash, or a call other
    than reading, writing and exiting, has no result. *)
Fixpoint next_piece (n : nat) (input : list (list Z)) : list Z * list (list Z) :=
  match input with
  | [] => ([], [])
  | [] :: input => next_piece n input
  | piece :: input => (take n piece, drop n piece :: input)
  end.

Definition prepend {X} (o : list Z) (r : option (list Z * X)) : option (list Z * X) :=
  match r with Some (o', x) => Some (o ++ o', x) | None => None end.

Fixpoint run_filter {A} (out : Z) (p : prog A) (input : list (list Z)) {struct p} :
    option (list Z * (option A * list (list Z))) :=
  match p with
  | Ret a => Some ([], (Some a, input))
  | Crash _ => None
  | Vis c k =>
      match c in scall R return (R -> list (list Z) -> option (list Z * (option A * list (list Z)))) ->
        option (list Z * (option A * list (list Z))) with
      | Exit => fun _ => Some ([], (None, input))
      | Read _ n => fun go => let '(bytes, input) := next_piece (Z.to_nat n) input in go (Some bytes) input
      | Write fd bytes => fun go =>
          prepend (if fd =? out then bytes else []) (go (Z.of_nat (length bytes)) input)
      | _ => fun _ => None
      end (fun r input => run_filter out (k r) input)
  end.

Lemma prepend_app {X} o o' (r : option (list Z * X)) : prepend (o ++ o') r = prepend o (prepend o' r).
Proof. destruct r as [[? ?]|]; [|done]. cbn. by rewrite <-app_assoc. Qed.
Lemma prepend_nil {X} (r : option (list Z * X)) : prepend [] r = r.
Proof. by destruct r as [[? ?]|]. Qed.

(** Running one program after another. *)
Lemma run_filter_bind {A B} out (p : prog A) (f : A -> prog B) input o a input' :
  run_filter out p input = Some (o, (Some a, input')) ->
  run_filter out (p ≫= f) input = prepend o (run_filter out (f a) input').
Proof.
  revert input o. induction p as [a0|R c k IH|e]; intros input o; cbn.
  - intros [= <- <- <-]. by rewrite prepend_nil.
  - destruct c; try done.
    + destruct (run_filter out (k _) input) as [[o' x]|] eqn:E; [|done]. cbn. intros [= <- ->].
      rewrite prepend_app. f_equal. by apply IH.
    + destruct (next_piece (Z.to_nat n) input) as [bytes input1]. apply IH.
  - done.
Qed.
