(* ===== verification/Sh.v ===== *)
(** The shell's command parser: sh.c.

    The command line sits in the buffer [buf]; the parser walks it with a pointer [*ps], here
    the state of the monad, and a parsed command holds pointers into the buffer, here positions.
    Parsing does not write the buffer; [nulterminate] then cuts it into C strings in place.

    [panic] prints its message and ends the process; it is the failure [EPanic].  Structures
    come from [malloc], which is taken to succeed. *)

From stdpp Require Import base tactics numbers option list strings.
From Stdlib Require Import ZArith Lia Ascii.
From S2P Require Import Prelude CString User.

Definition MAXARGS : nat := 10.

(** [struct cmd] and the structures it stands for.  The pair [(argv[i], eargv[i])] holds the
    first position of an argument and the position behind it; the list stops where the array
    holds its null pointer. *)
Inductive cmd :=
  | EXEC (args : list (nat * nat))
  | REDIR (c : cmd) (file efile : nat) (mode fd : Z)
  | PIPE (l r : cmd)
  | LIST (l r : cmd)
  | BACK (c : cmd).

Definition whitespace : list Z := [32; 9; 13; 10; 11].
Definition symbols : list Z := chars "<|>&;()".

(** [strchr(s, c) != 0] for a string literal [s]. *)
Definition in_lit (s : list Z) (c : Z) : bool :=
  match strchr (s ++ [0]) c with Some (Some _) => true | _ => false end.

(** [cmd->argv[argc] = q; cmd->eargv[argc] = eq]: the structure [cmd] points to is the one at
    the bottom of the redirections [ret] has collected. *)
Fixpoint add_arg (ret : cmd) (a : nat * nat) : cmd :=
  match ret with
  | EXEC args => EXEC (args ++ [a])
  | REDIR c file efile mode fd => REDIR (add_arg c a) file efile mode fd
  | c => c
  end.

Section parser.
(** The buffer and [es], the end of the string in it. *)
Context (buf : list Z) (es : nat).
Local Abbreviation P := (M nat).

Definition rd (s : nat) : P Z := deref (fun _ => buf !! s).
Definition get : P nat := gets id.
Definition put (s : nat) : P unit := modify (fun _ => s).

(** [while(s < es && p( *s)) s++], with [n = es - s]. *)
Fixpoint skip_from (p : Z -> bool) (n : nat) (s : nat) : P nat :=
  match n with
  | O => mret s
  | S n => c ← rd s; if p c then skip_from p n (S s) else mret s
  end.
Definition skip (p : Z -> bool) (s : nat) : P nat := skip_from p (es - s) s.

Definition blank (c : Z) : bool := in_lit whitespace c.
Definition wordch (c : Z) : bool := negb (in_lit whitespace c) && negb (in_lit symbols c).

(** The [switch] of [gettoken] on the character [c] under [s]. *)
Definition token (c : Z) (s : nat) : P (Z * nat) :=
  if c =? 0 then mret (c, s)
  else if in_lit (chars "|();&<") c then mret (c, S s)
  else if c =? ch ">" then
    c' ← rd (S s);
    if c' =? ch ">" then mret (ch "+", S (S s)) else mret (c, S s)
  else
    s ← skip wordch s;
    mret (ch "a", s).

(** The token's code, and what the callers receive in [*q] and [*eq]. *)
Definition gettoken : P (Z * nat * nat) :=
  s ← get;
  s ← skip blank s;
  let q := s in
  c ← rd s;
  '(ret, s) ← token c s;
  let eq := s in
  s ← skip blank s;
  put s;;
  mret (ret, q, eq).

Definition peek (toks : list Z) : P bool :=
  s ← get;
  s ← skip blank s;
  put s;;
  c ← rd s;
  mret (negb (c =? 0) && in_lit toks c).

Fixpoint parseredirs (fuel : nat) (cmd : cmd) : P Sh.cmd :=
  match fuel with
  | O => fail EFuel
  | S fuel =>
      more ← peek (chars "<>");
      if negb more then mret cmd else
      '(tok, _, _) ← gettoken;
      '(t, q, eq) ← gettoken;
      panic_if (negb (t =? ch "a")) "missing file for redirection";;
      parseredirs fuel
        (if tok =? ch "<" then REDIR cmd q eq O_RDONLY 0
         else if tok =? ch ">" then REDIR cmd q eq (Z.lor O_WRONLY O_CREATE) 1
         else if tok =? ch "+" then REDIR cmd q eq (Z.lor O_WRONLY O_CREATE) 1
         else cmd)
  end.

(** The loop of [parseexec] over the arguments. *)
Fixpoint parseargs (fuel argc : nat) (ret : cmd) : P cmd :=
  match fuel with
  | O => fail EFuel
  | S fuel =>
      stop ← peek (chars "|)&;");
      if (stop : bool) then mret ret else
      '(tok, q, eq) ← gettoken;
      if tok =? 0 then mret ret else
      panic_if (negb (tok =? ch "a")) "syntax";;
      let ret := add_arg ret (q, eq) in
      let argc := S argc in
      panic_if (MAXARGS <=? argc)%nat "too many args";;
      ret ← parseredirs fuel ret;
      parseargs fuel argc ret
  end.

(** The loop of [parseline] over the [&]s. *)
Fixpoint parseback (fuel : nat) (cmd : cmd) : P Sh.cmd :=
  match fuel with
  | O => fail EFuel
  | S fuel =>
      more ← peek (chars "&");
      if negb more then mret cmd else
      gettoken;;
      parseback fuel (BACK cmd)
  end.

Fixpoint parseline (fuel : nat) : P cmd :=
  match fuel with
  | O => fail EFuel
  | S fuel =>
      cmd ← parsepipe fuel;
      cmd ← parseback fuel cmd;
      seq ← peek (chars ";");
      if negb seq then mret cmd else
      gettoken;;
      r ← parseline fuel;
      mret (LIST cmd r)
  end
with parsepipe (fuel : nat) : P cmd :=
  match fuel with
  | O => fail EFuel
  | S fuel =>
      cmd ← parseexec fuel;
      bar ← peek (chars "|");
      if negb bar then mret cmd else
      gettoken;;
      r ← parsepipe fuel;
      mret (PIPE cmd r)
  end
with parseexec (fuel : nat) : P cmd :=
  match fuel with
  | O => fail EFuel
  | S fuel =>
      block ← peek (chars "(");
      if (block : bool) then parseblock fuel else
      ret ← parseredirs fuel (EXEC []);
      parseargs fuel 0 ret
  end
with parseblock (fuel : nat) : P cmd :=
  match fuel with
  | O => fail EFuel
  | S fuel =>
      block ← peek (chars "(");
      panic_if (negb block) "parseblock";;
      gettoken;;
      cmd ← parseline fuel;
      close ← peek (chars ")");
      panic_if (negb close) "syntax - missing )";;
      gettoken;;
      parseredirs fuel cmd
  end.
End parser.

(** [*s = 0] in the buffer. *)
Definition cut (s : nat) : M (list Z) unit :=
  store (fun buf => if decide (s < length buf)%nat then Some (<[s := 0]> buf) else None).

Fixpoint nulterminate (c : cmd) : M (list Z) unit :=
  match c with
  | EXEC args => for_each (fun a => cut a.2) args
  | REDIR c file efile mode fd => nulterminate c;; cut efile
  | PIPE l r => nulterminate l;; nulterminate r
  | LIST l r => nulterminate l;; nulterminate r
  | BACK c => nulterminate c
  end.

(** Every level of recursion that is not a loop round consumes a character after at most four
    calls, and every loop round consumes one. *)
Definition parse_fuel (n : nat) : nat := 4 * n + 5.

(** [parsecmd] on the string at the start of the buffer: the command, and the buffer it cut up.
    The line that names the leftovers before the panic is not part of the result. *)
Definition parsecmd (buf : list Z) : outcome (cmd * list Z) :=
  match strlen buf with
  | None => Err EFault
  | Some n =>
      let es := Z.to_nat n in
      '(c, s) ← (cmd ← parseline buf es (parse_fuel es);
                 peek buf es [];;
                 s ← get;
                 panic_if (negb (s =? es)%nat) "syntax";;
                 mret cmd) O;
      '(_, buf) ← nulterminate c buf;
      mret (c, buf)
  end.
