(* ===== verification/ShLex.v ===== *)
(** The language of command lines: what the parser of sh.c is to accept, and what the accepted
    lines mean.

    A line is a sequence of tokens, read off the characters by [lex]; the grammar is the datatype
    [line] with its printer [print_line]; the meaning is a command tree over strings. *)

From stdpp Require Import base tactics numbers option list strings sets.
From Stdlib Require Import ZArith Lia Ascii.
From S2P Require Import Prelude CString User Bytes Sh.

(** * Tokens *)

Inductive tok :=
  | TWord (w : list Z)
  | TSym (c : Z)
  | TApp.

#[global] Instance tok_eq_dec : EqDecision tok.
Proof. solve_decision. Defined.

Definition flush (w : list Z) : list tok := match w with [] => [] | _ => [TWord w] end.

(** The tokens of a string, [w] being the word read so far. *)
Fixpoint lex (w s : list Z) : list tok :=
  match s with
  | [] => flush w
  | c :: s =>
      if blank c then flush w ++ lex [] s
      else if wordch c then lex (w ++ [c]) s
      else flush w ++
        match s with
        | c' :: s' => if (c =? ch ">") && (c' =? ch ">") then TApp :: lex [] s' else TSym c :: lex [] s
        | [] => [TSym c]
        end
  end.

(** A spelling of a token list: a blank behind every token. *)
Definition spell_tok (t : tok) : list Z :=
  match t with TWord w => w | TSym c => [c] | TApp => chars ">>" end.
Definition spell (ts : list tok) : list Z := mjoin ((fun t => spell_tok t ++ [32]) <$> ts).

(** * Grammar *)

Inductive rkind := RIn | ROut | RApp.
Definition redir : Type := rkind * list Z.

(** [LEnd p n]: the pipeline [p] and [n] times [&].  A simple command is a list of
    redirections, then arguments with the redirections behind each. *)
Inductive line :=
  | LEnd (p : pipeline) (amps : nat)
  | LSeq (p : pipeline) (amps : nat) (l : line)
with pipeline :=
  | POne (e : exec)
  | PMore (e : exec) (p : pipeline)
with exec :=
  | Simple (rs : list redir) (args : list (list Z * list redir))
  | Block (l : line) (rs : list redir).

Definition print_kind (k : rkind) : tok :=
  match k with RIn => TSym (ch "<") | ROut => TSym (ch ">") | RApp => TApp end.
Definition print_redir (r : redir) : list tok := [print_kind r.1; TWord r.2].
Definition print_redirs (rs : list redir) : list tok := mjoin (print_redir <$> rs).
Definition print_arg (a : list Z * list redir) : list tok := TWord a.1 :: print_redirs a.2.
Definition print_args (l : list (list Z * list redir)) : list tok := mjoin (print_arg <$> l).

Fixpoint print_line (l : line) : list tok :=
  match l with
  | LEnd p n => print_pipeline p ++ replicate n (TSym (ch "&"))
  | LSeq p n l => print_pipeline p ++ replicate n (TSym (ch "&")) ++ TSym (ch ";") :: print_line l
  end
with print_pipeline (p : pipeline) : list tok :=
  match p with
  | POne e => print_exec e
  | PMore e p => print_exec e ++ TSym (ch "|") :: print_pipeline p
  end
with print_exec (e : exec) : list tok :=
  match e with
  | Simple rs args => print_redirs rs ++ print_args args
  | Block l rs => TSym (ch "(") :: print_line l ++ TSym (ch ")") :: print_redirs rs
  end.

(** Fewer than [MAXARGS] arguments in every simple command. *)
Fixpoint short_line (l : line) : Prop :=
  match l with
  | LEnd p _ => short_pipeline p
  | LSeq p _ l => short_pipeline p /\ short_line l
  end
with short_pipeline (p : pipeline) : Prop :=
  match p with
  | POne e => short_exec e
  | PMore e p => short_exec e /\ short_pipeline p
  end
with short_exec (e : exec) : Prop :=
  match e with
  | Simple _ args => (length args < MAXARGS)%nat
  | Block l _ => short_line l
  end.

(** * Meaning *)

Inductive tree :=
  | NExec (argv : list (list Z))
  | NRedir (t : tree) (file : list Z) (mode fd : Z)
  | NPipe (l r : tree)
  | NList (l r : tree)
  | NBack (t : tree).

(** A redirection wraps the command before it; [<] opens descriptor 0 for reading, [>] and [>>]
    open descriptor 1 for writing and create the file. *)
Definition wrap (t : tree) (r : redir) : tree :=
  match r.1 with
  | RIn => NRedir t r.2 O_RDONLY 0
  | ROut | RApp => NRedir t r.2 (Z.lor O_WRONLY O_CREATE) 1
  end.
Fixpoint add_word (t : tree) (w : list Z) : tree :=
  match t with
  | NExec argv => NExec (argv ++ [w])
  | NRedir t file mode fd => NRedir (add_word t w) file mode fd
  | t => t
  end.
Definition add_arg_redirs (t : tree) (a : list Z * list redir) : tree :=
  foldl wrap (add_word t a.1) a.2.

Fixpoint backs (n : nat) (t : tree) : tree :=
  match n with O => t | S n => backs n (NBack t) end.

Fixpoint line_tree (l : line) : tree :=
  match l with
  | LEnd p n => backs n (pipeline_tree p)
  | LSeq p n l => NList (backs n (pipeline_tree p)) (line_tree l)
  end
with pipeline_tree (p : pipeline) : tree :=
  match p with
  | POne e => exec_tree e
  | PMore e p => NPipe (exec_tree e) (pipeline_tree p)
  end
with exec_tree (e : exec) : tree :=
  match e with
  | Simple rs args => foldl add_arg_redirs (foldl wrap (NExec []) rs) args
  | Block l rs => foldl wrap (line_tree l) rs
  end.

(** * What a command structure says *)

(** With the strings counted, as the parser leaves them. *)
Fixpoint counted (buf : list Z) (c : cmd) : tree :=
  match c with
  | EXEC args => NExec ((fun a => slice a.1 (a.2 - a.1) buf) <$> args)
  | REDIR c q eq mode fd => NRedir (counted buf c) (slice q (eq - q) buf) mode fd
  | PIPE l r => NPipe (counted buf l) (counted buf r)
  | LIST l r => NList (counted buf l) (counted buf r)
  | BACK c => NBack (counted buf c)
  end.

(** With the strings NUL-terminated, as [runcmd] reads them. *)
Fixpoint terminated (buf : list Z) (c : cmd) : tree :=
  match c with
  | EXEC args => NExec ((fun a => cstr (drop a.1 buf)) <$> args)
  | REDIR c q eq mode fd => NRedir (terminated buf c) (cstr (drop q buf)) mode fd
  | PIPE l r => NPipe (terminated buf l) (terminated buf r)
  | LIST l r => NList (terminated buf l) (terminated buf r)
  | BACK c => NBack (terminated buf c)
  end.

(** The pairs of positions a command holds. *)
Fixpoint strings_of (c : cmd) : list (nat * nat) :=
  match c with
  | EXEC args => args
  | REDIR c q eq _ _ => strings_of c ++ [(q, eq)]
  | PIPE l r | LIST l r => strings_of l ++ strings_of r
  | BACK c => strings_of c
  end.

(** The shell's scanner reads the tokens of [lex]: [gettoken] and [peek] of sh.c. *)

(** * Character classes *)

Lemma in_lit_spec s c : 0 ∉ s -> in_lit s c = bool_decide (c ∈ s).
Proof.
  unfold in_lit. induction s as [|b s IH]; intros Hs; cbn; [done|].
  apply not_elem_of_cons in Hs as [Hb Hs]. rewrite (proj2 (Z.eqb_neq b 0)) by done.
  destruct (Z.eqb_spec b c) as [->|Hbc].
  - rewrite bool_decide_true; [done|]. left.
  - rewrite IH by done. apply bool_decide_ext. rewrite elem_of_cons. naive_solver.
Qed.

Lemma in_lit_true s c : 0 ∉ s -> in_lit s c = true <-> c ∈ s.
Proof. intros Hs. by rewrite in_lit_spec, bool_decide_eq_true by done. Qed.

(** Case analysis on the character that a literal contains. *)
Ltac lit_in H :=
  rewrite in_lit_true in H by (vm_compute; set_solver);
  repeat (apply elem_of_cons in H as [H|H]); [..|by apply elem_of_nil in H].

Lemma symbol_class c : in_lit symbols c = true -> c <> 0 /\ blank c = false /\ wordch c = false.
Proof.
  intros H. unfold wordch. split_and!; [| |by rewrite H, andb_false_r]; lit_in H; by subst c.
Qed.
Lemma blank_nonzero c : blank c = true -> c <> 0.
Proof. by intros H ->. Qed.
Lemma class_cases c : blank c = true \/ wordch c = true \/ in_lit symbols c = true.
Proof. unfold wordch, blank. destruct (in_lit whitespace c), (in_lit symbols c); auto. Qed.
Lemma wordch_class c : wordch c = true -> blank c = false /\ in_lit symbols c = false.
Proof. unfold wordch, blank. destruct (in_lit whitespace c), (in_lit symbols c); auto. Qed.
Lemma in_lit_sub s c : s ⊆ symbols -> in_lit s c = true -> in_lit symbols c = true.
Proof.
  intros Hs. assert (H0 : 0 ∉ symbols) by (vm_compute; set_solver).
  rewrite !in_lit_true by set_solver. apply Hs.
Qed.
(** The symbols, [>] apart. *)
Lemma symbol_simple c : in_lit symbols c = in_lit (chars "|();&<") c || (c =? ch ">").
Proof.
  apply eq_true_iff_eq. rewrite orb_true_iff, Z.eqb_eq, !in_lit_true by (vm_compute; set_solver).
  unfold symbols, chars. cbn. set_solver.
Qed.

(** * The reference lexer on blanks, words and symbols *)

Lemma lex_blanks w s : Forall (fun c => blank c = true) w -> lex [] (w ++ s) = lex [] s.
Proof. induction 1 as [|c w Hc Hw IH]; cbn; [done|]. by rewrite Hc. Qed.

Lemma lex_app v w s : Forall (fun c => wordch c = true) w -> lex v (w ++ s) = lex (v ++ w) s.
Proof.
  intros Hw. revert v. induction Hw as [|c w Hc Hw IH]; intros v; cbn.
  - by rewrite app_nil_r.
  - destruct (wordch_class c Hc) as [-> _]. rewrite Hc, IH. by rewrite <-app_assoc.
Qed.

(** A word ends at the end of the string or at a character that is not of a word. *)
Definition stops (p : Z -> bool) (s : list Z) : Prop :=
  match s with [] => True | c :: _ => p c = false end.

Lemma lex_flush w s : stops wordch s -> lex w s = flush w ++ lex [] s.
Proof.
  destruct s as [|c s]; cbn; [by rewrite app_nil_r|]. intros ->. by destruct (blank c).
Qed.

Lemma lex_word w s : Forall (fun c => wordch c = true) w -> w <> [] -> stops wordch s ->
  lex [] (w ++ s) = TWord w :: lex [] s.
Proof. intros Hw Hne Hs. rewrite lex_app, lex_flush by done. by destruct w. Qed.

Lemma lex_symbol c s : in_lit (chars "|();&<") c = true -> lex [] (c :: s) = TSym c :: lex [] s.
Proof.
  intros H. destruct (symbol_class c) as (_ & Hb & Hw); [by rewrite symbol_simple, H|].
  cbn. rewrite Hb, Hw. destruct s as [|c' s]; [done|].
  destruct (Z.eqb_spec c (ch ">")) as [->|]; [by vm_compute in H|done].
Qed.
Lemma lex_out s : stops (fun c => c =? ch ">") s -> lex [] (ch ">" :: s) = TSym (ch ">") :: lex [] s.
Proof. cbn. destruct s as [|c' s]; [done|]. cbn. by intros ->. Qed.
Lemma lex_append s : lex [] (ch ">" :: ch ">" :: s) = TApp :: lex [] s.
Proof. done. Qed.

(** * The scanner *)

Section scanner.
Context (str pad : list Z).
Hypothesis str_nonzero : 0 ∉ str.
Notation buf := (str ++ 0 :: pad).
Notation es := (length str).

Lemma rd_str s c rest : (s <= es)%nat -> drop s str = c :: rest -> buf !! s = Some c.
Proof.
  intros Hs Hd. assert (Hl : str !! s = Some c).
  { rewrite <-(Nat.add_0_r s), <-lookup_drop, Hd. done. }
  by apply lookup_app_l_Some.
Qed.
Lemma rd_end : buf !! es = Some 0.
Proof. rewrite lookup_app_r, Nat.sub_diag by lia. done. Qed.

Lemma drop_nonzero s c rest : drop s str = c :: rest -> c <> 0.
Proof.
  intros Hd ->. apply str_nonzero. rewrite <-(take_drop s str), Hd. set_solver.
Qed.
Lemma drop_step s c rest : (s <= es)%nat -> drop s str = c :: rest -> (S s <= es)%nat /\ drop (S s) str = rest.
Proof.
  intros Hs Hd. assert (length (drop s str) = S (length rest)) by by rewrite Hd.
  rewrite length_drop in H. split; [lia|].
  replace (S s) with (s + 1)%nat by lia. by rewrite <-drop_drop, Hd.
Qed.
Lemma drop_end s : (s <= es)%nat -> drop s str = [] -> s = es.
Proof. intros Hs Hd. apply (f_equal length) in Hd. rewrite length_drop in Hd. cbn in Hd. lia. Qed.

(** [skip p] passes over a maximal run of characters with [p]. *)
Lemma skip_spec p s t : (s <= es)%nat ->
  exists w s', skip buf es p s t = Ok (s', t) /\ (s' <= es)%nat /\ s' = (s + length w)%nat /\
    drop s str = w ++ drop s' str /\ Forall (fun c => p c = true) w /\ stops p (drop s' str).
Proof.
  unfold skip. intros Hs. remember (es - s)%nat as n eqn:Hn.
  revert s Hs Hn. induction n as [|n IH]; intros s Hs Hn.
  - exists [], s. cbn. rewrite Nat.add_0_r.
    assert (drop s str = []) as -> by (apply drop_ge; lia). done.
  - destruct (drop s str) as [|c rest] eqn:Hd; [apply drop_end in Hd; lia|].
    destruct (drop_step s c rest Hs Hd) as [Hs1 Hd1].
    cbn [skip_from]. unfold mbind, M_bind, rd, deref. rewrite (rd_str s c rest Hs Hd).
    destruct (p c) eqn:Hp.
    + destruct (IH (S s)) as (w & s' & -> & ? & -> & Hw & ? & ?); [lia..|].
      exists (c :: w), (S s + length w)%nat. cbn. rewrite Hd1 in Hw. split_and!; try done; [by rewrite Hw|by constructor].
    + exists [], s. cbn. rewrite Hd. split_and!; auto with lia.
Qed.

(** [ts] are the tokens from position [s] on. *)
Definition at_toks (s : nat) (ts : list tok) : Prop := (s <= es)%nat /\ lex [] (drop s str) = ts.

(** A word of the line lies in [q, eq). *)
Definition word_at (a : nat * nat) : Prop :=
  (a.1 < a.2 <= es)%nat /\ Forall (fun c => wordch c = true) (slice a.1 (a.2 - a.1) str) /\
  stops wordch (drop a.2 str).

Lemma skip_blanks s ts t : at_toks s ts ->
  exists s', skip buf es blank s t = Ok (s', t) /\ at_toks s' ts /\ stops blank (drop s' str).
Proof.
  intros [Hs <-]. destruct (skip_spec blank s t Hs) as (w & s' & Hk & Hs' & -> & Hd & Hw & Hst).
  exists (s + length w)%nat. split_and!; try done. rewrite Hd. by rewrite lex_blanks.
Qed.

(** The character under a scanner that has passed the blanks, and the first token. *)
Lemma first_char s ts : at_toks s ts -> stops blank (drop s str) ->
  (ts = [] /\ s = es /\ buf !! s = Some 0) \/
  (exists c rest, drop s str = c :: rest /\ buf !! s = Some c /\ c <> 0 /\ blank c = false).
Proof.
  intros [Hs Hl] Hst. destruct (drop s str) as [|c rest] eqn:Hd.
  - left. apply drop_end in Hd as ->; [|done]. split_and!; try done. apply rd_end.
  - right. exists c, rest. split_and!; try done; [by eapply rd_str|by eapply drop_nonzero].
Qed.

(** The symbols among which [peek] finds the first token. *)
Definition starts (toks : list Z) (ts : list tok) : bool :=
  match ts with TSym c :: _ => in_lit toks c | TApp :: _ => in_lit toks (ch ">") | _ => false end.

Lemma first_symbol toks c rest : toks ⊆ symbols -> blank c = false ->
  in_lit toks c = starts toks (lex [] (c :: rest)).
Proof.
  intros Hsub Hb. destruct (class_cases c) as [?|[Hw|Hy]]; [congruence| |].
  - destruct (wordch_class c Hw) as [_ Hns]. destruct (in_lit toks c) eqn:Ht.
    { apply (in_lit_sub _ _ Hsub) in Ht. congruence. }
    cbn. rewrite Hb, Hw. change (false = starts toks (lex [c] rest)).
    assert (Hgen : forall w s, w <> [] -> starts toks (lex w s) = false).
    { intros w s. revert w. induction s as [|d s IH]; intros w Hne; cbn; [by destruct w|].
      destruct (blank d); [by destruct w|]. destruct (wordch d); [apply IH; by destruct w|by destruct w]. }
    by rewrite Hgen.
  - destruct (symbol_class c Hy) as (_ & _ & Hw). cbn. rewrite Hb, Hw. cbn.
    destruct rest as [|c' rest]; [done|]. destruct (Z.eqb_spec c (ch ">")) as [->|]; [|done].
    by destruct (Z.eqb_spec c' (ch ">")).
Qed.

Lemma peek_spec toks s ts : toks ⊆ symbols -> at_toks s ts ->
  exists s', peek buf es toks s = Ok (starts toks ts, s') /\ at_toks s' ts /\ stops blank (drop s' str).
Proof.
  intros Hsub Hat. destruct (skip_blanks s ts s Hat) as (s' & Hk & Hat' & Hst).
  exists s'. split; [|done]. unfold peek, get, put, rd. run_monad. rewrite Hk.
  destruct (first_char s' ts Hat' Hst) as [(-> & _ & ->)|(c & rest & Hd & -> & Hc & Hb)]; [done|].
  rewrite (proj2 (Z.eqb_neq c 0)) by done. destruct Hat' as [_ <-]. rewrite Hd. cbn [negb andb].
  by rewrite (first_symbol toks c rest).
Qed.

(** What [gettoken] returns for the first token, and where the rest begins. *)
Definition token_code (ts : list tok) : Z :=
  match ts with [] => 0 | TWord _ :: _ => ch "a" | TSym c :: _ => c | TApp :: _ => ch "+" end.

Lemma token_cases c rest : blank c = false -> c <> 0 ->
  (in_lit (chars "|();&<") c = true /\ lex [] (c :: rest) = TSym c :: lex [] rest) \/
  (c = ch ">" /\ exists r, rest = ch ">" :: r /\ lex [] (c :: rest) = TApp :: lex [] r) \/
  (c = ch ">" /\ stops (fun c => c =? ch ">") rest /\ lex [] (c :: rest) = TSym c :: lex [] rest) \/
  (in_lit (chars "|();&<") c = false /\ c <> ch ">" /\ wordch c = true).
Proof.
  intros Hb Hc. destruct (class_cases c) as [?|[Hw|Hy]]; [congruence| |].
  - right; right; right. destruct (wordch_class c Hw) as [_ Hns].
    rewrite symbol_simple, orb_false_iff, Z.eqb_neq in Hns. tauto.
  - rewrite symbol_simple, orb_true_iff, Z.eqb_eq in Hy. destruct Hy as [Hy| ->].
    + left. auto using lex_symbol.
    + right. destruct rest as [|c' r]; [right; left; split_and!; [done..|]; by apply lex_out|].
      destruct (Z.eqb_spec c' (ch ">")) as [->|Hn]; [left; eauto using lex_append|].
      right; left. apply Z.eqb_neq in Hn. split_and!; [done..|]. by apply lex_out.
Qed.

(** The [switch] of [gettoken]: the token's code and the position behind it. *)
Lemma token_spec q c t ts : at_toks q ts -> stops blank (drop q str) -> buf !! q = Some c ->
  exists eq, token buf es c q t = Ok ((token_code ts, eq), t) /\ at_toks eq (tail ts) /\
    forall w ts', ts = TWord w :: ts' -> word_at (q, eq) /\ slice q (eq - q) str = w.
Proof.
  intros [Hq Hlex] Hst Hrd. unfold token.
  destruct (first_char q ts) as [(-> & -> & Hc)|(c0 & rest & Hd & Hc & Hnz & Hb)]; [done..| |].
  { assert (c = 0) as -> by congruence. exists es. split; [done|]. split; [|done].
    split; [lia|]. cbn. by rewrite drop_all. }
  assert (c0 = c) as -> by congruence. destruct (drop_step q c rest Hq Hd) as [Hq1 Hd1].
  rewrite Hd in Hlex. rewrite (proj2 (Z.eqb_neq c 0)) by done. unfold mbind, M_bind, rd, deref.
  destruct (token_cases c rest Hb Hnz) as [(Hy & Hl)|[(-> & r & -> & Hl)|[(-> & Hn & Hl)|(Hy & Hgt & Hw)]]];
    [rewrite Hl in Hlex; subst ts ..|].
  - rewrite Hy. exists (S q). split; [done|]. split; [by split; [|rewrite Hd1]|naive_solver].
  - destruct (drop_step (S q) _ _ Hq1 Hd1) as [Hq2 Hd2]. rewrite (rd_str (S q) _ _ Hq1 Hd1).
    exists (S (S q)). split; [done|]. split; [by split; [|rewrite Hd2]|naive_solver].
  - assert (exists c', buf !! S q = Some c' /\ (c' =? ch ">") = false) as (c' & -> & Hc').
    { destruct rest as [|c' r]; [|exists c'; split; [by eapply rd_str|done]].
      exists 0. split; [|done]. apply drop_end in Hd1 as ->; [|done]. apply rd_end. }
    exists (S q). split; [by rewrite Hc'|]. split; [by split; [|rewrite Hd1]|naive_solver].
  - rewrite Hy, (proj2 (Z.eqb_neq c (ch ">"))) by done.
    destruct (skip_spec wordch q t Hq) as (w & eq & -> & Heq & Hlen & Hdw & Hww & Hsw).
    assert (Hne : w <> []).
    { intros ->. cbn in Hlen. subst eq. rewrite Nat.add_0_r, Hd in Hsw. cbn in Hsw. congruence. }
    rewrite <-Hd, Hdw, lex_word in Hlex by done. subst ts. exists eq. split; [done|]. split; [done|].
    intros w' ts' [= <- <-]. assert (Hsl : slice q (eq - q) str = w).
    { unfold slice. rewrite Hdw. apply take_app_length'. lia. }
    split; [|done]. split; [|split; [|done]].
    + cbn. destruct w; [done|]. cbn in Hlen. lia.
    + cbn [fst snd]. by rewrite Hsl.
Qed.

Lemma gettoken_spec s ts : at_toks s ts ->
  exists q eq s', gettoken buf es s = Ok ((token_code ts, q, eq), s') /\ at_toks s' (tail ts) /\
    forall w ts', ts = TWord w :: ts' -> word_at (q, eq) /\ slice q (eq - q) str = w.
Proof.
  intros Hat. destruct (skip_blanks s ts s Hat) as (q & Hk & Hat' & Hst).
  assert (exists c, buf !! q = Some c) as [c Hc].
  { apply lookup_lt_is_Some. destruct Hat' as [Hq _]. rewrite length_app. cbn. lia. }
  destruct (token_spec q c s ts Hat' Hst Hc) as (eq & Ht & Heq & Hw).
  destruct (skip_blanks eq (tail ts) s Heq) as (s' & Hk' & Hs' & _).
  exists q, eq, s'. split; [|done]. unfold gettoken, get, rd, put, mbind, M_bind, gets, deref, modify, id.
  rewrite Hk, Hc, Ht, Hk'. done.
Qed.
End scanner.
