(* ===== verification/ShParse.v ===== *)
(** The shell's parser accepts the lines of the grammar and no others, and builds the command
    they mean: [parseredirs], [parseexec], [parseblock], [parsepipe] and [parseline] of sh.c. *)

From stdpp Require Import base tactics numbers option list sets strings.
From Stdlib Require Import ZArith Lia Ascii.
From S2P Require Import Prelude CString Bytes User Sh ShLex.

(** * Runs that return or panic *)

(** [m] returns with [Q], or it panics and [E] holds; it does not fault or run out of fuel. *)
Definition runs {A} (m : M nat A) (s : nat) (Q : A -> nat -> Prop) (E : Prop) : Prop :=
  match m s with
  | Ok (a, s') => Q a s'
  | Err (EPanic _) => E
  | Err _ => False
  end.

Lemma runs_bind {A B} (m : M nat A) (f : A -> M nat B) s Q1 (E1 : Prop) Q (E : Prop) :
  runs m s Q1 E1 -> (E1 -> E) -> (forall a s', Q1 a s' -> runs (f a) s' Q E) -> runs (m ≫= f) s Q E.
Proof.
  unfold runs, mbind, M_bind. intros Hm HE Hf.
  destruct (m s) as [[a s']|[]]; [by apply Hf|by apply HE|done..].
Qed.
Lemma runs_mono {A} (m : M nat A) s Q1 (E1 : Prop) (Q : A -> nat -> Prop) (E : Prop) :
  runs m s Q1 E1 -> (E1 -> E) -> (forall a s', Q1 a s' -> Q a s') -> runs m s Q E.
Proof. unfold runs. intros Hm HE HQ. destruct (m s) as [[a s']|[]]; [by apply HQ|by apply HE|done..]. Qed.
Lemma runs_ok {A B} (m : M nat A) (f : A -> M nat B) s a s' Q (E : Prop) :
  m s = Ok (a, s') -> runs (f a) s' Q E -> runs (m ≫= f) s Q E.
Proof. unfold runs, mbind, M_bind. by intros ->. Qed.
Lemma runs_panic_if {B} b msg (f : unit -> M nat B) s Q (E : Prop) :
  (b = true -> E) -> (b = false -> runs (f tt) s Q E) -> runs (panic_if b msg ≫= f) s Q E.
Proof. unfold runs, mbind, M_bind, panic_if. intros Ht Hf. destruct b; [by apply Ht|by apply Hf]. Qed.

(** * First tokens *)

Definition ok_tok (t : tok) : Prop := match t with TSym c => in_lit symbols c = true | _ => True end.

Lemma lex_ok w s : Forall ok_tok (lex w s).
Proof.
  assert (Hf : forall w, Forall ok_tok (flush w)) by (intros []; cbn; repeat constructor).
  assert (H : forall n w s, (length s <= n)%nat -> Forall ok_tok (lex w s)).
  { intros n. induction n as [|n IH]; intros w' [|c s'] Hn; cbn in *; auto; [lia|].
    destruct (blank c) eqn:Hb; [apply Forall_app; split; auto with lia|].
    destruct (wordch c) eqn:Hw; [auto with lia|]. apply Forall_app; split; [done|].
    assert (in_lit symbols c = true) by (destruct (class_cases c) as [?|[?|?]]; congruence).
    destruct s' as [|c' s'']; [by repeat constructor|]. cbn in Hn.
    destruct ((c =? ch ">") && (c' =? ch ">")); (constructor; [done|]); apply IH; cbn; lia. }
  by eapply H.
Qed.

Lemma lex_length w s : (length (lex w s) <= length s + length (flush w))%nat.
Proof.
  assert (H : forall n w s, (length s <= n)%nat -> (length (lex w s) <= length s + length (flush w))%nat);
    [|by eapply H].
  intros n. induction n as [|n IH]; intros w' [|c s'] Hn; cbn in *; try lia.
  assert (IH0 : forall s, (length s <= n)%nat -> (length (lex [] s) <= length s)%nat)
    by (intros s0 Hs0; specialize (IH [] s0 Hs0); cbn in IH; lia).
  destruct (blank c); [rewrite length_app; specialize (IH0 s'); lia|].
  destruct (wordch c).
  { specialize (IH (w' ++ [c]) s'). destruct w'; cbn in *; lia. }
  rewrite length_app. destruct s' as [|c' s'']; cbn in *; [lia|].
  destruct ((c =? ch ">") && (c' =? ch ">")); cbn.
  - specialize (IH0 s''). lia.
  - specialize (IH0 (c' :: s'')). cbn in IH0. lia.
Qed.

(** The first token is the symbol [c]. *)
Lemma starts_one c ts : c <> ch ">" -> c <> 0 ->
  starts [c] ts = true <-> exists ts', ts = TSym c :: ts'.
Proof.
  intros Hc Hz. destruct ts as [|[w|d|] ts]; cbn; try naive_solver.
  - rewrite in_lit_true by set_solver. set_solver.
  - rewrite in_lit_true by set_solver. set_solver.
Qed.

(** What may follow a phrase: the end, or one of the symbols [toks]. *)
Definition follow (toks : list Z) (ts : list tok) : bool :=
  match ts with [] => true | _ => starts toks ts end.

Lemma follow_sub toks toks' ts : 0 ∉ toks' -> toks ⊆ toks' -> follow toks ts = true -> follow toks' ts = true.
Proof.
  intros Hz Hs. destruct ts as [|[w|c|] ts]; cbn; try done; rewrite !in_lit_true by set_solver; apply Hs.
Qed.
Lemma follow_not toks c ts : 0 ∉ toks -> c ∉ toks -> follow toks (TSym c :: ts) = false.
Proof. intros Hz Hc. cbn. apply not_true_iff_false. by rewrite in_lit_true. Qed.
Lemma follow_starts toks toks' ts : 0 ∉ toks -> 0 ∉ toks' -> (forall c, c ∈ toks -> c ∉ toks') ->
  follow toks ts = true -> starts toks' ts = false.
Proof.
  intros Hz Hz' Hd. destruct ts as [|[w|c|] ts]; cbn; try done; intros H; apply not_true_iff_false;
    rewrite in_lit_true in * by done; auto.
Qed.

(** Two ways to split off leading [&]s agree. *)
Lemma amps_unique n n' r r' : starts [ch "&"] r = false -> starts [ch "&"] r' = false ->
  replicate n (TSym (ch "&")) ++ r = replicate n' (TSym (ch "&")) ++ r' -> n = n' /\ r = r'.
Proof.
  intros Hr Hr'. revert n'. induction n as [|n IH]; intros [|n']; cbn; try done.
  - intros ->. by cbn in Hr.
  - intros <-. by cbn in Hr'.
  - intros [= H]. apply IH in H as [-> ->]. done.
Qed.

(** * Command structures and trees *)

Section parser.
Context (str pad : list Z).
Hypothesis str_nonzero : 0 ∉ str.
Notation buf := (str ++ 0 :: pad).
Notation es := (length str).
Notation at_toks := (at_toks str).
Notation word_at := (word_at str).
Notation counted := (counted str).

Lemma at_ok s ts : at_toks s ts -> Forall ok_tok ts.
Proof. intros [_ <-]. apply lex_ok. Qed.

Lemma counted_add_arg c q eq :
  counted (add_arg c (q, eq)) = add_word (counted c) (slice q (eq - q) str).
Proof. induction c; cbn; try done; [by rewrite fmap_app|by f_equal]. Qed.
Lemma strings_add_arg (P : nat * nat -> Prop) c a :
  Forall P (strings_of c) -> P a -> Forall P (strings_of (add_arg c a)).
Proof.
  intros Hc Ha. induction c; cbn in *; try done; apply Forall_app.
  - auto.
  - apply Forall_app in Hc as [? ?]. auto.
Qed.

(** ** One step of a run *)

(** One call of [peek], and one of [gettoken], in a run. *)
Lemma runs_peek {B} toks (f : bool -> M nat B) s ts Q (E : Prop) :
  toks ⊆ symbols -> at_toks s ts ->
  (forall s', at_toks s' ts -> runs (f (starts toks ts)) s' Q E) -> runs (peek buf es toks ≫= f) s Q E.
Proof.
  intros Hsub Hat Hf. destruct (peek_spec str pad str_nonzero toks s ts Hsub Hat) as (s1 & Hp & Hat1 & _).
  eapply runs_ok; [exact Hp|]. by apply Hf.
Qed.
Lemma runs_gettoken {B} (f : Z * nat * nat -> M nat B) s t ts Q (E : Prop) :
  at_toks s (t :: ts) ->
  (forall q eq s', at_toks s' ts -> (forall w, t = TWord w -> word_at (q, eq) /\ slice q (eq - q) str = w) ->
     runs (f (token_code (t :: ts), q, eq)) s' Q E) -> runs (gettoken buf es ≫= f) s Q E.
Proof.
  intros Hat Hf. destruct (gettoken_spec str pad str_nonzero s _ Hat) as (q & eq & s1 & Hg & Hat1 & Hw).
  eapply runs_ok; [exact Hg|]. apply Hf; [done|]. intros w ->. by apply (Hw w ts).
Qed.

(** The first token is a word, or its code is not that of a word. *)
Lemma word_or_not ts : Forall ok_tok ts ->
  (exists w ts', ts = TWord w :: ts') \/ token_code ts <> ch "a" /\ forall w ts', ts <> TWord w :: ts'.
Proof.
  intros Hok. destruct ts as [|[w|d|] ts]; [right| |right|right]; eauto; split; try done.
  cbn. intros ->. apply Forall_cons in Hok as [Hd _]. by vm_compute in Hd.
Qed.

(** ** Redirections *)

Definition not_redir (ts : list tok) : Prop := starts (chars "<>") ts = false.

Lemma print_redirs_cons r rs : print_redirs (r :: rs) = print_kind r.1 :: TWord r.2 :: print_redirs rs.
Proof. done. Qed.

Lemma starts_redir ts : Forall ok_tok ts -> starts (chars "<>") ts = true ->
  exists k ts', ts = print_kind k :: ts'.
Proof.
  destruct ts as [|[w|c|] ts]; cbn; try done; intros _ H.
  - lit_in H; subst c; [by exists RIn, ts|by exists ROut, ts].
  - by exists RApp, ts.
Qed.
Lemma redir_starts k ts : starts (chars "<>") (print_kind k :: ts) = true.
Proof. by destruct k. Qed.
Lemma redir_not k ts : ~ not_redir (print_kind k :: ts).
Proof. by destruct k. Qed.
Lemma print_kind_inj k k' : print_kind k = print_kind k' -> k = k'.
Proof. by destruct k, k'. Qed.

(** The node [parseredirs] builds for the redirection symbol [k]. *)
Lemma redir_node k c q eq ts : let tok := token_code (print_kind k :: ts) in
  let c' := if tok =? ch "<" then REDIR c q eq O_RDONLY 0
    else if tok =? ch ">" then REDIR c q eq (Z.lor O_WRONLY O_CREATE) 1
    else if tok =? ch "+" then REDIR c q eq (Z.lor O_WRONLY O_CREATE) 1
    else c in
  counted c' = wrap (counted c) (k, slice q (eq - q) str) /\ strings_of c' = strings_of c ++ [(q, eq)].
Proof. by destruct k. Qed.

(** What [parseredirs] makes of the tokens [ts]: the redirections in front are consumed. *)
Definition redirs_parsed (c : cmd) (ts : list tok) (c' : cmd) (s' : nat) : Prop :=
  exists rs rest, at_toks s' rest /\ ts = print_redirs rs ++ rest /\ not_redir rest /\
    counted c' = foldl wrap (counted c) rs /\ Forall word_at (strings_of c') /\
    forall rs' rest', not_redir rest' -> ts = print_redirs rs' ++ rest' -> rs' = rs /\ rest' = rest.
Definition redirs_rejected (ts : list tok) : Prop :=
  forall rs rest, not_redir rest -> ts <> print_redirs rs ++ rest.

Lemma parseredirs_spec fuel c s ts : at_toks s ts -> (length ts < fuel)%nat ->
  Forall word_at (strings_of c) ->
  runs (parseredirs buf es fuel c) s (redirs_parsed c ts) (redirs_rejected ts).
Proof.
  revert c s ts. induction fuel as [|fuel IH]; intros c s ts Hat Hf Hc; [lia|]. cbn [parseredirs].
  eapply runs_peek; [vm_compute; set_solver|exact Hat|]. intros s1 Hat1.
  destruct (starts (chars "<>") ts) eqn:Hst; cbn [negb].
  2:{ exists [], ts. split_and!; try done. intros [|r rs'] rest' Hn; [done|]. intros ->.
      by rewrite print_redirs_cons in Hst; cbn [app] in Hst; rewrite redir_starts in Hst. }
  apply starts_redir in Hst as (k & ts1 & ->); [|by eapply at_ok].
  eapply runs_gettoken; [exact Hat1|]. intros _ _ s2 Hat2 _. cbn beta iota.
  destruct (gettoken_spec str pad str_nonzero s2 _ Hat2) as (q & eq & s3 & Hg3 & Hat3 & Hw).
  eapply runs_ok; [exact Hg3|]. cbn beta iota.
  destruct (word_or_not _ (at_ok _ _ Hat2)) as [(w & ts2 & ->)|[Hcode Hnw]].
  2:{ apply runs_panic_if; intros Hb; [|by apply negb_false_iff, Z.eqb_eq in Hb].
      intros [|r rs] rest Hn; [cbn; intros <-; by apply redir_not in Hn|].
      rewrite print_redirs_cons. cbn. intros [= _ ->]. by eapply Hnw. }
  apply runs_panic_if; intros Hb; [done|]. clear Hb. destruct (Hw w ts2 eq_refl) as [Hwa Hsl].
  destruct (redir_node k c q eq (TWord w :: ts2)) as [Hcn Hsn].
  eapply runs_mono; [apply (IH _ s3 ts2 Hat3)|..].
  - cbn in Hf. lia.
  - rewrite Hsn. apply Forall_app. auto.
  - intros Hrej [|r rs] rest Hn; [cbn; intros <-; by apply redir_not in Hn|].
    rewrite print_redirs_cons. cbn. intros [= _ _ ->]. by eapply Hrej.
  - intros c' s' (rs & rest & Hat' & -> & Hn & Hct & Hst & Hu).
    exists ((k, w) :: rs), rest. split_and!; try done.
    + cbn. by rewrite Hct, Hcn, Hsl.
    + intros [|[k' w'] rs'] rest' Hn'; [cbn; intros <-; by apply redir_not in Hn'|].
      rewrite print_redirs_cons. cbn. intros [= Hk <- Heq]. apply print_kind_inj in Hk as <-.
      by destruct (Hu _ _ Hn' Heq) as [-> ->].
Qed.

(** ** Arguments *)

Definition args_follow : list Z := chars "|)&;".

Definition args_parsed (argc : nat) (c : cmd) (ts : list tok) (c' : cmd) (s' : nat) : Prop :=
  exists args rest, at_toks s' rest /\ ts = print_args args ++ rest /\ (argc + length args < MAXARGS)%nat /\
    counted c' = foldl add_arg_redirs (counted c) args /\ Forall word_at (strings_of c') /\
    forall args' rest', (argc + length args' < MAXARGS)%nat -> follow args_follow rest' = true ->
      ts = print_args args' ++ rest' -> args' = args /\ rest' = rest.
Definition args_rejected (argc : nat) (ts : list tok) : Prop :=
  forall args rest, (argc + length args < MAXARGS)%nat -> follow args_follow rest = true ->
    ts <> print_args args ++ rest.

Lemma print_args_cons a args : print_args (a :: args) = TWord a.1 :: print_redirs a.2 ++ print_args args.
Proof. done. Qed.
(** Behind the redirections of an argument comes the next argument or what follows the command. *)
Lemma args_not_redir args rest : follow args_follow rest = true -> not_redir (print_args args ++ rest).
Proof.
  intros Hf. destruct args as [|a args]; [|done]. cbn.
  apply (follow_starts args_follow); [vm_compute; set_solver..| |done].
  intros c Hc. unfold args_follow, chars in *. cbn in *. set_solver.
Qed.

(** The tokens that make the loop over the arguments stop. *)
Lemma args_stop argc c ts s : at_toks s ts -> (argc < MAXARGS)%nat -> Forall word_at (strings_of c) ->
  (forall w ts', ts <> TWord w :: ts') -> args_parsed argc c ts c s.
Proof.
  intros Hat Hargc Hc Hnw. exists [], ts. split_and!; try done; [cbn; lia|].
  intros [|a args'] rest' _ _; [done|]. rewrite print_args_cons. intros Heq. by destruct (Hnw _ _ Heq).
Qed.

Lemma parseargs_spec fuel argc c s ts : at_toks s ts -> (length ts < fuel)%nat -> (argc < MAXARGS)%nat ->
  Forall word_at (strings_of c) ->
  runs (parseargs buf es fuel argc c) s (args_parsed argc c ts) (args_rejected argc ts).
Proof.
  revert argc c s ts. induction fuel as [|fuel IH]; intros argc c s ts Hat Hf Hargc Hc; [lia|].
  cbn [parseargs]. eapply runs_peek; [vm_compute; set_solver|exact Hat|]. intros s1 Hat1.
  destruct (starts (chars "|)&;") ts) eqn:Hst.
  { apply args_stop; try done. by destruct ts as [|[]]. }
  destruct ts as [|t ts].
  { destruct (gettoken_spec str pad str_nonzero s1 _ Hat1) as (q & eq & s2 & Hg & Hat2 & _).
    eapply runs_ok; [exact Hg|]. by apply args_stop. }
  pose proof (at_ok _ _ Hat) as Hok. eapply runs_gettoken; [exact Hat1|]. intros q eq s2 Hat2 Hw. cbn beta iota.
  assert (Hnz : token_code (t :: ts) <> 0).
  { apply Forall_cons in Hok as [Ht _]. destruct t as [w|d|]; [done| |done]. cbn in *. intros ->.
    by vm_compute in Ht. }
  rewrite (proj2 (Z.eqb_neq _ _) Hnz).
  destruct (word_or_not _ Hok) as [(w & ts' & [= -> ->])|[Hcode Hnw]].
  2:{ apply runs_panic_if; intros Hb; [|by apply negb_false_iff, Z.eqb_eq in Hb].
      intros [|a args] rest Hlen Hfol; [cbn; intros <-; cbn [follow] in Hfol; unfold args_follow in Hfol; congruence|].
      rewrite print_args_cons. intros Heq. by eapply Hnw. }
  destruct (Hw w eq_refl) as [Hwa Hsl]. clear Hw Hnz.
  apply runs_panic_if; intros Hb; [done|]. clear Hb.
  apply runs_panic_if; intros Hmax; [apply Nat.leb_le in Hmax|apply Nat.leb_gt in Hmax].
  { intros [|a args] rest Hlen Hfol; cbn in *; [intros <-; cbn in Hfol; done|lia]. }
  eapply runs_bind; [apply parseredirs_spec; [exact Hat2|cbn in Hf; lia|by apply strings_add_arg]|..].
  - intros Hrej [|a args] rest Hlen Hfol; [cbn; intros <-; done|].
    rewrite print_args_cons. cbn. intros [= _ Heq]. rewrite <-app_assoc in Heq.
    by apply (Hrej _ _ (args_not_redir args rest Hfol) Heq).
  - intros c2 s3 (rs & rest & Hat3 & -> & Hnr & Hct & Hs3 & Hu). rewrite counted_add_arg, Hsl in Hct.
    eapply runs_mono; [apply (IH (S argc) c2 s3 rest Hat3)|..]; [cbn in Hf; rewrite length_app in Hf; lia|done|done|..].
    + intros Hrej [|a args] rest' Hlen Hfol; [cbn; intros <-; done|].
      rewrite print_args_cons. cbn. intros [= _ Heq]. rewrite <-app_assoc in Heq.
      apply Hu in Heq as [_ Heq]; [|by apply args_not_redir]. cbn in Hlen.
      apply (Hrej args rest'); [lia|done|done].
    + intros c' s' (args & rest' & Hat' & -> & Hlen & Hct' & Hs' & Hu').
      exists ((w, rs) :: args), rest'. split_and!; try done.
      * rewrite print_args_cons. cbn. by rewrite <-app_assoc.
      * cbn. lia.
      * rewrite Hct', Hct. done.
      * intros [|[w' rs'] args'] rest'' Hlen' Hfol; [cbn; intros <-; done|].
        rewrite print_args_cons. cbn. intros [= <- Heq]. rewrite <-app_assoc in Heq.
        apply Hu in Heq as [-> Heq]; [|by apply args_not_redir]. cbn in Hlen'.
        destruct (Hu' args' rest'') as [-> ->]; [lia|done|done|done].
Qed.

(** ** Commands *)

Lemma parseback_spec fuel c s ts : at_toks s ts -> (length ts < fuel)%nat ->
  runs (parseback buf es fuel c) s (fun c' s' => exists n rest, at_toks s' rest /\
    ts = replicate n (TSym (ch "&")) ++ rest /\ starts [ch "&"] rest = false /\
    counted c' = backs n (counted c) /\ strings_of c' = strings_of c) False.
Proof.
  revert c s ts. induction fuel as [|fuel IH]; intros c s ts Hat Hf; [lia|]. cbn [parseback].
  eapply runs_peek; [vm_compute; set_solver|exact Hat|]. intros s1 Hat1.
  destruct (starts (chars "&") ts) eqn:Hst; cbn [negb]; [|by exists 0%nat, ts].
  apply starts_one in Hst as [ts' ->]; [|done..].
  eapply runs_gettoken; [exact Hat1|]. intros _ _ s2 Hat2 _.
  eapply runs_mono; [apply (IH (BACK c) s2 ts' Hat2); cbn in Hf; lia|done|].
  intros c' s' (n & rest & Hat' & -> & Hn & Hct & Hs). by exists (S n), rest.
Qed.

(** [parsed pr den wf fol ts c s']: the tokens [ts] begin with a phrase, [c] is its command, and
    the phrase is the only one that [ts] can be taken to begin with. *)
Definition parsed {X} (pr : X -> list tok) (den : X -> tree) (wf : X -> Prop) (fol : list Z)
    (ts : list tok) (c : cmd) (s' : nat) : Prop :=
  exists x rest, at_toks s' rest /\ ts = pr x ++ rest /\ wf x /\ counted c = den x /\
    Forall word_at (strings_of c) /\
    forall x' rest', wf x' -> follow fol rest' = true -> ts = pr x' ++ rest' -> x' = x /\ rest' = rest.
Definition rejected {X} (pr : X -> list tok) (wf : X -> Prop) (fol : list Z) (ts : list tok) : Prop :=
  forall x rest, wf x -> follow fol rest = true -> ts <> pr x ++ rest.

Definition line_ok (fuel : nat) : Prop := forall s ts, at_toks s ts -> (4 * length ts + 4 <= fuel)%nat ->
  runs (parseline buf es fuel) s (parsed print_line line_tree short_line (chars ")") ts)
    (rejected print_line short_line (chars ")") ts).
Definition pipe_ok (fuel : nat) : Prop := forall s ts, at_toks s ts -> (4 * length ts + 3 <= fuel)%nat ->
  runs (parsepipe buf es fuel) s (parsed print_pipeline pipeline_tree short_pipeline (chars ")&;") ts)
    (rejected print_pipeline short_pipeline (chars ")&;") ts).
Definition exec_ok (fuel : nat) : Prop := forall s ts, at_toks s ts -> (4 * length ts + 2 <= fuel)%nat ->
  runs (parseexec buf es fuel) s (parsed print_exec exec_tree short_exec args_follow ts)
    (rejected print_exec short_exec args_follow ts).
Definition block_ok (fuel : nat) : Prop := forall s ts, at_toks s (TSym (ch "(") :: ts) ->
  (4 * length ts + 5 <= fuel)%nat ->
  runs (parseblock buf es fuel) s (parsed print_exec exec_tree short_exec args_follow (TSym (ch "(") :: ts))
    (rejected print_exec short_exec args_follow (TSym (ch "(") :: ts)).

Lemma block_step fuel : line_ok fuel -> block_ok (S fuel).
Proof.
  intros IH s ts Hat Hf. cbn [parseblock].
  eapply runs_peek; [vm_compute; set_solver|exact Hat|]. intros s1 Hat1. cbn [starts].
  apply runs_panic_if; [done|]. intros _. eapply runs_gettoken; [exact Hat1|]. intros _ _ s2 Hat2 _.
  assert (Hinv : forall x rest, follow args_follow rest = true -> TSym (ch "(") :: ts = print_exec x ++ rest ->
    exists l rs, x = Block l rs /\ ts = print_line l ++ TSym (ch ")") :: print_redirs rs ++ rest).
  { intros [rs args|l rs] rest Hfol.
    - destruct rs as [|[k w] rs]; cbn; [|by destruct k]. destruct args as [|a args]; cbn; [|done].
      intros <-. by vm_compute in Hfol.
    - cbn. intros [= ->]. exists l, rs. split; [done|]. by rewrite <-app_assoc. }
  eapply runs_bind; [apply (IH s2 ts Hat2); lia|..].
  { intros Hrej x rest Hwf Hfol Heq. destruct (Hinv x rest Hfol Heq) as (l & rs & -> & Hts).
    by apply (Hrej l (TSym (ch ")") :: print_redirs rs ++ rest)). }
  intros c s3 (l & rest & Hat3 & -> & Hwf & Hct & Hs & Hu).
  eapply runs_peek; [vm_compute; set_solver|exact Hat3|]. intros s4 Hat4.
  assert (Hinv' : forall x rest', short_exec x -> follow args_follow rest' = true ->
    TSym (ch "(") :: print_line l ++ rest = print_exec x ++ rest' ->
    exists rs, x = Block l rs /\ rest = TSym (ch ")") :: print_redirs rs ++ rest').
  { intros x rest' Hx Hfol Heq. destruct (Hinv x rest' Hfol Heq) as (l' & rs & -> & Hts).
    apply Hu in Hts as [-> <-]; [by eauto|done|done]. }
  clear Hinv. apply runs_panic_if; intros Hb.
  { apply negb_true_iff in Hb. intros x rest' Hx Hfol Heq.
    destruct (Hinv' x rest' Hx Hfol Heq) as (rs & -> & ->). by vm_compute in Hb. }
  apply negb_false_iff, starts_one in Hb as [ts' ->]; [|done..].
  eapply runs_gettoken; [exact Hat4|]. intros _ _ s5 Hat5 _.
  assert (Hnr : forall rest', follow args_follow rest' = true -> not_redir rest')
    by (intros rest'; apply (args_not_redir [])).
  eapply runs_mono; [apply (parseredirs_spec _ c s5 ts' Hat5); [rewrite length_app in Hf; cbn in Hf; lia|done]|..].
  - intros Hrej x rest' Hx Hfol Heq. destruct (Hinv' x rest' Hx Hfol Heq) as (rs & -> & [= Hts]).
    by apply (Hrej rs rest' (Hnr _ Hfol)).
  - intros c' s' (rs & rest' & Hat' & -> & Hn' & Hct' & Hs' & Hu').
    exists (Block l rs), rest'. split_and!; try done.
    + cbn. by rewrite <-app_assoc.
    + by rewrite Hct', Hct.
    + intros x rest'' Hx Hfol Heq. destruct (Hinv' x rest'' Hx Hfol Heq) as (rs' & -> & [= Hts]).
      by destruct (Hu' rs' rest'' (Hnr _ Hfol) Hts) as [-> ->].
Qed.

Lemma exec_step fuel : block_ok fuel -> exec_ok (S fuel).
Proof.
  intros IH s ts Hat Hf. cbn [parseexec].
  eapply runs_peek; [vm_compute; set_solver|exact Hat|]. intros s1 Hat1.
  destruct (starts (chars "(") ts) eqn:Hst.
  { apply starts_one in Hst as [ts' ->]; [|done..]. apply IH; [done|]. cbn in Hf. lia. }
  assert (Hinv : forall x rest, ts = print_exec x ++ rest ->
    exists rs args, x = Simple rs args /\ ts = print_redirs rs ++ print_args args ++ rest).
  { intros [rs args|l rs] rest ->; [exists rs, args; split; [done|]; cbn; by rewrite <-app_assoc|done]. }
  eapply runs_bind; [apply (parseredirs_spec _ (EXEC []) s1 ts Hat1); [lia|constructor]|..].
  { intros Hrej x rest _ Hfol Heq. destruct (Hinv x rest Heq) as (rs & args & -> & Hts).
    by apply (Hrej rs _ (args_not_redir args rest Hfol)). }
  intros c s2 (rs & rest & Hat2 & -> & Hnr & Hct & Hs & Hu).
  assert (Hinv' : forall x rest', follow args_follow rest' = true -> print_redirs rs ++ rest = print_exec x ++ rest' ->
    exists args, x = Simple rs args /\ rest = print_args args ++ rest').
  { intros x rest' Hfol Heq. destruct (Hinv x rest' Heq) as (rs' & args & -> & Hts).
    apply Hu in Hts as [-> <-]; [eauto|by apply args_not_redir]. }
  eapply runs_mono; [apply (parseargs_spec _ 0 c s2 rest Hat2); [rewrite length_app in Hf; lia|vm_compute; lia|done]|..].
  - intros Hrej x rest' Hx Hfol Heq. destruct (Hinv' x rest' Hfol Heq) as (args & -> & Hts).
    by apply (Hrej args rest').
  - intros c' s' (args & rest' & Hat' & -> & Hlen & Hct' & Hs' & Hu').
    exists (Simple rs args), rest'. split_and!; try done.
    + cbn. by rewrite <-app_assoc.
    + by rewrite Hct', Hct.
    + intros x rest'' Hx Hfol Heq. destruct (Hinv' x rest'' Hfol Heq) as (args' & -> & Hts).
      by destruct (Hu' args' rest'' Hx Hfol Hts) as [-> ->].
Qed.

Lemma pipe_step fuel : exec_ok fuel -> pipe_ok fuel -> pipe_ok (S fuel).
Proof.
  intros IHe IHp s ts Hat Hf. cbn [parsepipe].
  assert (Hfe : forall r, follow (chars ")&;") r = true -> follow args_follow r = true).
  { intros r. apply follow_sub; vm_compute; set_solver. }
  assert (Hfb : forall r, follow args_follow (TSym (ch "|") :: r) = true) by done.
  eapply runs_bind; [apply (IHe s ts Hat); lia|..].
  { intros Hrej [e|e p] rest Hx Hfol; cbn [print_pipeline].
    - intros Heq. by apply (Hrej e rest Hx (Hfe _ Hfol)).
    - rewrite <-app_assoc. intros Heq. destruct Hx as [Hx _]. by apply (Hrej e _ Hx (Hfb _) Heq). }
  intros c s1 (e & rest & Hat1 & -> & Hwf & Hct & Hs & Hu).
  eapply runs_peek; [vm_compute; set_solver|exact Hat1|]. intros s2 Hat2.
  destruct (starts (chars "|") rest) eqn:Hst; cbn [negb].
  2:{ exists (POne e), rest. split_and!; try done. intros [e'|e' p] rest' Hx Hfol; cbn [print_pipeline].
      - intros Heq. by destruct (Hu e' rest' Hx (Hfe _ Hfol) Heq) as [-> ->].
      - rewrite <-app_assoc. intros Heq. destruct Hx as [Hx _].
        destruct (Hu e' _ Hx (Hfb _) Heq) as [_ <-]. by vm_compute in Hst. }
  apply starts_one in Hst as [ts' ->]; [|done..].
  assert (Hinv : forall p rest, short_pipeline p -> follow (chars ")&;") rest = true ->
    print_exec e ++ TSym (ch "|") :: ts' = print_pipeline p ++ rest ->
    exists p', p = PMore e p' /\ ts' = print_pipeline p' ++ rest /\ short_pipeline p').
  { intros [e'|e' p] rest Hx Hfol; cbn [print_pipeline].
    - intros Heq. destruct (Hu e' rest Hx (Hfe _ Hfol) Heq) as [_ ->]. by vm_compute in Hfol.
    - rewrite <-app_assoc. intros Heq. destruct Hx as [Hx Hp].
      destruct (Hu e' _ Hx (Hfb _) Heq) as [-> [= <-]]. eauto. }
  eapply runs_gettoken; [exact Hat2|]. intros _ _ s3 Hat3 _.
  eapply runs_bind; [apply (IHp s3 ts' Hat3); rewrite length_app in Hf; cbn in Hf; lia|..].
  - intros Hrej p rest Hx Hfol Heq. destruct (Hinv p rest Hx Hfol Heq) as (p' & -> & Hts & Hp').
    by apply (Hrej p' rest Hp' Hfol).
  - intros c' s' (p & rest & Hat' & -> & Hwf' & Hct' & Hs' & Hu').
    exists (PMore e p), rest. split_and!; try done.
    + cbn [print_pipeline]. by rewrite <-app_assoc.
    + cbn. by rewrite Hct, Hct'.
    + cbn. by apply Forall_app.
    + intros x rest' Hx Hfol Heq. destruct (Hinv x rest' Hx Hfol Heq) as (p' & -> & Hts & Hp').
      by destruct (Hu' p' rest' Hp' Hfol Hts) as [-> ->].
Qed.

(** A line is a pipeline, [&]s, and the end or a [;] with the next line. *)
Lemma line_inv l rest : follow (chars ")") rest = true -> exists p n tl,
  print_line l ++ rest = print_pipeline p ++ replicate n (TSym (ch "&")) ++ tl /\
  follow (chars ")&;") (replicate n (TSym (ch "&")) ++ tl) = true /\ starts [ch "&"] tl = false /\
  ((l = LEnd p n /\ tl = rest) \/ (exists l', l = LSeq p n l' /\ tl = TSym (ch ";") :: print_line l' ++ rest)).
Proof.
  intros Hfol. destruct l as [p n|p n l].
  - exists p, n, rest. cbn. rewrite <-app_assoc. split_and!; [done| | |auto].
    + destruct n; [|done]. revert Hfol. apply follow_sub; vm_compute; set_solver.
    + revert Hfol. apply follow_starts; [vm_compute; set_solver..|]. unfold chars. cbn. set_solver.
  - exists p, n, (TSym (ch ";") :: print_line l ++ rest). cbn. rewrite <-!app_assoc. cbn.
    split_and!; [done|by destruct n|done|eauto].
Qed.
Lemma short_inv l p n tl rest :
  ((l = LEnd p n /\ tl = rest) \/ (exists l', l = LSeq p n l' /\ tl = TSym (ch ";") :: print_line l' ++ rest)) ->
  short_line l -> short_pipeline p.
Proof. by intros [[-> _]|(l' & -> & _)]; [|intros []]. Qed.

Lemma line_step fuel : pipe_ok fuel -> line_ok fuel -> line_ok (S fuel).
Proof.
  intros IHp IHl s ts Hat Hf. cbn [parseline].
  eapply runs_bind; [apply (IHp s ts Hat); lia|..].
  { intros Hrej l rest Hx Hfol Heq. destruct (line_inv l rest Hfol) as (p & n & tl & Hl & Hfp & _ & Hc).
    rewrite Hl in Heq. by apply (Hrej p _ (short_inv _ _ _ _ _ Hc Hx) Hfp Heq). }
  intros c s1 (p & rest & Hat1 & -> & Hwf & Hct & Hs & Hu).
  eapply runs_bind; [apply (parseback_spec _ c s1 rest Hat1); rewrite length_app in Hf; lia|done|].
  intros c2 s2 (n & tl & Hat2 & -> & Hna & Hct2 & Hs2).
  assert (Hinv : forall l rest', short_line l -> follow (chars ")") rest' = true ->
    print_pipeline p ++ replicate n (TSym (ch "&")) ++ tl = print_line l ++ rest' ->
    ((l = LEnd p n /\ tl = rest') \/ (exists l', l = LSeq p n l' /\ tl = TSym (ch ";") :: print_line l' ++ rest'))).
  { intros l rest' Hx Hfol Heq. destruct (line_inv l rest' Hfol) as (p' & n' & tl' & Hl & Hfp & Hna' & Hc).
    rewrite Hl in Heq. apply Hu in Heq as [-> Heq]; [|by eapply short_inv|done].
    symmetry in Heq. by apply amps_unique in Heq as [-> ->]. }
  clear Hu. eapply runs_peek; [vm_compute; set_solver|exact Hat2|]. intros s3 Hat3.
  destruct (starts (chars ";") tl) eqn:Hst; cbn [negb].
  2:{ exists (LEnd p n), tl. split_and!; try done.
      - cbn. by rewrite <-app_assoc.
      - cbn. by rewrite Hct2, Hct.
      - by rewrite Hs2.
      - intros l rest' Hx Hfol Heq. destruct (Hinv l rest' Hx Hfol Heq) as [[-> ->]|(l' & -> & ->)]; [done|].
        by vm_compute in Hst. }
  apply starts_one in Hst as [ts' ->]; [|done..].
  assert (Hinv' : forall l rest', short_line l -> follow (chars ")") rest' = true ->
    print_pipeline p ++ replicate n (TSym (ch "&")) ++ TSym (ch ";") :: ts' = print_line l ++ rest' ->
    exists l', l = LSeq p n l' /\ ts' = print_line l' ++ rest' /\ short_line l').
  { intros l rest' Hx Hfol Heq. destruct (Hinv l rest' Hx Hfol Heq) as [[-> <-]|(l' & -> & [= ->])].
    - by vm_compute in Hfol.
    - exists l'. by destruct Hx. }
  clear Hinv. eapply runs_gettoken; [exact Hat3|]. intros _ _ s4 Hat4 _.
  eapply runs_bind; [apply (IHl s4 ts' Hat4); rewrite !length_app in Hf; cbn in Hf; lia|..].
  - intros Hrej l rest Hx Hfol Heq. destruct (Hinv' l rest Hx Hfol Heq) as (l' & -> & Hts & Hl').
    by apply (Hrej l' rest Hl' Hfol).
  - intros c' s' (l & rest & Hat' & -> & Hwf' & Hct' & Hs' & Hu').
    exists (LSeq p n l), rest. split_and!; try done.
    + cbn. by rewrite <-!app_assoc.
    + cbn. by rewrite Hct2, Hct, Hct'.
    + cbn. rewrite Hs2. by apply Forall_app.
    + intros x rest' Hx Hfol Heq. destruct (Hinv' x rest' Hx Hfol Heq) as (l' & -> & Hts & Hl').
      by destruct (Hu' l' rest' Hl' Hfol Hts) as [-> ->].
Qed.

Lemma parsers_ok fuel : line_ok fuel /\ pipe_ok fuel /\ exec_ok fuel /\ block_ok fuel.
Proof.
  induction fuel as [|fuel (IHl & IHp & IHe & IHb)].
  - split_and!; intros s ts Hat Hf; lia.
  - split_and!; [by apply line_step|by apply pipe_step|by apply exec_step|by apply block_step].
Qed.
End parser.
