(* ===== verification/ShFacts.v ===== *)
(** The shell reads a command line: [parsecmd] and [nulterminate] of sh.c. *)

From stdpp Require Import base tactics numbers option list sets strings.
From Stdlib Require Import ZArith Lia Ascii.
From S2P Require Import Prelude CString Bytes User Sh ShLex ShParse.

(** * [nulterminate] *)

(** The buffer with a NUL behind every string of the command. *)
Definition cuts (buf : list Z) (l : list (nat * nat)) : list Z := foldl (fun b a => <[a.2 := 0]> b) buf l.

Lemma cuts_length buf l : length (cuts buf l) = length buf.
Proof. revert buf. induction l as [|a l IH]; intros buf; cbn; [done|]. by rewrite IH, length_insert. Qed.
Lemma cuts_app buf l k : cuts buf (l ++ k) = cuts (cuts buf l) k.
Proof. apply foldl_app. Qed.

Lemma lookup_cuts_zero buf l i : (i < length buf)%nat -> i ∈ l.*2 -> cuts buf l !! i = Some 0.
Proof.
  revert buf. induction l as [|a l IH] using rev_ind; intros buf Hi Hin; [by apply elem_of_nil in Hin|].
  rewrite cuts_app. cbn. destruct (decide (a.2 = i)) as [->|Hne].
  - apply list_lookup_insert_eq. by rewrite cuts_length.
  - rewrite list_lookup_insert_ne by done. apply IH; [done|].
    rewrite fmap_app in Hin. apply elem_of_app in Hin as [|Hin]; [done|]. set_solver.
Qed.
Lemma lookup_cuts_other buf l i : i ∉ l.*2 -> cuts buf l !! i = buf !! i.
Proof.
  revert buf. induction l as [|a l IH]; intros buf Hin; cbn in *; [done|].
  rewrite IH by set_solver. apply list_lookup_insert_ne. set_solver.
Qed.

Lemma nulterminate_args args buf : Forall (fun a => a.2 < length buf)%nat args ->
  for_each (fun a : nat * nat => cut a.2) args buf = Ok (tt, cuts buf args).
Proof.
  revert buf. induction args as [|a args IH]; intros buf Ha; [done|].
  apply Forall_cons in Ha as [Hlt Ha]. cbn. unfold mbind, M_bind, cut, store. rewrite decide_True by done.
  apply IH. by rewrite length_insert.
Qed.

Lemma nulterminate_spec c buf : Forall (fun a => a.2 < length buf)%nat (strings_of c) ->
  nulterminate c buf = Ok (tt, cuts buf (strings_of c)).
Proof.
  revert buf. induction c as [args|c IH q eq mode fd|l IHl r IHr|l IHl r IHr|c IH]; intros buf Hs; cbn in *.
  - by apply nulterminate_args.
  - apply Forall_app in Hs as [Hs Hq]. rewrite Forall_singleton in Hq. cbn in Hq.
    unfold mbind, M_bind. rewrite IH by done. unfold cut, store.
    rewrite decide_True by (rewrite cuts_length; lia). by rewrite cuts_app.
  - apply Forall_app in Hs as [Hl Hr]. unfold mbind, M_bind. rewrite IHl by done.
    rewrite IHr by by rewrite cuts_length. by rewrite cuts_app.
  - apply Forall_app in Hs as [Hl Hr]. unfold mbind, M_bind. rewrite IHl by done.
    rewrite IHr by by rewrite cuts_length. by rewrite cuts_app.
  - by apply IH.
Qed.

(** * Strings in the buffer *)

Section strings.
Context (str pad : list Z).
Hypothesis str_nonzero : 0 ∉ str.
Notation buf := (str ++ 0 :: pad).

Lemma word_char a i : word_at str a -> (a.1 <= i < a.2)%nat -> exists c, str !! i = Some c /\ wordch c = true.
Proof.
  intros ((Hlt & He) & Hw & _) Hi.
  destruct (lookup_lt_is_Some_2 str i) as [c Hc]; [lia|]. exists c. split; [done|].
  apply (Forall_lookup_1 _ _ (i - a.1)%nat c Hw). rewrite lookup_slice.
  rewrite decide_True by lia. by replace (a.1 + (i - a.1))%nat with i by lia.
Qed.
(** The character behind a word is in no word. *)
Lemma word_apart a b : word_at str a -> word_at str b -> ~ (a.1 <= b.2 < a.2)%nat.
Proof.
  intros Ha Hb Hi. destruct (word_char a b.2 Ha Hi) as (c & Hc & Hw).
  destruct Hb as (_ & _ & Hst). rewrite (drop_S _ _ _ Hc) in Hst. cbn in Hst. congruence.
Qed.

Lemma cstr_word l a : Forall (word_at str) l -> a ∈ l ->
  cstr (drop a.1 (cuts buf l)) = slice a.1 (a.2 - a.1) str.
Proof.
  intros Hl Ha. rewrite Forall_forall in Hl. pose proof (Hl a Ha) as Hwa.
  assert (Hb : (a.1 < a.2 <= length str)%nat) by apply Hwa.
  rewrite <-(cstr_app (slice a.1 (a.2 - a.1) str) (drop (S a.2) (cuts buf l))).
  - f_equal. apply list_eq. intros i. rewrite lookup_drop.
    destruct (decide (i < a.2 - a.1)%nat) as [Hi|Hi].
    + rewrite lookup_app_l by (rewrite slice_length; lia). rewrite lookup_slice, decide_True by done.
      rewrite lookup_cuts_other; [apply lookup_app_l; lia|].
      intros (b & Hbi & Hb')%list_elem_of_fmap. apply (word_apart a b Hwa (Hl b Hb')). lia.
    + rewrite lookup_app_r by (rewrite slice_length; lia). rewrite slice_length by lia.
      destruct (decide (i = a.2 - a.1)%nat) as [->|].
      * rewrite Nat.sub_diag. cbn. replace (a.1 + (a.2 - a.1))%nat with a.2 by lia.
        apply lookup_cuts_zero; [rewrite length_app; cbn; lia|]. apply list_elem_of_fmap. eauto.
      * replace (i - (a.2 - a.1))%nat with (S (i - (a.2 - a.1) - 1)) by lia.
        change ((0 :: ?x) !! S ?n) with (x !! n). rewrite lookup_drop. f_equal. lia.
  - unfold slice. intros Hin. apply str_nonzero. rewrite <-(take_drop a.1 str). apply elem_of_app. right.
    rewrite <-(take_drop (a.2 - a.1) (drop a.1 str)). apply elem_of_app. by left.
Qed.

(** Cut up, the buffer holds the strings the parser counted. *)
Lemma terminated_counted l c : Forall (word_at str) l -> strings_of c ⊆ l ->
  terminated (cuts buf l) c = counted str c.
Proof.
  intros Hl. induction c as [args|c IH q eq mode fd|k IHl r IHr|k IHl r IHr|c IH]; cbn; intros Hs.
  - f_equal. apply list_fmap_ext. intros i a Ha. apply cstr_word; [done|].
    apply Hs. by eapply list_elem_of_lookup_2.
  - rewrite IH by set_solver. f_equal. apply (cstr_word l (q, eq)); set_solver.
  - rewrite IHl, IHr by set_solver. done.
  - rewrite IHl, IHr by set_solver. done.
  - by rewrite IH.
Qed.
End strings.

(** * [parsecmd] *)

Lemma lex_nonempty c s : blank c = false -> lex [] (c :: s) <> [].
Proof.
  intros Hb. cbn. rewrite Hb. destruct (wordch c).
  - assert (H : forall w, w <> [] -> lex w s <> []); [|by apply H].
    induction s as [|d s IH]; intros [|x w] Hw; cbn; try done.
    destruct (blank d); [done|]. destruct (wordch d); [by apply IH|done].
  - destruct s as [|d s]; [done|]. by destruct ((c =? ch ">") && (d =? ch ">")).
Qed.
(** No tokens left, past the blanks: the end of the line. *)
Lemma at_end str s : at_toks str s [] -> stops blank (drop s str) -> s = length str.
Proof.
  intros [Hs Hl] Hst. destruct (drop s str) as [|c r] eqn:Hd; [by apply (drop_end str)|].
  by apply lex_nonempty in Hl.
Qed.

Lemma parsecmd_spec (str pad : list Z) : 0 ∉ str ->
  match parsecmd (str ++ 0 :: pad) with
  | Ok (c, buf) =>
      length buf = length (str ++ 0 :: pad) /\
      exists l, short_line l /\ lex [] str = print_line l /\ terminated buf c = line_tree l /\
        forall l', short_line l' -> lex [] str = print_line l' -> l' = l
  | Err (EPanic _) => forall l, short_line l -> lex [] str <> print_line l
  | Err _ => False
  end.
Proof.
  intros Hz. unfold parsecmd.
  assert (Hlen : strlen (str ++ 0 :: pad) = Some (Z.of_nat (length str))).
  { rewrite strlen_cstr by set_solver. by rewrite cstr_app. }
  rewrite Hlen, Nat2Z.id.
  set (m := cmd ← parseline (str ++ 0 :: pad) (length str) (parse_fuel (length str)); _).
  assert (Hrun : runs m 0 (fun c _ => Forall (word_at str) (strings_of c) /\
      exists l, short_line l /\ lex [] str = print_line l /\ counted str c = line_tree l /\
        forall l', short_line l' -> lex [] str = print_line l' -> l' = l)
    (forall l, short_line l -> lex [] str <> print_line l)).
  { assert (Hat : at_toks str 0 (lex [] str)) by (split; [lia|by rewrite drop_0]).
    destruct (parsers_ok str pad Hz (parse_fuel (length str))) as [Hl _].
    eapply runs_bind; [apply (Hl 0%nat _ Hat)|..].
    - pose proof (lex_length [] str) as Hll. cbn in Hll. unfold parse_fuel. lia.
    - intros Hrej l Hs Heq. apply (Hrej l []); [done|done|]. by rewrite app_nil_r.
    - intros c s (l & rest & Hat1 & Hts & Hwf & Hct & Hs & Hu).
      destruct (peek_spec str pad Hz [] s rest) as (s1 & Hp & Hat2 & Hst); [set_solver|done|].
      eapply runs_ok; [exact Hp|]. eapply runs_ok; [done|]. cbn [id].
      destruct (decide (rest = [])) as [->|Hne].
      + rewrite (at_end str s1 Hat2 Hst), (proj2 (Nat.eqb_eq _ _) eq_refl). rewrite app_nil_r in Hts.
        split; [done|]. exists l. split_and!; try done.
        intros l' Hs' Heq'. apply (Hu l' []); [done|done|]. by rewrite app_nil_r.
      + apply runs_panic_if; intros Hb.
        * intros l' Hs' Heq'. destruct (Hu l' []) as [_ ?]; [done|done|by rewrite app_nil_r|done].
        * apply negb_false_iff, Nat.eqb_eq in Hb as ->. destruct Hat2 as [_ <-]. by rewrite drop_all in Hne. }
  unfold runs in Hrun. unfold mbind at 1, outcome_bind at 1. clearbody m. revert Hrun.
  destruct (m 0%nat) as [[c s]|[]]; try done.
  intros (Hws & l & Hs & Hl & Hct & Hu). unfold mbind, outcome_bind.
  rewrite nulterminate_spec.
  - cbn. rewrite cuts_length. split; [done|]. exists l. split_and!; try done.
    by rewrite terminated_counted.
  - eapply Forall_impl; [exact Hws|]. intros a [? _]. rewrite length_app. cbn. lia.
Qed.

(** C20: on every NUL-terminated line the parser returns or panics; it never faults and never runs
    on.  It returns exactly when the tokens of the line are those of a phrase of the grammar with
    fewer than [MAXARGS] arguments per command; the phrase is then unique, and the returned
    structure, read through the buffer cut up by [nulterminate], is the command it means. *)
Theorem parsecmd_grammar (str pad : list Z) : 0 ∉ str ->
  match parsecmd (str ++ 0 :: pad) with
  | Ok (c, buf) =>
      length buf = length (str ++ 0 :: pad) /\
      exists l, short_line l /\ lex [] str = print_line l /\ terminated buf c = line_tree l /\
        forall l', short_line l' -> lex [] str = print_line l' -> l' = l
  | Err (EPanic _) => forall l, short_line l -> lex [] str <> print_line l
  | Err _ => False
  end.
Proof. apply parsecmd_spec. Qed.

Lemma parsecmd_grammar_witness :
  0 ∉ chars "ls < f | (wc; cat) &" /\
  match parsecmd (chars "ls < f | (wc; cat) &" ++ 0 :: [7]) with
  | Ok (c, buf) => exists l, short_line l /\ terminated buf c = line_tree l
  | Err _ => False
  end.
Proof.
  assert (H0 : 0 ∉ chars "ls < f | (wc; cat) &").
  { rewrite <-(bool_decide_spec (0 ∈ chars "ls < f | (wc; cat) &")). by vm_compute. }
  split; [done|]. pose proof (parsecmd_grammar (chars "ls < f | (wc; cat) &") [7] H0) as H.
  destruct (parsecmd (chars "ls < f | (wc; cat) &" ++ 0 :: [7])) as [[c buf]|e] eqn:E.
  - destruct H as (_ & l & Hs & _ & Ht & _). eauto.
  - exfalso. vm_compute in E. discriminate E.
Defined.

(** * Spelling and reading back *)

(** Words as the scanner delivers them, and symbols of the shell. *)
Definition tok_wf (t : tok) : Prop :=
  match t with
  | TWord w => w <> [] /\ Forall (fun c => wordch c = true /\ c <> 0) w
  | TSym c => in_lit symbols c = true
  | TApp => True
  end.

Lemma lex_spell ts : Forall tok_wf ts -> lex [] (spell ts) = ts.
Proof.
  induction 1 as [|t ts Ht Hts IH]; [done|]. unfold spell in *. cbn. rewrite <-app_assoc.
  set (r := mjoin _) in *. assert (Hr : lex [] ([32] ++ r) = ts) by (rewrite lex_blanks; [done|by repeat constructor]).
  destruct t as [w|c|]; cbn in Ht.
  - destruct Ht as [Hne Hw]. cbn [spell_tok]. rewrite lex_word; [by rewrite Hr| |done|done].
    eapply Forall_impl; [exact Hw|]. by intros ? [].
  - cbn [spell_tok app]. rewrite symbol_simple, orb_true_iff, Z.eqb_eq in Ht. destruct Ht as [Ht| ->].
    + rewrite lex_symbol by done. f_equal. exact Hr.
    + rewrite lex_out by done. f_equal. exact Hr.
  - change (lex [] (ch ">" :: ch ">" :: [32] ++ r) = TApp :: ts). by rewrite lex_append, Hr.
Qed.
Lemma spell_nonzero ts : Forall tok_wf ts -> 0 ∉ spell ts.
Proof.
  induction 1 as [|t ts Ht Hts IH]; [apply not_elem_of_nil|]. unfold spell in *. cbn.
  rewrite !elem_of_app. intros [[Hin|Hin]|Hin]; [|set_solver|done].
  destruct t as [w|c|]; cbn in *.
  - destruct Ht as [_ Hw]. rewrite Forall_forall in Hw. by apply (Hw 0).
  - apply list_elem_of_singleton in Hin as <-. by vm_compute in Ht.
  - vm_compute in Hin. set_solver.
Qed.

Lemma parsecmd_spelled (l : line) (pad : list Z) : short_line l -> Forall tok_wf (print_line l) ->
  exists c buf, parsecmd (spell (print_line l) ++ 0 :: pad) = Ok (c, buf) /\ terminated buf c = line_tree l.
Proof.
  intros Hs Hwf. pose proof (parsecmd_spec (spell (print_line l)) pad (spell_nonzero _ Hwf)) as H.
  rewrite lex_spell in H by done.
  destruct (parsecmd _) as [[c buf]|[]]; [|by destruct (H l Hs)|done..].
  destruct H as (_ & l' & _ & _ & Ht & Hu). exists c, buf. split; [done|]. by rewrite (Hu l Hs eq_refl).
Qed.

(** [( a > b ; c ) | d & ; e] *)
Definition demo_line : line :=
  LSeq (PMore (Block (LSeq (POne (Simple [] [(chars "a", [(ROut, chars "b")])])) 0
                        (LEnd (POne (Simple [] [(chars "c", [])])) 0)) [])
              (POne (Simple [] [(chars "d", [])]))) 1
    (LEnd (POne (Simple [] [(chars "e", [])])) 0).
