(* ===== verification/ShRun.v ===== *)
(** The shell's main loop and the execution of commands: sh.c. *)

From stdpp Require Import base tactics numbers option list strings gmap sets.
From Stdlib Require Import ZArith Lia Ascii.
From S2P Require Import Prelude CString User Bytes Printf Uprog Sh ShLex ShParse ShFacts.

(** A format with a newline at its end. *)
(** [panic] of the shell. *)
Definition sh_panic {A} (s : string) : prog A := say_str 2 (nl "%s") (chars s);; exit.

Definition fork1 : prog Z :=
  pid ← call Fork;
  if pid =? -1 then sh_panic "fork" else mret pid.

(** [runcmd] with the buffer the command points into; it does not return. *)
Fixpoint runcmd {A} (buf : list Z) (c : cmd) : prog A :=
  let str q := cstr (drop q buf) in
  match c with
  | EXEC [] => exit
  | EXEC (((q, _) :: _) as args) =>
      call (Exec (str q) ((fun a => str a.1) <$> args));;
      say_str 2 (nl "exec %s failed") (str q);;
      exit
  | REDIR c file efile mode fd =>
      call (Close fd);;
      r ← call (Open (str file) mode);
      if r <? 0 then say_str 2 (nl "open %s failed") (str file);; exit else
      runcmd buf c
  | LIST l r =>
      pid ← fork1;
      if pid =? 0 then runcmd buf l else
      call Wait;;
      runcmd buf r
  | PIPE l r =>
      p ← call Pipe;
      match p with
      | None => sh_panic "pipe"
      | Some (p0, p1) =>
          pid ← fork1;
          if pid =? 0 then
            call (Close 1);; call (Dup p1);; call (Close p0);; call (Close p1);;
            runcmd buf l
          else
          pid ← fork1;
          if pid =? 0 then
            call (Close 0);; call (Dup p0);; call (Close p0);; call (Close p1);;
            runcmd buf r
          else
          call (Close p0);; call (Close p1);;
          call Wait;; call Wait;;
          exit
      end
  | BACK c =>
      pid ← fork1;
      if pid =? 0 then runcmd buf c else exit
  end.

(** * The main loop *)

Definition BUFSIZE : nat := 100.

(** [getcmd]: the buffer after a prompt and a line of input, or [None] for end of file. *)
Definition getcmd : prog (option (list Z)) :=
  say 2 "$ ";;
  s ← ugets BUFSIZE;
  let buf := s ++ replicate (BUFSIZE - length s) 0 in
  mret (if decide (head buf = Some 0) then None else Some buf).

(** A string literal with its NUL, and [strncmp(p, q, n) == 0]. *)
Definition lit (s : string) : list Z := chars s ++ [0].
Definition same_prefix (p q : list Z) (n : nat) : bool :=
  match strncmp p q n with Some r => r =? 0 | None => false end.

(** [setbuiltin] and [getbuiltin]: [p] is the command line. *)
Definition setbuiltin (p : list Z) : prog Z :=
  let bad := say 2 (nl "Invalid _set parameter");; mret (-1) in
  let p := skip_spaces (drop 4 p) in
  if same_prefix (lit "uid") p 3 then
    let p := skip_spaces (drop 3 p) in
    rc ← call (Setuid (atoi p));
    if rc =? 0 then mret 0 else bad
  else if same_prefix (lit "gid") p 3 then
    let p := skip_spaces (drop 3 p) in
    rc ← call (Setgid (atoi p));
    if rc =? 0 then mret 0 else bad
  else bad.
Definition getbuiltin (p : list Z) : prog Z :=
  let p := skip_spaces (drop 4 p) in
  if same_prefix (lit "uid") p 3 then
    u ← call Getuid; say_int 2 (nl "%d") u;; mret 0
  else if same_prefix (lit "gid") p 3 then
    g ← call Getgid; say_int 2 (nl "%d") g;; mret 0
  else say 2 (nl "Invalid _get parameter");; mret (-1).

(** [fdt] and [dobuiltin]: every entry whose name the line begins with runs. *)
Definition fdt : list (list Z * (list Z -> prog Z)) :=
  [(chars "_set", setbuiltin); (chars "_get", getbuiltin)].
Fixpoint dobuiltin_from (fdt : list (list Z * (list Z -> prog Z))) (cmd : list Z) : prog unit :=
  match fdt with
  | [] => mret tt
  | (name, f) :: fdt =>
      (if same_prefix cmd (name ++ [0]) (length name) then f cmd;; mret tt else mret tt);;
      dobuiltin_from fdt cmd
  end.
Definition dobuiltin (cmd : list Z) : prog unit := dobuiltin_from fdt cmd.

(** The tests of the loop on the line in the buffer. *)
Definition is_cd (buf : list Z) : bool := bool_decide (take 3 buf = chars "cd ").
Definition is_exit (buf : list Z) : bool :=
  negb (bool_decide (head buf = Some 10)) && same_prefix buf (lit "exit") (length (cstr buf) - 1).
Definition is_builtin (buf : list Z) : bool := bool_decide (head buf = Some (ch "_")).

(** [runcmd(parsecmd(buf))]. *)
Definition run_line {A} (buf : list Z) : prog A :=
  match parsecmd buf with
  | Ok (c, buf) => runcmd buf c
  | Err (EPanic msg) => sh_panic msg
  | Err e => Crash e
  end.

(** One round of the loop on a line. *)
Definition sh_round (buf : list Z) : prog unit :=
  if is_cd buf then
    let buf := <[(length (cstr buf) - 1)%nat := 0]> buf in
    r ← call (Chdir (cstr (drop 3 buf)));
    if r <? 0 then say_str 2 (nl "cannot cd %s") (cstr (drop 3 buf)) else mret tt
  else if is_exit buf then exit
  else if is_builtin buf then dobuiltin buf
  else
    pid ← fork1;
    if pid =? 0 then run_line buf else
    call Wait;;
    mret tt.

(** [main]: descriptors up to 2 are opened, then [rounds] lines are served at most. *)
Fixpoint sh_open (rounds : nat) : prog unit :=
  match rounds with
  | O => Crash EFuel
  | S rounds =>
      fd ← call (Open (chars "console") O_RDWR);
      if 0 <=? fd then
        if 3 <=? fd then call (Close fd);; mret tt else sh_open rounds
      else mret tt
  end.
Fixpoint sh_loop (rounds : nat) : prog unit :=
  match rounds with
  | O => Crash EFuel
  | S rounds =>
      line ← getcmd;
      match line with
      | None => mret tt
      | Some buf => sh_round buf;; sh_loop rounds
      end
  end.
Definition sh_main (rounds : nat) : prog unit := sh_open rounds;; sh_loop rounds;; exit.

(** What the shell starts for a command line, and with which descriptors: [runcmd] of sh.c
    against the meaning of descriptors. *)

(** * Descriptors *)

(** What a descriptor refers to: something the shell was started with, a file opened by name, or
    an end of the [n]th pipe that the process and its ancestors have made. *)
Inductive obj :=
  | OOld (k : Z)
  | OFile (path : list Z) (mode : Z)
  | OPipeR (n : nat)
  | OPipeW (n : nat).
Abbreviation fds := (gmap Z obj).
Definition NOFILE : Z := 16.

(** [open], [dup] and [pipe] hand out the lowest free descriptor. *)
Definition lowest (d : fds) (m : Z) : Prop :=
  0 <= m /\ d !! m = None /\ forall i, 0 <= i < m -> is_Some (d !! i).

(** A program image: path, arguments and descriptors. *)
Definition image : Type := list Z * list (list Z) * fds.

(** [execs p n d i]: with the descriptors [d], and [n] pipes made so far, [p] or a process
    descended from it may come to start the image [i].  Calls may fail for reasons that are
    not modelled; [dup] fails only on a closed descriptor or a full table. *)
Fixpoint execs {A} (p : prog A) (n : nat) (d : fds) (i : image) {struct p} : Prop :=
  match p with
  | Ret _ | Crash _ => False
  | Vis c k =>
      match c in scall R return (R -> nat -> fds -> Prop) -> Prop with
      | Fork => fun go => go 0 n d \/ (exists pid, 0 < pid /\ go pid n d) \/ go (-1) n d
      | Exit => fun _ => False
      | Pipe => fun go => go None n d \/ exists m0 m1,
          lowest d m0 /\ lowest (<[m0 := OPipeR n]> d) m1 /\ m1 < NOFILE /\
          go (Some (m0, m1)) (S n) (<[m1 := OPipeW n]> (<[m0 := OPipeR n]> d))
      | Close fd => fun go => go (if decide (is_Some (d !! fd)) then 0 else -1) n (delete fd d)
      | Dup fd => fun go =>
          (exists f m, d !! fd = Some f /\ lowest d m /\ m < NOFILE /\ go m n (<[m := f]> d)) \/
          ((d !! fd = None \/ exists m, lowest d m /\ NOFILE <= m) /\ go (-1) n d)
      | Open path mode => fun go => go (-1) n d \/ exists m,
          lowest d m /\ m < NOFILE /\ go m n (<[m := OFile path mode]> d)
      | Exec path argv => fun go => i = (path, argv, d) \/ go (-1) n d
      | Read _ _ => fun go => exists r, go r n d
      | Wait | Write _ _ | Kill _ | Mknod _ _ _ | Unlink _ | Link _ _ | Mkdir _ | Chdir _ | Sleep _ | Uptime
      | Halt | Getuid | Getgid | Setuid _ | Setgid _ | Getpid | Getppid | Sbrk _ | Setpriority _ _
      | Getpriority _ => fun go => exists r, go r n d
      | Fstat _ => fun go => exists r, go r n d
      | Date => fun go => exists r, go r n d
      | Getprocs _ => fun go => exists r, go r n d
      end (fun r n d => execs (k r) n d i)
  end.

(** * What a command line asks for *)

(** The images of a command tree: a redirection gives its descriptor the file; a pipe gives the
    left side its write end as descriptor 1, and the right side its read end as descriptor 0. *)
Fixpoint images (t : tree) (n : nat) (d : fds) (i : image) : Prop :=
  match t with
  | NExec [] => False
  | NExec ((path :: _) as argv) => i = (path, argv, d)
  | NRedir t file mode fd => images t n (<[fd := OFile file mode]> d) i
  | NPipe l r => images l (S n) (<[1 := OPipeW n]> d) i \/ images r (S n) (<[0 := OPipeR n]> d) i
  | NList l r => images l n d i \/ images r n d i
  | NBack t => images t n d i
  end.

(** Redirections of descriptors 0 and 1 only, as the parser makes them. *)
Fixpoint std_redirs (t : tree) : Prop :=
  match t with
  | NExec _ => True
  | NRedir t _ _ fd => (fd = 0 \/ fd = 1) /\ std_redirs t
  | NPipe l r | NList l r => std_redirs l /\ std_redirs r
  | NBack t => std_redirs t
  end.

(** * Programs without descriptors *)

Lemma execs_putcs {A} fd s (p : prog A) n d i : execs (putcs fd s;; p) n d i <-> execs p n d i.
Proof.
  induction s as [|c s IH]; [done|]. cbn. split; [intros [_ H]; by apply IH|exists 0; by apply IH].
Qed.
Lemma execs_printf {A} str fd fmt ap (p : prog A) n d i : execs (uprintf str fd fmt ap;; p) n d i -> execs p n d i.
Proof. unfold uprintf. destruct (printf str fmt ap) as [out|]; [apply execs_putcs|done]. Qed.
Lemma execs_exit {A} n d i : ~ execs (exit : prog A) n d i.
Proof. intros []. Qed.
Lemma execs_panic {A} s n d i : ~ execs (sh_panic s : prog A) n d i.
Proof. intros H. apply execs_printf in H. by apply execs_exit in H. Qed.
Lemma execs_panic_then {A B} s (f : A -> prog B) n d i : ~ execs (sh_panic s ≫= f) n d i.
Proof.
  unfold sh_panic, say_str, uprintf. destruct (printf _ _ _) as [out|]; [|intros []].
  induction out as [|c out IH]; [intros []|]. intros [z H]. by apply IH.
Qed.

Lemma execs_fork1 {A} (f : Z -> prog A) n d i :
  execs (fork1 ≫= f) n d i <-> execs (f 0) n d i \/ exists pid, 0 < pid /\ execs (f pid) n d i.
Proof.
  unfold fork1. split.
  - intros [H|[(pid & Hp & H)|H]]; [by left|right; exists pid; split; [done|]|by apply execs_panic_then in H].
    change (execs ((if pid =? -1 then sh_panic "fork" else mret pid) ≫= f) n d i) in H.
    by rewrite (proj2 (Z.eqb_neq pid (-1))) in H by lia.
  - intros [H|(pid & Hp & H)]; [by left|right; left; exists pid; split; [done|]].
    change (execs ((if pid =? -1 then sh_panic "fork" else mret pid) ≫= f) n d i).
    by rewrite (proj2 (Z.eqb_neq pid (-1))) by lia.
Qed.

(** A child that goes on with [p], a parent that goes on with [q]. *)
Lemma execs_fork_if {A} (p q : prog A) n d i :
  execs (pid ← fork1; if pid =? 0 then p else q) n d i <-> execs p n d i \/ execs q n d i.
Proof.
  rewrite execs_fork1. split.
  - intros [H|(pid & Hp & H)]; [by left|]. rewrite (proj2 (Z.eqb_neq pid 0)) in H by lia. by right.
  - intros [H|H]; [by left|]. right. exists 1. split; [lia|done].
Qed.

(** * Descriptors of a process with 0, 1 and 2 open *)

Definition std (d : fds) : Prop := dom d =@{gset Z} {[0; 1; 2]}.

Lemma std_spec d : std d -> is_Some (d !! 0) /\ is_Some (d !! 1) /\ is_Some (d !! 2) /\
  forall k, k <> 0 -> k <> 1 -> k <> 2 -> d !! k = None.
Proof.
  unfold std. intros Hd. split_and!; [apply (elem_of_dom (D := gset Z)); rewrite Hd; set_solver..|].
  intros k ???. apply (not_elem_of_dom (D := gset Z)). rewrite Hd. set_solver.
Qed.
Lemma std_insert d k o : std d -> k = 0 \/ k = 1 -> std (<[k := o]> d).
Proof. unfold std. intros Hd Hk. rewrite dom_insert_L, Hd. set_solver. Qed.

Lemma lowest_unique d m m' : lowest d m -> lowest d m' -> m = m'.
Proof.
  intros (Hm & Hn & Hl) (Hm' & Hn' & Hl'). destruct (Z.lt_trichotomy m m') as [H|[H|H]]; [|done|].
  - destruct (Hl' m) as [? ?]; [lia|congruence].
  - destruct (Hl m') as [? ?]; [lia|congruence].
Qed.
Lemma lowest_std d : std d -> lowest d 3.
Proof.
  intros (H0 & H1 & H2 & Hn)%std_spec. split_and!; [lia|by apply Hn|].
  intros i Hi. assert (i = 0 \/ i = 1 \/ i = 2) as [->|[->| ->]] by lia; done.
Qed.
Lemma lowest_std' d o : std d -> lowest (<[3 := o]> d) 4.
Proof.
  intros (H0 & H1 & H2 & Hn)%std_spec. split_and!; [lia|by rewrite lookup_insert_ne by done; apply Hn|].
  intros i Hi. assert (i = 0 \/ i = 1 \/ i = 2 \/ i = 3) as [->|[->|[->| ->]]] by lia;
    [by rewrite lookup_insert_ne by done..|by rewrite lookup_insert_eq].
Qed.
(** Closing descriptor 0 or 1 makes it the lowest free one. *)
Lemma lowest_closed d k : is_Some (d !! 0) -> k = 0 \/ k = 1 -> lowest (delete k d) k.
Proof.
  intros H0 Hk. split_and!; [lia|apply lookup_delete_eq|]. intros i Hi.
  assert (k = 1 /\ i = 0) as [-> ->] by lia. by rewrite lookup_delete_ne.
Qed.

(** [close(k); dup(p); close(3); close(4)] with the pipe on 3 and 4 leaves the old table with
    [k] replaced. *)
Lemma execs_plumb {A} (rest : prog A) n d (r w : obj) k p o i : std d -> k = 0 \/ k = 1 ->
  (<[4 := w]> (<[3 := r]> d)) !! p = Some o -> p = 3 \/ p = 4 ->
  execs (call (Close k);; call (Dup p);; call (Close 3);; call (Close 4);; rest) n (<[4 := w]> (<[3 := r]> d)) i <->
  execs rest n (<[k := o]> d) i.
Proof.
  intros Hstd Hk Hp Hp'. pose proof (std_spec d Hstd) as (H0 & H1 & H2 & Hn).
  set (d4 := <[4 := w]> (<[3 := r]> d)) in *.
  assert (Hlow : lowest (delete k d4) k).
  { apply lowest_closed; [|done]. subst d4. by rewrite !lookup_insert_ne. }
  assert (Hpk : delete k d4 !! p = Some o) by (rewrite lookup_delete_ne; [done|lia]).
  assert (Heq : delete 4 (delete 3 (<[k := o]> (delete k d4))) = <[k := o]> d).
  { subst d4. apply map_eq. intros j.
    destruct (decide (j = 4)) as [->|]; [rewrite lookup_delete_eq, lookup_insert_ne by lia; symmetry; by apply Hn|].
    rewrite lookup_delete_ne by done.
    destruct (decide (j = 3)) as [->|]; [rewrite lookup_delete_eq, lookup_insert_ne by lia; symmetry; by apply Hn|].
    rewrite lookup_delete_ne by done.
    destruct (decide (j = k)) as [->|]; [by rewrite !lookup_insert_eq|].
    rewrite !(lookup_insert_ne _ k) by done. rewrite lookup_delete_ne by done. by rewrite !lookup_insert_ne. }
  cbn [execs call mbind prog_bind prog_then]. split.
  - intros [(f & m & Hf & Hm & _ & H)|[[Hf|(m & Hm & Hmax)] H]].
    + rewrite Hpk in Hf. injection Hf as <-. rewrite (lowest_unique _ _ _ Hm Hlow) in H.
      unfold mret, prog_ret in H. cbn in H. by rewrite Heq in H.
    + congruence.
    + rewrite (lowest_unique _ _ _ Hm Hlow) in Hmax. unfold NOFILE in Hmax. lia.
  - intros H. left. exists o, k. split_and!; try done; [unfold NOFILE; lia|].
    unfold mret, prog_ret. cbn. by rewrite Heq.
Qed.

(** * [runcmd] starts what the command asks for *)

Lemma execs_redir {A} (p q : prog A) n d fd path mode i : std d -> fd = 0 \/ fd = 1 ->
  (forall n d, ~ execs q n d i) ->
  execs (call (Close fd);; r ← call (Open path mode); if r <? 0 then q else p) n d i <->
  execs p n (<[fd := OFile path mode]> d) i.
Proof.
  intros Hstd Hfd Hq. pose proof (std_spec d Hstd) as (H0 & _).
  pose proof (lowest_closed d fd H0 Hfd) as Hlow.
  cbn [execs call mbind prog_bind prog_then]. unfold mret, prog_ret. cbn. split.
  - intros [H|(m & Hm & _ & H)]; [by apply Hq in H|].
    rewrite (lowest_unique _ _ _ Hm Hlow) in H. rewrite insert_delete_eq in H.
    by destruct Hfd as [-> | ->].
  - intros H. right. exists fd. split_and!; [done|unfold NOFILE; lia|]. rewrite insert_delete_eq.
    by destruct Hfd as [-> | ->].
Qed.

Lemma execs_pipe {A} (f : option (Z * Z) -> prog A) n d i : std d -> (forall n d, ~ execs (f None) n d i) ->
  execs (call Pipe ≫= f) n d i <->
  execs (f (Some (3, 4))) (S n) (<[4 := OPipeW n]> (<[3 := OPipeR n]> d)) i.
Proof.
  intros Hstd Hnone. cbn [execs call mbind prog_bind prog_then]. split.
  - intros [H|(m0 & m1 & Hm0 & Hm1 & _ & H)]; [by apply Hnone in H|].
    rewrite (lowest_unique _ _ _ Hm0 (lowest_std d Hstd)) in *.
    by rewrite (lowest_unique _ _ _ Hm1 (lowest_std' d _ Hstd)) in H.
  - intros H. right. exists 3, 4. split_and!; [by apply lowest_std|by apply lowest_std'|unfold NOFILE; lia|done].
Qed.

Lemma execs_leave {A} n d i : ~ execs (call (Close 3);; call (Close 4);; call Wait;; call Wait;; exit : prog A) n d i.
Proof. cbn. intros (? & ? & H). done. Qed.
Lemma execs_wait {A} (p : prog A) n d i : execs (call Wait;; p) n d i <-> execs p n d i.
Proof. cbn. split; [by intros [_ H]|by exists 0]. Qed.

Lemma runcmd_images {A} buf c n d i : std d -> std_redirs (terminated buf c) ->
  execs (runcmd buf c : prog A) n d i <-> images (terminated buf c) n d i.
Proof.
  revert n d. induction c as [args|c IH q eq mode fd|l IHl r IHr|l IHl r IHr|c IH]; intros n d Hstd Hr.
  - destruct args as [|[q e] args]; [done|]. cbn -[say_str exit]. split; [|by left].
    intros [H|H]; [done|]. apply execs_printf in H. by apply execs_exit in H.
  - destruct Hr as [Hfd Hr]. cbn [runcmd]. rewrite execs_redir; [|done|done|].
    + apply IH; [by apply std_insert|done].
    + intros n' d' H. apply execs_printf in H. by apply execs_exit in H.
  - destruct Hr as [Hl Hr]. cbn [runcmd]. rewrite execs_pipe; [|done|intros ? ?; apply execs_panic].
    cbv iota beta. rewrite !execs_fork_if. cbn [terminated images].
    rewrite (execs_plumb _ (S n) d (OPipeR n) (OPipeW n) 1 4 (OPipeW n)); [|auto..].
    rewrite (execs_plumb _ (S n) d (OPipeR n) (OPipeW n) 0 3 (OPipeR n)); [|auto..].
    + rewrite IHl, IHr by auto using std_insert.
      split; [intros [H|[H|H]]; [auto..|by apply execs_leave in H]|tauto].
    + by rewrite lookup_insert_ne, lookup_insert_eq.
    + by rewrite lookup_insert_eq.
  - destruct Hr as [Hl Hr]. cbn [runcmd]. rewrite execs_fork_if, execs_wait. cbn. by rewrite IHl, IHr.
  - cbn [runcmd]. rewrite execs_fork_if. cbn. rewrite IH by done. split; [intros [?|[]]; done|auto].
Qed.

(** * Lines *)

Lemma std_wrap rs t : std_redirs t -> std_redirs (foldl wrap t rs).
Proof.
  revert t. induction rs as [|[k w] rs IH]; intros t Ht; [done|]. apply IH. destruct k; cbn; auto.
Qed.
Lemma std_add_word t w : std_redirs t -> std_redirs (add_word t w).
Proof. induction t; cbn; naive_solver. Qed.
Lemma std_args args t : std_redirs t -> std_redirs (foldl add_arg_redirs t args).
Proof.
  revert t. induction args as [|a args IH]; intros t Ht; [done|]. apply IH, std_wrap. by apply std_add_word.
Qed.
Lemma std_backs n t : std_redirs t -> std_redirs (backs n t).
Proof. revert t. induction n as [|n IH]; intros t Ht; [done|]. by apply IH. Qed.

Scheme line_mut := Induction for line Sort Prop
  with pipeline_mut := Induction for pipeline Sort Prop
  with exec_mut := Induction for exec Sort Prop.

Lemma std_line l : std_redirs (line_tree l).
Proof.
  apply (line_mut (fun l => std_redirs (line_tree l)) (fun p => std_redirs (pipeline_tree p))
    (fun e => std_redirs (exec_tree e))); cbn; intros;
    auto using std_wrap, std_backs.
  by apply std_args, std_wrap.
Qed.


(** The descriptors of a shell that [init] has started. *)
Definition demo_fds : fds := <[0 := OOld 0]> (<[1 := OOld 1]> {[2 := OOld 2]}).

