(* ===== verification/Grep.v ===== *)
(** The pattern matcher and the line filter: grep.c.

    Patterns and lines are C strings, here lists without the NUL, so that a character read at
    the NUL is the end of the list. *)

From stdpp Require Import base tactics numbers option list sets strings.
From Stdlib Require Import ZArith Lia Ascii.
From S2P Require Import Prelude CString User Printf Uprog.

(** * The matcher *)

(** [matchstar(c, re, text)], [here] being [matchhere] of [re]. *)
Fixpoint matchstar (here : list Z -> bool) (c : Z) (text : list Z) : bool :=
  if here text then true else
  match text with
  | [] => false
  | t :: text => if (t =? c) || (c =? ch ".") then matchstar here c text else false
  end.

Fixpoint matchhere (re text : list Z) {struct re} : bool :=
  match re with
  | [] => true
  | c :: re1 =>
      let plain :=
        if (c =? ch "$") && bool_decide (re1 = []) then bool_decide (text = [])
        else match text with
             | [] => false
             | t :: text => if (c =? ch ".") || (c =? t) then matchhere re1 text else false
             end in
      match re1 with
      | s :: re2 => if s =? ch "*" then matchstar (matchhere re2) c text else plain
      | [] => plain
      end
  end.

(** The loop of [match] over the places where a match may start, the end included. *)
Fixpoint match_from (re text : list Z) : bool :=
  if matchhere re text then true else
  match text with [] => false | _ :: text => match_from re text end.
Definition match_ (re text : list Z) : bool :=
  match re with
  | c :: re1 => if c =? ch "^" then matchhere re1 text else match_from re text
  | [] => match_from re text
  end.

(** * The filter *)

Definition BUF : nat := Z.to_nat 1024.

(** The loop over the lines in the buffer from [p] on: what is written, and where [p] ends up.
    The fuel is the number of characters. *)
Fixpoint grep_lines (fuel : nat) (pattern p : list Z) : prog (list Z) :=
  match fuel with
  | O => Crash EFuel
  | S fuel =>
      match strchr (p ++ [0]) 10 with
      | Some (Some q) =>
          let line := take (length (p ++ [0]) - length q) p in
          (if match_ pattern line then call (Write 1 (line ++ [10]));; mret tt else mret tt);;
          grep_lines fuel pattern (drop (S (length line)) p)
      | _ => mret p
      end
  end.

(** [grep]: [kept] are the [m] bytes at the start of the buffer. *)
Fixpoint grep_loop (fuel : nat) (pattern : list Z) (fd : Z) (kept : list Z) : prog unit :=
  match fuel with
  | O => Crash EFuel
  | S fuel =>
      r ← call (Read fd (Z.of_nat (BUF - length kept - 1)));
      match r with
      | Some ((_ :: _) as bytes) =>
          let buf := kept ++ bytes in
          p ← grep_lines (S (length buf)) pattern buf;
          grep_loop fuel pattern fd (if (length p =? length buf)%nat then [] else p)
      | _ => mret tt
      end
  end.
Definition grep (fuel : nat) (pattern : list Z) (fd : Z) : prog unit := grep_loop fuel pattern fd [].

(** [main] for the arguments [argv]. *)
Fixpoint grep_files (fuel : nat) (pattern : list Z) (files : list (list Z)) : prog unit :=
  match files with
  | [] => mret tt
  | name :: files =>
      fd ← call (Open name 0);
      if fd <? 0 then say_str 1 ("grep: cannot open %s" +:+ String "010" "") name;; exit else
      grep fuel pattern fd;;
      call (Close fd);;
      grep_files fuel pattern files
  end.
Definition grep_main (fuel : nat) (argv : list (list Z)) : prog unit :=
  match argv with
  | _ :: pattern :: [] => grep fuel pattern 0;; exit
  | _ :: pattern :: files => grep_files fuel pattern files;; exit
  | _ => say 2 ("usage: grep pattern [file ...]" +:+ String "010" "");; exit
  end.

(** What grep.c finds: its matcher against the language of a pattern, its filter against the
    lines of the input. *)

(** * Patterns and their languages *)

Inductive sym := Any | Lit (c : Z).
Inductive item := One (s : sym) | Many (s : sym).

Definition sat (s : sym) (c : Z) : Prop := match s with Any => True | Lit d => d = c end.
Definition sym_of (c : Z) : sym := if c =? ch "." then Any else Lit c.

(** The items of a pattern behind its [^], and whether it ends in [$]. *)
Fixpoint items (re : list Z) : list item * bool :=
  match re with
  | [] => ([], false)
  | c :: re1 =>
      let plain :=
        if (c =? ch "$") && bool_decide (re1 = []) then ([], true)
        else (One (sym_of c) :: (items re1).1, (items re1).2) in
      match re1 with
      | s :: re2 => if s =? ch "*" then (Many (sym_of c) :: (items re2).1, (items re2).2) else plain
      | [] => plain
      end
  end.

(** The strings a list of items stands for. *)
Inductive lang : list item -> list Z -> Prop :=
  | lang_nil : lang [] []
  | lang_one s r c w : sat s c -> lang r w -> lang (One s :: r) (c :: w)
  | lang_many s r u w : Forall (sat s) u -> lang r w -> lang (Many s :: r) (u ++ w).

(** [re], behind its [^], matches at the start of [text]. *)
Definition matches_here (re text : list Z) : Prop :=
  exists b c, text = b ++ c /\ lang (items re).1 b /\ ((items re).2 = true -> c = []).

(** [re] matches somewhere in [text], at the start if it begins with [^]. *)
Definition matches (re text : list Z) : Prop :=
  match re with
  | c :: re1 => if c =? ch "^" then matches_here re1 text
                else exists a r, text = a ++ r /\ matches_here re r
  | [] => exists a r, text = a ++ r /\ matches_here re r
  end.

Lemma sat_spec c t : (t =? c) || (c =? ch ".") = true <-> sat (sym_of c) t.
Proof.
  unfold sym_of. rewrite orb_true_iff, !Z.eqb_eq.
  destruct (Z.eqb_spec c (ch ".")); cbn; naive_solver.
Qed.

Lemma matchstar_spec here c text : matchstar here c text = true <->
  exists u r, text = u ++ r /\ Forall (sat (sym_of c)) u /\ here r = true.
Proof.
  induction text as [|t text IH]; cbn [matchstar].
  - destruct (here []) eqn:Hh; split; try done.
    + intros _. by exists [], [].
    + intros ([|x u] & r & He & _ & Hr); [|done]. cbn in He. subst r. congruence.
  - destruct (here (t :: text)) eqn:Hh; split; try done.
    + intros _. by exists [], (t :: text).
    + destruct ((t =? c) || (c =? ch ".")) eqn:Hs; [|done]. apply sat_spec in Hs.
      rewrite IH. intros (u & r & -> & Hu & Hr). exists (t :: u), r. auto.
    + intros ([|x u] & r & He & Hu & Hr); [cbn in He; subst r; congruence|].
      cbn in He. injection He as <- He. apply Forall_cons in Hu as [Hx Hu].
      apply sat_spec in Hx as ->. apply IH. eauto.
Qed.

Lemma lang_one_inv s r w : lang (One s :: r) w <-> exists c w', w = c :: w' /\ sat s c /\ lang r w'.
Proof. split; [inversion 1; subst; eauto|]. intros (c & w' & -> & ? & ?). by constructor. Qed.
Lemma lang_many_inv s r w : lang (Many s :: r) w <-> exists u w', w = u ++ w' /\ Forall (sat s) u /\ lang r w'.
Proof. split; [inversion 1; subst; eauto|]. intros (u & w' & -> & ? & ?). by constructor. Qed.
Lemma lang_nil_inv w : lang [] w <-> w = [].
Proof. split; [by inversion 1|intros ->; constructor]. Qed.

(** A pattern without [*] behind its first character. *)
Definition plain_head (re1 : list Z) : Prop := match re1 with s :: _ => s <> ch "*" | [] => True end.

Lemma matches_star c re2 text :
  matches_here (c :: ch "*" :: re2) text <-> exists u r, text = u ++ r /\ Forall (sat (sym_of c)) u /\ matches_here re2 r.
Proof.
  unfold matches_here. cbn. setoid_rewrite lang_many_inv. split.
  - intros (b & r & -> & (u & w & -> & Hu & Hw) & Hd). exists u, (w ++ r). rewrite <-app_assoc. eauto 7.
  - intros (u & r & -> & Hu & b & c' & -> & Hb & Hd). exists (u ++ b), c'. rewrite <-app_assoc. eauto 7.
Qed.
Lemma items_plain c re1 : plain_head re1 ->
  items (c :: re1) = if (c =? ch "$") && bool_decide (re1 = []) then ([], true)
                     else (One (sym_of c) :: (items re1).1, (items re1).2).
Proof. destruct re1 as [|s re2]; cbn; [done|]. intros Hs. by rewrite (proj2 (Z.eqb_neq s _)) by done. Qed.
Lemma matchhere_plain c re1 text : plain_head re1 ->
  matchhere (c :: re1) text = if (c =? ch "$") && bool_decide (re1 = []) then bool_decide (text = [])
    else match text with
         | [] => false
         | t :: text => if (c =? ch ".") || (c =? t) then matchhere re1 text else false
         end.
Proof. destruct re1 as [|s re2]; cbn; [done|]. intros Hs. by rewrite (proj2 (Z.eqb_neq s _)) by done. Qed.

Lemma matchhere_spec re text : matchhere re text = true <-> matches_here re text.
Proof.
  assert (H : forall n re text, (length re <= n)%nat -> matchhere re text = true <-> matches_here re text);
    [|by eapply H]. clear re text.
  induction n as [|n IH]; intros [|c re1] text Hn; cbn in Hn; try lia.
  1,2: split; [intros _; exists [], text; cbn; by rewrite lang_nil_inv|done].
  assert (Hcase : (exists re2, re1 = ch "*" :: re2) \/ plain_head re1).
  { destruct re1 as [|s re2]; [by right|]. destruct (decide (s = ch "*")) as [->|]; [left|right]; eauto. }
  destruct Hcase as [[re2 ->]|Hp].
  { cbn in Hn. rewrite matches_star. change (matchhere (c :: ch "*" :: re2) text) with (matchstar (matchhere re2) c text).
    rewrite matchstar_spec. by setoid_rewrite (IH re2); [|lia..]. }
  unfold matches_here. rewrite matchhere_plain, items_plain by done.
  destruct ((c =? ch "$") && bool_decide (re1 = [])); cbn [fst snd].
  { rewrite bool_decide_eq_true. setoid_rewrite lang_nil_inv. split.
    - intros ->. by exists [], [].
    - intros (b & r & -> & -> & Hr). by rewrite Hr. }
  setoid_rewrite lang_one_inv. destruct text as [|t text].
  { split; [done|]. intros (b & r & He & (d & w & -> & _) & _). done. }
  rewrite orb_comm, (Z.eqb_sym c t).
  destruct ((t =? c) || (c =? ch ".")) eqn:Hs.
  - apply sat_spec in Hs. rewrite IH by lia. unfold matches_here. split.
    + intros (b & r & -> & Hb & Hd). exists (t :: b), r. eauto 8.
    + intros (b & r & He & (d & w & -> & _ & Hw) & Hd). cbn in He. injection He as <- ->. eauto.
  - split; [done|]. intros (b & r & He & (d & w & -> & Hd & Hw) & _). cbn in He. injection He as <- ->.
    apply sat_spec in Hd. congruence.
Qed.

Lemma match_from_spec re text : match_from re text = true <-> exists a r, text = a ++ r /\ matches_here re r.
Proof.
  induction text as [|t text IH]; cbn [match_from]; destruct (matchhere re _) eqn:Hh.
  - split; [|done]. intros _. exists [], []. by rewrite <-matchhere_spec.
  - split; [done|]. intros ([|x a] & r & He & Hr); [|done]. cbn in He. subst r.
    apply matchhere_spec in Hr. congruence.
  - split; [|done]. intros _. exists [], (t :: text). by rewrite <-matchhere_spec.
  - rewrite IH. split.
    + intros (a & r & -> & Hr). by exists (t :: a), r.
    + intros ([|x a] & r & He & Hr); cbn in He; [subst r; apply matchhere_spec in Hr; congruence|].
      injection He as <- ->. eauto.
Qed.

Lemma match_spec re text : match_ re text = true <-> matches re text.
Proof.
  unfold match_, matches. destruct re as [|c re1]; [apply match_from_spec|].
  destruct (c =? ch "^"); [apply matchhere_spec|apply match_from_spec].
Qed.

(** C30: the recursive matcher decides the language of the pattern: [match] answers yes exactly
    when some part of the line, at its start if the pattern begins with [^] and at its end if it
    ends in [$], is a string of the pattern's items, where [.] stands for any character and [x*]
    for any number of [x]. *)
Theorem match_decides (re text : list Z) : match_ re text = true <-> matches re text.
Proof. apply match_spec. Qed.

(** * The filter *)

(** The lines of [s] that match, each with its newline; [line] is the start of the first one.
    What follows the last newline is not a line. *)
Fixpoint matching_lines (re line s : list Z) : list Z :=
  match s with
  | [] => []
  | c :: s =>
      if c =? 10 then (if match_ re line then line ++ [10] else []) ++ matching_lines re [] s
      else matching_lines re (line ++ [c]) s
  end.

(** No line is as long as the buffer. *)
Fixpoint lines_fit (n : nat) (s : list Z) : Prop :=
  match s with
  | [] => True
  | c :: s => if c =? 10 then lines_fit 0 s else (S n < BUF - 1)%nat /\ lines_fit (S n) s
  end.

Lemma matching_skip re line u s : 10 ∉ u -> matching_lines re line (u ++ s) = matching_lines re (line ++ u) s.
Proof.
  revert line. induction u as [|c u IH]; intros line Hu; cbn; [by rewrite app_nil_r|].
  rewrite (proj2 (Z.eqb_neq c 10)) by set_solver. rewrite IH by set_solver. by rewrite <-app_assoc.
Qed.
Lemma matching_none re line u : 10 ∉ u -> matching_lines re line u = [].
Proof. intros Hu. rewrite <-(app_nil_r u), matching_skip by done. done. Qed.
Lemma lines_fit_skip n u s : 10 ∉ u -> lines_fit n (u ++ s) ->
  (u = [] \/ n + length u < BUF - 1)%nat /\ lines_fit (n + length u) s.
Proof.
  revert n. induction u as [|c u IH]; intros n Hu; cbn [app lines_fit length]; [rewrite Nat.add_0_r; auto|].
  rewrite (proj2 (Z.eqb_neq c 10)) by set_solver. intros [Hn Hf].
  destruct (IH (S n) ltac:(set_solver) Hf) as [Hl Hf']. rewrite <-Nat.add_succ_comm. split; [|done].
  right. destruct Hl as [->|]; cbn [length] in *; lia.
Qed.

(** The first line in the buffer. *)
Lemma first_line p : 0 ∉ p -> 10 ∈ p -> exists u r, p = u ++ 10 :: r /\ 10 ∉ u.
Proof.
  intros Hz. induction p as [|c p IH]; [by intros ?%elem_of_nil|]. intros Hin.
  destruct (decide (c = 10)) as [->|Hne]; [exists [], p; set_solver|].
  destruct IH as (u & r & -> & Hu); [set_solver..|]. exists (c :: u), r. set_solver.
Qed.
Lemma strchr_line u r : 0 ∉ u -> 10 ∉ u -> strchr ((u ++ 10 :: r) ++ [0]) 10 = Some (Some (10 :: r ++ [0])).
Proof.
  intros Hz Hn. induction u as [|c u IH]; [done|]. cbn.
  rewrite (proj2 (Z.eqb_neq c 0)), (proj2 (Z.eqb_neq c 10)) by set_solver. apply IH; set_solver.
Qed.
Lemma strchr_none p c : 0 ∉ p -> c ∉ p -> strchr (p ++ [0]) c = Some None.
Proof.
  intros Hz Hn. induction p as [|d p IH]; [done|]. cbn.
  rewrite (proj2 (Z.eqb_neq d 0)), (proj2 (Z.eqb_neq d c)) by set_solver. apply IH; set_solver.
Qed.

(** The loop over a buffer writes its matching lines and stops behind the last newline. *)
Lemma grep_lines_run re fuel p input : 0 ∉ p -> (length p < fuel)%nat ->
  exists o r, run_filter 1 (grep_lines fuel re p) input = Some (o, (Some r, input)) /\ 10 ∉ r /\
    (exists u, p = u ++ r /\ (10 ∈ p -> (length r < length p)%nat) /\ (10 ∉ p -> r = p)) /\
    (forall s, matching_lines re [] (p ++ s) = o ++ matching_lines re [] (r ++ s)) /\
    (forall s, lines_fit 0 (p ++ s) -> lines_fit 0 (r ++ s)).
Proof.
  revert p. induction fuel as [|fuel IH]; intros p Hz Hf; [lia|]. cbn [grep_lines].
  destruct (decide (10 ∈ p)) as [Hin|Hnin].
  2:{ rewrite strchr_none by done. exists [], p. split; [done|]. split_and!; try done. by exists []. }
  destruct (first_line p Hz Hin) as (u & r & -> & Hu). rewrite strchr_line by set_solver.
  replace (take _ (u ++ 10 :: r)) with u.
  2:{ rewrite !length_app. cbn. rewrite length_app. cbn. rewrite take_app_length'; [done|lia]. }
  replace (drop (S (length u)) (u ++ 10 :: r)) with r.
  2:{ rewrite drop_app_ge by lia. by replace (S (length u) - length u)%nat with 1%nat by lia. }
  destruct (IH r) as (o & r' & Hrun & Hn & (u' & -> & Hlt & Heq) & Hm & Hl);
    [set_solver|rewrite length_app in Hf; cbn in Hf; lia|].
  exists ((if match_ re u then u ++ [10] else []) ++ o), r'. split_and!.
  - rewrite (run_filter_bind _ _ _ _ (if match_ re u then u ++ [10] else []) tt input).
    + by rewrite Hrun.
    + destruct (match_ re u); [|done]. cbn. by rewrite app_nil_r.
  - done.
  - exists (u ++ 10 :: u'). split; [by rewrite <-app_assoc|]. split; [|set_solver].
    intros _. rewrite !length_app. cbn. rewrite length_app. lia.
  - intros s. rewrite <-app_assoc. cbn [app]. rewrite matching_skip by done. cbn. by rewrite Hm, <-app_assoc.
  - intros s. rewrite <-app_assoc. cbn [app]. intros H. apply lines_fit_skip in H as [_ H]; [|done]. cbn in H.
    by apply Hl.
Qed.

(** A file is read piece by piece; [kept] is the start of a line. *)
Lemma grep_loop_run re fd fuel kept data : 0 ∉ kept ++ data -> 10 ∉ kept ->
  lines_fit 0 (kept ++ data) -> (length data + 1 < fuel)%nat ->
  exists input, run_filter 1 (grep_loop fuel re fd kept) [data] =
    Some (matching_lines re [] (kept ++ data), (Some tt, input)).
Proof.
  revert kept data. induction fuel as [|fuel IH]; intros kept data Hz Hk Hfit Hf; [lia|].
  cbn [grep_loop]. remember (BUF - length kept - 1)%nat as n eqn:En.
  assert (Hn : (0 < n)%nat).
  { apply lines_fit_skip in Hfit as [[->|Hl] _]; [|cbn in Hl|done]; cbn [length] in *; unfold BUF in *; lia. }
  cbn [mbind prog_bind prog_then call run_filter]. rewrite Nat2Z.id.
  destruct data as [|c data].
  { exists []. cbn. rewrite app_nil_r. by rewrite matching_none. }
  cbn [next_piece]. destruct (take n (c :: data)) as [|b bytes] eqn:Htk; [destruct n; [lia|done]|].
  assert (Hsplit : c :: data = b :: bytes ++ drop n (c :: data)) by (rewrite <-(take_drop n (c :: data)) at 1; by rewrite Htk).
  assert (Hlen : (length (b :: bytes) <= n)%nat) by (rewrite <-Htk, length_take; lia).
  set (rest := drop n (c :: data)) in *. set (buf := kept ++ b :: bytes).
  assert (Hbuf : kept ++ c :: data = buf ++ rest) by (subst buf; rewrite Hsplit, <-app_assoc; done).
  rewrite Hbuf in *. cbn [mret prog_ret].
  destruct (grep_lines_run re (S (length buf)) buf [rest]) as (o & r & Hrun & Hr & (u & Hu & Hlt & Heq) & Hm & Hl);
    [set_solver|lia|].
  change (exists input, run_filter 1 (p ← grep_lines (S (length buf)) re buf;
    grep_loop fuel re fd (if (length p =? length buf)%nat then [] else p)) [rest] =
    Some (matching_lines re [] (buf ++ rest), (Some tt, input))).
  erewrite run_filter_bind; [|exact Hrun].
  assert (Hfuel : (length rest + 1 < fuel)%nat).
  { apply (f_equal length) in Hsplit. cbn in Hsplit, Hf. rewrite length_app in Hsplit. lia. }
  destruct (decide (10 ∈ buf)) as [Hin|Hnin].
  - rewrite (proj2 (Nat.eqb_neq (length r) (length buf))) by (specialize (Hlt Hin); lia).
    destruct (IH r rest) as [input ->]; [rewrite Hu, <-app_assoc in Hz; set_solver|done|by apply Hl|done|].
    exists input. by rewrite Hm.
  - rewrite (Heq Hnin), Nat.eqb_refl.
    assert (Hrest : rest = []).
    { apply lines_fit_skip in Hfit as [[Hb|Hb] _]; [by destruct kept| |done].
      assert (Hlb : (length buf < n + length kept)%nat) by (unfold BUF in *; lia).
      subst buf rest. rewrite length_app in Hlb. apply drop_ge.
      assert (length (take n (c :: data)) < n)%nat by (rewrite Htk; lia). rewrite length_take in H. lia. }
    destruct (IH [] rest) as [input ->]; [set_solver|set_solver|by rewrite Hrest|done|].
    specialize (Hm []). rewrite (Heq Hnin), app_nil_r, matching_none, app_nil_r in Hm by done. subst o.
    exists input. by rewrite Hrest, (app_nil_r buf), (matching_none re [] buf).
Qed.

(** C31: run on a file whose lines are shorter than the buffer and hold no NUL, [grep] writes
    exactly the lines that match, in order, each with its newline, however the file falls into
    buffers; it ends, with one read more than there are bytes as a bound. *)
Theorem grep_filters (re data : list Z) (fd : Z) : 0 ∉ data -> lines_fit 0 data ->
  exists input, run_filter 1 (grep (length data + 2) re fd) [data] =
    Some (matching_lines re [] data, (Some tt, input)).
Proof. intros Hz Hfit. apply (grep_loop_run re fd _ [] data); [done|set_solver|done|lia]. Qed.

Definition demo_text : list Z := chars "to be" ++ [10] ++ chars "or not" ++ [10] ++ chars "that".

Lemma grep_filters_witness : 0 ∉ demo_text /\ exists input,
  run_filter 1 (grep (length demo_text + 2) (chars "^t.*e$") 3) [demo_text] =
    Some (chars "to be" ++ [10], (Some tt, input)).
Proof.
  assert (Hz : 0 ∉ demo_text) by (rewrite <-(bool_decide_spec (0 ∈ demo_text)); by vm_compute).
  split; [exact Hz|].
  replace (chars "to be" ++ [10]) with (matching_lines (chars "^t.*e$") [] demo_text) by (by vm_compute).
  apply grep_filters; [exact Hz|]. unfold demo_text, chars. cbn. unfold BUF. repeat split; lia.
Defined.

(** On input that comes in pieces without a newline, as from a terminal or a pipe, the pieces
    before the newline are lost: the line [abc] does not match the pattern [a]. *)
Lemma grep_loses_pieces :
  run_filter 1 (grep 8 (chars "a") 0) [chars "ab"; chars "c" ++ [10]] = Some ([], (Some tt, [])) /\
  match_ (chars "a") (chars "abc") = true.
Proof. by vm_compute. Qed.
