(* ===== verification/Progs.v ===== *)
(** The small user programs: cat.c, wc.c, echo.c, rm.c, mkdir.c, ln.c, kill.c, init.c, zombie.c,
    halt.c, ls.c, date.c, time.c, stressfs.c, forktest.c and the printing of ps.c.

    [argv] holds C strings as lists without the NUL; loops whose length depends on what system calls
    return have fuel. *)

From stdpp Require Import base tactics numbers option list strings.
From Stdlib Require Import ZArith Lia Ascii.
From S2P Require Import Prelude CString User Printf Bytes Fs ProcInfo Cmos Uprog.

(** ** cat *)

Fixpoint cat (fuel : nat) (fd : Z) : prog unit :=
  match fuel with
  | O => Crash EFuel
  | S fuel =>
      r ← call (Read fd 512);
      match r with
      | None => say 1 (nl "cat: read error");; exit
      | Some [] => mret tt
      | Some buf =>
          w ← call (Write 1 buf);
          if negb (w =? Z.of_nat (length buf)) then say 1 (nl "cat: write error");; exit else cat fuel fd
      end
  end.
(** [main] of cat and wc: a filter on the standard input or on every file. *)
Fixpoint each_file (complaint : string) (f : Z -> list Z -> prog unit) (files : list (list Z)) : prog unit :=
  match files with
  | [] => exit
  | name :: files =>
      fd ← call (Open name 0);
      if fd <? 0 then say_str 1 complaint name;; exit else
      f fd name;; call (Close fd);; each_file complaint f files
  end.
Definition cat_main (fuel : nat) (argv : list (list Z)) : prog unit :=
  match argv with
  | [] | [_] => cat fuel 0;; exit
  | _ :: files => each_file (nl "cat: cannot open %s") (fun fd _ => cat fuel fd) files
  end.

(** ** wc *)

(** [l], [w], [c] and [inword] *)
Record counts := MkCounts { wc_l : Z; wc_w : Z; wc_c : Z; wc_inword : bool }.
Definition wc_blanks : list Z := [32; 13; 9; 10; 11; 0].
Definition wc_char (k : counts) (b : Z) : counts :=
  let c := s32 (wc_c k + 1) in
  let l := if b =? 10 then s32 (wc_l k + 1) else wc_l k in
  match strchr wc_blanks b with
  | Some (Some _) => MkCounts l (wc_w k) c false
  | _ => if negb (wc_inword k) then MkCounts l (s32 (wc_w k + 1)) c true else MkCounts l (wc_w k) c true
  end.
Fixpoint wc_loop (fuel : nat) (fd : Z) (name : list Z) (k : counts) : prog unit :=
  match fuel with
  | O => Crash EFuel
  | S fuel =>
      r ← call (Read fd 512);
      match r with
      | None => say 1 (nl "wc: read error");; exit
      | Some [] => sayf 1 (nl "%d %d %d %s") [PInt (wc_l k); PInt (wc_w k); PInt (wc_c k); PStr name]
      | Some buf => wc_loop fuel fd name (foldl wc_char k buf)
      end
  end.
Definition wc (fuel : nat) (fd : Z) (name : list Z) : prog unit := wc_loop fuel fd name (MkCounts 0 0 0 false).
Definition wc_main (fuel : nat) (argv : list (list Z)) : prog unit :=
  match argv with
  | [] | [_] => wc fuel 0 [];; exit
  | _ :: files => each_file (nl "wc: cannot open %s") (wc fuel) files
  end.

(** ** echo, rm, mkdir, ln, kill, zombie, halt *)

Fixpoint echo_args (args : list (list Z)) : prog unit :=
  match args with
  | [] => exit
  | a :: args => sayf 1 "%s%s" [PStr a; PStr (match args with [] => [10] | _ => [32] end)];; echo_args args
  end.
Definition echo_main (argv : list (list Z)) : prog unit := echo_args (tail argv).

(** The loop of rm and mkdir. *)
Fixpoint each_name (complaint : string) (f : list Z -> scall Z) (names : list (list Z)) : prog unit :=
  match names with
  | [] => exit
  | name :: names => r ← call (f name); if r <? 0 then say_str 2 complaint name;; exit else each_name complaint f names
  end.
Definition rm_main (argv : list (list Z)) : prog unit :=
  match argv with
  | [] | [_] => say 2 (nl "Usage: rm files...");; exit
  | _ :: names => each_name (nl "rm: %s failed to delete") Unlink names
  end.
Definition mkdir_main (argv : list (list Z)) : prog unit :=
  match argv with
  | [] | [_] => say 2 (nl "Usage: mkdir files...");; exit
  | _ :: names => each_name (nl "mkdir: %s failed to create") Mkdir names
  end.
Definition ln_main (argv : list (list Z)) : prog unit :=
  match argv with
  | [_; old; new] =>
      r ← call (Link old new);
      (if r <? 0 then sayf 2 (nl "link %s %s: failed") [PStr old; PStr new] else mret tt);; exit
  | _ => say 2 (nl "Usage: ln old new");; exit
  end.
Fixpoint kill_each (args : list (list Z)) : prog unit :=
  match args with [] => exit | a :: args => call (Kill (atoi a));; kill_each args end.
Definition kill_main (argv : list (list Z)) : prog unit :=
  match argv with
  | [] | [_] => say 2 (nl "usage: kill pid...");; exit
  | _ :: args => kill_each args
  end.
Definition zombie_main : prog unit := pid ← call Fork; (if 0 <? pid then call (Sleep 5);; mret tt else mret tt);; exit.
Definition halt_main : prog unit := call Halt;; exit.

(** ** init *)

Fixpoint init_wait (fuel : nat) (pid : Z) : prog unit :=
  match fuel with
  | O => Crash EFuel
  | S fuel =>
      wpid ← call Wait;
      if (0 <=? wpid) && negb (wpid =? pid) then say 1 (nl "zombie!");; init_wait fuel pid else mret tt
  end.
Fixpoint init_loop (fuel : nat) : prog unit :=
  match fuel with
  | O => Crash EFuel
  | S fuel =>
      say 1 (nl "init: starting sh");;
      pid ← call Fork;
      if pid <? 0 then say 1 (nl "init: fork failed");; exit else
      if pid =? 0 then call (Exec (chars "sh") [chars "sh"]);; say 1 (nl "init: exec sh failed");; exit else
      init_wait fuel pid;; init_loop fuel
  end.
Definition init_main (fuel : nat) : prog unit :=
  fd ← call (Open (chars "console") O_RDWR);
  (if fd <? 0 then call (Mknod (chars "console") 1 1);; call (Open (chars "console") O_RDWR);; mret tt else mret tt);;
  call (Dup 0);;
  call (Dup 0);;
  init_loop fuel.

(** ** ls *)

(** The C string at the start of an array. *)
Fixpoint until_nul (bs : list Z) : list Z := match bs with [] => [] | b :: bs => if b =? 0 then [] else b :: until_nul bs end.
(** The characters after the last slash, looked for from position [i] down. *)
Fixpoint after_slash (path : list Z) (i : nat) : list Z :=
  if bool_decide (path !! i = Some (ch "/")) then drop (S i) path else
  match i with O => path | S i => after_slash path i end.
Definition fmtname (path : list Z) : list Z :=
  let p := after_slash path (length path) in
  if (DIRSIZ <=? length p)%nat then p else p ++ replicate (DIRSIZ - length p) 32.

Definition ls_line (name : list Z) (st : stat) : prog unit :=
  sayf 1 (nl "%s %d %d %d") [PStr (fmtname name); PInt (st_type st); PInt (st_ino st); PInt (st_size st)].
(** [stat] of ulib.c *)
Definition ustat (n : list Z) : prog (option stat) :=
  fd ← call (Open n O_RDONLY);
  if fd <? 0 then mret None else
  r ← call (Fstat fd);
  call (Close fd);;
  mret r.
Fixpoint ls_dir (fuel : nat) (fd : Z) (path : list Z) : prog unit :=
  match fuel with
  | O => Crash EFuel
  | S fuel =>
      r ← call (Read fd 16);
      match r with
      | Some de =>
          if negb (length de =? 16)%nat then mret tt else
          if ld16 0 de =? 0 then ls_dir fuel fd path else
          let buf := path ++ [ch "/"] ++ until_nul (slice 2 14 de) in
          st ← ustat buf;
          match st with
          | None => say_str 1 (nl "ls: cannot stat %s") buf
          | Some st => ls_line buf st
          end;;
          ls_dir fuel fd path
      | None => mret tt
      end
  end.
Definition ls (fuel : nat) (path : list Z) : prog unit :=
  fd ← call (Open path 0);
  if fd <? 0 then say_str 2 (nl "ls: cannot open %s") path else
  r ← call (Fstat fd);
  match r with
  | None => say_str 2 (nl "ls: cannot stat %s") path;; call (Close fd);; mret tt
  | Some st =>
      (if (st_type st =? T_FILE) || (st_type st =? T_DEV) then ls_line path st
       else if st_type st =? T_DIR then
         if (512 <? length path + 1 + DIRSIZ + 1)%nat then say 1 (nl "ls: path too long") else ls_dir fuel fd path
       else mret tt);;
      call (Close fd);; mret tt
  end.
Fixpoint ls_each (fuel : nat) (args : list (list Z)) : prog unit :=
  match args with [] => exit | a :: args => ls fuel a;; ls_each fuel args end.
Definition ls_main (fuel : nat) (argv : list (list Z)) : prog unit :=
  match argv with
  | [] | [_] => ls fuel (chars ".");; exit
  | _ :: args => ls_each fuel args
  end.

(** ** date *)

Definition months : list string :=
  ["NULL"; "Jan"; "Feb"; "Mar"; "Apr"; "May"; "Jun"; "Jul"; "Aug"; "Sep"; "Oct"; "Nov"; "Dec"]%string.
Definition days : list string := ["Sun"; "Mon"; "Tue"; "Wed"; "Thu"; "Fri"; "Sat"]%string.
Definition dayofweek (y m d : Z) : Z :=
  let '(d, y) := if m <? 3 then (d + y, y - 1) else (d + (y - 2), y) in
  Z.rem (Z.quot (23 * m) 9 + d + 4 + Z.quot y 4 - Z.quot y 100 + Z.quot y 400) 7.
(** An array indexed with a number that may be too large. *)
Definition pick_name (names : list string) (i : Z) : prog (list Z) :=
  if i <? 0 then Crash EFault else
  match names !! Z.to_nat i with Some s => mret (chars s) | None => Crash EFault end.
Definition two_digits (x : Z) (fmt : string) : prog unit := (if x <? 10 then say 1 "0" else mret tt);; say_int 1 fmt x.
Definition date_main : prog unit :=
  r ← call Date;
  match r with
  | None => sayf 2 (nl "Error: date call failed. %s at line %d") [PStr (chars "date.c"); PInt 28];; exit
  | Some r =>
      let day := dayofweek (s32 (r_year r)) (s32 (r_month r)) (s32 (r_day r)) in
      dn ← pick_name days day;
      mn ← pick_name months (r_month r);
      sayf 1 "%s %s %d" [PStr dn; PStr mn; PInt (r_day r)];;
      say 1 " ";;
      two_digits (r_hour r) "%d:";;
      two_digits (r_minute r) "%d:";;
      (if r_second r <? 10 then say 1 "0" else mret tt);;
      sayf 1 (nl "%d UTC %d") [PInt (r_second r); PInt (r_year r)];;
      exit
  end.

(** ** time *)

(** [argv[1]] can be missing: [at0] is the string that lies at address 0. *)
Definition time_millis (mill : Z) : prog unit :=
  if mill <? 10 then say_int 1 (nl ".00%d seconds") mill
  else if mill <? 100 then say_int 1 (nl ".0%d seconds") mill
  else say_int 1 (nl ".%d seconds") mill.
Definition time_main (at0 : list Z) (argv : list (list Z)) : prog unit :=
  start_time ← call Uptime;
  pid ← call Fork;
  if pid =? 0 then call (Exec (default at0 (argv !! 1%nat)) (tail argv));; exit else
  if pid <? 0 then exit else
  call Wait;;
  end_time ← call Uptime;
  let total_time := u32 (u32 end_time - u32 start_time) in
  let sec := total_time / 1000 in
  let mill := total_time mod 1000 in
  match argv !! 1%nat with
  | Some cmd => sayf 1 "%s ran in %d" [PStr cmd; PInt sec]
  | None => uprintf (fun _ => []) 1 "%s ran in %d" [0; sec]
  end;;
  time_millis mill;;
  exit.

(** ** ps *)

(** Seconds and milliseconds. *)
Definition ps_time (sec mill : Z) : prog unit :=
  if mill <? 10 then sayf 1 ("%d.00%d" +:+ String "009" "") [PInt sec; PInt mill]
  else if mill <? 100 then sayf 1 ("%d.0%d" +:+ String "009" "") [PInt sec; PInt mill]
  else sayf 1 ("%d.%d" +:+ String "009" "") [PInt sec; PInt mill].
Definition tab (s : string) : string := s +:+ String "009" "".
Fixpoint ps_spaces (n : nat) : prog unit := match n with O => mret tt | S n => say 1 " ";; ps_spaces n end.
(** A row of the table, project 4. *)
Definition ps_row (u : uproc) : prog unit :=
  let name := until_nul (u_name u) in
  sayf 1 (tab "%d" +:+ "%s") [PInt (u_pid u); PStr name];;
  ps_spaces (Z.to_nat (13 - Z.of_nat (length name)));;
  sayf 1 (tab (tab "%d") +:+ tab "%d" +:+ tab "%d" +:+ tab "%d") [PInt (u_uid u); PInt (u_gid u); PInt (u_ppid u); PInt (u_priority u)];;
  ps_time (u_elapsed_ticks u / 1000) (u_elapsed_ticks u mod 1000);;
  ps_time (u_CPU_total_ticks u / 1000) (u_CPU_total_ticks u mod 1000);;
  sayf 1 (nl (tab "%s" +:+ "%d")) [PStr (until_nul (u_state u)); PInt (u_size u)].
Fixpoint ps_rows (rows : list uproc) : prog unit := match rows with [] => mret tt | u :: rows => ps_row u;; ps_rows rows end.

(** ** stressfs and forktest *)

Fixpoint stress_forks (n : nat) (i : Z) : prog Z :=
  match n with O => mret i | S n => pid ← call Fork; if 0 <? pid then mret i else stress_forks n (i + 1) end.
Fixpoint repeat_call {R} (n : nat) (c : scall R) : prog unit := match n with O => mret tt | S n => call c;; repeat_call n c end.
Definition stressfs_main : prog unit :=
  let data := replicate 512 (ch "a") in
  say 1 (nl "stressfs starting");;
  i ← stress_forks 4 0;
  say_int 1 (nl "write %d") i;;
  let path := chars "stressfs" ++ [u8 (ch "0" + i)] in
  fd ← call (Open path (Z.lor O_CREATE O_RDWR));
  repeat_call 20 (Write fd data);;
  call (Close fd);;
  say 1 (nl "read");;
  fd ← call (Open path O_RDONLY);
  repeat_call 20 (Read fd 512);;
  call (Close fd);;
  call Wait;;
  exit.

(** [N] is 1000; the [printf] of forktest.c writes its format and nothing else. *)
Definition ft_say (s : string) : prog unit := call (Write 1 (chars (nl s)));; mret tt.
Fixpoint ft_forks (k : nat) (n : Z) : prog Z :=
  match k with
  | O => mret n
  | S k => pid ← call Fork; if pid <? 0 then mret n else if pid =? 0 then exit else ft_forks k (n + 1)
  end.
Fixpoint ft_waits (n : nat) : prog unit :=
  match n with
  | O => mret tt
  | S n => r ← call Wait; if r <? 0 then ft_say "wait stopped early";; exit else ft_waits n
  end.
Definition forktest (N : nat) : prog unit :=
  ft_say "fork test";;
  n ← ft_forks N 0;
  if n =? Z.of_nat N then ft_say "fork claimed to work N times!";; exit else
  ft_waits (Z.to_nat n);;
  r ← call Wait;
  if negb (r =? -1) then ft_say "wait got too many";; exit else
  ft_say "fork test OK".
Definition forktest_main : prog unit := forktest 1000;; exit.

(** * What the filters write *)

Lemma run_putcs out fd s input : run_filter out (putcs fd s) input = Some (if fd =? out then s else [], (Some tt, input)).
Proof.
  induction s as [|c s IH]; cbn; [by destruct (fd =? out)|].
  change (run_filter out (prog_then (fun _ : Z => putcs fd s) (Ret 1)) input) with (run_filter out (putcs fd s) input).
  rewrite IH. by destruct (fd =? out).
Qed.
(** A read takes bytes off the front, and none only at the end. *)
Lemma next_piece_split n input bytes input' : (0 < n)%nat -> next_piece n input = (bytes, input') ->
  concat input = bytes ++ concat input' /\ (bytes = [] -> concat input = []).
Proof.
  intros Hn. induction input as [|[|b piece] input IH]; cbn; [by intros [= <- <-]|by apply IH|].
  intros [= <- <-]. destruct n as [|n]; [lia|]. cbn. rewrite app_assoc, take_drop. done.
Qed.
(** A loop over reads of [size] bytes that goes on with [f]. *)
Lemma read_step {A} out fd (size : Z) (f : option (list Z) -> prog A) input bytes input' :
  next_piece (Z.to_nat size) input = (bytes, input') ->
  run_filter out (r ← call (Read fd size); f r) input = run_filter out (f (Some bytes)) input'.
Proof. intros E. cbn. by rewrite E. Qed.

(** [cat] copies its input and ends, one read after the last byte at the latest. *)
Theorem cat_copies fd fuel : forall input, (length (concat input) < fuel)%nat ->
  exists rest, run_filter 1 (cat fuel fd) input = Some (concat input, (Some tt, rest)) /\ concat rest = [].
Proof.
  induction fuel as [|fuel IH]; intros input Hf; [lia|]. cbn [cat].
  destruct (next_piece 512 input) as [bytes input'] eqn:E. destruct (next_piece_split 512 _ _ _ ltac:(lia) E) as [Hs He].
  erewrite read_step by exact E. destruct bytes as [|b bytes].
  { exists input'. rewrite (He eq_refl) in Hs |- *. by split. }
  change (run_filter 1 _ input') with (prepend (b :: bytes) (run_filter 1 (if negb (Z.of_nat (length (b :: bytes)) =? Z.of_nat (length (b :: bytes)))
    then say 1 (nl "cat: write error");; exit else cat fuel fd) input')).
  rewrite Z.eqb_refl. cbn [negb]. rewrite Hs, length_app in Hf. cbn [length] in Hf.
  destruct (IH input' ltac:(lia)) as (rest & -> & Hr). exists rest. split; [|done]. cbn. by rewrite Hs.
Qed.

(** ** Counting *)

Definition blank (b : Z) : Prop := b ∈ [32; 13; 9; 10; 11].
#[global] Instance blank_dec b : Decision (blank b).
Proof. unfold blank. apply _. Defined.
(** The words of a text: its maximal runs of characters that are not blank; [cur] is the word at hand. *)
Fixpoint words_from (cur : list Z) (s : list Z) : list (list Z) :=
  match s with
  | [] => match cur with [] => [] | _ => [cur] end
  | b :: s =>
      if decide (blank b) then match cur with [] => words_from [] s | _ => cur :: words_from [] s end
      else words_from (cur ++ [b]) s
  end.
Definition words (s : list Z) : list (list Z) := words_from [] s.
Definition lines (s : list Z) : nat := length (filter (fun b => b = 10) s).

Lemma wc_blank b : match strchr wc_blanks b with Some (Some _) => true | _ => false end = bool_decide (blank b).
Proof.
  unfold wc_blanks, blank. cbn -[Z.eqb].
  repeat match goal with |- context [?x =? 0] => change (x =? 0) with false end. cbv iota. change (0 =? 0) with true.
  repeat match goal with |- context [?x =? b] => destruct (Z.eqb_spec x b) as [<-|]; [done|] end.
  symmetry. apply bool_decide_eq_false_2. rewrite !elem_of_cons, elem_of_nil. naive_solver.
Qed.
(** The counts after [s], the last word being at hand if [inword]. *)
Lemma wc_fold s : forall cur l w c, 0 <= l -> 0 <= w -> 0 <= c -> l + Z.of_nat (length s) < 2 ^ 31 -> w + Z.of_nat (length s) < 2 ^ 31 ->
  c + Z.of_nat (length s) < 2 ^ 31 ->
  let k := foldl wc_char (MkCounts l w c (bool_decide (cur <> []))) s in
  wc_l k = l + Z.of_nat (lines s) /\ wc_c k = c + Z.of_nat (length s) /\
  wc_w k + (if bool_decide (cur = []) then 0 else 1) = w + Z.of_nat (length (words_from cur s)).
Proof.
  induction s as [|b s IH]; intros cur l w c Hl Hw Hc Bl Bw Bc; cbn [foldl length] in *.
  { cbn. unfold lines. cbn. destruct cur; cbn; lia. }
  set (l' := if b =? 10 then l + 1 else l).
  assert (Hl' : l' = l + Z.of_nat (lines [b])) by (unfold l', lines; destruct (Z.eqb_spec b 10) as [->|]; [done|rewrite filter_cons_False by done; cbn [filter list_filter length]; lia]).
  assert (Hlines : lines (b :: s) = (lines [b] + lines s)%nat) by (unfold lines; rewrite (filter_app _ [b] s), length_app; done).
  assert (lines [b] <= 1)%nat by (unfold lines; pose proof (length_filter (fun b => b = 10) [b]); done).
  assert (Hstep : wc_char (MkCounts l w c (bool_decide (cur <> []))) b =
    if decide (blank b) then MkCounts l' w (c + 1) false
    else MkCounts l' (if bool_decide (cur = []) then w + 1 else w) (c + 1) true).
  { unfold wc_char. cbn [wc_l wc_w wc_c wc_inword]. pose proof (wc_blank b) as Hb. rewrite !s32_small by lia. fold l'.
    destruct (strchr wc_blanks b) as [[|]|]; case_decide; try (rewrite bool_decide_eq_true_2 in Hb by done; done);
      try (rewrite bool_decide_eq_false_2 in Hb by done; done); try done; destruct cur; done. }
  rewrite Hstep, Hlines. cbn [words_from]. case_decide as Hd.
  - destruct (IH [] l' w (c + 1)) as (H1 & H2 & H3); [lia..|]. change (bool_decide (([] : list Z) <> [])) with false in *.
    rewrite H1, H2. split_and!; [lia..|]. cbn in H3. destruct cur; cbn; lia.
  - set (w' := if bool_decide (cur = []) then w + 1 else w). assert (Hw' : w <= w' <= w + 1) by (unfold w'; destruct (bool_decide (cur = [])); lia).
    destruct (IH (cur ++ [b]) l' w' (c + 1)) as (H1 & H2 & H3); [lia..|].
    rewrite (bool_decide_eq_true_2 (cur ++ [b] <> [])) in * by (by destruct cur). rewrite H1, H2. split_and!; [lia..|].
    rewrite (bool_decide_eq_false_2 (cur ++ [b] = [])) in H3 by (by destruct cur). unfold w' in *. destruct (bool_decide (cur = [])); lia.
Qed.

(** No more words than characters. *)
Lemma words_few s : forall cur, (length (words_from cur s) <= length s + (if decide (cur = []) then 0 else 1))%nat.
Proof.
  induction s as [|b s IH]; intros cur; cbn [words_from length]; [by destruct cur|]. case_decide.
  - pose proof (IH []) as H0. rewrite decide_True in H0 by done. destruct cur; [rewrite decide_True by done|rewrite decide_False by done]; cbn [length]; lia.
  - pose proof (IH (cur ++ [b])) as H0. rewrite decide_False in H0 by (by destruct cur). lia.
Qed.
Lemma wc_words_few s : (length (words s) <= length s)%nat.
Proof. pose proof (words_few s []) as H. rewrite decide_True in H by done. unfold words. lia. Qed.

(** A number in decimal. *)
Definition dec (x : Z) : list Z := default [] (printint x 10 true).
Lemma printint_dec x : printint x 10 true = Some (dec x).
Proof. unfold dec, printint. by destruct (print_int_spec upper_digits x 10 true (or_introl eq_refl) eq_refl) as (ds & -> & _). Qed.
Lemma wc_text l w c name : - 2 ^ 31 <= l < 2 ^ 31 -> - 2 ^ 31 <= w < 2 ^ 31 -> - 2 ^ 31 <= c < 2 ^ 31 ->
  printf (arg_string [PInt l; PInt w; PInt c; PStr name]) (nl "%d %d %d %s") (imap arg_word [PInt l; PInt w; PInt c; PStr name]) =
  Some (dec l ++ [32] ++ dec w ++ [32] ++ dec c ++ [32] ++ name ++ [10]).
Proof.
  intros Hl Hw Hc. cbv -[printint s32 dec app Z.le Z.lt Z.pow Z.opp] in *. rewrite !s32_small by done. by rewrite !printint_dec.
Qed.

(** [wc] ends and writes the numbers of lines, words and bytes of its input, however the input comes
    in pieces, words being the maximal runs of characters that are not blank. *)
Theorem wc_counts (name : list Z) (fd : Z) (input : list (list Z)) (fuel : nat) :
  let text := concat input in (length text < fuel)%nat -> Z.of_nat (length text) < 2 ^ 31 ->
  exists rest, run_filter 1 (wc fuel fd name) input =
    Some (dec (Z.of_nat (lines text)) ++ [32] ++ dec (Z.of_nat (length (words text))) ++ [32] ++
          dec (Z.of_nat (length text)) ++ [32] ++ name ++ [10], (Some tt, rest)) /\ concat rest = [].
Proof.
  cbn zeta. intros Hf Hlen. unfold wc.
  assert (Hloop : forall fuel input seen, (length (concat input) < fuel)%nat -> Z.of_nat (length (seen ++ concat input)) < 2 ^ 31 ->
    exists rest, run_filter 1 (wc_loop fuel fd name (foldl wc_char (MkCounts 0 0 0 false) seen)) input =
    Some (let text := seen ++ concat input in dec (Z.of_nat (lines text)) ++ [32] ++ dec (Z.of_nat (length (words text))) ++ [32] ++
          dec (Z.of_nat (length text)) ++ [32] ++ name ++ [10], (Some tt, rest)) /\ concat rest = []).
  { clear. induction fuel as [|fuel IH]; intros input seen Hf Hb; [lia|]. cbn [wc_loop].
    destruct (next_piece 512 input) as [bytes input'] eqn:E. destruct (next_piece_split 512 _ _ _ ltac:(lia) E) as [Hs He].
    erewrite read_step by exact E. destruct bytes as [|b bytes].
    - rewrite (He eq_refl) in *. rewrite app_nil_r in *. exists input'. split; [|done].
      destruct (wc_fold seen [] 0 0 0) as (H1 & H2 & H3); [lia..|]. cbn zeta in H1, H2, H3.
      change (bool_decide ([] <> [])) with false in *. change (bool_decide (([] : list Z) = [])) with true in *. cbv iota in H3.
      rewrite Z.add_0_r, Z.add_0_l in H3. rewrite Z.add_0_l in H1, H2. unfold sayf, uprintf. fold (words seen) in H3.
      rewrite H1, H2, H3. assert (lines seen <= length seen)%nat by apply length_filter.
      pose proof (wc_words_few seen). rewrite wc_text by lia. by rewrite run_putcs.
    - rewrite Hs in *. rewrite length_app in Hf. cbn [length] in Hf. rewrite app_assoc in Hb.
      destruct (IH input' (seen ++ b :: bytes)) as (rest & Hr & Hc); [lia|done|]. exists rest. split; [|done].
      cbn [mret prog_ret]. rewrite foldl_app in Hr. rewrite (app_assoc seen). exact Hr. }
  destruct (Hloop fuel input [] Hf Hlen) as (rest & Hr & Hc). exists rest. by split.
Qed.
(** Two lines that come in three pieces, a word cut in the middle. *)
Lemma wc_counts_witness : exists rest,
  run_filter 1 (wc 30 0 []) [chars "one tw"; chars "o" ++ [10]; chars "three" ++ [10]] = Some (chars "2 3 14 " ++ [10], (Some tt, rest)) /\
  concat rest = [].
Proof. exact (wc_counts [] 0 [chars "one tw"; chars "o" ++ [10]; chars "three" ++ [10]] 30 ltac:(vm_compute; lia) ltac:(vm_compute; done)). Defined.

(** [echo] writes its arguments with blanks between them and a newline. *)
Fixpoint echo_text (args : list (list Z)) : list Z :=
  match args with [] => [] | [a] => a ++ [10] | a :: args => a ++ [32] ++ echo_text args end.
Theorem echo_prints (argv : list (list Z)) input : run_filter 1 (echo_main argv) input = Some (echo_text (tail argv), (None, input)).
Proof.
  unfold echo_main. generalize (tail argv). clear argv. induction l as [|a args IH]; [done|]. cbn [echo_args].
  set (sep := match args with [] => [10] | _ => [32] end).
  assert (Ht : printf (arg_string [PStr a; PStr sep]) "%s%s" (imap arg_word [PStr a; PStr sep]) = Some (a ++ sep)).
  { cbv -[app]. by rewrite app_nil_r. }
  erewrite run_filter_bind by (unfold sayf, uprintf; rewrite Ht; by rewrite run_putcs). rewrite IH. cbn.
  destruct args; cbn; [by rewrite app_nil_r|]. by rewrite <-app_assoc.
Qed.

(** * The day of the week *)

Definition leap (y : Z) : bool := (y mod 4 =? 0) && (negb (y mod 100 =? 0) || (y mod 400 =? 0)).
Definition month_days (y m : Z) : Z :=
  if m =? 2 then if leap y then 29 else 28 else if (m =? 4) || (m =? 6) || (m =? 9) || (m =? 11) then 30 else 31.
Definition valid_date (t : Z * Z * Z) : Prop := let '(y, m, d) := t in 1 <= y /\ 1 <= m <= 12 /\ 1 <= d <= month_days y m.
Definition next_date (t : Z * Z * Z) : Z * Z * Z :=
  let '(y, m, d) := t in
  if d <? month_days y m then (y, m, d + 1) else if m <? 12 then (y, m + 1, 1) else (y + 1, 1, 1).
Lemma next_valid t : valid_date t -> valid_date (next_date t).
Proof.
  destruct t as [[y m] d]. unfold valid_date, next_date. intros (Hy & Hm & Hd).
  destruct (Z.ltb_spec d (month_days y m)); [lia|].
  assert (Hpos : forall y m, 28 <= month_days y m).
  { intros y' m'. unfold month_days. destruct (m' =? 2); [destruct (leap y')|destruct (_ || _)]; lia. }
  destruct (Z.ltb_spec m 12); cbn; (split; [lia|split; [lia|]]); [specialize (Hpos y (m + 1))|specialize (Hpos (y + 1) 1)]; lia.
Qed.
Definition weekday (t : Z * Z * Z) : Z := let '(y, m, d) := t in dayofweek y m d.

(** The formula without truncation. *)
Definition year_part (y : Z) : Z := y / 4 - y / 100 + y / 400.
Definition day_number (y m d : Z) : Z :=
  23 * m / 9 + (if m <? 3 then d + y else d + (y - 2)) + 4 + (if m <? 3 then year_part (y - 1) else year_part y).
Lemma dayofweek_div y m d : 1 <= y -> 1 <= m <= 12 -> 1 <= d ->
  dayofweek y m d = day_number y m d mod 7.
Proof.
  intros Hy Hm Hd. unfold dayofweek, day_number, year_part. assert (0 <= 23 * m / 9) by (apply Z.div_pos; lia).
  destruct (Z.ltb_spec m 3); cbv iota beta; rewrite !Z.quot_div_nonneg by lia.
  - assert (0 <= (y - 1) / 4 - (y - 1) / 100 + (y - 1) / 400) by (Z.div_mod_to_equations; lia).
    rewrite Z.rem_mod_nonneg by lia. f_equal. lia.
  - assert (0 <= y / 4 - y / 100 + y / 400) by (Z.div_mod_to_equations; lia).
    rewrite Z.rem_mod_nonneg by lia. f_equal. lia.
Qed.
(** From the last of February to the first of March. *)
Lemma leap_step y : 1 <= y -> year_part y = year_part (y - 1) + (if leap y then 1 else 0).
Proof.
  intros Hy. unfold leap, year_part.
  destruct (Z.eqb_spec (y mod 4) 0), (Z.eqb_spec (y mod 100) 0), (Z.eqb_spec (y mod 400) 0); cbn [andb orb negb];
    Z.div_mod_to_equations; lia.
Qed.
(** Evaluate what depends on the month alone. *)
Ltac eval_month :=
  repeat match goal with
  | |- context [?a + 1 <? ?b] => let v := eval vm_compute in (a + 1 <? b) in change (a + 1 <? b) with v
  | |- context [?a <? ?b] => let v := eval vm_compute in (a <? b) in change (a <? b) with v
  | |- context [?a =? ?b] => let v := eval vm_compute in (a =? b) in change (a =? b) with v
  | |- context [23 * ?a / 9] => let v := eval vm_compute in (23 * a / 9) in change (23 * a / 9) with v
  end; cbv iota; cbn [orb].
Lemma day_number_next y m d : valid_date (y, m, d) ->
  let '(y', m', d') := next_date (y, m, d) in day_number y' m' d' mod 7 = (day_number y m d + 1) mod 7.
Proof.
  intros (Hy & Hm & Hd). unfold next_date. destruct (Z.ltb_spec d (month_days y m)) as [Hlt|Hge].
  { f_equal. unfold day_number. destruct (m <? 3); lia. }
  assert (d = month_days y m) as -> by lia. clear Hd Hge. pose proof (leap_step y Hy) as Hleap.
  unfold day_number, month_days. assert (Hyy : y + 1 - 1 = y) by lia.
  assert (m = 1 \/ m = 2 \/ m = 3 \/ m = 4 \/ m = 5 \/ m = 6 \/ m = 7 \/ m = 8 \/ m = 9 \/ m = 10 \/ m = 11 \/ m = 12) as Hcase by lia.
  destruct Hcase as [->|[->|[->|[->|[->|[->|[->|[->|[->|[->|[->| ->]]]]]]]]]]]; eval_month; eval_month; rewrite ?Hyy;
    generalize dependent (year_part y); generalize (year_part (y - 1)); intros a c Hleap; destruct (leap y);
    Z.div_mod_to_equations; lia.
Qed.

(** The [n]-th day after 1 January 2000. *)
Definition day_after (n : nat) : Z * Z * Z := Nat.iter n next_date (2000, 1, 1).
Lemma day_after_valid n : valid_date (day_after n).
Proof. induction n as [|n IH]; [cbn; lia|]. by apply next_valid. Qed.
(** [dayofweek] gives the day of the week, counted from Sunday: 1 January 2000 was a Saturday, and every
    day of the calendar that follows is one further. *)
Theorem dayofweek_correct n : weekday (day_after n) = (6 + Z.of_nat n) mod 7.
Proof.
  induction n as [|n IH]; [reflexivity|]. pose proof (day_after_valid n) as Hv. change (day_after (S n)) with (next_date (day_after n)).
  pose proof (next_valid _ Hv) as Hv'. destruct (day_after n) as [[y m] d]. pose proof (day_number_next y m d Hv) as Hn.
  destruct (next_date (y, m, d)) as [[y' m'] d']. destruct Hv as (V1 & V2 & V3), Hv' as (V4 & V5 & V6).
  cbn [weekday] in *. rewrite dayofweek_div in * by lia. rewrite Hn. rewrite <-Zplus_mod_idemp_l, IH, Zplus_mod_idemp_l. f_equal. lia.
Qed.

(** * Names in listings *)

Lemma after_slash_found pre name i : ch "/" ∉ name -> (i <= length name)%nat -> after_slash (pre ++ ch "/" :: name) (length pre + i) = name.
Proof.
  intros Hn. assert (Hat : forall j, (pre ++ ch "/" :: name) !! (length pre + S j)%nat = name !! j).
  { intros j. rewrite lookup_app_r by lia. by replace (length pre + S j - length pre)%nat with (S j) by lia. }
  assert (H0 : after_slash (pre ++ ch "/" :: name) (length pre + 0) = name).
  { rewrite Nat.add_0_r. assert (Hs : (pre ++ ch "/" :: name) !! length pre = Some (ch "/")) by (by rewrite lookup_app_r, Nat.sub_diag by lia).
    assert (Hd : drop (S (length pre)) (pre ++ ch "/" :: name) = name).
    { rewrite drop_app_ge by lia. by replace (S (length pre) - length pre)%nat with 1%nat by lia. }
    destruct (length pre); cbn [after_slash]; rewrite bool_decide_eq_true_2 by done; done. }
  induction i as [|i IH]; intros Hi; [done|]. rewrite Nat.add_succ_r. cbn [after_slash]. rewrite <-Nat.add_succ_r, Hat.
  rewrite bool_decide_eq_false_2; [apply IH; lia|]. intros E. by apply list_elem_of_lookup_2 in E.
Qed.
(** [fmtname] shows the last element of a path, filled up to [DIRSIZ] characters with blanks. *)
Theorem fmtname_last pre name : ch "/" ∉ name ->
  fmtname (pre ++ ch "/" :: name) = name ++ replicate (DIRSIZ - length name) 32.
Proof.
  intros Hn. unfold fmtname. rewrite length_app. cbn [length]. rewrite Nat.add_succ_r.
  assert (Hp : after_slash (pre ++ ch "/" :: name) (S (length pre + length name)) = name).
  { cbn [after_slash]. rewrite bool_decide_eq_false_2; [by apply after_slash_found|].
    rewrite lookup_ge_None_2; [done|]. rewrite length_app. cbn [length]. lia. }
  rewrite Hp. destruct (Nat.leb_spec DIRSIZ (length name)); [|done].
  replace (DIRSIZ - length name)%nat with 0%nat by lia. by rewrite app_nil_r.
Qed.
