(* ===== verification/Sysproc.v ===== *)
(** System calls on processes: sysproc.c.

    The calls read their arguments from the user memory of the current process, through its page
    table.  [sys_halt] is with the console. *)

From stdpp Require Import base tactics numbers option list gmap sets strings.
From Stdlib Require Import ZArith Lia.
From S2P Require Import Prelude ProcDefs StateLists PtableRep Spinlock CString Kernel Proc Memory Kalloc Pipe Block Bytes Log Fs File Vm Syscall ProcInfo Cmos.

(** * Structures in user memory *)

Definition date_bytes (r : rtcdate) : list Z :=
  [r_second r; r_minute r; r_hour r; r_day r; r_month r; r_year r] ≫= le_bytes 4.
Definition DATE_SIZE : Z := 24.

Definition UPROC_SIZE : nat := 96.
Definition uproc_bytes (u : uproc) : list Z :=
  ([u_pid u; u_uid u; u_gid u; u_ppid u; u_priority u; u_elapsed_ticks u; u_CPU_total_ticks u] ≫= le_bytes 4) ++
  u_state u ++ le_bytes 4 (u_size u) ++ u_name u.
Definition load_uproc (d : list Z) : uproc :=
  MkUproc (ld32 0 d) (ld32 4 d) (ld32 8 d) (ld32 12 d) (ld32 16 d) (ld32 20 d) (ld32 24 d)
    (slice 28 32 d) (ld32 60 d) (slice 64 32 d).

Section sysproc.
Context {B : Type} `{!Services (fstate B)}.
Context (forkret_addr : Z) (swtch_out : nat -> K (fstate B) unit).
Local Abbreviation K := (K (fstate B)).

(** A computation on the state that may fault, without and with an effect. *)
Definition ask {A} (f : kstate (fstate B) -> outcome A) : K A :=
  fun s => match f s with Ok a => Ok (a, s) | Err e => Err e end.
Definition change (f : kstate (fstate B) -> outcome (kstate (fstate B))) : K unit :=
  fun s => match f s with Ok s => Ok (tt, s) | Err e => Err e end.
(** Something that reads user memory and the current process. *)
Definition karg {A} (c : nat) (f : mem -> proc -> outcome A) : K A :=
  cur ← curproc c;
  r ← lift_pt (rd (fun r => r) cur);
  ask (fun s => f (km_mem (fl_kmem (ext s))) r).
(** Bytes to the memory of the current process. *)
Definition kput_user (c : nat) (a : Z) (bs : list Z) : K unit :=
  cur ← curproc c;
  r ← lift_pt (rd (fun r => r) cur);
  change (fun s => m ← ustore r a bs (km_mem (fl_kmem (ext s)));
                   mret (set_ext (set_kmem (set_mem m (fl_kmem (ext s))) (ext s)) s)).

Definition sys_fork (c : nat) : K Z := fork forkret_addr c.
Definition sys_exit (c : nat) : K Z := exit swtch_out c;; mret 0.
Definition sys_wait (rounds c : nat) : K Z := wait swtch_out rounds c.
Definition sys_kill (c : nat) : K Z :=
  pid ← karg c (fun m p => argint m p 0);
  match pid with None => mret (-1) | Some pid => kill c pid end.
Definition sys_getpid (c : nat) : K Z :=
  cur ← curproc c; s32 <$> lift_pt (rd p_pid cur).
Definition sys_sbrk (c : nat) : K Z :=
  n ← karg c (fun m p => argint m p 0);
  match n with
  | None => mret (-1)
  | Some n =>
      cur ← curproc c;
      addr ← s32 <$> lift_pt (rd p_sz cur);
      r ← growproc c n;
      if r <? 0 then mret (-1) else mret addr
  end.
(** The loop of [sys_sleep], for [rounds] wake-ups; the argument is compared as unsigned. *)
Fixpoint sys_sleep_loop (rounds : nat) (c : nat) (ticks0 n : Z) : K Z :=
  now ← gets ticks;
  if u32 (now - ticks0) <? u32 n then
    match rounds with
    | O => fail EFuel
    | S rounds =>
        cur ← curproc c;
        k ← lift_pt (rd p_killed cur);
        if negb (k =? 0) then mret (-1) else
        sleep swtch_out c CTicks None;;
        sys_sleep_loop rounds c ticks0 n
    end
  else mret 0.
Definition sys_sleep (rounds c : nat) : K Z :=
  n ← karg c (fun m p => argint m p 0);
  match n with
  | None => mret (-1)
  | Some n => ticks0 ← gets ticks; sys_sleep_loop rounds c ticks0 n
  end.
Definition sys_uptime (c : nat) : K Z := s32 <$> gets ticks.

(** [date]: [clock] is what [cmostime] finds. *)
Definition sys_date (clock : rtcdate) (c : nat) : K Z :=
  d ← karg c (fun m p => argptr m p 0 DATE_SIZE);
  match d with
  | None => mret (-1)
  | Some d => kput_user c d (date_bytes clock);; mret 0
  end.

Definition sys_getuid (c : nat) : K Z := getuid c.
Definition sys_getgid (c : nat) : K Z := getgid c.
Definition sys_getppid (c : nat) : K Z := getppid c.
(** [(argint(0, &n) < 0) || (n < 0 || n > 32767)] *)
Definition bad_id (n : option Z) : bool :=
  match n with None => true | Some n => (n <? 0) || (32767 <? n) end.
Definition sys_setuid (c : nat) : K Z :=
  n ← karg c (fun m p => argint m p 0);
  if bad_id n then mret (-1) else setuid c (default 0 n);; mret 0.
Definition sys_setgid (c : nat) : K Z :=
  n ← karg c (fun m p => argint m p 0);
  if bad_id n then mret (-1) else setgid c (default 0 n);; mret 0.

(** The rows from address [a] on, as far as the memory of the process goes; at most [n]. *)
Fixpoint rows_at (m : mem) (p : proc) (a : Z) (n : nat) : list uproc :=
  match n with
  | O => []
  | S n =>
      match uload_bytes m p a UPROC_SIZE with
      | Ok d => load_uproc d :: rows_at m p (u32 (a + Z.of_nat UPROC_SIZE)) n
      | Err _ => []
      end
  end.
(** [argptr] is asked for [n] bytes, not rows. *)
Definition sys_getprocs (c : nat) : K Z :=
  n ← karg c (fun m p => argint m p 0);
  match n with
  | None => mret (-1)
  | Some n =>
      t ← karg c (fun m p => argptr m p 1 n);
      match t with
      | None => mret (-1)
      | Some t =>
          rows ← karg c (fun m p => Ok (rows_at m p t NPROC));
          '(k, rows) ← getprocs c n rows;
          kput_user c t (take (Z.to_nat k) rows ≫= uproc_bytes);;
          mret k
      end
  end.

Definition sys_setpriority (c : nat) : K Z :=
  pid ← karg c (fun m p => argint m p 0);
  match pid with
  | None => mret (-1)
  | Some pid =>
      prior ← karg c (fun m p => argint m p 1);
      match prior with
      | None => mret (-1)
      | Some prior =>
          if (prior <? 0) || (Z.of_nat MAXPRIO <? prior) then mret (-1) else setpriority c pid prior
      end
  end.
Definition sys_getpriority (c : nat) : K Z :=
  pid ← karg c (fun m p => argint m p 0);
  match pid with
  | None => mret (-1)
  | Some pid => if pid <? 0 then mret (-1) else getpriority c pid
  end.
End sysproc.
