(* ===== verification/Descr.v ===== *)
(** Segment and gate descriptors: mmu.h, [seginit] of vm.c, [tvinit] of trap.c, [lgdt] and [lidt] of
    x86.h.

    The code fills structures of bit fields; the processor reads eight bytes.  Fields are packed
    from the low bits up, as the compiler does. *)

From stdpp Require Import base tactics numbers option list.
From Stdlib Require Import ZArith Lia.
From S2P Require Import Prelude.

Definition SEG_KCODE : nat := 1.
Definition SEG_KDATA : nat := 2.
Definition SEG_UCODE : nat := 3.
Definition SEG_UDATA : nat := 4.
Definition NSEGS : nat := 6.
Definition DPL_USER : Z := 3.
Definition STA_X : Z := 0x8.
Definition STA_W : Z := 0x2.
Definition STA_R : Z := 0x2.
Definition STS_IG32 : Z := 0xE.
Definition STS_TG32 : Z := 0xF.
Definition T_SYSCALL : Z := 64.

(** * The structures *)

Record segdesc := MkSegdesc {
  lim_15_0 : Z; base_15_0 : Z; base_23_16 : Z; sg_type : Z; sg_s : Z; sg_dpl : Z; sg_p : Z;
  lim_19_16 : Z; sg_avl : Z; sg_rsv1 : Z; sg_db : Z; sg_g : Z; base_31_24 : Z
}.
Definition SEG (type base lim dpl : Z) : segdesc :=
  MkSegdesc (Z.land (Z.shiftr lim 12) 0xffff) (Z.land (u32 base) 0xffff)
    (Z.land (Z.shiftr (u32 base) 16) 0xff) type 1 dpl 1
    (Z.shiftr (u32 lim) 28) 0 0 1 1 (Z.shiftr (u32 base) 24).

Record gatedesc := MkGatedesc {
  off_15_0 : Z; gt_cs : Z; gt_args : Z; gt_rsv1 : Z; gt_type : Z; gt_s : Z; gt_dpl : Z; gt_p : Z; off_31_16 : Z
}.
Definition SETGATE (istrap : bool) (sel off d : Z) : gatedesc :=
  MkGatedesc (Z.land (u32 off) 0xffff) sel 0 0 (if istrap then STS_TG32 else STS_IG32) 0 d 1 (Z.shiftr (u32 off) 16).

(** * Their bits *)

(** Fields of the given widths, the first one lowest. *)
Fixpoint pack (fields : list (Z * Z)) : Z :=
  match fields with
  | [] => 0
  | (w, v) :: fields => v mod 2 ^ w + 2 ^ w * pack fields
  end.
Definition segdesc_word (d : segdesc) : Z :=
  pack [(16, lim_15_0 d); (16, base_15_0 d); (8, base_23_16 d); (4, sg_type d); (1, sg_s d); (2, sg_dpl d); (1, sg_p d);
        (4, lim_19_16 d); (1, sg_avl d); (1, sg_rsv1 d); (1, sg_db d); (1, sg_g d); (8, base_31_24 d)].
Definition gatedesc_word (d : gatedesc) : Z :=
  pack [(16, off_15_0 d); (16, gt_cs d); (5, gt_args d); (3, gt_rsv1 d); (4, gt_type d); (1, gt_s d); (2, gt_dpl d); (1, gt_p d);
        (16, off_31_16 d)].

(** [pd] of [lgdt] and [lidt]: the six bytes that the instruction loads, as halfwords. *)
Definition table_register (p size : Z) : list Z := [u16 (size - 1); u16 p; u16 (Z.shiftr (u32 p) 16)].

(** * The tables *)

(** [tvinit]: [vectors] are the entry points that vectors.S holds. *)
Definition tvinit (vectors : list Z) : list gatedesc :=
  let idt := (fun off => SETGATE false (Z.shiftl (Z.of_nat SEG_KCODE) 3) off 0) <$> take 256 vectors in
  <[Z.to_nat T_SYSCALL := SETGATE true (Z.shiftl (Z.of_nat SEG_KCODE) 3) (vectors !!! Z.to_nat T_SYSCALL) DPL_USER]> idt.

(** [seginit] on the table of this processor; the entries it does not set keep their value. *)
Definition seginit (gdt : list segdesc) : list segdesc :=
  <[SEG_UDATA := SEG STA_W 0 0xffffffff DPL_USER]>
  (<[SEG_UCODE := SEG (Z.lor STA_X STA_R) 0 0xffffffff DPL_USER]>
  (<[SEG_KDATA := SEG STA_W 0 0xffffffff 0]>
  (<[SEG_KCODE := SEG (Z.lor STA_X STA_R) 0 0xffffffff 0]> gdt))).

(** * What the processor makes of them *)

Definition field (lo len w : Z) : Z := Z.shiftr w lo mod 2 ^ len.

(** A gate: offset, code selector, whether it is a trap gate, privilege level needed for [int]. *)
Record gate := MkGate { g_offset : Z; g_selector : Z; g_trap : bool; g_dpl : Z }.
Definition hw_gate (w : Z) : option gate :=
  if (field 47 1 w =? 1) && (field 44 1 w =? 0) && ((field 40 4 w =? 0xE) || (field 40 4 w =? 0xF)) then
    Some (MkGate (field 0 16 w + 2 ^ 16 * field 48 16 w) (field 16 16 w) (field 40 4 w =? 0xF) (field 45 2 w))
  else None.
(** A code or data segment: base, last valid offset, executable, privilege level. *)
Record segment := MkSegment { s_base : Z; s_last : Z; s_exec : bool; s_rw : bool; s_dpl : Z }.
Definition hw_segment (w : Z) : option segment :=
  if (field 47 1 w =? 1) && (field 44 1 w =? 1) && (field 54 1 w =? 1) then
    let lim := field 0 16 w + 2 ^ 16 * field 48 4 w in
    Some (MkSegment (field 16 24 w + 2 ^ 24 * field 56 8 w) (if field 55 1 w =? 1 then (lim + 1) * 4096 - 1 else lim)
      (Z.testbit w 43) (Z.testbit w 41) (field 45 2 w))
  else None.

(** Reading a field of packed fields. *)
Lemma field_pack lo len w v rest : 0 <= lo -> 0 <= len -> 0 <= w ->
  field (w + lo) len (pack ((w, v) :: rest)) = field lo len (pack rest).
Proof.
  intros Hlo Hlen Hw. unfold field. cbn [pack]. rewrite <-Z.shiftr_shiftr by lia. do 2 f_equal.
  rewrite Z.shiftr_div_pow2 by lia. rewrite Z.mul_comm, Z.div_add by (pose proof (Z.pow_pos_nonneg 2 w); lia).
  rewrite Z.div_small; [lia|]. apply Z.mod_pos_bound. pose proof (Z.pow_pos_nonneg 2 w); lia.
Qed.
Lemma field_head len w v rest : 0 <= len <= w -> field 0 len (pack ((w, v) :: rest)) = v mod 2 ^ len.
Proof.
  intros Hw. unfold field. cbn [pack]. rewrite Z.shiftr_0_r.
  assert (Hp : 2 ^ w = 2 ^ len * 2 ^ (w - len)) by (rewrite <-Z.pow_add_r by lia; f_equal; lia).
  rewrite Hp, <-Z.mul_assoc, (Z.mul_comm (2 ^ len) (_ * _)), Z.mod_add by (pose proof (Z.pow_pos_nonneg 2 len); lia).
  rewrite (Z.mul_comm (2 ^ len)). apply Z.mod_mod_divide. by exists (2 ^ (w - len)).
Qed.

Ltac unpack :=
  repeat match goal with
  | |- context [field ?lo ?len (pack ((?w, ?v) :: ?rest))] =>
      first [ rewrite (field_head len w v rest) by lia
            | let r := eval vm_compute in (lo - w) in
              match r with Zneg _ => fail 1 | _ =>
              replace (field lo len (pack ((w, v) :: rest))) with (field r len (pack rest))
                by (symmetry; change lo with (w + r); apply field_pack; lia) end ]
  end.

Lemma setgate_hw istrap sel off d : 0 <= sel < 2 ^ 16 -> 0 <= off < 2 ^ 32 -> 0 <= d < 4 ->
  hw_gate (gatedesc_word (SETGATE istrap sel off d)) = Some (MkGate off sel istrap d).
Proof.
  intros Hsel Hoff Hd. unfold hw_gate, gatedesc_word, SETGATE. cbn [off_15_0 gt_cs gt_args gt_rsv1 gt_type gt_s gt_dpl gt_p off_31_16].
  unpack.
  change 0xffff with (Z.ones 16). rewrite Z.land_ones, Z.shiftr_div_pow2 by lia. rewrite (u32_small off) by done.
  rewrite (Z.mod_small sel), (Z.mod_small d), Z.mod_mod, (Z.mod_small (off / 2 ^ 16)) by
    (lia || (split; [apply Z.div_pos; lia|apply Z.div_lt_upper_bound; lia])).
  pose proof (Z.div_mod off (2 ^ 16) ltac:(lia)).
  destruct istrap; cbn; do 2 f_equal; lia.
Qed.

(** C22: after [tvinit] and [seginit] the only way from user mode into the kernel that a program can
    choose is [T_SYSCALL]: each of the 256 gates leads to the entry point of its number in the
    kernel's code segment, gates other than [T_SYSCALL] need kernel privilege and turn interrupts
    off, and kernel and user segments are flat, 4 GB from address 0, with privilege 0 and 3. *)
Theorem only_syscall_from_user (vectors : list Z) (gdt : list segdesc) :
  length vectors = 256%nat -> Forall (fun v => 0 <= v < 2 ^ 32) vectors -> length gdt = NSEGS ->
  (forall i v, vectors !! i = Some v ->
    exists g, tvinit vectors !! i = Some g /\
      hw_gate (gatedesc_word g) = Some (MkGate v 8 (i =? 64)%nat (if (i =? 64)%nat then 3 else 0))) /\
  (fun d => hw_segment (segdesc_word d)) <$> take 4 (drop 1 (seginit gdt)) =
    [Some (MkSegment 0 (2 ^ 32 - 1) true true 0); Some (MkSegment 0 (2 ^ 32 - 1) false true 0);
     Some (MkSegment 0 (2 ^ 32 - 1) true true 3); Some (MkSegment 0 (2 ^ 32 - 1) false true 3)].
Proof.
  intros Hlen Hv Hg. split.
  - intros i v Hi. rewrite Forall_lookup in Hv. pose proof (Hv _ _ Hi) as Hr. unfold tvinit.
    rewrite (take_ge vectors) by lia. pose proof (lookup_lt_Some _ _ _ Hi). change (Z.to_nat T_SYSCALL) with 64%nat.
    destruct (Nat.eqb_spec i 64) as [->|Hne].
    + eexists. rewrite list_lookup_insert_eq by (rewrite length_fmap; lia). split; [done|].
      rewrite (list_lookup_total_correct _ _ _ Hi). by apply setgate_hw.
    + eexists. rewrite list_lookup_insert_ne by done. rewrite list_lookup_fmap, Hi. split; [done|]. by apply setgate_hw.
  - do 6 (destruct gdt as [|? gdt]; [done|]). destruct gdt; [|done]. reflexivity.
Qed.

Lemma only_syscall_from_user_witness :
  let vectors := (fun i => 0x80105000 + 16 * i) <$> seqZ 0 256 in
  exists g, tvinit vectors !! 64%nat = Some g /\ hw_gate (gatedesc_word g) = Some (MkGate 0x80105400 8 true 3).
Proof.
  intros vectors. assert (Hall : Forall (fun v => 0 <= v < 2 ^ 32) vectors).
  { apply Forall_fmap, Forall_seqZ. intros x Hx. cbn. lia. }
  destruct (only_syscall_from_user vectors (replicate 6 (MkSegdesc 0 0 0 0 0 0 0 0 0 0 0 0 0)) eq_refl Hall eq_refl) as [H _].
  exact (H 64%nat 0x80105400 eq_refl).
Defined.
