(* ===== verification/Trap.v ===== *)
(** Traps: the dispatch of system calls to their handlers (the table of syscall.c), and [trap] of
    trap.c.

    The drivers' interrupt handlers work on state of their own and are an interface.  A read or write that
    has to sleep on a pipe goes on as [blocked]. *)

From stdpp Require Import base tactics numbers option list gmap sets strings.
From Stdlib Require Import ZArith Lia.
From S2P Require Import Prelude ProcDefs StateLists PtableRep Spinlock CString User Kernel Proc ProcFacts ProcLife KernelFacts Boot ProcTheorems ProcExamples Memory Kalloc Pipe Block Bytes Log Fs File Vm Syscall Sysfile Exec Printf ProcInfo Cmos Sysproc Descr.

Definition T_IRQ0 : Z := 32.
Definition IRQ_TIMER : Z := 0.
Definition IRQ_KBD : Z := 1.
Definition IRQ_COM1 : Z := 4.
Definition IRQ_IDE : Z := 14.
Definition IRQ_SPURIOUS : Z := 31.
Definition TPS : Z := 1000.
Definition SCHED_INTERVAL : Z := TPS / 100.

(** What the other drivers do on an interrupt, and the acknowledgement to the local APIC. *)
Class Devices (X : Type) := {
  dv_ideintr : nat -> M X unit;
  dv_kbdintr : nat -> M X unit;
  dv_uartintr : nat -> M X unit;
  dv_lapiceoi : M X unit
}.

(** * System calls *)

Section calls.
Context {B : Type} `{!BlockIO B} `{!TxIO B} `{!Services (fstate B)}.
Context (forkret_addr : Z) (swtch_out : nat -> K (fstate B) unit) (kend kdata : Z).
Context (devread : Z -> option (nat -> Z -> M (fs B) (Z * list Z))) (devwrite : Z -> option (nat -> list Z -> Z -> M (fs B) Z)).
Context (junk : list Z).
(** Wake-ups that [wait] and [sleep] go through, the clock, the rest of a call that sleeps on a pipe, and
    [halt]. *)
Context (rounds : nat) (clock : rtcdate) (blocked : sysname -> K (fstate B) Z) (halt : K (fstate B) Z).
Local Abbreviation K := (K (fstate B)).

(** A call of sysfile.c, by the current process. *)
Definition run_sys {A} (cur : nat) (r : proc) (m : M (sys B) A) : K A := fun s =>
  match m (MkSys (ext s) r) with
  | Ok (a, y) => (lift_pt (wr (fun _ => sy_p y) cur);; mret a) (set_ext (sy_f y) s)
  | Err e => Err e
  end.
Definition on_sys {A} (c : nat) (m : M (sys B) A) : K A :=
  cur ← curproc c;
  r ← lift_pt (rd (fun r => r) cur);
  run_sys cur r m.
Definition finish {A} (n : sysname) (r : pres Z A) : K Z :=
  match r with PDone v => mret v | PSleep _ => blocked n end.

(** [syscalls[num]()]. *)
Definition handler (c : nat) (n : sysname) : K Z :=
  match n with
  | Sys_fork => sys_fork forkret_addr c
  | Sys_exit => sys_exit swtch_out c
  | Sys_wait => sys_wait swtch_out rounds c
  | Sys_pipe => on_sys c (sys_pipe c kend)
  | Sys_read => on_sys c (sys_read c devread) ≫= finish Sys_read
  | Sys_kill => sys_kill c
  | Sys_exec => on_sys c (sys_exec c kend kdata devread)
  | Sys_fstat => on_sys c (sys_fstat c)
  | Sys_chdir => on_sys c (sys_chdir c devread)
  | Sys_dup => on_sys c (sys_dup c)
  | Sys_getpid => sys_getpid c
  | Sys_sbrk => sys_sbrk c
  | Sys_sleep => sys_sleep swtch_out rounds c
  | Sys_uptime => sys_uptime c
  | Sys_open => on_sys c (sys_open c kend devread devwrite junk)
  | Sys_write => on_sys c (sys_write c devwrite) ≫= finish Sys_write
  | Sys_mknod => on_sys c (sys_mknod c devread devwrite junk)
  | Sys_unlink => on_sys c (sys_unlink c devread devwrite junk)
  | Sys_link => on_sys c (sys_link c devread devwrite junk)
  | Sys_mkdir => on_sys c (sys_mkdir c devread devwrite junk)
  | Sys_close => on_sys c (sys_close c kend)
  | Sys_halt => halt
  | Sys_date => sys_date clock c
  | Sys_getuid => sys_getuid c
  | Sys_getgid => sys_getgid c
  | Sys_getppid => sys_getppid c
  | Sys_setuid => sys_setuid c
  | Sys_setgid => sys_setgid c
  | Sys_getprocs => sys_getprocs c
  | Sys_setpriority => sys_setpriority c
  | Sys_getpriority => sys_getpriority c
  end.
End calls.

(** * trap *)

Section trap.
Context {X : Type} `{!Services X} `{!Devices X}.
Context (swtch_out : nat -> K X unit) (call : nat -> sysname -> K X Z).
Local Abbreviation K := (K X).

(** [syscall()] by the current process. *)
Definition ksyscall (c : nat) : K unit :=
  syscall (cur ← curproc c; lift_pt (rd p_tf cur))
    (fun v => cur ← curproc c; lift_pt (wr (fun r => set_p_tf (set_tf_eax v (p_tf r)) r) cur))
    (call c).

(** [if(myproc()->killed) exit();] *)
Definition exit_if_killed (c : nat) : K unit :=
  cur ← curproc c;
  k ← lift_pt (rd p_killed cur);
  if k =? 0 then mret tt else exit swtch_out c.
(** [if(myproc() && myproc()->killed && (tf->cs&3) == DPL_USER) exit();] *)
Definition exit_if_killed_user (c : nat) (tf : trapframe) : K unit :=
  op ← kmyproc c;
  match op with
  | None => mret tt
  | Some _ =>
      cur ← curproc c;
      k ← lift_pt (rd p_killed cur);
      if negb (k =? 0) && (Z.land (tf_cs tf) 3 =? DPL_USER) then exit swtch_out c else mret tt
  end.

Definition cpuid (c : nat) : K Z := on_cpu c mycpu_check;; mret (Z.of_nat c).
Definition say (s : list Z) (fmt : string) (args : list Z) : K (list Z) :=
  deref (fun _ => cprintf (fun _ => s) (esc fmt) args).

(** The switch; the result is what is printed. *)
Definition trap_timer (c : nat) : K unit :=
  id ← cpuid c;
  (if id =? 0 then modify (fun s => set_ticks (u32 (ticks s + 1)) s);; wakeup c CTicks else mret tt);;
  lift_ext dv_lapiceoi.
(** [cr2]: the address that faulted. *)
Definition trap_fault (c : nat) (tf : trapframe) (cr2 : Z) : K (list Z) :=
  op ← kmyproc c;
  if bool_decide (op = None) || (Z.land (tf_cs tf) 3 =? 0) then
    id ← cpuid c;
    say [] "unexpected trap %d from cpu %d eip %x (cr2=0x%x)\n" [tf_trapno tf; id; tf_eip tf; cr2];;
    fail (EPanic "trap")
  else
    cur ← curproc c;
    pid ← lift_pt (rd p_pid cur);
    name ← lift_pt (rd p_name cur);
    id ← cpuid c;
    out ← say (cstr name) "pid %d %s: trap %d err %d on cpu %d eip 0x%x addr 0x%x--kill proc\n"
      [pid; 1; tf_trapno tf; tf_err tf; id; tf_eip tf; cr2];
    lift_pt (wr (set_p_killed 1) cur);;
    mret out.
Definition trap_switch (c : nat) (tf : trapframe) (cr2 : Z) : K (list Z) :=
  if tf_trapno tf =? T_IRQ0 + IRQ_TIMER then trap_timer c;; mret []
  else if tf_trapno tf =? T_IRQ0 + IRQ_IDE then lift_ext (dv_ideintr c);; lift_ext dv_lapiceoi;; mret []
  else if tf_trapno tf =? T_IRQ0 + IRQ_IDE + 1 then mret []
  else if tf_trapno tf =? T_IRQ0 + IRQ_KBD then lift_ext (dv_kbdintr c);; lift_ext dv_lapiceoi;; mret []
  else if tf_trapno tf =? T_IRQ0 + IRQ_COM1 then lift_ext (dv_uartintr c);; lift_ext dv_lapiceoi;; mret []
  else if (tf_trapno tf =? T_IRQ0 + 7) || (tf_trapno tf =? T_IRQ0 + IRQ_SPURIOUS) then
    id ← cpuid c;
    out ← say [] "cpu%d: spurious interrupt at %x:%x\n" [id; tf_cs tf; tf_eip tf];
    lift_ext dv_lapiceoi;;
    mret out
  else trap_fault c tf cr2.

(** Giving up the processor on a clock tick. *)
Definition trap_yield (c : nat) (tf : trapframe) : K unit :=
  op ← kmyproc c;
  match op with
  | None => mret tt
  | Some _ =>
      cur ← curproc c;
      st ← lift_pt (rd p_state cur);
      now ← gets ticks;
      if bool_decide (st = RUNNING) && (tf_trapno tf =? T_IRQ0 + IRQ_TIMER) && (now mod SCHED_INTERVAL =? 0)
      then yield swtch_out c else mret tt
  end.

Definition trap (c : nat) (tf : trapframe) (cr2 : Z) : K (list Z) :=
  if tf_trapno tf =? T_SYSCALL then
    exit_if_killed c;;
    cur ← curproc c;
    lift_pt (wr (set_p_tf tf) cur);;
    ksyscall c;;
    exit_if_killed c;;
    mret []
  else
    out ← trap_switch c tf cr2;
    exit_if_killed_user c tf;;
    trap_yield c tf;;
    exit_if_killed_user c tf;;
    mret out.

(** * Killed processes do not go back to user mode *)

(** Inversion of a bind that returned. *)
Lemma bind_inv {A C} (m : K A) (f : A -> K C) s b s' :
  (m ≫= f) s = Ok (b, s') -> exists a s1, m s = Ok (a, s1) /\ f a s1 = Ok (b, s').
Proof. unfold mbind, M_bind. destruct (m s) as [[a s1]|e]; [|done]. eauto. Qed.

Lemma exit_never c s r : exit swtch_out c s <> Ok r.
Proof.
  destruct r as [[] s']. intros H. unfold exit in H.
  apply bind_inv in H as (? & ? & _ & H). by apply bind_inv in H as (? & ? & _ & H).
Qed.

(** The process that processor [c] runs. *)
Definition running_on (s : kstate X) (c : nat) : option nat := cpus s !! c ≫= c_proc.

Lemma myproc_ok k p k' : myproc k = Ok (p, k') -> p = c_proc k /\ c_proc k' = c_proc k.
Proof.
  unfold myproc, pushcli, popcli, mycpu_check. unfold mbind, M_bind, gets, modify, panic_if, mret, M_ret, fail.
  destruct k as [a n e i p0 x y]. cbn. repeat case_match; naive_solver.
Qed.
Lemma kmyproc_ok c s op s' : kmyproc c s = Ok (op, s') ->
  op = running_on s c /\ running_on s' c = running_on s c /\ pt s' = pt s.
Proof.
  unfold kmyproc, on_cpu, running_on. destruct (cpus s !! c) as [k|] eqn:Ek; [|done].
  destruct (myproc k) as [[p k']|] eqn:E; [|done]. intros [= <- <-]. apply myproc_ok in E as [-> Hk].
  cbn. rewrite list_lookup_insert_eq by (by eapply lookup_lt_Some). cbn. by rewrite Hk.
Qed.
Lemma curproc_ok c s p s' : curproc c s = Ok (p, s') ->
  running_on s c = Some p /\ running_on s' c = Some p /\ pt s' = pt s.
Proof.
  unfold curproc. intros H. apply bind_inv in H as (op & s1 & (-> & Hr & Hp)%kmyproc_ok & H).
  destruct (running_on s c) as [q|]; cbn in H; [|done]. by injection H as <- <-.
Qed.
(** [rd] leaves the state alone. *)
Lemma lift_rd_ok {A} (f : proc -> A) p (s : kstate X) v s' : lift_pt (rd f p) s = Ok (v, s') ->
  s' = s /\ exists r, procs (pt s) !! p = Some r /\ v = f r.
Proof.
  unfold lift_pt, zoom, rd, deref. destruct (procs (pt s) !! p) as [r|]; cbn; [|done].
  intros [= <- <-]. split; [by destruct s|eauto].
Qed.

Definition alive (s : kstate X) (c : nat) : Prop :=
  forall p r, running_on s c = Some p -> procs (pt s) !! p = Some r -> p_killed r = 0.

Lemma exit_if_killed_ok c s s' : exit_if_killed c s = Ok (tt, s') -> alive s' c.
Proof.
  intros H. apply bind_inv in H as (p & s1 & (Hr & Hr1 & Hp)%curproc_ok & H).
  apply bind_inv in H as (k & s2 & [-> (r & Hl & ->)]%lift_rd_ok & H).
  destruct (Z.eqb_spec (p_killed r) 0) as [Hk|]; [|by apply exit_never in H].
  injection H as <-. intros q r' Hq Hl'. congruence.
Qed.
Lemma exit_if_killed_user_ok c tf s s' : Z.land (tf_cs tf) 3 = DPL_USER ->
  exit_if_killed_user c tf s = Ok (tt, s') -> alive s' c.
Proof.
  intros Hu H. apply bind_inv in H as (op & s1 & (-> & Hr & Hp)%kmyproc_ok & H).
  destruct (running_on s c) as [q|] eqn:E.
  - apply bind_inv in H as (p & s2 & (Hr2 & Hr3 & Hp2)%curproc_ok & H).
    apply bind_inv in H as (k & s3 & [-> (r & Hl & ->)]%lift_rd_ok & H). rewrite Hu, Z.eqb_refl, andb_true_r in H.
    destruct (Z.eqb_spec (p_killed r) 0) as [Hk|]; cbn in H; [|by apply exit_never in H].
    injection H as <-. intros q' r' Hq Hl'. congruence.
  - injection H as <-. intros q' r' Hq. congruence.
Qed.

(** C11: a trap that goes back to user mode leaves the processor with a process that has
    not been killed, whatever the trap was, whatever the system call or the drivers did, and whatever ran while the process was
    switched out.  A fault in user mode does not go back to the same process, and a fault in the kernel
    stops it. *)
Theorem killed_never_returns c tf cr2 (s : kstate X) out s' :
  trap c tf cr2 s = Ok (out, s') -> tf_trapno tf = T_SYSCALL \/ Z.land (tf_cs tf) 3 = DPL_USER ->
  forall p r, cpus s' !! c ≫= c_proc = Some p -> procs (pt s') !! p = Some r -> p_killed r = 0.
Proof.
  intros H Hu. unfold trap in H. change (alive s' c). destruct (Z.eqb_spec (tf_trapno tf) T_SYSCALL) as [_|Hn].
  - do 4 apply bind_inv in H as (? & ? & _ & H). apply bind_inv in H as ([] & s1 & H & Hr). injection Hr as <- <-.
    by apply exit_if_killed_ok in H.
  - destruct Hu as [|Hu]; [done|]. do 3 apply bind_inv in H as (? & ? & _ & H).
    apply bind_inv in H as ([] & s1 & H & Hr). injection Hr as <- <-. by apply exit_if_killed_user_ok in H.
Qed.
End trap.

(** The clock tick: [trap] on the timer interrupt of processor 0, with the scheduler's part. *)

Section tick.
Context {X : Type} `{!Services X} `{!Devices X}.
Context (swtch_out : nat -> K X unit) (call : nat -> sysname -> K X Z).
Implicit Types s : kstate X.

Lemma bind_run {A C} (m : K X A) (f : A -> K X C) s a s1 : m s = Ok (a, s1) -> (m ≫= f) s = f a s1.
Proof. unfold mbind, M_bind. by intros ->. Qed.
Lemma bind_assoc {A C D} (m : K X A) (f : A -> K X C) (g : C -> K X D) s :
  ((m ≫= f) ≫= g) s = (m ≫= fun a => f a ≫= g) s.
Proof. unfold mbind, M_bind. by destruct (m s) as [[a s1]|]. Qed.

(** The process of processor [c] is [p], whose slot is [r]. *)
Record user_of s (c p : nat) (r : proc) (P : list proc) (L : lists) (off : gset nat) : Prop := {
  uo_cpu : cpu_at s c 0 (Some p);
  uo_lock : lock_free s PTLOCK;
  uo_table : table (pt s) P L off;
  uo_slot : P !! p = Some r;
  uo_running : p ∈ L (LState RUNNING);
  uo_alive : p_killed r = 0
}.
Lemma user_of_same s s' c p r P L off : user_of s c p r P L off -> same_kernel c [] s s' -> locks s' = locks s ->
  cpu_at s' c 0 (Some p) -> user_of s' c p r P L off.
Proof.
  intros [] Hs Hk Hc. split; try done.
  - eapply lock_free_same; [|done]. by rewrite Hk.
  - by rewrite (sk_pt _ _ _ _ Hs).
Qed.

(** A prologue of [trap]'s later steps: the current process, twice, and a field of it. *)
Lemma wp_current {A C} s c p r P L off (f : proc -> A) (k : nat -> A -> K X C) (none : K X C) (Q : C -> kstate X -> Prop) :
  user_of s c p r P L off -> (forall r, f (set_p_next None r) = f r) ->
  (forall s', user_of s' c p r P L off -> ticks s' = ticks s -> ext s' = ext s -> wp (k p (f r)) Q s') ->
  wp (op ← kmyproc c; match op with None => none | Some _ => cur ← curproc c; v ← lift_pt (rd f cur); k cur v end) Q s.
Proof.
  intros Hu Hf HQ. apply wp_bind. eapply wp_kmyproc; [apply Hu|]. intros s1 Hs1 Hk1 Hc1.
  pose proof (user_of_same _ _ _ _ _ _ _ _ Hu Hs1 Hk1 Hc1) as Hu1.
  apply wp_bind. eapply wp_curproc; [done|]. intros s2 Hs2 Hk2 Hc2.
  pose proof (user_of_same _ _ _ _ _ _ _ _ Hu1 Hs2 Hk2 Hc2) as Hu2.
  apply wp_bind, wp_lift_pt. eapply table_rd; [apply Hu2|apply Hu2|done|].
  replace (set_pt (pt s2) s2) with s2 by (by destruct s2). apply HQ; [done| |].
  - by rewrite (sk_ticks _ _ _ _ Hs2), (sk_ticks _ _ _ _ Hs1).
  - by rewrite (sk_ext _ _ _ _ Hs2), (sk_ext _ _ _ _ Hs1).
Qed.

Lemma exit_check_passes s c p r P L off tf (Q : unit -> kstate X -> Prop) :
  user_of s c p r P L off -> (forall s', user_of s' c p r P L off -> ticks s' = ticks s -> ext s' = ext s -> Q tt s') ->
  wp (exit_if_killed_user swtch_out c tf) Q s.
Proof.
  intros Hu HQ. unfold exit_if_killed_user. eapply wp_current; [done|done|]. intros s' Hu' Ht He.
  rewrite (uo_alive _ _ _ _ _ _ _ Hu). cbn. apply wp_ret. auto.
Qed.

Lemma home_running r : home r = LState RUNNING -> p_state r = RUNNING.
Proof. unfold home. case_decide; [unfold ready_lid; by case_match|by intros [= ?]]. Qed.
Lemma user_of_state s c p r P L off : user_of s c p r P L off -> p_state r = RUNNING.
Proof.
  intros [Hc Hl Ht Hr Hrun Hk]. destruct (table_elem _ _ _ Ht Hrun) as (r0 & Hr0 & Hh & _). simplify_eq. by apply home_running.
Qed.

(** A wake-up elsewhere leaves the running process running. *)
Lemma user_of_woken s s' c p r P L off P' L' ch : user_of s c p r P L off -> call_post c 0 (Some p) P' L' off s s' ->
  woken_facts P L P' L' (first_sleeper P L ch) ch -> user_of s' c p r P' L' off.
Proof.
  intros [Hc Hl Ht Hr Hrun Hk] (Ht' & Hc' & Hl' & _) Hw.
  destruct (table_elem _ _ _ Ht Hrun) as (r0 & Hr0 & Hh & _). simplify_eq.
  pose proof (home_running _ Hh) as Hst.
  destruct (first_sleeper P L ch) as [q|]; cbn in Hw; [|destruct Hw as [-> ->]; by split].
  destruct Hw as (rq & Hq & Hsq & _ & -> & _ & _ & Ho).
  split; try done.
  - rewrite list_lookup_insert_ne; [done|]. intros ->. congruence.
  - rewrite Ho; [done|done|]. unfold ready_lid. by case_match.
Qed.

(** The clock and the table after the tick itself. *)
Definition ticked (c : nat) (s : kstate X) : Z := if (c =? 0)%nat then u32 (ticks s + 1) else ticks s.
Definition tick_wakes (c : nat) (P : list proc) (L : lists) (P' : list proc) (L' : lists) : Prop :=
  if (c =? 0)%nat then woken_facts P L P' L' (first_sleeper P L CTicks) CTicks else P' = P /\ L' = L.

Lemma user_of_kernel s s' c p r P L off : user_of s c p r P L off -> pt s' = pt s -> cpus s' = cpus s -> locks s' = locks s ->
  user_of s' c p r P L off.
Proof.
  intros [(k & Hk & ?) [l Hl] Ht ? ? ?] Hp Hc Hlk. split; [|exists l|rewrite Hp|..]; try done.
  - exists k. by rewrite Hc.
  - by rewrite Hlk.
Qed.

Lemma trap_timer_spec s c p r P L off (G : X -> Prop) :
  user_of s c p r P L off -> c_if <$> cpus s !! c = Some false -> wp dv_lapiceoi (fun _ => G) (ext s) ->
  wp (trap_timer c) (fun _ s' => ticks s' = ticked c s /\ G (ext s') /\
    exists P' L', tick_wakes c P L P' L' /\ user_of s' c p r P' L' off) s.
Proof.
  intros Hu Hif HG. destruct (cpus s !! c) as [k|] eqn:Ek; [|done]. injection Hif as Hif.
  unfold trap_timer, cpuid. apply wp_bind, wp_bind. eapply (wp_cpu_read _ _ k); [done| |].
  { unfold mycpu_check, mbind, M_bind, gets, panic_if. cbn. by rewrite Hif. }
  apply wp_ret. replace (Z.of_nat c =? 0) with (c =? 0)%nat by (destruct c; done). apply wp_bind. unfold ticked, tick_wakes.
  destruct (Nat.eqb_spec c 0) as [->|Hc].
  - apply wp_bind, wp_modify. set (s1 := set_ticks _ s).
    assert (Hu1 : user_of s1 0 p r P L off) by (by apply (user_of_kernel s)).
    eapply wp_mono; [eapply wakeup_spec; apply Hu1|]. intros _ s2 (P' & L' & Hp & Hw).
    pose proof (user_of_woken _ _ _ _ _ _ _ _ _ _ _ Hu1 Hp Hw) as Hu2. destruct Hp as (_ & _ & _ & He & _ & Htk & _).
    apply wp_lift_ext. rewrite He. eapply wp_mono; [exact HG|]. intros [] x Hx. split; [done|]. split; [done|].
    exists P', L'. split; [done|]. by apply (user_of_kernel s2).
  - apply wp_ret, wp_lift_ext. eapply wp_mono; [exact HG|]. intros [] x Hx. split; [done|]. split; [done|].
    exists P, L. split; [done|]. by apply (user_of_kernel s).
Qed.

(** What [trap] does after the switch back to the process. *)
Definition resumed (c : nat) (intena : bool) (tf : trapframe) : K X (list Z) :=
  on_cpu c (mycpu_check;; modify (set_c_intena intena));; release_lk c PTLOCK;;
  exit_if_killed_user swtch_out c tf;; mret [].

Lemma yield_switches {A} s c p P L off (k : unit -> K X A) :
  cpu_at s c 0 (Some p) -> lock_free s PTLOCK -> table (pt s) P L off -> p ∈ L (LState RUNNING) ->
  exists s1 intena, gone c p [PTLOCK] (yielded (ticks s) P L p).1 (yielded (ticks s) P L p).2 off s s1 /\
    (yield swtch_out c ≫= k) s =
    (swtch_out c;; on_cpu c (mycpu_check;; modify (set_c_intena intena));; release_lk c PTLOCK ≫= k) s1.
Proof.
  intros Hc Hl Ht Hp. destruct (proj1 (wp_ok _ _ _) (yield_spec s c p P L off Hc Hl Ht Hp)) as (intena & s1 & Hrun & Hg).
  exists s1, intena. split; [done|]. unfold yield, sched. rewrite bind_assoc.
  unfold mbind, M_bind in Hrun |- *. destruct (yield_enter c s) as [[[] s0]|]; [|done]. rewrite Hrun.
  destruct (swtch_out c s1) as [[[] s2]|]; [|done].
  by destruct (on_cpu c _ s2) as [[[] s3]|].
Qed.

(** The steps of [trap] up to the decision to give up the processor. *)
Lemma tick_until_yield s c p r P L off tf cr2 (G : X -> Prop) :
  user_of s c p r P L off -> c_if <$> cpus s !! c = Some false -> wp dv_lapiceoi (fun _ => G) (ext s) ->
  tf_trapno tf = T_IRQ0 + IRQ_TIMER ->
  exists s2 P' L', tick_wakes c P L P' L' /\ user_of s2 c p r P' L' off /\ ticks s2 = ticked c s /\ G (ext s2) /\
    trap swtch_out call c tf cr2 s =
    ((if ticked c s mod SCHED_INTERVAL =? 0 then yield swtch_out c else mret tt) ≫= fun _ =>
      exit_if_killed_user swtch_out c tf;; mret []) s2.
Proof.
  intros Hu Hif HG Ht. destruct (proj1 (wp_ok _ _ _) (trap_timer_spec s c p r P L off G Hu Hif HG))
    as ([] & s1 & Hrun & Htk & Hx & P' & L' & Hw & Hu1).
  destruct (proj1 (wp_ok _ _ _) (exit_check_passes s1 c p r P' L' off tf (fun _ s' => user_of s' c p r P' L' off /\ ticks s' = ticks s1 /\ ext s' = ext s1)
    Hu1 ltac:(done))) as ([] & s2 & Hrun2 & Hu2 & Htk2 & Hx2).
  pose proof (wp_current s2 c p r P' L' off p_state (fun _ st => mret st) (fail EFault)
    (fun st s' => st = RUNNING /\ user_of s' c p r P' L' off /\ ticks s' = ticks s2 /\ ext s' = ext s2) Hu2 ltac:(done)) as H3.
  destruct (proj1 (wp_ok _ _ _) (H3 ltac:(intros; apply wp_ret; split; [by eapply user_of_state|done])))
    as (? & s3 & Hrun3 & -> & Hu3 & Htk3 & Hx3). clear H3.
  exists s3, P', L'. split; [done|]. split; [done|]. split; [congruence|]. split; [congruence|].
  unfold trap, trap_switch. rewrite Ht, Z.eqb_refl. change (T_IRQ0 + IRQ_TIMER =? T_SYSCALL) with false. cbv iota.
  rewrite bind_assoc, (bind_run _ _ _ _ _ Hrun). erewrite bind_run by done. rewrite (bind_run _ _ _ _ _ Hrun2).
  revert Hrun3. unfold trap_yield. rewrite Ht, Z.eqb_refl.
  unfold mbind, M_bind. destruct (kmyproc c s2) as [[[q|] s4]|]; [|done|done].
  destruct (curproc c s4) as [[cur s5]|]; [|done]. destruct (lift_pt (rd p_state cur) s5) as [[st s6]|] eqn:E; [|done].
  intros [= -> ->]. unfold gets. rewrite Htk3, Htk2, Htk. by destruct (_ =? 0).
Qed.

(** C16: the clock interrupt.  On processor 0 it counts one tick, modulo 2^32, and wakes the first
    process that sleeps on the clock; on the others it does neither.  Every tenth tick the
    running process is put at the tail of its ready list and the processor goes to the scheduler with
    the table locked, and [trap] ends when the scheduler has come back.  On the other ticks [trap]
    returns and the process runs on. *)
Theorem clock_tick s c p r P L off tf cr2 (G : X -> Prop) :
  user_of s c p r P L off -> c_if <$> cpus s !! c = Some false -> wp dv_lapiceoi (fun _ => G) (ext s) ->
  tf_trapno tf = T_IRQ0 + IRQ_TIMER ->
  let now := if (c =? 0)%nat then u32 (ticks s + 1) else ticks s in
  exists P' L', tick_wakes c P L P' L' /\
  if now mod 10 =? 0 then
    exists s1 intena, table (pt s1) (alter (tally now) p (yielded now P' L' p).1) (yielded now P' L' p).2 off /\
      cpu_at s1 c 1 (Some p) /\ lock_held s1 PTLOCK c /\ ticks s1 = now /\
      trap swtch_out call c tf cr2 s = (swtch_out c;; resumed c intena tf) s1
  else
    exists s', trap swtch_out call c tf cr2 s = Ok ([], s') /\ ticks s' = now /\ user_of s' c p r P' L' off /\ G (ext s').
Proof.
  intros Hu Hif HG Ht now. destruct (tick_until_yield s c p r P L off tf cr2 G Hu Hif HG Ht)
    as (s2 & P' & L' & Hw & Hu2 & Htk & Hx & ->). exists P', L'. split; [done|]. change (ticked c s) with now in *.
  change SCHED_INTERVAL with 10. destruct (now mod 10 =? 0).
  - pose proof Hu2 as [Hc Hl Htb _ Hrun _].
    destruct (yield_switches s2 c p P' L' off (fun _ => exit_if_killed_user swtch_out c tf;; mret (@nil Z)) Hc Hl Htb Hrun)
      as (s1 & intena & Hg & ->). rewrite Htk in Hg. destruct Hg as (t' & H1 & H2 & H3 & H4). exists s1, intena.
    split; [rewrite (sk_pt _ _ _ _ H2); by rewrite Htk in H1|]. split; [done|]. split; [done|].
    split; [|done]. rewrite (sk_ticks _ _ _ _ H2). done.
  - destruct (proj1 (wp_ok _ _ _) (exit_check_passes s2 c p r P' L' off tf (fun _ s' => user_of s' c p r P' L' off /\ ticks s' = ticks s2 /\ ext s' = ext s2)
      Hu2 ltac:(done))) as ([] & s3 & Hrun & Hu3 & Htk3 & Hx3).
    exists s3. erewrite bind_run by done. rewrite (bind_run _ _ _ _ _ Hrun). split; [done|]. split_and!; [congruence|done|congruence].
Qed.
End tick.

(** A kernel in which the first process runs in user mode and the clock interrupts it. *)

#[local] Instance quiet_devices : Devices Z := {|
  dv_ideintr := fun _ => mret tt; dv_kbdintr := fun _ => mret tt; dv_uartintr := fun _ => mret tt; dv_lapiceoi := mret tt
|}.
(** The gate has turned interrupts off. *)
Definition st_trapped : kstate Z := set_cpus (set_c_if false <$> cpus st_running) st_running.
Definition tick_frame : trapframe := MkTrapframe 0 0 0 0 0 0 0 0 0 0 0 0 32 0 0x10 0x1b 0x200 0x2000 0x23.
Definition stay (c : nat) : K Z unit := mret tt.
Definition no_call (c : nat) (n : sysname) : K Z Z := mret 0.
#[local] Abbreviation demo_trap := (trap stay no_call 0 tick_frame 0).

Lemma trapped_user : user_of st_trapped 0 0 (slot st_trapped 0) (pcbs (pt st_trapped)) (lists_of (pt st_trapped)) ∅.
Proof.
  split.
  - apply cpu_check_sound. vm_compute. reflexivity.
  - apply free_check_sound. vm_compute. reflexivity.
  - apply table_of. vm_compute. reflexivity.
  - vm_compute. reflexivity.
  - vm_compute. constructor.
  - vm_compute. reflexivity.
Qed.

Lemma clock_tick_witness : exists s', demo_trap st_trapped = Ok ([], s') /\ ticks s' = 1.
Proof.
  destruct (clock_tick stay no_call st_trapped 0 0 (slot st_trapped 0) (pcbs (pt st_trapped)) (lists_of (pt st_trapped)) ∅
    tick_frame 0 (fun _ => True) trapped_user ltac:(vm_compute; reflexivity) I eq_refl) as (P' & L' & _ & H).
  replace (ticks st_trapped) with 0 in H by (vm_compute; reflexivity).
  destruct H as (s' & Hrun & Ht & _). exists s'. split; [exact Hrun|exact Ht].
Defined.

Definition st_ticked : kstate Z := match demo_trap st_trapped with Ok (_, s') => s' | Err _ => st_trapped end.
Lemma demo_trap_returns : demo_trap st_trapped = Ok ([], st_ticked).
Proof. vm_compute. reflexivity. Qed.
Lemma ticked_current : cpus st_ticked !! 0%nat ≫= c_proc = Some 0%nat.
Proof. vm_compute. reflexivity. Qed.
Lemma ticked_slot : procs (pt st_ticked) !! 0%nat = Some (slot st_ticked 0).
Proof. vm_compute. reflexivity. Qed.
Lemma killed_never_returns_witness : p_killed (slot st_ticked 0) = 0.
Proof.
  exact (killed_never_returns stay no_call 0 tick_frame 0 st_trapped [] st_ticked demo_trap_returns (or_intror eq_refl) 0%nat _
    ticked_current ticked_slot).
Defined.
