(* ===== verification/Apic.v ===== *)
(** The interrupt controllers and the start of the other processors: lapic.c, ioapic.c, picirq.c and
    [startothers] of main.c.

    Writes to the local controller, to ports and to low memory are kept in order; the I/O controller
    has a select register and a window on its registers.  What the local controller answers is a
    parameter: its version, its identifier and the command register at each poll. *)

From stdpp Require Import base tactics numbers option list gmap strings.
From Stdlib Require Import ZArith Lia.
From S2P Require Import Prelude ProcDefs Spinlock Kernel Bytes Memory Trap.

(** ** Registers *)
Definition LAPIC_ID : Z := 0x0020 / 4.
Definition TPR : Z := 0x0080 / 4.
Definition EOI : Z := 0x00B0 / 4.
Definition SVR : Z := 0x00F0 / 4.
Definition ENABLE : Z := 0x100.
Definition ESR : Z := 0x0280 / 4.
Definition ICRLO : Z := 0x0300 / 4.
Definition INIT : Z := 0x500.
Definition STARTUP : Z := 0x600.
Definition DELIVS : Z := 0x1000.
Definition ASSERT : Z := 0x4000.
Definition LEVEL : Z := 0x8000.
Definition BCAST : Z := 0x80000.
Definition ICRHI : Z := 0x0310 / 4.
Definition TIMER : Z := 0x0320 / 4.
Definition X1 : Z := 0xB.
Definition PERIODIC : Z := 0x20000.
Definition PCINT : Z := 0x0340 / 4.
Definition LINT0 : Z := 0x0350 / 4.
Definition LINT1 : Z := 0x0360 / 4.
Definition ERROR : Z := 0x0370 / 4.
Definition MASKED : Z := 0x10000.
Definition TICR : Z := 0x0380 / 4.
Definition TDCR : Z := 0x03E0 / 4.
Definition IRQ_ERROR : Z := 19.

Definition REG_ID : Z := 0x00.
Definition REG_VER : Z := 0x01.
Definition REG_TABLE : Z := 0x10.
Definition INT_DISABLED : Z := 0x10000.

Definition CMOS_PORT : Z := 0x70.
Definition IO_PIC1 : Z := 0x20.
Definition IO_PIC2 : Z := 0xA0.

Record intc := MkIntc {
  lapic_w : list (Z * Z);         (* writes to the local controller *)
  icr_polls : nat;                (* reads of its command register *)
  io_sel : Z;                     (* ioapic->reg *)
  io_regs : gmap Z Z;             (* what ioapic->data shows *)
  ic_out : list (Z * Z);          (* writes to ports *)
  ic_mem : list (Z * list Z)      (* writes to low memory *)
}.
Definition add_lapic_w (i v : Z) (s : intc) : intc := MkIntc (lapic_w s ++ [(i, v)]) (icr_polls s) (io_sel s) (io_regs s) (ic_out s) (ic_mem s).
Definition add_poll (s : intc) : intc := MkIntc (lapic_w s) (S (icr_polls s)) (io_sel s) (io_regs s) (ic_out s) (ic_mem s).
Definition set_io_sel (r : Z) (s : intc) : intc := MkIntc (lapic_w s) (icr_polls s) r (io_regs s) (ic_out s) (ic_mem s).
Definition set_io_data (v : Z) (s : intc) : intc := MkIntc (lapic_w s) (icr_polls s) (io_sel s) (<[io_sel s := v]> (io_regs s)) (ic_out s) (ic_mem s).
Definition add_out (p v : Z) (s : intc) : intc := MkIntc (lapic_w s) (icr_polls s) (io_sel s) (io_regs s) (ic_out s ++ [(p, v)]) (ic_mem s).
Definition add_mem (a : Z) (bs : list Z) (s : intc) : intc := MkIntc (lapic_w s) (icr_polls s) (io_sel s) (io_regs s) (ic_out s) (ic_mem s ++ [(a, bs)]).

(** * lapic.c *)

Section lapic.
(** The address of the local controller, and what it answers. *)
Context (lapic lapic_ver lapic_id : Z) (icr : nat -> Z).

Definition lapicw (index value : Z) : M intc unit :=
  if lapic =? 0 then fail EFault else modify (add_lapic_w index (u32 value)).

(** [while(lapic[ICRLO] & DELIVS);] *)
Fixpoint icr_wait (fuel : nat) : M intc unit :=
  match fuel with
  | O => fail EFuel
  | S fuel =>
      n ← gets icr_polls;
      modify add_poll;;
      if Z.land (icr n) DELIVS =? 0 then mret tt else icr_wait fuel
  end.

Definition lapicinit (fuel : nat) : M intc unit :=
  if lapic =? 0 then mret tt else
  lapicw SVR (Z.lor ENABLE (T_IRQ0 + IRQ_SPURIOUS));;
  lapicw TDCR X1;;
  lapicw TIMER (Z.lor PERIODIC (T_IRQ0 + IRQ_TIMER));;
  lapicw TICR 1000000;;
  lapicw LINT0 MASKED;;
  lapicw LINT1 MASKED;;
  (if 4 <=? Z.land (Z.shiftr lapic_ver 16) 0xFF then lapicw PCINT MASKED else mret tt);;
  lapicw ERROR (T_IRQ0 + IRQ_ERROR);;
  lapicw ESR 0;;
  lapicw ESR 0;;
  lapicw EOI 0;;
  lapicw ICRHI 0;;
  lapicw ICRLO (Z.lor BCAST (Z.lor INIT LEVEL));;
  icr_wait fuel;;
  lapicw TPR 0.

Definition lapicid : Z := if lapic =? 0 then 0 else Z.shiftr lapic_id 24.
Definition lapiceoi : M intc unit := if lapic =? 0 then mret tt else lapicw EOI 0.

(** One startup message. *)
Definition startup_ipi (apicid addr : Z) : M intc unit :=
  lapicw ICRHI (Z.shiftl apicid 24);; lapicw ICRLO (Z.lor STARTUP (Z.shiftr addr 12)).
Definition lapicstartap (apicid addr : Z) : M intc unit :=
  modify (add_out CMOS_PORT 0xF);;
  modify (add_out (CMOS_PORT + 1) 0x0A);;
  let wrv := P2V (Z.lor (Z.shiftl 0x40 4) 0x67) in
  modify (add_mem wrv (le_bytes 2 0));;
  modify (add_mem (wrv + 2) (le_bytes 2 (u16 (Z.shiftr addr 4))));;
  lapicw ICRHI (Z.shiftl apicid 24);;
  lapicw ICRLO (Z.lor INIT (Z.lor LEVEL ASSERT));;
  lapicw ICRLO (Z.lor INIT LEVEL);;
  startup_ipi apicid addr;;
  startup_ipi apicid addr.
End lapic.

(** * ioapic.c and picirq.c *)

Definition ioapicread (reg : Z) : M intc Z :=
  modify (set_io_sel reg);; gets (fun s => default 0 (io_regs s !! io_sel s)).
Definition ioapicwrite (reg data : Z) : M intc unit :=
  modify (set_io_sel reg);; modify (set_io_data (u32 data)).

(** Whether the identifier is the one the firmware gave is only reported. *)
Definition mask_irq (i : Z) : M intc unit :=
  ioapicwrite (REG_TABLE + 2 * i) (Z.lor INT_DISABLED (T_IRQ0 + i));;
  ioapicwrite (REG_TABLE + 2 * i + 1) 0.
Definition ioapicinit (ioapicid : Z) : M intc bool :=
  ver ← ioapicread REG_VER;
  let maxintr := Z.land (Z.shiftr ver 16) 0xFF in
  idr ← ioapicread REG_ID;
  for_each mask_irq (seqZ 0 (maxintr + 1));;
  mret (Z.shiftr idr 24 =? ioapicid).
Definition ioapicenable (irq cpunum : Z) : M intc unit :=
  ioapicwrite (REG_TABLE + 2 * irq) (T_IRQ0 + irq);;
  ioapicwrite (REG_TABLE + 2 * irq + 1) (Z.shiftl cpunum 24).
Definition picinit : M intc unit := modify (add_out (IO_PIC1 + 1) 0xFF);; modify (add_out (IO_PIC2 + 1) 0xFF).

(** * startothers of main.c *)

Section others.
Context {X : Type} (kalloc : M X (option Z)).
Context (lapic lapic_id : Z) (entryother : list Z) (mpenter entrypgdir : Z).
(** [cpus[i].started] at the [n]-th look. *)
Context (started : nat -> nat -> bool).

Definition on_intc {A} (m : M intc A) : M (X * intc) A := zoom snd (fun t s => (s.1, t)) m.

Fixpoint await (fuel : nat) (i n : nat) : M (X * intc) unit :=
  match fuel with
  | O => fail EFuel
  | S fuel => if started i n then mret tt else await fuel i (S n)
  end.
Definition start_cpu (fuel : nat) (i : nat) (apicid : Z) : M (X * intc) unit :=
  let code := P2V 0x7000 in
  stack ← zoom fst (fun x s => (x, s.2)) kalloc;
  on_intc (modify (add_mem (code - 4) (le_bytes 4 (u32 (from_option id 0 stack + KSTACKSIZE)))));;
  on_intc (modify (add_mem (code - 8) (le_bytes 4 mpenter)));;
  on_intc (modify (add_mem (code - 12) (le_bytes 4 (V2P entrypgdir))));;
  on_intc (lapicstartap lapic apicid (V2P code));;
  await fuel i 0.
Fixpoint startothers_from (fuel : nat) (all cs : list cpu) (i : nat) : M (X * intc) unit :=
  match cs with
  | [] => mret tt
  | c :: cs =>
      me ← (fun s => match mycpu all false (lapicid lapic lapic_id) with Ok me => Ok (me, s) | Err e => Err e end);
      (if bool_decide (i = me) then mret tt else start_cpu fuel i (c_apicid c));;
      startothers_from fuel all cs (S i)
  end.
Definition startothers (fuel : nat) (cpus : list cpu) : M (X * intc) unit :=
  on_intc (modify (add_mem (P2V 0x7000) entryother));;
  startothers_from fuel cpus cpus 0.
End others.

(** * The I/O controller routes what was asked for *)

(** The two words of the redirection table for interrupt line [i], and how the controller reads them. *)
Definition redir_lo (s : intc) (i : Z) : Z := default 0 (io_regs s !! (REG_TABLE + 2 * i)).
Definition redir_hi (s : intc) (i : Z) : Z := default 0 (io_regs s !! (REG_TABLE + 2 * i + 1)).
Definition masked (s : intc) (i : Z) : bool := Z.testbit (redir_lo s i) 16.
Definition vector (s : intc) (i : Z) : Z := redir_lo s i mod 256.
Definition target (s : intc) (i : Z) : Z := Z.shiftr (redir_hi s i) 24.
(** The highest line. *)
Definition maxintr (s : intc) : Z := Z.land (Z.shiftr (default 0 (io_regs s !! REG_VER)) 16) 0xFF.

(** A pair of words is written; nothing else of the table changes. *)
Record rerouted (i lo hi : Z) (s s' : intc) : Prop := {
  rr_lo : redir_lo s' i = lo;
  rr_hi : redir_hi s' i = hi;
  rr_other : forall j, j <> i -> redir_lo s' j = redir_lo s j /\ redir_hi s' j = redir_hi s j;
  rr_ver : 0 <= i -> maxintr s' = maxintr s;
  rr_out : ic_out s' = ic_out s
}.
Lemma ioapicwrite_pair i lo hi s :
  wp (ioapicwrite (REG_TABLE + 2 * i) lo;; ioapicwrite (REG_TABLE + 2 * i + 1) hi) (fun _ s' => rerouted i (u32 lo) (u32 hi) s s') s.
Proof.
  unfold ioapicwrite. wp_steps. split; unfold redir_lo, redir_hi, maxintr, REG_TABLE, REG_VER; cbn.
  - rewrite lookup_insert_ne by lia. by rewrite lookup_insert_eq.
  - by rewrite lookup_insert_eq.
  - intros j Hj. by rewrite !lookup_insert_ne by lia.
  - intros Hi. by rewrite !lookup_insert_ne by lia.
  - done.
Qed.

(** Routed as [f] says, below a bound. *)
Definition routes (f : Z -> option Z) (s : intc) (i : Z) : Prop :=
  match f i with
  | Some cpu => redir_lo s i = T_IRQ0 + i /\ redir_hi s i = u32 (Z.shiftl cpu 24)
  | None => redir_lo s i = Z.lor INT_DISABLED (T_IRQ0 + i) /\ redir_hi s i = 0
  end.
Lemma disabled_small i : 0 <= i < 256 -> 0 <= Z.lor INT_DISABLED (T_IRQ0 + i) < 2 ^ 32.
Proof.
  intros Hi. split; [apply Z.lor_nonneg; unfold INT_DISABLED, T_IRQ0; lia|]. apply Z.log2_lt_cancel.
  rewrite Z.log2_lor by (unfold INT_DISABLED, T_IRQ0; lia). change (Z.log2 (2 ^ 32)) with 32. apply Z.max_lub_lt; [done|].
  apply Z.le_lt_trans with (Z.log2 511); [apply Z.log2_le_mono; unfold T_IRQ0; lia|done].
Qed.
Lemma mask_all n s : (n <= 256)%nat -> wp (for_each mask_irq (seqZ 0 (Z.of_nat n))) (fun _ s' =>
  maxintr s' = maxintr s /\ ic_out s' = ic_out s /\ forall i, 0 <= i < Z.of_nat n -> routes (fun _ => None) s' i) s.
Proof.
  intros Hn. eapply wp_mono.
  - apply (wp_for_each (fun rest s' => exists k, (k <= n)%nat /\ rest = seqZ (Z.of_nat k) (Z.of_nat (n - k)) /\
      maxintr s' = maxintr s /\ ic_out s' = ic_out s /\ forall i, 0 <= i < Z.of_nat k -> routes (fun _ => None) s' i)).
    + intros x ys s1 (k & Hk & Hx & Hm & Ho & Hr). destruct (decide (k = n)) as [->|Hne].
      { by rewrite Nat.sub_diag in Hx. }
      rewrite seqZ_cons in Hx by lia. injection Hx as -> ->. eapply wp_mono; [apply ioapicwrite_pair|].
      intros [] s2 [R1 R2 R3 R4 R5]. exists (S k). split; [lia|]. split; [f_equal; lia|]. rewrite R4, R5 by lia. split_and!; [done..|].
      intros i Hi. destruct (decide (i = Z.of_nat k)) as [->|Hik].
      * unfold routes. rewrite R1, R2. by rewrite u32_small by (apply disabled_small; lia).
      * destruct (R3 i Hik) as [E1 E2]. unfold routes. rewrite E1, E2. apply Hr. lia.
    + exists O. split; [lia|]. split; [f_equal; lia|]. split_and!; [done..|lia].
  - cbn beta. intros [] s' (k & Hk & Hs & Hm & Ho & Hr). split_and!; [done..|]. intros i Hi. apply Hr.
    destruct (decide (k = n)) as [->|]; [done|]. rewrite seqZ_cons in Hs by lia. done.
Qed.
Lemma ioapicinit_masks id s : wp (ioapicinit id) (fun _ s' =>
  maxintr s' = maxintr s /\ ic_out s' = ic_out s /\ forall i, 0 <= i <= maxintr s -> routes (fun _ => None) s' i) s.
Proof.
  unfold ioapicinit, ioapicread. wp_steps. fold (maxintr s).
  assert (Hb : 0 <= maxintr s < 256).
  { unfold maxintr. change 0xFF with (Z.ones 8). rewrite Z.land_ones by lia. apply Z.mod_pos_bound. lia. }
  eapply wp_mono.
  { replace (Z.land (Z.shiftr (default 0 (io_regs s !! REG_VER)) 16) 0xFF + 1) with (Z.of_nat (Z.to_nat (maxintr s + 1))) by (unfold maxintr in *; lia).
    apply mask_all. lia. }
  cbn beta. intros [] s' (H1 & H2 & H3). apply wp_ret. split_and!; [done..|]. intros i Hi. apply H3. lia.
Qed.

(** The lines enabled so far: the last word on each. *)
Definition enabled (xs : list (Z * Z)) (i : Z) : option Z := list_to_map (M := gmap Z Z) (reverse xs) !! i.
Lemma enabled_snoc xs irq cpu i : enabled (xs ++ [(irq, cpu)]) i = if decide (i = irq) then Some cpu else enabled xs i.
Proof.
  unfold enabled. rewrite reverse_snoc. cbn. case_decide as H; [subst; apply lookup_insert_eq|by apply lookup_insert_ne].
Qed.
Lemma enable_all xs : forall ys s0 s, Forall (fun x => 0 <= x.1 < 224) xs ->
  maxintr s = maxintr s0 -> ic_out s = ic_out s0 -> (forall i, 0 <= i <= maxintr s0 -> routes (enabled ys) s i) ->
  wp (for_each (fun x => ioapicenable x.1 x.2) xs) (fun _ s' =>
    maxintr s' = maxintr s0 /\ ic_out s' = ic_out s0 /\ forall i, 0 <= i <= maxintr s0 -> routes (enabled (ys ++ xs)) s' i) s.
Proof.
  induction xs as [|[irq cpu] xs IH]; intros ys s0 s Hx Hm Ho Hr; cbn [for_each].
  { apply wp_ret. by rewrite app_nil_r. }
  apply Forall_cons in Hx as [Hi Hx]. cbn [fst snd] in *. apply wp_bind. eapply wp_mono; [apply ioapicwrite_pair|].
  intros [] s1 [R1 R2 R3 R4 R5]. cbn [fst snd] in *. eapply wp_mono; [apply (IH (ys ++ [(irq, cpu)]) s0)|].
  - done.
  - by rewrite R4 by lia.
  - by rewrite R5.
  - intros i Hib. unfold routes. rewrite enabled_snoc. case_decide as Hd.
    + subst i. rewrite R1, R2, u32_small by (unfold T_IRQ0; lia). done.
    + destruct (R3 i Hd) as [E1 E2]. rewrite E1, E2. by apply Hr.
  - cbn beta. intros [] s' H. by rewrite <-app_assoc in H.
Qed.

(** The lines that the drivers of the console, the serial port and the disk ask for. *)
Definition boot_irqs (ncpu : Z) : list (Z * Z) := [(IRQ_KBD, 0); (IRQ_COM1, 0); (IRQ_IDE, ncpu - 1)].
Definition irq_setup (ioapicid ncpu : Z) : M intc unit :=
  picinit;; ioapicinit ioapicid;; for_each (fun x => ioapicenable x.1 x.2) (boot_irqs ncpu).

(** How the controller reads an entry. *)
Lemma routes_some f s i cpu : f i = Some cpu -> 0 <= i < 224 -> 0 <= cpu < 256 -> routes f s i ->
  masked s i = false /\ vector s i = T_IRQ0 + i /\ target s i = cpu.
Proof.
  intros Hf Hi Hc Hr. unfold routes in Hr. rewrite Hf in Hr. destruct Hr as [E1 E2]. unfold masked, vector, target. rewrite E1, E2.
  unfold T_IRQ0. rewrite Z.shiftl_mul_pow2, u32_small, Z.shiftr_div_pow2, Z.div_mul, Z.mod_small by lia. split_and!; [|done..].
  apply Z.bits_above_log2; [lia|]. apply Z.le_lt_trans with (Z.log2 511); [apply Z.log2_le_mono; lia|done].
Qed.
Lemma routes_none f s i : f i = None -> 0 <= i < 256 -> routes f s i -> masked s i = true.
Proof.
  intros Hf Hi Hr. unfold routes in Hr. rewrite Hf in Hr. destruct Hr as [E1 _]. unfold masked. rewrite E1, Z.lor_spec. done.
Qed.

Definition demo_intc : intc := MkIntc [] 0 0 {[ REG_VER := 0x170011 ]} [] [].

(** * The local controller *)

(** What a register was set to last. *)
Definition lapic_reg (s : intc) (r : Z) : option Z := snd <$> last (filter (fun w => w.1 = r) (lapic_w s)).
(** Only the writes count. *)
Definition writes (ws : list (Z * Z)) (s s' : intc) : Prop :=
  lapic_w s' = lapic_w s ++ ws /\ io_regs s' = io_regs s /\ ic_out s' = ic_out s /\ ic_mem s' = ic_mem s.
Lemma icr_wait_ends icr k : forall fuel s, (k < fuel)%nat -> Z.land (icr (icr_polls s + k)%nat) DELIVS = 0 ->
  wp (icr_wait icr fuel) (fun _ s' => writes [] s s') s.
Proof.
  induction k as [|k IH]; intros [|fuel] s Hf Hk; try lia; cbn [icr_wait]; wp_steps.
  - rewrite Nat.add_0_r in Hk. rewrite (proj2 (Z.eqb_eq _ _) Hk). apply wp_ret. unfold writes. cbn. by rewrite app_nil_r.
  - destruct (_ =? 0); [apply wp_ret; unfold writes; cbn; by rewrite app_nil_r|].
    eapply wp_mono; [apply IH; [lia|]|].
    + cbn. by replace (S (icr_polls s + k)) with (icr_polls s + S k)%nat by lia.
    + cbn beta. intros [] s' H. exact H.
Qed.
Definition lapicinit_writes (ver : Z) : list (Z * Z) :=
  [(SVR, 0x13F); (TDCR, 0xB); (TIMER, 0x20020); (TICR, 1000000); (LINT0, MASKED); (LINT1, MASKED)] ++
  (if 4 <=? Z.land (Z.shiftr ver 16) 0xFF then [(PCINT, MASKED)] else []) ++
  [(ERROR, 51); (ESR, 0); (ESR, 0); (EOI, 0); (ICRHI, 0); (ICRLO, 0x88500); (TPR, 0)].
Lemma lapicinit_runs lapic ver icr k fuel s : lapic <> 0 -> (k < fuel)%nat -> Z.land (icr (icr_polls s + k)%nat) DELIVS = 0 ->
  wp (lapicinit lapic ver icr fuel) (fun _ s' => writes (lapicinit_writes ver) s s') s.
Proof.
  intros Hl Hf Hk. unfold lapicinit, lapicw. rewrite (proj2 (Z.eqb_neq _ _) Hl). wp_steps.
  assert (Hstep : forall (s1 : intc) ws, writes ws s s1 -> icr_polls s1 = icr_polls s ->
    wp (icr_wait icr fuel) (fun _ s' => wp (modify (add_lapic_w TPR (u32 0))) (fun _ s' => writes (ws ++ [(TPR, 0)]) s s') s') s1).
  { intros s1 ws Hw Hp. eapply wp_mono; [apply (icr_wait_ends icr k); [done|by rewrite Hp]|].
    cbn beta. intros [] s2 (H1 & H2 & H3 & H4). destruct Hw as (W1 & W2 & W3 & W4). apply wp_modify. unfold writes. cbn.
    rewrite H1, app_nil_r, W1, <-app_assoc. split_and!; [done|by rewrite H2|by rewrite H3|by rewrite H4]. }
  unfold lapicinit_writes. destruct (4 <=? _); wp_steps.
  - apply (Hstep _ [(SVR, 0x13F); (TDCR, 0xB); (TIMER, 0x20020); (TICR, 1000000); (LINT0, MASKED); (LINT1, MASKED); (PCINT, MASKED);
      (ERROR, 51); (ESR, 0); (ESR, 0); (EOI, 0); (ICRHI, 0); (ICRLO, 0x88500)]); [|done].
    split_and!; [|reflexivity..]. cbn [lapic_w add_lapic_w]. rewrite <-!app_assoc. reflexivity.
  - apply (Hstep _ [(SVR, 0x13F); (TDCR, 0xB); (TIMER, 0x20020); (TICR, 1000000); (LINT0, MASKED); (LINT1, MASKED);
      (ERROR, 51); (ESR, 0); (ESR, 0); (EOI, 0); (ICRHI, 0); (ICRLO, 0x88500)]); [|done].
    split_and!; [|reflexivity..]. cbn [lapic_w add_lapic_w]. rewrite <-!app_assoc. reflexivity.
Qed.

(** [lapicinit] ends once the command is delivered; the timer then interrupts periodically at the
    vector of the clock, the unit is on, the two lines are masked and no priority is held back. *)
Theorem lapicinit_timer lapic ver icr k fuel s : lapic <> 0 -> (k < fuel)%nat -> Z.land (icr (icr_polls s + k)%nat) DELIVS = 0 ->
  wp (lapicinit lapic ver icr fuel) (fun _ s' => exists t v,
    lapic_reg s' TIMER = Some t /\ t mod 256 = T_IRQ0 + IRQ_TIMER /\ Z.testbit t 16 = false /\ Z.testbit t 17 = true /\
    lapic_reg s' SVR = Some v /\ Z.testbit v 8 = true /\
    lapic_reg s' LINT0 = Some MASKED /\ lapic_reg s' LINT1 = Some MASKED /\ lapic_reg s' TPR = Some 0) s.
Proof.
  intros Hl Hf Hk. eapply wp_mono; [by apply (lapicinit_runs _ _ _ k)|]. cbn beta. intros [] s' (H & _).
  assert (Hr : forall r, is_Some (last (filter (fun w : Z * Z => w.1 = r) (lapicinit_writes ver))) ->
    lapic_reg s' r = snd <$> last (filter (fun w : Z * Z => w.1 = r) (lapicinit_writes ver))).
  { intros r [w Hw]. unfold lapic_reg. rewrite H, filter_app. rewrite Hw.
    apply last_Some in Hw as [l Hw]. rewrite Hw, app_assoc, last_snoc. done. }
  exists 0x20020, 0x13F. rewrite !Hr; unfold lapicinit_writes; destruct (4 <=? _); try (by eexists); split_and!; reflexivity.
Qed.

(** * The other processors *)

(** The messages that start a processor, and the words left for it in low memory: its stack, the entry point and
    the page table in front of the code, and the warm reset vector. *)
Definition start_messages (apicid : Z) : list (Z * Z) :=
  let hi := u32 (Z.shiftl apicid 24) in
  [(ICRHI, hi); (ICRLO, 0xC500); (ICRLO, 0x8500); (ICRHI, hi); (ICRLO, 0x607); (ICRHI, hi); (ICRLO, 0x607)].
Definition start_words (mpenter entrypgdir stack : Z) : list (Z * list Z) :=
  let code := P2V 0x7000 in
  [(code - 4, le_bytes 4 (u32 (stack + KSTACKSIZE))); (code - 8, le_bytes 4 mpenter); (code - 12, le_bytes 4 (V2P entrypgdir));
   (P2V 0x467, le_bytes 2 0); (P2V 0x467 + 2, le_bytes 2 0x700)].

Section started.
Context {X : Type} (kalloc : M X (option Z)) (lapic lapic_id : Z) (entryother : list Z) (mpenter entrypgdir : Z).
Context (started : nat -> nat -> bool) (fuel : nat).
(** [I st x]: the pages [st] have been given out as stacks, at most [limit] of them. *)
Context (Hlapic : lapic <> 0) (limit : nat) (I : list Z -> X -> Prop).
Context (Halloc : forall st x, I st x -> (length st < limit)%nat -> wp kalloc (fun r x' => exists p, r = Some p /\ I (st ++ [p]) x') x).
(** Every processor that is started answers in time. *)
Context (Hstart : forall i, exists n, (n < fuel)%nat /\ started i n = true).

Lemma await_ends i n f s : (exists k, (k < f)%nat /\ started i (n + k) = true) -> await (X := X) started f i n s = Ok (tt, s).
Proof.
  revert n. induction f as [|f IH]; intros n (k & Hk & Hs); [lia|]. cbn [await]. destruct (started i n) eqn:E; [done|].
  apply IH. destruct k as [|k]; [rewrite Nat.add_0_r in Hs; congruence|]. exists k. split; [lia|]. by replace (S n + k)%nat with (n + S k)%nat by lia.
Qed.
(** The processors [ids] have been sent their messages, and each has got its stack. *)
Definition sent (st ids : list Z) (s s' : X * intc) : Prop :=
  exists new, length new = length ids /\ I (st ++ new) s'.1 /\ lapic_w s'.2 = lapic_w s.2 ++ (ids ≫= start_messages) /\
    ic_mem s'.2 = ic_mem s.2 ++ (new ≫= start_words mpenter entrypgdir) /\ io_regs s'.2 = io_regs s.2.
Lemma start_cpu_runs st i a s : I st s.1 -> (length st < limit)%nat ->
  wp (start_cpu kalloc lapic mpenter entrypgdir started fuel i a) (fun _ s' => sent st [a] s s') s.
Proof.
  intros HI Hlt. unfold start_cpu. apply wp_bind, wp_zoom. eapply wp_mono; [by apply Halloc|]. cbn beta. intros r x' (p & -> & HI').
  unfold on_intc, lapicstartap, startup_ipi, lapicw. rewrite (proj2 (Z.eqb_neq _ _) Hlapic). wp_steps.
  destruct (Hstart i) as (n & Hn & Hs). eapply wp_run; [by apply await_ends; exists n|].
  exists [p]. split; [done|]. split; [done|]. cbn [fst snd lapic_w ic_mem io_regs add_lapic_w add_mem add_out]. rewrite <-!app_assoc. done.
Qed.
(** The identifiers of the processors from number [i] on that are not number [me]. *)
Definition others (me i : nat) (cs : list cpu) : list Z :=
  mjoin (imap (fun j c => if bool_decide ((i + j)%nat = me) then [] else [c_apicid c]) cs).
Lemma others_cons me i c cs : others me i (c :: cs) = (if bool_decide (i = me) then [] else [c_apicid c]) ++ others me (S i) cs.
Proof.
  unfold others. rewrite imap_cons, Nat.add_0_r. cbn [mjoin list_join]. do 2 f_equal. apply imap_ext. intros j c0 _. cbn.
  by replace (i + S j)%nat with (S (i + j)) by lia.
Qed.
Lemma startothers_from_runs all me cs : forall st i s, mycpu all false (lapicid lapic lapic_id) = Ok me -> I st s.1 ->
  (length st + length cs <= limit)%nat ->
  wp (startothers_from kalloc lapic lapic_id mpenter entrypgdir started fuel all cs i) (fun _ s' => sent st (others me i cs) s s') s.
Proof.
  induction cs as [|c cs IH]; intros st i s Hme HI Hlim; cbn [startothers_from length] in *.
  { apply wp_ret. exists []. cbn. by rewrite !app_nil_r. }
  apply wp_bind. eapply wp_run; [by rewrite Hme|]. apply wp_bind. rewrite others_cons. case_bool_decide.
  { apply wp_ret. apply IH; [done|done|lia]. }
  eapply wp_mono; [apply (start_cpu_runs st); [done|lia]|]. cbn beta. intros [] s1 ([|p [|]] & Hl1 & HI1 & Hw1 & Hm1 & Hr1); try done.
  eapply wp_mono; [apply (IH (st ++ [p]) (S i) s1 Hme HI1); rewrite length_app; cbn; lia|]. cbn beta.
  intros [] s2 (new & Hl2 & HI2 & Hw2 & Hm2 & Hr2). exists (p :: new). rewrite <-app_assoc in HI2. split; [cbn; by rewrite Hl2|]. split; [done|].
  rewrite Hw2, Hw1, Hm2, Hm1, Hr2, Hr1, <-!app_assoc. done.
Qed.

(** [startothers] ends when the processors answer, and has then sent to every processor of the table
    but the one it runs on, in order, one INIT and two STARTUP messages that point at the entry code, and left
    for each of them a stack of its own. *)
Theorem startothers_starts cpus me s : mycpu cpus false (lapicid lapic lapic_id) = Ok me -> I [] s.1 -> (length cpus <= limit)%nat ->
  wp (startothers kalloc lapic lapic_id entryother mpenter entrypgdir started fuel cpus) (fun _ s' => exists st,
    length st = length (others me 0 cpus) /\ I st s'.1 /\ lapic_w s'.2 = lapic_w s.2 ++ (others me 0 cpus ≫= start_messages) /\
    ic_mem s'.2 = ic_mem s.2 ++ (P2V 0x7000, entryother) :: (st ≫= start_words mpenter entrypgdir) /\ io_regs s'.2 = io_regs s.2) s.
Proof.
  intros Hme HI Hlim. unfold startothers, on_intc. apply wp_bind, wp_zoom, wp_modify.
  eapply wp_mono; [by apply (startothers_from_runs _ me _ [])|]. cbn beta. intros [] s' (st & H1 & H2 & H3 & H4 & H5).
  exists st. split_and!; [done..| |done]. rewrite H4. cbn. by rewrite <-app_assoc.
Qed.
End started.
