(* ===== verification/Proc0.v ===== *)
(** proc.c as the Makefile builds it by default, [CS333_PROJECT] 0: no state lists, the table is scanned.

    What does not depend on the project ([exit_files], [growproc], [forkret], the end of [sleep])
    is in Proc.v. *)

From stdpp Require Import base tactics numbers option list gmap sets strings.
From Stdlib Require Import ZArith Lia.
From S2P Require Import Prelude ProcDefs StateLists PtableRep Spinlock CString Kernel Proc KernelFacts SchedFacts ProcExamples.

(** [for(p = ptable.proc; p < &ptable.proc[NPROC]; p++)] *)
Definition slots : list nat := seq 0 NPROC.

(** * On the table *)

(** The first UNUSED slot. *)
Fixpoint find_unused (ps : list nat) : M ptable (option nat) :=
  match ps with
  | [] => mret None
  | p :: ps => st ← rd p_state p; if bool_decide (st = UNUSED) then mret (Some p) else find_unused ps
  end.

Definition wakeup1_0 (ch : chan) : M ptable unit :=
  for_each (fun p =>
    st ← rd p_state p;
    pch ← rd p_chan p;
    if bool_decide (st = SLEEPING) && bool_decide (pch = ch) then wr (set_p_state RUNNABLE) p else mret tt) slots.

Fixpoint kill_from (pid : Z) (ps : list nat) : M ptable Z :=
  match ps with
  | [] => mret (-1)
  | p :: ps =>
      q ← rd p_pid p;
      if q =? u32 pid then
        wr (set_p_killed 1) p;;
        st ← rd p_state p;
        (if bool_decide (st = SLEEPING) then wr (set_p_state RUNNABLE) p else mret tt);;
        mret 0
      else kill_from pid ps
  end.
Definition kill_body0 (pid : Z) : M ptable Z := kill_from pid slots.

(** Abandoned children go to [init]. *)
Definition reparent0 (cur : nat) (init : option nat) : M ptable unit :=
  for_each (fun p =>
    par ← rd p_parent p;
    if bool_decide (par = Some cur) then
      wr (set_p_parent init) p;;
      st ← rd p_state p;
      if bool_decide (st = ZOMBIE) then wakeup1_0 (from_option CProc CNull init) else mret tt
    else mret tt) slots.
Definition exit_body0 (cur : nat) (init : option nat) : M ptable unit :=
  par ← rd p_parent cur;
  wakeup1_0 (from_option CProc CNull par);;
  reparent0 cur init;;
  wr (set_p_state ZOMBIE) cur;;
  wr (set_p_sz 0) cur.

(** A zombie child, or whether there are children. *)
Fixpoint wait_scan0 (cur : nat) (ps : list nat) (havekids : bool) : M ptable (ctl nat bool) :=
  match ps with
  | [] => mret (Continue havekids)
  | p :: ps =>
      par ← rd p_parent p;
      if bool_decide (par = Some cur) then
        st ← rd p_state p;
        if bool_decide (st = ZOMBIE) then mret (Return p) else wait_scan0 cur ps true
      else wait_scan0 cur ps havekids
  end.

(** * The routines *)

Section routines.
Context {X : Type} `{!Services X}.
Context (forkret_addr : Z).
Context (swtch_out : nat -> K X unit) (swtch_in : nat -> nat -> K X unit).
Local Abbreviation K := (K X).

Definition allocproc0 (c : nat) : K (option nat) :=
  acquire_lk c PTLOCK;;
  op ← lift_pt (find_unused slots);
  match op with
  | None => release_lk c PTLOCK;; mret None
  | Some p =>
      lift_pt (wr (set_p_state EMBRYO) p);;
      n ← gets nextpid;
      modify (set_nextpid (u32 (n + 1)));;
      lift_pt (wr (set_p_pid n) p);;
      release_lk c PTLOCK;;
      ks ← lift_ext sv_kalloc;
      lift_pt (wr (set_p_kstack ks) p);;
      match ks with
      | None => lift_pt (wr (set_p_state UNUSED) p);; mret None
      | Some _ => lift_pt (wr (set_p_context (MkContext 0 0 0 0 forkret_addr)) p);; mret (Some p)
      end
  end.

Definition userinit0 (c : nat) : K unit :=
  op ← allocproc0 c;
  modify (set_initproc op);;
  p ← nonnull op;
  pd ← lift_ext sv_setupkvm;
  lift_pt (wr (set_p_pgdir pd) p);;
  panic_if (bool_decide (pd = None)) "userinit: out of memory?";;
  lift_ext (sv_inituvm (from_option id 0 pd));;
  lift_pt (wr (set_p_sz PGSIZE) p);;
  lift_pt (wr (set_p_tf init_tf) p);;
  nm ← lift_pt (rd p_name p);
  nm' ← deref (fun _ => safestrcpy nm initcode_name 16);
  lift_pt (wr (set_p_name nm') p);;
  cwd ← lift_ext sv_namei_root;
  lift_pt (wr (set_p_cwd cwd) p);;
  acquire_lk c PTLOCK;;
  lift_pt (wr (set_p_state RUNNABLE) p);;
  release_lk c PTLOCK.

Definition fork_copy0 (cur np : nat) (sz : Z) : K Z :=
  lift_pt (wr (set_p_sz sz) np);;
  lift_pt (wr (set_p_parent (Some cur)) np);;
  tf ← lift_pt (rd p_tf cur);
  lift_pt (wr (set_p_tf (set_tf_eax 0 tf)) np);;
  fs ← lift_pt (rd p_ofile cur);
  dup_files fs;;
  lift_pt (wr (fun r => set_p_ofile (copy_ofile fs (p_ofile r)) r) np);;
  ocwd ← lift_pt (rd p_cwd cur);
  cwd ← nonnull ocwd;
  lift_ext (sv_idup cwd);;
  lift_pt (wr (set_p_cwd (Some cwd)) np);;
  nm ← lift_pt (rd p_name cur);
  nm0 ← lift_pt (rd p_name np);
  nm' ← deref (fun _ => safestrcpy nm0 nm 16);
  lift_pt (wr (set_p_name nm') np);;
  lift_pt (rd p_pid np).
Definition fork0 (c : nat) : K Z :=
  cur ← curproc c;
  onp ← allocproc0 c;
  match onp with
  | None => mret (-1)
  | Some np =>
      opd ← lift_pt (rd p_pgdir cur);
      pd ← deref (fun _ => opd);
      sz ← lift_pt (rd p_sz cur);
      npd ← lift_ext (sv_copyuvm pd sz);
      lift_pt (wr (set_p_pgdir npd) np);;
      match npd with
      | None =>
          oks ← lift_pt (rd p_kstack np);
          ks ← deref (fun _ => oks);
          lift_ext (sv_kfree ks);;
          lift_pt (wr (set_p_kstack None) np);;
          lift_pt (wr (set_p_state UNUSED) np);;
          mret (-1)
      | Some _ =>
          pid ← fork_copy0 cur np sz;
          acquire_lk c PTLOCK;;
          lift_pt (wr (set_p_state RUNNABLE) np);;
          release_lk c PTLOCK;;
          mret (s32 pid)
      end
  end.

(** [sched] without the accounting of project 2. *)
Definition sched_enter0 (c : nat) : K bool :=
  p ← curproc c;
  h ← holding_lk c PTLOCK;
  panic_if (negb h) "sched ptable.lock";;
  n ← on_cpu c (mycpu_check;; gets c_ncli);
  panic_if (negb (n =? 1)) "sched locks";;
  st ← lift_pt (rd p_state p);
  panic_if (bool_decide (st = RUNNING)) "sched running";;
  i ← on_cpu c (gets c_if);
  panic_if i "sched interruptible";;
  on_cpu c (mycpu_check;; gets c_intena).
Definition sched0 (c : nat) : K unit :=
  intena ← sched_enter0 c;
  swtch_out c;;
  on_cpu c (mycpu_check;; modify (set_c_intena intena)).

Definition exit0 (c : nat) : K unit :=
  cur ← curproc c;
  init ← gets initproc;
  panic_if (bool_decide (Some cur = init)) "init exiting";;
  exit_files cur;;
  acquire_lk c PTLOCK;;
  lift_pt (exit_body0 cur init);;
  sched0 c;;
  fail (EPanic "zombie exit").

Definition yield0 (c : nat) : K unit :=
  cur ← curproc c;
  acquire_lk c PTLOCK;;
  lift_pt (wr (set_p_state RUNNABLE) cur);;
  sched0 c;;
  release_lk c PTLOCK.

Definition sleep0 (c : nat) (ch : chan) (lk : option nat) : K unit :=
  op ← kmyproc c;
  panic_if (bool_decide (op = None)) "sleep";;
  cur ← nonnull op;
  (if bool_decide (lk <> Some PTLOCK) then
     acquire_lk c PTLOCK;;
     match lk with Some l => release_lk c l | None => mret tt end
   else mret tt);;
  lift_pt (wr (set_p_chan ch) cur);;
  lift_pt (wr (set_p_state SLEEPING) cur);;
  sched0 c;;
  sleep_leave c lk cur.

Fixpoint wait_loop0 (n : nat) (c cur : nat) : K Z :=
  match n with
  | O => fail EFuel
  | S n =>
      r ← lift_pt (wait_scan0 cur slots false);
      match r with
      | Return p =>
          pid ← lift_pt (rd p_pid p);
          oks ← lift_pt (rd p_kstack p);
          ks ← deref (fun _ => oks);
          lift_ext (sv_kfree ks);;
          lift_pt (wr (set_p_kstack None) p);;
          opd ← lift_pt (rd p_pgdir p);
          pd ← deref (fun _ => opd);
          lift_ext (sv_freevm pd);;
          lift_pt (wr reap_fields p);;
          lift_pt (wr (set_p_state UNUSED) p);;
          release_lk c PTLOCK;;
          mret (s32 pid)
      | Continue havekids =>
          k ← lift_pt (rd p_killed cur);
          if negb havekids || negb (k =? 0) then
            release_lk c PTLOCK;; mret (-1)
          else
            sleep0 c (CProc cur) (Some PTLOCK);;
            wait_loop0 n c cur
      end
  end.
Definition wait0 (n : nat) (c : nat) : K Z :=
  cur ← curproc c; acquire_lk c PTLOCK;; wait_loop0 n c cur.

(** The scan of [scheduler], under the lock; the result is the processes it ran, in order. *)
Fixpoint scheduler_scan (c : nat) (ps : list nat) : K (list nat) :=
  match ps with
  | [] => mret []
  | p :: ps =>
      st ← lift_pt (rd p_state p);
      if bool_decide (st <> RUNNABLE) then scheduler_scan c ps else
      on_cpu c (modify (set_c_proc (Some p)));;
      switchuvm c p;;
      lift_pt (wr (set_p_state RUNNING) p);;
      swtch_in c p;;
      switchkvm c;;
      on_cpu c (modify (set_c_proc None));;
      ran ← scheduler_scan c ps;
      mret (p :: ran)
  end.
(** One round of [scheduler]. *)
Definition scheduler0 (c : nat) : K (list nat) :=
  on_cpu c (modify (set_c_if true));;
  acquire_lk c PTLOCK;;
  ran ← scheduler_scan c slots;
  release_lk c PTLOCK;;
  (if bool_decide (ran = []) then on_cpu c (modify (set_c_if true)) else mret tt);;
  mret ran.

Definition wakeup0 (c : nat) (ch : chan) : K unit :=
  acquire_lk c PTLOCK;; lift_pt (wakeup1_0 ch);; release_lk c PTLOCK.
Definition kill0 (c : nat) (pid : Z) : K Z := with_ptable c (kill_body0 pid).
End routines.

(** The table-scanning process management of project 0. *)

Definition sized0 (t : ptable) : Prop := length (procs t) = NPROC.

(** * Scans that treat each slot by itself *)

(** A loop over all slots whose body maps the slot at hand by [g] maps the table. *)
Lemma for_slots (g : proc -> proc) (body : nat -> M ptable unit) t :
  sized0 t ->
  (forall p r t, procs t !! p = Some r -> wp (body p) (fun _ t' => t' = set_procs (<[p := g r]> (procs t)) t) t) ->
  wp (for_each body slots) (fun _ t' => t' = set_procs (g <$> procs t) t) t.
Proof.
  intros Ht Hb. unfold slots.
  assert (H : forall k t0, (k <= NPROC)%nat -> t0 = set_procs ((g <$> take k (procs t)) ++ drop k (procs t)) t ->
    wp (for_each body (seq k (NPROC - k))) (fun _ t' => t' = set_procs (g <$> procs t) t) t0).
  { intros k. remember (NPROC - k)%nat as n eqn:En. revert k En. induction n as [|n IH]; intros k En t0 Hk ->; cbn [for_each seq].
    - apply wp_ret. rewrite take_ge, drop_ge by (rewrite Ht; lia). by rewrite app_nil_r.
    - destruct (lookup_lt_is_Some_2 (procs t) k ltac:(rewrite Ht; lia)) as [r Hr].
      assert (Hl : length (g <$> take k (procs t)) = k) by (rewrite length_fmap, length_take, Ht; lia).
      apply wp_bind. eapply wp_mono; [apply (Hb k r)|].
      + cbn [procs set_procs]. rewrite lookup_app_r, Hl, Nat.sub_diag, lookup_drop, Nat.add_0_r by lia. done.
      + intros [] t1 ->. apply IH; [lia|lia|]. cbn [procs set_procs].
        rewrite (take_S_r _ _ _ Hr), fmap_app, (drop_S _ _ _ Hr), insert_app_r_alt, Hl, Nat.sub_diag by lia. cbn.
        by rewrite <-app_assoc. }
  specialize (H 0%nat t ltac:(lia)). rewrite Nat.sub_0_r in H. apply H. cbn. by destruct t.
Qed.

(** [wakeup1] on one slot. *)
Definition woken0 (ch : chan) (r : proc) : proc :=
  if bool_decide (p_state r = SLEEPING) && bool_decide (p_chan r = ch) then set_p_state RUNNABLE r else r.

Lemma wakeup1_0_spec ch t : sized0 t ->
  wp (wakeup1_0 ch) (fun _ t' => t' = set_procs (woken0 ch <$> procs t) t) t.
Proof.
  intros Ht. apply for_slots; [done|]. intros p r t0 Hr. apply wp_bind. eapply wp_rd; [done|].
  apply wp_bind. eapply wp_rd; [done|]. unfold woken0. destruct (_ && _).
  - eapply wp_store; [by rewrite Hr|]. done.
  - apply wp_ret. rewrite list_insert_id by done. by destruct t0.
Qed.

(** * Searches *)


(** A slot that satisfies [f], the first one. *)
Definition first_slot (f : proc -> bool) (P : list proc) : option (nat * proc) := list_find (fun r => f r = true) P.

Lemma list_find_drop {A} (f : A -> Prop) `{!forall x, Decision (f x)} k (l : list A) x : l !! k = Some x ->
  list_find f (drop k l) = if decide (f x) then Some (0%nat, x) else prod_map S id <$> list_find f (drop (S k) l).
Proof. intros Hx. rewrite (drop_S _ _ _ Hx). cbn. case_decide; done. Qed.

(** A scan that stops at the first slot satisfying [f]. *)
Fixpoint scan {A} (f : proc -> bool) (hit : nat -> M ptable A) (miss : A) (ps : list nat) : M ptable A :=
  match ps with
  | [] => mret miss
  | p :: ps => b ← rd f p; if (b : bool) then hit p else scan f hit miss ps
  end.
Lemma scan_spec {A} f hit (miss : A) t (Q : A -> ptable -> Prop) : sized0 t ->
  match first_slot f (procs t) with Some (p, _) => wp (hit p) Q t | None => Q miss t end ->
  wp (scan f hit miss slots) Q t.
Proof.
  intros Ht. unfold slots, first_slot.
  assert (H : forall n k, (n + k = NPROC)%nat ->
    match list_find (fun r => f r = true) (drop k (procs t)) with Some (p, _) => wp (hit (k + p)%nat) Q t | None => Q miss t end ->
    wp (scan f hit miss (seq k n)) Q t).
  { intros n. induction n as [|n IH]; intros k Hk HQ; cbn [scan seq].
    - rewrite drop_ge in HQ by (rewrite Ht; lia). by apply wp_ret.
    - destruct (lookup_lt_is_Some_2 (procs t) k ltac:(rewrite Ht; lia)) as [r Hr]. rewrite (list_find_drop _ _ _ _ Hr) in HQ.
      apply wp_bind. eapply wp_rd; [done|]. destruct (decide (f r = true)) as [->|E%not_true_is_false]; [by rewrite Nat.add_0_r in HQ|].
      rewrite E. apply IH; [lia|]. destruct (list_find _ (drop (S k) (procs t))) as [[p r']|]; [|done]. cbn in HQ.
      by rewrite <-plus_n_Sm in HQ. }
  intros HQ. apply H; [lia|]. by rewrite drop_0.
Qed.

Lemma find_unused_scan ps t :
  find_unused ps t = scan (fun r => bool_decide (p_state r = UNUSED)) (fun p => mret (Some p)) None ps t.
Proof.
  induction ps as [|p ps IH]; cbn [find_unused scan]; [done|]. unfold rd, deref, mbind, M_bind.
  destruct (procs t !! p) as [r|]; cbn; [|done]. by case_bool_decide.
Qed.
Lemma find_unused_spec t : sized0 t ->
  wp (find_unused slots) (fun o t' => t' = t /\ o = fst <$> first_slot (fun r => bool_decide (p_state r = UNUSED)) (procs t)) t.
Proof.
  intros Ht. eapply wp_same; [apply find_unused_scan|]. apply scan_spec; [done|].
  by destruct (first_slot _ _) as [[p r]|].
Qed.

(** [kill] on the slot it finds. *)
Definition killed0 (r : proc) : proc :=
  set_p_killed 1 (if bool_decide (p_state r = SLEEPING) then set_p_state RUNNABLE r else r).
Definition hit_kill (p : nat) : M ptable Z :=
  wr (set_p_killed 1) p;;
  st ← rd p_state p;
  (if bool_decide (st = SLEEPING) then wr (set_p_state RUNNABLE) p else mret tt);;
  mret 0.
Lemma kill_scan pid ps t : kill_from pid ps t = scan (fun r => p_pid r =? u32 pid) hit_kill (-1) ps t.
Proof.
  induction ps as [|p ps IH]; cbn [kill_from scan]; [done|]. unfold rd, deref, mbind, M_bind.
  destruct (procs t !! p) as [r|]; cbn; [|done]. by destruct (_ =? _).
Qed.
Lemma hit_kill_spec p r t : procs t !! p = Some r ->
  wp (hit_kill p) (fun v t' => v = 0 /\ t' = set_procs (<[p := killed0 r]> (procs t)) t) t.
Proof.
  intros Hr. pose proof (lookup_lt_Some _ _ _ Hr) as Hlt. apply wp_bind. eapply wp_store; [by rewrite Hr|].
  apply wp_bind. eapply wp_rd; [cbn; by apply list_lookup_insert_eq|]. apply wp_bind. cbn [p_state set_p_killed].
  unfold killed0. destruct (bool_decide _).
  - eapply wp_store; [cbn; by rewrite list_lookup_insert_eq|]. apply wp_ret. split; [done|]. cbn. by rewrite list_insert_insert_eq.
  - apply wp_ret, wp_ret. done.
Qed.
Lemma kill0_spec pid t : sized0 t ->
  wp (kill_body0 pid) (fun v t' =>
    match first_slot (fun r => p_pid r =? u32 pid) (procs t) with
    | Some (p, r) => v = 0 /\ t' = set_procs (<[p := killed0 r]> (procs t)) t
    | None => v = -1 /\ t' = t
    end) t.
Proof.
  intros Ht. eapply wp_same; [apply kill_scan|]. apply scan_spec; [done|].
  destruct (first_slot _ _) as [[p r]|] eqn:E; [|done]. apply list_find_Some in E as (Hr & _). by apply hit_kill_spec.
Qed.

(** The slots of reaped and of unused processes have pid 0, and [allocproc] does not clear [killed]: [kill(0)] succeeds,
    marks a free slot, and the next process made there is born killed. *)
Theorem kill_zero_marks_free_slot j r t : sized0 t -> first_slot (fun r => p_pid r =? 0) (procs t) = Some (j, r) ->
  first_slot (fun r => bool_decide (p_state r = UNUSED)) (procs t) = Some (j, r) ->
  wp (kill_body0 0;; find_unused slots) (fun o t' => o = Some j /\ exists r', procs t' !! j = Some r' /\ p_killed r' = 1) t.
Proof.
  intros Ht Hz Hu. apply wp_bind. eapply wp_mono; [by apply kill0_spec|]. cbn beta. change (u32 0) with 0. rewrite Hz.
  intros v t' [_ ->]. apply list_find_Some in Hu as (Hr & Hst%bool_decide_eq_true & Hbefore).
  pose proof (lookup_lt_Some _ _ _ Hr) as Hlt.
  assert (Hk : killed0 r = set_p_killed 1 r) by (unfold killed0; by rewrite bool_decide_eq_false_2 by congruence).
  eapply wp_mono; [apply find_unused_spec; unfold sized0; cbn; by rewrite length_insert|]. intros o t1 [-> ->]. split.
  - replace (first_slot _ _) with (Some (j, killed0 r)); [done|]. symmetry. apply list_find_Some. cbn [procs set_procs].
    rewrite list_lookup_insert_eq by done. split; [done|]. split; [rewrite Hk; by apply bool_decide_eq_true|].
    intros i y Hi Hlti. rewrite list_lookup_insert_ne in Hi by lia. eauto.
  - exists (killed0 r). cbn. rewrite list_lookup_insert_eq by done. by rewrite Hk.
Qed.

(** * The rounds of the scheduler *)

Section round.
Context {X : Type}.
Context (swtch_in : nat -> nat -> K X unit) (c q : nat).
Implicit Types s : kstate X.

Definition in_state s (p : nat) (st : procstate) : Prop := p_state <$> procs (pt s) !! p = Some st.
Notation runnable s p := (in_state s p RUNNABLE).
(** The scheduler between two processes, and a processor that runs [p] with the table locked. *)
Record scanning s (op : option nat) : Prop := {
  sc_cpu : cpu_at s c 1 op;
  sc_lock : lock_held s PTLOCK c;
  sc_size : sized0 (pt s);
  sc_backed : Forall backed (procs (pt s))
}.
(** A time slice: the process comes back through [sched], and nobody takes [q] off in between. *)
Context (slice : forall p s, scanning s (Some p) -> in_state s p RUNNING ->
  wp (swtch_in c p) (fun _ s' => scanning s' (Some p) /\ (q <> p -> runnable s q -> runnable s' q)) s).

Lemma scanning_same s s' op ls : scanning s op -> same_kernel c ls s s' -> locks s' = locks s -> cpu_at s' c 1 op -> scanning s' op.
Proof.
  intros [H1 H2 H3 H4] Hs Hk Hc. split; [done| |by rewrite (sk_pt _ _ _ _ Hs)..].
  eapply lock_held_same; [|done]. by rewrite Hk.
Qed.
Lemma runnable_same s s' ls p : same_kernel c ls s s' -> runnable s p -> runnable s' p.
Proof. intros Hs. unfold in_state. by rewrite (sk_pt _ _ _ _ Hs). Qed.
Lemma scanning_proc s s' ls op op' : scanning s op -> same_kernel c ls s s' -> locks s' = locks s -> cpu_at s' c 1 op' -> scanning s' op'.
Proof.
  intros [H1 H2 H3 H4] Hs Hk Hc. split; [done| |by rewrite (sk_pt _ _ _ _ Hs)..].
  eapply lock_held_same; [|done]. by rewrite Hk.
Qed.
(** The choice of [p]: its page table, its state. *)
Lemma scanning_runs s p r : scanning s (Some p) -> procs (pt s) !! p = Some r -> p_kstack r <> None -> p_pgdir r <> None ->
  wp (lift_pt (wr (set_p_state RUNNING) p)) (fun _ s' => (scanning s' (Some p) /\ in_state s' p RUNNING) /\ (q <> p -> runnable s q -> runnable s' q)) s.
Proof.
  intros [H1 H2 H3 H4] Hr Hks Hpd. apply wp_lift_pt. eapply wp_store; [by rewrite Hr|]. pose proof (lookup_lt_Some _ _ _ Hr). split_and!.
  - split; [done..| |]; cbn.
    + unfold sized0. cbn. by rewrite length_insert.
    + apply Forall_insert; [done|]. intros _. done.
  - unfold in_state. cbn. by rewrite list_lookup_insert_eq.
  - intros Hne. unfold in_state. cbn. by rewrite list_lookup_insert_ne.
Qed.

Lemma scan_runs ps : NoDup ps -> Forall (fun p => (p < NPROC)%nat) ps -> forall s, scanning s None -> (q ∈ ps -> runnable s q) ->
  wp (scheduler_scan swtch_in c ps) (fun ran s' => (q ∈ ps -> q ∈ ran) /\ scanning s' None) s.
Proof.
  induction ps as [|p ps IH]; intros Hnd Hlt s Hs Hq; cbn [scheduler_scan]; [by apply wp_ret|].
  apply NoDup_cons in Hnd as [Hnin Hnd]. apply Forall_cons in Hlt as [Hp Hlt].
  destruct (lookup_lt_is_Some_2 (procs (pt s)) p ltac:(rewrite (sc_size _ _ Hs); lia)) as [r Hr].
  apply wp_bind, wp_lift_pt. eapply wp_rd; [done|]. replace (set_pt (pt s) s) with s by (by destruct s).
  case_bool_decide as Hst.
  - eapply wp_mono; [apply IH; [done..|set_solver]|]. intros ran s' [H1 H2]. split; [|done].
    intros [->|Hin]%elem_of_cons; [|by auto]. destruct Hst. specialize (Hq ltac:(set_solver)). unfold in_state in Hq.
    rewrite Hr in Hq. by injection Hq.
  - pose proof (sc_backed _ _ Hs) as Hb. rewrite Forall_lookup in Hb.
    destruct (Hb _ _ Hr ltac:(rewrite Hst; set_solver)) as [Hks Hpd].
    apply wp_bind. eapply (wp_cpu_write _ _ _ _ _ (Some p) 1); [apply Hs|by intros k ? ? ?|]. intros s1 Hs1 Hk1 Hc1.
    pose proof (scanning_proc _ _ _ _ _ Hs Hs1 Hk1 Hc1) as Hsc1. assert (Hr1 : procs (pt s1) !! p = Some r) by (by rewrite (sk_pt _ _ _ _ Hs1)).
    apply wp_bind. eapply switchuvm_slot; [done..|]. intros s2 Hs2 Hk2 Hc2.
    pose proof (scanning_same _ _ _ _ Hsc1 Hs2 Hk2 Hc2) as Hsc2. assert (Hr2 : procs (pt s2) !! p = Some r) by (by rewrite (sk_pt _ _ _ _ Hs2)).
    apply wp_bind. eapply wp_mono; [by eapply scanning_runs|]. intros [] s3 [[Hsc3 Hst3] Hq3].
    apply wp_bind. eapply wp_mono; [by apply slice|]. intros [] s4 [Hsc4 Hq4].
    unfold switchkvm. apply wp_bind, wp_bind, wp_gets. eapply wp_cpu_same; [apply Hsc4|done|]. intros s5 Hs5 Hk5 Hc5.
    apply wp_bind. eapply (wp_cpu_write _ _ _ _ _ None 1); [done|by intros k ? ? ?|]. intros s6 Hs6 Hk6 Hc6.
    pose proof (same_kernel_trans _ _ _ _ _ Hs5 Hs6) as Hs56.
    apply wp_bind. eapply wp_mono; [apply IH; [done..| |]|].
    + eapply (scanning_proc s4); [done|exact Hs56|congruence|done].
    + intros Hin. assert (q <> p) by set_solver. eapply runnable_same; [exact Hs56|]. apply Hq4, Hq3; [done..|].
      eapply runnable_same; [exact Hs2|]. eapply runnable_same; [exact Hs1|]. apply Hq. set_solver.
    + intros ran s7 [H1 H2]. apply wp_ret. split; [|done]. set_solver.
Qed.

(** C7: the scheduler of the default configuration goes round: every process that is runnable when a round
    starts, and that nobody else takes, runs in that round, and the round ends with the table unlocked. *)
Theorem round_robin s : cpu_at s c 0 None -> lock_free s PTLOCK -> sized0 (pt s) -> Forall backed (procs (pt s)) -> runnable s q ->
  wp (scheduler0 swtch_in c) (fun ran s' => q ∈ ran /\ cpu_at s' c 0 None /\ lock_free s' PTLOCK) s.
Proof.
  intros Hc Hl Hsz Hb Hq. unfold scheduler0. apply wp_bind. eapply (wp_cpu_write _ _ _ _ _ None 0); [done| |].
  { intros k [H1 H2] Hk1 Hk2. split_and!; [|done..]. split; [done|]. cbn. lia. }
  intros s0 Hs0 Hk0 Hc0. apply wp_bind. eapply wp_acquire_lk; [done| |].
  { eapply lock_free_same; [|done]. by rewrite Hk0. }
  intros s1 Hs1 Hc1 Hl1. pose proof (same_kernel_weaken _ _ [PTLOCK] _ _ (list_subseteq_nil _) Hs0) as Hs0'.
  pose proof (same_kernel_trans _ _ _ _ _ Hs0' Hs1) as Hs. pose proof (sk_pt _ _ _ _ Hs) as Hpt.
  assert (Hin : q ∈ slots).
  { unfold in_state in Hq. destruct (procs (pt s) !! q) as [r|] eqn:E; [|done]. apply lookup_lt_Some in E.
    unfold slots. apply elem_of_seq. rewrite Hsz in E. lia. }
  apply wp_bind. eapply wp_mono; [apply scan_runs|].
  - apply NoDup_seq.
  - apply Forall_forall. intros p Hp%elem_of_seq. lia.
  - split; [done..| |]; by rewrite Hpt.
  - intros _. by eapply runnable_same.
  - intros ran s2 [Hran Hsc]. specialize (Hran Hin). apply wp_bind. eapply (wp_release_lk _ c _ 1); [apply Hsc|lia|apply Hsc|].
    intros s3 Hs3 Hc3 Hl3. rewrite bool_decide_eq_false_2 by (intros ->; set_solver). done.
Qed.
End round.

(** A process that works for a while with the table unlocked and then yields. *)
Definition yields (c p : nat) : K Z unit :=
  release_lk c PTLOCK;; acquire_lk c PTLOCK;; lift_pt (wr (set_p_state RUNNABLE) p).
Lemma yields_slice c q p s : scanning c s (Some p) -> in_state s p RUNNING ->
  wp (yields c p) (fun _ s' => scanning c s' (Some p) /\ (q <> p -> in_state s q RUNNABLE -> in_state s' q RUNNABLE)) s.
Proof.
  intros [Hc Hl Hsz Hb] Hst. unfold yields. apply wp_bind. eapply (wp_release_lk _ c _ 1); [done|lia|done|]. intros s1 Hs1 Hc1 Hl1.
  apply wp_bind. eapply wp_acquire_lk; [done..|]. intros s2 Hs2 Hc2 Hl2.
  pose proof (sk_pt _ _ _ _ (same_kernel_trans _ _ _ _ _ Hs1 Hs2)) as Hpt.
  unfold in_state in *. rewrite <- Hpt in *. destruct (procs (pt s2) !! p) as [r|] eqn:Hr; [|done]. injection Hst as Hst.
  assert (Hbr : backed r) by (rewrite Forall_lookup in Hb; by eapply Hb).
  apply wp_lift_pt. eapply wp_store; [by rewrite Hr|]. cbn. split.
  - split; [done..| |]; cbn; [unfold sized0; cbn; by rewrite length_insert|].
    apply Forall_insert; [done|]. intros _. apply Hbr. rewrite Hst. set_solver.
  - intros Hne. by rewrite list_lookup_insert_ne.
Qed.
(** The child of the first process is run by the idle processor. *)
Lemma round_robin_witness :
  wp (scheduler0 yields 1) (fun ran s' => 1%nat ∈ ran /\ cpu_at s' 1 0 None /\ lock_free s' PTLOCK) st_family.
Proof.
  apply (round_robin yields 1 1 (fun p s => yields_slice 1 1 p s)).
  - apply cpu_check_sound. vm_compute. reflexivity.
  - apply free_check_sound. vm_compute. reflexivity.
  - unfold sized0. vm_compute. reflexivity.
  - apply backed_of. vm_compute. reflexivity.
  - unfold in_state. vm_compute. reflexivity.
Defined.
